(* ===== verification/_CoqProject ===== *)
-Q . S2P
Prelude.v
GoStrings.v
Errors.v
Effects.v
Regexp.v
Float64.v
Strconv.v
GoJson.v
GoNet.v
Concur.v
Task.v
ConcurTask.v
OpenStorageApi.v
NodeRegistry.v
AutopilotRules.v
Placement.v
SpecFactory.v
PxDriver.v
K8sObjects.v
VolumeDrivers.v
K8sSpecs.v
K8sNodes.v
K8sHelm.v
K8sCreate.v
K8sCreateProps.v
K8sApps.v
PxExpansion.v
K8sAutopilot.v
K8sDestroy.v
PxNodeOps.v
PxVolume.v
PureDevices.v
PxDrives.v
PxCluster.v
K8sVolumes.v
K8sCsi.v
K8sDescribe.v
SchedOpsK8s.v
SchedOpsProps.v
SchedOpsDcos.v
NodeSSH.v
NodeSSHProps.v
NodeVsphere.v
NodeVsphereProps.v
NodeCloud.v
SchedCloud.v
SchedAks.v
SchedAksProps.v
SchedGke.v
SchedIks.v
SchedIksProps.v
SchedEks.v
SchedEksProps.v
SchedOpenshift.v
SchedOpenshiftProps.v
SchedDcos.v
SchedDcosProps.v
Ipv6util.v
Backup.v
BackupWaits.v
Keycloak.v
KeycloakProps.v
BackupDemo.v
KeycloakDemo.v
PxDemo.v
PxDemoPools.v
PxDemoDrives.v
PxDemoCluster.v
K8sDemo.v
K8sAppDemo.v
SchedOpsDemo.v
NodeDemo.v
SchedDemo.v
SchedDcosDemo.v
SchedOpenshiftDemo.v
