(* ===== verification/Prelude.v ===== *)
(** * Torpedo: a verification development

    Torpedo (portworx/torpedo, under src/) tests storage clusters.  A test talks
    to drivers: a node driver runs commands on machines, a scheduler driver
    creates applications, a backup driver talks to px-backup, and a volume driver
    - the Portworx driver, by far the largest - manages volumes and nodes of the
    storage cluster through a gRPC SDK, a REST endpoint and the pxctl command.
    What the drivers know of the machines is kept in the node registry.  Nearly
    every operation is a wait: a task that is retried at an interval until it
    succeeds, stops or times out.

    ** How the parts interact

    The Kubernetes scheduler fills the node registry from the cluster
    (RefreshNodeRegistry).  A test then refreshes the Portworx driver
    (RefreshDriverEndpoints), which finds an endpoint, enumerates the storage
    cluster and writes each storage node into the registry (updateNode).
    Operations on a node read the registry, ask the SDK or pxctl inside a retry,
    and write the registry back.  Operations on volumes do the same with the
    volume services.  The scheduler driver reads the specs of applications into a
    factory, creates the objects of one in passes (CreateSpecObjects), keeps it as
    a context, whose objects it validates, scales, snapshots and waits for, and
    deletes them in passes again (Destroy).  The schedulers of the clouds embed it
    and add upgrades and scaling through the tools of the cloud.  The volume driver
    asks the node driver for commands on nodes and the scheduler operations for
    labels, mounts and pods, and estimates what autopilot will make of claims and
    pools.  The backup driver looks objects of px-backup up page by page, completes
    requests with their uids and waits for their statuses; its users, groups and
    roles are kept by a Keycloak server.

    ** Files

    The language and its libraries:
    - [Prelude]: automation, machine integers, list lemmas.
    - [GoStrings], [Strconv], [Float64]: the functions of Go's strings, path and
      strconv packages the code uses, and its float64 arithmetic.
    - [Regexp], [GoJson], [GoNet]: matching regular expressions, writing and
      reading JSON at the level of bytes, form values and HTTP requests.
    - [Effects]: results ([Ok], [Err], [Panic], [Diverge]), calls on a world
      [M W A], loops that stop at an error, the clock, variables local to a call,
      preservation of invariants.
    - [Concur]: goroutines as resumptions that others interrupt, and the group that
      collects errors in a channel; [ConcurTask]: the retry engine among
      goroutines, and errgroup.

    Shared by the drivers:
    - [Errors]: the error types and texts of pkg/errors/errors.go and of
      drivers/node, drivers/volume/portworx and drivers/scheduler.
    - [Task]: DoRetryWithTimeout (vendor/github.com/portworx/sched-ops/task/task.go)
      and, in Module TriggerApi, PerformTask (drivers/api/api.go).
    - [OpenStorageApi]: the SDK messages, with the fields that are read.
    - [NodeRegistry]: drivers/node/node.go and node_registry.go.  The registry is
      a [gmap] from uuid to [Node]; Module Registry has its operations.
    - [AutopilotRules]: the rules and waits of pkg/aututils/aututils.go.
    - [Placement]: the validators of pkg/vpsutil/vpsutil.go.
    - [Ipv6util]: the address parsers of pkg/ipv6util/ipv6util.go.

    The Kubernetes scheduler (drivers/scheduler/spec, drivers/scheduler/k8s):
    - [SpecFactory]: spec/spec.go and spec/factory.go.
    - [K8sObjects]: the objects and the context of an application, namespaces and
      affinity.  [Kind] is the dynamic type of an object; the client of the API is
      the class [K8sClient], the driver's memory [K8sState].
    - [K8sSpecs], [K8sHelm]: spec files, and Helm charts (helm.go).  Specs are
      pointers the factory shares; [SchedState] is the memory behind them.
    - [K8sCreate], [K8sCreateProps]: the passes of CreateSpecObjects, Schedule,
      AddTasks, ScheduleUninstall.
    - [K8sDestroy]: the passes of Destroy.
    - [K8sNodes]: nodes, the registry, the kubelet, draining.
    - [K8sApps]: running applications, their pods and nodes, scaling, topology.
    - [K8sVolumes], [K8sCsi]: volumes, Stork and CSI snapshots, clones.
    - [K8sAutopilot]: autopilot's events and rule objects, expected claim sizes.
    - [K8sDescribe]: set-up, descriptions, secrets, unsupported operations.

    The other schedulers (drivers/scheduler):
    - [SchedCloud]: what the schedulers of the clouds share.
    - [SchedAks], [SchedGke], [SchedIks], [SchedEks]: aks/aks.go, gke/gke.go,
      iks/iks.go and eks/eks.go, with their theorems in [SchedAksProps],
      [SchedIksProps] and [SchedEksProps] (those of Google are in [SchedGke]).
    - [SchedOpenshift], [SchedOpenshiftProps]: openshift/openshift.go, over the
      Kubernetes driver and the interfaces of the volume and node drivers.
    - [SchedDcos], [SchedDcosProps]: dcos/dcos.go over Marathon and Mesos.

    The node drivers (drivers/node):
    - [NodeSSH], [NodeSSHProps]: ssh/ssh.go.
    - [NodeVsphere], [NodeVsphereProps]: vsphere/vsphere.go.
    - [NodeCloud]: aws/aws.go, ibm/ibm.go, oracle/oracle.go.

    The volume drivers (drivers/volume):
    - [VolumeDrivers]: volume.go, common.go and the drivers for aws, azure, gce,
      generic_csi, ibm, linstor, ocp and pso.
    - [PxDriver]: portworx/portworx.go, connection and node refresh.  [PxState]
      holds the fields of the driver that change and the registry; the interfaces
      it calls ([NodeDriver], [SchedOps], [K8sCore], [PxSdk]) are type classes over
      the world.
    - [SchedOpsK8s], [SchedOpsProps], [SchedOpsDcos]: portworx/schedops.
    - [PxExpansion]: the estimates of expanded pools and volumes, and the
      validation of pools against them.
    - [PxNodeOps]: pxctl, waiting for the driver, maintenance, pools, node id
      migration, stop and kill, decommissioning, rejoining, recovery.
    - [PxVolume]: creation and clean-up of volumes, validation against the
      requested parameters, attachment, replication.
    - [PureDevices]: multipath devices of Pure volumes.
    - [PxDrives]: drives and pools as pxctl reports them.
    - [PxCluster]: cloud snapshots, diagnostics (with pkg/s3utils/s3utils.go),
      licences, cluster options, alerts, cluster pairs, defragmentation.

    The backup driver (drivers/backup):
    - [Backup], [BackupWaits]: portworx/portworx.go, looking up and completing
      requests, and the waits.
    - [Keycloak], [KeycloakProps]: auth.go.

    Small executable clusters that implement the interfaces, and on which the
    theorems are applied: [BackupDemo], [KeycloakDemo], [PxDemo], [PxDemoPools],
    [PxDemoDrives], [PxDemoCluster], [K8sDemo], [K8sAppDemo], [SchedOpsDemo],
    [NodeDemo], [SchedDemo], [SchedDcosDemo], [SchedOpenshiftDemo].

    Definitions keep the names of the Go functions.  A closure or a loop inside a
    function has a definition of its own (driver_up_task, replication_loop), and
    its comment names the function.  A Go method that returns (A, error) is an
    [M W A]; a Go value that is updated in place and seen by the caller (the node
    passed by pointer, the fields of a driver) is the local component of the world
    [W * Node]; an iteration over a Go map asks the world, or an oracle, for an
    order, and the theorems hold for every order that lists each entry once.
    Calls of code outside the repository are operations of a class; what is assumed
    of them is in the class of laws beside it: sleeping advances the clock by at least
    the time asked for ([ClockLaws]); an external call does not write the memory of the
    program (the classes named ...Frame); a new uuid is not empty, and not in use; a
    secret reads back what was written ([SecretStore]).  Of the cluster nothing is
    assumed: that a delete was answered says so and no more, since Kubernetes removes
    objects later.  Where the other side of an interface is in the repository as
    well, its laws are discharged: SchedOpsProps shows that the operations on
    Kubernetes have the laws of [SchedOps] the Portworx driver relies on, and
    NodeSSHProps those of [NodeDriver] for the ssh driver.

    ** What the theorems show

    - The retry engine: a run is exactly a sequence of attempts an interval
      apart and before the deadline that ends with a final answer or with a
      time-out listing all errors; it always ends, after a bounded number of attempts;
      PerformTask runs the task only after a trigger check
      that passed.
    - The registry: every reachable registry files each node under its own uuid, so
      that a listed node can be handed back to update or delete exactly it; lookups
      find what was added; storage and storageless nodes partition the nodes.  Every
      sequence of node operations of the Portworx driver, failures included, keeps
      the registry well formed and a storage node wherever the driver is installed.
      RefreshNodeRegistry adds each node right after it answered that it is ready,
      and leaves exactly those before the first that did not.
    - The driver: where its clients are connected after setDriver, and what
      updateNode stores.
    - Operations: what was seen last when a wait or validation succeeds
      (maintenance entered, driver up or down, node gone after decommission,
      replicas clean, volume kept every requested parameter, no Pure device
      missing or left over, backup finished, application running, pods gone, data
      of a snapshot as it was written), and that the waits with a loop of their own
      end.
    - Applications: in which order their objects are created and what the contexts
      of Schedule hold, on Kubernetes and on DC/OS, each object being what the cluster
      made of its spec; whose deletes were answered when Destroy and DeleteVolumes
      succeed, and which objects they leave; where a change of a shared
      spec shows in a later application.
    - Node drivers: what a command leaves behind, what is read from listings of
      drives, where disks are after they were moved.
    - Clouds: a successful upgrade or scaling ends with the cluster, its pools and
      its workers in the state asked for; which error of concurrent replacements is
      reported, under every schedule of the goroutines; a node of OpenShift is
      recycled only into one on which the driver is up, by the drivers of that run.
    - Users: JSON texts and form values read back as what was written, so the server
      sees the role, user or group of the call; deletions that run at once end under
      every schedule and report exactly what failed; contexts carry the token of
      the secret.
    - Estimates: the expected sizes of pools and volumes are the first of the
      growing sizes that meets the rule, within the maximum; when growth rounds to
      zero the estimate does not end.
    - Parsers: the readers of pxctl, lsblk and dmsetup output and of addresses read
      back every listing of the printed form, within the limits each theorem states;
      the matcher of regular expressions
      decides whether a text has a match.
    - Validators (placement, events and objects of autopilot rules, cluster
      options) accept exactly what they describe.
    - Error paths: every error with a cause prints it; the places where an error
      is lost, a check never fires or a nil pointer is read are stated as theorems
      as well.

    ** Fuel and bounds

    Loops without a structural argument carry fuel and answer [Diverge] without
    it, a value no Go call returns.  [retry_fuel timeout interval] is
    timeout / interval + 2 attempts: an attempt starts only before the deadline
    and attempts are at least an interval apart, so it covers every run
    ([DoRetryWithTimeout_terminates]); WaitForReplicationToComplete and the polls
    of [PxCluster] use the same bound.  The pages of [Backup.page_loop] and the
    fuel of [PxExpansion.expand_loop] are parameters: the theorems say how much is
    enough, or that none is.  [Ipv6util.parse_loop] has one step per line and
    [PxCluster.sort_Search] one per element, which their ranges cannot exceed.
    The reader of [GoJson] has the nesting depth of Go's own, and at most one
    element per byte; the parser of [Regexp] three steps per byte.  GetDriverNode calls itself after re-reading the id of a node
    without a bound of its own in the code; the depth is a parameter, and
    [GetDriverNode_fuel] shows that an answer does not depend on it.  Groups of
    goroutines are a step relation, or run under a list of choices that says which
    of them steps next: the theorems hold for every order of steps.  Indexing and nil
    pointers are [Panic]s, never defaults.  Sizes and times are [Z]; [u64], [i64]
    and [i32] write out the wrap-around where the code converts.

    ** What is not modelled

    Logging.  The libraries behind the interfaces (ssh, govmomi, Helm, Kubernetes
    and cloud clients).  The schedulers for Rancher, Oracle and Anthos: they
    wrap the Kubernetes scheduler around tools whose answers are documents with
    floats and times.  Of the Portworx driver: installation and
    upgrade, which apply scripts and manifests.  Of the backup driver: receivers,
    roles and metrics, which pass a request on.  The pure volume driver, the PDS
    library, the nomad and vcluster helpers and the test suites.  In pkg: the
    constructors of placement strategies, and the alert parser of ipv6util, whose
    regular expression is built from its argument.  Concurrency is modelled where
    the program waits for it (the goroutine of the retry engine, the collected
    events, the groups of goroutines of auth.go, openshift.go and iks.go, where the
    replacement of one worker is one step); the lock of the registry makes each of its
    operations atomic, as it is here. *)

From stdpp Require Export base tactics gmap strings list sets pretty.
From Stdlib Require Export ZArith Lia.

#[global] Open Scope Z_scope.
#[global] Open Scope string_scope.
#[global] Open Scope list_scope.

#[global] Arguments String.append : simpl nomatch.

(** ** Automation shared by the files of the library *)

Create HintDb torpedo.

(** Case analysis on the innermost [match] scrutinee of the goal. *)
Ltac case_goal :=
  match goal with
  | |- context [match ?x with _ => _ end] =>
      lazymatch x with
      | context [match _ with _ => _ end] => fail
      | _ => destruct x eqn:?
      end
  end.

(** The same on a hypothesis. *)
Ltac case_hyp H :=
  match type of H with
  | context [match ?x with _ => _ end] =>
      lazymatch x with
      | context [match _ with _ => _ end] => fail
      | _ => destruct x eqn:?
      end
  end.

(** Close the arithmetic and propositional leaves of a case analysis. *)
Ltac leaf := repeat case_goal; simplify_eq/=; try done; try lia; eauto with torpedo.

(** ** Machine integers

    Go's fixed-width integers are [Z] together with the wrap-around of the
    width: [u64] and [i64] are the conversions applied after every arithmetic
    operation that may leave the range. *)

Definition two64 : Z := 18446744073709551616.
Definition two63 : Z := 9223372036854775808.

Definition u64 (z : Z) : Z := z mod two64.

Definition i64 (z : Z) : Z := (z + two63) mod two64 - two63.

Definition is_u64 (z : Z) : Prop := 0 <= z < two64.
Definition is_i64 (z : Z) : Prop := - two63 <= z < two63.

Lemma u64_range z : is_u64 (u64 z).
Proof. apply Z.mod_pos_bound. reflexivity. Qed.

Lemma u64_id z : is_u64 z → u64 z = z.
Proof. intros H. by apply Z.mod_small. Qed.

Lemma i64_range z : is_i64 (i64 z).
Proof.
  unfold is_i64, i64.
  assert (0 <= (z + two63) mod two64 < two64) by (apply Z.mod_pos_bound; done).
  unfold two63, two64 in *. lia.
Qed.

Lemma i64_id z : is_i64 z → i64 z = z.
Proof.
  unfold is_i64, i64, two63, two64. intros H.
  rewrite Z.mod_small by lia. lia.
Qed.

#[export] Hint Resolve u64_range i64_range : torpedo.

(** ** Loops that return at the first match

    [for _, x := range l { if f(x) { return g(x) } }] is [find_first f l]. *)

Fixpoint find_first {A} (f : A → bool) (l : list A) : option A :=
  match l with
  | [] => None
  | x :: l' => if f x then Some x else find_first f l'
  end.

Lemma find_first_Some {A} (f : A → bool) l x :
  find_first f l = Some x → x ∈ l ∧ f x = true.
Proof.
  induction l as [|y l IH]; simpl; [done|].
  destruct (f y) eqn:E; intros H; simplify_eq.
  - split; [by left|done].
  - destruct (IH H). split; [by right|done].
Qed.

Lemma find_first_app {A} (f : A → bool) l1 l2 :
  find_first f (l1 ++ l2) = match find_first f l1 with Some x => Some x | None => find_first f l2 end.
Proof. induction l1 as [|x l1 IH]; simpl; [done|]. by destruct (f x). Qed.

Lemma find_first_None {A} (f : A → bool) l :
  find_first f l = None ↔ ∀ x, x ∈ l → f x = false.
Proof.
  induction l as [|y l IH]; simpl.
  - split; [set_solver|done].
  - destruct (f y) eqn:E; split.
    + done.
    + intros H. rewrite (H y) in E; [done|by left].
    + intros H x [->|Hx]%elem_of_cons; [done|]. by apply IH.
    + intros H. apply IH. intros x Hx. apply H. by right.
Qed.

Lemma find_first_is_Some {A} (f : A → bool) l x :
  x ∈ l → f x = true → is_Some (find_first f l).
Proof.
  intros Hx Hf. destruct (find_first f l) eqn:E; [by eexists|].
  rewrite find_first_None in E. by rewrite (E x Hx) in Hf.
Qed.

(** At most one element of [l] satisfies [f]: then the first match is that
    element, whatever the order of the list. *)
Lemma find_first_unique {A} (f : A → bool) l x :
  x ∈ l → f x = true → (∀ y, y ∈ l → f y = true → y = x) →
  find_first f l = Some x.
Proof.
  intros Hx Hf Hu. destruct (find_first_is_Some f l x Hx Hf) as [y Hy].
  destruct (find_first_Some _ _ _ Hy) as [Hin Hfy]. by rewrite (Hu y Hin Hfy) in Hy.
Qed.

(** Collecting loops: [filter] with a boolean test. *)
Fixpoint keep {A} (f : A → bool) (l : list A) : list A :=
  match l with
  | [] => []
  | x :: l' => if f x then x :: keep f l' else keep f l'
  end.

Lemma elem_of_keep {A} (f : A → bool) l x : x ∈ keep f l ↔ x ∈ l ∧ f x = true.
Proof.
  induction l as [|y l IH]; simpl; [set_solver|].
  destruct (f y) eqn:E; rewrite ?elem_of_cons, IH;
    intuition (subst; congruence || auto).
Qed.

Lemma keep_perm {A} (f : A → bool) l1 l2 : l1 ≡ₚ l2 → keep f l1 ≡ₚ keep f l2.
Proof.
  induction 1; simpl; repeat case_match; eauto using Permutation, Permutation_swap.
Qed.

#[export] Instance keep_Proper {A} (f : A → bool) : Proper ((≡ₚ) ==> (≡ₚ)) (keep f).
Proof. intros l1 l2. apply keep_perm. Qed.

Lemma keep_split {A} (f : A → bool) l :
  keep f l ++ keep (λ x, negb (f x)) l ≡ₚ l.
Proof.
  induction l as [|x l IH]; simpl; [done|].
  destruct (f x); simpl; [by rewrite IH|].
  by rewrite <- Permutation_middle, IH.
Qed.

Lemma keep_keep {A} (f g : A → bool) l :
  keep f (keep g l) = keep (λ x, g x && f x) l.
Proof.
  induction l as [|x l IH]; simpl; [done|].
  destruct (g x); simpl; [|done]. destruct (f x); by rewrite IH.
Qed.

Lemma keep_length {A} (f : A → bool) (l : list A) :
  (length (keep f l) ≤ length l)%nat.
Proof. induction l; simpl; [lia|]. case_match; simpl; lia. Qed.

Lemma keep_NoDup {A} (f : A → bool) l : NoDup l → NoDup (keep f l).
Proof.
  induction 1 as [|x l Hx Hl IH]; simpl; [constructor|].
  destruct (f x); [|done]. constructor; [|done]. rewrite elem_of_keep. naive_solver.
Qed.
