(* ===== verification/GoStrings.v ===== *)
(** Go's [strings] and [path] packages and [strconv.Itoa], as far as the modelled
    code uses them.  A Go string is a sequence of bytes, here [String.string]; the
    functions that classify runes ([Fields], [TrimSpace], [ToLower]) are
    modelled on ASCII input, which is what the command outputs and names of
    the program are. *)

From S2P Require Import Prelude.
From stdpp Require Import sorting.
From Stdlib Require Import Ascii String.

Local Open Scope string_scope.

(** ** Ordering, [sort.Strings] *)

(** Go compares strings byte by byte. *)
Fixpoint string_leb (s t : string) : bool :=
  match s, t with
  | EmptyString, _ => true
  | String _ _, EmptyString => false
  | String a s', String b t' =>
      if Ascii.eqb a b then string_leb s' t' else Nat.ltb (nat_of_ascii a) (nat_of_ascii b)
  end.

Definition string_le (s t : string) : Prop := string_leb s t = true.

#[export] Instance string_le_dec s t : Decision (string_le s t) := decide (string_leb s t = true).

Definition sort_Strings (l : list string) : list string := merge_sort string_le l.

(** ** Searching *)

Definition HasPrefix (s prefix : string) : bool := String.prefix prefix s.
Arguments HasPrefix : simpl never.

(** [strings.Contains(s, substr)] *)
Fixpoint Contains (s substr : string) : bool :=
  HasPrefix s substr ||
  match s with
  | EmptyString => false
  | String _ s' => Contains s' substr
  end.

Lemma HasPrefix_app p s : HasPrefix (p +:+ s) p = true.
Proof.
  unfold HasPrefix. induction p as [|c p IH]; simpl; [by destruct s|].
  by destruct (ascii_dec c c).
Qed.

Lemma HasPrefix_spec s p : HasPrefix s p = true ↔ ∃ t, s = p +:+ t.
Proof.
  split; [|intros [t ->]; apply HasPrefix_app].
  unfold HasPrefix. revert s. induction p as [|c p IH]; intros s H; [by exists s|].
  destruct s as [|d s]; simpl in H; [done|].
  destruct (ascii_dec c d) as [->|]; [|done].
  destruct (IH s H) as [t ->]. by exists t.
Qed.

Lemma Contains_spec s sub : Contains s sub = true ↔ ∃ a b, s = a +:+ sub +:+ b.
Proof.
  induction s as [|c s IH]; simpl; rewrite orb_true_iff, HasPrefix_spec.
  - split.
    + intros [[t H]|]; [by exists "", t|done].
    + intros (a & b & H). left. exists b. destruct a; [done|discriminate H].
  - split.
    + intros [[t H]|(a & b & ->)%IH]; [by exists "", t|by exists (String c a), b].
    + intros (a & b & H). destruct a as [|d a]; simpl in H; [by left; exists b|].
      injection H as -> ->. right. apply IH. by exists a, b.
Qed.

(** ** Trimming *)

(** [strings.ContainsRune(cutset, c)] for a one-byte rune *)
Fixpoint in_set (c : ascii) (cutset : string) : bool :=
  match cutset with
  | EmptyString => false
  | String d cs => Ascii.eqb c d || in_set c cs
  end.

Fixpoint TrimLeft (s cutset : string) : string :=
  match s with
  | EmptyString => EmptyString
  | String c s' => if in_set c cutset then TrimLeft s' cutset else s
  end.

Fixpoint TrimRight (s cutset : string) : string :=
  match s with
  | EmptyString => EmptyString
  | String c s' =>
      match TrimRight s' cutset with
      | EmptyString => if in_set c cutset then EmptyString else String c EmptyString
      | t => String c t
      end
  end.

Definition Trim (s cutset : string) : string := TrimRight (TrimLeft s cutset) cutset.

(** The white space of [unicode.IsSpace] below 128. *)
Definition is_space (c : ascii) : bool :=
  let n := nat_of_ascii c in
  Nat.eqb n 32 || (Nat.leb 9 n && Nat.leb n 13).

Definition spaces : string :=
  String (ascii_of_nat 9) (String (ascii_of_nat 10) (String (ascii_of_nat 11)
  (String (ascii_of_nat 12) (String (ascii_of_nat 13) " ")))).

Definition TrimSpace (s : string) : string := Trim s spaces.

Definition TrimPrefix (s prefix : string) : string :=
  if HasPrefix s prefix
  then substring (String.length prefix) (String.length s - String.length prefix) s
  else s.

(** ** Splitting and joining *)

(** The loop of [strings.Fields]: [cur] is the field being read. *)
Fixpoint fields_loop (cur s : string) : list string :=
  match s with
  | EmptyString => match cur with EmptyString => [] | _ => [cur] end
  | String c s' =>
      if is_space c
      then match cur with
           | EmptyString => fields_loop EmptyString s'
           | _ => cur :: fields_loop EmptyString s'
           end
      else fields_loop (cur +:+ String c EmptyString) s'
  end.

Definition Fields (s : string) : list string := fields_loop EmptyString s.

(** [strings.Split(s, sep)] for a separator of one byte *)
Fixpoint split_loop (sep : ascii) (cur s : string) : list string :=
  match s with
  | EmptyString => [cur]
  | String c s' =>
      if Ascii.eqb c sep then cur :: split_loop sep EmptyString s'
      else split_loop sep (cur +:+ String c EmptyString) s'
  end.

Definition Split (s : string) (sep : ascii) : list string := split_loop sep EmptyString s.

(** [strings.Join(elems, sep)] *)
Fixpoint Join (elems : list string) (sep : string) : string :=
  match elems with
  | [] => EmptyString
  | [x] => x
  | x :: rest => x +:+ sep +:+ Join rest sep
  end.

(** [strings.ReplaceAll] for an [old] that is not empty: the leftmost occurrences
    that do not overlap; [skip] characters of an occurrence are still to pass. *)
Fixpoint replace_loop (old new : string) (skip : nat) (s : string) : string :=
  match s with
  | EmptyString => EmptyString
  | String c s' =>
      match skip with
      | S skip => replace_loop old new skip s'
      | O => if HasPrefix s old then new +:+ replace_loop old new (pred (String.length old)) s'
             else String c (replace_loop old new 0 s')
      end
  end.

Definition ReplaceAll (s old new : string) : string := replace_loop old new 0 s.

(** [strings.Replace(s, old, new, 1)] *)
Fixpoint replace_first (s old new : string) : string :=
  if HasPrefix s old then new +:+ String.substring (String.length old) (String.length s - String.length old) s
  else match s with
       | EmptyString => EmptyString
       | String c s' => String c (replace_first s' old new)
       end.

(** [strings.Split(s, sep)] for a separator that is not empty *)
Fixpoint split_text_loop (sep : string) (skip : nat) (cur s : string) : list string :=
  match s with
  | EmptyString => [cur]
  | String c s' =>
      match skip with
      | S skip' => split_text_loop sep skip' cur s'
      | O => if HasPrefix s sep then cur :: split_text_loop sep (String.length sep - 1) EmptyString s'
             else split_text_loop sep 0 (cur +:+ String c EmptyString) s'
      end
  end.

Definition Split_text (s sep : string) : list string := split_text_loop sep 0 EmptyString s.

Lemma ReplaceAll_absent s old new : Contains s old = false → ReplaceAll s old new = s.
Proof.
  unfold ReplaceAll. induction s as [|c s IH]; simpl; [done|].
  intros [-> Hs]%orb_false_iff. by rewrite IH.
Qed.

(** [strings.ToLower] on ASCII *)
Definition lower_ascii (c : ascii) : ascii :=
  let n := nat_of_ascii c in
  if Nat.leb 65 n && Nat.leb n 90 then ascii_of_nat (n + 32) else c.

Fixpoint ToLower (s : string) : string :=
  match s with
  | EmptyString => EmptyString
  | String c s' => String (lower_ascii c) (ToLower s')
  end.

Fixpoint string_forall (p : ascii → bool) (s : string) : bool :=
  match s with
  | EmptyString => true
  | String c s' => p c && string_forall p s'
  end.

(** ** Lemmas *)

Lemma app_assoc_s (a b c : string) : (a +:+ b) +:+ c = a +:+ b +:+ c.
Proof. induction a as [|x a IH]; simpl; [done|by rewrite IH]. Qed.

Lemma app_empty_r s : s +:+ "" = s.
Proof. induction s as [|c s IH]; simpl; [done|by rewrite IH]. Qed.

Lemma app_cons_r s c t : s +:+ String c t = (s +:+ String c "") +:+ t.
Proof. induction s as [|d s IH]; simpl; [done|by rewrite IH]. Qed.

Lemma length_append a b : String.length (a +:+ b) = (String.length a + String.length b)%nat.
Proof. induction a as [|c a IH]; simpl; [done|]. by rewrite IH. Qed.

Lemma substring_middle a b c :
  String.substring (String.length a) (String.length b) (a +:+ b +:+ c) = b.
Proof.
  induction a as [|d a IH]; simpl; [|done]. induction b as [|e b IHb]; simpl; [by destruct c|by rewrite IHb].
Qed.

Lemma TrimPrefix_app p s : TrimPrefix (p +:+ s) p = s.
Proof.
  unfold TrimPrefix. rewrite HasPrefix_app, length_append.
  replace (String.length p + String.length s - String.length p)%nat with (String.length s) by lia.
  rewrite <- (app_empty_r s) at 2. apply substring_middle.
Qed.

Lemma app_eq_empty s t : s +:+ t = "" ↔ s = "" ∧ t = "".
Proof. destruct s; simpl; naive_solver. Qed.

Lemma string_forall_app p s t :
  string_forall p (s +:+ t) = string_forall p s && string_forall p t.
Proof. induction s as [|c s IH]; simpl; [done|]. by rewrite IH, andb_assoc. Qed.

(** Every field is a non-empty word without white space. *)
Lemma fields_loop_words cur s :
  string_forall (λ c, negb (is_space c)) cur = true →
  Forall (λ f, f ≠ "" ∧ string_forall (λ c, negb (is_space c)) f = true)
    (fields_loop cur s).
Proof.
  revert cur. induction s as [|c s IH]; intros cur Hcur; simpl.
  - destruct cur; [constructor|]. by repeat constructor.
  - destruct (is_space c) eqn:E.
    + destruct cur; [by apply IH|]. constructor; [done|by apply IH].
    + apply IH. rewrite string_forall_app, Hcur. simpl. by rewrite E.
Qed.

Lemma Fields_words s :
  Forall (λ f, f ≠ "" ∧ string_forall (λ c, negb (is_space c)) f = true) (Fields s).
Proof. by apply fields_loop_words. Qed.

Lemma fields_loop_word cur w s :
  string_forall (λ c, negb (is_space c)) w = true →
  fields_loop cur (w +:+ s) = fields_loop (cur +:+ w) s.
Proof.
  revert cur. induction w as [|c w IH]; intros cur H; simpl.
  - by rewrite app_empty_r.
  - simpl in H. apply andb_true_iff in H as [Hc Hw].
    apply negb_true_iff in Hc. rewrite Hc, IH by done. by rewrite <- app_cons_r.
Qed.

(** Splitting at a separator and joining with it is the identity. *)
Lemma split_loop_ne sep cur s : split_loop sep cur s ≠ [].
Proof. revert cur. induction s; intros; simpl; [done|]. case_match; [done|auto]. Qed.

Lemma Join_split_loop sep cur s :
  Join (split_loop sep cur s) (String sep "") = cur +:+ s.
Proof.
  revert cur. induction s as [|c s IH]; intros cur; simpl.
  - by rewrite app_empty_r.
  - destruct (Ascii.eqb_spec c sep) as [->|].
    + pose proof (split_loop_ne sep "" s) as Hne.
      destruct (split_loop sep "" s) eqn:E; [done|].
      specialize (IH ""). rewrite E in IH. simpl in *. by rewrite IH.
    + rewrite IH. by rewrite <- app_cons_r.
Qed.

Lemma Join_Split s sep : Join (Split s sep) (String sep "") = s.
Proof. apply Join_split_loop. Qed.

(** Text without a separator stays whole when lines are split again. *)
Definition free_of (sep : ascii) (s : string) : bool := string_forall (λ c, negb (Ascii.eqb c sep)) s.

Lemma split_loop_free sep cur s : free_of sep s = true → split_loop sep cur s = [cur +:+ s].
Proof.
  revert cur. induction s as [|c s IH]; intros cur Hf; simpl in *; [by rewrite app_empty_r|].
  apply andb_true_iff in Hf as [Hc Hs]. apply negb_true_iff in Hc. rewrite Hc, IH by done.
  by rewrite app_assoc_s.
Qed.

Lemma split_loop_app sep cur a b :
  free_of sep a = true → split_loop sep cur (a +:+ String sep b) = (cur +:+ a) :: Split b sep.
Proof.
  revert cur. induction a as [|c a IH]; intros cur Hf; simpl in *.
  - rewrite Ascii.eqb_refl, app_empty_r. done.
  - apply andb_true_iff in Hf as [Hc Hs]. apply negb_true_iff in Hc. rewrite Hc, IH by done.
    by rewrite app_assoc_s.
Qed.

Lemma Split_Join sep ls :
  ls ≠ [] → Forall (λ l, free_of sep l = true) ls → Split (Join ls (String sep "")) sep = ls.
Proof.
  intros Hne Hf. induction Hf as [|l ls Hl Hls IH]; [done|]. destruct ls as [|l' ls].
  - unfold Split. simpl. by rewrite split_loop_free.
  - change (Join (l :: l' :: ls) (String sep ""))
      with (l +:+ String sep (Join (l' :: ls) (String sep ""))).
    unfold Split at 1. rewrite split_loop_app by done. f_equal. by apply IH.
Qed.

Lemma free_of_app sep a b : free_of sep (a +:+ b) = free_of sep a && free_of sep b.
Proof. apply string_forall_app. Qed.

(** ** Decimal printing *)

(** [strconv.Itoa] and the verb [%d] *)
Definition Itoa (z : Z) : string := pretty z.

Lemma Itoa_inj z1 z2 : Itoa z1 = Itoa z2 → z1 = z2.
Proof. apply (inj pretty). Qed.

(** The verb [%v] (and [%s]) of a list of strings: space separated, in square
    brackets. *)
Definition show_strings (l : list string) : string := "[" +:+ Join l " " +:+ "]".

(** [strings.ReplaceAll(s, c, empty)] for one byte *)
Fixpoint remove_char (c : ascii) (s : string) : string :=
  match s with
  | EmptyString => EmptyString
  | String d s' => if Ascii.eqb d c then remove_char c s' else String d (remove_char c s')
  end.

Definition is_digit (c : ascii) : bool :=
  let n := nat_of_ascii c in Nat.leb 48 n && Nat.leb n 57.

(** A double quote, and a text between two of them *)
Definition dquote : string := String "034" "".
Definition quoted (s : string) : string := String "034" (s +:+ String "034" "").

(** A string that [Fields] leaves in one piece *)
Definition word (s : string) : Prop := s ≠ "" ∧ string_forall (λ c, negb (is_space c)) s = true.

Lemma in_spaces c : in_set c spaces = is_space c.
Proof. by destruct c as [[] [] [] [] [] [] [] []]. Qed.

Lemma TrimRight_word w : string_forall (λ c, negb (is_space c)) w = true → TrimRight w spaces = w.
Proof.
  induction w as [|c w IH]; [done|]. cbn [TrimRight string_forall]. intros [Hc Hw]%andb_true_iff.
  rewrite IH by done. rewrite in_spaces. apply negb_true_iff in Hc. rewrite Hc. by destruct w.
Qed.

(** *** [path.Join] of two elements, with [path.Clean] of the result *)
Fixpoint clean_parts (rooted : bool) (stack parts : list string) : list string :=
  match parts with
  | [] => rev stack
  | part :: parts' =>
      if decide (part = "" ∨ part = ".") then clean_parts rooted stack parts'
      else if decide (part = "..") then
        match stack with
        | top :: stack' =>
            if decide (top = "..") then clean_parts rooted (".." :: stack) parts'
            else clean_parts rooted stack' parts'
        | [] => clean_parts rooted (if rooted then [] else [".."]) parts'
        end
      else clean_parts rooted (part :: stack) parts'
  end.

Definition path_Clean (p : string) : string :=
  let rooted := HasPrefix p "/" in
  let parts := clean_parts rooted [] (Split p "/"%char) in
  if rooted then "/" +:+ Join parts "/"
  else match parts with [] => "." | _ => Join parts "/" end.

Definition path_Join (a b : string) : string :=
  match a, b with
  | "", "" => ""
  | "", _ => path_Clean b
  | _, _ => path_Clean (a +:+ "/" +:+ b)
  end.

(** ** Formats without operands

    [fmt.Errorf(s)]: a per cent sign starts a verb, for which there is no operand.
    (A flag after the width, a star or an index in brackets, which a message of the
    program does not have, is read as a flag here.) *)
Fixpoint format_loop (verb : bool) (s : string) : string :=
  match s with
  | EmptyString => if verb then "%!(NOVERB)" else ""
  | String c s' =>
      if verb then
        if in_set c "#+- .0123456789" then format_loop true s'
        else if Ascii.eqb c "%" then String c (format_loop false s')
        else "%!" +:+ String c ("(MISSING)" +:+ format_loop false s')
      else if Ascii.eqb c "%" then format_loop true s' else String c (format_loop false s')
  end.

Definition format (s : string) : string := format_loop false s.

Lemma format_free s : free_of "%" s = true → format s = s.
Proof.
  unfold format, free_of. induction s as [|c s IH]; simpl; [done|]. intros [Hc Hs]%andb_true_iff.
  apply negb_true_iff in Hc. by rewrite Hc, (IH Hs).
Qed.
