(* ===== verification/Errors.v ===== *)
(** The error types of the program (pkg/errors, drivers/node, drivers/volume/portworx,
    drivers/scheduler and the vendored task package) with the text their
    [Error] methods print.  Left out are the three scheduler errors that print a
    whole application. *)

From S2P Require Import Prelude GoStrings.

(** ** drivers/volume/portworx/errors.go

    Every type of the file is a pair of a subject (a volume id, a node name, a
    version) and a cause.  [Node] fields are carried as the node's name, the
    only part of the node the [Error] methods print. *)

Inductive px_error : Type :=
  | PxErrFailedToInspectVolume
  | PxErrFailedToValidateAttachment
  | PxErrFailedToDeleteVolume
  | PxErrFailedToWaitForPx
  | PxErrFailedToUpgradeVolumeDriver
  | PxErrFailedToRecoverDriver
  | PxErrFailedToEnterMaintenence
  | PxErrFailedToSetReplicationFactor
  | PxErrFailedToGetReplicationFactor
  | PxErrFailedToGetAggregationLevel
  | PxErrFailedToDecommissionNode
  | PxErrFailedToGetNodeStatus
  | PxErrFailedToRejoinNode
  | PxErrFailedToGetVolumeProxySpec
  | PxErrCsiTopologyMismatch.

Definition px_error_text (k : px_error) (subject Cause : string) : string :=
  match k with
  | PxErrFailedToInspectVolume =>
      "Failed to inspect volume: " +:+ subject +:+ " due to err: " +:+ Cause
  | PxErrFailedToValidateAttachment =>
      "Failed to validate volume: " +:+ subject +:+ " attachment due to err: " +:+ Cause
  | PxErrFailedToDeleteVolume =>
      "Failed to delete volume: " +:+ subject +:+ " due to err: " +:+ Cause
  | PxErrFailedToWaitForPx =>
      "Failed to wait for px status on: " +:+ subject +:+ " due to err: " +:+ Cause
  | PxErrFailedToUpgradeVolumeDriver =>
      "Failed to upgrade volume driver to version: " +:+ subject +:+ " due to err: " +:+ Cause
  | PxErrFailedToRecoverDriver =>
      "Failed to wait for px to be up on: " +:+ subject +:+ " due to err: " +:+ Cause
  | PxErrFailedToEnterMaintenence =>
      "Failed to enter maintenence mode non node: " +:+ subject +:+ " due to err: " +:+ Cause
  | PxErrFailedToSetReplicationFactor =>
      "Failed to set replication factor of the volume: " +:+ subject +:+ " due to err: " +:+ Cause
  | PxErrFailedToGetReplicationFactor =>
      "Failed to get replication factor of the volume: " +:+ subject +:+ " due to err: " +:+ Cause
  | PxErrFailedToGetAggregationLevel =>
      "Failed to get aggregation level of the volume: " +:+ subject +:+ " due to err: " +:+ Cause
  | PxErrFailedToDecommissionNode =>
      "Failed to decommission node: " +:+ subject +:+ " due to err: " +:+ Cause
  | PxErrFailedToGetNodeStatus =>
      "Failed to get status for node: " +:+ subject +:+ " due to err: " +:+ Cause
  | PxErrFailedToRejoinNode =>
      "Failed to rejoin node: " +:+ subject +:+ " due to err: " +:+ Cause
  | PxErrFailedToGetVolumeProxySpec =>
      "Failed to get proxy spec for a volume: " +:+ subject +:+ " due to err: " +:+ Cause
  | PxErrCsiTopologyMismatch =>
      "CSI Topology not matching for volume: " +:+ subject +:+ ". Err: " +:+ Cause
  end.

(** ** drivers/node/errors.go *)

Inductive node_error : Type :=
  | NdErrFailedToTestConnection
  | NdErrFailedToRebootNode
  | NdErrFailedToSetNetworkErrorOnNode
  | NdErrFailedToCrashNode
  | NdErrFailedToShutdownNode
  | NdErrFailedToFindFileOnNode
  | NdErrFailedToRunSystemctlOnNode
  | NdErrFailedToRunCommand
  | NdErrFailedToYankDrive
  | NdErrFailedToRecoverDrive
  | NdErrFailedToSystemCheck
  | NdErrFailedToDeleteNode.

Definition node_error_text (k : node_error) (subject Cause : string) : string :=
  match k with
  | NdErrFailedToTestConnection =>
      "Failed to test connnection to " +:+ subject +:+ ". Cause: " +:+ Cause
  | NdErrFailedToRebootNode =>
      "Failed to reboot node: " +:+ subject +:+ ". Cause: " +:+ Cause
  | NdErrFailedToSetNetworkErrorOnNode =>
      "Failed to set packet loss on node: " +:+ subject +:+ ". Cause: " +:+ Cause
  | NdErrFailedToCrashNode =>
      "Failed to reboot node after node crash test: " +:+ subject +:+ ". Cause: " +:+ Cause
  | NdErrFailedToShutdownNode =>
      "Failed to shutdown node: " +:+ subject +:+ ". Cause: " +:+ Cause
  | NdErrFailedToFindFileOnNode =>
      "Failed to find file on: " +:+ subject +:+ ". Cause: " +:+ Cause
  | NdErrFailedToRunSystemctlOnNode =>
      "Failed to run systemctl command on: " +:+ subject +:+ ". Cause: " +:+ Cause
  | NdErrFailedToRunCommand =>
      "Failed to run command on: " +:+ subject +:+ ". Cause: " +:+ Cause
  | NdErrFailedToYankDrive =>
      "Failed to yank a drive on: " +:+ subject +:+ ". Cause: " +:+ Cause
  | NdErrFailedToRecoverDrive =>
      "Failed to recover a drive on: " +:+ subject +:+ ". Cause: " +:+ Cause
  | NdErrFailedToSystemCheck =>
      "System check failed on: " +:+ subject +:+ ". Cause: " +:+ Cause
  | NdErrFailedToDeleteNode =>
      "Failed to delete node: " +:+ subject +:+ ". Cause: " +:+ Cause
  end.

(** ** drivers/scheduler/errors.go: the types with an [App] and a [Cause]

    The subject is what their [Error] methods print: [App.Key], and the whole of
    [App] for the last three. *)

Inductive app_error : Type :=
  | AppErrFailedToScheduleApp
  | AppErrFailedToDestroyApp
  | AppErrFailedToDestroyStorage
  | AppErrFailedToValidateStorage
  | AppErrFailedToGetStorage
  | AppErrFailedToResizeStorage
  | AppErrFailedToValidateApp
  | AppErrFailedToSchedulePod
  | AppErrFailedToValidatePod
  | AppErrFailedToDestroyPod
  | AppErrFailedToGetPodStatus
  | AppErrFailedToValidatePodDestroy
  | AppErrFailedToGetAppStatus
  | AppErrFailedToValidateAppDestroy
  | AppErrFailedToGetNodesForApp
  | AppErrFailedToDeleteTasks
  | AppErrFailedToGetVolumeParameters
  | AppErrFailedToGetSnapShotData
  | AppErrFailedToGetSnapShot
  | AppErrFailedToGetSnapShotDataName
  | AppErrFailedToGetStorageStatus
  | AppErrFailedToDeleteVolumeDirForPod
  | AppErrFailedToUpdateApp
  | AppErrFailedToGetSecret
  | AppErrFailedToValidateCsiSnapshots
  | AppErrFailedToCreateCsiSnapshots
  | AppErrFailedToValidatePvcAfterRestore
  | AppErrFailedToRestore.

Definition app_error_text (k : app_error) (subject Cause : string) : string :=
  match k with
  | AppErrFailedToScheduleApp =>
      "Failed to schedule app: " +:+ subject +:+ " due to err: " +:+ Cause
  | AppErrFailedToDestroyApp =>
      "Failed to destroy app: " +:+ subject +:+ " due to err: " +:+ Cause
  | AppErrFailedToDestroyStorage =>
      "Failed to destroy storage for app: " +:+ subject +:+ " due to err: " +:+ Cause
  | AppErrFailedToValidateStorage =>
      "Failed to validate storage for app: " +:+ subject +:+ " due to err: " +:+ Cause
  | AppErrFailedToGetStorage =>
      "Failed to get storage for app: " +:+ subject +:+ " due to err: " +:+ Cause
  | AppErrFailedToResizeStorage =>
      "Failed to resize storage for app: " +:+ subject +:+ " due to err: " +:+ Cause
  | AppErrFailedToValidateApp =>
      "Failed to validate app: " +:+ subject +:+ " due to err: " +:+ Cause
  | AppErrFailedToSchedulePod =>
      "Failed to schedule app: " +:+ subject +:+ " due to err: " +:+ Cause
  | AppErrFailedToValidatePod =>
      "Failed to validate pod: " +:+ subject +:+ " due to err: " +:+ Cause
  | AppErrFailedToDestroyPod =>
      "Failed to validate destroy of pod: " +:+ subject +:+ " due to err: " +:+ Cause
  | AppErrFailedToGetPodStatus =>
      "Failed to get status of pod: " +:+ subject +:+ " due to err: " +:+ Cause
  | AppErrFailedToValidatePodDestroy =>
      "Failed to validate destroy of pod: " +:+ subject +:+ " due to err: " +:+ Cause
  | AppErrFailedToGetAppStatus =>
      "Failed to get status of app: " +:+ subject +:+ " due to err: " +:+ Cause
  | AppErrFailedToValidateAppDestroy =>
      "Failed to validate destroy of app: " +:+ subject +:+ " due to err: " +:+ Cause
  | AppErrFailedToGetNodesForApp =>
      "Failed to get nodes of app: " +:+ subject +:+ " due to err: " +:+ Cause
  | AppErrFailedToDeleteTasks =>
      "Failed to delete tasks of app: " +:+ subject +:+ " due to err: " +:+ Cause
  | AppErrFailedToGetVolumeParameters =>
      "Failed to get volume parameters for app: " +:+ subject +:+ " due to err: " +:+ Cause
  | AppErrFailedToGetSnapShotData =>
      "Failed to get snapshot data for app: " +:+ subject +:+ " due to err: " +:+ Cause
  | AppErrFailedToGetSnapShot =>
      "Failed to get snapshot for app: " +:+ subject +:+ " due to err: " +:+ Cause
  | AppErrFailedToGetSnapShotDataName =>
      "Failed to get snapshot data name for app: " +:+ subject +:+ " due to err: " +:+ Cause
  | AppErrFailedToGetStorageStatus =>
      "Failed to get storage status for: " +:+ subject +:+ " due to err: " +:+ Cause
  | AppErrFailedToDeleteVolumeDirForPod =>
      "Failed to delete volume directory for app: " +:+ subject +:+ " due to err: " +:+ Cause
  | AppErrFailedToUpdateApp =>
      "Failed to update app: " +:+ subject +:+ " due to err: " +:+ Cause
  | AppErrFailedToGetSecret =>
      "Failed to get Secret : " +:+ subject +:+ " due to err: " +:+ Cause
  | AppErrFailedToValidateCsiSnapshots =>
      "Failed to validate Csi snapshot for App: " +:+ subject +:+ " due to err: " +:+ Cause
  | AppErrFailedToCreateCsiSnapshots =>
      "Failed to create snapshot for App: " +:+ subject +:+ " due to err: " +:+ Cause
  | AppErrFailedToValidatePvcAfterRestore =>
      "Failed to validate PVC for App: " +:+ subject +:+ " due to err: " +:+ Cause
  | AppErrFailedToRestore =>
      "Failed to validate PVC for App: " +:+ subject +:+ " due to err: " +:+ Cause
  end.

(** ** drivers/scheduler/errors.go: the types about a node, a custom spec, a pod, a
    snapshot or a claim

    The subject is what their [Error] methods print before the cause: a name, or
    the node printed with [%v]. *)

Inductive sched_error : Type :=
  | ErrNodeNotReady (Node : string)
  | ErrFailedToStopSchedOnNode (SystemService Node : string)
  | ErrFailedToStartSchedOnNode (SystemService Node : string)
  | ErrFailedToValidateCustomSpec (Name Type_ : string)
  | ErrFailedToDecommissionNode (Node : string)
  | ErrFailedToGetConfigMap (Name : string)
  | ErrFailedToAddLabelOnNode (Key Value Node : string)
  | ErrFailedToRemoveLabelOnNode (Key Node : string)
  | ErrFailedToGetCustomSpec (Name : string)
  | ErrFailedToGetEvents (Type_ Name : string)
  | SchedErrFailedToDeleteNode (Node : string)
  | ErrFailedToGetNode
  | ErrFailedToUpdateNodeList (Node : string)
  | ErrFailedToBringUpNode (Node : string)
  | ErrFailedToValidateTopologyLabel (NameSpace : string)
  | ErrTopologyLabelMismatch (PodName : string)
  | ErrFailedToCreateSnapshot (PvcName : string)
  | ErrFailedToCreateSnapshotClass (Name : string)
  | ErrFailedToGetSnapshotList (Name : string)
  | ErrFailedToValidateSnapshot (Name : string)
  | ErrFailedToValidatePvc (Name : string)
  | ErrFailedToDeleteSnapshot (Name : string).

Definition sched_error_text (k : sched_error) (Cause : string) : string :=
  match k with
  | ErrNodeNotReady n => "Node: " +:+ n +:+ " is not ready due to err: " +:+ Cause
  | ErrFailedToStopSchedOnNode svc n =>
      "Failed to stop scheduler service " +:+ svc +:+ " on node: " +:+ n +:+ " due to err: " +:+ Cause
  | ErrFailedToStartSchedOnNode svc n =>
      "Failed to start scheduler service " +:+ svc +:+ " on node: " +:+ n +:+ " due to err: " +:+ Cause
  | ErrFailedToValidateCustomSpec name t =>
      "Failed to validate custom spec : " +:+ name +:+ " of type " +:+ t +:+ " due to err: " +:+ Cause
  | ErrFailedToDecommissionNode n =>
      "Failed to decommission node: " +:+ n +:+ " due to err: " +:+ Cause
  | ErrFailedToGetConfigMap name =>
      "Failed to get config map: " +:+ name +:+ " due to err: " +:+ Cause
  | ErrFailedToAddLabelOnNode key value n =>
      "Failed to add label: " +:+ key +:+ "=" +:+ value +:+ " on node " +:+ n +:+ " due to err: " +:+ Cause
  | ErrFailedToRemoveLabelOnNode key n =>
      "Failed to remove label: " +:+ key +:+ " on node: " +:+ n +:+ " due to err: " +:+ Cause
  | ErrFailedToGetCustomSpec name =>
      "Failed to get custom spec: " +:+ name +:+ " due to err: " +:+ Cause
  | ErrFailedToGetEvents t name =>
      "Failed to get Events for: [" +:+ t +:+ "]" +:+ name +:+ " due to err: " +:+ Cause
  | SchedErrFailedToDeleteNode n =>
      "Failed to Delete a Node : [" +:+ n +:+ "] due to err: " +:+ Cause
  | ErrFailedToGetNode => "Failed to Get a Node due to err: " +:+ Cause
  | ErrFailedToUpdateNodeList n =>
      "Failed to Update a Node : [" +:+ n +:+ "] due to err: " +:+ Cause
  | ErrFailedToBringUpNode n =>
      "Failed to bring up a Node : [" +:+ n +:+ "] due to err: " +:+ Cause
  | ErrFailedToValidateTopologyLabel ns =>
      "Failed to validate topology label in namespace: " +:+ ns +:+ " due to err: " +:+ Cause
  | ErrTopologyLabelMismatch pod =>
      "Failed to match topology label for pod: " +:+ pod +:+ " due to err: " +:+ Cause
  | ErrFailedToCreateSnapshot pvc =>
      "Failed to create snapshot for volume: " +:+ pvc +:+ " due to err: " +:+ Cause
  | ErrFailedToCreateSnapshotClass name =>
      "Failed to create snapshot for volume: " +:+ name +:+ " due to err: " +:+ Cause
  | ErrFailedToGetSnapshotList name =>
      "Failed to list snapshot in namespace: " +:+ name +:+ " due to err: " +:+ Cause
  | ErrFailedToValidateSnapshot name =>
      "Failed to validate snapshot for volume: " +:+ name +:+ " due to err: " +:+ Cause
  | ErrFailedToValidatePvc name =>
      "Failed to validate PVC: " +:+ name +:+ " due to err: " +:+ Cause
  | ErrFailedToDeleteSnapshot name =>
      "Failed to delete snapshot in namespace: " +:+ name +:+ " due to err: " +:+ Cause
  end.

(** ** drivers/volume/portworx/schedops: errors.go and the label errors

    The maps of [ErrFailedToCleanupVolume] are printed in the order of the lists. *)
Inductive schedops_error : Type :=
  | errLabelPresent (label node : string)
  | errLabelAbsent (label node : string)
  | ErrLabelMissingOnNode (Label : string) (Nodes : list string)
  | ErrLabelNotRemovedFromNode (Label : string) (Nodes : list string)
  | ErrFailedToCleanupVolume (OrphanPods DirtyVolPods : list (string * list string)).

Definition schedops_error_text (k : schedops_error) : string :=
  match k with
  | errLabelPresent label node => "label " +:+ label +:+ " is present on node " +:+ node
  | errLabelAbsent label node => "label " +:+ label +:+ " is absent on node " +:+ node
  | ErrLabelMissingOnNode label nodes => "Label " +:+ label +:+ " missing on nodes " +:+ show_strings nodes
  | ErrLabelNotRemovedFromNode label nodes => "Label " +:+ label +:+ " not removed from the nodes " +:+ show_strings nodes
  | ErrFailedToCleanupVolume orphan dirty =>
      let told (what : string) (np : string * list string) := what +:+ np.1 +:+ " for pods: " +:+ show_strings np.2 in
      Join ((told "Failed to remove orphan volume dir on node: " <$> orphan) ++
            (told "Failed to cleanup data under volume directory on node: " <$> dirty)) ", "
  end.

Definition schedops_cause (k : schedops_error) : string :=
  match k with
  | errLabelPresent label _ | errLabelAbsent label _ | ErrLabelMissingOnNode label _
  | ErrLabelNotRemovedFromNode label _ => label
  | ErrFailedToCleanupVolume _ _ => ""
  end.

(** ** gRPC status errors, as the SDK returns them *)
Inductive grpc_code : Type :=
  | code_NotFound | code_Internal | code_Unavailable | code_Unknown | code_other (name : string).

Definition grpc_code_String (c : grpc_code) : string :=
  match c with
  | code_NotFound => "NotFound"
  | code_Internal => "Internal"
  | code_Unavailable => "Unavailable"
  | code_Unknown => "Unknown"
  | code_other name => name
  end.

(** ** The error interface

    [Errorf] is an error made by [fmt.Errorf] or by code outside the
    repository, of which only the text is observable. *)
Inductive error : Type :=
  (* pkg/errors/errors.go *)
  | ErrNotFound (ID Type_ : string)
  | ErrValidateVol (ID Cause : string)
  | ErrNotSupported (Type_ Operation : string)
  | ErrOperationNotPerformed (Operation Reason : string)
  (* vendor/github.com/portworx/sched-ops/task/task.go *)
  | ErrTimedOut (Reason : string)
  | DeadlineExceeded
  (* the families above *)
  | PxErr (k : px_error) (subject Cause : string)
  | NodeErr (k : node_error) (subject Cause : string)
  | AppErr (k : app_error) (App Cause : string)
  | SchedErr (k : sched_error) (Cause : string)
  | SchedOpsErr (k : schedops_error)
  | GrpcError (code : grpc_code) (desc : string)
  | Errorf (msg : string).

(** [ErrTimedOut.Error]: the reason is appended only when there is one. *)
Definition ErrTimedOut_Error (Reason : string) : string :=
  let errString := "timed out performing task." in
  if decide (Reason = "") then errString
  else errString +:+ ", Error was: " +:+ Reason.

(** The [Error] method of the interface. *)
Definition Error (e : error) : string :=
  match e with
  | ErrNotFound ID Type_ => Type_ +:+ " with UID/Name: " +:+ ID +:+ " not found"
  | ErrValidateVol ID Cause =>
      "Failed to validate volumes for spec: " +:+ ID +:+ " Err: " +:+ Cause
  | ErrNotSupported Type_ Operation => Type_ +:+ " " +:+ Operation +:+ " is not supported"
  | ErrOperationNotPerformed Operation Reason =>
      Operation +:+ " was not performed due to: " +:+ Reason
  | ErrTimedOut Reason => ErrTimedOut_Error Reason
  | DeadlineExceeded => "context deadline exceeded"
  | PxErr k subject Cause => px_error_text k subject Cause
  | NodeErr k subject Cause => node_error_text k subject Cause
  | AppErr k App Cause => app_error_text k App Cause
  | SchedErr k Cause => sched_error_text k Cause
  | SchedOpsErr k => schedops_error_text k
  | GrpcError code desc =>
      "rpc error: code = " +:+ grpc_code_String code +:+ " desc = " +:+ desc
  | Errorf msg => msg
  end.

(** [status.FromError(err)]: the code of an error that carries none is
    [Unknown]. *)
Definition status_code (e : error) : grpc_code :=
  match e with
  | GrpcError code _ => code
  | _ => code_Unknown
  end.

(** The text of the underlying failure an error was built from. *)
Definition cause_of (e : error) : string :=
  match e with
  | ErrNotFound ID _ => ID
  | ErrValidateVol _ Cause => Cause
  | ErrNotSupported _ Operation => Operation
  | ErrOperationNotPerformed _ Reason => Reason
  | ErrTimedOut Reason => Reason
  | DeadlineExceeded => ""
  | PxErr _ _ Cause => Cause
  | NodeErr _ _ Cause => Cause
  | AppErr _ _ Cause => Cause
  | SchedErr _ Cause => Cause
  | SchedOpsErr k => schedops_cause k
  | GrpcError _ desc => desc
  | Errorf msg => msg
  end.

#[export] Instance px_error_eq_dec : EqDecision px_error.
Proof. solve_decision. Defined.
#[export] Instance node_error_eq_dec : EqDecision node_error.
Proof. solve_decision. Defined.
#[export] Instance app_error_eq_dec : EqDecision app_error.
Proof. solve_decision. Defined.
#[export] Instance sched_error_eq_dec : EqDecision sched_error.
Proof. solve_decision. Defined.
#[export] Instance schedops_error_eq_dec : EqDecision schedops_error.
Proof. solve_decision. Defined.
#[export] Instance grpc_code_eq_dec : EqDecision grpc_code.
Proof. solve_decision. Defined.
#[export] Instance error_eq_dec : EqDecision error.
Proof. solve_decision. Defined.

(** ** Diagnosability *)

Lemma Contains_app_l a s sub : Contains s sub = true → Contains (a +:+ s) sub = true.
Proof.
  rewrite !Contains_spec. intros (x & y & ->). exists (a +:+ x), y.
  by rewrite !app_assoc_s.
Qed.

Lemma Contains_app_r a s sub : Contains s sub = true → Contains (s +:+ a) sub = true.
Proof.
  rewrite !Contains_spec. intros (x & y & ->). exists x, (y +:+ a).
  by rewrite !app_assoc_s.
Qed.

Lemma Contains_refl s : Contains s s = true.
Proof. apply Contains_spec. exists "", "". simpl. by rewrite app_empty_r. Qed.

Lemma Contains_empty s : Contains s "" = true.
Proof. apply Contains_spec. by exists "", s. Qed.

#[export] Hint Resolve Contains_app_l Contains_app_r Contains_refl Contains_empty : torpedo.

(** Find the searched text among the pieces of a concatenation. *)
Ltac contains :=
  solve [ simple apply Contains_refl | simple apply Contains_empty
        | simple apply Contains_app_r; contains | simple apply Contains_app_l; contains ].

(** No error type loses the failure it was built from: the text printed by
    [Error] contains the cause (or the id, operation or reason) stored in the
    struct. *)
Theorem Error_mentions_cause (e : error) : Contains (Error e) (cause_of e) = true.
Proof.
  destruct e; unfold Error, cause_of, ErrTimedOut_Error;
    lazymatch goal with
    | k : px_error |- _ => destruct k; unfold px_error_text
    | k : node_error |- _ => destruct k; unfold node_error_text
    | k : app_error |- _ => destruct k; unfold app_error_text
    | k : sched_error |- _ => destruct k; unfold sched_error_text
    | k : schedops_error |- _ => destruct k; unfold schedops_error_text, schedops_cause
    | _ => try case_decide; subst
    end; contains.
Qed.
