(* ===== verification/Effects.v ===== *)
(** Effects of the Go code: results with errors and panics, calls that change
    the world, and the clock.

    A stateful Go function [func f(args) (A, error)] is a Rocq function
    [f args : M W A], where the world [W] holds everything the call can see and
    change (the storage cluster, the scheduler, the node registry, the clock).
    Code outside the repository acts on [W] through type classes, one per
    interface the program calls. *)

From S2P Require Import Prelude GoStrings Errors.

(** ** Outcomes of a call

    [Ok] and [Err] are the two returns of a Go function with an error result,
    [Panic] is a run-time panic, and [Diverge] is the answer of a fuelled loop
    whose fuel ran out: no Go value corresponds to it, and the termination
    theorems show when it cannot be produced. *)
Inductive outcome (A : Type) : Type :=
  | Ok (a : A)
  | Err (e : error)
  | Panic (msg : string)
  | Diverge.
Arguments Ok {A} a.
Arguments Err {A} e.
Arguments Panic {A} msg.
Arguments Diverge {A}.

#[export] Instance outcome_ret : MRet outcome := λ A a, Ok a.
#[export] Instance outcome_bind : MBind outcome := λ A B f o,
  match o with
  | Ok a => f a
  | Err e => Err e
  | Panic m => Panic m
  | Diverge => Diverge
  end.

(** ** Stateful calls *)

Definition M (W A : Type) : Type := W → outcome A * W.

#[export] Instance M_ret W : MRet (M W) := λ A a w, (Ok a, w).
#[export] Instance M_bind W : MBind (M W) := λ A B f m w,
  match m w with
  | (Ok a, w') => f a w'
  | (Err e, w') => (Err e, w')
  | (Panic s, w') => (Panic s, w')
  | (Diverge, w') => (Diverge, w')
  end.

(** [return ..., err] and a run-time panic *)
Definition throw {W A} (e : error) : M W A := λ w, (Err e, w).
Definition panic {W A} (msg : string) : M W A := λ w, (Panic msg, w).
Definition lift {W A} (o : outcome A) : M W A := λ w, (o, w).

(** [x, err := m]: the continuation inspects the error itself. *)
Definition attempt {W A B} (m : M W A) (k : A + error → M W B) : M W B := λ w,
  match m w with
  | (Ok a, w') => k (inl a) w'
  | (Err e, w') => k (inr e) w'
  | (Panic s, w') => (Panic s, w')
  | (Diverge, w') => (Diverge, w')
  end.

(** [if err := m; err != nil { return h(err) }] *)
Definition wrap_err {W A} (h : error → error) (m : M W A) : M W A :=
  attempt m (λ r, match r with inl a => mret a | inr e => throw (h e) end).

(** Indexing [l[i]]: out of range is a panic. *)
Definition index {A} (l : list A) (i : Z) : outcome A :=
  if decide (i < 0) then Panic "index out of range" else
  match l !! Z.to_nat i with
  | Some a => Ok a
  | None => Panic "index out of range"
  end.

(** Reading through a pointer: [nil] is a panic. *)
Definition deref {A} (p : option A) : outcome A :=
  match p with
  | Some a => Ok a
  | None => Panic "invalid memory address or nil pointer dereference"
  end.

(** ** Equations and inversion principles *)

Section monad_lemmas.
Context {W : Type}.

Lemma bind_Ok_inv {A B} (m : M W A) (f : A → M W B) w w2 b :
  (m ≫= f) w = (Ok b, w2) → ∃ a w1, m w = (Ok a, w1) ∧ f a w1 = (Ok b, w2).
Proof.
  unfold mbind, M_bind. destruct (m w) as [[a|e|s|] w1]; intros H; simplify_eq; eauto.
Qed.

Lemma bind_Ok {A B} (m : M W A) (f : A → M W B) w w1 a :
  m w = (Ok a, w1) → (m ≫= f) w = f a w1.
Proof. unfold mbind, M_bind. by intros ->. Qed.

Lemma bind_Err {A B} (m : M W A) (f : A → M W B) w w1 e :
  m w = (Err e, w1) → (m ≫= f) w = (Err e, w1).
Proof. unfold mbind, M_bind. by intros ->. Qed.

Lemma bind_assoc {A B C} (m : M W A) (f : A → M W B) (g : B → M W C) w :
  ((m ≫= f) ≫= g) w = (m ≫= λ a, f a ≫= g) w.
Proof. unfold mbind, M_bind. by destruct (m w) as [[a|e|s|] w1]. Qed.

Lemma lift_Ok_inv {A} (o : outcome A) (w : W) a w' : lift o w = (Ok a, w') → o = Ok a ∧ w' = w.
Proof. unfold lift. by intros [= -> ->]. Qed.

Lemma wrap_err_Ok_inv {A} h (m : M W A) w w2 a :
  wrap_err h m w = (Ok a, w2) → m w = (Ok a, w2).
Proof.
  unfold wrap_err, attempt. destruct (m w) as [[a'|e|s|] w1]; simpl; intros H;
    unfold mret, M_ret, throw in H; simplify_eq; done.
Qed.

Lemma wrap_err_Ok {A} h (m : M W A) w w2 a :
  m w = (Ok a, w2) → wrap_err h m w = (Ok a, w2).
Proof. unfold wrap_err, attempt. by intros ->. Qed.

Lemma wrap_err_Err {A} h (m : M W A) w w2 e :
  m w = (Err e, w2) → wrap_err h m w = (Err (h e), w2).
Proof. unfold wrap_err, attempt. by intros ->. Qed.

End monad_lemmas.

(** A call that never panics nor runs out of fuel. *)
Definition total_on {W A} (P : W → Prop) (m : M W A) : Prop :=
  ∀ w, P w → match m w with
             | (Ok _, _) | (Err _, _) => True
             | _ => False
             end.

(** Unfold the monad in the goal, or in a hypothesis, and reduce. *)
Ltac unfold_m :=
  repeat (unfold mbind, M_bind, mret, M_ret, outcome_bind, outcome_ret,
            throw, panic, lift, attempt, wrap_err in *; simpl in * ).

(** Invert a successful chain of binds. *)
Ltac inv_ok H :=
  let a := fresh "a" in let w := fresh "w" in
  let H1 := fresh "Hm" in let H2 := fresh "Hk" in
  apply bind_Ok_inv in H as (a & w & H1 & H2).

(** ** The clock

    Durations and instants are nanoseconds.  Sleeping pauses for at least the
    duration asked for, and returns at once when that is negative; how much later
    the program wakes up is not known. *)
Class Clock (W : Type) := {
  now : W → Z;
  sleep : Z → W → W;
}.

Class ClockLaws (W : Type) `{Clock W} : Prop := {
  now_sleep_max : ∀ d w, now w + Z.max 0 d <= now (sleep d w);
}.

Lemma now_sleep {W} `{ClockLaws W} d (w : W) : now w + d <= now (sleep d w).
Proof. pose proof (now_sleep_max d w). lia. Qed.

(** No call turns the clock back. *)
Definition monotone {W A} `{Clock W} (m : M W A) : Prop :=
  ∀ w, now w <= now (m w).2.

Definition Second : Z := 1000000000.
Definition Minute : Z := 60 * Second.
Definition Hour : Z := 60 * Minute.

Section clock_lemmas.
Context {W : Type} `{Clock W}.

Lemma monotone_ret {A} (a : A) : monotone (mret a : M W A).
Proof. intros w. simpl. lia. Qed.

Lemma monotone_throw {A} e : monotone (throw e : M W A).
Proof. intros w. simpl. lia. Qed.

Lemma monotone_bind {A B} (m : M W A) (f : A → M W B) :
  monotone m → (∀ a, monotone (f a)) → monotone (m ≫= f).
Proof.
  intros Hm Hf w. specialize (Hm w). unfold mbind, M_bind.
  destruct (m w) as [[a|e|s|] w1]; simpl in *; try done.
  specialize (Hf a w1). lia.
Qed.

Lemma monotone_attempt {A B} (m : M W A) (k : A + error → M W B) :
  monotone m → (∀ r, monotone (k r)) → monotone (attempt m k).
Proof.
  intros Hm Hf w. specialize (Hm w). unfold attempt.
  destruct (m w) as [[a|e|s|] w1]; simpl in *; try done.
  - specialize (Hf (inl a) w1). lia.
  - specialize (Hf (inr e) w1). lia.
Qed.

Lemma monotone_wrap_err {A} h (m : M W A) : monotone m → monotone (wrap_err h m).
Proof.
  intros Hm. apply monotone_attempt; [done|].
  intros [a|e]; [apply monotone_ret|apply monotone_throw].
Qed.
End clock_lemmas.

#[export] Hint Resolve monotone_ret monotone_throw monotone_bind monotone_attempt
  monotone_wrap_err : torpedo.

(** ** Variables shared with a closure or behind a pointer

    A Go closure that assigns to a captured variable, and a function that
    receives a pointer, act on the world extended with that variable. *)

Section local_var.
Context {W L : Type}.

Definition up {A} (m : M W A) : M (W * L) A := λ wl,
  let '(o, w') := m wl.1 in (o, (w', wl.2)).

Definition get_local : M (W * L) L := λ wl, (Ok wl.2, wl).
Definition put_local (l : L) : M (W * L) unit := λ wl, (Ok tt, (wl.1, l)).

(** Run a body with a local variable initialised to [l]; the variable is
    dropped ([run_local]) or handed back ([with_local]) at the end. *)
Definition run_local {A} (l : L) (m : M (W * L) A) : M W A := λ w,
  let '(o, wl) := m (w, l) in (o, wl.1).

Definition with_local {A} (l : L) (m : M (W * L) A) : M W (A * L) := λ w,
  match m (w, l) with
  | (Ok a, (w', l')) => (Ok (a, l'), w')
  | (Err e, (w', _)) => (Err e, w')
  | (Panic s, (w', _)) => (Panic s, w')
  | (Diverge, (w', _)) => (Diverge, w')
  end.

Context `{ClockLaws W}.

#[export] Instance Clock_local : Clock (W * L) :=
  { now := λ wl, now wl.1; sleep := λ d wl, (sleep d wl.1, wl.2) }.

#[export] Instance ClockLaws_local : ClockLaws (W * L).
Proof. constructor. intros d [w l]. apply (now_sleep_max (W:=W) d w). Qed.

Lemma up_Ok_inv {A} (m : M W A) w l a w' l' :
  up m (w, l) = (Ok a, (w', l')) → m w = (Ok a, w') ∧ l' = l.
Proof. unfold up. simpl. destruct (m w). naive_solver. Qed.

Lemma up_eq {A} (m : M W A) w l : up m (w, l) = ((m w).1, ((m w).2, l)).
Proof. unfold up. simpl. by destruct (m w). Qed.

Lemma bind_get_local {A} (f : L → M (W * L) A) w l : (get_local ≫= f) (w, l) = f l (w, l).
Proof. done. Qed.

Lemma bind_put_local {A} (f : unit → M (W * L) A) w l l' :
  (put_local l' ≫= f) (w, l) = f tt (w, l').
Proof. done. Qed.

Lemma run_local_inv {A} l (m : M (W * L) A) w o w' :
  run_local l m w = (o, w') → ∃ l', m (w, l) = (o, (w', l')).
Proof. unfold run_local. destruct (m (w, l)) as [o' [w1 l1]]. naive_solver. Qed.
End local_var.

(** ** Invariants of calls

    [preserves I m]: whatever [m] returns, it leaves a world that satisfies
    [I] when it started in one. *)
Definition preserves {W A} (I : W → Prop) (m : M W A) : Prop := ∀ w, I w → I (m w).2.

Section preserves_lemmas.
Context {W : Type} (I : W → Prop).

Lemma preserves_ret {A} (a : A) : preserves I (mret a : M W A).
Proof. by intros w. Qed.

Lemma preserves_throw {A} e : preserves I (throw e : M W A).
Proof. by intros w. Qed.

Lemma preserves_panic {A} s : preserves I (panic s : M W A).
Proof. by intros w. Qed.

Lemma preserves_lift {A} (o : outcome A) : preserves I (lift o : M W A).
Proof. by intros w. Qed.

Lemma preserves_bind {A B} (m : M W A) (f : A → M W B) :
  preserves I m → (∀ a, preserves I (f a)) → preserves I (m ≫= f).
Proof.
  intros Hm Hf w Hw. specialize (Hm w Hw). unfold mbind, M_bind.
  destruct (m w) as [[a|e|s|] w1]; simpl in *; try done. by apply Hf.
Qed.

Lemma preserves_attempt {A B} (m : M W A) (k : A + error → M W B) :
  preserves I m → (∀ r, preserves I (k r)) → preserves I (attempt m k).
Proof.
  intros Hm Hf w Hw. specialize (Hm w Hw). unfold attempt.
  destruct (m w) as [[a|e|s|] w1]; simpl in *; try done; by apply Hf.
Qed.

Lemma preserves_wrap_err {A} h (m : M W A) : preserves I m → preserves I (wrap_err h m).
Proof. intros Hm. apply preserves_attempt; [done|]. by intros [a|e] w. Qed.
End preserves_lemmas.

#[export] Hint Resolve preserves_ret preserves_throw preserves_panic preserves_lift : torpedo.

(** Walk through the control structure of a call; [preserve_extra] is extended
    by the files that add combinators. *)
Ltac preserve_extra := fail.

Ltac preserve_step :=
  match goal with
  | |- preserves _ (mbind _ _) => apply preserves_bind; [|intros ?]
  | |- preserves _ (attempt _ _) => apply preserves_attempt; [|intros [?|?]]
  | |- preserves _ (wrap_err _ _) => apply preserves_wrap_err
  | |- preserves _ (match ?x with _ => _ end) => destruct x
  | _ => preserve_extra
  end.

Ltac preserve := repeat first [ solve [eauto 3 with torpedo] | preserve_step ].

Lemma preserves_up {W L A} (I : W → Prop) (m : M W A) :
  preserves I m → preserves (λ wl : W * L, I wl.1) (up m).
Proof. intros Hm [w l] Hw. rewrite up_eq. by apply Hm. Qed.

Lemma preserves_run_local {W L A} (I : W → Prop) (J : W * L → Prop) l (m : M (W * L) A) :
  (∀ w, I w → J (w, l)) → (∀ wl, J wl → I wl.1) → preserves J m → preserves I (run_local l m).
Proof.
  intros HIJ HJI Hm w Hw. unfold run_local. specialize (Hm (w, l) (HIJ w Hw)).
  destruct (m (w, l)) as [o wl]. by apply HJI.
Qed.

(** ** Postconditions of calls

    [ensures I m Q]: [m] keeps the invariant [I], and what it returns without an
    error satisfies [Q]. *)
Definition ensures {W A} (I : W → Prop) (m : M W A) (Q : A → Prop) : Prop :=
  ∀ w, I w → I (m w).2 ∧ ∀ a, (m w).1 = Ok a → Q a.

Section ensures_lemmas.
Context {W : Type} (I : W → Prop).

Lemma ensures_ret {A} (a : A) (Q : A → Prop) : Q a → ensures I (mret a : M W A) Q.
Proof. intros Ha w Hw. split; [done|]. simpl. intros ? [= <-]. done. Qed.

Lemma ensures_throw {A} e (Q : A → Prop) : ensures I (throw e : M W A) Q.
Proof. by intros w Hw. Qed.

Lemma ensures_lift {A} (o : outcome A) (Q : A → Prop) : (∀ a, o = Ok a → Q a) → ensures I (lift o : M W A) Q.
Proof. intros Ho w Hw. by split. Qed.

Lemma ensures_bind {A B} (m : M W A) (f : A → M W B) (P : A → Prop) (Q : B → Prop) :
  ensures I m P → (∀ a, P a → ensures I (f a) Q) → ensures I (m ≫= f) Q.
Proof.
  intros Hm Hf w Hw. destruct (Hm w Hw) as [Hw1 HP]. unfold mbind, M_bind.
  destruct (m w) as [[a|e|s|] w1]; simpl in *; [|done..]. by apply Hf; [apply HP|].
Qed.

Lemma ensures_attempt {A B} (m : M W A) (k : A + error → M W B) (P : A → Prop) (Q : B → Prop) :
  ensures I m P → (∀ a, P a → ensures I (k (inl a)) Q) → (∀ e, ensures I (k (inr e)) Q) →
  ensures I (attempt m k) Q.
Proof.
  intros Hm Ha He w Hw. destruct (Hm w Hw) as [Hw1 HP]. unfold attempt.
  destruct (m w) as [[a|e|s|] w1]; simpl in *; [|by apply He|done..]. by apply Ha; [apply HP|].
Qed.

Lemma ensures_wrap_err {A} h (m : M W A) (Q : A → Prop) : ensures I m Q → ensures I (wrap_err h m) Q.
Proof.
  intros Hm. eapply ensures_attempt; [done|..]; intros; [by apply ensures_ret|apply ensures_throw].
Qed.

Lemma ensures_weaken {A} (m : M W A) (P Q : A → Prop) : ensures I m P → (∀ a, P a → Q a) → ensures I m Q.
Proof. intros Hm HPQ w Hw. destruct (Hm w Hw) as [Hw1 HP]. split; [done|]. intros a Ha. by apply HPQ, HP. Qed.

Lemma ensures_any {A} (m : M W A) : preserves I m → ensures I m (λ _, True).
Proof. intros Hm w Hw. by split; [apply Hm|]. Qed.

Lemma ensures_preserves {A} (m : M W A) Q : ensures I m Q → preserves I m.
Proof. intros Hm w Hw. by apply Hm. Qed.
End ensures_lemmas.

(** ** Loops that stop at the first error

    [for _, x := range l { if err := body(x); err != nil { return err } }] *)

Section for_each.
Context {W A : Type} (body : A → M W unit).

Fixpoint for_each (l : list A) : M W unit :=
  match l with
  | [] => mret tt
  | x :: l' => _ ← body x; for_each l'
  end.

(** Every element was processed without an error, one after the other, from the
    first world to the second. *)
Inductive steps : list A → W → W → Prop :=
  | steps_nil w : steps [] w w
  | steps_cons x l w w1 w2 : body x w = (Ok tt, w1) → steps l w1 w2 → steps (x :: l) w w2.

Lemma for_each_Ok l w w' : for_each l w = (Ok tt, w') ↔ steps l w w'.
Proof.
  split.
  - revert w. induction l as [|x l IH]; intros w; simpl.
    + unfold mret, M_ret. intros Hm. simplify_eq. constructor.
    + intros ([] & w1 & Hx & Hl)%bind_Ok_inv. econstructor; eauto.
  - induction 1 as [w|x l w w1 w2 Hx Hl IH]; simpl; [done|]. by rewrite (bind_Ok _ _ _ _ _ Hx).
Qed.

(** A failure is the failure of one element, after the successes before it. *)
Lemma for_each_Err l w e w' :
  for_each l w = (Err e, w') → ∃ pre x post w1, l = pre ++ x :: post ∧ steps pre w w1 ∧ body x w1 = (Err e, w').
Proof.
  revert w. induction l as [|x l IH]; intros w; simpl; [done|].
  unfold mbind, M_bind. destruct (body x w) as [[[]|e'|s|] w1] eqn:Hx; intros Hr; simplify_eq.
  - apply IH in Hr as (pre & y & post & w2 & -> & Hs & Hy).
    exists (x :: pre), y, post, w2. split_and!; [done| |done]. by econstructor.
  - exists [], x, l, w. split_and!; [done|constructor|done].
Qed.

Lemma steps_elem l w w' x : steps l w w' → x ∈ l → ∃ w1 w2, body x w1 = (Ok tt, w2).
Proof. induction 1; intros Hin; [by apply elem_of_nil in Hin|]. apply elem_of_cons in Hin as [->|?]; eauto. Qed.

Lemma preserves_for_each I l : (∀ x, preserves I (body x)) → preserves I (for_each l).
Proof. intros Hb. induction l; simpl; [apply preserves_ret|]. by apply preserves_bind. Qed.

(** What each element establishes and the others keep holds at the end. *)
Lemma for_each_establishes (P : A → W → Prop) l w w' :
  (∀ x y, preserves (P y) (body x)) →
  (∀ x w1 w2, x ∈ l → body x w1 = (Ok tt, w2) → P x w2) →
  for_each l w = (Ok tt, w') → ∀ x, x ∈ l → P x w'.
Proof.
  intros Hk He Hs. apply for_each_Ok in Hs.
  induction Hs as [w|y l w w1 w2 Hy Hs IH]; intros x Hx; [by apply elem_of_nil in Hx|].
  apply elem_of_cons in Hx as [->|Hx].
  - assert (P y w1) as Hp by (eapply He; [by left|done]). apply for_each_Ok in Hs.
    pose proof (preserves_for_each (P y) l (λ x, Hk x y) w1 Hp) as Hl. by rewrite Hs in Hl.
  - apply IH; [|done]. intros x' ?? Hx'. apply He. by right.
Qed.
End for_each.
