(* ===== verification/Regexp.v ===== *)
(** Go's [regexp] package as far as the program uses it: the syntax it writes (groups,
    alternatives, classes, [.], [^], [$], escapes, [*], [+], [?] and counted
    repetition), whether a text contains a match, and the theorem that the matcher
    decides exactly that.  Text is ASCII; a match of a repetition is longer or shorter
    but the answer the same, so greediness plays no role. *)

From Stdlib Require Import Ascii.
From S2P Require Import Prelude GoStrings Errors Effects.

Module Regexp.

(** A class is a list of ranges and whether it is negated. *)
Inductive regexp :=
  | REmpty
  | RClass (negated : bool) (ranges : list (ascii * ascii))
  | RBegin
  | REnd
  | RSeq (r1 r2 : regexp)
  | RAlt (r1 r2 : regexp)
  | RStar (r : regexp).

Definition in_range (c : ascii) (range : ascii * ascii) : bool :=
  (nat_of_ascii range.1 <=? nat_of_ascii c)%nat && (nat_of_ascii c <=? nat_of_ascii range.2)%nat.

Definition in_class (negated : bool) (ranges : list (ascii * ascii)) (c : ascii) : bool :=
  xorb negated (existsb (in_range c) ranges).

(** ** Which parts of a text match

    [matches text r i j]: the characters from position [i] up to [j] are matched by [r] *)
Inductive matches (text : list ascii) : regexp → nat → nat → Prop :=
  | m_empty i : matches text REmpty i i
  | m_class neg ranges i c : text !! i = Some c → in_class neg ranges c = true → matches text (RClass neg ranges) i (S i)
  | m_begin : matches text RBegin 0 0
  | m_end : matches text REnd (length text) (length text)
  | m_seq r1 r2 i j k : matches text r1 i j → matches text r2 j k → matches text (RSeq r1 r2) i k
  | m_left r1 r2 i j : matches text r1 i j → matches text (RAlt r1 r2) i j
  | m_right r1 r2 i j : matches text r2 i j → matches text (RAlt r1 r2) i j
  | m_stop r i : matches text (RStar r) i i
  | m_more r i j k : matches text r i j → matches text (RStar r) j k → matches text (RStar r) i k.

(** ** The matcher: the ends of the matches that begin at a position *)

Section matcher.
Context (text : list ascii).

(** Rounds of a repetition, each of which gets further in the text *)
Fixpoint rounds (step : nat → list nat) (n i : nat) : list nat :=
  match n with
  | O => [i]
  | S n' => i :: flat_map (λ j, if (i <? j)%nat then rounds step n' j else []) (step i)
  end.

Fixpoint ends (r : regexp) (i : nat) : list nat :=
  match r with
  | REmpty => [i]
  | RClass neg ranges => match text !! i with
                         | Some c => if in_class neg ranges c then [S i] else []
                         | None => []
                         end
  | RBegin => if decide (i = 0%nat) then [i] else []
  | REnd => if decide (i = length text) then [i] else []
  | RSeq r1 r2 => flat_map (ends r2) (remove_dups (ends r1 i))
  | RAlt r1 r2 => ends r1 i ++ ends r2 i
  | RStar r => rounds (ends r) (length text) i
  end.

(** A match anywhere in the text *)
Definition has_match (r : regexp) : bool :=
  existsb (λ i, negb (bool_decide (ends r i = []))) (seq 0 (S (length text))).

Lemma matches_le r i j : matches text r i j → (i <= j)%nat.
Proof. induction 1; lia. Qed.

Lemma matches_bound r i j : matches text r i j → (i <= length text → j <= length text)%nat.
Proof.
  induction 1; intros; try lia; auto.
  match goal with H : text !! _ = Some _ |- _ => apply lookup_lt_Some in H end. lia.
Qed.

Lemma in_flat_map_iff {A B} (f : A → list B) l y : y ∈ flat_map f l ↔ ∃ x, x ∈ l ∧ y ∈ f x.
Proof. rewrite list_elem_of_In, in_flat_map. by setoid_rewrite <- list_elem_of_In. Qed.

(** What rounds reach is reached by steps, and back when there are rounds enough. *)
Lemma rounds_sound r n i k :
  (∀ i j, j ∈ ends r i → matches text r i j) → k ∈ rounds (ends r) n i → matches text (RStar r) i k.
Proof.
  intros Hr. revert i. induction n as [|n IH]; intros i; simpl.
  - intros ->%list_elem_of_singleton. constructor.
  - intros [->|(j & Hj & Hk)%in_flat_map_iff]%elem_of_cons; [constructor|].
    destruct (i <? j)%nat; [|by apply elem_of_nil in Hk]. eapply m_more; [by apply Hr|by apply IH].
Qed.

Lemma rounds_complete r i k n :
  (∀ i j, (i <= length text)%nat → matches text r i j → j ∈ ends r i) →
  matches text (RStar r) i k → (i <= length text)%nat → (length text - i <= n)%nat → k ∈ rounds (ends r) n i.
Proof.
  intros Hr Hm. remember (RStar r) as s eqn:Es. revert n. induction Hm; simplify_eq; intros n Hi Hn.
  - destruct n; simpl; [by apply list_elem_of_singleton|by left].
  - pose proof (matches_le _ _ _ Hm1). pose proof (matches_bound _ _ _ Hm1 Hi). destruct (decide (i = j)) as [->|Hij].
    + by apply IHHm2.
    + destruct n as [|n]; [lia|]. simpl. right. apply in_flat_map_iff. exists j. split; [by apply Hr|].
      rewrite (proj2 (Nat.ltb_lt i j)) by lia. apply IHHm2; [done..|lia].
Qed.

(** The matcher finds exactly the matches. *)
Lemma ends_spec r i j : (i <= length text)%nat → j ∈ ends r i ↔ matches text r i j.
Proof.
  intros Hi. split.
  - clear Hi. revert i j. induction r as [| | | |r1 IH1 r2 IH2|r1 IH1 r2 IH2|r IH]; intros i j; simpl.
    + intros ->%list_elem_of_singleton. constructor.
    + destruct (text !! i) as [c|] eqn:Hc; [|by intros ?%elem_of_nil].
      destruct (in_class _ _ _) eqn:Hin; [|by intros ?%elem_of_nil]. intros ->%list_elem_of_singleton.
      by econstructor.
    + case_decide; [|by intros ?%elem_of_nil]. subst. intros ->%list_elem_of_singleton. constructor.
    + case_decide; [|by intros ?%elem_of_nil]. subst. intros ->%list_elem_of_singleton. constructor.
    + intros (k & Hk & Hj)%in_flat_map_iff. rewrite elem_of_remove_dups in Hk. exact (m_seq _ _ _ _ _ _ (IH1 _ _ Hk) (IH2 _ _ Hj)).
    + intros [?|?]%elem_of_app; [apply m_left|apply m_right]; auto.
    + by apply rounds_sound.
  - intros Hm. revert i j Hi Hm. induction r as [| | | |r1 IH1 r2 IH2|r1 IH1 r2 IH2|r IH]; intros i j Hi Hm; simpl.
    + inversion Hm; subst. by left.
    + inversion Hm as [|? ? ? c Hc Hin| | | | | | |]; subst. rewrite Hc, Hin. by left.
    + inversion Hm; subst. by left.
    + inversion Hm; subst. rewrite decide_True by done. by left.
    + inversion Hm as [| | | |? ? ? k ? H1 H2| | | |]; subst. apply in_flat_map_iff. exists k.
      rewrite elem_of_remove_dups. split; [auto|]. apply IH2; [|done]. by eapply matches_bound.
    + apply elem_of_app. inversion Hm; subst; [left|right]; auto.
    + apply rounds_complete; [done..|lia].
Qed.

Lemma has_match_spec r : has_match r = true ↔ ∃ i j, (i <= length text)%nat ∧ matches text r i j.
Proof.
  unfold has_match. rewrite existsb_exists. split.
  - intros (i & Hi & Hn%negb_true_iff%bool_decide_eq_false). apply in_seq in Hi.
    destruct (ends r i) as [|j l] eqn:E; [done|]. exists i, j. split; [lia|].
    apply ends_spec; [lia|]. rewrite E. by left.
  - intros (i & j & Hi & Hm). exists i. split; [apply in_seq; lia|].
    apply negb_true_iff, bool_decide_eq_false. intros E. apply ends_spec in Hm; [|done].
    rewrite E in Hm. by apply elem_of_nil in Hm.
Qed.
End matcher.

(** ** The syntax *)

Definition RChar (c : ascii) : regexp := RClass false [(c, c)].
Definition RAny : regexp := RClass true [("010"%char, "010"%char)].
Definition RPlus (r : regexp) : regexp := RSeq r (RStar r).
Definition ROpt (r : regexp) : regexp := RAlt r REmpty.

Fixpoint RTimes (n : nat) (r : regexp) : regexp :=
  match n with O => REmpty | S n' => RSeq r (RTimes n' r) end.

Fixpoint RUpTo (n : nat) (r : regexp) : regexp :=
  match n with O => REmpty | S n' => ROpt (RSeq r (RUpTo n' r)) end.

Definition digits : list (ascii * ascii) := [("0"%char, "9"%char)].
Definition words : list (ascii * ascii) := [("0"%char, "9"%char); ("A"%char, "Z"%char); ("_"%char, "_"%char); ("a"%char, "z"%char)].
Definition blanks : list (ascii * ascii) := [("009"%char, "010"%char); ("012"%char, "013"%char); (" "%char, " "%char)].

Definition is_alnum (c : ascii) : bool := in_class false words c && negb (Ascii.eqb c "_").

(** What follows a backslash: a class, or a character that is not a letter or digit *)
Definition escape (c : ascii) : option regexp :=
  if Ascii.eqb c "d" then Some (RClass false digits)
  else if Ascii.eqb c "D" then Some (RClass true digits)
  else if Ascii.eqb c "w" then Some (RClass false words)
  else if Ascii.eqb c "W" then Some (RClass true words)
  else if Ascii.eqb c "s" then Some (RClass false blanks)
  else if Ascii.eqb c "S" then Some (RClass true blanks)
  else if Ascii.eqb c "n" then Some (RChar "010")
  else if Ascii.eqb c "t" then Some (RChar "009")
  else if is_alnum c then None
  else Some (RChar c).

(** The ranges of a class up to its bracket; [first]: a bracket here is a character *)
Fixpoint class_ranges (first : bool) (s : list ascii) : option (list (ascii * ascii) * list ascii) :=
  match s with
  | [] => None
  | "]"%char :: s' =>
      if first then '(l, s1) ← class_ranges false s'; Some (("]"%char, "]"%char) :: l, s1) else Some ([], s')
  | "\"%char :: _ => None
  | lo :: (("-"%char :: hi :: s2) as s1) =>
      if Ascii.eqb hi "]" then '(l, s3) ← class_ranges false s1; Some ((lo, lo) :: l, s3)
      else if (nat_of_ascii lo <=? nat_of_ascii hi)%nat
      then '(l, s3) ← class_ranges false s2; Some ((lo, hi) :: l, s3) else None
  | c :: s' => '(l, s1) ← class_ranges false s'; Some ((c, c) :: l, s1)
  end.

Definition parse_class (s : list ascii) : option (regexp * list ascii) :=
  match s with
  | "^"%char :: s' => '(l, s1) ← class_ranges true s'; Some (RClass true l, s1)
  | _ => '(l, s1) ← class_ranges true s; Some (RClass false l, s1)
  end.

(** The decimal digits at the front; at most the 1000 Go allows *)
Fixpoint number (acc : option nat) (s : list ascii) : option nat * list ascii :=
  match s with
  | c :: s' =>
      if in_class false digits c
      then number (Some (Nat.min 1001 (10 * default 0 acc + (nat_of_ascii c - 48)))%nat) s' else (acc, s)
  | [] => (acc, [])
  end.

(** [{n}], [{n,}] or [{n,m}] after its brace: the minimum and the maximum *)
Definition counts (s : list ascii) : option (nat * option nat * list ascii) :=
  match number None s with
  | (Some n, "}"%char :: s1) => Some (n, Some n, s1)
  | (Some n, ","%char :: s1) =>
      match number None s1 with
      | (m, "}"%char :: s2) => Some (n, m, s2)
      | _ => None
      end
  | _ => None
  end.

Definition lazy_mark (s : list ascii) : list ascii := match s with "?"%char :: s' => s' | _ => s end.

(** The repetition after an atom; a second one is an error *)
Definition is_repetition (s : list ascii) : bool :=
  match s with
  | "*"%char :: _ | "+"%char :: _ | "?"%char :: _ => true
  | "{"%char :: s' => bool_decide (is_Some (counts s'))
  | _ => false
  end.

Definition once (r : regexp) (s : list ascii) : option (regexp * list ascii) :=
  let s' := lazy_mark s in if is_repetition s' then None else Some (r, s').

Definition repetition (r : regexp) (s : list ascii) : option (regexp * list ascii) :=
  match s with
  | "*"%char :: s' => once (RStar r) s'
  | "+"%char :: s' => once (RPlus r) s'
  | "?"%char :: s' => once (ROpt r) s'
  | "{"%char :: s' =>
      match counts s' with
      | Some (n, Some m, s1) =>
          if (m <? n)%nat || (1000 <? m)%nat then None else once (RSeq (RTimes n r) (RUpTo (m - n) r)) s1
      | Some (n, None, s1) => if (1000 <? n)%nat then None else once (RSeq (RTimes n r) (RStar r)) s1
      | None => Some (r, s)
      end
  | _ => Some (r, s)
  end.

(** Alternatives, sequences and atoms; a regular expression is shorter than the fuel.
    Flags of a group are not among the syntax. *)
Fixpoint parse_alt (fuel : nat) (s : list ascii) : option (regexp * list ascii) :=
  match fuel with
  | O => None
  | S f =>
      '(r, s1) ← parse_seq f REmpty s;
      match s1 with
      | "|"%char :: s2 => '(r', s3) ← parse_alt f s2; Some (RAlt r r', s3)
      | _ => Some (r, s1)
      end
  end
with parse_seq (fuel : nat) (acc : regexp) (s : list ascii) : option (regexp * list ascii) :=
  match fuel with
  | O => None
  | S f =>
      match s with
      | [] | "|"%char :: _ | ")"%char :: _ => Some (acc, s)
      | _ =>
          '(a, s1) ← parse_atom f s;
          '(q, s2) ← repetition a s1;
          parse_seq f (RSeq acc q) s2
      end
  end
with parse_atom (fuel : nat) (s : list ascii) : option (regexp * list ascii) :=
  match fuel with
  | O => None
  | S f =>
      match s with
      | [] | "*"%char :: _ | "+"%char :: _ | "?"%char :: _ => None
      | "("%char :: "?"%char :: _ => None
      | "("%char :: s1 =>
          '(r, s2) ← parse_alt f s1;
          match s2 with ")"%char :: s3 => Some (r, s3) | _ => None end
      | "["%char :: s1 => parse_class s1
      | "."%char :: s1 => Some (RAny, s1)
      | "^"%char :: s1 => Some (RBegin, s1)
      | "$"%char :: s1 => Some (REnd, s1)
      | "\"%char :: c :: s1 => r ← escape c; Some (r, s1)
      | ["\"%char] => None
      | c :: s1 => Some (RChar c, s1)
      end
  end.

Fixpoint chars (s : string) : list ascii :=
  match s with EmptyString => [] | String c s' => c :: chars s' end.

Definition parse (s : string) : option regexp :=
  match parse_alt (3 * S (String.length s)) (chars s) with
  | Some (r, []) => Some r
  | _ => None
  end.

(** [regexp.MustCompile] *)
Definition MustCompile (s : string) : outcome regexp :=
  match parse s with
  | Some r => Ok r
  | None => Panic ("regexp: Compile(" +:+ quoted s +:+ ")")
  end.

(** [re.MatchString], and whether [re.FindStringSubmatch] finds something *)
Definition MatchString (r : regexp) (s : string) : bool := has_match (chars s) r.

Example dotted : (r ← parse "^\d+\.\d+:/a.+ /x"; Some (MatchString r "10.2:/abc /xy")) = Some true.
Proof. vm_compute. reflexivity. Qed.

Example counted : (r ← parse "^([a-f0-9]{1,4}::?){1,7}[a-f0-9]{1,4}]"; Some (MatchString r "fe80::1:2]", MatchString r "1]")) = Some (true, false).
Proof. vm_compute. reflexivity. Qed.

Example unbalanced : parse "/data(1" = None ∧ parse "a**" = None ∧ parse "a)" = None.
Proof. vm_compute. done. Qed.
End Regexp.
