(* ===== verification/Float64.v ===== *)
(** Go's float64: IEEE binary64 in the executable specification of the Standard
    Library ([SpecFloat], 53 bits of precision), with the conversions from and
    to integers that Go defines, and what the rounding of a quotient of two
    integers guarantees. *)

From Stdlib Require Import Floats.SpecFloat.
From S2P Require Import Prelude.

Definition float64 : Type := spec_float.

(** [float64(z)] of an integer *)
Definition f64_of_Z (z : Z) : float64 := binary_normalize 53 1024 z 0 false.

Definition f64_mul : float64 → float64 → float64 := SFmul 53 1024.
Definition f64_div : float64 → float64 → float64 := SFdiv 53 1024.
Definition f64_ltb : float64 → float64 → bool := SFltb.
Definition f64_eqb : float64 → float64 → bool := SFeqb.

(** The integer part of a finite number *)
Definition f64_trunc (f : float64) : option Z :=
  match f with
  | S754_zero _ => Some 0
  | S754_finite s m e =>
      let v := if decide (0 <= e) then Zpos m * 2 ^ e else Zpos m / 2 ^ (- e) in
      Some (if s then - v else v)
  | _ => None
  end.

(** [uint64(f)] and [int(f)]; Go leaves a value out of range to the
    implementation, which is the argument [outside]. *)
Definition u64_of_f64 (outside : float64 → Z) (f : float64) : Z :=
  match f64_trunc f with
  | Some z => if decide (0 <= z < two64) then z else u64 (outside f)
  | None => u64 (outside f)
  end.

Definition i64_of_f64 (outside : float64 → Z) (f : float64) : Z :=
  match f64_trunc f with
  | Some z => if decide (- two63 <= z < two63) then z else i64 (outside f)
  | None => i64 (outside f)
  end.

(** [math.Ceil] *)
Definition f64_ceil (f : float64) : float64 :=
  match f with
  | S754_finite s m e =>
      if decide (0 <= e) then f
      else if s then
        match Zpos m / 2 ^ (- e) with
        | 0 => S754_zero true
        | z => f64_of_Z (- z)
        end
      else f64_of_Z (- ((- Zpos m) / 2 ^ (- e)))
  | _ => f
  end.

(** ** Digits *)

Lemma digits2_pos_bounds p : 2 ^ (Zpos (digits2_pos p) - 1) <= Zpos p < 2 ^ Zpos (digits2_pos p).
Proof.
  induction p as [p IH|p IH|]; simpl digits2_pos; [| |simpl; lia].
  1-2: rewrite Pos2Z.inj_succ; replace (Z.succ (Zpos (digits2_pos p)) - 1) with (Zpos (digits2_pos p)) by lia;
    rewrite Z.pow_succ_r by lia;
    replace (2 ^ Zpos (digits2_pos p)) with (2 * 2 ^ (Zpos (digits2_pos p) - 1)) in *
      by (rewrite <- Z.pow_succ_r by lia; f_equal; lia); lia.
Qed.

(** The number of digits is determined by the binade. *)
Lemma digits2_pos_unique p k : 1 <= k → 2 ^ (k - 1) <= Zpos p < 2 ^ k → Zpos (digits2_pos p) = k.
Proof.
  intros Hk [H1 H2]. pose proof (digits2_pos_bounds p) as [H3 H4].
  assert (k - 1 < Zpos (digits2_pos p)) by (apply (Z.pow_lt_mono_r_iff 2); lia).
  assert (Zpos (digits2_pos p) - 1 < k) by (apply (Z.pow_lt_mono_r_iff 2); lia).
  lia.
Qed.

Lemma digits2_pos_le p k : Zpos p < 2 ^ k → 0 <= k → Zpos (digits2_pos p) <= k.
Proof.
  intros Hp Hk. pose proof (digits2_pos_bounds p) as [H3 _].
  assert (Zpos (digits2_pos p) - 1 < k) by (apply (Z.pow_lt_mono_r_iff 2); lia). lia.
Qed.

Lemma iter_xO p d : Zpos (Pos.iter xO p d) = Zpos p * 2 ^ Zpos d.
Proof.
  induction d as [|d IH] using Pos.peano_ind; [simpl; lia|].
  rewrite Pos.iter_succ, Pos2Z.inj_succ, Z.pow_succ_r by lia.
  change (Zpos (xO (Pos.iter xO p d))) with (2 * Zpos (Pos.iter xO p d)). rewrite IH. lia.
Qed.

(** ** Shifting right *)

(** The record [mrs] stands for the number [N / D]: the integer part and where
    the rest lies with respect to one half. *)
Definition stands (N D : Z) (mrs : shr_record) : Prop :=
  let m := shr_m mrs in
  let rest := N - m * D in
  0 <= m ∧ 0 <= rest < D ∧
  match shr_r mrs, shr_s mrs with
  | false, false => rest = 0
  | false, true => 0 < rest ∧ 2 * rest < D
  | true, false => 2 * rest = D
  | true, true => D < 2 * rest
  end.

Lemma stands_shr_1 N D mrs : 0 < D → stands N D mrs → stands N (2 * D) (shr_1 mrs).
Proof.
  intros HD. destruct mrs as [m r s]. unfold stands; simpl. intros (Hm & Hrest & Hpos).
  destruct m as [|[p|p|]|p]; [| | | |lia]; simpl; destruct r, s; simpl in *; split_and!; lia.
Qed.

Lemma stands_iter N p : ∀ D mrs, 0 < D → stands N D mrs → stands N (D * 2 ^ Zpos p) (SpecFloat.iter_pos shr_1 p mrs).
Proof.
  induction p as [p IH|p IH|]; intros D mrs HD Hs; simpl.
  - rewrite (Pos2Z.inj_xI p). replace (D * 2 ^ (2 * Zpos p + 1)) with (2 * D * 2 ^ Zpos p * 2 ^ Zpos p)
      by (rewrite Z.pow_add_r, Z.pow_twice_r by lia; ring).
    apply IH; [nia|]. apply IH; [lia|]. by apply stands_shr_1.
  - rewrite (Pos2Z.inj_xO p). replace (D * 2 ^ (2 * Zpos p)) with (D * 2 ^ Zpos p * 2 ^ Zpos p)
      by (rewrite Z.pow_twice_r by lia; ring).
    apply IH; [nia|]. by apply IH.
  - replace (D * 2 ^ 1) with (2 * D) by lia. by apply stands_shr_1.
Qed.

Lemma stands_shr N D mrs e n : 0 <= n → 0 < D → stands N D mrs →
  stands N (D * 2 ^ n) (shr mrs e n).1 ∧ (shr mrs e n).2 = e + n.
Proof.
  intros Hn HD Hs. destruct n as [|p|p]; [|simpl; split; [by apply stands_iter|done]|lia].
  simpl. rewrite Z.mul_1_r. split; [done|lia].
Qed.

(** Rounding to nearest is at most half a unit away. *)
Lemma round_nearest_even_half N D mrs :
  0 < D → stands N D mrs →
  let M := round_nearest_even (shr_m mrs) (loc_of_shr_record mrs) in
  shr_m mrs <= M <= shr_m mrs + 1 ∧ 2 * Z.abs (M * D - N) <= D.
Proof.
  intros HD. destruct mrs as [m r s]. unfold stands; simpl. intros (Hm & Hrest & Hpos).
  destruct r, s; simpl in *; [| |lia..]; [lia|]. destruct (Z.even m); lia.
Qed.

Lemma stands_exact m : 0 <= m → stands m 1 {| shr_m := m; shr_r := false; shr_s := false |}.
Proof. intros Hm. unfold stands; simpl. lia. Qed.

Lemma new_location_eq D k :
  new_location D k =
    if Z.eqb k 0 then loc_Exact
    else loc_Inexact (if Z.even D then Z.compare (2 * k) D
                      else match Z.compare (2 * k + 1) D with Lt => Lt | Eq => Lt | Gt => Gt end).
Proof.
  unfold new_location, new_location_even, new_location_odd. by destruct (Z.even D), (Z.eqb k 0).
Qed.

(** The record a location stands for *)
Lemma stands_location N D m l :
  0 < D → 0 <= m → m * D <= N < (m + 1) * D → l = new_location D (N - m * D) →
  stands N D (shr_record_of_loc m l).
Proof.
  intros HD Hm HN ->. rewrite new_location_eq.
  assert (if Z.even D then ∃ k, D = 2 * k else ∃ k, D = 2 * k + 1) as Hev.
  { destruct (Z.even D) eqn:E; [by apply Z.even_spec|]. apply Z.odd_spec. by rewrite <- Z.negb_even, E. }
  destruct (Z.eqb_spec (N - m * D) 0) as [Hz|Hz].
  { unfold stands; simpl; lia. }
  destruct (Z.even D); destruct Hev as [k Hk];
    match goal with |- context [Z.compare ?a ?b] => destruct (Z.compare_spec a b) end;
    unfold stands; simpl; lia.
Qed.

Lemma fexp_normal e : -1021 <= e → fexp 53 1024 e = e - 53.
Proof. unfold fexp, emin. lia. Qed.

(** The result of rounding the number [N / D * 2 ^ e], of which [m] is the
    integer part with at least 53 digits: a 53 bit mantissa whose error is at
    most half a unit. *)
Lemma binary_round_aux_spec s N D p e l :
  0 < D → Zpos p * D <= N < (Zpos p + 1) * D → l = new_location D (N - Zpos p * D) →
  let d := Zpos (digits2_pos p) in
  53 <= d → -1021 <= d + e <= 1000 →
  ∃ M E, binary_round_aux 53 1024 s (Zpos p) e l = S754_finite s M E ∧
    2 ^ 52 <= Zpos M < 2 ^ 53 ∧ d + e - 53 <= E <= d + e - 52 ∧
    2 * Z.abs (Zpos M * 2 ^ (E - e) * D - N) <= 2 ^ (E - e) * D.
Proof.
  intros HD HN Hl d Hd Hde. unfold binary_round_aux, shr_fexp.
  pose proof (stands_location N D (Zpos p) l HD ltac:(lia) HN Hl) as Hs.
  simpl Zdigits2. fold d. rewrite (fexp_normal (d + e)) by lia.
  replace (d + e - 53 - e) with (d - 53) by lia.
  destruct (stands_shr N D _ e (d - 53) ltac:(lia) HD Hs) as [Hs1 He1].
  destruct (shr (shr_record_of_loc (Zpos p) l) e (d - 53)) as [mrs1 e1]. simpl in Hs1, He1. subst e1.
  assert (0 < 2 ^ (d - 53)) as Hp2 by (apply Z.pow_pos_nonneg; lia).
  set (D1 := D * 2 ^ (d - 53)) in *. assert (0 < D1) as HD1 by (unfold D1; lia).
  (* the integer part has 53 digits *)
  pose proof (digits2_pos_bounds p) as [Hb1 Hb2]. fold d in Hb1, Hb2.
  assert (2 ^ (d - 1) = 2 ^ 52 * 2 ^ (d - 53)) as Hd1 by (rewrite <- Z.pow_add_r by lia; f_equal; lia).
  assert (2 ^ d = 2 ^ 53 * 2 ^ (d - 53)) as Hd2 by (rewrite <- Z.pow_add_r by lia; f_equal; lia).
  assert (2 ^ 52 <= shr_m mrs1 < 2 ^ 53) as Hm1.
  { destruct Hs1 as (_ & Hr & _). split.
    - assert (2 ^ 52 * D1 < (shr_m mrs1 + 1) * D1) as Hlt by (unfold D1 in *; nia).
      apply Z.mul_lt_mono_pos_r in Hlt; [lia|done].
    - assert (shr_m mrs1 * D1 < 2 ^ 53 * D1) as Hlt by (unfold D1 in *; nia).
      by apply Z.mul_lt_mono_pos_r in Hlt. }
  destruct (round_nearest_even_half N D1 mrs1 HD1 Hs1) as [HM Hhalf].
  set (M1 := round_nearest_even _ _) in *. clearbody M1.
  destruct M1 as [|q|q]; [lia| |lia]. simpl Zdigits2.
  destruct (decide (Zpos q = 2 ^ 53)) as [Hq|Hq].
  - assert (q = Pos.pow 2 53) as -> by (apply Pos2Z.inj; rewrite Hq; reflexivity).
    replace (Zpos (digits2_pos (2 ^ 53))) with 54 by reflexivity.
    rewrite fexp_normal by lia. replace (54 + (e + (d - 53)) - 53 - (e + (d - 53))) with 1 by lia.
    exists (2 ^ 52)%positive, (e + (d - 53) + 1).
    replace (shr _ _ 1) with ({| shr_m := Zpos (2 ^ 52); shr_r := false; shr_s := false |}, e + (d - 53) + 1)
      by reflexivity.
    cbn [shr_m]. rewrite (proj2 (Z.leb_le (e + (d - 53) + 1) (1024 - 53))) by lia.
    split; [done|]. split; [split; reflexivity || discriminate|]. split; [lia|].
    replace (e + (d - 53) + 1 - e) with (d - 53 + 1) by lia. rewrite Z.pow_add_r by lia.
    unfold D1 in *. replace (Zpos (2 ^ 52)) with (2 ^ 52) by reflexivity.
    replace (2 ^ 52 * (2 ^ (d - 53) * 2 ^ 1) * D) with (2 ^ 53 * (D * 2 ^ (d - 53)))
      by (change (2 ^ 53) with (2 ^ 52 * 2 ^ 1); ring). lia.
  - rewrite (digits2_pos_unique q 53) by lia. rewrite fexp_normal by lia.
    replace (53 + (e + (d - 53)) - 53 - (e + (d - 53))) with 0 by lia.
    cbn [shr shr_m shr_record_of_loc].
    rewrite (proj2 (Z.leb_le (e + (d - 53)) (1024 - 53))) by lia.
    exists q, (e + (d - 53)). split; [done|]. split; [lia|]. split; [lia|].
    replace (e + (d - 53) - e) with (d - 53) by lia. unfold D1 in *.
    replace (Zpos q * 2 ^ (d - 53) * D) with (Zpos q * (D * 2 ^ (d - 53))) by ring. lia.
Qed.

(** ** Integers below 2 ^ 53 are exact *)

Lemma f64_of_Z_finite p :
  Zpos p < 2 ^ 53 →
  ∃ M E, f64_of_Z (Zpos p) = S754_finite false M E ∧ 2 ^ 52 <= Zpos M < 2 ^ 53 ∧
    E = Zpos (digits2_pos p) - 53 ∧ Zpos M = Zpos p * 2 ^ (- E).
Proof.
  intros Hp. pose proof (digits2_pos_le p 53 Hp ltac:(lia)) as Hd.
  pose proof (digits2_pos_bounds p) as [Hb1 Hb2]. set (d := Zpos (digits2_pos p)) in *.
  unfold f64_of_Z, binary_normalize, binary_round. fold d. rewrite fexp_normal by lia.
  assert (∃ M, shl_align p 0 (d + 0 - 53) = (M, d - 53) ∧ Zpos M = Zpos p * 2 ^ (53 - d)) as (M & -> & HM).
  { unfold shl_align. destruct (decide (d = 53)) as [->|Hne].
    - exists p. split; [done|]. simpl. lia.
    - destruct (d + 0 - 53 - 0) as [|k|k] eqn:Hk; [lia..|]. exists (Pos.iter xO p k).
      split; [f_equal; lia|]. rewrite iter_xO. f_equal. f_equal. lia. }
  assert (2 ^ (d - 1) * 2 ^ (53 - d) = 2 ^ 52) as H1 by (rewrite <- Z.pow_add_r by lia; f_equal; lia).
  assert (2 ^ d * 2 ^ (53 - d) = 2 ^ 53) as H2 by (rewrite <- Z.pow_add_r by lia; f_equal; lia).
  assert (0 < 2 ^ (53 - d)) by (apply Z.pow_pos_nonneg; lia).
  assert (2 ^ 52 <= Zpos M < 2 ^ 53) as HMb by nia.
  exists M, (d - 53). split; [|split_and!; [lia..|]; rewrite HM; f_equal; f_equal; lia].
  unfold binary_round_aux, shr_fexp. simpl Zdigits2.
  rewrite (digits2_pos_unique M 53) by lia. rewrite fexp_normal by lia.
  replace (53 + (d - 53) - 53 - (d - 53)) with 0 by lia. simpl.
  rewrite (digits2_pos_unique M 53) by lia. rewrite fexp_normal by lia.
  replace (53 + (d - 53) - 53 - (d - 53)) with 0 by lia. simpl.
  by rewrite (proj2 (Z.leb_le (d - 53) (1024 - 53))) by lia.
Qed.

Lemma f64_trunc_of_Z z : 0 <= z < 2 ^ 53 → f64_trunc (f64_of_Z z) = Some z.
Proof.
  intros Hz. destruct z as [|p|p]; [done| |lia].
  destruct (f64_of_Z_finite p ltac:(lia)) as (M & E & -> & HM & HE & Heq). simpl. f_equal.
  pose proof (digits2_pos_le p 53 ltac:(lia) ltac:(lia)). case_decide.
  - replace E with 0 in * by lia. rewrite Heq. simpl. lia.
  - rewrite Heq. apply Z.div_mul. apply Z.pow_nonzero; lia.
Qed.

Lemma u64_of_f64_of_Z outside z : 0 <= z < 2 ^ 53 → u64_of_f64 outside (f64_of_Z z) = z.
Proof.
  intros Hz. unfold u64_of_f64. rewrite f64_trunc_of_Z by done.
  rewrite decide_True; [done|]. unfold two64. lia.
Qed.

(** ** The quotient of two integers *)

(** Half a unit, with the exponents shifted so that they are not negative *)
Definition near_quotient (a b : Z) (M : positive) (E : Z) : Prop :=
  2 ^ 52 <= Zpos M < 2 ^ 53 ∧ -105 <= E <= 1 ∧
  2 * Z.abs (Zpos M * b * 2 ^ (E + 110) - a * 2 ^ 110) <= b * 2 ^ (E + 110).

Lemma SFdiv_core_53 ma ea mb eb :
  2 ^ 52 <= Zpos ma < 2 ^ 53 → 2 ^ 52 <= Zpos mb < 2 ^ 53 → -500 <= ea - eb <= 500 →
  SFdiv_core_binary 53 1024 (Zpos ma) ea (Zpos mb) eb =
    (Zpos ma * 2 ^ 53 / Zpos mb, ea - eb - 53, new_location (Zpos mb) ((Zpos ma * 2 ^ 53) mod Zpos mb)).
Proof.
  intros Ha Hb He. unfold SFdiv_core_binary. simpl Zdigits2.
  rewrite (digits2_pos_unique ma 53), (digits2_pos_unique mb 53) by lia.
  replace (53 + ea - (53 + eb)) with (ea - eb) by lia. rewrite fexp_normal by lia.
  rewrite Z.min_l by lia. replace (ea - eb - (ea - eb - 53)) with 53 by lia.
  rewrite Z.shiftl_mul_pow2 by lia. unfold Z.div, Z.modulo.
  by destruct (Z.div_eucl (Zpos ma * 2 ^ 53) (Zpos mb)).
Qed.

Lemma f64_div_int a b :
  0 < a < 2 ^ 53 → 0 < b < 2 ^ 53 →
  ∃ M E, f64_div (f64_of_Z a) (f64_of_Z b) = S754_finite false M E ∧ near_quotient a b M E.
Proof.
  intros Ha Hb. destruct a as [|a|a], b as [|b|b]; try lia.
  destruct (f64_of_Z_finite a ltac:(lia)) as (ma & ea & -> & Hma & Hea & Hva).
  destruct (f64_of_Z_finite b ltac:(lia)) as (mb & eb & -> & Hmb & Heb & Hvb).
  pose proof (digits2_pos_le a 53 ltac:(lia) ltac:(lia)).
  pose proof (digits2_pos_le b 53 ltac:(lia) ltac:(lia)).
  unfold f64_div, SFdiv. rewrite SFdiv_core_53 by lia. simpl xorb.
  pose proof (Z.div_mod (Zpos ma * 2 ^ 53) (Zpos mb) ltac:(lia)) as Hdm.
  pose proof (Z.mod_pos_bound (Zpos ma * 2 ^ 53) (Zpos mb) ltac:(lia)) as Hmod.
  set (q := Zpos ma * 2 ^ 53 / Zpos mb) in *. set (r := (Zpos ma * 2 ^ 53) mod Zpos mb) in *.
  assert (2 ^ 52 <= q < 2 ^ 54) as Hq by (clearbody q r; nia).
  clearbody q r. destruct q as [|p|p]; [lia| |lia].
  assert (53 <= Zpos (digits2_pos p) <= 54) as Hdp.
  { split; [|apply digits2_pos_le; lia]. pose proof (digits2_pos_bounds p) as [_ Hb2].
    assert (52 < Zpos (digits2_pos p)); [|lia]. apply (Z.pow_lt_mono_r_iff 2); lia. }
  destruct (binary_round_aux_spec false (Zpos ma * 2 ^ 53) (Zpos mb) p (ea - eb - 53)
    (new_location (Zpos mb) r)) as (M & E & -> & HM & HE & Hhalf); [lia| | |lia|lia|].
  { lia. }
  { f_equal. lia. }
  exists M, E. split; [done|]. split; [done|]. split; [lia|].
  (* scale the half unit *)
  assert (∃ k, k = 57 + ea) as [k Hk0] by eauto.
  assert (0 < 2 ^ k) as Hk by (apply Z.pow_pos_nonneg; lia).
  apply (Z.mul_le_mono_nonneg_r _ _ (2 ^ k) ltac:(lia)) in Hhalf.
  assert (2 ^ (E - (ea - eb - 53)) * Zpos mb * 2 ^ k = Zpos b * 2 ^ (E + 110)) as H1.
  { rewrite Hvb. replace (E + 110) with ((E - (ea - eb - 53)) + (- eb) + k) by lia.
    rewrite !Z.pow_add_r by lia. ring. }
  assert (Zpos ma * 2 ^ 53 * 2 ^ k = Zpos a * 2 ^ 110) as H2.
  { rewrite Hva. replace 110 with (- ea + 53 + k) by lia. rewrite !Z.pow_add_r by lia. ring. }
  rewrite <- H1, <- H2.
  replace (Zpos M * Zpos b * 2 ^ (E + 110)) with (Zpos M * (Zpos b * 2 ^ (E + 110))) by ring.
  rewrite <- H1.
  replace (Zpos M * (2 ^ (E - (ea - eb - 53)) * Zpos mb * 2 ^ k) - Zpos ma * 2 ^ 53 * 2 ^ k)
    with ((Zpos M * 2 ^ (E - (ea - eb - 53)) * Zpos mb - Zpos ma * 2 ^ 53) * 2 ^ k) by ring.
  rewrite Z.abs_mul, (Z.abs_eq (2 ^ k)) by lia. lia.
Qed.

Lemma pow2_split a b : 0 <= a < b → 2 ^ b = 2 * 2 ^ a * 2 ^ (b - a - 1) ∧ 1 <= 2 ^ (b - a - 1) ∧ 0 < 2 ^ a.
Proof.
  intros Hab. split_and!; [|apply (Z.pow_le_mono_r 2 0); lia|apply Z.pow_pos_nonneg; lia].
  rewrite <- (Z.pow_succ_r 2 a), <- Z.pow_add_r by lia. f_equal. lia.
Qed.

Lemma binade_lt m1 m2 p k : m1 < 2 * m2 → 0 < m2 → 0 < p → 1 <= k → m1 * p < m2 * (2 * p * k).
Proof.
  intros H1 H2 Hp Hk. apply Z.lt_le_trans with (2 * m2 * p); [nia|].
  replace (m2 * (2 * p * k)) with (2 * m2 * p * k) by ring. nia.
Qed.

(** Comparing positive numbers with 53 bit mantissas *)
Lemma f64_ltb_finite M1 E1 M2 E2 :
  2 ^ 52 <= Zpos M1 < 2 ^ 53 → 2 ^ 52 <= Zpos M2 < 2 ^ 53 → -105 <= E1 → -105 <= E2 →
  f64_ltb (S754_finite false M1 E1) (S754_finite false M2 E2) = true ↔
  Zpos M1 * 2 ^ (E1 + 110) < Zpos M2 * 2 ^ (E2 + 110).
Proof.
  intros H1 H2 HE1 HE2. unfold f64_ltb, SFltb, SFcompare.
  assert (∀ Ma Mb Ea Eb, 2 ^ 52 <= Zpos Ma < 2 ^ 53 → 2 ^ 52 <= Zpos Mb < 2 ^ 53 →
    -105 <= Ea → Ea < Eb → Zpos Ma * 2 ^ (Ea + 110) < Zpos Mb * 2 ^ (Eb + 110)) as Hlt.
  { intros Ma Mb Ea Eb Ha Hb HEa HE.
    destruct (pow2_split (Ea + 110) (Eb + 110)) as (-> & ? & ?); [lia|]. apply binade_lt; lia. }
  change IntDef.Z.compare with Z.compare. destruct (Z.compare_spec E1 E2) as [->|HE|HE].
  - assert (0 < 2 ^ (E2 + 110)) by (apply Z.pow_pos_nonneg; lia).
    rewrite <- Z.mul_lt_mono_pos_r by done.
    change (Pos.compare_cont Eq M1 M2) with (Pos.compare M1 M2).
    destruct (Pos.compare_spec M1 M2); split; try done; intros; lia.
  - split; [|done]. intros _. by apply Hlt.
  - split; [done|]. specialize (Hlt M2 M1 E2 E1 H2 H1 HE2 HE). lia.
Qed.

(** A quotient at least as large as an integer is not rounded below it ... *)
Lemma f64_div_int_ge a b c :
  0 < a < 2 ^ 53 → 0 < b < 2 ^ 53 → 0 < c < 2 ^ 53 → b * c <= a →
  f64_ltb (f64_div (f64_of_Z a) (f64_of_Z b)) (f64_of_Z c) = false.
Proof.
  intros Ha Hb Hc Hle. destruct (f64_div_int a b Ha Hb) as (M & E & -> & HM & HE & Hn).
  destruct c as [|c|c]; [lia| |lia].
  destruct (f64_of_Z_finite c ltac:(lia)) as (mc & ec & -> & Hmc & Hec & Hvc).
  pose proof (digits2_pos_le c 53 ltac:(lia) ltac:(lia)).
  apply not_true_is_false. rewrite f64_ltb_finite by lia. intros Hlt.
  assert (Zpos mc * 2 ^ (ec + 110) = Zpos c * 2 ^ 110) as Hval.
  { rewrite Hvc, <- Z.mul_assoc, <- Z.pow_add_r by lia. do 2 f_equal. lia. }
  assert (0 < 2 ^ (E + 110)) as HP by (apply Z.pow_pos_nonneg; lia).
  (* below c there is a gap of at least one unit of the quotient *)
  assert (Zpos M * 2 ^ (E + 110) + 2 ^ (E + 110) <= Zpos c * 2 ^ 110) as Hgap.
  { rewrite <- Hval. destruct (decide (E <= ec)) as [Hle2|Hgt].
    - replace (ec + 110) with (ec - E + (E + 110)) in Hlt |- * by lia. rewrite (Z.pow_add_r 2 (ec - E)) in Hlt |- * by lia.
      rewrite Z.mul_assoc in Hlt |- *. apply Z.mul_lt_mono_pos_r in Hlt; [|done]. nia.
    - destruct (pow2_split (ec + 110) (E + 110)) as (HE2 & ? & ?); [lia|]. rewrite HE2 in Hlt.
      pose proof (binade_lt (Zpos mc) (Zpos M) (2 ^ (ec + 110)) (2 ^ (E + 110 - (ec + 110) - 1))). lia. }
  nia.
Qed.

(** ... and one below an integer is rounded below it, when the integer is small
    with respect to the divisor. *)
Lemma f64_div_int_lt a b c :
  0 < a < 2 ^ 53 → 0 < b <= 2 ^ 30 → 0 < c < 2 ^ 22 → a < b * c →
  f64_ltb (f64_div (f64_of_Z a) (f64_of_Z b)) (f64_of_Z c) = true.
Proof.
  intros Ha Hb Hc Hlt. destruct (f64_div_int a b Ha ltac:(lia)) as (M & E & -> & HM & HE & Hn).
  destruct c as [|c|c]; [lia| |lia].
  destruct (f64_of_Z_finite c ltac:(lia)) as (mc & ec & -> & Hmc & Hec & Hvc).
  pose proof (digits2_pos_le c 53 ltac:(lia) ltac:(lia)).
  apply f64_ltb_finite; [lia..|].
  assert (Zpos mc * 2 ^ (ec + 110) = Zpos c * 2 ^ 110) as ->.
  { rewrite Hvc, <- Z.mul_assoc, <- Z.pow_add_r by lia. do 2 f_equal. lia. }
  assert (0 < 2 ^ (E + 110)) as HP by (apply Z.pow_pos_nonneg; lia).
  assert (2 ^ 110 = 2 ^ 30 * 2 ^ 80) as H110 by reflexivity.
  (* the unit of the quotient is at most 2 ^ 79 / 2 ^ 110 *)
  assert (E + 110 <= 80) as HE80.
  { destruct (decide (E + 110 <= 80)) as [|Hgt]; [done|].
    assert (2 ^ 81 <= 2 ^ (E + 110)) by (apply Z.pow_le_mono_r; lia). nia. }
  assert (2 ^ (E + 110) <= 2 ^ 80) by (apply Z.pow_le_mono_r; lia). nia.
Qed.
