(* ===== verification/Strconv.v ===== *)
(** Go's [strconv]: [ParseUint] and [Atoi] in base 10, and [ParseFloat] on
    decimal literals (hexadecimal literals and digits grouped by underscores,
    which the program's inputs do not have, are rejected here). *)

From Stdlib Require Import Ascii String Floats.SpecFloat.
From S2P Require Import Prelude GoStrings Errors Effects Float64.

Local Open Scope string_scope.

Definition digit_value (c : ascii) : option Z :=
  let n := Z.of_nat (nat_of_ascii c) in
  if decide (48 <= n <= 57) then Some (n - 48) else None.

(** The value of a string of digits after [acc] *)
Fixpoint digits_loop (acc : Z) (s : string) : option Z :=
  match s with
  | EmptyString => Some acc
  | String c s' =>
      match digit_value c with
      | Some d => digits_loop (acc * 10 + d) s'
      | None => None
      end
  end.

(** The text of a [*strconv.NumError] *)
Definition num_error (fn input reason : string) : error :=
  Errorf ("strconv." +:+ fn +:+ ": parsing " +:+ String "034"%char (input +:+ String "034"%char (": " +:+ reason))).

Definition ErrSyntax : string := "invalid syntax".
Definition ErrRange : string := "value out of range".

(** The loop of [ParseUint(s, 10, 64)]: the first byte that is not a digit, or
    that takes the value out of range, decides the error. *)
Fixpoint uint_loop (acc : Z) (s : string) : Z + string :=
  match s with
  | EmptyString => inl acc
  | String c s' =>
      match digit_value c with
      | Some d => if decide (acc * 10 + d < two64) then uint_loop (acc * 10 + d) s' else inr ErrRange
      | None => inr ErrSyntax
      end
  end.

(** [strconv.ParseUint(s, 10, 64)] *)
Definition ParseUint (s : string) : outcome Z :=
  match s with
  | EmptyString => Err (num_error "ParseUint" s ErrSyntax)
  | _ =>
      match uint_loop 0 s with
      | inl z => Ok z
      | inr reason => Err (num_error "ParseUint" s reason)
      end
  end.

(** [strconv.ParseBool] with its error dropped: the value is false then. *)
Definition ParseBool (s : string) : bool :=
  existsb (λ t, bool_decide (s = t)) ["1"; "t"; "T"; "TRUE"; "true"; "True"].

Definition split_sign (s : string) : bool * string :=
  match s with
  | String "-" s' => (true, s')
  | String "+" s' => (false, s')
  | _ => (false, s)
  end.

(** [strconv.Atoi] *)
Definition Atoi (s : string) : outcome Z :=
  let '(neg, t) := split_sign s in
  match t with
  | EmptyString => Err (num_error "Atoi" s ErrSyntax)
  | _ =>
      match uint_loop 0 t with
      | inr reason => Err (num_error "Atoi" s reason)
      | inl z =>
          let v := if neg then - z else z in
          if decide (- two63 <= v < two63) then Ok v else Err (num_error "Atoi" s ErrRange)
      end
  end.

(** *** ParseFloat *)

(** Digits at the head of a string: their value after [acc], how many they are,
    and what follows *)
Fixpoint take_digits (acc : Z) (count : nat) (s : string) : Z * nat * string :=
  match s with
  | String c s' =>
      match digit_value c with
      | Some d => take_digits (acc * 10 + d) (S count) s'
      | None => (acc, count, s)
      end
  | EmptyString => (acc, count, s)
  end.

(** The number nearest to [m * 10 ^ e] *)
Definition f64_of_decimal (neg : bool) (m e : Z) : float64 :=
  let f :=
    match m with
    | Zpos _ =>
        if decide (0 <= e) then f64_of_Z (m * 10 ^ e)
        else
          let '(q, e', l) := SFdiv_core_binary 53 1024 m 0 (10 ^ (- e)) 0 in
          binary_round_aux 53 1024 false q e' l
    | _ => S754_zero false
    end in
  if neg then SFopp f else f.

(** The exponent after the mantissa; [None] is a syntax error. *)
Definition exponent (s : string) : option Z :=
  match s with
  | EmptyString => Some 0
  | String c s' =>
      if decide (lower_ascii c = "e"%char) then
        let '(neg, t) := split_sign s' in
        match t with
        | EmptyString => None
        | _ => (λ z, if neg then - z else z) <$> digits_loop 0 t
        end
      else None
  end.

Definition decimal_float (neg : bool) (s : string) : option float64 :=
  let '(m1, n1, rest) := take_digits 0 0 s in
  let '(m, n2, rest') :=
    match rest with
    | String "." s' => take_digits m1 0 s'
    | _ => (m1, O, rest)
    end in
  if decide (n1 + n2 = 0)%nat then None
  else e ← exponent rest'; Some (f64_of_decimal neg m (e - Z.of_nat n2)).

Definition special_float (neg : bool) (s : string) : option float64 :=
  if decide (ToLower s = "inf" ∨ ToLower s = "infinity") then Some (S754_infinity neg) else None.

(** [strconv.ParseFloat(s, 64)]: the number and whether there was an error; a
    number out of range is an infinity with an error. *)
Definition ParseFloat (s : string) : float64 * bool :=
  if decide (ToLower s = "nan") then (S754_nan, false)
  else
    let '(neg, t) := split_sign s in
    match special_float neg t with
    | Some f => (f, false)
    | None =>
        match decimal_float neg t with
        | Some (S754_infinity b) => (S754_infinity b, true)
        | Some f => (f, false)
        | None => (S754_zero false, true)
        end
    end.

(** ** What is printed is read back *)

Lemma digit_value_pretty n : (n < 10)%N → digit_value (pretty_N_char n) = Some (Z.of_N n).
Proof.
  intros Hn.
  assert (n = 0 ∨ n = 1 ∨ n = 2 ∨ n = 3 ∨ n = 4 ∨ n = 5 ∨ n = 6 ∨ n = 7 ∨ n = 8 ∨ n = 9)%N as Hcases by lia.
  by repeat destruct Hcases as [->|Hcases]; [..|subst].
Qed.

Lemma digits_loop_pretty x s : digits_loop 0 (pretty_N_go x s) = digits_loop (Z.of_N x) s.
Proof.
  revert s. induction (N.lt_wf_0 x) as [x _ IH]; intros s.
  destruct (decide (x = 0)%N) as [->|Hx]; [by rewrite pretty_N_go_0|].
  rewrite pretty_N_go_step by lia. rewrite IH by (apply N.div_lt; lia). simpl.
  assert (x mod 10 < 10)%N by (apply N.mod_lt; lia). rewrite digit_value_pretty by done. f_equal.
  rewrite N2Z.inj_mod, N2Z.inj_div. pose proof (Z.div_mod (Z.of_N x) 10). lia.
Qed.

Lemma pretty_N_ne (n : N) : pretty n ≠ "".
Proof.
  unfold pretty, pretty_N. case_decide as Hn; [done|]. rewrite pretty_N_go_step by lia.
  assert (∀ x s, s ≠ "" → pretty_N_go x s ≠ "") as Hgo.
  { intros x. induction (N.lt_wf_0 x) as [x _ IH]; intros s Hs.
    destruct (decide (x = 0)%N) as [->|Hx]; [by rewrite pretty_N_go_0|].
    rewrite pretty_N_go_step by lia. apply IH; [apply N.div_lt; lia|done]. }
  by apply Hgo.
Qed.

Lemma digits_loop_Itoa z : 0 <= z → digits_loop 0 (Itoa z) = Some z.
Proof.
  intros Hz. destruct z as [|p|p]; [done| |lia]. change (Itoa (Zpos p)) with (pretty_N_go (Npos p) "").
  by rewrite digits_loop_pretty.
Qed.

Lemma Itoa_ne z : 0 <= z → Itoa z ≠ "".
Proof. intros Hz. destruct z as [|p|p]; [done| |lia]. apply (pretty_N_ne (Npos p)). Qed.

Lemma digit_value_range c d : digit_value c = Some d → 0 <= d <= 9.
Proof. unfold digit_value. case_decide; intros; simplify_eq. lia. Qed.

Lemma digits_loop_grows acc s z : 0 <= acc → digits_loop acc s = Some z → acc <= z.
Proof.
  revert acc. induction s as [|c s IH]; intros acc Hacc; simpl; [intros; simplify_eq; lia|].
  destruct (digit_value c) as [d|] eqn:Hd; [|done]. apply digit_value_range in Hd.
  intros Hz. apply IH in Hz; lia.
Qed.

Lemma uint_loop_digits acc s z :
  0 <= acc → z < two64 → digits_loop acc s = Some z → uint_loop acc s = inl z.
Proof.
  intros Hacc Hz. revert acc Hacc. induction s as [|c s IH]; intros acc Hacc; simpl; [by intros [= ->]|].
  destruct (digit_value c) as [d|] eqn:Hd; [|done]. apply digit_value_range in Hd. intros Hl.
  assert (acc * 10 + d <= z) by (apply (digits_loop_grows _ _ _) in Hl; lia).
  rewrite decide_True by lia. apply IH; [lia|done].
Qed.

Lemma uint_loop_range acc s z : is_u64 acc → uint_loop acc s = inl z → is_u64 z.
Proof.
  revert acc. induction s as [|c s IH]; intros acc Hacc; simpl; [by intros [= ->]|].
  destruct (digit_value c) as [d|] eqn:Hd; [|done]. apply digit_value_range in Hd.
  case_decide; [|done]. apply IH. unfold is_u64 in *. lia.
Qed.

Lemma ParseUint_range s z : ParseUint s = Ok z → is_u64 z.
Proof.
  unfold ParseUint. destruct s as [|c s]; [done|]. destruct (uint_loop 0 _) as [z'|] eqn:Hl; [|done].
  intros [= ->]. eapply uint_loop_range; [|exact Hl]. done.
Qed.

Lemma ParseUint_Itoa z : 0 <= z < two64 → ParseUint (Itoa z) = Ok z.
Proof.
  intros Hz. unfold ParseUint. pose proof (Itoa_ne z ltac:(lia)) as Hne.
  rewrite (uint_loop_digits 0 (Itoa z) z ltac:(lia) ltac:(lia) (digits_loop_Itoa z ltac:(lia))). by destruct (Itoa z).
Qed.

(** A string of digits is read by [take_digits] to its end. *)
Lemma take_digits_all s acc count v :
  digits_loop acc s = Some v → take_digits acc count s = (v, (count + String.length s)%nat, "").
Proof.
  revert acc count. induction s as [|c s IH]; intros acc count Hd; simpl in *.
  - simplify_eq. by rewrite Nat.add_0_r.
  - destruct (digit_value c); [|done]. rewrite (IH _ _ Hd). by rewrite Nat.add_succ_r.
Qed.

Lemma digits_head c s acc v : digits_loop acc (String c s) = Some v → is_Some (digit_value c).
Proof. simpl. destruct (digit_value c); [by eexists|done]. Qed.

(** What starts with a digit has no sign and is no special number. *)
Lemma digit_start c s :
  is_Some (digit_value c) →
  split_sign (String c s) = (false, String c s) ∧ special_float false (String c s) = None ∧
  ToLower (String c s) ≠ "nan".
Proof.
  intros [d Hd]. unfold special_float. simpl ToLower.
  assert (lower_ascii c ≠ "i"%char ∧ lower_ascii c ≠ "n"%char ∧ c ≠ "-"%char ∧ c ≠ "+"%char) as (? & ? & ? & ?).
  { destruct c as [[] [] [] [] [] [] [] []]; first [discriminate Hd | done]. }
  split_and!; [|rewrite decide_False; naive_solver|naive_solver].
  by destruct c as [[] [] [] [] [] [] [] []].
Qed.

Lemma ParseFloat_Itoa z : 0 <= z < 2 ^ 53 → ParseFloat (Itoa z) = (f64_of_Z z, false).
Proof.
  intros Hz. pose proof (digits_loop_Itoa z ltac:(lia)) as Hd. pose proof (Itoa_ne z ltac:(lia)) as Hne.
  destruct (Itoa z) as [|c s]; [done|]. destruct (digit_start c s (digits_head _ _ _ _ Hd)) as (Hs & Hsp & Hnan).
  unfold ParseFloat. rewrite decide_False, Hs, Hsp by done. unfold decimal_float.
  rewrite (take_digits_all _ _ _ _ Hd). simpl String.length. rewrite decide_False by lia.
  assert (f64_of_decimal false z 0 = f64_of_Z z) as Heq.
  { unfold f64_of_decimal. destruct z; [done| |lia]. rewrite decide_True by lia. by rewrite Z.mul_1_r. }
  cbn [exponent]. unfold mbind, option_bind. change (0 - Z.of_nat 0) with 0. rewrite Heq. destruct z as [|p|p]; [done| |lia].
  by destruct (f64_of_Z_finite p ltac:(lia)) as (M & E & -> & _).
Qed.
