(* ===== verification/GoJson.v ===== *)
(** Go's [encoding/json], as the program uses it: the text of a value
    ([json.Marshal]), reading a text back ([json.Unmarshal]), and decoding into
    the structs of the program.  A text is a sequence of bytes, so UTF-8 and the
    escapes of runes are written out. *)

From Stdlib Require Import Ascii.
From S2P Require Import Prelude GoStrings Errors Effects Strconv.

Local Open Scope Z_scope.

(** A JSON value; a number is kept as it is written. *)
Inductive json : Type :=
  | JNull
  | JBool (b : bool)
  | JNumber (text : string)
  | JString (s : string)
  | JArray (l : list json)
  | JObject (m : list (string * json)).

(** Values contain lists of values: the induction principle that knows them. *)
Section json_induction.
Context (P : json → Prop).
Hypothesis Hnull : P JNull.
Hypothesis Hbool : ∀ b, P (JBool b).
Hypothesis Hnumber : ∀ t, P (JNumber t).
Hypothesis Hstring : ∀ s, P (JString s).
Hypothesis Harray : ∀ l, Forall P l → P (JArray l).
Hypothesis Hobject : ∀ m, Forall (λ kv, P kv.2) m → P (JObject m).

Fixpoint json_induction (v : json) : P v :=
  match v with
  | JNull => Hnull
  | JBool b => Hbool b
  | JNumber t => Hnumber t
  | JString s => Hstring s
  | JArray l =>
      Harray l ((fix go l := match l return Forall P l with
                             | [] => List.Forall_nil _
                             | x :: l' => @List.Forall_cons _ P x l' (json_induction x) (go l')
                             end) l)
  | JObject m =>
      Hobject m ((fix go m := match m return Forall (λ kv, P kv.2) m with
                              | [] => List.Forall_nil _
                              | kv :: m' => @List.Forall_cons _ (λ kv, P kv.2) kv m' (json_induction kv.2) (go m')
                              end) m)
  end.
End json_induction.

(** ** Bytes and runes *)

Definition byte (c : ascii) : Z := Z.of_N (N_of_ascii c).
Definition chr (z : Z) : ascii := ascii_of_N (Z.to_N z).
Definition between (lo hi : Z) (c : ascii) : bool := (lo <=? byte c) && (byte c <=? hi).

(** A byte that continues a rune *)
Definition cont (c : ascii) : bool := between 128 191 c.

(** [utf8.DecodeRune] on a string that starts with a byte above 127: the number of
    bytes of the rune, and 0 when they are not valid *)
Definition rune_len (s : string) : nat :=
  match s with
  | String a (String b t) =>
      if between 194 223 a then (if cont b then 2%nat else 0%nat) else
      match t with
      | String c u =>
          if between 224 239 a
          then (let second := if byte a =? 224 then between 160 191 b
                              else if byte a =? 237 then between 128 159 b else cont b in
                if second && cont c then 3%nat else 0%nat) else
          match u with
          | String d _ =>
              let second := if byte a =? 240 then between 144 191 b
                            else if byte a =? 244 then between 128 143 b else cont b in
              if between 240 244 a && second && cont c && cont d then 4%nat else 0%nat
          | "" => 0%nat
          end
      | "" => 0%nat
      end
  | _ => 0%nat
  end.

Definition replacement : string := String "239" (String "191" (String "189" "")).

(** [utf8.EncodeRune] *)
Definition EncodeRune (r : Z) : string :=
  if r <? 128 then String (chr r) ""
  else if r <? 2048 then String (chr (192 + r / 64)) (String (chr (128 + r mod 64)) "")
  else if ((55296 <=? r) && (r <=? 57343)) || (1114111 <? r) then replacement
  else if r <? 65536
       then String (chr (224 + r / 4096)) (String (chr (128 + r / 64 mod 64)) (String (chr (128 + r mod 64)) ""))
  else String (chr (240 + r / 262144)) (String (chr (128 + r / 4096 mod 64))
         (String (chr (128 + r / 64 mod 64)) (String (chr (128 + r mod 64)) ""))).

Definition hex_digit (z : Z) : ascii := chr (if z <? 10 then 48 + z else 87 + z).

Definition hex_value (c : ascii) : option Z :=
  if between 48 57 c then Some (byte c - 48)
  else if between 97 102 c then Some (byte c - 87)
  else if between 65 70 c then Some (byte c - 55)
  else None.

(** The four digits of [\uXXXX] *)
Definition getu4 (a b c d : ascii) : option Z :=
  a ← hex_value a; b ← hex_value b; c ← hex_value c; d ← hex_value d;
  Some (((a * 16 + b) * 16 + c) * 16 + d).

(** ** Writing *)

(** A byte below 128 inside a string; the characters of HTML are escaped too *)
Definition escape (c : ascii) : string :=
  if in_set c (String "034" "\") then String "\" (String c "")
  else if Ascii.eqb c "010" then "\n"
  else if Ascii.eqb c "013" then "\r"
  else if Ascii.eqb c "009" then "\t"
  else if (byte c <? 32) || in_set c "<>&"
       then "\u00" +:+ String (hex_digit (byte c / 16)) (String (hex_digit (byte c mod 16)) "")
  else String c "".

(** The runes U+2028 and U+2029, which are escaped as well *)
Definition line_separator (a b c : ascii) : bool :=
  (byte a =? 226) && (byte b =? 128) && ((byte c =? 168) || (byte c =? 169)).

Fixpoint encode_body (s : string) : string :=
  match s with
  | "" => ""
  | String a t =>
      if byte a <? 128 then escape a +:+ encode_body t else
      match rune_len s, t with
      | 2%nat, String b u => String a (String b (encode_body u))
      | 3%nat, String b (String c u) =>
          if line_separator a b c then "\u202" +:+ String (hex_digit (byte c - 160)) (encode_body u)
          else String a (String b (String c (encode_body u)))
      | 4%nat, String b (String c (String d u)) => String a (String b (String c (String d (encode_body u))))
      | _, _ => "\ufffd" +:+ encode_body t
      end
  end.

Definition encode_string (s : string) : string := String "034" (encode_body s +:+ String "034" "").

(** The text [json.Marshal] makes of a value *)
Fixpoint encode (v : json) : string :=
  match v with
  | JNull => "null"
  | JBool true => "true"
  | JBool false => "false"
  | JNumber t => t
  | JString s => encode_string s
  | JArray l => "[" +:+ Join (map encode l) "," +:+ "]"
  | JObject m => "{" +:+ Join (map (λ kv, encode_string kv.1 +:+ ":" +:+ encode kv.2) m) "," +:+ "}"
  end.

(** ** Reading *)

Fixpoint skip_ws (s : string) : string :=
  match s with
  | String c t => if in_set c (String " " (String "009" (String "010" (String "013" "")))) then skip_ws t else s
  | "" => ""
  end.

Definition simple_escape (c : ascii) : option ascii :=
  if in_set c (String "034" "\/") then Some c
  else if Ascii.eqb c "b" then Some "008"%char
  else if Ascii.eqb c "f" then Some "012"%char
  else if Ascii.eqb c "n" then Some "010"%char
  else if Ascii.eqb c "r" then Some "013"%char
  else if Ascii.eqb c "t" then Some "009"%char
  else None.

Definition prepend (p : string) (r : option (string * string)) : option (string * string) :=
  '(s, rest) ← r; Some (p +:+ s, rest).

(** [utf16.DecodeRune] of a pair of surrogates *)
Definition surrogates (r1 r2 : Z) : option Z :=
  if (55296 <=? r1) && (r1 <? 56320) && (56320 <=? r2) && (r2 <? 57344)
  then Some ((r1 - 55296) * 1024 + (r2 - 56320) + 65536) else None.

(** The rest of a string after its opening quote: its bytes, and what follows the
    closing quote *)
Fixpoint str_body (s : string) : option (string * string) :=
  match s with
  | "" => None
  | String a t =>
      if Ascii.eqb a "034" then Some ("", t)
      else if Ascii.eqb a "\" then
        match t with
        | "" => None
        | String e u =>
            match simple_escape e with
            | Some c => prepend (String c "") (str_body u)
            | None =>
                match Ascii.eqb e "u", u with
                | true, String h1 (String h2 (String h3 (String h4 v))) =>
                    match getu4 h1 h2 h3 h4 with
                    | None => None
                    | Some r =>
                        if (55296 <=? r) && (r <? 57344) then
                          match v with
                          | String "\" (String "u" (String g1 (String g2 (String g3 (String g4 v'))))) =>
                              match getu4 g1 g2 g3 g4 ≫= surrogates r with
                              | Some r' => prepend (EncodeRune r') (str_body v')
                              | None => prepend replacement (str_body v)
                              end
                          | _ => prepend replacement (str_body v)
                          end
                        else prepend (EncodeRune r) (str_body v)
                    end
                | _, _ => None
                end
            end
        end
      else if byte a <? 32 then None
      else if byte a <? 128 then prepend (String a "") (str_body t)
      else
        match rune_len s, t with
        | 2%nat, String b u => prepend (String a (String b "")) (str_body u)
        | 3%nat, String b (String c u) => prepend (String a (String b (String c ""))) (str_body u)
        | 4%nat, String b (String c (String d u)) =>
            prepend (String a (String b (String c (String d "")))) (str_body u)
        | _, _ => prepend replacement (str_body t)
        end
  end.

Fixpoint digits (s : string) : string * string :=
  match s with
  | String c t => if is_digit c then let '(ds, r) := digits t in (String c ds, r) else ("", s)
  | "" => ("", "")
  end.

(** The parts of a number: sign, digits before the point, fraction, exponent *)
Definition num_sign (s : string) : option (string * string) :=
  match s with
  | String "-" t => Some ("-", t)
  | _ => Some ("", s)
  end.

Definition num_int (s : string) : option (string * string) :=
  match s with
  | String "0" t => Some ("0", t)
  | String c t => if is_digit c then Some (digits s) else None
  | "" => None
  end.

Definition some_digits (p s : string) : option (string * string) :=
  let '(ds, r) := digits s in if decide (ds = "") then None else Some (p +:+ ds, r).

Definition num_frac (s : string) : option (string * string) :=
  match s with
  | String "." t => some_digits "." t
  | _ => Some ("", s)
  end.

Definition num_exp (s : string) : option (string * string) :=
  match s with
  | String c t =>
      if in_set c "eE" then
        match t with
        | String d u => if in_set d "+-" then some_digits (String c (String d "")) u else some_digits (String c "") t
        | "" => None
        end
      else Some ("", s)
  | "" => Some ("", "")
  end.

Definition number (s : string) : option (string * string) :=
  '(a, s1) ← num_sign s; '(b, s2) ← num_int s1; '(c, s3) ← num_frac s2; '(d, s4) ← num_exp s3;
  Some (a +:+ b +:+ c +:+ d, s4).

Definition literal (w : string) (v : json) (s : string) : option (json * string) :=
  if HasPrefix s w then Some (v, TrimPrefix s w) else None.

(** The elements of an array and the members of an object, after the opening
    bracket and up to the closing one; [value] reads one value, and there are at
    most [n] of them. *)
Section lists.
Context (value : string → option (json * string)).

Fixpoint elements (n : nat) (s : string) : option (list json * string) :=
  match n with
  | O => None
  | S n =>
      '(v, r) ← value s;
      match skip_ws r with
      | String "," r' => '(l, r'') ← elements n r'; Some (v :: l, r'')
      | String "]" r' => Some ([v], r')
      | _ => None
      end
  end.

Fixpoint pairs (n : nat) (s : string) : option (list (string * json) * string) :=
  match n, skip_ws s with
  | S n, String "034" s1 =>
      '(k, r1) ← str_body s1;
      match skip_ws r1 with
      | String ":" r2 =>
          '(v, r3) ← value r2;
          match skip_ws r3 with
          | String "," r' => '(m, r'') ← pairs n r'; Some ((k, v) :: m, r'')
          | String "}" r' => Some ([(k, v)], r')
          | _ => None
          end
      | _ => None
      end
  | _, _ => None
  end.
End lists.

(** One value and what follows it; arrays and objects may be nested [depth] deep.
    There are never more elements than bytes. *)
Fixpoint value (depth : nat) (s : string) : option (json * string) :=
  let s := skip_ws s in
  match s, depth with
  | String "034" t, _ => '(str, r) ← str_body t; Some (JString str, r)
  | String "[" t, S d =>
      match skip_ws t with
      | String "]" r => Some (JArray [], r)
      | t' => '(l, r) ← elements (value d) (String.length t') t'; Some (JArray l, r)
      end
  | String "{" t, S d =>
      match skip_ws t with
      | String "}" r => Some (JObject [], r)
      | t' => '(m, r) ← pairs (value d) (String.length t') t'; Some (JObject m, r)
      end
  | String "n" _, _ => literal "null" JNull s
  | String "t" _, _ => literal "true" (JBool true) s
  | String "f" _, _ => literal "false" (JBool false) s
  | _, _ => '(t, r) ← number s; Some (JNumber t, r)
  end.

(** [maxNestingDepth] *)
Definition max_depth : nat := Z.to_nat 10000.

(** A whole text: one value between white space *)
Definition parse (s : string) : outcome json :=
  match value max_depth s with
  | Some (v, r) => if decide (skip_ws r = "") then Ok v else Err (Errorf "invalid character after top-level value")
  | None => Err (Errorf "invalid JSON text")
  end.

(** ** Reading back what was written *)

(** Valid UTF-8 *)
Inductive utf8 : string → Prop :=
  | utf8_nil : utf8 ""
  | utf8_1 a s : (byte a <? 128) = true → utf8 s → utf8 (String a s)
  | utf8_2 a b s :
      (byte a <? 128) = false → rune_len (String a (String b "")) = 2%nat → utf8 s →
      utf8 (String a (String b s))
  | utf8_3 a b c s :
      (byte a <? 128) = false → rune_len (String a (String b (String c ""))) = 3%nat → utf8 s →
      utf8 (String a (String b (String c s)))
  | utf8_4 a b c d s :
      (byte a <? 128) = false → rune_len (String a (String b (String c (String d "")))) = 4%nat → utf8 s →
      utf8 (String a (String b (String c (String d s)))).

Lemma ascii_utf8 s : string_forall (λ c, byte c <? 128) s = true → utf8 s.
Proof.
  induction s as [|c s IH]; simpl; [constructor|]. intros [Hc Hs]%andb_prop. constructor; auto.
Qed.

Lemma byte_inj a b : byte a = byte b → a = b.
Proof.
  unfold byte. intros H%(inj Z.of_N). rewrite <- (ascii_N_embedding a), <- (ascii_N_embedding b). by rewrite H.
Qed.

Lemma str_body_escape a t :
  (byte a <? 128) = true → str_body (escape a +:+ t) = prepend (String a "") (str_body t).
Proof. destruct a as [[] [] [] [] [] [] [] []]; intros H; try discriminate H; reflexivity. Qed.

Lemma high_byte a :
  (byte a <? 128) = false → Ascii.eqb a "034" = false ∧ Ascii.eqb a "\" = false ∧ (byte a <? 32) = false.
Proof. destruct a as [[] [] [] [] [] [] [] []]; intros H; try discriminate H; done. Qed.

(** The bytes of a rune decide its length. *)
Lemma rune_len_2 a b s : rune_len (String a (String b "")) = 2%nat → rune_len (String a (String b s)) = 2%nat.
Proof. simpl. by destruct (between 194 223 a). Qed.

Lemma rune_len_3 a b c s :
  rune_len (String a (String b (String c ""))) = 3%nat → rune_len (String a (String b (String c s))) = 3%nat.
Proof. simpl. destruct (between 194 223 a); [done|]. by destruct (between 224 239 a). Qed.

Lemma rune_len_4 a b c d s :
  rune_len (String a (String b (String c (String d "")))) = 4%nat →
  rune_len (String a (String b (String c (String d s)))) = 4%nat.
Proof. done. Qed.

Lemma str_body_separator a b c t :
  line_separator a b c = true →
  str_body ("\u202" +:+ String (hex_digit (byte c - 160)) t) = prepend (String a (String b (String c ""))) (str_body t).
Proof.
  unfold line_separator. intros [[Ha%Z.eqb_eq Hb%Z.eqb_eq]%andb_prop Hc]%andb_prop.
  assert (a = "226"%char) as -> by by apply byte_inj. assert (b = "128"%char) as -> by by apply byte_inj.
  apply orb_prop in Hc as [Hc%Z.eqb_eq|Hc%Z.eqb_eq].
  - by assert (c = "168"%char) as -> by by apply byte_inj.
  - by assert (c = "169"%char) as -> by by apply byte_inj.
Qed.

Lemma str_body_high a t :
  (byte a <? 128) = false →
  str_body (String a t) =
  match rune_len (String a t), t with
  | 2%nat, String b u => prepend (String a (String b "")) (str_body u)
  | 3%nat, String b (String c u) => prepend (String a (String b (String c ""))) (str_body u)
  | 4%nat, String b (String c (String d u)) =>
      prepend (String a (String b (String c (String d "")))) (str_body u)
  | _, _ => prepend replacement (str_body t)
  end.
Proof.
  intros Ha. destruct (high_byte a Ha) as (H1 & H2 & H3). cbn [str_body]. by rewrite H1, H2, H3, Ha.
Qed.

Lemma encode_body_high a t :
  (byte a <? 128) = false →
  encode_body (String a t) =
  match rune_len (String a t), t with
  | 2%nat, String b u => String a (String b (encode_body u))
  | 3%nat, String b (String c u) =>
      if line_separator a b c then "\u202" +:+ String (hex_digit (byte c - 160)) (encode_body u)
      else String a (String b (String c (encode_body u)))
  | 4%nat, String b (String c (String d u)) => String a (String b (String c (String d (encode_body u))))
  | _, _ => "\ufffd" +:+ encode_body t
  end.
Proof. intros Ha. cbn [encode_body]. by rewrite Ha. Qed.

Lemma str_body_encode s rest :
  utf8 s → str_body (encode_body s +:+ String "034" rest) = Some (s, rest).
Proof.
  induction 1 as [|a s Ha _ IH|a b s Ha Hl _ IH|a b c s Ha Hl _ IH|a b c d s Ha Hl _ IH].
  - done.
  - cbn [encode_body]. rewrite Ha, app_assoc_s. by rewrite str_body_escape, IH.
  - rewrite encode_body_high, (rune_len_2 _ _ s Hl) by done. cbn [String.append].
    rewrite str_body_high, (rune_len_2 _ _ _ Hl) by done. by rewrite IH.
  - rewrite encode_body_high, (rune_len_3 _ _ _ s Hl) by done. destruct (line_separator a b c) eqn:Hs.
    + rewrite app_assoc_s. etrans; [exact (str_body_separator a b c (encode_body s +:+ String "034" rest) Hs)|]. by rewrite IH.
    + cbn [String.append]. rewrite str_body_high, (rune_len_3 _ _ _ _ Hl) by done. by rewrite IH.
  - rewrite encode_body_high, (rune_len_4 _ _ _ _ s Hl) by done. cbn [String.append].
    rewrite str_body_high, (rune_len_4 _ _ _ _ _ Hl) by done. by rewrite IH.
Qed.

(** *** Numbers *)

(** What may follow a value inside an array or an object, or at the end *)
Definition delimited (rest : string) : bool :=
  match rest with "" => true | String c _ => in_set c ",]}" end.

(** Reading a part does not depend on what follows it. *)
Definition reads_on (f : string → option (string * string)) : Prop :=
  ∀ t a b rest, f t = Some (a, b) → delimited rest = true → f (t +:+ rest) = Some (a, b +:+ rest).

Lemma delimiters c t rest :
  rest = String c t → delimited rest = true → c = ","%char ∨ c = "]"%char ∨ c = "}"%char.
Proof.
  intros -> H. simpl in H. repeat (apply orb_prop in H as [H%Ascii.eqb_eq|H]; [by auto|]). done.
Qed.

Ltac delimiter rest H :=
  destruct rest as [|? ?]; [|destruct (delimiters _ _ _ eq_refl H) as [-> |[-> | ->]]].

Lemma digits_app t a b rest :
  digits t = (a, b) → delimited rest = true → digits (t +:+ rest) = (a, b +:+ rest).
Proof.
  revert a b. induction t as [|c t IH]; simpl; intros a b Ht Hr.
  - simplify_eq. by delimiter rest Hr.
  - destruct (is_digit c); [|by simplify_eq]. destruct (digits t) as [ds r] eqn:E. simplify_eq.
    by rewrite (IH ds b).
Qed.

Lemma some_digits_app p : reads_on (some_digits p).
Proof.
  intros t a b rest Ht Hr. unfold some_digits in *. destruct (digits t) as [ds r] eqn:E.
  rewrite (digits_app _ _ _ rest E Hr). case_decide; naive_solver.
Qed.

Lemma num_sign_app : reads_on num_sign.
Proof.
  intros t a b rest Ht Hr. destruct t as [|c t]; simpl in Ht.
  - simplify_eq. by delimiter rest Hr.
  - destruct c as [[] [] [] [] [] [] [] []]; simplify_eq/=; done.
Qed.

Lemma num_int_app : reads_on num_int.
Proof.
  intros t a b rest Ht Hr. destruct t as [|c t]; [done|]. change (String c t +:+ rest) with (String c (t +:+ rest)).
  assert (is_digit c = true → Some (digits (String c t)) = Some (a, b) →
          Some (digits (String c (t +:+ rest))) = Some (a, b +:+ rest)) as Hd.
  { intros _ [= H]. f_equal. change (String c (t +:+ rest)) with (String c t +:+ rest). by apply digits_app. }
  unfold num_int in *. destruct c as [[] [] [] [] [] [] [] []];
    first [discriminate Ht | by apply Hd | by simplify_eq].
Qed.

Lemma num_frac_app : reads_on num_frac.
Proof.
  intros t a b rest Ht Hr. destruct t as [|c t]; simpl in Ht.
  - simplify_eq. by delimiter rest Hr.
  - destruct c as [[] [] [] [] [] [] [] []]; first [by simplify_eq/= | by apply some_digits_app].
Qed.

Lemma num_exp_app : reads_on num_exp.
Proof.
  intros t a b rest Ht Hr. destruct t as [|c t].
  - simplify_eq/=. by delimiter rest Hr.
  - change (String c t +:+ rest) with (String c (t +:+ rest)). unfold num_exp in *.
    destruct (in_set c "eE"); [|by simplify_eq]. destruct t as [|d t]; [done|].
    cbn [String.append]. destruct (in_set d "+-"); [by apply some_digits_app|].
    change (String d (t +:+ rest)) with (String d t +:+ rest). by apply some_digits_app.
Qed.

Lemma number_app : reads_on number.
Proof.
  intros t a b rest Ht Hr. unfold number in *.
  destruct (num_sign t) as [[a1 t1]|] eqn:E1; simplify_eq/=. rewrite (num_sign_app _ _ _ _ E1 Hr). simpl.
  destruct (num_int t1) as [[a2 t2]|] eqn:E2; simplify_eq/=. rewrite (num_int_app _ _ _ _ E2 Hr). simpl.
  destruct (num_frac t2) as [[a3 t3]|] eqn:E3; simplify_eq/=. rewrite (num_frac_app _ _ _ _ E3 Hr). simpl.
  destruct (num_exp t3) as [[a4 t4]|] eqn:E4; simplify_eq/=. by rewrite (num_exp_app _ _ _ _ E4 Hr).
Qed.

(** *** Values *)

(** The values that are read back: their strings are valid UTF-8, their numbers
    are numbers, and they are nested at most [d] deep. *)
Inductive wf_json : nat → json → Prop :=
  | wf_null d : wf_json d JNull
  | wf_bool d b : wf_json d (JBool b)
  | wf_number d t : number t = Some (t, "") → wf_json d (JNumber t)
  | wf_string d s : utf8 s → wf_json d (JString s)
  | wf_array d l : Forall (wf_json d) l → wf_json (S d) (JArray l)
  | wf_object d m : Forall (λ kv, utf8 kv.1 ∧ wf_json d kv.2) m → wf_json (S d) (JObject m).

(** A byte a value can start with *)
Definition opening (c : ascii) : bool :=
  negb (in_set c (String " " (String "009" (String "010" (String "013" ",]}"))))).

Lemma number_opening c t a : number (String c t) = Some a → opening c = true ∧ is_digit c || Ascii.eqb c "-" = true.
Proof. destruct c as [[] [] [] [] [] [] [] []]; intros H; first [discriminate H | done]. Qed.

Lemma encode_opening d v : wf_json d v → ∃ c t, encode v = String c t ∧ opening c = true.
Proof.
  destruct 1 as [d|d []|d t Ht|d s Hs|d l Hl|d m Hm]; simpl; eauto.
  destruct t as [|c t]; [done|]. destruct (number_opening _ _ _ Ht) as [Ho _]. eauto.
Qed.

Lemma value_number d c t :
  is_digit c || Ascii.eqb c "-" = true →
  value d (String c t) = '(t, r) ← number (String c t); Some (JNumber t, r).
Proof. destruct d; destruct c as [[] [] [] [] [] [] [] []]; intros H; first [discriminate H | reflexivity]. Qed.

Lemma value_array d c t :
  opening c = true →
  value (S d) (String "[" (String c t)) =
  '(l, r) ← elements (value d) (String.length (String c t)) (String c t); Some (JArray l, r).
Proof. destruct c as [[] [] [] [] [] [] [] []]; intros H; first [discriminate H | reflexivity]. Qed.

Lemma value_object d c t :
  opening c = true →
  value (S d) (String "{" (String c t)) =
  '(m, r) ← pairs (value d) (String.length (String c t)) (String c t); Some (JObject m, r).
Proof. destruct c as [[] [] [] [] [] [] [] []]; intros H; first [discriminate H | reflexivity]. Qed.

(** [p] reads back the value [v] wherever it stands. *)
Definition reads_value (p : string → option (json * string)) (v : json) : Prop :=
  ∀ rest, delimited rest = true → p (encode v +:+ rest) = Some (v, rest).

Lemma Join_cons x y l sep : Join (x :: y :: l) sep = x +:+ sep +:+ Join (y :: l) sep.
Proof. done. Qed.

Lemma elements_encode p n v l rest :
  Forall (reads_value p) (v :: l) → (length l < n)%nat →
  elements p n (Join (map encode (v :: l)) "," +:+ String "]" rest) = Some (v :: l, rest).
Proof.
  revert v n. induction l as [|v' l IH]; intros v [|n] Hp Hn; simpl in Hn; try lia;
    inversion_clear Hp as [|?? Hv Hl].
  - simpl. by rewrite (Hv (String "]" rest)).
  - cbn [map elements]. rewrite Join_cons, !app_assoc_s. rewrite (Hv ("," +:+ _)) by done.
    cbn [mbind option_bind String.append skip_ws in_set Ascii.eqb Bool.eqb orb].
    specialize (IH v' n Hl ltac:(lia)). cbn [map] in IH. by rewrite IH.
Qed.

Definition encode_pair (kv : string * json) : string := encode_string kv.1 +:+ ":" +:+ encode kv.2.

Lemma pairs_encode p n kv m rest :
  Forall (λ kv, utf8 kv.1 ∧ reads_value p kv.2) (kv :: m) → (length m < n)%nat →
  pairs p n (Join (map encode_pair (kv :: m)) "," +:+ String "}" rest) = Some (kv :: m, rest).
Proof.
  revert kv n. induction m as [|kv' m IH]; intros [k v] [|n] Hp Hn; simpl in Hn; try lia;
    inversion_clear Hp as [|?? [Hk Hv] Hl]; simpl in Hk, Hv.
  - simpl. unfold encode_pair. simpl. rewrite !app_assoc_s. simpl. rewrite str_body_encode by done. simpl.
    by rewrite (Hv (String "}" rest)).
  - specialize (IH kv' n Hl ltac:(lia)). cbn [map pairs] in *. rewrite Join_cons.
    generalize dependent (Join (encode_pair kv' :: map encode_pair m) ","). intros J IH.
    unfold encode_pair, encode_string. simpl. rewrite !app_assoc_s. simpl.
    rewrite str_body_encode by done. simpl. rewrite ?app_assoc_s, (Hv (String "," _)) by done. simpl. by rewrite IH.
Qed.

Lemma Join_length l : Forall (λ x, x ≠ "") l → (length l ≤ String.length (Join l ","))%nat.
Proof.
  induction 1 as [|x l Hx Hl IH]; [simpl; lia|].
  destruct l as [|y l]; [destruct x; simpl; [done|lia]|].
  rewrite Join_cons, !length_append. simpl in *. lia.
Qed.

Lemma encode_ne d v : wf_json d v → encode v ≠ "".
Proof. intros (c & t & -> & _)%encode_opening. done. Qed.

Lemma literal_app w v rest : literal w v (w +:+ rest) = Some (v, rest).
Proof. unfold literal. by rewrite HasPrefix_app, TrimPrefix_app. Qed.

Lemma value_encode_array d l rest :
  Forall (wf_json d) l → Forall (reads_value (value d)) l →
  value (S d) (encode (JArray l) +:+ rest) = Some (JArray l, rest).
Proof.
  intros Hwf Hall. destruct l as [|v l]; [done|].
  assert (length (v :: l) ≤ String.length (Join (map encode (v :: l)) ","))%nat as Hlen.
  { rewrite <- (length_map encode). apply Join_length, Forall_map.
    eapply Forall_impl; [exact Hwf|]. intros x. apply encode_ne. }
  inversion_clear Hwf as [|?? Hv _]. destruct (encode_opening _ _ Hv) as (c & t & Hct & Ho).
  assert (∃ t', Join (map encode (v :: l)) "," = String c t') as [t' Ht'].
  { destruct l; cbn [map]; [simpl|rewrite Join_cons]; rewrite Hct; eauto. }
  pose proof (elements_encode (value d) (String.length (String c t' +:+ String "]" rest)) v l rest Hall) as He.
  cbn [encode]. rewrite Ht' in *.
  assert (("[" +:+ String c t' +:+ "]") +:+ rest = String "[" (String c (t' +:+ String "]" rest))) as ->
    by (simpl; by rewrite app_assoc_s).
  rewrite value_array by done. change (String c (t' +:+ ?r)) with (String c t' +:+ r).
  rewrite He; [done|]. rewrite length_append. simpl in *. lia.
Qed.

Lemma value_encode_object d m rest :
  Forall (λ kv, utf8 kv.1 ∧ reads_value (value d) kv.2) m →
  value (S d) (encode (JObject m) +:+ rest) = Some (JObject m, rest).
Proof.
  intros Hall. destruct m as [|kv m]; [done|].
  assert (length (kv :: m) ≤ String.length (Join (map encode_pair (kv :: m)) ","))%nat as Hlen.
  { rewrite <- (length_map encode_pair). apply Join_length, Forall_map, Forall_true. done. }
  assert (∃ t', Join (map encode_pair (kv :: m)) "," = String "034" t') as [t' Ht'].
  { destruct m; cbn [map]; [simpl|rewrite Join_cons]; unfold encode_pair, encode_string; simpl; eauto. }
  pose proof (pairs_encode (value d) (String.length (String "034" t' +:+ String "}" rest)) kv m rest Hall) as He.
  cbn [encode]. change (λ kv : string * json, encode_string kv.1 +:+ ":" +:+ encode kv.2) with encode_pair.
  rewrite Ht' in *.
  assert (("{" +:+ String "034" t' +:+ "}") +:+ rest = String "{" (String "034" (t' +:+ String "}" rest))) as ->
    by (simpl; by rewrite app_assoc_s).
  rewrite value_object by done. change (String ?q (t' +:+ ?r)) with (String q t' +:+ r).
  rewrite He; [done|]. rewrite length_append. simpl in *. lia.
Qed.

(** Every value is read back from its text. *)
Lemma value_encode v d : wf_json d v → reads_value (value d) v.
Proof.
  revert d. induction v as [|b|t|s|l IH|m IH] using json_induction; intros d Hv rest Hr;
    inversion Hv as [| |? ? Hn|? ? Hs|? ? Hl|? ? Hm]; subst.
  - destruct d; exact (literal_app "null" _ rest).
  - destruct b; [destruct d; exact (literal_app "true" _ rest)|destruct d; exact (literal_app "false" _ rest)].
  - destruct t as [|c t]; [done|]. cbn [encode]. destruct (number_opening c t _ Hn) as [_ Hc].
    change (String c t +:+ rest) with (String c (t +:+ rest)). rewrite value_number by done.
    change (String c (t +:+ rest)) with (String c t +:+ rest). by rewrite (number_app _ _ _ rest Hn Hr).
  - assert (value d (encode (JString s) +:+ rest) =
      '(str, r) ← str_body (encode_body s +:+ String "034" rest); Some (JString str, r)) as ->.
    { simpl. rewrite app_assoc_s. by destruct d. }
    by rewrite str_body_encode.
  - apply value_encode_array; [done|]. rewrite !Forall_forall in *. auto.
  - apply value_encode_object. rewrite !Forall_forall in *. naive_solver.
Qed.

Lemma parse_encode v : wf_json max_depth v → parse (encode v) = Ok v.
Proof.
  intros Hv. unfold parse. rewrite <- (app_empty_r (encode v)), (value_encode v _ Hv) by done.
  by rewrite decide_True.
Qed.

(** ** Decoding into a value

    [decode j old] is what the variable that held [old] holds afterwards, and
    [None] when the JSON value does not fit its type.  null leaves all but
    pointers, slices and maps alone.  [json.Unmarshal] goes on after a value that
    does not fit and reports it at the end; every caller of the program drops the
    result then.  A slice is decoded into fresh elements. *)

Definition decoder (A : Type) : Type := json → A → option A.

Definition dec_string : decoder string := λ j old,
  match j with JNull => Some old | JString s => Some s | _ => None end.

Definition dec_bool : decoder bool := λ j old,
  match j with JNull => Some old | JBool b => Some b | _ => None end.

(** An integer of [bits] bits *)
Definition dec_int (bits : Z) : decoder Z := λ j old,
  match j with
  | JNull => Some old
  | JNumber t =>
      n ← (match t with String "-" t' => Z.opp <$> digits_loop 0 t' | _ => digits_loop 0 t end);
      if decide (- 2 ^ (bits - 1) <= n < 2 ^ (bits - 1)) then Some n else None
  | _ => None
  end.

Definition dec_slice {A} (zero : A) (dec : decoder A) : decoder (list A) := λ j _,
  match j with
  | JNull => Some []
  | JArray l => mapM (λ x, dec x zero) l
  | _ => None
  end.

Definition dec_map {A} (zero : A) (dec : decoder A) : decoder (gmap string A) := λ j old,
  match j with
  | JNull => Some ∅
  | JObject m => foldl (λ om kv, m ← om; v ← dec kv.2 zero; Some (<[kv.1 := v]> m)) (Some old) m
  | _ => None
  end.

(** A pointer: null makes it nil. *)
Definition dec_pointer {A} (zero : A) (dec : decoder A) : decoder (option A) := λ j old,
  match j with
  | JNull => Some None
  | _ => Some <$> dec j (default zero old)
  end.

(** A struct: the fields in order, with the key of their tag and how a value is
    stored.  A key is looked up as it is written, then without regard to case; a
    key without a field is skipped.  (Case is that of ASCII: the Kelvin sign and the
    long s, which fold to k and s, do not occur in the keys of an answer.) *)
Definition dec_struct {A} (fields : list (string * decoder A)) : decoder A := λ j old,
  let find key := match find_first (λ f, bool_decide (f.1 = key)) fields with
                  | Some f => Some f.2
                  | None => snd <$> find_first (λ f, bool_decide (ToLower f.1 = ToLower key)) fields
                  end in
  match j with
  | JNull => Some old
  | JObject m =>
      foldl (λ oa kv, a ← oa; match find kv.1 with Some store => store kv.2 a | None => Some a end) (Some old) m
  | _ => None
  end.

(** Storing into a field *)
Definition into {A B} (get : A → B) (set : B → A → A) (dec : decoder B) : decoder A := λ j a,
  b ← dec j (get a); Some (set b a).

(** [json.Unmarshal(text, &v)] for a [v] that holds [zero] *)
Definition Unmarshal_into {A} (dec : decoder A) (zero : A) (text : string) : outcome A :=
  j ← parse text;
  match dec j zero with
  | Some a => Ok a
  | None => Err (Errorf "json: cannot unmarshal a value into its field")
  end.

Lemma Unmarshal_encode {A} (dec : decoder A) zero j a :
  wf_json max_depth j → dec j zero = Some a → Unmarshal_into dec zero (encode j) = Ok a.
Proof. intros Hj Ha. unfold Unmarshal_into. rewrite (parse_encode j Hj). simpl. by rewrite Ha. Qed.

(** ** Decoding into an [interface{}]

    The last of the members with one key counts, and a number has to fit into a
    float64. *)

Fixpoint last_wins (m : list (string * json)) : list (string * json) :=
  match m with
  | [] => []
  | kv :: m' => if decide (kv.1 ∈ m'.*1) then last_wins m' else kv :: last_wins m'
  end.

Fixpoint any (v : json) : json :=
  match v with
  | JArray l => JArray (map any l)
  | JObject m => JObject (last_wins (map (λ kv, (kv.1, any kv.2)) m))
  | _ => v
  end.

Fixpoint numbers_fit (v : json) : bool :=
  match v with
  | JNumber t => negb (ParseFloat t).2
  | JArray l => forallb numbers_fit l
  | JObject m => forallb (λ kv, numbers_fit kv.2) m
  | _ => true
  end.

(** [json.Unmarshal(text, &data)] for a [data interface{}] *)
Definition Unmarshal (text : string) : outcome json :=
  v ← parse text;
  if numbers_fit v then Ok (any v) else Err (Errorf "json: cannot unmarshal number into Go value of type float64").

(** ** Large structs

    Of a struct with many fields the program often reads a few.  Its [shape] is the
    type of every field: a text is decoded when all its values fit, and the fields
    that are read are decoded from it. *)

Inductive shape : Type :=
  | SAny
  | SString
  | SBool
  | SInt (bits : Z)
  | SFloat
  | SSlice (s : shape)
  | SMap (s : shape)
  | SStruct (fields : list (string * shape)).

(** The field a key of the text belongs to *)
Definition chosen_key (keys : list string) (key : string) : option string :=
  match find_first (λ k, bool_decide (k = key)) keys with
  | Some k => Some k
  | None => find_first (λ k, bool_decide (ToLower k = ToLower key)) keys
  end.

Fixpoint fits (s : shape) (j : json) : bool :=
  match s, j with
  | _, JNull => true
  | SAny, _ => numbers_fit j
  | SString, JString _ => true
  | SBool, JBool _ => true
  | SInt bits, JNumber _ => bool_decide (is_Some (dec_int bits j 0))
  | SFloat, JNumber _ => numbers_fit j
  | SSlice s', JArray l => forallb (fits s') l
  | SMap s', JObject m => forallb (λ kv, fits s' kv.2) m
  | SStruct fields, JObject m =>
      let keys := map fst fields in
      forallb (λ f, forallb (λ kv, negb (bool_decide (chosen_key keys kv.1 = Some f.1)) || fits f.2 kv.2) m) fields
  | _, _ => false
  end.

(** [json.Unmarshal(text, &v)] for a fresh [v] of that shape *)
Definition Unmarshal_shaped {A} (s : shape) (dec : decoder A) (zero : A) (text : string) : outcome A :=
  j ← parse text;
  if fits s j then
    match dec j zero with
    | Some a => Ok a
    | None => Err (Errorf "json: cannot unmarshal a value into its field")
    end
  else Err (Errorf "json: cannot unmarshal a value into its field").
