(* ===== verification/GoNet.v ===== *)
(** Go's [net/url] and [net/http], as far as the program writes requests itself:
    form values, headers, requests and answers. *)

From Stdlib Require Import Ascii.
From S2P Require Import Prelude GoStrings Errors Effects GoJson.

Local Open Scope Z_scope.

(** ** Form values *)

(** The bytes [url.QueryEscape] leaves alone *)
Definition unreserved (c : ascii) : bool :=
  between 48 57 c || between 65 90 c || between 97 122 c || in_set c "-_.~".

Definition upper_hex (z : Z) : ascii := chr (if z <? 10 then 48 + z else 55 + z).

Definition escape_byte (c : ascii) : string :=
  if unreserved c then String c ""
  else if Ascii.eqb c " " then "+"
  else String "%" (String (upper_hex (byte c / 16)) (String (upper_hex (byte c mod 16)) "")).

Fixpoint QueryEscape (s : string) : string :=
  match s with
  | "" => ""
  | String c t => escape_byte c +:+ QueryEscape t
  end.

(** [url.Values] with one value for each key, in the order of the keys;
    [Values.Encode] writes them in that order. *)
Fixpoint values_Set (key value : string) (v : list (string * string)) : list (string * string) :=
  match v with
  | [] => [(key, value)]
  | (k, x) :: v' =>
      if decide (k = key) then (key, value) :: v'
      else if string_leb key k then (key, value) :: (k, x) :: v' else (k, x) :: values_Set key value v'
  end.

Definition values_Encode (v : list (string * string)) : string :=
  Join ((λ kx, QueryEscape kx.1 +:+ "=" +:+ QueryEscape kx.2) <$> v) "&".

(** How a form is read: [QueryUnescape], and the fields between [&] *)
Fixpoint QueryUnescape (s : string) : option string :=
  match s with
  | "" => Some ""
  | String c t =>
      if Ascii.eqb c "%" then
        match t with
        | String a (String b u) =>
            x ← hex_value a; y ← hex_value b; r ← QueryUnescape u; Some (String (chr (x * 16 + y)) r)
        | _ => None
        end
      else r ← QueryUnescape t; Some (String (if Ascii.eqb c "+" then " "%char else c) r)
  end.

Definition read_field (f : string) : option (string * string) :=
  match Split f "=" with
  | k :: rest => k ← QueryUnescape k; x ← QueryUnescape (Join rest "="); Some (k, x)
  | [] => None
  end.

Definition ParseQuery (s : string) : option (list (string * string)) := mapM read_field (Split s "&").

(** ** Requests *)

Definition Header : Type := gmap string (list string).

(** [headers.Add] with a key in canonical form *)
Definition header_Add (key value : string) (h : Header) : Header :=
  <[key := default [] (h !! key) ++ [value]]> h.

Record HttpRequest := {
  req_Method : string;
  req_URL : string;
  req_Header : Header;
  req_Body : option string;
}.

(** An answer: reading its body gives the bytes that arrived, and may fail. *)
Record HttpResponse := { StatusCode : Z; resp_Body : string; resp_ReadError : option error }.

(** ** What is read back *)

Lemma unescape_escape c t :
  QueryUnescape (escape_byte c +:+ t) = r ← QueryUnescape t; Some (String c r).
Proof. destruct c as [[] [] [] [] [] [] [] []]; reflexivity. Qed.

Lemma QueryUnescape_QueryEscape s : QueryUnescape (QueryEscape s) = Some s.
Proof. induction s as [|c s IH]; [done|]. cbn [QueryEscape]. by rewrite unescape_escape, IH. Qed.

(** No separator is left in an escaped text. *)
Definition no_separator (s : string) : bool := string_forall (λ c, negb (in_set c "=&")) s.

Lemma QueryEscape_no_separator s : no_separator (QueryEscape s) = true.
Proof.
  unfold no_separator. induction s as [|c s IH]; [done|]. cbn [QueryEscape]. rewrite string_forall_app, IH.
  rewrite andb_true_r. destruct c as [[] [] [] [] [] [] [] []]; reflexivity.
Qed.

Lemma QueryEscape_free sep s : in_set sep "=&" = true → free_of sep (QueryEscape s) = true.
Proof.
  intros Hs. pose proof (QueryEscape_no_separator s) as H. unfold no_separator, free_of in *.
  induction (QueryEscape s) as [|c t IH]; simpl in *; [done|]. apply andb_prop in H as [Hc Ht].
  rewrite (IH Ht), andb_true_r. apply negb_true_iff. apply negb_true_iff in Hc.
  destruct (Ascii.eqb_spec c sep) as [->|]; [|done]. by rewrite Hs in Hc.
Qed.

Lemma read_field_Encode k x : read_field (QueryEscape k +:+ "=" +:+ QueryEscape x) = Some (k, x).
Proof.
  unfold read_field, Split. change ("=" +:+ QueryEscape x) with (String "=" (QueryEscape x)).
  rewrite split_loop_app by by apply QueryEscape_free. unfold Split.
  rewrite split_loop_free by by apply QueryEscape_free. simpl.
  rewrite QueryUnescape_QueryEscape. simpl. by rewrite QueryUnescape_QueryEscape.
Qed.

(** A form is read back, whatever bytes its fields hold. *)
Lemma ParseQuery_Encode v : v ≠ [] → ParseQuery (values_Encode v) = Some v.
Proof.
  intros Hv. unfold ParseQuery, values_Encode. rewrite Split_Join.
  - clear Hv. apply mapM_Some_2, Forall2_fmap_l, Forall_Forall2_diag, Forall_true. intros [k x]. apply read_field_Encode.
  - by destruct v.
  - apply Forall_fmap, Forall_true. intros [k x]. simpl. rewrite free_of_app.
    change (String "=" (QueryEscape x)) with ("=" +:+ QueryEscape x). rewrite free_of_app.
    by rewrite !QueryEscape_free.
Qed.
