(* ===== verification/Concur.v ===== *)
(** Goroutines.  A call that other goroutines can interrupt is a resumption [R]:
    it does one call on the world at a time, and another goroutine may act on the
    world between two of them.  [run] is such a call on its own, [interleaved] one
    among others.  A group starts one goroutine for each element of a list,
    collects their errors in a buffered channel, waits for all of them and joins
    the errors: the pattern of DeleteMultipleUsers and DeleteMultipleGroups of
    drivers/backup/auth.go. *)

From stdpp Require Import relations.
From S2P Require Import Prelude GoStrings Errors Effects.

(** ** Resumptions

    [Act next effect]: a call on the world [w] leaves [effect w] behind, and the
    resumption goes on with [next w]. *)

Inductive R (W A : Type) : Type :=
  | Fin (o : outcome A)
  | Act (next : W → R W A) (effect : W → W).
Arguments Fin {W A} o.
Arguments Act {W A} next effect.

Section resumption.
Context {W : Type}.

Fixpoint R_attempt {A B} (r : R W A) (k : outcome A → R W B) : R W B :=
  match r with
  | Fin o => k o
  | Act next effect => Act (λ w, R_attempt (next w) k) effect
  end.

#[export] Instance R_ret : MRet (R W) := λ A a, Fin (Ok a).

(** What follows a failed call is skipped. *)
Definition after {A B} (f : A → R W B) (o : outcome A) : R W B :=
  match o with
  | Ok a => f a
  | Err e => Fin (Err e)
  | Panic m => Fin (Panic m)
  | Diverge => Fin Diverge
  end.

#[export] Instance R_bind : MBind (R W) := λ A B f r, R_attempt r (after f).

(** [x, err := r]: the continuation inspects the error itself. *)
Definition R_try {A B} (r : R W A) (k : A + error → R W B) : R W B :=
  R_attempt r (λ o, match o with
                    | Ok a => k (inl a)
                    | Err e => k (inr e)
                    | Panic m => Fin (Panic m)
                    | Diverge => Fin Diverge
                    end).

(** One call on the world *)
Definition act {A} (m : M W A) : R W A := Act (λ w, Fin (m w).1) (λ w, (m w).2).

Definition R_throw {A} (e : error) : R W A := Fin (Err e).

(** The call on its own *)
Fixpoint run {A} (r : R W A) : M W A :=
  match r with
  | Fin o => lift o
  | Act next effect => λ w, run (next w) (effect w)
  end.

Lemma run_act {A} (m : M W A) w : run (act m) w = m w.
Proof. simpl. unfold lift. by destruct (m w). Qed.

Lemma run_attempt {A B} (r : R W A) (k : outcome A → R W B) w :
  run (R_attempt r k) w = let '(o, w') := run r w in run (k o) w'.
Proof. revert w. induction r as [o|next IH effect]; intros w; simpl; [done|apply IH]. Qed.

Lemma run_bind {A B} (r : R W A) (f : A → R W B) w :
  run (r ≫= f) w = (run r ≫= λ a, run (f a)) w.
Proof.
  unfold mbind at 1, R_bind. rewrite run_attempt. unfold mbind, M_bind.
  by destruct (run r w) as [[a|e|m|] w'].
Qed.

Lemma run_bind_act {A B} (m : M W A) (f : A → R W B) w :
  run (act m ≫= f) w = (m ≫= λ a, run (f a)) w.
Proof. rewrite run_bind. unfold mbind, M_bind. by rewrite run_act. Qed.

Lemma run_try {A B} (r : R W A) (k : A + error → R W B) w :
  run (R_try r k) w = attempt (run r) (λ x, run (k x)) w.
Proof.
  unfold R_try. rewrite run_attempt. unfold attempt. by destruct (run r w) as [[a|e|m|] w'].
Qed.

(** The call among others: [o] is what it returns when the world it finds at each
    of its calls is whatever the others made of it. *)
Inductive interleaved {A} : R W A → outcome A → Prop :=
  | interleaved_fin o : interleaved (Fin o) o
  | interleaved_act next effect w o : interleaved (next w) o → interleaved (Act next effect) o.

Lemma interleaved_run {A} (r : R W A) w o w' : run r w = (o, w') → interleaved r o.
Proof.
  revert w. induction r as [o1|next IH effect]; intros w Hr; simpl in Hr.
  - unfold lift in Hr. simplify_eq. constructor.
  - econstructor. by eapply IH.
Qed.

Lemma interleaved_act_inv {A} (m : M W A) o : interleaved (act m) o → ∃ w w', m w = (o, w').
Proof.
  inversion_clear 1 as [|???? Hn]. inversion Hn; subst. exists w, (m w).2. by destruct (m w).
Qed.

Lemma interleaved_attempt_inv {A B} (r : R W A) (k : outcome A → R W B) o :
  interleaved (R_attempt r k) o → ∃ o1, interleaved r o1 ∧ interleaved (k o1) o.
Proof.
  induction r as [o1|next IH effect]; simpl; intros Hr.
  - exists o1. split; [constructor|done].
  - inversion_clear Hr as [|???? Hn]. destruct (IH _ Hn) as (o1 & H1 & H2).
    exists o1. split; [by econstructor|done].
Qed.

(** A call that succeeded among others: so did its parts. *)
Lemma interleaved_bind_Ok {A B} (r : R W A) (f : A → R W B) b :
  interleaved (r ≫= f) (Ok b) → ∃ a, interleaved r (Ok a) ∧ interleaved (f a) (Ok b).
Proof.
  intros ([a|e|m|] & H1 & H2)%interleaved_attempt_inv; simpl in H2; [by exists a|by inversion H2..].
Qed.

Lemma interleaved_ret_Ok {A} (a b : A) : interleaved (mret a : R W A) (Ok b) → a = b.
Proof. by inversion 1. Qed.

Lemma interleaved_lift {A} (o o' : outcome A) : interleaved (Fin o : R W A) o' → o' = o.
Proof. by inversion 1. Qed.
End resumption.

(** ** Invariants

    [R_ensures I r Q]: every call of [r] keeps [I], whatever happens between them, and
    what [r] returns without an error satisfies [Q]. *)

Fixpoint R_ensures {W A} (I : W → Prop) (r : R W A) (Q : A → Prop) : Prop :=
  match r with
  | Fin (Ok a) => Q a
  | Fin _ => True
  | Act next effect => ∀ w, I w → I (effect w) ∧ R_ensures I (next w) Q
  end.

Section R_ensures_lemmas.
Context {W : Type} (I : W → Prop).

Lemma R_ensures_act {A} (m : M W A) Q : ensures I m Q → R_ensures I (act m) Q.
Proof. intros Hm w Hw. destruct (Hm w Hw) as [Hw' HQ]. simpl. split; [done|]. by destruct (m w) as [[]]; [apply HQ|..]. Qed.

Lemma R_ensures_bind {A B} (r : R W A) (f : A → R W B) P Q :
  R_ensures I r P → (∀ a, P a → R_ensures I (f a) Q) → R_ensures I (r ≫= f) Q.
Proof.
  intros Hr Hf. induction r as [[a|e|m|]|next IH effect]; simpl in *; [by apply Hf|done..|].
  intros w Hw. destruct (Hr w Hw) as [Hw' Hn]. split; [done|]. by apply IH.
Qed.
End R_ensures_lemmas.

(** ** Groups of goroutines

    [Ended] keeps what the body returned: a goroutine that panicked is recovered
    and ends like one that returned, one that failed sends the text of its error
    before it ends.  A full channel blocks the sender. *)

Section group.
Context {W A : Type} (body : A → R W unit) (describe : A → error → string).

Inductive goroutine : Type :=
  | Running (r : R W unit)
  | Ended (o : outcome unit).

Record Group := { members : list (A * goroutine); g_world : W; errCh : list string }.

(** [errCh := make(chan string, len(l))] and [go func] for each element *)
Definition start (l : list A) (w : W) : Group :=
  {| members := (λ x, (x, Running (body x))) <$> l; g_world := w; errCh := [] |}.

(** The next step of the goroutine [i] *)
Definition step_at (i : nat) (g : Group) : option Group :=
  let put x st w ch := Some {| members := <[i := (x, st)]> (members g); g_world := w; errCh := ch |} in
  match members g !! i with
  | Some (x, Running (Act next effect)) => put x (Running (next (g_world g))) (effect (g_world g)) (errCh g)
  | Some (x, Running (Fin (Err e))) =>
      if decide (length (errCh g) < length (members g))%nat
      then put x (Ended (Err e)) (g_world g) (errCh g ++ [describe x e])
      else None
  | Some (x, Running (Fin Diverge)) => None
  | Some (x, Running (Fin o)) => put x (Ended o) (g_world g) (errCh g)
  | _ => None
  end.

Definition step (g g' : Group) : Prop := ∃ i, step_at i g = Some g'.

(** A scheduler that lets the goroutines of a list step one after the other *)
Definition schedule (choices : list nat) (g : Group) : option Group :=
  foldl (λ og i, og ≫= step_at i) (Some g) choices.

Definition ended (m : A * goroutine) : bool :=
  match m.2 with Ended _ => true | Running _ => false end.

(** [wg.Wait()] returns *)
Definition finished (g : Group) : bool := forallb ended (members g).

(** [close(errCh)], and [fmt.Errorf(strings.Join(errSlice, sep))] of the errors that
    were sent *)
Definition joined (g : Group) : outcome unit :=
  if decide (errCh g = []) then Ok tt else Err (Errorf (format (Join (errCh g) "; "))).

Lemma schedule_steps choices g g' : schedule choices g = Some g' → rtc step g g'.
Proof.
  unfold schedule. revert g. induction choices as [|i choices IH]; intros g; simpl; [intros [= ->]; constructor|].
  destruct (step_at i g) as [g1|] eqn:Hs.
  - intros Hr. eapply rtc_l; [by exists i|]. by apply IH.
  - intros Hr. exfalso. clear -Hr. by induction choices.
Qed.

(** *** Invariants of a group *)

Definition keeps_inv (I : W → Prop) (m : A * goroutine) : Prop :=
  match m.2 with Running r => R_ensures I r (λ _, True) | Ended _ => True end.

Lemma step_at_keeps I i g g' :
  step_at i g = Some g' → Forall (keeps_inv I) (members g) → I (g_world g) →
  Forall (keeps_inv I) (members g') ∧ I (g_world g').
Proof.
  intros Hs Hm Hw. unfold step_at in Hs. destruct (members g !! i) as [[x [r|o]]|] eqn:Hi; [|done..].
  pose proof (Forall_lookup_1 _ _ _ _ Hm Hi) as Hx. unfold keeps_inv in Hx. simpl in Hx.
  destruct r as [[[]|e|s|]|next effect]; [|case_decide|..]; simplify_eq/=;
    [split; [by apply Forall_insert|done]..|].
  destruct (Hx _ Hw) as [? ?]. split; [by apply Forall_insert|done].
Qed.

Lemma schedule_keeps I choices g g' :
  schedule choices g = Some g' → Forall (keeps_inv I) (members g) → I (g_world g) → I (g_world g').
Proof.
  unfold schedule. revert g. induction choices as [|i choices IH]; intros g Hs Hm Hw; simpl in Hs; [by simplify_eq|].
  destruct (step_at i g) as [g1|] eqn:Hg.
  - destruct (step_at_keeps I _ _ _ Hg Hm Hw). by apply (IH g1).
  - exfalso. clear -Hs. by induction choices.
Qed.

(** A group of one goroutine is a call of its body. *)
Lemma schedule_one choices x r w ch g' :
  schedule choices {| members := [(x, Running r)]; g_world := w; errCh := ch |} = Some g' → finished g' = true →
  ∃ o, run r w = (o, g_world g') ∧ members g' = [(x, Ended o)] ∧ o ≠ Diverge.
Proof.
  unfold schedule. revert r w ch. induction choices as [|i choices IH]; intros r w ch Hs Hf; simpl in Hs; [by simplify_eq|].
  destruct i as [|i].
  - assert (∀ o ch', foldl (λ og i, og ≫= step_at i) (Some {| members := [(x, Ended o)]; g_world := w; errCh := ch' |}) choices = Some g' →
      g_world g' = w ∧ members g' = [(x, Ended o)]) as Hend.
    { intros o ch' He. destruct choices as [|[|j] choices]; simpl in He; [by simplify_eq|exfalso; clear -He; by induction choices..]. }
    destruct r as [[[]|e|s|]|next effect]; unfold step_at in Hs; simpl in Hs; [|case_decide|..];
      try (destruct (Hend _ _ Hs) as [-> ->]; by eexists);
      try (exfalso; clear -Hs; by induction choices).
    by apply (IH _ _ _ Hs Hf).
  - exfalso. clear -Hs. by induction choices.
Qed.

(** *** Every schedule ends *)

Inductive goroutine_step : goroutine → goroutine → Prop :=
  | goroutine_act next effect w : goroutine_step (Running (Act next effect)) (Running (next w))
  | goroutine_end o : goroutine_step (Running (Fin o)) (Ended o).

Lemma goroutine_Acc st : Acc (flip goroutine_step) st.
Proof.
  assert (∀ o, Acc (flip goroutine_step) (Ended o)) as He by (intros o; constructor; by inversion 1).
  destruct st as [r|o]; [|done]. induction r as [o|next IH effect]; constructor; inversion 1; subst; done.
Qed.

(** One element of a list makes a step. *)
Inductive one_step : list (A * goroutine) → list (A * goroutine) → Prop :=
  | one_here x st st' l : goroutine_step st st' → one_step ((x, st) :: l) ((x, st') :: l)
  | one_later m l l' : one_step l l' → one_step (m :: l) (m :: l').

Lemma one_step_Acc l : Acc (flip one_step) l.
Proof.
  induction l as [|[x st] l IH]; [constructor; by inversion 1|].
  revert l IH. induction (goroutine_Acc st) as [st _ IHst]. intros l Hl.
  induction Hl as [l Hacc IHl]. constructor. intros l' Hs.
  inversion Hs as [????? Hst|?? l1 Hl1]; subst; [|by apply IHl].
  apply IHst; [done|by constructor].
Qed.

Lemma one_step_insert l i x st st' :
  l !! i = Some (x, st) → goroutine_step st st' → one_step l (<[i := (x, st')]> l).
Proof.
  revert i. induction l as [|m l IH]; intros [|i] Hi Hs; simplify_eq/=; constructor; auto.
Qed.

(** What a step does to the member that makes it *)
Lemma step_at_inv i g g' :
  step_at i g = Some g' →
  ∃ x st st', members g !! i = Some (x, st) ∧ members g' = <[i := (x, st')]> (members g) ∧ goroutine_step st st'.
Proof.
  unfold step_at. intros Hs. destruct (members g !! i) as [[x [r|o]]|]; [|done..].
  exists x, (Running r). destruct r as [[[]|e|m|]|next effect]; simplify_eq/=.
  - eexists. split_and!; [done..|constructor].
  - case_decide; simplify_eq/=. eexists. split_and!; [done..|constructor].
  - eexists. split_and!; [done..|constructor].
  - eexists. split_and!; [done..|constructor].
Qed.

Lemma group_terminates g : Acc (flip step) g.
Proof.
  remember (members g) as l eqn:Hl. revert g Hl. induction (one_step_Acc l) as [l _ IH].
  intros g ->. constructor. intros g' [i (x & st & st' & Hi & Hm & Hs)%step_at_inv].
  eapply IH; [|reflexivity]. unfold flip. rewrite Hm. by eapply one_step_insert.
Qed.

(** *** What the channel holds *)

(** What a goroutine that returned [o] sends *)
Definition message (xo : A * outcome unit) : option string :=
  match xo.2 with Err e => Some (describe xo.1 e) | _ => None end.

Definition failure (m : A * goroutine) : option string :=
  match m.2 with Ended o => message (m.1, o) | Running _ => None end.

(** What is known of a member: it goes on with its body, or ended it. *)
Definition follows (m : A * goroutine) : Prop :=
  match m.2 with
  | Running r => ∀ o, interleaved r o → interleaved (body m.1) o
  | Ended o => interleaved (body m.1) o
  end.

Record group_inv (l : list A) (g : Group) : Prop := {
  inv_members : (members g).*1 = l;
  inv_errCh : errCh g ≡ₚ omap failure (members g);
  inv_follows : Forall follows (members g);
}.

Lemma start_inv l w : group_inv l (start l w).
Proof.
  constructor; simpl.
  - rewrite <- list_fmap_compose. apply list_fmap_id.
  - by induction l.
  - apply Forall_fmap, Forall_true. by intros x o.
Qed.

Lemma omap_failure_insert l i x st st' :
  l !! i = Some (x, st) → failure (x, st) = None →
  omap failure (<[i := (x, st')]> l) ≡ₚ omap failure l ++ option_list (failure (x, st')).
Proof.
  intros Hi Hf. rewrite <- (take_drop_middle l i _ Hi) at 2.
  rewrite insert_take_drop by (by apply lookup_lt_Some in Hi).
  rewrite !omap_app. simpl. rewrite Hf.
  destruct (failure (x, st')); simpl; [|by rewrite app_nil_r]. solve_Permutation.
Qed.

Lemma step_at_follows i g g' :
  step_at i g = Some g' → Forall follows (members g) → Forall follows (members g').
Proof.
  intros (x & st & st' & Hi & -> & Hs)%step_at_inv Hf.
  apply Forall_insert; [done|]. pose proof (Forall_lookup_1 _ _ _ _ Hf Hi) as Hx.
  destruct Hs as [next effect w|o]; unfold follows in *; simpl in *.
  - intros o Ho. apply Hx. by econstructor.
  - apply Hx. constructor.
Qed.

Lemma step_at_errCh i g g' :
  step_at i g = Some g' → errCh g ≡ₚ omap failure (members g) → errCh g' ≡ₚ omap failure (members g').
Proof.
  unfold step_at. intros Hs He. destruct (members g !! i) as [[x [r|o]]|] eqn:Hi; [|done..].
  destruct r as [[[]|e|m|]|next effect]; simplify_eq/=; [|case_decide; simplify_eq/=|..];
    rewrite (omap_failure_insert _ _ _ _ _ Hi eq_refl); simpl; by rewrite ?app_nil_r, He.
Qed.

Lemma group_inv_steps l g g' : rtc step g g' → group_inv l g → group_inv l g'.
Proof.
  induction 1 as [g|g g1 g2 [i Hs] _ IH]; [done|]. intros [Hm He Hf]. apply IH. constructor.
  - apply step_at_inv in Hs as (x & st & st' & Hi & -> & _). rewrite list_fmap_insert. simpl.
    rewrite list_insert_id; [done|]. by rewrite list_lookup_fmap, Hi.
  - by eapply step_at_errCh.
  - by eapply step_at_follows.
Qed.

(** The messages of the goroutines that are still running fit into the channel. *)
Lemma errCh_room g i x r :
  errCh g ≡ₚ omap failure (members g) → members g !! i = Some (x, Running r) →
  (length (errCh g) < length (members g))%nat.
Proof.
  intros -> Hi. revert i Hi. induction (members g) as [|m ms IH]; intros i Hi; [done|].
  assert (length (omap failure ms) ≤ length ms)%nat as Hle.
  { clear. induction ms as [|m ms IH]; csimpl; [lia|]. destruct (failure m); csimpl; lia. }
  destruct i as [|i]; csimpl in *; simplify_eq; csimpl; [lia|].
  specialize (IH i Hi). destruct (failure m); csimpl; lia.
Qed.

Lemma running_member ms : forallb ended ms = false → ∃ i x r, ms !! i = Some (x, Running r).
Proof.
  induction ms as [|[x [r|o]] ms IH]; simpl; intros Hf; [done|by exists 0%nat, x, r|].
  destruct (IH Hf) as (i & y & r & Hi). by exists (S i), y, r.
Qed.

(** No goroutine waits for another: as long as one is running, one can step. *)
Lemma group_progress l w g :
  (∀ x, ¬ interleaved (body x) Diverge) → rtc step (start l w) g → finished g = false → ∃ g', step g g'.
Proof.
  intros Hd Hs Hf. destruct (group_inv_steps l _ _ Hs (start_inv l w)) as [_ He Hfo].
  destruct (running_member _ Hf) as (i & x & r & Hi).
  pose proof (errCh_room _ _ _ _ He Hi) as Hroom. pose proof (Forall_lookup_1 _ _ _ _ Hfo Hi) as Hx.
  cut (∃ g', step_at i g = Some g'); [intros [g' Hg']; by exists g', i|].
  unfold step_at. rewrite Hi. destruct r as [[[]|e|m|]|next effect]; eauto.
  - rewrite decide_True by done. eauto.
  - destruct (Hd x). apply Hx. constructor.
Qed.

(** When all have ended, the channel holds one message for each goroutine that
    failed, and each ended with something its body returns among the others. *)
Lemma group_result l w g :
  rtc step (start l w) g → finished g = true →
  ∃ outcomes : list (outcome unit),
    Forall2 (λ x o, interleaved (body x) o) l outcomes ∧ errCh g ≡ₚ omap message (zip l outcomes).
Proof.
  intros Hs Hf. destruct (group_inv_steps l _ _ Hs (start_inv l w)) as [<- He Hfo].
  assert (∀ ms, forallb ended ms = true → Forall follows ms →
    ∃ os, Forall2 (λ x o, interleaved (body x) o) ms.*1 os ∧
      omap failure ms = omap message (zip ms.*1 os)) as Hall.
  { intros ms. induction ms as [|[x [r|o]] ms IH]; simpl; intros H1 H2; [by exists []|done|].
    inversion_clear H2 as [|?? Hx Hms]. destruct (IH H1 Hms) as (os & H3 & H4).
    exists (o :: os). split; [by constructor|]. csimpl. by rewrite H4. }
  destruct (Hall _ Hf Hfo) as (os & H3 & H4). exists os. by rewrite He, H4.
Qed.

Lemma no_messages l outcomes :
  length l = length outcomes →
  omap message (zip l outcomes) = [] ↔ ∀ o, o ∈ outcomes → ∀ e, o ≠ Err e.
Proof.
  revert outcomes. induction l as [|x l IH]; intros [|o os] Hlen; simplify_eq/=; [split; [set_solver|done]|].
  specialize (IH os Hlen). csimpl. unfold message at 1. simpl. destruct o as [[]|e|m|]; csimpl.
  2: { split; [done|]. intros Hn. by destruct (Hn (Err e) ltac:(by left) e). }
  all: rewrite IH; split; intros Hn o' Hin; [apply elem_of_cons in Hin as [->|]; [done|by apply Hn]|apply Hn; by right].
Qed.

(** The result is success exactly when no goroutine failed, and else one message
    for each that did. *)
Lemma joined_result l w g :
  rtc step (start l w) g → finished g = true →
  ∃ outcomes, Forall2 (λ x o, interleaved (body x) o) l outcomes ∧
    (joined g = Ok tt ↔ ∀ o, o ∈ outcomes → ∀ e, o ≠ Err e) ∧
    ∀ err, joined g = Err err → ∃ messages,
      messages ≡ₚ omap message (zip l outcomes) ∧ err = Errorf (format (Join messages "; ")).
Proof.
  intros Hs Hf. destruct (group_result _ _ _ Hs Hf) as (outcomes & Ho & He).
  exists outcomes. split; [done|]. rewrite <- (no_messages l) by by eapply Forall2_length.
  unfold joined. case_decide as Hc.
  - rewrite Hc in He. symmetry in He. apply Permutation_nil_r in He. by rewrite He.
  - split; [split; [done|]; intros Hn; rewrite Hn in He; by apply Permutation_nil_r in He|].
    intros err [= <-]. by exists (errCh g).
Qed.
End group.
