(* ===== verification/Task.v ===== *)
(** The retry engine every wait of the program runs on,
    [task.DoRetryWithTimeout] (vendor/github.com/portworx/sched-ops/task/task.go),
    and the trigger wrapper [PerformTask] (drivers/api/api.go).

    [DoRetryWithTimeout] starts one goroutine and blocks until it sends on one
    of two channels, so its execution is sequential: [retry_goroutine] is the
    body of the goroutine and [DoRetryWithTimeout] the caller that waits for
    it.  The context expires when the clock reaches the deadline and is looked
    at only between attempts. *)

From S2P Require Import Prelude GoStrings Errors Effects.

(** What one call of the task returned: [(out, _, nil)], [(_, true, err)] or
    [(_, false, err)]. *)
Inductive task_result (A : Type) : Type :=
  | Done (out : A)
  | Retry (err : error)
  | Stop (err : error).
Arguments Done {A} out.
Arguments Retry {A} err.
Arguments Stop {A} err.

(** The newline of the format string of the timeout message. *)
Definition retry_sep : string := "}" +:+ String (Ascii.ascii_of_nat 10) "{".

Section retry.
Context {W : Type} `{Clock W} {A : Type}.
Implicit Types (t : M W (task_result A)).

Fixpoint retry_goroutine (fuel : nat) t (deadline timeBeforeRetry : Z)
    (errInRetires : list string) (w : W) : outcome (list string * (A + error)) * W :=
  match fuel with
  | O => (Diverge, w)
  | S fuel =>
      if decide (deadline <= now w) then (Ok (errInRetires, inr DeadlineExceeded), w)
      else
        match t w with
        | (Ok (Done out), w') => (Ok (errInRetires, inl out), w')
        | (Ok (Retry err), w') =>
            retry_goroutine fuel t deadline timeBeforeRetry
              (errInRetires ++ [Error err]) (sleep timeBeforeRetry w')
        | (Ok (Stop err), w') => (Ok (errInRetires, inr err), w')
        | (Err e, w') => (Err e, w')
        | (Panic s, w') => (Panic s, w')
        | (Diverge, w') => (Diverge, w')
        end
  end.

(** Enough fuel for every run: an attempt starts only before the deadline and
    two attempts are at least [timeBeforeRetry] apart. *)
Definition retry_fuel (timeout timeBeforeRetry : Z) : nat :=
  S (S (Z.to_nat (timeout / timeBeforeRetry))).

Definition timeout_reason (errInRetires : list string) : string :=
  "DoRetryWithTimeout timed out. Errors generated in retries: {" +:+
  Join errInRetires retry_sep +:+ "}".

Definition DoRetryWithTimeout t (timeout timeBeforeRetry : Z) : M W A := λ w,
  match retry_goroutine (retry_fuel timeout timeBeforeRetry) t (now w + timeout)
          timeBeforeRetry [] w with
  | (Ok (_, inl result), w') => (Ok result, w')
  | (Ok (errInRetires, inr err), w') =>
      match err with
      | DeadlineExceeded => (Err (ErrTimedOut (timeout_reason errInRetires)), w')
      | _ => (Err err, w')
      end
  | (Err e, w') => (Err e, w')
  | (Panic s, w') => (Panic s, w')
  | (Diverge, w') => (Diverge, w')
  end.

(** ** Specification

    [retries t deadline interval es w w']: from [w] the task was attempted
    [length es] times, always before the deadline, each attempt asked to be
    retried with the error of [es] and was followed by a sleep; [w'] is the
    world after the last sleep. *)
Inductive retries t (deadline interval : Z) : list error → W → W → Prop :=
  | retries_nil w : retries t deadline interval [] w w
  | retries_cons w w1 w2 e es :
      now w < deadline →
      t w = (Ok (Retry e), w1) →
      retries t deadline interval es (sleep interval w1) w2 →
      retries t deadline interval (e :: es) w w2.

(** How a run of the engine ends. *)
Inductive retry_ends t (deadline interval : Z) (w : W) : outcome A → W → Prop :=
  | ends_done es w1 out w2 :
      retries t deadline interval es w w1 → now w1 < deadline →
      t w1 = (Ok (Done out), w2) → retry_ends t deadline interval w (Ok out) w2
  | ends_stop es w1 err w2 :
      retries t deadline interval es w w1 → now w1 < deadline →
      t w1 = (Ok (Stop err), w2) → err ≠ DeadlineExceeded →
      retry_ends t deadline interval w (Err err) w2
  | ends_stop_deadline es w1 w2 :
      retries t deadline interval es w w1 → now w1 < deadline →
      t w1 = (Ok (Stop DeadlineExceeded), w2) →
      retry_ends t deadline interval w (Err (ErrTimedOut (timeout_reason (Error <$> es)))) w2
  | ends_timeout es w1 :
      retries t deadline interval es w w1 → deadline <= now w1 →
      retry_ends t deadline interval w (Err (ErrTimedOut (timeout_reason (Error <$> es)))) w1.

(** A task that answers with one of its three returns and does not turn the
    clock back. *)
Definition well_behaved t : Prop :=
  ∀ w, ∃ r w', t w = (Ok r, w') ∧ now w <= now w'.

Lemma retries_snoc t d i es w w1 e w2 :
  retries t d i es w w1 → now w1 < d → t w1 = (Ok (Retry e), w2) →
  retries t d i (es ++ [e]) w (sleep i w2).
Proof. induction 1; intros; simpl; econstructor; eauto. constructor. Qed.

(** Every retry costs at least one interval. *)
Lemma retries_time `{!ClockLaws W} t d i es w w1 :
  well_behaved t → 0 <= i → retries t d i es w w1 →
  now w + Z.of_nat (length es) * i <= now w1.
Proof.
  intros Hwb Hi. induction 1 as [w|w w1 w2 e es Hlt Ht Hr IH]; [simpl; lia|].
  destruct (Hwb w) as (r & w' & Ht' & Hmono). rewrite Ht in Ht'. simplify_eq.
  pose proof (now_sleep i w'). simpl length. lia.
Qed.

Lemma retry_goroutine_S fuel t d i errs w :
  retry_goroutine (S fuel) t d i errs w =
  if decide (d <= now w) then (Ok (errs, inr DeadlineExceeded), w)
  else match t w with
       | (Ok (Done out), w') => (Ok (errs, inl out), w')
       | (Ok (Retry err), w') => retry_goroutine fuel t d i (errs ++ [Error err]) (sleep i w')
       | (Ok (Stop err), w') => (Ok (errs, inr err), w')
       | (Err e, w') => (Err e, w')
       | (Panic s, w') => (Panic s, w')
       | (Diverge, w') => (Diverge, w')
       end.
Proof. done. Qed.

(** The goroutine follows the retries already made, as long as fuel is left. *)
Lemma retry_goroutine_retries t d i es w w1 fuel errs :
  retries t d i es w w1 →
  retry_goroutine (length es + fuel) t d i errs w =
  retry_goroutine fuel t d i (errs ++ (Error <$> es)) w1.
Proof.
  intros Hr. revert errs. induction Hr as [w|w w1 w2 e es Hlt Ht Hr IH]; intros errs.
  - simpl. by rewrite app_nil_r.
  - change (length (e :: es) + fuel)%nat with (S (length es + fuel)).
    rewrite retry_goroutine_S, decide_False by lia. rewrite Ht, IH. simpl.
    by rewrite <- app_assoc.
Qed.

Lemma retry_reaches_end `{!ClockLaws W} t d i fuel w :
  well_behaved t → 0 < i → d - now w < Z.of_nat fuel * i →
  ∃ es w1, retries t d i es w w1 ∧ (length es <= fuel)%nat ∧
    (d <= now w1 ∨ (now w1 < d ∧ ∃ r w2, t w1 = (Ok r, w2) ∧
      match r with Retry _ => False | _ => True end)).
Proof.
  intros Hwb Hi. revert w. induction fuel as [|fuel IH]; intros w Hf.
  - exists [], w. split; [constructor|]. split; [simpl; lia|]. left. lia.
  - destruct (decide (d <= now w)) as [Hd|Hd].
    { exists [], w. split; [constructor|]. split; [simpl; lia|]. by left. }
    destruct (Hwb w) as (r & w' & Ht & Hmono). destruct r as [out|e|e].
    + exists [], w. split; [constructor|]. split; [simpl; lia|]. right. split; [lia|by do 2 eexists].
    + destruct (IH (sleep i w')) as (es & w1 & Hr & Hl & Hend).
      { pose proof (now_sleep i w'). lia. }
      exists (e :: es), w1. split; [econstructor; eauto; lia|]. split; [simpl; lia|done].
    + exists [], w. split; [constructor|]. split; [simpl; lia|]. right. split; [lia|by do 2 eexists].
Qed.

Lemma retries_length `{!ClockLaws W} t d i es w w1 :
  well_behaved t → 0 < i → retries t d i es w w1 →
  es = [] ∨ (Z.of_nat (length es) - 1) * i < d - now w.
Proof.
  intros Hwb Hi. induction 1 as [w|w w1 w2 e es Hlt Ht Hr IH]; [by left|right].
  destruct (Hwb w) as (r & w' & Ht' & Hmono). rewrite Ht in Ht'. simplify_eq.
  pose proof (now_sleep i w'). simpl length.
  destruct IH as [->|IH]; simpl; lia.
Qed.

(** The fuel of [DoRetryWithTimeout] covers every sequence of retries and the
    attempt after it. *)
Lemma retry_fuel_enough `{!ClockLaws W} t timeout i es w w1 :
  well_behaved t → 0 < i → retries t (now w + timeout) i es w w1 →
  ∃ k, retry_fuel timeout i = (length es + S k)%nat.
Proof.
  intros Hwb Hi Hr. destruct (retries_length _ _ _ _ _ _ Hwb Hi Hr) as [->|Hl].
  - exists (S (Z.to_nat (timeout / i))). done.
  - assert (Z.of_nat (length es) - 1 <= timeout / i).
    { apply Z.div_le_lower_bound; lia. }
    exists (S (Z.to_nat (timeout / i)) - length es)%nat. unfold retry_fuel. lia.
Qed.

Lemma DoRetryWithTimeout_of_ends `{!ClockLaws W} t timeout i w o w' :
  well_behaved t → 0 < i → retry_ends t (now w + timeout) i w o w' →
  DoRetryWithTimeout t timeout i w = (o, w').
Proof.
  intros Hwb Hi He. unfold DoRetryWithTimeout.
  inversion He as [es w1 out w2 Hr Hlt Ht|es w1 err w2 Hr Hlt Ht Hne|es w1 w2 Hr Hlt Ht
    |es w1 Hr Hle]; subst;
    destruct (retry_fuel_enough _ _ _ _ _ _ Hwb Hi Hr) as [k ->];
    rewrite (retry_goroutine_retries _ _ _ _ _ _ _ _ Hr), retry_goroutine_S.
  - by rewrite decide_False, Ht by lia.
  - rewrite decide_False, Ht by lia. by destruct err.
  - by rewrite decide_False, Ht by lia.
  - by rewrite decide_True by lia.
Qed.

Lemma retry_ends_total `{!ClockLaws W} t timeout i w :
  well_behaved t → 0 < i → ∃ o w', retry_ends t (now w + timeout) i w o w'.
Proof.
  intros Hwb Hi.
  destruct (retry_reaches_end t (now w + timeout) i (S (Z.to_nat (timeout / i))) w Hwb Hi)
    as (es & w1 & Hr & _ & [Hd|(Hlt & r & w2 & Ht & Hr')]).
  - pose proof (Z.mul_succ_div_gt timeout i Hi).
    destruct (decide (0 <= timeout / i)); [rewrite Nat2Z.inj_succ, Z2Nat.id by lia|]; nia.
  - do 2 eexists. by eapply ends_timeout.
  - destruct r as [out|e|e]; [|done|].
    + do 2 eexists. by eapply ends_done.
    + destruct (decide (e = DeadlineExceeded)) as [->|].
      * do 2 eexists. by eapply ends_stop_deadline.
      * do 2 eexists. by eapply ends_stop.
Qed.

(** C1. [DoRetryWithTimeout] refines the declarative description of a bounded
    retry: it returns [o] and leaves the world [w'] exactly when the task was
    retried some number of times before the deadline and then either
    succeeded, stopped with an error, or met the deadline, in which case the
    error lists the messages of all retries in order. *)
Theorem DoRetryWithTimeout_spec `{!ClockLaws W} t timeout i w o w' :
  well_behaved t → 0 < i →
  DoRetryWithTimeout t timeout i w = (o, w') ↔ retry_ends t (now w + timeout) i w o w'.
Proof.
  intros Hwb Hi. split; [|by apply DoRetryWithTimeout_of_ends].
  destruct (retry_ends_total t timeout i w Hwb Hi) as (o1 & w1 & He).
  rewrite (DoRetryWithTimeout_of_ends _ _ _ _ _ _ Hwb Hi He). by intros [= <- <-].
Qed.

(** A task that is done from the time [T] on, may ask to be retried before, and
    takes at most [c] for an attempt *)
Definition done_from (T c : Z) t : Prop :=
  ∀ w, ∃ r w', t w = (Ok r, w') ∧ now w <= now w' <= now w + c ∧
    ((∃ out, r = Done out) ∨ (∃ e, r = Retry e) ∧ now w < T).

Lemma done_from_well_behaved T c t : done_from T c t → well_behaved t.
Proof. intros Ht w. destruct (Ht w) as (r & w' & Hw & Hc & _). exists r, w'. split; [done|lia]. Qed.

(** The machine wakes up at most [s] late. *)
Definition wakes_within (s : Z) : Prop := ∀ d w, now (sleep d w) <= now w + Z.max 0 d + s.

(** After a retry it is at most [T], an attempt, an interval and the lateness. *)
Lemma retries_before T c s t d i es w w1 :
  done_from T c t → wakes_within s → 0 <= i → retries t d i es w w1 → now w1 = now w ∨ now w1 < T + c + i + s.
Proof.
  intros Ht Hs Hi. induction 1 as [w|w w1 w2 e es Hlt Hr Hrs IH]; [by left|right].
  destruct (Ht w) as (r & w' & Hw & Hc & Hr'). rewrite Hr in Hw. simplify_eq.
  destruct Hr' as [[out Ho]|[_ HT]]; [done|]. destruct IH as [->|IH]; [|done].
  specialize (Hs i w'). lia.
Qed.

(** The engine makes progress on a machine that wakes up in time: a task that is done
    from some time on, and until then only asks to be retried, is reported done when
    there is time left for one more attempt and one more pause after that moment. *)
Theorem DoRetryWithTimeout_eventually `{!ClockLaws W} t timeout i T c s w :
  done_from T c t → wakes_within s → 0 < i → 0 < timeout → T + c + i + s <= now w + timeout →
  ∃ out w', DoRetryWithTimeout t timeout i w = (Ok out, w').
Proof.
  intros Ht Hs Hi Hto HT. pose proof (done_from_well_behaved _ _ _ Ht) as Hwb.
  destruct (retry_ends_total t timeout i w Hwb Hi) as (o & w' & He).
  pose proof (DoRetryWithTimeout_of_ends _ _ _ _ _ _ Hwb Hi He) as Hrun.
  inversion He as [es w1 out w2 Hr Hlt Hd|es w1 err w2 Hr Hlt Hd Hne|es w1 w2 Hr Hlt Hd|es w1 Hr Hle]; subst.
  - by exists out, w'.
  - destruct (Ht w1) as (r & w3 & Hw & _ & [[? ->]|[[? ->] _]]); by rewrite Hd in Hw.
  - destruct (Ht w1) as (r & w3 & Hw & _ & [[? ->]|[[? ->] _]]); by rewrite Hd in Hw.
  - destruct (retries_before _ _ _ _ _ _ _ _ _ Ht Hs (Z.lt_le_incl _ _ Hi) Hr); lia.
Qed.
End retry.

(** *** The attempts of a run *)

Section counted.
Context {W : Type} `{ClockLaws W} {A : Type}.
Implicit Types (t : M W (task_result A)).

(** The task, with a variable that counts its calls *)
Definition counting t : M (W * nat) (task_result A) := λ wn,
  let '(r, w') := t wn.1 in (r, (w', S wn.2)).

Lemma counting_well_behaved t : well_behaved t → well_behaved (counting t).
Proof.
  intros Ht [w n]. destruct (Ht w) as (r & w' & Hw & Hn). exists r, (w', S n). unfold counting. simpl. by rewrite Hw.
Qed.

Lemma counting_retries t d i es w w1 n :
  retries t d i es w w1 → retries (counting t) d i es (w, n) (w1, n + length es)%nat.
Proof.
  intros Hr. revert n. induction Hr as [w|w w1 w2 e es Hn Ht Hr IH]; intros n.
  - rewrite Nat.add_0_r. constructor.
  - apply retries_cons with (w1 := (w1, S n)); [done|unfold counting; simpl; by rewrite Ht|].
    simpl. rewrite Nat.add_succ_r. apply (IH (S n)).
Qed.

(** The number of attempts of a run that ends so *)
Lemma counting_ends t d i w o w' :
  well_behaved t → 0 < i → retry_ends t d i w o w' →
  ∃ n, retry_ends (counting t) d i (w, 0%nat) o (w', n) ∧ Z.of_nat n <= Z.max 0 ((d - now w - 1) / i + 1).
Proof.
  intros Hwb Hi He.
  assert (∀ n : nat, n = 0%nat ∨ (Z.of_nat n - 1) * i < d - now w → Z.of_nat n <= Z.max 0 ((d - now w - 1) / i + 1)) as Hb.
  { intros n [->|Hn]; [lia|]. assert (Z.of_nat n - 1 <= (d - now w - 1) / i) by (apply Z.div_le_lower_bound; lia). lia. }
  assert (∀ w1 w2 r, t w1 = (Ok r, w2) → ∀ n, counting t (w1, n) = (Ok r, (w2, S n))) as Hc
    by (intros w1 w2 r Ht n; unfold counting; simpl; by rewrite Ht).
  assert (∀ es w1, retries t d i es w w1 → now w1 < d → (Z.of_nat (S (length es)) - 1) * i < d - now w) as Hlast.
  { intros es w1 Hr Hlt. pose proof (retries_time _ _ _ _ _ _ Hwb (Z.lt_le_incl _ _ Hi) Hr). lia. }
  destruct He as [es w1 out w2 Hr Hlt Ht|es w1 err w2 Hr Hlt Ht Hne|es w1 w2 Hr Hlt Ht|es w1 Hr Hle];
    pose proof (counting_retries _ _ _ _ _ _ 0 Hr) as Hcr.
  - exists (S (length es)). split; [|apply Hb; eauto]. eapply ends_done; [exact Hcr|done|by apply Hc].
  - exists (S (length es)). split; [|apply Hb; eauto]. eapply ends_stop; [exact Hcr|done|by apply Hc|done].
  - exists (S (length es)). split; [|apply Hb; eauto]. eapply ends_stop_deadline; [exact Hcr|done|by apply Hc].
  - exists (length es). split; [|apply Hb; destruct (retries_length _ _ _ _ _ _ Hwb Hi Hr) as [->|]; [by left|by right]].
    by eapply ends_timeout; [exact Hcr|].
Qed.

(** C2. The engine terminates: for every task that answers, every timeout and every
    positive interval the run returns a result or an error, it does not panic and does
    not run on, and it calls the task at most once for every interval that begins
    before the timeout - not at all when the timeout is not positive. *)
Theorem DoRetryWithTimeout_terminates t timeout i w :
  well_behaved t → 0 < i →
  ∃ o w' n, DoRetryWithTimeout (counting t) timeout i (w, 0%nat) = (o, (w', n)) ∧
    DoRetryWithTimeout t timeout i w = (o, w') ∧
    match o with Ok _ | Err _ => True | _ => False end ∧
    Z.of_nat n <= Z.max 0 ((timeout - 1) / i + 1).
Proof.
  intros Hwb Hi. destruct (retry_ends_total t timeout i w Hwb Hi) as (o & w' & He).
  destruct (counting_ends _ _ _ _ _ _ Hwb Hi He) as (n & Hn & Hb). exists o, w', n. split_and!.
  - by apply (DoRetryWithTimeout_of_ends _ _ _ (w, 0%nat)); [apply counting_well_behaved| |].
  - by apply DoRetryWithTimeout_of_ends.
  - by destruct He.
  - by replace (timeout - 1) with (now w + timeout - now w - 1) by lia.
Qed.
End counted.

(** A success of the engine is a success of one attempt of the task, before the
    deadline and after attempts that all asked to be retried, whatever the clock
    does. *)
Lemma retry_goroutine_inl {W} `{Clock W} {A} fuel (t : M W (task_result A)) d i errs w errs' out w' :
  retry_goroutine fuel t d i errs w = (Ok (errs', inl out), w') →
  ∃ es w1, retries t d i es w w1 ∧ now w1 < d ∧ t w1 = (Ok (Done out), w').
Proof.
  revert errs w. induction fuel as [|fuel IH]; intros errs w; [done|].
  rewrite retry_goroutine_S. case_decide as Hd; [done|].
  destruct (t w) as [[[out'|e|e]|e|s|] w1] eqn:E; intros Hg; simplify_eq.
  - exists [], w. split_and!; [constructor|lia|done].
  - apply IH in Hg as (es & w2 & Hr & Hn & Ht). exists (e :: es), w2.
    split_and!; [econstructor; eauto; lia|done..].
Qed.

Lemma DoRetryWithTimeout_Ok_retries {W} `{Clock W} {A} (t : M W (task_result A)) timeout i w out w' :
  DoRetryWithTimeout t timeout i w = (Ok out, w') →
  ∃ es w1, retries t (now w + timeout) i es w w1 ∧ now w1 < now w + timeout ∧ t w1 = (Ok (Done out), w').
Proof.
  unfold DoRetryWithTimeout.
  destruct (retry_goroutine _ _ _ _ _ _) as [[[errs [r|e]]|e|s|] w1] eqn:E;
    intros Hr; try (destruct e); simplify_eq.
  by eapply retry_goroutine_inl.
Qed.

Lemma retries_keeps {W} `{Clock W} {A} (I : W → Prop) (t : M W (task_result A)) d i es w w1 :
  preserves I t → (∀ d w, I w → I (sleep d w)) → retries t d i es w w1 → I w → I w1.
Proof.
  intros Ht Hs. induction 1 as [|w w1 w2 e es Hn Hx Hr IH]; intros Hw; [done|].
  apply IH, Hs. specialize (Ht w Hw). by rewrite Hx in Ht.
Qed.

Lemma DoRetryWithTimeout_Ok_keeps {W} `{Clock W} {A} (I : W → Prop) (t : M W (task_result A)) timeout i w out w' :
  preserves I t → (∀ d w, I w → I (sleep d w)) → I w →
  DoRetryWithTimeout t timeout i w = (Ok out, w') → ∃ w1, I w1 ∧ t w1 = (Ok (Done out), w').
Proof.
  intros Ht Hs Hw (es & w1 & Hr & _ & Hd)%DoRetryWithTimeout_Ok_retries.
  exists w1. split; [by eapply retries_keeps|done].
Qed.

Lemma DoRetryWithTimeout_Ok_inv {W} `{Clock W} {A} (t : M W (task_result A)) timeout i w out w' :
  DoRetryWithTimeout t timeout i w = (Ok out, w') → ∃ w1, t w1 = (Ok (Done out), w').
Proof.
  intros (es & w1 & _ & _ & Hd)%DoRetryWithTimeout_Ok_retries. by exists w1.
Qed.

(** A task that succeeds at the first attempt is not tried again. *)
Lemma DoRetryWithTimeout_first {W} `{Clock W} {A} (t : M W (task_result A)) timeout i w out w' :
  0 < timeout → t w = (Ok (Done out), w') → DoRetryWithTimeout t timeout i w = (Ok out, w').
Proof.
  intros Ht Hd. unfold DoRetryWithTimeout, retry_fuel. rewrite retry_goroutine_S.
  rewrite decide_False by lia. by rewrite Hd.
Qed.

Lemma monotone_DoRetry {W} `{ClockLaws W} {A} (t : M W (task_result A)) timeout i :
  monotone t → monotone (DoRetryWithTimeout t timeout i).
Proof.
  intros Ht w. unfold DoRetryWithTimeout.
  enough (∀ fuel d errs w, now w <= now (retry_goroutine fuel t d i errs w).2) as Hg.
  { specialize (Hg (retry_fuel timeout i) (now w + timeout) [] w).
    by destruct (retry_goroutine _ _ _ _ _ _) as [[[errs [r|[]]]|e|s|] w1]. }
  clear w timeout. induction fuel as [|fuel IH]; intros d errs w; [simpl; lia|].
  rewrite retry_goroutine_S. case_decide; [simpl; lia|].
  specialize (Ht w). destruct (t w) as [[[out|e|e]|e|s|] w1]; simpl in *; try done.
  specialize (IH d (errs ++ [Error e]) (sleep i w1)). pose proof (now_sleep_max i w1). lia.
Qed.

Lemma preserves_DoRetry {W} `{Clock W} {A} (I : W → Prop) (t : M W (task_result A)) timeout i :
  preserves I t → (∀ d w, I w → I (sleep d w)) → preserves I (DoRetryWithTimeout t timeout i).
Proof.
  intros Ht Hs w Hw. unfold DoRetryWithTimeout.
  enough (∀ fuel d errs w, I w → I (retry_goroutine fuel t d i errs w).2) as Hg.
  { specialize (Hg (retry_fuel timeout i) (now w + timeout) [] w Hw).
    by destruct (retry_goroutine _ _ _ _ _ _) as [[[errs [r|[]]]|e|s|] w1]. }
  clear w Hw timeout. induction fuel as [|fuel IH]; intros d errs w Hw; [done|].
  rewrite retry_goroutine_S. case_decide; [done|].
  specialize (Ht w Hw). destruct (t w) as [[[out|e|e]|e|s|] w1]; simpl in *; try done.
  apply IH, Hs, Ht.
Qed.

Lemma ensures_DoRetry {W} `{Clock W} {A} (I : W → Prop) (t : M W (task_result A)) timeout i (Q : A → Prop) :
  ensures I t (λ r, ∀ out, r = Done out → Q out) → (∀ d w, I w → I (sleep d w)) →
  ensures I (DoRetryWithTimeout t timeout i) Q.
Proof.
  intros Ht Hs w Hw. pose proof (ensures_preserves I t _ Ht) as Hp.
  split; [by apply preserves_DoRetry|]. intros a Ha.
  destruct (DoRetryWithTimeout t timeout i w) as [r w'] eqn:E. simpl in Ha. subst r.
  apply (DoRetryWithTimeout_Ok_keeps I) in E as (w1 & Hw1 & Hd); [|done..].
  destruct (Ht w1 Hw1) as [_ Hq]. rewrite Hd in Hq. by eapply Hq.
Qed.

(** Where an error of the engine comes from: a time-out, an attempt that asked not to be
    retried, or a call that failed inside of the task. *)
Lemma DoRetryWithTimeout_Err_inv {W} `{Clock W} {A} (t : M W (task_result A)) timeout i w e w' :
  DoRetryWithTimeout t timeout i w = (Err e, w') →
  (∃ reason, e = ErrTimedOut reason) ∨ ∃ w1, t w1 = (Ok (Stop e), w') ∨ t w1 = (Err e, w').
Proof.
  unfold DoRetryWithTimeout. intros Hd.
  assert (∀ fuel d errs w o w', retry_goroutine fuel t d i errs w = (o, w') →
    match o with
    | Ok (_, inr e) => e = DeadlineExceeded ∨ ∃ w1, t w1 = (Ok (Stop e), w')
    | Err e => ∃ w1, t w1 = (Err e, w')
    | _ => True
    end) as Hg.
  { clear. induction fuel as [|fuel IH]; intros d errs w o w'; [simpl; intros; by simplify_eq|].
    rewrite retry_goroutine_S. case_decide; [intros; simplify_eq; by left|].
    destruct (t w) as [[[out|e|e]|e|s|] w1] eqn:E; intros Ho; simplify_eq; eauto. by apply IH in Ho. }
  destruct (retry_goroutine _ _ _ _ _ _) as [[[errs [r|e1]]|e1|s|] w1] eqn:E; simplify_eq; apply Hg in E.
  - destruct e1; simplify_eq; first [by left; eexists | destruct E as [?|[w2 ?]]; [done|right; exists w2; by left]].
  - destruct E as [w2 ?]. right. exists w2. by right.
Qed.

Ltac preserve_extra ::=
  match goal with
  | |- preserves _ (DoRetryWithTimeout _ _ _) =>
      apply preserves_DoRetry; [|solve [intros; eauto with torpedo]]
  end.

(** ** drivers/api/api.go: PerformTask *)

Module TriggerApi.

(** [TriggerOptions]; the callback is a call that answers whether the action
    may be performed. *)
Record TriggerOptions (W : Type) := {
  TriggerCb : M W bool;
  TriggerCheckInterval : Z;
  TriggerCheckTimeout : Z;
  BlockForTrigger : bool;
}.
Arguments TriggerCb {W} _.
Arguments TriggerCheckInterval {W} _.
Arguments TriggerCheckTimeout {W} _.
Arguments BlockForTrigger {W} _.

Definition defaultTriggerCheckInterval : Z := 5 * Second.
Definition defaultTriggerCheckTimeout : Z := 5 * Minute.

(** The periodic scheduler of openstorage ([sched.Instance().Schedule]): a
    callback without error result is handed over to it. *)
Class BackgroundScheduler (W : Type) := {
  schedule : M W unit → M W unit;
}.

Section perform_task.
Context {W : Type} `{Clock W} `{BackgroundScheduler W}.

(** The two assignments at the start of the closure [f]. *)
Definition with_defaults (opts : TriggerOptions W) : TriggerOptions W :=
  {| TriggerCb := TriggerCb opts;
     TriggerCheckInterval :=
       if decide (TriggerCheckInterval opts = 0) then defaultTriggerCheckInterval
       else TriggerCheckInterval opts;
     TriggerCheckTimeout :=
       if decide (TriggerCheckTimeout opts = 0) then defaultTriggerCheckTimeout
       else TriggerCheckTimeout opts;
     BlockForTrigger := BlockForTrigger opts |}.

(** [userTaskWithTriggerChecks] *)
Definition userTaskWithTriggerChecks (userTask : M W unit) (opts : TriggerOptions W)
    : M W (task_result bool) :=
  attempt (TriggerCb opts) (λ r,
    match r with
    | inr err => mret (Stop err)
    | inl true =>
        attempt userTask (λ r',
          match r' with
          | inl _ => mret (Done true)
          | inr err => mret (Stop err)
          end)
    | inl false => mret (Retry (Errorf "PerformTask: trigger check has not been met yet"))
    end).

(** The closure [f]: run the checked task under the retry engine and classify
    the error.  [DoRetryWithTimeout] returns a nil result with every error, so
    [triggered] is [None] in the error branch. *)
Definition perform_sync (userTask : M W unit) (opts0 : TriggerOptions W) : M W unit :=
  let opts := with_defaults opts0 in
  attempt (DoRetryWithTimeout (userTaskWithTriggerChecks userTask opts)
             (TriggerCheckTimeout opts) (TriggerCheckInterval opts)) (λ r,
    match r with
    | inl _ => mret tt
    | inr err =>
        let triggered : option bool := None in
        match triggered with
        | None =>
            match err with
            | ErrTimedOut _ =>
                throw (ErrOperationNotPerformed "Task" "PerformTask: Trigger checks did not pass")
            | _ =>
                throw (ErrOperationNotPerformed "Task"
                  ("PerformTask:Trigger checks could not be performed: " +:+ Error err))
            end
        | Some _ => throw err
        end
    end).

(** [PerformTask(userTask, opts)]: without options the task runs at once; the
    asynchronous path hands [f] to the background scheduler, which only logs
    its error. *)
Definition PerformTask (userTask : M W unit) (opts : option (TriggerOptions W)) : M W unit :=
  match opts with
  | None => userTask
  | Some opts =>
      if BlockForTrigger opts then perform_sync userTask opts
      else schedule (attempt (perform_sync userTask opts) (λ _, mret tt))
  end.

(** The task ran: a check answered true and the task followed it at once. *)
Definition task_ran (userTask : M W unit) (cb : M W bool) (res : outcome unit) (w' : W) : Prop :=
  ∃ w1 w2, cb w1 = (Ok true, w2) ∧ userTask w2 = (res, w').

Lemma checks_Done userTask opts w b w' :
  userTaskWithTriggerChecks userTask opts w = (Ok (Done b), w') →
  b = true ∧ task_ran userTask (TriggerCb opts) (Ok tt) w'.
Proof.
  unfold userTaskWithTriggerChecks, attempt, task_ran. intros Hd.
  destruct (TriggerCb opts w) as [[[]|e|s|] w1] eqn:Hcb; unfold_m; simplify_eq.
  destruct (userTask w1) as [[[]|e|s|] w2] eqn:Hu; simplify_eq. eauto.
Qed.

(** C28. A blocking [PerformTask] that returns no error has run the user task,
    successfully, right after a trigger check that answered true. *)
Theorem PerformTask_success userTask opts w w' :
  BlockForTrigger opts = true →
  PerformTask userTask (Some opts) w = (Ok tt, w') →
  task_ran userTask (TriggerCb opts) (Ok tt) w'.
Proof.
  intros Hb. unfold PerformTask, perform_sync, attempt. rewrite Hb.
  destruct (DoRetryWithTimeout _ _ _ w) as [[b|e|s|] w1] eqn:E; unfold_m; intros Hr;
    try (destruct e); simplify_eq.
  apply DoRetryWithTimeout_Ok_inv in E as [w1 Hd]. by apply checks_Done in Hd as [_ ?].
Qed.

(** The trigger check and the user task answer and do not turn the clock back. *)
Definition calm (userTask : M W unit) (opts : TriggerOptions W) : Prop :=
  (∀ w, ∃ o w', TriggerCb opts w = (o, w') ∧ now w <= now w' ∧
     match o with Ok _ | Err _ => True | _ => False end) ∧
  (∀ w, ∃ o w', userTask w = (o, w') ∧ now w <= now w' ∧
     match o with Ok _ | Err _ => True | _ => False end).

Lemma calm_well_behaved userTask opts :
  calm userTask opts → well_behaved (userTaskWithTriggerChecks userTask (with_defaults opts)).
Proof.
  intros [Hcb Hu] w. unfold userTaskWithTriggerChecks, attempt, with_defaults; simpl.
  destruct (Hcb w) as (o & w1 & -> & Hle & Ho). destruct o as [[]|e|s|]; try done; unfold_m.
  - destruct (Hu w1) as (o & w2 & -> & Hle' & Ho'). destruct o as [[]|e|s|]; try done; unfold_m.
    + do 2 eexists. split; [done|lia].
    + do 2 eexists. split; [done|lia].
  - by do 2 eexists.
  - by do 2 eexists.
Qed.

(** When the trigger holds at once, the task is run exactly then, but an
    error of the task itself is not returned: the caller sees
    [ErrOperationNotPerformed] with the text of a failed trigger check. *)
Theorem PerformTask_hides_task_error `{!ClockLaws W} userTask opts w w1 w2 e :
  BlockForTrigger opts = true → calm userTask opts →
  0 < TriggerCheckTimeout opts → 0 < TriggerCheckInterval opts →
  TriggerCb opts w = (Ok true, w1) → userTask w1 = (Err e, w2) → e ≠ DeadlineExceeded →
  (∀ r, e ≠ ErrTimedOut r) →
  PerformTask userTask (Some opts) w =
    (Err (ErrOperationNotPerformed "Task"
       ("PerformTask:Trigger checks could not be performed: " +:+ Error e)), w2).
Proof.
  intros Hb Hcalm Ht Hi Hcb Hu Hne Hnt.
  unfold PerformTask. rewrite Hb. unfold perform_sync, attempt.
  assert (DoRetryWithTimeout (userTaskWithTriggerChecks userTask (with_defaults opts))
    (TriggerCheckTimeout (with_defaults opts)) (TriggerCheckInterval (with_defaults opts)) w
    = (Err e, w2)) as ->.
  { apply DoRetryWithTimeout_of_ends.
    - by apply calm_well_behaved.
    - simpl. rewrite decide_False by lia. lia.
    - eapply (ends_stop _ _ _ _ [] w); [constructor| | |done].
      + simpl. rewrite decide_False by lia. lia.
      + unfold userTaskWithTriggerChecks, attempt; simpl. by rewrite Hcb, Hu. }
  destruct e; try done. by destruct (Hnt Reason).
Qed.

Lemma retries_ext {A} (t t' : M W (task_result A)) d i es w w1 :
  (∀ w, t w = t' w) → retries t d i es w w1 → retries t' d i es w w1.
Proof. intros He. induction 1; econstructor; eauto. by rewrite <- He. Qed.

(** When the trigger check never answers true, [PerformTask] gives up once
    the timeout (or the default of five minutes) has passed, with the error
    that says so, and the user task has no influence: the world is the same
    for every task. *)
Theorem PerformTask_never_triggered `{!ClockLaws W} opts w :
  BlockForTrigger opts = true → 0 <= TriggerCheckInterval opts →
  (∀ w, ∃ w', TriggerCb opts w = (Ok false, w') ∧ now w <= now w') →
  ∃ w1, now w + TriggerCheckTimeout (with_defaults opts) <= now w1 ∧
    ∀ userTask, PerformTask userTask (Some opts) w =
      (Err (ErrOperationNotPerformed "Task" "PerformTask: Trigger checks did not pass"), w1).
Proof.
  intros Hb Hi Hcb. set (opts' := with_defaults opts).
  set (t := λ u, userTaskWithTriggerChecks u opts').
  assert (0 < TriggerCheckInterval opts') as Hi'.
  { simpl. unfold defaultTriggerCheckInterval, Second. case_decide; lia. }
  assert (∀ u w, ∃ w', TriggerCb opts w = (Ok false, w') ∧ now w <= now w' ∧ t u w =
    (Ok (Retry (Errorf "PerformTask: trigger check has not been met yet")), w')) as Hretry.
  { intros u w0. destruct (Hcb w0) as (w' & Hf & Hle). exists w'. split; [done|]. split; [done|].
    unfold t, userTaskWithTriggerChecks, attempt; simpl. by rewrite Hf. }
  assert (∀ u, well_behaved (t u)) as Hwb.
  { intros u w0. destruct (Hretry u w0) as (w' & _ & Hle & ->). by do 2 eexists. }
  assert (∀ u u' w, t u w = t u' w) as Hext.
  { intros u u' w0. destruct (Hretry u w0) as (w' & Hf & _ & ->).
    destruct (Hretry u' w0) as (w'' & Hf' & _ & ->). congruence. }
  destruct (retry_ends_total (t (mret tt)) (TriggerCheckTimeout opts') _ w (Hwb _) Hi')
    as (o & w' & He).
  inversion He as [es w1 out w2 Hr Hlt Ht|es w1 err w2 Hr Hlt Ht Hne|es w1 w2 Hr Hlt Ht
    |es w1 Hr Hle]; subst;
    try (destruct (Hretry (mret tt) w1) as (w1' & _ & _ & Ht'); rewrite Ht in Ht'; done).
  exists w'. split; [done|]. intros u.
  unfold PerformTask. rewrite Hb. unfold perform_sync, attempt. fold opts'.
  fold (t u). by rewrite (DoRetryWithTimeout_of_ends _ _ _ _ _ _ (Hwb u) Hi'
    (ends_timeout _ _ _ _ _ _ (retries_ext _ _ _ _ _ _ _ (Hext _ u) Hr) Hle)).
Qed.
End perform_task.
End TriggerApi.

(** ** A world with nothing but a clock, for concrete runs *)

Module ClockWorld.

#[export] Instance clock_Z : Clock Z := { now := λ w, w; sleep := λ d w, w + Z.max 0 d }.

#[export] Instance clock_Z_laws : ClockLaws Z.
Proof. constructor. intros d w. simpl. lia. Qed.

#[export] Instance background_Z : TriggerApi.BackgroundScheduler Z :=
  { TriggerApi.schedule := λ m w, m w }.

(** A task that starts to succeed at 20 seconds. *)
Definition ready_at_20s : M Z (task_result Z) := λ w,
  if decide (20 * Second <= w) then (Ok (Done 7), w) else (Ok (Retry (Errorf "not yet")), w).

Lemma ready_at_20s_ok : well_behaved ready_at_20s.
Proof. intros w. unfold ready_at_20s.
  case_decide; do 2 eexists; (split; [reflexivity|apply Z.le_refl]). Qed.

Lemma DoRetryWithTimeout_spec_witness :
  DoRetryWithTimeout ready_at_20s Minute (10 * Second) 0 = (Ok 7, 20 * Second) ∧
  retry_ends ready_at_20s (now (0 : Z) + Minute) (10 * Second) 0 (Ok 7) (20 * Second).
Proof.
  split; [vm_compute; reflexivity|].
  apply (DoRetryWithTimeout_spec ready_at_20s Minute (10 * Second) 0 (Ok 7) (20 * Second)).
  - apply ready_at_20s_ok.
  - vm_compute. reflexivity.
  - vm_compute. reflexivity.
Defined.

Lemma ready_at_20s_from : done_from (20 * Second) 0 ready_at_20s.
Proof.
  intros w. unfold ready_at_20s. case_decide as Hd; do 2 eexists; (split; [reflexivity|]); simpl;
    (split; [lia|]); [by left; eexists|right; split; [by eexists|lia]].
Qed.

Lemma DoRetryWithTimeout_eventually_witness :
  ∃ out w', DoRetryWithTimeout ready_at_20s (30 * Second) (10 * Second) 0 = (Ok out, w').
Proof.
  apply (DoRetryWithTimeout_eventually ready_at_20s (30 * Second) (10 * Second) (20 * Second) 0 0 0).
  - apply ready_at_20s_from.
  - intros d w. simpl. lia.
  - vm_compute. reflexivity.
  - vm_compute. reflexivity.
  - vm_compute. discriminate.
Defined.

Lemma DoRetryWithTimeout_terminates_witness :
  ∃ o w' n, DoRetryWithTimeout (counting ready_at_20s) (15 * Second) (10 * Second) (0, 0%nat) = (o, (w', n)) ∧
    DoRetryWithTimeout ready_at_20s (15 * Second) (10 * Second) 0 = (o, w') ∧
    match o with Ok _ | Err _ => True | _ => False end ∧
    Z.of_nat n <= Z.max 0 ((15 * Second - 1) / (10 * Second) + 1).
Proof.
  apply (DoRetryWithTimeout_terminates ready_at_20s (15 * Second) (10 * Second) 0).
  - apply ready_at_20s_ok.
  - vm_compute. reflexivity.
Defined.

(** Trigger options whose check passes from a given instant on. *)
Definition trigger_from (instant : Z) : TriggerApi.TriggerOptions Z :=
  {| TriggerApi.TriggerCb := λ w, (Ok (bool_decide (instant <= w)), w);
     TriggerApi.TriggerCheckInterval := 5 * Second;
     TriggerApi.TriggerCheckTimeout := Minute;
     TriggerApi.BlockForTrigger := true |}.

Definition never_triggers : TriggerApi.TriggerOptions Z :=
  {| TriggerApi.TriggerCb := λ w, (Ok false, w);
     TriggerApi.TriggerCheckInterval := 0;
     TriggerApi.TriggerCheckTimeout := 0;
     TriggerApi.BlockForTrigger := true |}.

Definition task_ok : M Z unit := mret tt.
Definition task_fails : M Z unit := throw (Errorf "reboot failed").

Lemma trigger_calm instant u :
  u = task_ok ∨ u = task_fails → TriggerApi.calm u (trigger_from instant).
Proof.
  intros Hu. split; intros w; simpl; [|destruct Hu as [->| ->]];
    do 2 eexists; (split; [reflexivity|split; [apply Z.le_refl|done]]).
Qed.

Lemma PerformTask_success_witness :
  TriggerApi.task_ran task_ok (TriggerApi.TriggerCb (trigger_from (10 * Second))) (Ok tt) (10 * Second).
Proof.
  apply (TriggerApi.PerformTask_success task_ok (trigger_from (10 * Second)) 0 (10 * Second)).
  - reflexivity.
  - vm_compute. reflexivity.
Defined.

Lemma PerformTask_hides_task_error_witness :
  TriggerApi.PerformTask task_fails (Some (trigger_from 0)) 0 =
    (Err (ErrOperationNotPerformed "Task"
       ("PerformTask:Trigger checks could not be performed: " +:+ "reboot failed")), 0).
Proof.
  apply (TriggerApi.PerformTask_hides_task_error task_fails (trigger_from 0) 0 0 0
    (Errorf "reboot failed")); try (vm_compute; reflexivity); try done.
  apply trigger_calm. by right.
Defined.

Lemma PerformTask_never_triggered_witness :
  ∃ w1, now (0 : Z) + TriggerApi.TriggerCheckTimeout (TriggerApi.with_defaults never_triggers) <= now w1 ∧
    ∀ userTask, TriggerApi.PerformTask userTask (Some never_triggers) (0 : Z) =
      (Err (ErrOperationNotPerformed "Task" "PerformTask: Trigger checks did not pass"), w1).
Proof.
  apply (TriggerApi.PerformTask_never_triggered never_triggers 0).
  - reflexivity.
  - simpl. lia.
  - intros w. exists w. split; [reflexivity|simpl; lia].
Defined.
End ClockWorld.
