(* ===== verification/ConcurTask.v ===== *)
(** The retry engine among goroutines: [DoRetryWithTimeout] as a resumption, whose
    attempts and pauses others can interrupt, and [golang.org/x/sync/errgroup] over
    such calls. *)

From stdpp Require Import relations.
From S2P Require Import Prelude GoStrings Errors Effects Concur Task.

Section retry.
Context {W : Type} `{Clock W} {A : Type}.
Implicit Types (t : M W (task_result A)).

(** Looking at the clock, the attempt and the pause are a call on the world each. *)
Definition R_now : R W Z := act (λ w, (Ok (now w), w)).
Definition R_sleep (d : Z) : R W unit := act (λ w, (Ok tt, sleep d w)).

Fixpoint R_retry_goroutine (fuel : nat) t (deadline timeBeforeRetry : Z) (errInRetires : list string) :
    R W (list string * (A + error)) :=
  match fuel with
  | O => Fin Diverge
  | S fuel =>
      time ← R_now;
      if decide (deadline <= time) then mret (errInRetires, inr DeadlineExceeded)
      else
        r ← act t;
        match r with
        | Done out => mret (errInRetires, inl out)
        | Retry err =>
            _ ← R_sleep timeBeforeRetry;
            R_retry_goroutine fuel t deadline timeBeforeRetry (errInRetires ++ [Error err])
        | Stop err => mret (errInRetires, inr err)
        end
  end.

(** What the caller makes of the end of the goroutine *)
Definition retry_answer (r : list string * (A + error)) : outcome A :=
  match r with
  | (_, inl result) => Ok result
  | (errInRetires, inr DeadlineExceeded) => Err (ErrTimedOut (timeout_reason errInRetires))
  | (_, inr err) => Err err
  end.

Definition R_DoRetryWithTimeout t (timeout timeBeforeRetry : Z) : R W A :=
  time ← R_now;
  r ← R_retry_goroutine (retry_fuel timeout timeBeforeRetry) t (time + timeout) timeBeforeRetry [];
  Fin (retry_answer r).

Lemma run_retry_goroutine fuel t deadline interval errs w :
  run (R_retry_goroutine fuel t deadline interval errs) w = retry_goroutine fuel t deadline interval errs w.
Proof.
  revert errs w. induction fuel as [|fuel IH]; intros errs w; [done|]. cbn [R_retry_goroutine retry_goroutine].
  unfold R_now. rewrite run_bind_act. unfold mbind at 1, M_bind. case_decide; [done|].
  rewrite run_bind_act. unfold mbind at 1, M_bind at 1. destruct (t w) as [[[out|err|err]|e|m|] w1]; try done.
  unfold R_sleep. rewrite run_bind_act. apply IH.
Qed.

(** On its own it is the retry engine. *)
Lemma run_DoRetryWithTimeout t timeout interval w :
  run (R_DoRetryWithTimeout t timeout interval) w = DoRetryWithTimeout t timeout interval w.
Proof.
  unfold R_DoRetryWithTimeout, R_now, DoRetryWithTimeout. rewrite run_bind_act. unfold mbind at 1, M_bind.
  rewrite run_bind. unfold mbind, M_bind. rewrite run_retry_goroutine.
  destruct (retry_goroutine _ _ _ _ _ _) as [[[errs [out|err]]|e|m|] w1]; try done. simpl. unfold lift. by destruct err.
Qed.

Lemma retry_goroutine_among fuel t deadline interval errs errs' out :
  interleaved (R_retry_goroutine fuel t deadline interval errs) (Ok (errs', inl out)) → ∃ w w', t w = (Ok (Done out), w').
Proof.
  revert errs. induction fuel as [|fuel IH]; intros errs; cbn [R_retry_goroutine]; [by inversion 1|].
  intros (time & _ & Hi)%interleaved_bind_Ok. case_decide; [by apply interleaved_ret_Ok in Hi|].
  apply interleaved_bind_Ok in Hi as (r & (w & w' & Ht)%interleaved_act_inv & Hi).
  destruct r as [out'|err|err].
  - apply interleaved_ret_Ok in Hi. simplify_eq. by exists w, w'.
  - apply interleaved_bind_Ok in Hi as ([] & _ & Hi). by eapply IH.
  - by apply interleaved_ret_Ok in Hi.
Qed.

(** A retry that succeeded among other goroutines made an attempt that was done. *)
Lemma retry_among_Ok t timeout interval out :
  interleaved (R_DoRetryWithTimeout t timeout interval) (Ok out) → ∃ w w', t w = (Ok (Done out), w').
Proof.
  unfold R_DoRetryWithTimeout. intros (time & _ & ([errs r] & Hr & Ha%interleaved_lift)%interleaved_bind_Ok)%interleaved_bind_Ok.
  destruct r as [out'|err]; simpl in Ha; [|by destruct err]. simplify_eq. by eapply retry_goroutine_among.
Qed.
End retry.

(** ** errgroup.Group

    [Go] starts a goroutine for each body, [Wait] returns the first error, known by its
    text, when all have returned.  A list of choices says which goroutine steps next;
    one that does not let all of them return is no schedule of the group. *)

Section errgroup.
Context {W : Type}.
Implicit Types (bodies : list (R W unit)).

(** A goroutine that panics ends the program. *)
Definition crash (m : R W unit * goroutine (W := W)) : option (outcome unit) :=
  match m.2 with Ended (Ok _ | Err _) | Running _ => None | Ended o => Some o end.

Definition errgroup (choices : list nat) bodies : M W unit := λ w,
  match schedule (λ _, Error) choices (start id bodies w) with
  | Some g =>
      if finished g then
        (match omap crash (members g), errCh g with
         | o :: _, _ => o
         | [], [] => Ok tt
         | [], text :: _ => Err (Errorf text)
         end, g_world g)
      else (Diverge, w)
  | None => (Diverge, w)
  end.

(** Without an error every body returned without one. *)
Lemma errgroup_Ok choices bodies w w' :
  errgroup choices bodies w = (Ok tt, w') → Forall (λ r, interleaved r (Ok tt)) bodies.
Proof.
  unfold errgroup. destruct (schedule _ choices _) as [g|] eqn:Hs; [|done]. destruct (finished g) eqn:Hf; [|done].
  assert (∀ o, o ∈ omap crash (members g) → o ≠ Ok tt) as Hcr.
  { intros o ([r [r'|[[]|e|s|]]] & _ & Hc)%list_elem_of_omap; unfold crash in Hc; simpl in Hc; simplify_eq; intros ?; simplify_eq. }
  destruct (omap crash (members g)) as [|o l] eqn:Hc; [|intros [= -> _]; exfalso; apply (Hcr (Ok tt)); [by left|done]].
  destruct (errCh g) as [|text l] eqn:He; [|done]. intros _.
  apply schedule_steps in Hs. destruct (group_inv_steps _ _ bodies _ _ Hs (start_inv _ _ bodies w)) as [Hm Hch Hfo].
  rewrite He in Hch. apply Permutation_nil_l in Hch. rewrite <- Hm. apply Forall_fmap, Forall_forall. intros [r st] Hin.
  rewrite Forall_forall in Hfo. specialize (Hfo _ Hin). unfold finished in Hf.
  rewrite forallb_forall in Hf. specialize (Hf _ (proj1 (list_elem_of_In _ _) Hin)). destruct st as [r'|o]; [done|].
  unfold follows in Hfo. simpl in Hfo |- *.
  assert (∀ o', crash (r, Ended o) = Some o' → False) as Hno.
  { intros o' Ho. assert (o' ∈ omap crash (members g)) as Hx by (apply list_elem_of_omap; by exists (r, Ended o)).
    rewrite Hc in Hx. by apply elem_of_nil in Hx. }
  destruct o as [[]|e|s|]; [done|exfalso|by destruct (Hno (Panic s))|by destruct (Hno Diverge)].
  assert (Error e ∈ omap (failure (λ _ : R W unit, Error)) (members g)) as Hx by (apply list_elem_of_omap; by exists (r, Ended (Err e))).
  rewrite <- Hch in Hx. by apply elem_of_nil in Hx.
Qed.
End errgroup.
