(* ===== verification/OpenStorageApi.v ===== *)
(** The OpenStorage SDK messages (package github.com/libopenstorage/openstorage/api)
    the drivers read, with the fields the modelled code uses.  The SDK itself
    is outside the repository: its calls are operations of type classes. *)

From S2P Require Import Prelude.

(** [api.Status] *)
Inductive Status : Type :=
  | STATUS_NONE | STATUS_INIT | STATUS_OK | STATUS_OFFLINE | STATUS_ERROR
  | STATUS_NOT_IN_QUORUM | STATUS_DECOMMISSION | STATUS_MAINTENANCE
  | STATUS_STORAGE_DOWN | STATUS_STORAGE_DEGRADED | STATUS_NEEDS_REBOOT
  | STATUS_STORAGE_REBALANCE | STATUS_STORAGE_DRIVE_REPLACE
  | STATUS_NOT_IN_QUORUM_NO_STORAGE | STATUS_POOLMAINTENANCE | STATUS_MAX.

#[export] Instance Status_eq_dec : EqDecision Status.
Proof. solve_decision. Defined.

(** [Status.String()] *)
Definition Status_String (s : Status) : string :=
  match s with
  | STATUS_NONE => "STATUS_NONE"
  | STATUS_INIT => "STATUS_INIT"
  | STATUS_OK => "STATUS_OK"
  | STATUS_OFFLINE => "STATUS_OFFLINE"
  | STATUS_ERROR => "STATUS_ERROR"
  | STATUS_NOT_IN_QUORUM => "STATUS_NOT_IN_QUORUM"
  | STATUS_DECOMMISSION => "STATUS_DECOMMISSION"
  | STATUS_MAINTENANCE => "STATUS_MAINTENANCE"
  | STATUS_STORAGE_DOWN => "STATUS_STORAGE_DOWN"
  | STATUS_STORAGE_DEGRADED => "STATUS_STORAGE_DEGRADED"
  | STATUS_NEEDS_REBOOT => "STATUS_NEEDS_REBOOT"
  | STATUS_STORAGE_REBALANCE => "STATUS_STORAGE_REBALANCE"
  | STATUS_STORAGE_DRIVE_REPLACE => "STATUS_STORAGE_DRIVE_REPLACE"
  | STATUS_NOT_IN_QUORUM_NO_STORAGE => "STATUS_NOT_IN_QUORUM_NO_STORAGE"
  | STATUS_POOLMAINTENANCE => "STATUS_POOLMAINTENANCE"
  | STATUS_MAX => "STATUS_MAX"
  end.

Lemma Status_String_inj s1 s2 : Status_String s1 = Status_String s2 → s1 = s2.
Proof. destruct s1, s2; done. Qed.

(** [api.StoragePool]; sizes are [uint64]. *)
Record ApiStoragePool := {
  Pool_Uuid : string;
  Pool_Medium : Z;
  Pool_TotalSize : Z;
  Pool_Used : Z;
  Pool_Labels : gmap string string;
}.

(** [api.StorageResource], a disk *)
Record StorageResource := {
  Disk_Path : string;
  Disk_Medium : Z;
  Disk_Size : Z;
}.

(** [api.StorageNode] *)
Record StorageNode := {
  Id : string;
  Hostname : string;
  DataIp : string;
  MgmtIp : string;
  SchedulerNodeName : string;
  NodeStatus : Status;
  Pools : list ApiStoragePool;
  Disks : gmap string StorageResource;
  NodeLabels : gmap string string;
}.

#[export] Instance ApiStoragePool_eq_dec : EqDecision ApiStoragePool.
Proof. solve_decision. Defined.
#[export] Instance StorageResource_eq_dec : EqDecision StorageResource.
Proof. solve_decision. Defined.
#[export] Instance StorageNode_eq_dec : EqDecision StorageNode.
Proof. solve_decision. Defined.

(** [api.ReplicaSet] *)
Record ReplicaSet := {
  Nodes : list string;
  PoolUuids : list string;
}.

(** The enumerations of a volume *)
Inductive VolumeState : Type :=
  | VOLUME_STATE_NONE | VOLUME_STATE_PENDING | VOLUME_STATE_AVAILABLE | VOLUME_STATE_ATTACHED
  | VOLUME_STATE_DETACHED | VOLUME_STATE_DETATCHING | VOLUME_STATE_ERROR | VOLUME_STATE_DELETED
  | VOLUME_STATE_TRY_DETACHING | VOLUME_STATE_RESTORE.

Inductive VolumeStatus : Type :=
  | VOLUME_STATUS_NONE | VOLUME_STATUS_NOT_PRESENT | VOLUME_STATUS_UP | VOLUME_STATUS_DOWN
  | VOLUME_STATUS_DEGRADED.

Inductive AttachState : Type :=
  | ATTACH_STATE_EXTERNAL | ATTACH_STATE_INTERNAL | ATTACH_STATE_INTERNAL_SWITCH.

Inductive IoProfile : Type :=
  | IO_PROFILE_SEQUENTIAL | IO_PROFILE_RANDOM | IO_PROFILE_DB | IO_PROFILE_DB_REMOTE
  | IO_PROFILE_CMS | IO_PROFILE_SYNC_SHARED | IO_PROFILE_AUTO | IO_PROFILE_NONE
  | IO_PROFILE_JOURNAL | IO_PROFILE_AUTO_JOURNAL.

Inductive ProxyProtocol : Type :=
  | PROXY_PROTOCOL_INVALID | PROXY_PROTOCOL_NFS | PROXY_PROTOCOL_S3 | PROXY_PROTOCOL_PXD
  | PROXY_PROTOCOL_PURE_BLOCK | PROXY_PROTOCOL_PURE_FILE.

Inductive RebalanceJobState : Type :=
  | REBALANCE_PENDING | REBALANCE_RUNNING | REBALANCE_DONE | REBALANCE_PAUSED
  | REBALANCE_CANCELLED.

#[export] Instance VolumeState_eq_dec : EqDecision VolumeState.
Proof. solve_decision. Defined.
#[export] Instance VolumeStatus_eq_dec : EqDecision VolumeStatus.
Proof. solve_decision. Defined.
#[export] Instance AttachState_eq_dec : EqDecision AttachState.
Proof. solve_decision. Defined.
#[export] Instance IoProfile_eq_dec : EqDecision IoProfile.
Proof. solve_decision. Defined.
#[export] Instance ProxyProtocol_eq_dec : EqDecision ProxyProtocol.
Proof. solve_decision. Defined.
#[export] Instance RebalanceJobState_eq_dec : EqDecision RebalanceJobState.
Proof. solve_decision. Defined.

Definition VolumeState_String (s : VolumeState) : string :=
  match s with
  | VOLUME_STATE_NONE => "VOLUME_STATE_NONE"
  | VOLUME_STATE_PENDING => "VOLUME_STATE_PENDING"
  | VOLUME_STATE_AVAILABLE => "VOLUME_STATE_AVAILABLE"
  | VOLUME_STATE_ATTACHED => "VOLUME_STATE_ATTACHED"
  | VOLUME_STATE_DETACHED => "VOLUME_STATE_DETACHED"
  | VOLUME_STATE_DETATCHING => "VOLUME_STATE_DETATCHING"
  | VOLUME_STATE_ERROR => "VOLUME_STATE_ERROR"
  | VOLUME_STATE_DELETED => "VOLUME_STATE_DELETED"
  | VOLUME_STATE_TRY_DETACHING => "VOLUME_STATE_TRY_DETACHING"
  | VOLUME_STATE_RESTORE => "VOLUME_STATE_RESTORE"
  end.

Definition VolumeStatus_String (s : VolumeStatus) : string :=
  match s with
  | VOLUME_STATUS_NONE => "VOLUME_STATUS_NONE"
  | VOLUME_STATUS_NOT_PRESENT => "VOLUME_STATUS_NOT_PRESENT"
  | VOLUME_STATUS_UP => "VOLUME_STATUS_UP"
  | VOLUME_STATUS_DOWN => "VOLUME_STATUS_DOWN"
  | VOLUME_STATUS_DEGRADED => "VOLUME_STATUS_DEGRADED"
  end.

Definition IoProfile_String (s : IoProfile) : string :=
  match s with
  | IO_PROFILE_SEQUENTIAL => "IO_PROFILE_SEQUENTIAL"
  | IO_PROFILE_RANDOM => "IO_PROFILE_RANDOM"
  | IO_PROFILE_DB => "IO_PROFILE_DB"
  | IO_PROFILE_DB_REMOTE => "IO_PROFILE_DB_REMOTE"
  | IO_PROFILE_CMS => "IO_PROFILE_CMS"
  | IO_PROFILE_SYNC_SHARED => "IO_PROFILE_SYNC_SHARED"
  | IO_PROFILE_AUTO => "IO_PROFILE_AUTO"
  | IO_PROFILE_NONE => "IO_PROFILE_NONE"
  | IO_PROFILE_JOURNAL => "IO_PROFILE_JOURNAL"
  | IO_PROFILE_AUTO_JOURNAL => "IO_PROFILE_AUTO_JOURNAL"
  end.

Definition RebalanceJobState_String (s : RebalanceJobState) : string :=
  match s with
  | REBALANCE_PENDING => "PENDING"
  | REBALANCE_RUNNING => "RUNNING"
  | REBALANCE_DONE => "DONE"
  | REBALANCE_PAUSED => "PAUSED"
  | REBALANCE_CANCELLED => "CANCELLED"
  end.

(** [api.ProxySpec]; [SerialNum] is the one of [PureBlockSpec], when there is
    one. *)
Record ProxySpec := {
  Proxy_Protocol : ProxyProtocol;
  PureBlock_SerialNum : option string;
}.

(** [api.VolumeSpec], the fields read by the drivers.  [Spec_Format] is the
    number of the file system type. *)
Record VolumeSpec := {
  Ephemeral : bool;
  Spec_Size : Z;
  Spec_Format : Z;
  BlockSize : Z;
  HaLevel : Z;
  SnapshotInterval : Z;
  AggregationLevel : Z;
  Sticky : bool;
  Spec_Group : option string;
  GroupEnforced : bool;
  Spec_IoProfile : IoProfile;
  Spec_ReplicaSet : option ReplicaSet;
  Spec_ProxySpec : option ProxySpec;
}.

(** [api.Volume].  The messages of the SDK always carry a locator and a spec;
    [Source_Parent] is [None] when the source is absent. *)
Record ApiVolume := {
  Vol_Id : string;
  Locator_Name : string;
  VolumeLabels : gmap string string;
  Vol_Spec : VolumeSpec;
  Vol_Readonly : bool;
  Source_Parent : option string;
  Vol_Status : VolumeStatus;
  Vol_State : VolumeState;
  AttachedState : AttachState;
  AttachedOn : string;
  AttachPath : list string;
  DevicePath : string;
  ReplicaSets : list ReplicaSet;
  RuntimeState : list (gmap string string);
  DerivedIoProfile : IoProfile;
}.

(** [Volume.IsClone] and [Volume.IsSnapshot] *)
Definition has_parent (v : ApiVolume) : bool :=
  match Source_Parent v with
  | Some p => negb (bool_decide (p = EmptyString))
  | None => false
  end.
Definition IsClone (v : ApiVolume) : bool := has_parent v && negb (Vol_Readonly v).
Definition IsSnapshot (v : ApiVolume) : bool := has_parent v && Vol_Readonly v.

(** [api.VolumeSpecUpdate], the options the drivers set *)
Record VolumeSpecUpdate := {
  HaLevelOpt : option Z;
  SnapshotIntervalOpt : option Z;
  SizeOpt : option Z;
  IoThrottleOpt : option (Z * Z);
  ReplicaSetOpt : option ReplicaSet;
}.
