(* ===== verification/NodeRegistry.v ===== *)
(** drivers/node: the node type (node.go), the node registry
    (node_registry.go) and the table of node drivers.

    The registry is the package variable [nodeRegistry], a Go map from uuid to
    node guarded by a lock in its three writers; here it is a [gmap] passed
    explicitly.  A Go map is iterated in an unspecified order that may differ
    from loop to loop: every loop asks the oracle [range] with an index of its
    own for an order, and all the theorems hold for every oracle that returns
    each entry exactly once. *)

From S2P Require Import Prelude GoStrings Errors Effects OpenStorageApi.

(** ** node.go *)

Inductive NodeType : Type := TypeMaster | TypeWorker | TypeOther (s : string).

#[export] Instance NodeType_eq_dec : EqDecision NodeType.
Proof. solve_decision. Defined.

(** [node.StoragePool]: the pool now, the pool when the test was initialised
    and the size of the workload the test will launch on it *)
Record StoragePool := {
  SP_pool : ApiStoragePool;
  SP_AtInit : ApiStoragePool;
  SP_WorkloadSize : Z;
}.

(** [node.Node].  The embedded [*api.StorageNode] is a pointer and may be
    nil. *)
Record Node := {
  storageNode : option StorageNode;
  uuid : string;
  VolDriverNodeID : string;
  Name : string;
  Addresses : list string;
  UsableAddr : string;
  Type_ : NodeType;
  Zone : string;
  Region : string;
  TopologyZone : string;
  TopologyRegion : string;
  IsStorageDriverInstalled : bool;
  IsMetadataNode : bool;
  StoragePools : list StoragePool;
  PxPodRestartCount : Z;
}.

#[export] Instance StoragePool_eq_dec : EqDecision StoragePool.
Proof. solve_decision. Defined.
#[export] Instance Node_eq_dec : EqDecision Node.
Proof. solve_decision. Defined.

(** [Node{}] *)
Definition emptyNode : Node :=
  {| storageNode := None; uuid := ""; VolDriverNodeID := ""; Name := ""; Addresses := [];
     UsableAddr := ""; Type_ := TypeOther ""; Zone := ""; Region := ""; TopologyZone := "";
     TopologyRegion := ""; IsStorageDriverInstalled := false; IsMetadataNode := false;
     StoragePools := []; PxPodRestartCount := 0 |}.

Definition set_uuid (u : string) (n : Node) : Node :=
  {| storageNode := storageNode n; uuid := u; VolDriverNodeID := VolDriverNodeID n;
     Name := Name n; Addresses := Addresses n; UsableAddr := UsableAddr n; Type_ := Type_ n;
     Zone := Zone n; Region := Region n; TopologyZone := TopologyZone n;
     TopologyRegion := TopologyRegion n; IsStorageDriverInstalled := IsStorageDriverInstalled n;
     IsMetadataNode := IsMetadataNode n; StoragePools := StoragePools n;
     PxPodRestartCount := PxPodRestartCount n |}.

(** The table of node drivers, for any type [D] of drivers. *)
Section driver_table.
Context {D : Type}.

Definition Register (name : string) (d : D) (nodeDrivers : gmap string D)
    : outcome unit * gmap string D :=
  match nodeDrivers !! name with
  | None => (Ok tt, <[name := d]> nodeDrivers)
  | Some _ => (Err (Errorf ("node driver: " +:+ name +:+ " is already registered")), nodeDrivers)
  end.

Definition Get (name : string) (nodeDrivers : gmap string D) : outcome D :=
  match nodeDrivers !! name with
  | Some d => Ok d
  | None => Err (ErrNotFound name "Node Driver")
  end.
End driver_table.

(** ** node_registry.go *)

Module Registry.

Abbreviation registry := (gmap string Node).

(** The writers.  [u] is what [uuid.New] returns. *)
Definition AddNode (u : string) (n : Node) (reg : registry) : outcome unit * registry :=
  if decide (uuid n ≠ "")
  then (Err (Errorf "UUID should not be set to add new node"), reg)
  else (Ok tt, <[u := set_uuid u n]> reg).

Definition UpdateNode (n : Node) (reg : registry) : outcome unit * registry :=
  match reg !! uuid n with
  | None => (Err (Errorf "node to be updated does not exist"), reg)
  | Some _ => (Ok tt, <[uuid n := n]> reg)
  end.

Definition DeleteNode (n : Node) (reg : registry) : outcome unit * registry :=
  if decide (uuid n = "")
  then (Err (Errorf "UUID should be set to delete existing node"), reg)
  else (Ok tt, delete (uuid n) reg).

Definition CleanupRegistry (reg : registry) : registry := ∅.

(** Readers that need no iteration *)

Definition IsStorageNode (n : Node) : outcome bool :=
  sn ← deref (storageNode n);
  mret (negb (Nat.eqb (length (Pools sn)) 0)).

Definition Contains (nodes : list Node) (n : Node) : bool :=
  match find_first (λ value, bool_decide (Name value = Name n)) nodes with
  | Some _ => true
  | None => false
  end.

(** [for _, n := range l { if f(n) { list = append(list, n) } }] for a test
    that may panic *)
Fixpoint collect (f : Node → outcome bool) (l : list Node) : outcome (list Node) :=
  match l with
  | [] => Ok []
  | n :: l' =>
      b ← f n;
      rest ← collect f l';
      mret (if (b : bool) then n :: rest else rest)
  end.

Section readers.
Context (range : nat → registry → list (string * Node)).

Definition GetNodes (i : nat) (reg : registry) : list Node := (range i reg).*2.

Definition GetWorkerNodes (i : nat) (reg : registry) : list Node :=
  keep (λ n, bool_decide (Type_ n = TypeWorker)) (range i reg).*2.

Definition GetMasterNodes (i : nat) (reg : registry) : list Node :=
  keep (λ n, bool_decide (Type_ n = TypeMaster)) (range i reg).*2.

Definition IsMasterNode (i : nat) (n : Node) (reg : registry) : bool :=
  match find_first (λ each, bool_decide (uuid each = uuid n)) (GetMasterNodes i reg) with
  | Some _ => true
  | None => false
  end.

Definition GetStorageDriverNodes (i : nat) (reg : registry) : list Node :=
  keep IsStorageDriverInstalled (range i reg).*2.

Definition GetStorageNodes (i : nat) (reg : registry) : outcome (list Node) :=
  collect IsStorageNode (GetStorageDriverNodes i reg).

Definition GetStorageLessNodes (i : nat) (reg : registry) : outcome (list Node) :=
  collect (λ n, b ← IsStorageNode n; mret (negb b)) (GetStorageDriverNodes i reg).

Definition GetNodesByTopologyZoneLabel (i : nat) (zone : string) (reg : registry) : list Node :=
  keep (λ n, bool_decide (TopologyZone n = zone)) (range i reg).*2.

Definition GetNodesByTopologyRegionLabel (i : nat) (region : string) (reg : registry) : list Node :=
  keep (λ n, bool_decide (TopologyRegion n = region)) (range i reg).*2.

Definition GetMetadataNodes (i : nat) (reg : registry) : list Node :=
  keep IsMetadataNode (range i reg).*2.

(** Both map builders let the last node with a key win. *)
Definition index_by (key : Node → string) (l : list Node) : gmap string Node :=
  foldl (λ m n, <[key n := n]> m) ∅ l.

Definition GetNodesByName (i : nat) (reg : registry) : gmap string Node :=
  index_by Name (range i reg).*2.

Definition GetNodesByVoDriverNodeID (i : nat) (reg : registry) : gmap string Node :=
  index_by VolDriverNodeID (range i reg).*2.

Definition GetNodeByName (i : nat) (nodeName : string) (reg : registry) : outcome Node :=
  match find_first (λ n, bool_decide (Name n = nodeName)) (range i reg).*2 with
  | Some n => Ok n
  | None => Err (Errorf ("failed: Node [" +:+ nodeName +:+ "] not found in node registry"))
  end.

Definition GetNodeByIP (i : nat) (nodeIP : string) (reg : registry) : outcome Node :=
  match find_first (λ n, existsb (λ addr, bool_decide (addr = nodeIP)) (Addresses n))
          (range i reg).*2 with
  | Some n => Ok n
  | None => Err (Errorf ("failed: Node with [" +:+ nodeIP +:+ "] not found in node registry"))
  end.

(** The loop of [GetNodeDetailsByNodeID]; [each.Id] reads through the embedded
    pointer. *)
Fixpoint node_by_id (nodeID : string) (l : list Node) : outcome Node :=
  match l with
  | [] => Err (Errorf ("failed to get Node Details by Node ID [" +:+ nodeID +:+ "] "))
  | each :: l' =>
      sn ← deref (storageNode each);
      if decide (Id sn = nodeID) then Ok each else node_by_id nodeID l'
  end.

Definition GetNodeDetailsByNodeID (i : nat) (nodeID : string) (reg : registry) : outcome Node :=
  storageNodes ← GetStorageNodes i reg;
  node_by_id nodeID storageNodes.

(** [IsMasterNode] iterates the registry again for every node without a
    driver; the [j]-th of those loops has index [S (i + j)]. *)
Fixpoint px_disabled (j : nat) (reg : registry) (l : list Node) : list Node :=
  match l with
  | [] => []
  | n :: l' =>
      if negb (IsStorageDriverInstalled n) && negb (IsMasterNode j n reg)
      then n :: px_disabled (S j) reg l'
      else px_disabled (S j) reg l'
  end.

Definition GetPXDisabledNodes (i : nat) (reg : registry) : list Node :=
  px_disabled (S i) reg (range i reg).*2.
End readers.

(** ** Well-formed registries

    Every entry is stored under its own, non-empty uuid, and a node marked as
    running the storage driver has its storage information attached. *)
Definition driver_info (n : Node) : Prop :=
  IsStorageDriverInstalled n = true → is_Some (storageNode n).

Definition wf (reg : registry) : Prop :=
  map_Forall (λ k n, uuid n = k ∧ k ≠ "" ∧ driver_info n) reg.

(** Only the first part of this holds of every sequence of calls: the writers do not
    look at the other fields of a node. *)
Definition filed (reg : registry) : Prop := map_Forall (λ k n, uuid n = k ∧ k ≠ "") reg.

(** One call of a writer, with any node and whether it fails or not.  The identifiers
    of [uuid.New] are not empty. *)
Inductive step : registry → registry → Prop :=
  | step_add reg u n : u ≠ "" → step reg (AddNode u n reg).2
  | step_update reg n : step reg (UpdateNode n reg).2
  | step_delete reg n : step reg (DeleteNode n reg).2
  | step_cleanup reg : step reg (CleanupRegistry reg).

Lemma wf_insert reg n :
  wf reg → uuid n ≠ "" → driver_info n → wf (<[uuid n := n]> reg).
Proof. intros Hwf Hu Hd. by apply map_Forall_insert_2. Qed.

Lemma AddNode_wf u n reg : u ≠ "" → driver_info n → wf reg → wf (AddNode u n reg).2.
Proof.
  intros Hu Hd Hwf. unfold AddNode. case_decide; [done|]. by apply (wf_insert reg (set_uuid u n)).
Qed.

Lemma UpdateNode_wf n reg : driver_info n → wf reg → wf (UpdateNode n reg).2.
Proof.
  intros Hd Hwf. unfold UpdateNode. destruct (reg !! uuid n) eqn:E; [|done].
  apply wf_insert; [done| |done]. by destruct (Hwf _ _ E) as (_ & ? & _).
Qed.

Lemma DeleteNode_wf n reg : wf reg → wf (DeleteNode n reg).2.
Proof. intros Hwf. unfold DeleteNode. case_decide; [done|]. by apply map_Forall_delete. Qed.

#[export] Hint Resolve AddNode_wf UpdateNode_wf DeleteNode_wf : torpedo.

Lemma filed_insert reg n : filed reg → uuid n ≠ "" → filed (<[uuid n := n]> reg).
Proof. intros Hf Hu. by apply map_Forall_insert_2. Qed.

Lemma step_filed reg reg' : step reg reg' → filed reg → filed reg'.
Proof.
  destruct 1 as [reg u n Hu|reg n|reg n|reg]; intros Hf.
  - unfold AddNode. case_decide; [done|]. by apply (filed_insert reg (set_uuid u n)).
  - unfold UpdateNode. destruct (reg !! uuid n) eqn:E; [|done]. apply filed_insert; [done|]. by destruct (Hf _ _ E).
  - unfold DeleteNode. case_decide; [done|]. by apply map_Forall_delete.
  - by apply map_Forall_empty.
Qed.

Lemma steps_filed reg : rtc step ∅ reg → filed reg.
Proof.
  intros Hr. assert (filed ∅) as H0 by apply map_Forall_empty. revert H0.
  induction Hr; eauto using step_filed.
Qed.

(** ** The readers *)

Section reader_theorems.
Context (range : nat → registry → list (string * Node)).
Hypothesis range_perm : ∀ i reg, range i reg ≡ₚ map_to_list reg.

Lemma elem_of_range_snd i reg n : n ∈ (range i reg).*2 ↔ ∃ k, reg !! k = Some n.
Proof using range_perm.
  rewrite range_perm, list_elem_of_fmap. split.
  - intros [[k n'] [-> Hin]]. exists k. by apply elem_of_map_to_list.
  - intros [k Hk]. exists (k, n). by rewrite elem_of_map_to_list.
Qed.

Lemma range_snd_perm i j reg : (range i reg).*2 ≡ₚ (range j reg).*2.
Proof using range_perm. by rewrite !range_perm. Qed.

Lemma filed_nodes i reg n : filed reg → n ∈ GetNodes range i reg → reg !! uuid n = Some n ∧ uuid n ≠ "".
Proof using range_perm.
  intros Hf. unfold GetNodes. rewrite elem_of_range_snd. intros [k Hk]. destruct (Hf _ _ Hk) as [<- Hu]. by split.
Qed.

Lemma filed_uuids i reg : filed reg → NoDup (uuid <$> GetNodes range i reg).
Proof using range_perm.
  intros Hf. unfold GetNodes. rewrite range_perm.
  replace (uuid <$> (map_to_list reg).*2) with ((map_to_list reg).*1); [apply NoDup_fst_map_to_list|].
  rewrite <- list_fmap_compose. apply list_fmap_ext. intros j [k n] Hj%list_elem_of_lookup_2.
  apply elem_of_map_to_list in Hj. by destruct (Hf _ _ Hj).
Qed.

(** C10. After any sequence of calls of the writers, with any nodes and whether they
    fail or not, each node is filed under its own uuid, which is not empty, and no two
    nodes that [GetNodes] lists share one.  So a node that is listed can be handed back:
    updating with it succeeds and changes nothing, and deleting it succeeds and takes
    exactly this node from what is listed. *)
Theorem registry_invariant i j reg :
  rtc step ∅ reg →
  filed reg ∧ NoDup (uuid <$> GetNodes range i reg) ∧
  ∀ n, n ∈ GetNodes range i reg →
    UpdateNode n reg = (Ok tt, reg) ∧
    ∃ reg', DeleteNode n reg = (Ok tt, reg') ∧ GetNodes range i reg ≡ₚ n :: GetNodes range j reg'.
Proof using range_perm.
  intros Hf%steps_filed. split_and!; [done|by apply filed_uuids|]. intros n Hn.
  destruct (filed_nodes i reg n Hf Hn) as [Hk Hu]. split.
  - unfold UpdateNode. rewrite Hk. by rewrite insert_id.
  - exists (delete (uuid n) reg). unfold DeleteNode. rewrite decide_False by done. split; [done|].
    unfold GetNodes. rewrite !range_perm. by rewrite <- (map_to_list_delete reg _ _ Hk).
Qed.

Lemma collect_keep f b (l : list Node) :
  (∀ n, n ∈ l → f n = Ok (b n)) → collect f l = Ok (keep b l).
Proof.
  induction l as [|n l IH]; intros H; simpl; [done|].
  rewrite (H n) by (by left). simpl. rewrite IH by (intros; apply H; by right). simpl.
  by destruct (b n).
Qed.

Definition has_pools (n : Node) : bool :=
  match storageNode n with Some sn => negb (Nat.eqb (length (Pools sn)) 0) | None => false end.

Lemma IsStorageNode_ok n : is_Some (storageNode n) → IsStorageNode n = Ok (has_pools n).
Proof. intros [sn Hsn]. unfold IsStorageNode, has_pools. by rewrite Hsn. Qed.

Lemma driver_nodes_info i reg n :
  wf reg → n ∈ GetStorageDriverNodes range i reg → is_Some (storageNode n).
Proof using range_perm.
  intros Hwf. unfold GetStorageDriverNodes. rewrite elem_of_keep, elem_of_range_snd.
  intros [[k Hk] Hd]. destruct (Hwf _ _ Hk) as (_ & _ & Hinfo). by apply Hinfo.
Qed.

Lemma GetStorageNodes_keep i reg :
  wf reg → GetStorageNodes range i reg = Ok (keep has_pools (GetStorageDriverNodes range i reg)).
Proof using range_perm.
  intros Hwf. apply collect_keep. intros n Hn.
  by apply IsStorageNode_ok, (driver_nodes_info i reg).
Qed.

Lemma GetStorageLessNodes_keep i reg :
  wf reg → GetStorageLessNodes range i reg =
    Ok (keep (λ n, negb (has_pools n)) (GetStorageDriverNodes range i reg)).
Proof using range_perm.
  intros Hwf. apply (collect_keep _ (λ n, negb (has_pools n))). intros n Hn.
  by rewrite IsStorageNode_ok by (by apply (driver_nodes_info i reg)).
Qed.

(** On a well-formed registry neither [GetStorageNodes] nor
    [GetStorageLessNodes] can dereference a nil storage node, and together
    they return every node running the storage driver exactly once, whatever
    orders the three map iterations take. *)
Theorem storage_nodes_partition i j k reg :
  wf reg →
  ∃ s l, GetStorageNodes range i reg = Ok s ∧ GetStorageLessNodes range j reg = Ok l ∧
    s ++ l ≡ₚ GetStorageDriverNodes range k reg.
Proof using range_perm.
  intros Hwf. do 2 eexists. split; [by apply GetStorageNodes_keep|].
  split; [by apply GetStorageLessNodes_keep|].
  unfold GetStorageDriverNodes. rewrite (range_snd_perm i k), (range_snd_perm j k).
  apply keep_split.
Qed.

(** Lookups by a key that identifies the node do not depend on the order. *)
Definition names_unique (reg : registry) : Prop :=
  ∀ k1 k2 n1 n2, reg !! k1 = Some n1 → reg !! k2 = Some n2 → Name n1 = Name n2 → n1 = n2.

Lemma GetNodeByName_unique i reg k n :
  names_unique reg → reg !! k = Some n → GetNodeByName range i (Name n) reg = Ok n.
Proof using range_perm.
  intros Hu Hk. unfold GetNodeByName.
  rewrite (find_first_unique _ _ n); [done| | |].
  - apply elem_of_range_snd. eauto.
  - by apply bool_decide_eq_true.
  - intros y [k' Hk']%elem_of_range_snd Hy%bool_decide_eq_true. by eapply Hu.
Qed.

(** Insert and lookup round trip: after a node whose name is not in use has
    been added, [GetNodeByName] finds exactly that node, carrying the uuid it
    was given, in every iteration order; all other names resolve as before. *)
Theorem AddNode_GetNodeByName i u n reg :
  names_unique reg → reg !! u = None → uuid n = "" →
  (∀ k n', reg !! k = Some n' → Name n' ≠ Name n) →
  ∃ reg', AddNode u n reg = (Ok tt, reg') ∧
    GetNodeByName range i (Name n) reg' = Ok (set_uuid u n) ∧
    ∀ k n', reg !! k = Some n' → GetNodeByName range i (Name n') reg' = Ok n'.
Proof using range_perm.
  intros Huniq Hu Huuid Hfresh. unfold AddNode. rewrite decide_False by (intros H; by apply H).
  eexists. split; [done|].
  assert (names_unique (<[u := set_uuid u n]> reg)) as Huniq'.
  { intros k1 k2 n1 n2 H1 H2 Hn. rewrite lookup_insert in H1, H2.
    repeat case_decide; simplify_eq; eauto.
    - by edestruct Hfresh.
    - by edestruct Hfresh. }
  split.
  - apply (GetNodeByName_unique i _ u (set_uuid u n)); [done|]. by rewrite lookup_insert_eq.
  - intros k n' Hk. apply (GetNodeByName_unique i _ k); [done|].
    rewrite lookup_insert_ne by congruence. done.
Qed.

Lemma index_by_lookup (key : Node → string) (l : list Node) x n (m : registry) :
  foldl (λ m n, <[key n := n]> m) m l !! x = Some n →
  (n ∈ l ∧ key n = x) ∨ (m !! x = Some n ∧ ∀ y, y ∈ l → key y ≠ x).
Proof.
  revert m. induction l as [|y l IH]; intros m; simpl; [intros; right; set_solver|].
  intros [[Hin Hk]|[Hm Hno]]%IH; [left; set_solver|].
  rewrite lookup_insert in Hm. case_decide; simplify_eq.
  - left. set_solver.
  - right. split; [done|]. set_solver.
Qed.

(** [GetNodesByName] answers a name with a registered node of that name,
    misses no registered name, and agrees with [GetNodeByName] when names are
    unique. *)
Theorem GetNodesByName_spec i j reg name :
  (∀ n, GetNodesByName range i reg !! name = Some n →
     Name n = name ∧ ∃ k, reg !! k = Some n) ∧
  (GetNodesByName range i reg !! name = None ↔
     GetNodeByName range j name reg =
       Err (Errorf ("failed: Node [" +:+ name +:+ "] not found in node registry"))) ∧
  (names_unique reg → ∀ n, GetNodesByName range i reg !! name = Some n →
     GetNodeByName range j name reg = Ok n).
Proof using range_perm.
  assert (∀ n, GetNodesByName range i reg !! name = Some n →
     Name n = name ∧ ∃ k, reg !! k = Some n) as Hsound.
  { intros n [[Hin Hk]|[H _]]%index_by_lookup; [|by rewrite lookup_empty in H].
    split; [done|]. by eapply elem_of_range_snd. }
  split; [done|]. split.
  - unfold GetNodeByName. destruct (find_first _ _) eqn:E; [split; [|done]|split; [done|]].
    + apply find_first_Some in E as [Hin Hn%bool_decide_eq_true].
      intros Hnone. exfalso.
      enough (∀ (l : list Node) (m : registry) x, x ∈ l ∨ is_Some (m !! Name x) →
        is_Some (foldl (λ m n, <[Name n := n]> m) m l !! Name x)) as Hc.
      { destruct (Hc (range i reg).*2 ∅ n) as [y Hy].
        - left. by rewrite (range_snd_perm i j).
        - unfold GetNodesByName, index_by in Hnone. rewrite Hn in Hy. congruence. }
      clear. induction l as [|y l IH]; intros m x Hx; simpl; [set_solver|].
      apply IH. rewrite lookup_insert. case_decide; [by right|]. set_solver.
    + intros _. destruct (GetNodesByName range i reg !! name) as [n|] eqn:E'; [|done].
      destruct (Hsound n eq_refl) as [Hn Hin%(elem_of_range_snd j)].
      rewrite find_first_None in E. specialize (E n Hin). by rewrite bool_decide_eq_false in E.
  - intros Hu n Hn. destruct (Hsound n Hn) as [<- [k Hk]]. by eapply GetNodeByName_unique.
Qed.

(** [GetPXDisabledNodes] returns exactly the registered nodes that neither
    run the storage driver nor are masters. *)
Theorem GetPXDisabledNodes_spec i reg n :
  wf reg →
  n ∈ GetPXDisabledNodes range i reg ↔
    (∃ k, reg !! k = Some n) ∧ IsStorageDriverInstalled n = false ∧ Type_ n ≠ TypeMaster.
Proof using range_perm.
  intros Hwf.
  assert (∀ j x, (∃ k, reg !! k = Some x) →
    IsMasterNode range j x reg = bool_decide (Type_ x = TypeMaster)) as Hmaster.
  { intros j x [k Hk]. unfold IsMasterNode, GetMasterNodes.
    destruct (find_first _ _) as [y|] eqn:E; symmetry.
    - apply find_first_Some in E as [Hin Huuid%bool_decide_eq_true].
      rewrite elem_of_keep, elem_of_range_snd, bool_decide_eq_true in Hin.
      destruct Hin as [[k' Hk'] Ht]. apply bool_decide_eq_true.
      destruct (Hwf _ _ Hk) as (? & _), (Hwf _ _ Hk') as (? & _). simplify_eq. congruence.
    - apply bool_decide_eq_false. intros Ht. rewrite find_first_None in E.
      specialize (E x). rewrite bool_decide_eq_true_2 in E by done. discriminate E.
      rewrite elem_of_keep, elem_of_range_snd, bool_decide_eq_true. eauto. }
  unfold GetPXDisabledNodes. generalize (S i) as j.
  assert (∀ x, x ∈ (range i reg).*2 → ∃ k, reg !! k = Some x) as Hl
    by (intros; by eapply elem_of_range_snd).
  intros j. rewrite <- (elem_of_range_snd i). revert Hl j.
  generalize ((range i reg).*2) as l. induction l as [|x l IH]; intros Hl j; simpl; [set_solver|].
  rewrite (Hmaster j x) by (apply Hl; by left).
  specialize (IH ltac:(intros; apply Hl; by right) (S j)).
  destruct (IsStorageDriverInstalled x) eqn:Ed, (decide (Type_ x = TypeMaster)) as [Et|Et];
    rewrite ?bool_decide_eq_true_2, ?bool_decide_eq_false_2 by done; simpl;
    rewrite ?elem_of_cons, IH; intuition (subst; congruence || auto).
Qed.
End reader_theorems.
End Registry.

(** ** A concrete registry *)

Module RegistryDemo.
Import Registry.

(** The order of [map_to_list], one of the orders Go may take. *)
Definition list_order (i : nat) (reg : gmap string Node) : list (string * Node) :=
  map_to_list reg.

Lemma list_order_perm i reg : list_order i reg ≡ₚ map_to_list reg.
Proof. done. Qed.

Definition mk_node (name u : string) (t : NodeType) (sn : option StorageNode) : Node :=
  {| storageNode := sn; uuid := u; VolDriverNodeID := ""; Name := name; Addresses := ["10.0.0.1"];
     UsableAddr := ""; Type_ := t; Zone := ""; Region := ""; TopologyZone := "";
     TopologyRegion := ""; IsStorageDriverInstalled := match sn with Some _ => true | None => false end;
     IsMetadataNode := false; StoragePools := []; PxPodRestartCount := 0 |}.

Definition mk_pool (u : string) (size : Z) : ApiStoragePool :=
  {| Pool_Uuid := u; Pool_Medium := 0; Pool_TotalSize := size; Pool_Used := 0; Pool_Labels := ∅ |}.

Definition mk_sn (id host ip : string) (pools : list ApiStoragePool) : StorageNode :=
  {| Id := id; Hostname := host; DataIp := ip; MgmtIp := ip; SchedulerNodeName := host;
     NodeStatus := STATUS_OK; Pools := pools; Disks := ∅; NodeLabels := ∅ |}.

Definition master : Node := mk_node "master" "" TypeMaster None.
Definition worker1 : Node :=
  mk_node "worker1" "" TypeWorker (Some (mk_sn "id1" "worker1" "10.0.0.1" [mk_pool "p1" 100])).
Definition worker2 : Node :=
  mk_node "worker2" "" TypeWorker (Some (mk_sn "id2" "worker2" "10.0.0.2" [])).
Definition worker3 : Node := mk_node "worker3" "" TypeWorker None.

Definition reg1 : gmap string Node := (AddNode "u1" master ∅).2.
Definition reg2 : gmap string Node := (AddNode "u2" worker1 reg1).2.
Definition reg3 : gmap string Node := (AddNode "u3" worker2 reg2).2.
Definition reg4 : gmap string Node := (AddNode "u4" worker3 reg3).2.

Lemma reg3_reach : rtc step ∅ reg3.
Proof.
  apply (rtc_l _ _ reg1); [by apply step_add|].
  apply (rtc_l _ _ reg2); [by apply (step_add reg1 "u2" worker1)|].
  apply (rtc_l _ _ reg3); [by apply (step_add reg2 "u3" worker2)|].
  apply rtc_refl.
Qed.

Lemma registry_invariant_witness : rtc step ∅ reg3 ∧ filed reg3.
Proof.
  split; [apply reg3_reach|]. apply (registry_invariant list_order list_order_perm 0 1 reg3). apply reg3_reach.
Defined.

Lemma reg3_wf : wf reg3.
Proof.
  apply (AddNode_wf "u3" worker2); [done|by intros _; eexists|].
  apply (AddNode_wf "u2" worker1); [done|by intros _; eexists|].
  apply (AddNode_wf "u1" master); [done..|]. apply map_Forall_empty.
Qed.

Lemma storage_nodes_partition_witness :
  ∃ s l, GetStorageNodes list_order 0 reg3 = Ok s ∧ GetStorageLessNodes list_order 1 reg3 = Ok l ∧
    s ++ l ≡ₚ GetStorageDriverNodes list_order 2 reg3.
Proof.
  apply (storage_nodes_partition list_order list_order_perm 0 1 2 reg3). apply reg3_wf.
Defined.

Lemma reg1_lookup k n : reg1 !! k = Some n → n = set_uuid "u1" master.
Proof.
  unfold reg1, AddNode. simpl. intros [[_ H]|[_ H]]%lookup_insert_Some; [done|].
  by rewrite lookup_empty in H.
Qed.

Lemma AddNode_GetNodeByName_witness :
  ∃ reg', AddNode "u2" worker1 reg1 = (Ok tt, reg') ∧
    GetNodeByName list_order 0 (Name worker1) reg' = Ok (set_uuid "u2" worker1) ∧
    ∀ k n', reg1 !! k = Some n' → GetNodeByName list_order 0 (Name n') reg' = Ok n'.
Proof.
  apply (AddNode_GetNodeByName list_order list_order_perm 0 "u2" worker1 reg1).
  - intros k1 k2 n1 n2 H1%reg1_lookup H2%reg1_lookup _. congruence.
  - reflexivity.
  - reflexivity.
  - intros k n' ->%reg1_lookup. discriminate.
Defined.

Lemma GetNodesByName_spec_witness :
  GetNodesByName list_order 0 reg3 !! "worker2" = Some (set_uuid "u3" worker2) ∧
  (Name (set_uuid "u3" worker2) = "worker2" ∧ ∃ k, reg3 !! k = Some (set_uuid "u3" worker2)).
Proof.
  split; [vm_compute; reflexivity|].
  apply (proj1 (GetNodesByName_spec list_order list_order_perm 0 0 reg3 "worker2")).
  vm_compute. reflexivity.
Defined.

Lemma GetPXDisabledNodes_spec_witness :
  set_uuid "u4" worker3 ∈ GetPXDisabledNodes list_order 0 reg4 ↔
    (∃ k, reg4 !! k = Some (set_uuid "u4" worker3)) ∧
    IsStorageDriverInstalled (set_uuid "u4" worker3) = false ∧
    Type_ (set_uuid "u4" worker3) ≠ TypeMaster.
Proof.
  apply (GetPXDisabledNodes_spec list_order list_order_perm 0 reg4 (set_uuid "u4" worker3)).
  apply AddNode_wf; [done|done|]. apply reg3_wf.
Defined.
End RegistryDemo.
