(* ===== verification/AutopilotRules.v ===== *)
(** pkg/aututils/aututils.go: the autopilot rules the tests install, and the
    waits for the events and approvals a rule produces. *)

From Stdlib Require Import Ascii.
From S2P Require Import Prelude GoStrings Errors Effects Task.

(** ** The autopilot API (libopenstorage/autopilot-api), the fields that are used *)

Inductive LabelSelectorOperator : Type :=
  | LabelSelectorOpLt | LabelSelectorOpGt | LabelSelectorOpNotInRange | LabelSelectorOpOther (s : string).

#[export] Instance LabelSelectorOperator_eq_dec : EqDecision LabelSelectorOperator.
Proof. solve_decision. Defined.

Record LabelSelectorRequirement := {
  Key : string;
  KeyAlias : string;
  Operator : LabelSelectorOperator;
  Values : list string;
}.

Record RuleAction := {
  Action_Name : string;
  Params : gmap string string;
}.

Record AutopilotRule := {
  Rule_Name : string;
  MatchLabels : gmap string string;
  Expressions : list LabelSelectorRequirement;
  Actions : list RuleAction;
  Enforcement : string;
  ActionsCoolDownPeriod : Z;
}.

(** ** Constants *)

Definition eventCheckInterval : Z := 2 * Second.
Definition eventCheckTimeout : Z := 30 * Minute.
Definition actionApprovalObjectCheckInterval : Z := 1 * Second.
Definition actionApprovalObjectTimeout : Z := 30 * Second.

Definition RuleScaleTypeAddDisk : string := "add-disk".
Definition RuleScaleTypeResizeDisk : string := "resize-disk".
Definition RuleMaxSize : string := "maxsize".
Definition PxPoolAvailableCapacityMetric : string :=
  "100 * ( px_pool_stats_available_bytes/ px_pool_stats_total_bytes)".
Definition PxPoolTotalCapacityMetric : string := "px_pool_stats_total_bytes/(1024*1024*1024)".
Definition PxVolumeUsagePercentMetric : string := "100 * (px_volume_usage_bytes / px_volume_capacity_bytes)".
Definition PxVolumeTotalCapacityMetric : string := "px_volume_capacity_bytes / 1000000000".
Definition PXPoolProvisionedSpaceMetric : string :=
  "100 * (px_pool_stats_provisioned_bytes/ on (pool) px_pool_stats_total_bytes)".
Definition PXPoolUsedSpaceMetric : string :=
  "100 * (px_pool_stats_used_bytes/ on (pool) px_pool_stats_total_bytes)".
Definition RuleActionsScalePercentage : string := "scalepercentage".
Definition RuleActionsScaleSize : string := "scalesize".
Definition RuleScaleType : string := "scaletype".
Definition RulePoolProvDeviationPercKeyAlias : string := "PoolProvDeviationPerc".
Definition RulePoolUsageDeviationPercKeyAlias : string := "PoolUsageDeviationPerc".
Definition VolumeSpecAction : string := "openstorage.io.action.volume/resize".
Definition StorageSpecAction : string := "openstorage.io.action.storagepool/expand".
Definition RebalanceSpecAction : string := "openstorage.io.action.storagepool/rebalance".
Definition ApprovalRequired : string := "approvalRequired".

(** ** Rules *)

Definition expression (key : string) (op : LabelSelectorOperator) (values : list string)
    : LabelSelectorRequirement :=
  {| Key := key; KeyAlias := ""; Operator := op; Values := values |}.

Definition PoolRuleByTotalSize (total scalePercentage : Z) (expandType : string)
    (labelSelector : gmap string string) : AutopilotRule :=
  {| Rule_Name := "pool-" +:+ expandType +:+ "-total-" +:+ Itoa total;
     MatchLabels := labelSelector;
     Expressions := [expression PxPoolTotalCapacityMetric LabelSelectorOpLt [Itoa total]];
     Actions := [{| Action_Name := StorageSpecAction;
                    Params := {[RuleActionsScalePercentage := Itoa scalePercentage;
                                RuleScaleType := expandType]} |}];
     Enforcement := ""; ActionsCoolDownPeriod := 0 |}.

Definition PoolRuleFixedScaleSizeByTotalSize (total : Z) (scaleSize expandType : string)
    (labelSelector : gmap string string) : AutopilotRule :=
  {| Rule_Name := "pool-" +:+ expandType +:+ "-fixedsize-" +:+ ToLower scaleSize +:+ "-total-" +:+ Itoa total;
     MatchLabels := labelSelector;
     Expressions := [expression PxPoolTotalCapacityMetric LabelSelectorOpLt [Itoa total]];
     Actions := [{| Action_Name := StorageSpecAction;
                    Params := {[RuleActionsScaleSize := scaleSize; RuleScaleType := expandType]} |}];
     Enforcement := ""; ActionsCoolDownPeriod := 0 |}.

Definition PoolRuleByAvailableCapacity (usage scalePercentage : Z) (expandType : string) : AutopilotRule :=
  {| Rule_Name := "pool-" +:+ expandType +:+ "-available-" +:+ Itoa usage;
     MatchLabels := ∅;
     Expressions := [expression PxPoolAvailableCapacityMetric LabelSelectorOpLt [Itoa usage]];
     Actions := [{| Action_Name := StorageSpecAction;
                    Params := {[RuleActionsScalePercentage := Itoa scalePercentage;
                                RuleScaleType := expandType]} |}];
     Enforcement := ""; ActionsCoolDownPeriod := 0 |}.

Definition PoolRuleFixedScaleSizeByAvailableCapacity (usage : Z) (scaleSize expandType : string)
    : AutopilotRule :=
  {| Rule_Name := "pool-" +:+ expandType +:+ "-fixedsize-" +:+ ToLower scaleSize +:+ "-available-" +:+ Itoa usage;
     MatchLabels := ∅;
     Expressions := [expression PxPoolAvailableCapacityMetric LabelSelectorOpLt [Itoa usage]];
     Actions := [{| Action_Name := StorageSpecAction;
                    Params := {[RuleActionsScaleSize := scaleSize; RuleScaleType := expandType]} |}];
     Enforcement := ""; ActionsCoolDownPeriod := 0 |}.

Definition enforcement (approvalRequired : bool) : string :=
  if approvalRequired then ApprovalRequired else "".

Definition PoolRuleRebalanceByProvisionedMean (values : list string) (approvalRequired : bool)
    : AutopilotRule :=
  {| Rule_Name := "pvc-rebalance-provisioned-mean-" +:+ Join values "-";
     MatchLabels := ∅;
     Expressions := [{| Key := ""; KeyAlias := RulePoolProvDeviationPercKeyAlias;
                        Operator := LabelSelectorOpNotInRange; Values := values |}];
     Actions := [{| Action_Name := RebalanceSpecAction; Params := ∅ |}];
     Enforcement := enforcement approvalRequired; ActionsCoolDownPeriod := 0 |}.

Definition PoolRuleRebalanceByUsageMean (values : list string) (approvalRequired : bool) : AutopilotRule :=
  {| Rule_Name := "pvc-rebalance-usage-mean-" +:+ Join values "-";
     MatchLabels := ∅;
     Expressions := [{| Key := ""; KeyAlias := RulePoolUsageDeviationPercKeyAlias;
                        Operator := LabelSelectorOpNotInRange; Values := values |}];
     Actions := [{| Action_Name := RebalanceSpecAction; Params := ∅ |}];
     Enforcement := enforcement approvalRequired; ActionsCoolDownPeriod := 0 |}.

Definition PoolRuleRebalanceAbsolute (provisionedValLimit usedValLimit : Z) (approvalRequired : bool)
    : AutopilotRule :=
  {| Rule_Name := "pool-rebalance-absolute-prov-" +:+ Itoa provisionedValLimit +:+ "-used-" +:+
                  Itoa usedValLimit;
     MatchLabels := ∅;
     Expressions := [expression PXPoolProvisionedSpaceMetric LabelSelectorOpGt [Itoa provisionedValLimit];
                     expression PXPoolUsedSpaceMetric LabelSelectorOpGt [Itoa usedValLimit]];
     Actions := [{| Action_Name := RebalanceSpecAction; Params := ∅ |}];
     Enforcement := enforcement approvalRequired; ActionsCoolDownPeriod := 0 |}.

(** The [if maxSize != empty] block at the end of the two volume rules *)
Definition with_maxsize (maxSize : string) (rule : AutopilotRule) : AutopilotRule :=
  if decide (maxSize = "") then rule
  else
    {| Rule_Name := Rule_Name rule +:+ "-maxsize-" +:+ ToLower maxSize;
       MatchLabels := MatchLabels rule;
       Expressions := Expressions rule;
       Actions := (λ a, {| Action_Name := Action_Name a; Params := <[RuleMaxSize := maxSize]> (Params a) |})
                    <$> Actions rule;
       Enforcement := Enforcement rule; ActionsCoolDownPeriod := ActionsCoolDownPeriod rule |}.

Definition PVCRuleByTotalSize (capacity scalePercentage : Z) (maxSize : string) : AutopilotRule :=
  with_maxsize maxSize
    {| Rule_Name := "pvc-total-" +:+ Itoa capacity +:+ "-scale-" +:+ Itoa scalePercentage;
       MatchLabels := ∅;
       Expressions := [expression PxVolumeTotalCapacityMetric LabelSelectorOpLt [Itoa capacity]];
       Actions := [{| Action_Name := VolumeSpecAction;
                      Params := {[RuleActionsScalePercentage := Itoa scalePercentage]} |}];
       Enforcement := ""; ActionsCoolDownPeriod := 0 |}.

Definition PVCRuleByUsageCapacity (usagePercentage scalePercentage : Z) (maxSize : string) : AutopilotRule :=
  with_maxsize maxSize
    {| Rule_Name := "pvc-usage-" +:+ Itoa usagePercentage +:+ "-scale-" +:+ Itoa scalePercentage;
       MatchLabels := ∅;
       Expressions := [expression PxVolumeUsagePercentMetric LabelSelectorOpGt [Itoa usagePercentage]];
       Actions := [{| Action_Name := VolumeSpecAction;
                      Params := {[RuleActionsScalePercentage := Itoa scalePercentage]} |}];
       Enforcement := ""; ActionsCoolDownPeriod := 0 |}.

(** ** Waiting for events and approvals *)

(** A Kubernetes event; the time stamp in seconds *)
Record Event := { Reason : string; Message : string; LastTimestamp : Z }.

Class AutopilotApi (W : Type) := {
  ListAutopilotRules : M W (list AutopilotRule);
  ListEvents : string → M W (list Event);
  ListActionApprovals : string → M W (list string);
}.

Section waits.
Context {W : Type} `{Clock W} `{AutopilotApi W}.

(** [meta_v1.Now().Unix()] *)
Definition now_unix : M W Z := λ w, (Ok (now w / Second), w).

(** The loop over [messages]: what the flag holds after it *)
Fixpoint message_found (found : bool) (message : string) (messages : list string) : bool :=
  match messages with
  | [] => found
  | m :: messages' => if Contains message m then message_found true message messages' else false
  end.

Definition reason_found (reason : string) (e : Event) : bool :=
  if decide (reason = "") then true else Contains (Reason e) reason.

Fixpoint scan_events (reason : string) (messages : list string) (events : list Event) : M W bool :=
  match events with
  | [] => mret false
  | e :: events' =>
      t ← now_unix;
      if decide (LastTimestamp e < t - 20) then scan_events reason messages events'
      else if reason_found reason e && message_found false (Message e) messages then mret true
      else scan_events reason messages events'
  end.

Definition WaitForAutopilotEvent (apRule : AutopilotRule) (reason : string) (messages : list string)
    : M W unit :=
  DoRetryWithTimeout
    (attempt (ListEvents ("involvedObject.kind=AutopilotRule,involvedObject.name=" +:+ Rule_Name apRule)) (λ r,
      match r with
      | inr err => mret (Stop err)
      | inl events =>
          found ← scan_events reason messages events;
          if (found : bool) then mret (Done tt)
          else mret (Retry (Errorf ("autopilot rule has no event with " +:+ reason +:+ " reason and " +:+
                 show_strings messages +:+ " message")))
      end))
    eventCheckTimeout eventCheckInterval.

Definition WaitForActionApprovalsObjects (namespace name : string) : M W unit :=
  DoRetryWithTimeout
    (attempt (ListActionApprovals namespace) (λ r,
      match r with
      | inr err => mret (Stop err)
      | inl [] => mret (Retry (Errorf "action approval object is empty"))
      | inl items =>
          if decide (name = "") then mret (Done tt)
          else if existsb (λ item, Contains name item) items then mret (Done tt)
          else mret (Retry (Errorf ("no action approval objects with " +:+ name +:+ " name found")))
      end))
    actionApprovalObjectTimeout actionApprovalObjectCheckInterval.

(** *** What a successful wait has seen *)

Lemma message_found_spec message messages :
  message_found false message messages = true ↔
  messages ≠ [] ∧ Forall (λ m, Contains message m = true) messages.
Proof.
  assert (∀ b ms, message_found b message ms = true ↔
    (ms = [] → b = true) ∧ Forall (λ m, Contains message m = true) ms) as Hgen.
  { intros b ms. revert b. induction ms as [|m ms IH]; intros b; simpl.
    - split; [by intros ->|]. intros [Hb _]. by apply Hb.
    - rewrite Forall_cons. destruct (Contains message m); [rewrite IH|]; naive_solver. }
  rewrite Hgen. naive_solver.
Qed.

(** An event that is recent at time [t], in seconds, and matches *)
Definition matching_event (reason : string) (messages : list string) (t : Z) (e : Event) : Prop :=
  t - 20 <= LastTimestamp e ∧ (reason = "" ∨ Contains (Reason e) reason = true) ∧
  messages ≠ [] ∧ Forall (λ m, Contains (Message e) m = true) messages.

Lemma scan_events_spec reason messages events w :
  ∃ b, scan_events reason messages events w = (Ok b, w) ∧
    (b = true ↔ Exists (matching_event reason messages (now w / Second)) events).
Proof.
  induction events as [|e events (b & IH & Hb)]; simpl.
  { exists false. split; [done|]. by rewrite Exists_nil. }
  unfold mbind, M_bind, now_unix. setoid_rewrite Exists_cons. unfold matching_event at 1.
  case_decide as Ht.
  { exists b. split; [done|]. rewrite Hb. split; [by right|]. intros [(? & _)|?]; [lia|done]. }
  destruct (reason_found reason e && message_found false (Message e) messages) eqn:E.
  - exists true. split; [done|]. split; [|done]. intros _. left.
    apply andb_true_iff in E as [Hr Hm%message_found_spec]. split; [lia|]. split; [|done].
    unfold reason_found in Hr. case_decide; [by left|by right].
  - exists b. split; [done|]. rewrite Hb. split; [by right|]. intros [(_ & Hr & Hm)|?]; [|done].
    apply message_found_spec in Hm. rewrite Hm, andb_true_r in E. unfold reason_found in E.
    case_decide; [done|]. destruct Hr as [->|Hr]; [done|]. by rewrite Hr in E.
Qed.

(** When [WaitForAutopilotEvent] returns without error, the last listing of the
    events of the rule has an event of the last 20 seconds with the reason and
    with every message; in particular it never succeeds without a message to
    look for. *)
Theorem WaitForAutopilotEvent_success apRule reason messages w w' :
  WaitForAutopilotEvent apRule reason messages w = (Ok tt, w') →
  messages ≠ [] ∧
  ∃ w1 events,
    ListEvents ("involvedObject.kind=AutopilotRule,involvedObject.name=" +:+ Rule_Name apRule) w1 =
      (Ok events, w') ∧
    Exists (matching_event reason messages (now w' / Second)) events.
Proof.
  intros Hw. apply DoRetryWithTimeout_Ok_inv in Hw as [w1 Ht]. unfold attempt in Ht.
  destruct (ListEvents _ w1) as [[events|e|s|] w2] eqn:E; [|done..].
  destruct (scan_events_spec reason messages events w2) as (b & Hs & Hb).
  unfold mbind, M_bind in Ht. rewrite Hs in Ht. unfold mret, M_ret in Ht.
  destruct b; simplify_eq. destruct (proj1 Hb eq_refl) as [e l (Ht & Hr & Hm & Ha)|e l Hex] eqn:?.
  - split; [done|]. exists w1, (e :: l). by split; [|left].
  - split; [|by exists w1, (e :: l); split; [|right]].
    clear -Hex. induction Hex as [? ? (_ & _ & ? & _)|]; done.
Qed.
End waits.
