(* ===== verification/Placement.v ===== *)
(** pkg/vpsutil/vpsutil.go: the validators of volume placement strategies.  They
    collect, for every value of a volume label, the nodes its volumes are
    placed on, and compare the collection with what the strategy demands. *)

From S2P Require Import Prelude GoStrings Errors Effects OpenStorageApi NodeRegistry.

Definition getNodePlacement (vol : ApiVolume) : list string := concat (Nodes <$> ReplicaSets vol).

Definition getVolumeLabelsValue (vol : ApiVolume) (key : string) : string :=
  default "" (VolumeLabels vol !! key).

(** [tests.Contains] (tests/common.go) *)
Definition contains_string (l : list string) (x : string) : bool :=
  existsb (λ v, bool_decide (v = x)) l.

Section placement.
(** [%v] of the collected map, and the order in which Go ranges over it *)
Context (show_data : gmap string (list string) → string).
Context (range_data : gmap string (list string) → list (string * list string)).
Hypothesis range_data_perm : ∀ m, range_data m ≡ₚ map_to_list m.

Definition nodes_at (m : gmap string (list string)) (label : string) : list string :=
  default [] (m !! label).

Definition append_node (m : gmap string (list string)) (label node : string) : gmap string (list string) :=
  <[label := nodes_at m label ++ [node]]> m.

(** The inner loop of [ValidateVolumeAntiAffinityByNode] *)
Fixpoint place_unique (label : string) (nodes : list string) (m : gmap string (list string))
    : outcome (gmap string (list string)) :=
  match nodes with
  | [] => Ok m
  | node :: nodes' =>
      if contains_string (nodes_at m label) node
      then Err (Errorf ("failed to validate vps deployment, expecting vol to be place on unique node but vol "
             +:+ label +:+ " is duplicated on node " +:+ node +:+ " ... data: " +:+ show_data m))
      else place_unique label nodes' (append_node m label node)
  end.

Fixpoint place_all_unique (key : string) (vols : list ApiVolume) (m : gmap string (list string))
    : outcome (gmap string (list string)) :=
  match vols with
  | [] => Ok m
  | vol :: vols' =>
      m' ← place_unique (getVolumeLabelsValue vol key) (getNodePlacement vol) m;
      place_all_unique key vols' m'
  end.

(** The loop over the collected map *)
Fixpoint check_lengths (expectedLength : Z) (data : gmap string (list string))
    (l : list (string * list string)) : outcome unit :=
  match l with
  | [] => Ok tt
  | (_, nodes) :: l' =>
      if decide (Z.of_nat (length nodes) ≠ expectedLength)
      then Err (Errorf ("failed to validate vps deployment, expecting label to exist in " +:+
             Itoa expectedLength +:+ " unique nodes, but got length " +:+
             Itoa (Z.of_nat (length nodes)) +:+ " and nodes " +:+ show_strings nodes +:+
             " .... data: " +:+ show_data data))
      else check_lengths expectedLength data l'
  end.

Definition ValidateVolumeAntiAffinityByNode (vols : list ApiVolume) (volumeLabelKey : string)
    (expectedLength : Z) : outcome unit :=
  volToNodeMap ← place_all_unique volumeLabelKey vols ∅;
  check_lengths expectedLength volToNodeMap (range_data volToNodeMap).

(** The inner loop of [ValidateVolumeAffinityByNode] *)
Fixpoint place_once (label : string) (nodes : list string) (m : gmap string (list string))
    : gmap string (list string) :=
  match nodes with
  | [] => m
  | node :: nodes' =>
      place_once label nodes'
        (if contains_string (nodes_at m label) node then m else append_node m label node)
  end.

Fixpoint place_all_once (key : string) (vols : list ApiVolume) (m : gmap string (list string))
    : gmap string (list string) :=
  match vols with
  | [] => m
  | vol :: vols' =>
      place_all_once key vols' (place_once (getVolumeLabelsValue vol key) (getNodePlacement vol) m)
  end.

Definition ValidateVolumeAffinityByNode (vols : list ApiVolume) (label : string) : outcome unit :=
  let volToNodeMap := place_all_once label vols ∅ in
  check_lengths 1 volToNodeMap (range_data volToNodeMap).

(** [ValidateReplicaAffinityByNode]; the id and host name of the node are read
    through its storage node, and only when there is a replica to compare. *)
Fixpoint replicas_on (deployedNode : Node) (nodes : list string) : outcome unit :=
  match nodes with
  | [] => Ok tt
  | node :: nodes' =>
      sn ← deref (storageNode deployedNode);
      if decide (node ≠ Id sn)
      then Err (Errorf ("failed to validate vps replica affinity deployment, expecting volume to be deployed on "
             +:+ Id sn +:+ " (hostname: " +:+ Hostname sn +:+ "), but was deployed on " +:+ node))
      else replicas_on deployedNode nodes'
  end.

Fixpoint ValidateReplicaAffinityByNode (vols : list ApiVolume) (deployedNode : Node) : outcome unit :=
  match vols with
  | [] => Ok tt
  | vol :: vols' =>
      _ ← replicas_on deployedNode (getNodePlacement vol);
      ValidateReplicaAffinityByNode vols' deployedNode
  end.

(** ** Properties *)

(** All placements of the volumes with one value of the label, in order *)
Definition placements (key : string) (vols : list ApiVolume) (label : string) : list string :=
  concat (getNodePlacement <$> keep (λ v, bool_decide (getVolumeLabelsValue v key = label)) vols).

Definition no_empty (m : gmap string (list string)) : Prop := map_Forall (λ _ l, l ≠ []) m.

Lemma contains_string_spec l x : contains_string l x = true ↔ x ∈ l.
Proof.
  unfold contains_string. rewrite existsb_exists. setoid_rewrite <- list_elem_of_In.
  setoid_rewrite bool_decide_eq_true. naive_solver.
Qed.

Lemma nodes_at_append m label node l :
  nodes_at (append_node m label node) l =
    if decide (l = label) then nodes_at m label ++ [node] else nodes_at m l.
Proof.
  unfold nodes_at, append_node. case_decide as Hl; subst.
  - by rewrite lookup_insert_eq.
  - by rewrite lookup_insert_ne.
Qed.

Lemma no_empty_append m label node : no_empty m → no_empty (append_node m label node).
Proof. intros Hm. apply map_Forall_insert_2; [by destruct (nodes_at m label)|done]. Qed.

Lemma placements_cons key vol vols label :
  placements key (vol :: vols) label =
    (if decide (label = getVolumeLabelsValue vol key) then getNodePlacement vol else []) ++
    placements key vols label.
Proof.
  unfold placements. simpl. case_decide as Hl; subst.
  - by rewrite bool_decide_eq_true_2.
  - by rewrite bool_decide_eq_false_2 by congruence.
Qed.

Lemma place_unique_spec label nodes m :
  NoDup (nodes_at m label) →
  match place_unique label nodes m with
  | Ok m' => NoDup (nodes_at m label ++ nodes) ∧ (no_empty m → no_empty m') ∧
      ∀ l, nodes_at m' l = if decide (l = label) then nodes_at m label ++ nodes else nodes_at m l
  | Err _ => ¬ NoDup (nodes_at m label ++ nodes)
  | _ => False
  end.
Proof.
  revert m. induction nodes as [|node nodes IH]; intros m Hnd; simpl.
  - rewrite app_nil_r. split_and!; [done..|]. intros l. by case_decide; subst.
  - destruct (contains_string _ _) eqn:Hc.
    + apply contains_string_spec in Hc. rewrite NoDup_app. intros (_ & Hd & _).
      apply (Hd node Hc). by left.
    + assert (node ∉ nodes_at m label) as Hn by (by rewrite <- contains_string_spec, Hc).
      specialize (IH (append_node m label node)). rewrite nodes_at_append, decide_True in IH by done.
      rewrite <- app_assoc in IH. simpl in IH.
      destruct (place_unique _ _ _) as [m'|e|s|]; apply IH || destruct IH as (Hu & He & Hl);
        try (apply NoDup_app; split_and!; [done| |apply NoDup_singleton];
             intros x Hx ->%list_elem_of_singleton; done).
      split_and!; [done|eauto using no_empty_append|]. intros l. rewrite Hl, nodes_at_append.
      by case_decide.
Qed.

Lemma place_all_unique_spec key vols m :
  (∀ l, NoDup (nodes_at m l)) →
  match place_all_unique key vols m with
  | Ok m' => (∀ l, NoDup (nodes_at m l ++ placements key vols l)) ∧ (no_empty m → no_empty m') ∧
      ∀ l, nodes_at m' l = nodes_at m l ++ placements key vols l
  | Err _ => ∃ l, ¬ NoDup (nodes_at m l ++ placements key vols l)
  | _ => False
  end.
Proof.
  revert m. induction vols as [|vol vols IH]; intros m Hnd; simpl.
  - split_and!; [intros l|done|intros l]; by rewrite app_nil_r.
  - pose proof (place_unique_spec (getVolumeLabelsValue vol key) (getNodePlacement vol) m (Hnd _)) as Hp.
    unfold mbind, outcome_bind.
    destruct (place_unique _ _ m) as [m1|e|s|]; [destruct Hp as (Hu & He & Hl)| |done..].
    + assert (∀ l, nodes_at m1 l ++ placements key vols l =
                nodes_at m l ++ placements key (vol :: vols) l) as Heq.
      { intros l. rewrite placements_cons, app_assoc, Hl. f_equal.
        case_decide; subst; [done|by rewrite app_nil_r]. }
      assert (∀ l, NoDup (nodes_at m1 l)) as Hnd1
        by (intros l; rewrite Hl; case_decide; [done|apply Hnd]).
      specialize (IH m1 Hnd1). destruct (place_all_unique key vols m1) as [m2|e|s|]; try done.
      * destruct IH as (Ha & Hb & Hc).
        split_and!; [intros l|auto|intros l]; by rewrite <- Heq.
      * destruct IH as [l Hl2]. exists l. by rewrite <- Heq.
    + exists (getVolumeLabelsValue vol key). rewrite placements_cons, decide_True, app_assoc by done.
      rewrite NoDup_app. tauto.
Qed.

Lemma check_lengths_spec n data l :
  match check_lengths n data l with
  | Ok _ => Forall (λ kv, Z.of_nat (length kv.2) = n) l
  | Err _ => ¬ Forall (λ kv, Z.of_nat (length kv.2) = n) l
  | _ => False
  end.
Proof.
  induction l as [|[k nodes] l IH]; simpl; [done|]. case_decide as Hn.
  - rewrite Forall_cons. simpl. tauto.
  - destruct (check_lengths n data l); try done; rewrite Forall_cons; simpl; [|tauto].
    split; [|done]. destruct (decide (Z.of_nat (length nodes) = n)); [done|tauto].
Qed.

(** The loop over the map looks at every label that has a node. *)
Lemma range_lengths n m :
  no_empty m →
  Forall (λ kv, Z.of_nat (length kv.2) = n) (range_data m) ↔
    ∀ l, nodes_at m l ≠ [] → Z.of_nat (length (nodes_at m l)) = n.
Proof.
  intros Hne. rewrite Forall_forall. setoid_rewrite range_data_perm. split.
  - intros Hf l Hl. unfold nodes_at in *. destruct (m !! l) as [ns|] eqn:E; [|done].
    apply (Hf (l, ns)). by apply elem_of_map_to_list.
  - intros Hf [l ns] Hin%elem_of_map_to_list. simpl. specialize (Hf l). unfold nodes_at in Hf.
    rewrite Hin in Hf. apply Hf. by apply (Hne l ns).
Qed.

Lemma nodes_at_empty l : nodes_at ∅ l = [].
Proof. unfold nodes_at. by rewrite lookup_empty. Qed.

(** C35. [ValidateVolumeAntiAffinityByNode] accepts exactly the placements in
    which, for every value of the label, the volumes with it are on pairwise
    different nodes, as many as expected; it answers with an error otherwise. *)
Theorem ValidateVolumeAntiAffinityByNode_spec vols key expectedLength :
  (ValidateVolumeAntiAffinityByNode vols key expectedLength = Ok tt ↔
     ∀ label, NoDup (placements key vols label) ∧
       (placements key vols label ≠ [] →
        Z.of_nat (length (placements key vols label)) = expectedLength)) ∧
  (ValidateVolumeAntiAffinityByNode vols key expectedLength ≠ Ok tt →
     ∃ e, ValidateVolumeAntiAffinityByNode vols key expectedLength = Err e).
Proof.
  unfold ValidateVolumeAntiAffinityByNode, mbind, outcome_bind.
  pose proof (place_all_unique_spec key vols ∅) as Hp.
  specialize (Hp ltac:(intros l; rewrite nodes_at_empty; apply NoDup_nil_2)).
  assert (∀ l, nodes_at ∅ l ++ placements key vols l = placements key vols l) as H0
    by (intros l; by rewrite nodes_at_empty).
  destruct (place_all_unique key vols ∅) as [m|e|s|]; [destruct Hp as (Hu & He & Hl)| |done..].
  - pose proof (check_lengths_spec expectedLength m (range_data m)) as Hc.
    specialize (He ltac:(apply map_Forall_empty)).
    assert (∀ l, nodes_at m l = placements key vols l) as Hm by (intros l; by rewrite Hl, H0).
    assert (∀ l, NoDup (placements key vols l)) as Hnd by (intros l; by rewrite <- H0).
    destruct (check_lengths _ _ _) as [[]|e|s|]; [| |done..]; rewrite (range_lengths _ _ He) in Hc.
    + split; [|done]. split; [|done]. intros _ l. split; [done|]. rewrite <- Hm. apply Hc.
    + split; [|by eauto]. split; [done|]. intros Hall. exfalso. apply Hc. intros l. rewrite Hm. apply Hall.
  - destruct Hp as [l Hl]. rewrite H0 in Hl. split; [|by eauto]. split; [done|]. intros Hall.
    by destruct (Hall l).
Qed.

(** *** Affinity *)

(** The nodes collected for a label, as a set *)
Definition collects (m : gmap string (list string)) (label : string) (P : string → Prop) : Prop :=
  NoDup (nodes_at m label) ∧ ∀ x, x ∈ nodes_at m label ↔ P x.

Lemma place_once_spec label nodes m :
  no_empty m → (∀ l, NoDup (nodes_at m l)) →
  no_empty (place_once label nodes m) ∧
  ∀ l, collects (place_once label nodes m) l (λ x, x ∈ nodes_at m l ∨ (l = label ∧ x ∈ nodes)).
Proof.
  revert m. induction nodes as [|node nodes IH]; intros m He Hnd; simpl.
  - split; [done|]. intros l. split; [done|]. intros x. rewrite elem_of_nil. tauto.
  - destruct (contains_string (nodes_at m label) node) eqn:Hc.
    + apply contains_string_spec in Hc. destruct (IH m He Hnd) as [He' Hl]. split; [done|].
      intros l. destruct (Hl l) as [Hn Hx]. split; [done|]. intros x.
      rewrite Hx, elem_of_cons. naive_solver.
    + assert (node ∉ nodes_at m label) as Hn by (by rewrite <- contains_string_spec, Hc).
      destruct (IH (append_node m label node)) as [He' Hl].
      { by apply no_empty_append. }
      { intros l. rewrite nodes_at_append. case_decide; [|done]. apply NoDup_app.
        split_and!; [done| |apply NoDup_singleton]. intros x Hx ->%list_elem_of_singleton. done. }
      split; [done|]. intros l. destruct (Hl l) as [Hn' Hx]. split; [done|]. intros x.
      rewrite Hx, nodes_at_append, elem_of_cons. case_decide; subst;
        [rewrite elem_of_app, list_elem_of_singleton|]; naive_solver.
Qed.

Lemma place_all_once_spec key vols m :
  no_empty m → (∀ l, NoDup (nodes_at m l)) →
  no_empty (place_all_once key vols m) ∧
  ∀ l, collects (place_all_once key vols m) l (λ x, x ∈ nodes_at m l ∨ x ∈ placements key vols l).
Proof.
  revert m. induction vols as [|vol vols IH]; intros m He Hnd; simpl.
  - split; [done|]. intros l. split; [done|]. intros x. unfold placements. simpl. rewrite elem_of_nil. tauto.
  - destruct (place_once_spec (getVolumeLabelsValue vol key) (getNodePlacement vol) m He Hnd) as [He1 Hl1].
    destruct (IH _ He1 (λ l, proj1 (Hl1 l))) as [He2 Hl2]. split; [done|]. intros l.
    destruct (Hl2 l) as [Hn Hx]. split; [done|]. intros x.
    rewrite Hx, placements_cons, elem_of_app. rewrite (proj2 (Hl1 l)).
    case_decide; subst; rewrite ?elem_of_nil; naive_solver.
Qed.

Lemma singleton_length (l : list string) : NoDup l → length l = 1%nat ↔ ∃ n, ∀ x, x ∈ l ↔ x = n.
Proof.
  intros Hnd. split.
  - destruct l as [|n [|]]; try done. intros _. exists n. intros x. apply list_elem_of_singleton.
  - intros [n Hn]. destruct l as [|a l]; [exfalso; apply (not_elem_of_nil n), Hn; done|].
    destruct l as [|b l]; [done|]. exfalso.
    assert (a = n) as -> by (apply Hn; by left). assert (b = n) as -> by (apply Hn; by right; left).
    apply NoDup_cons in Hnd as [Hnot _]. apply Hnot. by left.
Qed.

(** C37. [ValidateVolumeAffinityByNode] accepts exactly the placements in which
    all volumes with the same value of the label, if they are placed at all,
    are on one and the same node. *)
Theorem ValidateVolumeAffinityByNode_spec vols label :
  ValidateVolumeAffinityByNode vols label = Ok tt ↔
    ∀ value, placements label vols value ≠ [] → ∃ n, ∀ x, x ∈ placements label vols value → x = n.
Proof.
  unfold ValidateVolumeAffinityByNode.
  destruct (place_all_once_spec label vols ∅) as [He Hl]; [apply map_Forall_empty| |].
  { intros l. rewrite nodes_at_empty. apply NoDup_nil_2. }
  pose proof (check_lengths_spec 1 (place_all_once label vols ∅)
    (range_data (place_all_once label vols ∅))) as Hc.
  assert ((∀ l, nodes_at (place_all_once label vols ∅) l ≠ [] →
             Z.of_nat (length (nodes_at (place_all_once label vols ∅) l)) = 1) ↔
          ∀ value, placements label vols value ≠ [] →
            ∃ n, ∀ x, x ∈ placements label vols value → x = n) as Hiff.
  { apply forall_proper. intros l. destruct (Hl l) as [Hn Hx].
    assert (∀ x, x ∈ nodes_at (place_all_once label vols ∅) l ↔ x ∈ placements label vols l) as Hx'.
    { intros x. rewrite Hx, nodes_at_empty, elem_of_nil. tauto. }
    assert (nodes_at (place_all_once label vols ∅) l = [] ↔ placements label vols l = []) as Hnil.
    { split; intros Hz; apply elem_of_nil_inv; intros x;
        [rewrite <- Hx'|rewrite Hx']; rewrite Hz; apply not_elem_of_nil. }
    rewrite Hnil. split; intros Himp Hne; specialize (Himp Hne).
    - destruct (proj1 (singleton_length _ Hn)) as [n Hs]; [lia|]. exists n. intros x. by rewrite <- Hx', Hs.
    - destruct Himp as [n Hs]. assert (length (nodes_at (place_all_once label vols ∅) l) = 1%nat) as ->; [|done].
      apply singleton_length; [done|]. exists n. intros x. rewrite Hx'. split; [apply Hs|].
      intros ->. destruct (placements label vols l) as [|y l'] eqn:E; [done|].
      rewrite <- (Hs y); by left. }
  rewrite <- Hiff, <- range_lengths by done.
  destruct (check_lengths _ _ _) as [[]|e|s|]; [done| |done..]. split; [done|tauto].
Qed.

(** [ValidateReplicaAffinityByNode] accepts exactly the placements on the node;
    a node without storage node is not looked at unless there is a replica. *)
Lemma ValidateReplicaAffinityByNode_spec vols n sn :
  storageNode n = Some sn →
  ValidateReplicaAffinityByNode vols n = Ok tt ↔
    ∀ vol x, vol ∈ vols → x ∈ getNodePlacement vol → x = Id sn.
Proof.
  intros Hsn.
  assert (∀ nodes, replicas_on n nodes = Ok tt ↔ ∀ x, x ∈ nodes → x = Id sn) as Hr.
  { induction nodes as [|x nodes IH]; simpl; [split; [by intros _ x ?%elem_of_nil|done]|].
    rewrite Hsn. simpl. unfold mbind, outcome_bind. case_decide as Hx.
    - split; [done|]. intros Hall. destruct Hx. apply Hall. by left.
    - rewrite IH. setoid_rewrite elem_of_cons. split; [|naive_solver].
      intros Hall y [->|Hy]; [|by apply Hall]. by destruct (decide (x = Id sn)). }
  induction vols as [|vol vols IH]; simpl; [split; [by intros _ ?? ?%elem_of_nil|done]|].
  unfold mbind, outcome_bind. setoid_rewrite elem_of_cons.
  destruct (replicas_on n (getNodePlacement vol)) as [[]|e|s|] eqn:E.
  2-4: split; [done|]; intros Hall; rewrite (proj2 (Hr _)) in E; [done|naive_solver].
  rewrite IH. pose proof (proj1 (Hr _) E). naive_solver.
Qed.
End placement.

Module PlacementDemo.

Definition spread (name label : string) (nodes : list string) : ApiVolume :=
  {| Vol_Id := name; Locator_Name := name; VolumeLabels := {["app" := label]};
     Vol_Spec := {| Ephemeral := false; Spec_Size := 0; Spec_Format := 0; BlockSize := 0; HaLevel := 1;
       SnapshotInterval := 0; AggregationLevel := 1; Sticky := false; Spec_Group := None;
       GroupEnforced := false; Spec_IoProfile := IO_PROFILE_NONE; Spec_ReplicaSet := None;
       Spec_ProxySpec := None |};
     Vol_Readonly := false; Source_Parent := None; Vol_Status := VOLUME_STATUS_UP;
     Vol_State := VOLUME_STATE_ATTACHED; AttachedState := ATTACH_STATE_EXTERNAL; AttachedOn := "";
     AttachPath := []; DevicePath := ""; ReplicaSets := [{| Nodes := nodes; PoolUuids := [] |}];
     RuntimeState := []; DerivedIoProfile := IO_PROFILE_NONE |}.

(** Two databases on different nodes; two caches on one node *)
Definition vols : list ApiVolume :=
  [spread "v1" "db" ["n1"]; spread "v2" "db" ["n2"]].
Definition together : list ApiVolume :=
  [spread "v3" "cache" ["n1"]; spread "v4" "cache" ["n1"]].

Lemma ValidateVolumeAntiAffinityByNode_spec_witness :
  ValidateVolumeAntiAffinityByNode (λ _, "") map_to_list vols "app" 2 = Ok tt ∧
  ∀ label, NoDup (placements "app" vols label) ∧
    (placements "app" vols label ≠ [] → Z.of_nat (length (placements "app" vols label)) = 2).
Proof.
  split; [vm_compute; reflexivity|].
  apply (ValidateVolumeAntiAffinityByNode_spec (λ _, "") map_to_list (λ m, reflexivity _) vols "app" 2).
  vm_compute. reflexivity.
Defined.

Lemma ValidateVolumeAffinityByNode_spec_witness :
  placements "app" together "cache" = ["n1"; "n1"] ∧
  ∀ value, placements "app" together value ≠ [] →
    ∃ n, ∀ x, x ∈ placements "app" together value → x = n.
Proof.
  split; [vm_compute; reflexivity|].
  apply (ValidateVolumeAffinityByNode_spec (λ _, "") map_to_list (λ m, reflexivity _) together "app").
  vm_compute. reflexivity.
Defined.

(** Volumes on the same node violate anti-affinity. *)
Example together_is_not_spread :
  match ValidateVolumeAntiAffinityByNode (λ _, "") map_to_list together "app" 1 with
  | Err _ => True | _ => False end.
Proof. vm_compute. exact I. Qed.
End PlacementDemo.
