(* ===== verification/SpecFactory.v ===== *)
(** drivers/scheduler/spec: application specs (spec.go) and the factory that
    reads them from a directory and hands out copies (factory.go).

    The factory's map is a global variable: it is the state the operations are
    run on.  A spec object is whatever the parser of the scheduler made. *)

From Stdlib Require Import Ascii.
From S2P Require Import Prelude GoStrings Errors Effects.

(** [AppSpec] *)
Record AppSpec (O : Type) := {
  Key : string;
  SpecList : list O;
  Enabled : bool;
  IsCSI : bool;
  NameSpace : string;
}.
Arguments Key {O} _.
Arguments SpecList {O} _.
Arguments Enabled {O} _.
Arguments IsCSI {O} _.
Arguments NameSpace {O} _.

Section factory.
Context {O : Type}.

Definition GetID (app : AppSpec O) (instanceID : string) : string := Key app +:+ "-" +:+ instanceID.

(** [DeepCopy] of an app that is not nil: a new spec list with the same
    objects; the fields it does not assign keep their zero values. *)
Definition DeepCopy (app : AppSpec O) : AppSpec O :=
  {| Key := Key app; SpecList := SpecList app; Enabled := Enabled app; IsCSI := false;
     NameSpace := "" |}.

(** [Parser.ParseSpecs] on a directory and a storage provisioner, the listing of
    a directory with a flag for directories, and Go's order of the factory's
    map *)
Class SpecSource := {
  ParseSpecs : string → string → outcome (list O);
  ReadDir : string → outcome (list (string * bool));
  range_apps : gmap string (AppSpec O) → list (string * AppSpec O);
}.

Class SpecSourceLaws `{SpecSource} : Prop := {
  range_apps_perm : ∀ m, range_apps m ≡ₚ map_to_list m;
}.

Context `{SpecSource}.

Definition register (id : string) (app : AppSpec O) : M (gmap string (AppSpec O)) unit := λ apps,
  (Ok tt, <[id := app]> apps).

Definition Get (id : string) : M (gmap string (AppSpec O)) (AppSpec O) := λ apps,
  match apps !! id with
  | Some d => if Enabled d then (Ok (DeepCopy d), apps) else (Err (ErrNotFound id "AppSpec"), apps)
  | None => (Err (ErrNotFound id "AppSpec"), apps)
  end.

Definition GetAll : M (gmap string (AppSpec O)) (list (AppSpec O)) := λ apps,
  (Ok (DeepCopy <$> keep Enabled (range_apps apps).*2), apps).

(** [Factory], less the parser, which is [ParseSpecs] above *)
Record Factory := { specDir : string }.

(** The loop of [NewFactory] *)
Fixpoint scan_dirs (f : Factory) (storageProvisioner : string) (files : list (string * bool))
    : M (gmap string (AppSpec O)) unit :=
  match files with
  | [] => mret tt
  | (specID, isDir) :: files' =>
      if (isDir : bool) then
        specs ← lift (ParseSpecs (path_Join (specDir f) specID) storageProvisioner);
        match specs with
        | [] => scan_dirs f storageProvisioner files'
        | _ => _ ← register specID {| Key := specID; SpecList := specs; Enabled := true; IsCSI := false;
                                      NameSpace := "" |};
               scan_dirs f storageProvisioner files'
        end
      else scan_dirs f storageProvisioner files'
  end.

Definition NewFactory (dir storageProvisioner : string) : M (gmap string (AppSpec O)) Factory :=
  let f := {| specDir := dir |} in
  appDirList ← lift (ReadDir (specDir f));
  _ ← scan_dirs f storageProvisioner appDirList;
  apps ← GetAll;
  match apps with
  | [] => throw (Errorf ("found 0 supported applications in given specDir: " +:+ dir))
  | _ => mret f
  end.

(** ** Properties *)

(** The app the factory makes of a directory *)
Definition app_of (specID : string) (specs : list O) : AppSpec O :=
  {| Key := specID; SpecList := specs; Enabled := true; IsCSI := false; NameSpace := "" |}.

Lemma scan_dirs_Ok f prov files apps apps' :
  scan_dirs f prov files apps = (Ok tt, apps') → NoDup files.*1 →
  ∀ id, match (list_to_map files : gmap string bool) !! id with
        | Some true => ∃ specs, ParseSpecs (path_Join (specDir f) id) prov = Ok specs ∧
            apps' !! id = match specs with [] => apps !! id | _ => Some (app_of id specs) end
        | _ => apps' !! id = apps !! id
        end.
Proof.
  revert apps. induction files as [|[sid d] files IH]; intros apps Hs Hnd id.
  { unfold scan_dirs, mret, M_ret in Hs. simplify_eq. simpl. by rewrite lookup_empty. }
  simpl in Hnd. apply NoDup_cons in Hnd as [Hnot Hnd]. simpl list_to_map.
  assert ((list_to_map files : gmap string bool) !! sid = None) as Hnone
    by (by apply not_elem_of_list_to_map_1).
  destruct d; simpl in Hs.
  - apply bind_Ok_inv in Hs as (specs & apps1 & Hp & Hs). unfold lift in Hp. simplify_eq.
    destruct (ParseSpecs _ _) as [sp|?|?|] eqn:Hparse; simplify_eq. destruct specs as [|o os].
    + destruct (decide (id = sid)) as [->|Hne].
      * rewrite lookup_insert_eq. specialize (IH _ Hs Hnd sid). rewrite Hnone in IH. eauto.
      * rewrite lookup_insert_ne by done. by apply IH.
    + apply bind_Ok_inv in Hs as ([] & apps2 & Hr & Hs). unfold register in Hr. simplify_eq.
      specialize (IH _ Hs Hnd id). destruct (decide (id = sid)) as [->|Hne].
      * rewrite lookup_insert_eq. rewrite Hnone, lookup_insert_eq in IH. eauto.
      * rewrite lookup_insert_ne by done. by rewrite lookup_insert_ne in IH by done.
  - destruct (decide (id = sid)) as [->|Hne].
    + rewrite lookup_insert_eq. specialize (IH _ Hs Hnd sid). by rewrite Hnone in IH.
    + rewrite lookup_insert_ne by done. by apply IH.
Qed.

(** When [NewFactory] succeeds, every directory of the listing whose specs
    are not empty can be got under its name, enabled and with exactly the
    parsed specs - also when an application of the name was registered before -
    and what was registered before under other names is untouched. *)
Theorem NewFactory_Get dir prov apps apps' f files :
  ReadDir dir = Ok files → NoDup files.*1 →
  NewFactory dir prov apps = (Ok f, apps') →
  specDir f = dir ∧
  (∀ id specs, (id, true) ∈ files → ParseSpecs (path_Join dir id) prov = Ok specs → specs ≠ [] →
     Get id apps' = (Ok (app_of id specs), apps')) ∧
  (∀ id, id ∉ files.*1 → apps' !! id = apps !! id).
Proof.
  intros Hdir Hnd Hf. unfold NewFactory in Hf. simpl specDir in Hf. rewrite Hdir in Hf.
  apply bind_Ok_inv in Hf as (l & a1 & Hl & Hf). unfold lift in Hl. simplify_eq.
  apply bind_Ok_inv in Hf as ([] & a2 & Hs & Hf).
  assert (f = {| specDir := dir |} ∧ apps' = a2) as [-> ->].
  { unfold mbind, M_bind, GetAll, throw, mret, M_ret in Hf. by destruct (DeepCopy <$> _); simplify_eq. }
  pose proof (scan_dirs_Ok _ _ _ _ _ Hs Hnd) as Hall. split; [done|]. split.
  - intros id specs Hin Hp Hne. specialize (Hall id).
    rewrite (proj1 (elem_of_list_to_map _ _ _ Hnd) Hin) in Hall.
    destruct Hall as (specs' & Hp' & Hlook). simpl in Hp'. rewrite Hp in Hp'. simplify_eq.
    unfold Get. destruct specs' as [|o os]; [done|]. by rewrite Hlook.
  - intros id Hid. specialize (Hall id). by rewrite (not_elem_of_list_to_map_1 _ _ Hid) in Hall.
Qed.

(** [GetAll] lists the copies of exactly the enabled applications. *)
Lemma GetAll_spec `{!SpecSourceLaws} apps l apps' :
  GetAll apps = (Ok l, apps') →
  apps' = apps ∧ ∀ c, c ∈ l ↔ ∃ id app, apps !! id = Some app ∧ Enabled app = true ∧ c = DeepCopy app.
Proof.
  unfold GetAll. intros Hg. simplify_eq. split; [done|]. intros c.
  rewrite list_elem_of_fmap. setoid_rewrite elem_of_keep. setoid_rewrite list_elem_of_fmap.
  setoid_rewrite range_apps_perm.
  split.
  - intros (app & -> & ([id app'] & -> & Hin%elem_of_map_to_list) & He). by exists id, app'.
  - intros (id & app & Hid & He & ->). exists app. split; [done|]. split; [|done].
    exists (id, app). split; [done|]. by apply elem_of_map_to_list.
Qed.

(** A copy forgets that the application needs CSI and where it is installed. *)
Lemma Get_forgets id app apps :
  Enabled app = true →
  Get id (register id app apps).2 =
    (Ok {| Key := Key app; SpecList := SpecList app; Enabled := true; IsCSI := false; NameSpace := "" |},
     (register id app apps).2).
Proof.
  intros He. unfold Get, register. simpl. rewrite lookup_insert_eq, He. unfold DeepCopy. by rewrite He.
Qed.
End factory.

Module FactoryDemo.

(** Specs of three directories of a path written with a trailing slash *)
#[export] Instance demo_source : SpecSource (O := string) := {
  ParseSpecs := λ dir prov,
    if decide (dir = "drivers/specs/docs") then Ok [] else Ok [dir +:+ "/deployment"; dir +:+ "/" +:+ prov];
  ReadDir := λ _, Ok [("mysql", true); ("docs", true); ("README.md", false)];
  range_apps := map_to_list;
}.

Example path_Join_cleans :
  path_Join "../drivers//x/../specs/" "mysql" = "../drivers/specs/mysql" ∧ path_Join "/.." "a" = "/a" ∧
  path_Join "" "" = "" ∧ path_Join "a" ".." = ".".
Proof. vm_compute. done. Qed.

Lemma NewFactory_Get_witness :
  Get "mysql" (NewFactory "drivers/specs/" "portworx" ∅).2 =
    (Ok (app_of "mysql" ["drivers/specs/mysql/deployment"; "drivers/specs/mysql/portworx"]),
     (NewFactory "drivers/specs/" "portworx" ∅).2).
Proof.
  apply (NewFactory_Get "drivers/specs/" "portworx" ∅ (NewFactory "drivers/specs/" "portworx" ∅).2
    {| specDir := "drivers/specs/" |} [("mysql", true); ("docs", true); ("README.md", false)]).
  - reflexivity.
  - vm_compute. repeat constructor; rewrite ?elem_of_cons, elem_of_nil; intuition discriminate.
  - vm_compute. reflexivity.
  - by left.
  - vm_compute. reflexivity.
  - discriminate.
Defined.
End FactoryDemo.
