(* ===== verification/PxDriver.v ===== *)
(** drivers/volume/portworx/portworx.go: the state of the Portworx driver, the
    interfaces it calls, and how it connects to the cluster and fills the node
    registry.

    The fields of [*portworx] that change are in [PxState], together with the
    node registry of drivers/node.  A client is known by the endpoint it was
    made for; an SDK call is a function of the world, so the endpoints in the
    driver's state decide, with the rest of the world, its answer. *)

From Stdlib Require Import Ascii.
From S2P Require Import Prelude GoStrings Errors Effects Task OpenStorageApi NodeRegistry.

(** ** Interfaces *)

Record PxState := {
  nodeRegistry : gmap string Node;
  refreshEndpoint : bool;
  skipPXSvcEndpoint : bool;
  token : string;
  namespace : string;
  clusterManager : string;
  sdkClients : string;
  legacyClusterManager : string;
}.

(** [net.JoinHostPort] and [netutil.MakeURL] (pkg/netutil/netutil.go) *)
Definition JoinHostPort (host port : string) : string :=
  if Contains host ":" then "[" +:+ host +:+ "]:" +:+ port else host +:+ ":" +:+ port.

Definition MakeURL (urlPrefix ip : string) (port : Z) : string :=
  urlPrefix +:+ JoinHostPort ip (Itoa port).

(** The world of the driver: a clock, the driver's state, and Go's choice of
    an order for each iteration of the registry. *)
Class PxWorld (W : Type) := {
  PxWorld_Clock :: Clock W;
  px : W → PxState;
  set_px : PxState → W → W;
  range_nodes : M W (list Node);
}.

Class PxWorldLaws (W : Type) `{PxWorld W} : Prop := {
  PxWorldLaws_Clock :: ClockLaws W;
  px_set_px : ∀ s w, px (set_px s w) = s;
  now_set_px : ∀ s w, now (set_px s w) = now w;
  px_sleep : ∀ d w, px (sleep d w) = px w;
  range_nodes_spec : ∀ w, ∃ l w', range_nodes w = (Ok l, w') ∧
    l ≡ₚ (map_to_list (nodeRegistry (px w))).*2 ∧ px w' = px w ∧ now w' = now w;
}.

(** [node.ConnectionOpts] *)
Record ConnectionOpts := {
  Timeout : Z;
  TimeBeforeRetry : Z;
  IgnoreError : bool;
  Sudo : bool;
}.

Definition conn_opts (timeout timeBeforeRetry : Z) : ConnectionOpts :=
  {| Timeout := timeout; TimeBeforeRetry := timeBeforeRetry; IgnoreError := false; Sudo := false |}.

(** [node.Driver], the operations the volume driver uses *)
Class NodeDriver (W : Type) := {
  RunCommand : Node → string → ConnectionOpts → M W string;
  RunCommandWithNoRetry : Node → string → ConnectionOpts → M W string;
  Systemctl : Node → string → string → ConnectionOpts → M W unit;
}.

(** [schedops.Driver], the operations the volume driver uses *)
Class SchedOps (W : Type) := {
  IsPXEnabled : Node → M W bool;
  IsPXReadyOnNode : Node → M W bool;
  GetServiceEndpoint : M W string;
  GetTokenFromConfigMap : string → M W string;
  GetPortworxNamespace : M W string;
  StartPxOnNode : Node → M W unit;
  StopPxOnNode : Node → M W unit;
  RestartPxOnNode : Node → M W unit;
}.

(** The Kubernetes core client *)
Record ServicePort := { port_Name : string; port_Port : Z; port_TargetPort : Z }.

Class K8sCore (W : Type) := {
  GetService : string → string → M W (list ServicePort);
  AddLabelOnNode : string → string → string → M W unit;
  RemoveLabelOnNode : string → string → M W unit;
  UnCordonNode : string → Z → Z → M W unit;
}.

(** The OpenStorage SDK clients and the REST endpoint of the driver.  The REST
    client is made for a URL ([client.NewClient]); [kvmembers_Do] gets its
    resource [kvmembers] with a token, and [kvmembers_Unmarshal] decodes the
    body into the client URLs of each member, in the order Go ranges over the
    decoded map.  The legacy cluster client is made for a URL, a version and,
    with [NewAuthClusterClient], a token. *)
Class PxSdk (W : Type) := {
  node_Enumerate : M W (list string);
  node_Inspect : string → M W StorageNode;
  cluster_Status : M W Status;
  cluster_InspectCurrent : M W unit;
  grpc_Dial : string → M W unit;
  NewClusterClient : string → string → outcome unit;
  NewAuthClusterClient : string → string → string → outcome unit;
  legacy_Enumerate : string → string → M W unit;
  NewClient : string → outcome unit;
  rest_get : string → string → M W unit;
  kvmembers_Do : string → string → M W string;
  kvmembers_Unmarshal : string → outcome (list (list string));
  show_px_nodes : list StorageNode → string;
  show_px_node : StorageNode → string;
}.

Definition PXServiceName : string := "portworx-service".
Definition PXServiceLabelKey : string := "px/service".
Definition PXEnabledLabelKey : string := "px/enabled".

(** A label of the Kubernetes scheduler (drivers/scheduler/k8s/k8s.go) *)
Definition TopologyZoneK8sNodeLabel : string := "topology.portworx.io/zone".

(** ** Constants *)

Definition defaultTimeout : Z := 2 * Minute.
Definition defaultRetryInterval : Z := 10 * Second.
Definition podUpRetryInterval : Z := 30 * Second.
Definition maintenanceOpTimeout : Z := 1 * Minute.
Definition maintenanceWaitTimeout : Z := 10 * Minute.
Definition inspectVolumeTimeout : Z := 2 * Minute.
Definition inspectVolumeRetryInterval : Z := 3 * Second.
Definition validateReplicationUpdateTimeout : Z := 60 * Minute.
Definition validateClusterStartTimeout : Z := 2 * Minute.
Definition validatePXStartTimeout : Z := 5 * Minute.
Definition validatePxPodsUpTimeout : Z := 30 * Minute.
Definition validateNodeStopTimeout : Z := 5 * Minute.
Definition validateStoragePoolSizeTimeout : Z := 3 * Hour.
Definition validateStoragePoolSizeInterval : Z := 30 * Second.
Definition validateRebalanceJobsTimeout : Z := 30 * Minute.
Definition validateRebalanceJobsInterval : Z := 30 * Second.
Definition getNodeTimeout : Z := 3 * Minute.
Definition getNodeRetryInterval : Z := 5 * Second.
Definition stopDriverTimeout : Z := 5 * Minute.
Definition crashDriverTimeout : Z := 2 * Minute.
Definition startDriverTimeout : Z := 2 * Minute.
Definition waitVolDriverToCrash : Z := 1 * Minute.
Definition waitDriverDownOnNodeRetryInterval : Z := 2 * Second.
Definition validateDeleteVolumeTimeout : Z := 15 * Minute.

Definition ErrFailedToWaitForPx (n : Node) (cause : string) : error :=
  PxErr PxErrFailedToWaitForPx (Name n) cause.

Section px_driver.
Context {W : Type} `{PxWorld W} `{NodeDriver W} `{SchedOps W} `{K8sCore W} `{PxSdk W}.

Definition get_px : M W PxState := λ w, (Ok (px w), w).

Definition modify_px (f : PxState → PxState) : M W unit := λ w, (Ok tt, set_px (f (px w)) w).

Definition pause (d : Z) : M W unit := λ w, (Ok tt, sleep d w).

Definition set_refreshEndpoint (b : bool) : M W unit :=
  modify_px (λ s, {| nodeRegistry := nodeRegistry s; refreshEndpoint := b;
    skipPXSvcEndpoint := skipPXSvcEndpoint s; token := token s; namespace := namespace s;
    clusterManager := clusterManager s; sdkClients := sdkClients s;
    legacyClusterManager := legacyClusterManager s |}).

Definition set_token (t : string) : M W unit :=
  modify_px (λ s, {| nodeRegistry := nodeRegistry s; refreshEndpoint := refreshEndpoint s;
    skipPXSvcEndpoint := skipPXSvcEndpoint s; token := t; namespace := namespace s;
    clusterManager := clusterManager s; sdkClients := sdkClients s;
    legacyClusterManager := legacyClusterManager s |}).

Definition set_namespace (ns : string) : M W unit :=
  modify_px (λ s, {| nodeRegistry := nodeRegistry s; refreshEndpoint := refreshEndpoint s;
    skipPXSvcEndpoint := skipPXSvcEndpoint s; token := token s; namespace := ns;
    clusterManager := clusterManager s; sdkClients := sdkClients s;
    legacyClusterManager := legacyClusterManager s |}).

Definition set_clients (f : string * string * string → string * string * string) : M W unit :=
  modify_px (λ s,
    let '(c, k, l) := f (clusterManager s, sdkClients s, legacyClusterManager s) in
    {| nodeRegistry := nodeRegistry s; refreshEndpoint := refreshEndpoint s;
       skipPXSvcEndpoint := skipPXSvcEndpoint s; token := token s; namespace := namespace s;
       clusterManager := c; sdkClients := k; legacyClusterManager := l |}).

(** [node.UpdateNode] on the registry of the world *)
Definition registry_UpdateNode (n : Node) : M W unit := λ w,
  let s := px w in
  let '(o, reg) := Registry.UpdateNode n (nodeRegistry s) in
  (o, set_px {| nodeRegistry := reg; refreshEndpoint := refreshEndpoint s;
    skipPXSvcEndpoint := skipPXSvcEndpoint s; token := token s; namespace := namespace s;
    clusterManager := clusterManager s; sdkClients := sdkClients s;
    legacyClusterManager := legacyClusterManager s |} w).

(** [node.GetWorkerNodes] and [node.GetStorageDriverNodes] *)
Definition registry_GetWorkerNodes : M W (list Node) :=
  l ← range_nodes; mret (keep (λ n, bool_decide (Type_ n = TypeWorker)) l).

Definition registry_GetStorageDriverNodes : M W (list Node) :=
  l ← range_nodes; mret (keep IsStorageDriverInstalled l).

(** *** Ports and endpoints *)

(** [getRestPort], [getRestContainerPort], [getSDKPort] and
    [getSDKContainerPort] differ in the port name, the field returned and the
    message. *)
Definition service_port (name : string) (field : ServicePort → Z) (msg : string) : M W Z :=
  s ← get_px;
  ports ← GetService PXServiceName (namespace s);
  match find_first (λ p, bool_decide (port_Name p = name)) ports with
  | Some p => mret (field p)
  | None => throw (Errorf msg)
  end.

Definition getRestPort : M W Z :=
  service_port "px-api" port_Port "px-api port not found in service".
Definition getRestContainerPort : M W Z :=
  service_port "px-api" port_TargetPort "px-api target port not found in service".
Definition getSDKPort : M W Z :=
  service_port "px-sdk" port_Port "px-sdk port not found in service".
Definition getSDKContainerPort : M W Z :=
  service_port "px-sdk" port_TargetPort "px-sdk target port not found in service".

Definition getLegacyClusterManager (endpoint : string) (pxdRestPort : Z) : M W string :=
  let pxEndpoint := MakeURL "http://" endpoint pxdRestPort in
  s ← get_px;
  _ ← lift (if decide (token s ≠ "") then NewAuthClusterClient pxEndpoint "v1" (token s)
            else NewClusterClient pxEndpoint "v1");
  _ ← legacy_Enumerate pxEndpoint (token s);
  mret pxEndpoint.

(** The cluster client is replaced before it is tried; only an endpoint that is
    unavailable is turned down, any other error of the trial call is ignored. *)
Definition testAndSetEndpoint (endpoint : string) (sdkport apiport : Z) : M W unit :=
  let pxEndpoint := JoinHostPort endpoint (Itoa sdkport) in
  _ ← grpc_Dial pxEndpoint;
  _ ← set_clients (λ '(_, k, l), (pxEndpoint, k, l));
  attempt cluster_InspectCurrent (λ r,
    match r with
    | inr (GrpcError code_Unavailable desc) => throw (GrpcError code_Unavailable desc)
    | _ =>
        _ ← set_clients (λ '(c, _, l), (c, pxEndpoint, l));
        legacy ← getLegacyClusterManager endpoint apiport;
        set_clients (λ '(c, k, _), (c, k, legacy))
    end).

Definition testAndSetEndpointUsingService (endpoint : string) : M W unit :=
  sdkPort ← getSDKPort;
  restPort ← getRestPort;
  testAndSetEndpoint endpoint sdkPort restPort.

Definition testAndSetEndpointUsingNodeIP (ip : string) : M W unit :=
  sdkPort ← getSDKContainerPort;
  restPort ← getRestContainerPort;
  testAndSetEndpoint ip sdkPort restPort.

(** The double loop over the addresses of the worker nodes: the first address
    that answers is kept. *)
Fixpoint try_addresses (addrs : list string) : M W bool :=
  match addrs with
  | [] => mret false
  | addr :: addrs' =>
      attempt (testAndSetEndpointUsingNodeIP addr) (λ r,
        match r with
        | inl _ => mret true
        | inr _ => try_addresses addrs'
        end)
  end.

Definition try_cluster_nodes : M W unit :=
  _ ← set_refreshEndpoint true;
  workers ← registry_GetWorkerNodes;
  found ← try_addresses (concat (Addresses <$> workers));
  if (found : bool) then mret tt
  else throw (Errorf "failed to get endpoint for portworx volume driver").

Definition setDriver : M W unit :=
  s ← get_px;
  if skipPXSvcEndpoint s then try_cluster_nodes
  else
    attempt GetServiceEndpoint (λ r,
      match r with
      | inl endpoint =>
          if decide (endpoint = "") then try_cluster_nodes
          else attempt (testAndSetEndpointUsingService endpoint) (λ r',
            match r' with
            | inl _ => set_refreshEndpoint false
            | inr _ => try_cluster_nodes
            end)
      | inr err =>
          workers ← registry_GetWorkerNodes;
          if decide (length workers = 0%nat) then throw err else try_cluster_nodes
      end).

(** [getNodeManager], [getVolDriver], ...: reconnect when asked to; the error
    of [setDriver] is dropped. *)
Definition refresh_client : M W unit :=
  s ← get_px;
  if refreshEndpoint s then attempt setDriver (λ _, mret tt) else mret tt.

(** *** Nodes of the cluster *)

Fixpoint inspect_nodes (ids : list string) (nodes : list StorageNode) : M W (list StorageNode) :=
  match ids with
  | [] => mret nodes
  | n :: ids' =>
      nodeResp ← DoRetryWithTimeout
        (attempt (node_Inspect n) (λ r,
          match r with
          | inr err => mret (Retry err)
          | inl resp =>
              if decide (MgmtIp resp = "")
              then mret (Retry (Errorf ("got an empty MgmtIp from SdkNodeInspectRequest, response: "
                     +:+ show_px_node resp)))
              else mret (Done resp)
          end)) defaultTimeout defaultRetryInterval;
      inspect_nodes ids' (nodes ++ [nodeResp])
  end.

(** [getPxNodes(nManagers...)]: without a manager the connection is refreshed
    first, and [refreshEndpoint] is false afterwards. *)
Definition getPxNodes (nManagers : bool) : M W (list StorageNode) :=
  _ ← (if nManagers then mret tt
       else _ ← set_refreshEndpoint true;
            _ ← refresh_client;
            set_refreshEndpoint false);
  ids ← node_Enumerate;
  inspect_nodes ids [].

Definition getPxNodeByID (nodeID : string) : M W StorageNode :=
  _ ← refresh_client;
  nodeResponse ← node_Inspect nodeID;
  if decide (MgmtIp nodeResponse = "")
  then throw (Errorf "got an empty MgmtIp from SdkNodeInspectRequest")
  else mret nodeResponse.

Definition getStorageNodesOnStart : M W (list StorageNode) :=
  _ ← DoRetryWithTimeout
    (attempt (_ ← refresh_client; cluster_Status) (λ r,
      match r with
      | inr err => mret (Retry err)
      | inl st =>
          if decide (st = STATUS_OK) then mret (Done tt)
          else mret (Retry (PxErr PxErrFailedToWaitForPx ""
                 ("px cluster is still not up. Status: " +:+ Status_String st)))
      end)) validateClusterStartTimeout defaultRetryInterval;
  getPxNodes false.

(** [GetStoragelessNodes] *)
Definition GetStoragelessNodes : M W (list StorageNode) :=
  pxnodes ← getPxNodes false;
  mret (keep (λ p, Nat.eqb (length (Pools p)) 0) pxnodes).

(** *** Metadata nodes *)

(** The regular expression [http:\/\/(?P<address>[\d\.]+):(?P<port>\d+)]:
    [after_scheme] is the match after the scheme, [http_address] the leftmost
    match. *)
Fixpoint after_scheme (acc s : string) : option string :=
  match s with
  | EmptyString => None
  | String c s' =>
      if is_digit c || Ascii.eqb c "."%char
      then after_scheme (acc +:+ String c EmptyString) s'
      else if Ascii.eqb c ":"%char && negb (bool_decide (acc = "")) &&
              match s' with String d _ => is_digit d | EmptyString => false end
      then Some acc else None
  end.

Fixpoint http_address (s : string) : option string :=
  match (if HasPrefix s "http://" then after_scheme "" (TrimPrefix s "http://") else None) with
  | Some a => Some a
  | None => match s with
            | EmptyString => None
            | String _ s' => http_address s'
            end
  end.

Definition url_is_at (address url : string) : bool :=
  match http_address url with
  | Some val => bool_decide (address = Trim val "[]")
  | None => false
  end.

(** [GetKvdbMembers]: the service endpoint, or the first address of the node
    when there is none; a driver without the command has no members. *)
Definition GetKvdbMembers (n : Node) : M W (list (list string)) :=
  pxdRestPort ← getRestPort;
  s ← get_px;
  endpoint ← (if skipPXSvcEndpoint s then mret ""
              else attempt GetServiceEndpoint (λ r, mret (match r with inl e => e | inr _ => "" end)));
  url ← (if decide (endpoint = "") then
           port ← getRestContainerPort;
           addr ← lift (index (Addresses n) 0);
           mret (MakeURL "http://" addr port)
         else mret (MakeURL "http://" endpoint pxdRestPort));
  _ ← lift (NewClient url);
  attempt (kvmembers_Do url (token s)) (λ r,
    match r with
    | inl body => lift (kvmembers_Unmarshal body)
    | inr err => if Contains (Error err) "command not supported" then mret [] else throw err
    end).

Definition isMetadataNode (n : Node) (address : string) : M W bool :=
  attempt (GetKvdbMembers n) (λ r,
    match r with
    | inr err => throw (Errorf ("failed to get metadata nodes, Err: " +:+ Error err))
    | inl members => mret (existsb (existsb (url_is_at address)) members)
    end).

(** *** Updating the registry *)

Definition px_node_matches (n : Node) (address : string) (p : StorageNode) : bool :=
  bool_decide (address = DataIp p) || bool_decide (address = MgmtIp p) ||
  bool_decide (Name n = SchedulerNodeName p).

(** The double loop over addresses and PX nodes, left at the first match. *)
Fixpoint find_px_node (n : Node) (addrs : list string) (pxNodes : list StorageNode)
    : option (string * StorageNode) :=
  match addrs with
  | [] => None
  | address :: addrs' =>
      match find_first (px_node_matches n address) pxNodes with
      | Some p => Some (address, p)
      | None => find_px_node n addrs' pxNodes
      end
  end.

(** The fields assigned before [isMetadataNode] is asked. *)
Definition attach_px_node (isPX : bool) (pxNode : StorageNode) (n : Node) : Node :=
  {| storageNode := Some pxNode; uuid := uuid n; VolDriverNodeID := Id pxNode; Name := Name n;
     Addresses := Addresses n; UsableAddr := UsableAddr n; Type_ := Type_ n; Zone := Zone n;
     Region := Region n; TopologyZone := TopologyZone n; TopologyRegion := TopologyRegion n;
     IsStorageDriverInstalled := isPX; IsMetadataNode := IsMetadataNode n;
     StoragePools := StoragePools n; PxPodRestartCount := PxPodRestartCount n |}.

(** The metadata flag, and the pools when the PX node has any. *)
Definition attach_pools (isMeta : bool) (pxNode : StorageNode) (n : Node) : Node :=
  {| storageNode := storageNode n; uuid := uuid n; VolDriverNodeID := VolDriverNodeID n;
     Name := Name n; Addresses := Addresses n; UsableAddr := UsableAddr n; Type_ := Type_ n;
     Zone := Zone n; Region := Region n; TopologyZone := TopologyZone n;
     TopologyRegion := TopologyRegion n; IsStorageDriverInstalled := IsStorageDriverInstalled n;
     IsMetadataNode := isMeta;
     StoragePools :=
       match Pools pxNode with
       | [] => StoragePools n
       | pools => (λ p, {| SP_pool := p; SP_AtInit := p; SP_WorkloadSize := 0 |}) <$> pools
       end;
     PxPodRestartCount := PxPodRestartCount n |}.

(** [updateNode(n *node.Node, pxNodes)]: the node behind the pointer is the
    second component of the world. *)
Definition updateNode (pxNodes : list StorageNode) : M (W * Node) unit :=
  n ← get_local;
  isPX ← up (IsPXEnabled n);
  if negb isPX then mret tt
  else match find_px_node n (Addresses n) pxNodes with
  | Some (address, pxNode) =>
      if decide (Id pxNode = "")
      then throw (Errorf ("StorageNodeId is empty for node [" +:+ Hostname pxNode +:+ "]"))
      else
        let n1 := attach_px_node isPX pxNode n in
        _ ← put_local n1;
        isMeta ← attempt (up (isMetadataNode n1 address)) (λ r,
          match r with inl b => mret b | inr _ => mret false end);
        let n2 := attach_pools isMeta pxNode n1 in
        _ ← put_local n2;
        wrap_err (λ err, Errorf ("failed to update node [" +:+ Name n +:+ "], Err: " +:+ Error err))
          (up (registry_UpdateNode n2))
  | None =>
      throw (Errorf ("failed to find PX node for node [" +:+ Name n +:+ "] in PX node list: " +:+
        show_px_nodes pxNodes))
  end.

(** [updateNodes]: the loop variable is a copy of the node. *)
Fixpoint update_all (l : list Node) (pxNodes : list StorageNode) : M W unit :=
  match l with
  | [] => mret tt
  | n :: l' => _ ← run_local n (updateNode pxNodes); update_all l' pxNodes
  end.

Definition updateNodes (pxNodes : list StorageNode) : M W unit :=
  l ← range_nodes; update_all l pxNodes.

(** [updateNodeID(n, nManager...)]; the node returned on success is the node
    behind the pointer.  The error message reads [n.Id] through the embedded
    storage node, which may be nil. *)
Definition updateNodeID : M (W * Node) unit :=
  nodes ← up (getPxNodes true);
  attempt (updateNode nodes) (λ r,
    match r with
    | inl _ => mret tt
    | inr err =>
        n' ← get_local;
        sn ← lift (deref (storageNode n'));
        throw (Errorf ("failed to update node ID for node [" +:+ Name n' +:+ "] with ID [" +:+
          Id sn +:+ "] in the cluster, Err: " +:+ Error err))
    end).

(** [RefreshDriverEndpoints]; [config_map] is the value of the command-line flag. *)
Definition RefreshDriverEndpoints (config_map : string) : M W unit :=
  _ ← (if decide (config_map = "") then mret tt
       else tok ← GetTokenFromConfigMap config_map; set_token tok);
  ns ← GetPortworxNamespace;
  _ ← set_namespace ns;
  _ ← set_refreshEndpoint true;
  storageNodes ← getStorageNodesOnStart;
  if decide (length storageNodes = 0%nat)
  then throw (Errorf "cluster inspect returned empty nodes")
  else updateNodes storageNodes.

(** [UpdateNodeWithStorageInfo(n, skipNodeName)] *)
Definition skip_index (skipNodeName : string) (storageNodes : list StorageNode) : option nat :=
  if decide (skipNodeName = "") then None
  else fst <$> list_find (λ sn, Hostname sn = skipNodeName) storageNodes.

(** [append(storageNodes[:skipIdx], storageNodes[skipIdx:]...)] *)
Definition drop_skipped (skipNodeName : string) (storageNodes : list StorageNode) : list StorageNode :=
  match skip_index skipNodeName storageNodes with
  | Some skipIdx => take skipIdx storageNodes ++ drop skipIdx storageNodes
  | None => storageNodes
  end.

Definition UpdateNodeWithStorageInfo (n : Node) (skipNodeName : string) : M W unit :=
  storageNodes ← getPxNodes false;
  run_local n (updateNode (drop_skipped skipNodeName storageNodes)).
End px_driver.

(** ** The driver's own memory

    Calls to the scheduler, the SDK and the nodes cannot write the memory of
    the program: they leave the driver's fields and the registry alone.  They
    may take time but do not turn the clock back. *)
Class External {W A} `{PxWorld W} (m : M W A) : Prop :=
  external : ∀ w, px (m w).2 = px w ∧ now w <= now (m w).2.

(** Asking whether the pod on a node is ready stores the restarts of the pod in the
    registry entry of the node: the node is written as the caller has it, but for the
    number of restarts. *)
Definition set_PxPodRestartCount (c : Z) (n : Node) : Node :=
  {| storageNode := storageNode n; uuid := uuid n; VolDriverNodeID := VolDriverNodeID n; Name := Name n;
     Addresses := Addresses n; UsableAddr := UsableAddr n; Type_ := Type_ n; Zone := Zone n; Region := Region n;
     TopologyZone := TopologyZone n; TopologyRegion := TopologyRegion n;
     IsStorageDriverInstalled := IsStorageDriverInstalled n; IsMetadataNode := IsMetadataNode n;
     StoragePools := StoragePools n; PxPodRestartCount := c |}.

Definition with_registry (reg : gmap string Node) (s : PxState) : PxState :=
  {| nodeRegistry := reg; refreshEndpoint := refreshEndpoint s; skipPXSvcEndpoint := skipPXSvcEndpoint s;
     token := token s; namespace := namespace s; clusterManager := clusterManager s; sdkClients := sdkClients s;
     legacyClusterManager := legacyClusterManager s |}.

Definition Recounts {W A} `{PxWorld W} (n : Node) (m : M W A) : Prop :=
  ∀ w, now w <= now (m w).2 ∧
    (px (m w).2 = px w ∨
     ∃ c, px (m w).2 = with_registry (Registry.UpdateNode (set_PxPodRestartCount c n) (nodeRegistry (px w))).2 (px w)).

Class SchedOpsFrame (W : Type) `{PxWorld W} `{SchedOps W} : Prop := {
  IsPXEnabled_external :: ∀ n, External (IsPXEnabled n);
  IsPXReadyOnNode_recounts : ∀ n, Recounts n (IsPXReadyOnNode n);
  GetServiceEndpoint_external :: External GetServiceEndpoint;
  GetTokenFromConfigMap_external :: ∀ c, External (GetTokenFromConfigMap c);
  GetPortworxNamespace_external :: External GetPortworxNamespace;
  StartPxOnNode_external :: ∀ n, External (StartPxOnNode n);
  StopPxOnNode_external :: ∀ n, External (StopPxOnNode n);
  RestartPxOnNode_external :: ∀ n, External (RestartPxOnNode n);
}.

Class NodeDriverFrame (W : Type) `{PxWorld W} `{NodeDriver W} : Prop := {
  RunCommand_external :: ∀ n c o, External (RunCommand n c o);
  RunCommandWithNoRetry_external :: ∀ n c o, External (RunCommandWithNoRetry n c o);
  Systemctl_external :: ∀ n s a o, External (Systemctl n s a o);
}.

Class PxFrame (W : Type) `{PxWorld W} `{NodeDriver W} `{SchedOps W} `{K8sCore W} `{PxSdk W}
    : Prop := {
  PxFrame_SchedOps :: SchedOpsFrame W;
  PxFrame_NodeDriver :: NodeDriverFrame W;
  GetService_external :: ∀ s ns, External (GetService s ns);
  AddLabelOnNode_external :: ∀ n k v, External (AddLabelOnNode n k v);
  RemoveLabelOnNode_external :: ∀ n k, External (RemoveLabelOnNode n k);
  UnCordonNode_external :: ∀ n t i, External (UnCordonNode n t i);
  node_Enumerate_external :: External node_Enumerate;
  node_Inspect_external :: ∀ id, External (node_Inspect id);
  cluster_Status_external :: External cluster_Status;
  cluster_InspectCurrent_external :: External cluster_InspectCurrent;
  grpc_Dial_external :: ∀ e, External (grpc_Dial e);
  legacy_Enumerate_external :: ∀ u t, External (legacy_Enumerate u t);
  rest_get_external :: ∀ u r, External (rest_get u r);
  kvmembers_Do_external :: ∀ u t, External (kvmembers_Do u t);
}.

(** Calls made of external calls are external. *)
Section external_calls.
Context {W : Type} `{PxWorld W}.

#[export] Instance mret_external {A} (a : A) : External (mret a : M W A).
Proof. intros w. split; [done|simpl; lia]. Qed.

#[export] Instance throw_external {A} e : External (throw e : M W A).
Proof. intros w. split; [done|simpl; lia]. Qed.

#[export] Instance lift_external {A} (o : outcome A) : External (lift o : M W A).
Proof. intros w. split; [done|simpl; lia]. Qed.

#[export] Instance get_px_external : External (get_px (W := W)).
Proof. intros w. split; [done|simpl; lia]. Qed.

#[export] Instance bind_external {A B} (m : M W A) (k : A → M W B) :
  External m → (∀ a, External (k a)) → External (m ≫= k).
Proof.
  intros Hm Hk w. unfold mbind, M_bind. specialize (Hm w).
  destruct (m w) as [[a|e|s|] w1]; [|done..]. specialize (Hk a w1). simpl in *.
  destruct Hm, Hk. split; [congruence|lia].
Qed.

#[export] Instance attempt_external {A B} (m : M W A) (k : A + error → M W B) :
  External m → (∀ r, External (k r)) → External (attempt m k).
Proof.
  intros Hm Hk w. unfold attempt. specialize (Hm w).
  destruct (m w) as [[a|e|s|] w1]; [specialize (Hk (inl a) w1)|specialize (Hk (inr e) w1)|done..];
    simpl in *; destruct Hm, Hk; (split; [congruence|lia]).
Qed.
End external_calls.

(** Split a call along its binds and branches down to the calls it makes. *)
Ltac external_calls :=
  repeat first [ apply _ | apply bind_external | apply attempt_external
               | progress intros | case_match ].

Section px_theorems.
Context {W : Type} `{PxWorldLaws W} `{NodeDriver W} `{SchedOps W} `{K8sCore W} `{PxSdk W}.
Context `{!PxFrame W}.

#[export] Instance service_port_external name field msg : External (service_port name field msg).
Proof. unfold service_port. external_calls. Qed.

#[export] Instance GetKvdbMembers_external n : External (GetKvdbMembers n).
Proof.
  unfold GetKvdbMembers, getRestPort, getRestContainerPort.
  external_calls.
Qed.

(** Invariants of the driver's memory that do not speak of the endpoint. *)
Definition on_registry (P : gmap string Node → Prop) (w : W) : Prop := P (nodeRegistry (px w)).

Lemma preserves_external {A} P (m : M W A) `{!External m} : preserves (on_registry P) m.
Proof. intros w Hw. unfold on_registry. by rewrite (proj1 (external w)). Qed.

Lemma preserves_modify P f :
  (∀ s, nodeRegistry (f s) = nodeRegistry s) → preserves (on_registry P) (modify_px f).
Proof. intros Hf w Hw. unfold on_registry, modify_px; simpl. by rewrite px_set_px, Hf. Qed.

Lemma preserves_range P : preserves (on_registry P) range_nodes.
Proof.
  intros w Hw. destruct (range_nodes_spec w) as (l & w' & -> & _ & Hpx & _).
  unfold on_registry; simpl. by rewrite Hpx.
Qed.

Lemma preserves_get_px P : preserves (on_registry P) get_px.
Proof. by intros w. Qed.

Lemma on_registry_sleep P d w : on_registry P w → on_registry P (sleep d w).
Proof. unfold on_registry. by rewrite px_sleep. Qed.

Lemma preserves_pause P d : preserves (on_registry P) (pause d).
Proof. intros w. apply on_registry_sleep. Qed.

Hint Extern 2 (preserves _ _) => apply preserves_external; typeclasses eauto : torpedo.
Hint Resolve preserves_modify preserves_range preserves_get_px
  on_registry_sleep preserves_pause : torpedo.

Lemma preserves_set_clients P f : preserves (on_registry P) (set_clients f).
Proof.
  apply preserves_modify. intros s.
  by destruct (f (clusterManager s, sdkClients s, legacyClusterManager s)) as [[c k] l].
Qed.
Hint Resolve preserves_set_clients : torpedo.

Lemma preserves_testAndSetEndpoint P e s r : preserves (on_registry P) (testAndSetEndpoint e s r).
Proof. unfold testAndSetEndpoint, getLegacyClusterManager. preserve. Qed.
Hint Resolve preserves_testAndSetEndpoint : torpedo.

Lemma preserves_setDriver P : preserves (on_registry P) setDriver.
Proof.
  assert (∀ addrs, preserves (on_registry P) (try_addresses addrs)) as Ha.
  { induction addrs; simpl; unfold testAndSetEndpointUsingNodeIP, getSDKContainerPort,
      getRestContainerPort; preserve. }
  unfold setDriver, try_cluster_nodes, registry_GetWorkerNodes, set_refreshEndpoint,
    testAndSetEndpointUsingService, getSDKPort, getRestPort. preserve.
Qed.
Hint Resolve preserves_setDriver : torpedo.

Lemma preserves_refresh_client P : preserves (on_registry P) refresh_client.
Proof. unfold refresh_client. preserve. Qed.
Hint Resolve preserves_refresh_client : torpedo.

Lemma preserves_getPxNodes P b : preserves (on_registry P) (getPxNodes b).
Proof.
  assert (∀ ids nodes, preserves (on_registry P) (inspect_nodes ids nodes)) as Hi.
  { induction ids; intros; simpl; preserve. }
  unfold getPxNodes, set_refreshEndpoint. preserve.
Qed.
Hint Resolve preserves_getPxNodes : torpedo.

Lemma preserves_getStorageNodesOnStart P : preserves (on_registry P) getStorageNodesOnStart.
Proof.
  unfold getStorageNodesOnStart. preserve.
Qed.
Hint Resolve preserves_getStorageNodesOnStart : torpedo.

(** *** The registry stays well formed *)

Definition J (wl : W * Node) : Prop :=
  on_registry Registry.wf wl.1 ∧ Registry.driver_info wl.2.

Lemma preserves_J_up {A} (m : M W A) : preserves (on_registry Registry.wf) m → preserves J (up m).
Proof. intros Hm [w n] [Hw Hn]. rewrite up_eq. split; [by apply Hm|done]. Qed.

Lemma preserves_J_put n : Registry.driver_info n → preserves J (put_local n).
Proof. intros Hn [w l] [Hw _]. done. Qed.

Lemma preserves_J_get : preserves J get_local.
Proof. by intros wl. Qed.

Lemma preserves_registry_UpdateNode n :
  Registry.driver_info n → preserves (on_registry Registry.wf) (registry_UpdateNode n).
Proof.
  intros Hn w Hw. unfold registry_UpdateNode, on_registry in *.
  pose proof (Registry.UpdateNode_wf n _ Hn Hw).
  destruct (Registry.UpdateNode n _) as [o reg]. simpl. by rewrite px_set_px.
Qed.

Lemma preserves_IsPXReadyOnNode n :
  Registry.driver_info n → preserves (on_registry Registry.wf) (IsPXReadyOnNode n).
Proof.
  intros Hn w Hw. unfold on_registry in *. destruct (IsPXReadyOnNode_recounts n w) as [_ [->|[c ->]]]; [done|].
  by apply Registry.UpdateNode_wf.
Qed.

Lemma driver_info_attached isPX p n : Registry.driver_info (attach_px_node isPX p n).
Proof. intros _. by exists p. Qed.

Lemma driver_info_pools b p isPX n :
  Registry.driver_info (attach_pools b p (attach_px_node isPX p n)).
Proof. intros _. by exists p. Qed.

Hint Resolve preserves_J_up preserves_J_put preserves_J_get preserves_registry_UpdateNode preserves_IsPXReadyOnNode
  driver_info_attached driver_info_pools : torpedo.

Lemma preserves_updateNode pxNodes : preserves J (updateNode pxNodes).
Proof.
  unfold updateNode, isMetadataNode. preserve. apply preserves_J_up. preserve.
Qed.

Lemma preserves_updateNodes pxNodes : preserves (on_registry Registry.wf) (updateNodes pxNodes).
Proof.
  assert (∀ l, Forall Registry.driver_info l →
    preserves (on_registry Registry.wf) (update_all l pxNodes)) as Hall.
  { induction 1 as [|n l Hn Hl IH]; simpl; preserve.
    apply (preserves_run_local _ J); [by intros|by intros ? []|apply preserves_updateNode]. }
  intros w Hw. unfold updateNodes, mbind, M_bind.
  destruct (range_nodes_spec w) as (l & w' & -> & Hl & Hpx & _).
  apply Hall; [|unfold on_registry; by rewrite Hpx].
  apply Forall_forall. intros n. rewrite Hl, list_elem_of_fmap.
  intros ([k n'] & -> & Hin%elem_of_map_to_list). by destruct (Hw _ _ Hin) as (_ & _ & ?).
Qed.
Hint Resolve preserves_updateNodes : torpedo.

(** *** Where the driver is connected *)

(** All clients were made for the host. *)
Definition connected (host : string) (s : PxState) : Prop :=
  ∃ sdk api, clusterManager s = JoinHostPort host (Itoa sdk) ∧
    sdkClients s = JoinHostPort host (Itoa sdk) ∧
    legacyClusterManager s = MakeURL "http://" host api.

(** States that differ in the clients only *)
Definition same_memory (s0 : PxState) (w : W) : Prop :=
  nodeRegistry (px w) = nodeRegistry s0 ∧ refreshEndpoint (px w) = refreshEndpoint s0.

Lemma same_memory_external {A} s0 (m : M W A) `{!External m} : preserves (same_memory s0) m.
Proof. intros w Hw. unfold same_memory. by rewrite (proj1 (external w)). Qed.

Lemma same_memory_set_clients s0 f : preserves (same_memory s0) (set_clients f).
Proof.
  intros w Hw. unfold same_memory, set_clients, modify_px. simpl. rewrite px_set_px.
  by destruct (f (clusterManager (px w), sdkClients (px w), legacyClusterManager (px w))) as [[c k] l].
Qed.

#[export] Instance getLegacyClusterManager_external e p : External (getLegacyClusterManager e p).
Proof. unfold getLegacyClusterManager. external_calls. Qed.

Lemma same_memory_testAndSetEndpoint s0 e s r : preserves (same_memory s0) (testAndSetEndpoint e s r).
Proof.
  unfold testAndSetEndpoint.
  repeat first [ apply same_memory_external; apply _ | apply same_memory_set_clients | preserve_step ].
Qed.

Definition clients (s : PxState) : string * string * string :=
  (clusterManager s, sdkClients s, legacyClusterManager s).

Lemma set_clients_Ok f w u w' :
  set_clients f w = (Ok u, w') → clients (px w') = f (clients (px w)).
Proof.
  unfold set_clients, modify_px, clients. intros Hs. simplify_eq. rewrite px_set_px.
  by destruct (f (clusterManager (px w), sdkClients (px w), legacyClusterManager (px w))) as [[c k] l].
Qed.

Lemma external_clients {A} (m : M W A) `{!External m} w o w' : m w = (o, w') → px w' = px w.
Proof. intros Hm. pose proof (external (m := m) w) as [Hp _]. by rewrite Hm in Hp. Qed.

Lemma getLegacyClusterManager_Ok e api w url w' :
  getLegacyClusterManager e api w = (Ok url, w') → url = MakeURL "http://" e api.
Proof.
  unfold getLegacyClusterManager. intros Hl. apply bind_Ok_inv in Hl as (s & w1 & _ & Hl).
  apply bind_Ok_inv in Hl as (_ & w2 & _ & Hl). apply bind_Ok_inv in Hl as (_ & w3 & _ & Hl).
  unfold mret, M_ret in Hl. by simplify_eq.
Qed.

Lemma testAndSetEndpoint_Ok e sdk api w w' :
  testAndSetEndpoint e sdk api w = (Ok tt, w') → connected e (px w').
Proof.
  intros Ht. apply bind_Ok_inv in Ht as (_ & w1 & _ & Ht).
  apply bind_Ok_inv in Ht as (_ & w2 & Hc1%set_clients_Ok & Ht). unfold attempt in Ht.
  destruct (cluster_InspectCurrent w2) as [o w3] eqn:Hi. apply external_clients in Hi; [|apply _].
  assert ((_ ← set_clients (λ '(c, _, l), (c, JoinHostPort e (Itoa sdk), l));
           legacy ← getLegacyClusterManager e api;
           set_clients (λ '(c, k, _), (c, k, legacy))) w3 = (Ok tt, w')) as Hk.
  { destruct o as [[]|err|s|]; try done. by repeat (case_match; try done). }
  clear Ht. apply bind_Ok_inv in Hk as (_ & w4 & Hc2%set_clients_Ok & Hk).
  apply bind_Ok_inv in Hk as (url & w5 & Hl & Hc3%set_clients_Ok).
  pose proof (getLegacyClusterManager_Ok _ _ _ _ _ Hl) as ->. apply external_clients in Hl; [|apply _].
  rewrite Hl, Hc2, Hi, Hc1 in Hc3. unfold clients in Hc3. simplify_eq. by exists sdk, api.
Qed.

Lemma testAndSetEndpoint_via_Ok e (p1 p2 : M W Z) w w' :
  (sdk ← p1; api ← p2; testAndSetEndpoint e sdk api) w = (Ok tt, w') → connected e (px w').
Proof.
  intros Ht. apply bind_Ok_inv in Ht as (sdk & w1 & _ & Ht). apply bind_Ok_inv in Ht as (api & w2 & _ & Ht).
  by eapply testAndSetEndpoint_Ok.
Qed.

Lemma same_memory_NodeIP s0 addr : preserves (same_memory s0) (testAndSetEndpointUsingNodeIP addr).
Proof.
  unfold testAndSetEndpointUsingNodeIP, getSDKContainerPort, getRestContainerPort.
  repeat first [ apply same_memory_external; apply _ | apply same_memory_testAndSetEndpoint | preserve_step ].
Qed.

Lemma same_memory_Service s0 ep : preserves (same_memory s0) (testAndSetEndpointUsingService ep).
Proof.
  unfold testAndSetEndpointUsingService, getSDKPort, getRestPort.
  repeat first [ apply same_memory_external; apply _ | apply same_memory_testAndSetEndpoint | preserve_step ].
Qed.

Lemma try_addresses_true s0 addrs w w' :
  same_memory s0 w → try_addresses addrs w = (Ok true, w') →
  same_memory s0 w' ∧ ∃ addr, addr ∈ addrs ∧ connected addr (px w').
Proof.
  revert w. induction addrs as [|a addrs IH]; intros w Hm Ht; [done|]. simpl in Ht. unfold attempt in Ht.
  pose proof (same_memory_NodeIP s0 a w Hm) as Hm1.
  destruct (testAndSetEndpointUsingNodeIP a w) as [[[]|e|s|] w1] eqn:E; [| |done..].
  - unfold mret, M_ret in Ht. simplify_eq. split; [done|]. exists a. split; [by left|].
    by eapply testAndSetEndpoint_via_Ok.
  - destruct (IH w1 Hm1 Ht) as (? & addr & ? & ?). split; [done|]. exists addr. split; [by right|done].
Qed.

(** The workers of the registry *)
Definition worker_address (reg : gmap string Node) (addr : string) : Prop :=
  ∃ u n, reg !! u = Some n ∧ Type_ n = TypeWorker ∧ addr ∈ Addresses n.

Lemma registry_GetWorkerNodes_spec w l w' :
  registry_GetWorkerNodes w = (Ok l, w') →
  px w' = px w ∧ ∀ n, n ∈ l ↔ (∃ u, nodeRegistry (px w) !! u = Some n) ∧ Type_ n = TypeWorker.
Proof.
  intros Hg. apply bind_Ok_inv in Hg as (all & w1 & Hr & Hk). unfold mret, M_ret in Hk. simplify_eq.
  destruct (range_nodes_spec w) as (l' & w2 & Hr' & Hl & Hpx & _). rewrite Hr' in Hr. simplify_eq.
  split; [done|]. intros n. rewrite elem_of_keep, Hl, list_elem_of_fmap, bool_decide_eq_true.
  split; intros [Hin Ht]; (split; [|done]).
  - destruct Hin as ([u n'] & -> & Hin%elem_of_map_to_list). by exists u.
  - destruct Hin as [u Hu]. exists (u, n). split; [done|]. by apply elem_of_map_to_list.
Qed.

Lemma try_cluster_nodes_Ok s0 w w' :
  nodeRegistry (px w) = nodeRegistry s0 → try_cluster_nodes w = (Ok tt, w') →
  nodeRegistry (px w') = nodeRegistry s0 ∧ refreshEndpoint (px w') = true ∧
  ∃ addr, worker_address (nodeRegistry s0) addr ∧ connected addr (px w').
Proof.
  intros Hreg Ht. apply bind_Ok_inv in Ht as (u & w1 & Hs & Ht).
  unfold set_refreshEndpoint, modify_px in Hs. simplify_eq.
  apply bind_Ok_inv in Ht as (workers & w2 & [Hpx Hw]%registry_GetWorkerNodes_spec & Ht).
  rewrite px_set_px in Hpx, Hw. simpl in Hw.
  apply bind_Ok_inv in Ht as (found & w3 & Hf & Ht). destruct found; [|done].
  unfold mret, M_ret in Ht. simplify_eq.
  apply (try_addresses_true (px w2)) in Hf as ([Hr Hb] & addr & Hin & Hc); [|done].
  rewrite Hr, Hb, Hpx. simpl. split_and!; [done..|]. exists addr. split; [|done].
  apply list_elem_of_In, in_concat in Hin as (addrs & (n & -> & Hn)%list_elem_of_In%list_elem_of_fmap & Ha).
  apply list_elem_of_In in Ha.
  apply Hw in Hn as [[u Hu] Hty]. rewrite Hreg in Hu. by exists u, n.
Qed.

(** When [setDriver] succeeds all clients of the driver were made for one
    host: the service endpoint, and then the endpoint is kept, or an address
    of a worker node, and then it is looked for again at the next use.  The
    registry is unchanged. *)
Theorem setDriver_Ok w w' :
  setDriver w = (Ok tt, w') →
  nodeRegistry (px w') = nodeRegistry (px w) ∧
  ((refreshEndpoint (px w') = false ∧ skipPXSvcEndpoint (px w) = false ∧
    ∃ ep, (GetServiceEndpoint w).1 = Ok ep ∧ ep ≠ "" ∧ connected ep (px w')) ∨
   (refreshEndpoint (px w') = true ∧
    ∃ addr, worker_address (nodeRegistry (px w)) addr ∧ connected addr (px w'))).
Proof.
  intros Hs. apply bind_Ok_inv in Hs as (s0 & w1 & Hg & Hs). unfold get_px in Hg. simplify_eq.
  assert (∀ w2, nodeRegistry (px w2) = nodeRegistry (px w1) → try_cluster_nodes w2 = (Ok tt, w') →
    nodeRegistry (px w') = nodeRegistry (px w1) ∧ (refreshEndpoint (px w') = true ∧
      ∃ addr, worker_address (nodeRegistry (px w1)) addr ∧ connected addr (px w'))) as Htry
    by (intros w2; apply try_cluster_nodes_Ok).
  destruct (skipPXSvcEndpoint (px w1)) eqn:Hskip.
  { destruct (Htry w1 eq_refl Hs) as (? & ?). auto. }
  unfold attempt in Hs. destruct (GetServiceEndpoint w1) as [[ep|e|s|] w2] eqn:Hep; [| |done..].
  - apply external_clients in Hep as Hpx; [|apply _]. case_decide as He.
    { destruct (Htry w2 ltac:(by rewrite Hpx) Hs). auto. }
    pose proof (same_memory_Service (px w1) ep w2) as Hm. unfold attempt in Hs.
    destruct (testAndSetEndpointUsingService ep w2) as [[[]|e|s|] w3] eqn:Ht; [| |done..];
      specialize (Hm ltac:(unfold same_memory; by rewrite Hpx)) as [Hm _]; simpl in Hm.
    + unfold set_refreshEndpoint, modify_px in Hs. simplify_eq. rewrite px_set_px. simpl.
      split; [done|]. left. split_and!; [done..|]. exists ep. split_and!; [done..|].
      by apply testAndSetEndpoint_via_Ok in Ht.
    + destruct (Htry w3 Hm Hs). auto.
  - apply external_clients in Hep as Hpx; [|apply _].
    apply bind_Ok_inv in Hs as (l & w3 & Hw & Hs);
    apply registry_GetWorkerNodes_spec in Hw as [Hw _].
    case_decide; [done|]. destruct (Htry w3 ltac:(by rewrite Hw, Hpx) Hs). auto.
Qed.

(** A host that answers the dial but is unavailable leaves the cluster client
    on it while the other clients keep their endpoint. *)
Lemma testAndSetEndpoint_unavailable e sdk api w w1 w2 w3 desc :
  grpc_Dial (JoinHostPort e (Itoa sdk)) w = (Ok tt, w1) →
  set_clients (λ '(_, k, l), (JoinHostPort e (Itoa sdk), k, l)) w1 = (Ok tt, w2) →
  cluster_InspectCurrent w2 = (Err (GrpcError code_Unavailable desc), w3) →
  testAndSetEndpoint e sdk api w = (Err (GrpcError code_Unavailable desc), w3) ∧
  clusterManager (px w3) = JoinHostPort e (Itoa sdk) ∧ sdkClients (px w3) = sdkClients (px w).
Proof.
  intros Hd Hs Hi. unfold testAndSetEndpoint. rewrite (bind_Ok _ _ _ _ _ Hd), (bind_Ok _ _ _ _ _ Hs).
  unfold attempt. rewrite Hi. split; [done|]. apply set_clients_Ok in Hs.
  apply external_clients in Hi as ->; [|apply _]. apply external_clients in Hd as Hpx; [|apply _].
  rewrite Hpx in Hs. unfold clients in Hs. by simplify_eq.
Qed.

(** Refreshing the driver's endpoints, in which every node of the registry
    is re-read from the cluster, keeps the registry well formed, also when it
    stops half-way with an error. *)
Theorem RefreshDriverEndpoints_wf config_map w :
  Registry.wf (nodeRegistry (px w)) →
  Registry.wf (nodeRegistry (px (RefreshDriverEndpoints config_map w).2)).
Proof.
  enough (preserves (on_registry Registry.wf) (RefreshDriverEndpoints config_map)) as Hp
    by apply (Hp w).
  unfold RefreshDriverEndpoints, set_token, set_namespace, set_refreshEndpoint. preserve.
Qed.

(** *** What one update stores *)

Lemma find_px_node_Some n addrs pxNodes address p :
  find_px_node n addrs pxNodes = Some (address, p) →
  address ∈ addrs ∧ p ∈ pxNodes ∧
  (address = DataIp p ∨ address = MgmtIp p ∨ Name n = SchedulerNodeName p).
Proof.
  induction addrs as [|a addrs IH]; simpl; [done|].
  destruct (find_first _ _) eqn:E; intros Hs; simplify_eq.
  - apply find_first_Some in E as [Hin Hm]. split; [by left|]. split; [done|].
    unfold px_node_matches in Hm. rewrite !orb_true_iff, !bool_decide_eq_true in Hm. tauto.
  - destruct (IH Hs) as (? & ? & ?). split; [by right|done].
Qed.

Lemma registry_UpdateNode_Ok n w w' :
  registry_UpdateNode n w = (Ok tt, w') →
  is_Some (nodeRegistry (px w) !! uuid n) ∧
  nodeRegistry (px w') = <[uuid n := n]> (nodeRegistry (px w)).
Proof.
  unfold registry_UpdateNode, Registry.UpdateNode.
  destruct (nodeRegistry (px w) !! uuid n) eqn:E; intros Hs; simplify_eq.
  rewrite px_set_px. simpl. split; [by eexists|done].
Qed.

(** A successful [updateNode] on a node where PX is enabled stores in the
    registry, under the uuid of the node, the node with the storage node it
    matched by data IP, management IP or scheduler name: its driver id is the
    non-empty id of that storage node, the driver counts as installed, and no
    other entry changes.  Where PX is disabled nothing changes. *)
Theorem updateNode_Ok pxNodes w n w' n' :
  updateNode pxNodes (w, n) = (Ok tt, (w', n')) →
  ((IsPXEnabled n w).1 = Ok false ∧ n' = n ∧ px w' = px w) ∨
  (∃ p address, p ∈ pxNodes ∧ address ∈ Addresses n ∧
     (address = DataIp p ∨ address = MgmtIp p ∨ Name n = SchedulerNodeName p) ∧
     storageNode n' = Some p ∧ Id p ≠ "" ∧ VolDriverNodeID n' = Id p ∧
     IsStorageDriverInstalled n' = true ∧ uuid n' = uuid n ∧
     is_Some (nodeRegistry (px w) !! uuid n) ∧
     nodeRegistry (px w') = <[uuid n := n']> (nodeRegistry (px w))).
Proof.
  unfold updateNode. rewrite bind_get_local. intros Hu.
  apply bind_Ok_inv in Hu as (isPX & [w1 n1] & [Hen ->]%up_Ok_inv & Hk).
  pose proof (external (m := IsPXEnabled n) w) as [Hpx _]. rewrite Hen in Hpx |- *.
  destruct isPX; simpl in Hk, Hpx; [right|unfold mret, M_ret in Hk; simplify_eq; by left].
  destruct (find_px_node _ _ _) as [[address p]|] eqn:Hfind; [|done].
  apply find_px_node_Some in Hfind as (? & ? & ?). case_decide as Hid; [done|].
  rewrite bind_put_local in Hk. apply bind_Ok_inv in Hk as (isMeta & [w2 n2] & Hm & Hk).
  rewrite bind_put_local in Hk. apply wrap_err_Ok_inv, up_Ok_inv in Hk as [Hk ->].
  assert (px w2 = px w1) as Hw.
  { pose proof (external (m := GetKvdbMembers (attach_px_node true p n)) w1) as [Hpx' _].
    unfold attempt, up, isMetadataNode, attempt in Hm. simpl in Hm.
    destruct (GetKvdbMembers _ w1) as [[ms|e|s|] w3]; unfold_m; by simplify_eq/=. }
  apply registry_UpdateNode_Ok in Hk as [Hin Hreg]. simpl in *.
  rewrite Hw, Hpx in *. exists p, address. naive_solver.
Qed.

(** The node a caller asks to skip is not skipped: [UpdateNodeWithStorageInfo]
    behaves, for every node name given, as if no name had been given. *)
Theorem UpdateNodeWithStorageInfo_skip_ignored n skipNodeName w :
  UpdateNodeWithStorageInfo n skipNodeName w = UpdateNodeWithStorageInfo n "" w.
Proof.
  assert (∀ s l, drop_skipped s l = l) as Hd.
  { intros s l. unfold drop_skipped. destruct (skip_index s l); [|done]. apply take_drop. }
  unfold UpdateNodeWithStorageInfo, mbind, M_bind.
  destruct (getPxNodes false w) as [[l|e|s|] w1]; [|done..]. by rewrite !Hd.
Qed.

(** [updateNode] forgets the initial state of the pools: after a success
    on a node with pools, each pool's recorded initial pool is the pool as it
    is now and its workload size is zero. *)
Theorem updateNode_resets_initial_pools pxNodes w n w' n' sn :
  updateNode pxNodes (w, n) = (Ok tt, (w', n')) →
  (IsPXEnabled n w).1 = Ok true → storageNode n' = Some sn → Pools sn ≠ [] →
  StoragePools n' = (λ p, {| SP_pool := p; SP_AtInit := p; SP_WorkloadSize := 0 |}) <$> Pools sn.
Proof.
  unfold updateNode. rewrite bind_get_local. intros Hu Hen Hsn Hne.
  apply bind_Ok_inv in Hu as (isPX & [w1 n1] & [Hen' ->]%up_Ok_inv & Hk).
  rewrite Hen' in Hen. simplify_eq/=.
  destruct (find_px_node _ _ _) as [[address p]|] eqn:Hfind; [|done].
  case_decide as Hid; [done|].
  rewrite bind_put_local in Hk. apply bind_Ok_inv in Hk as (isMeta & [w2 n2] & _ & Hk).
  rewrite bind_put_local in Hk. apply wrap_err_Ok_inv, up_Ok_inv in Hk as [_ ->].
  simpl in Hsn. simplify_eq. simpl. by destruct (Pools sn).
Qed.
End px_theorems.

#[export] Hint Extern 2 (preserves _ _) => apply preserves_external; typeclasses eauto : torpedo.
#[export] Hint Resolve preserves_modify preserves_range preserves_get_px on_registry_sleep
  preserves_pause preserves_set_clients preserves_testAndSetEndpoint preserves_setDriver preserves_refresh_client preserves_getPxNodes
  preserves_updateNode preserves_updateNodes preserves_J_put preserves_J_get preserves_J_up
  preserves_registry_UpdateNode driver_info_attached driver_info_pools : torpedo.
