(* ===== verification/K8sObjects.v ===== *)
(** drivers/scheduler/k8s/k8s.go: the objects of an application, its context, and
    what the driver does with them without creating or destroying any: which
    types are accepted, reading them back from the cluster, dropping them from a
    context, namespaces and their labels, node affinity.

    A spec object is an [interface{}] that holds a pointer to one of the types
    of the Kubernetes client; [Kind] is its dynamic type and [Object] the fields
    the modelled code reads, whatever the type. *)

From S2P Require Import Prelude GoStrings Errors Effects Task NodeRegistry AutopilotRules SpecFactory PxDriver.

(** ** Data *)

(** The types the driver tells apart; [KOther] is any other Go type. *)
Inductive Kind : Type :=
  | KDeployment | KStatefulSet | KDaemonSet | KService | KPersistentVolumeClaim | KStorageClass
  | KVolumeSnapshot | KGroupVolumeSnapshot | KSecret | KConfigMap | KRule | KPod | KClusterPair
  | KMigration | KMigrationSchedule | KBackupLocation | KApplicationBackup | KSchedulePolicy
  | KApplicationRestore | KApplicationClone | KVolumeSnapshotRestore | KAutopilotRule
  | KServiceAccount | KClusterRole | KClusterRoleBinding | KRole | KRoleBinding | KCronJob | KJob
  | KLimitRange | KIngress | KPrometheus | KPrometheusRule | KServiceMonitor | KNamespace
  | KCRDv1beta1 | KCRDv1 | KPodDisruptionBudget | KNetworkPolicy | KEndpoints
  | KResourceTransformation | KValidatingWebhookConfiguration
  | KValidatingWebhookConfigurationList | KPersistentVolume | KVirtualMachine | KTask | KPipeline
  | KTaskRun | KPipelineRun | KCustomResourceObjectYAML | KHelmRepo | KModelsDeployment
  | KOther (GoType : string).

#[export] Instance Kind_eq_dec : EqDecision Kind.
Proof. intros x y. unfold Decision. decide equality. apply String.string_dec. Defined.

(** [reflect.TypeOf], printed *)
Definition TypeOf (k : Kind) : string :=
  match k with
  | KDeployment => "*v1.Deployment"
  | KStatefulSet => "*v1.StatefulSet"
  | KDaemonSet => "*v1.DaemonSet"
  | KService => "*v1.Service"
  | KPersistentVolumeClaim => "*v1.PersistentVolumeClaim"
  | KStorageClass => "*v1.StorageClass"
  | KVolumeSnapshot => "*v1.VolumeSnapshot"
  | KGroupVolumeSnapshot => "*v1alpha1.GroupVolumeSnapshot"
  | KSecret => "*v1.Secret"
  | KConfigMap => "*v1.ConfigMap"
  | KRule => "*v1alpha1.Rule"
  | KPod => "*v1.Pod"
  | KClusterPair => "*v1alpha1.ClusterPair"
  | KMigration => "*v1alpha1.Migration"
  | KMigrationSchedule => "*v1alpha1.MigrationSchedule"
  | KBackupLocation => "*v1alpha1.BackupLocation"
  | KApplicationBackup => "*v1alpha1.ApplicationBackup"
  | KSchedulePolicy => "*v1alpha1.SchedulePolicy"
  | KApplicationRestore => "*v1alpha1.ApplicationRestore"
  | KApplicationClone => "*v1alpha1.ApplicationClone"
  | KVolumeSnapshotRestore => "*v1alpha1.VolumeSnapshotRestore"
  | KAutopilotRule => "*v1alpha1.AutopilotRule"
  | KServiceAccount => "*v1.ServiceAccount"
  | KClusterRole => "*v1.ClusterRole"
  | KClusterRoleBinding => "*v1.ClusterRoleBinding"
  | KRole => "*v1.Role"
  | KRoleBinding => "*v1.RoleBinding"
  | KCronJob => "*v1beta1.CronJob"
  | KJob => "*v1.Job"
  | KLimitRange => "*v1.LimitRange"
  | KIngress => "*v1beta1.Ingress"
  | KPrometheus => "*v1.Prometheus"
  | KPrometheusRule => "*v1.PrometheusRule"
  | KServiceMonitor => "*v1.ServiceMonitor"
  | KNamespace => "*v1.Namespace"
  | KCRDv1beta1 => "*v1beta1.CustomResourceDefinition"
  | KCRDv1 => "*v1.CustomResourceDefinition"
  | KPodDisruptionBudget => "*v1.PodDisruptionBudget"
  | KNetworkPolicy => "*v1.NetworkPolicy"
  | KEndpoints => "*v1.Endpoints"
  | KResourceTransformation => "*v1alpha1.ResourceTransformation"
  | KValidatingWebhookConfiguration => "*v1.ValidatingWebhookConfiguration"
  | KValidatingWebhookConfigurationList => "*v1.ValidatingWebhookConfigurationList"
  | KPersistentVolume => "*v1.PersistentVolume"
  | KVirtualMachine => "*v1.VirtualMachine"
  | KTask => "*v1.Task"
  | KPipeline => "*v1.Pipeline"
  | KTaskRun => "*v1.TaskRun"
  | KPipelineRun => "*v1.PipelineRun"
  | KCustomResourceObjectYAML => "*k8s.CustomResourceObjectYAML"
  | KHelmRepo => "*scheduler.HelmRepo"
  | KModelsDeployment => "*pds.ModelsDeployment"
  | KOther t => t
  end.

(** [NodeAffinity]: the terms of the required selector, if there is one; a term is
    a list of expressions, each a key and its values *)
Record NodeAffinity := { Required : option (list (list (string * list string))) }.

(** A container of a pod template *)
Record Container := { Image : string; Args : list string }.

(** A claim template of a stateful set *)
Record ClaimTemplate := { ct_Name : string; ct_Annotations : gmap string string }.

(** [scheduler.HelmRepo], less its namespace *)
Record HelmRepo := {
  RepoName : string;
  ChartName : string;
  ReleaseName : string;
  URL : string;
  Values : string;
}.

(** The spec of a storage class; its parameters are a Go map that may be nil *)
Record StorageClassSpec := {
  Provisioner : string;
  Parameters : option (gmap string string);
  VolumeBindingMode : option string;
}.

(** The pod template of a workload, or the spec of a pod *)
Record PodTemplate := {
  SchedulerName : string;
  ImagePullSecrets : list string;
  NodeSelector : gmap string string;
  InitContainers : list Container;
  Containers : list Container;
}.

(** A virtual machine: the volumes of its template, behind a pointer, the names of its
    data volumes and its readiness *)
Record VmSpec := {
  VmVolumes : option (list (option string));
  DataVolumeTemplates : list string;
  vm_Ready : bool;
}.

(** A claim: mode and class are pointers; the source is a kind and a name;
    [Requests_set] says whether the map of requests is there *)
Record ClaimSpec := {
  VolumeMode : option string;
  StorageClassName : option string;
  DataSource : option (string * string);
  Requests_set : bool;
  Phase : string;
}.

(** A snapshot: its source claim, class, size and readiness are pointers, and so is
    its status, which holds the last two *)
Record SnapshotSpec := {
  SnapshotSource : option string;
  SnapshotClassName : option string;
  HasStatus : bool;
  RestoreSize : option Z;
  ReadyToUse : option bool;
  SnapshotDataName : string;
}.

(** The fields of the specs of single types; the persistent volume's claim is a
    pointer of which only the namespace is used, a webhook has a pointer to its
    service's namespace, a subject of a role binding is a kind and a namespace, an owner
    reference a kind and a name, and a custom resource is the path of a file. *)
Record ObjectSpec := {
  sc : StorageClassSpec;
  template : PodTemplate;
  VolumeClaimTemplates : list ClaimTemplate;
  ClaimRef : option string;
  Webhooks : list (option string);
  Subjects : list (string * string);
  vm : VmSpec;
  claim_spec : ClaimSpec;
  snapshot : SnapshotSpec;
  OwnerReferences : list (string * string);
  Path : string;
  helm : HelmRepo;
}.

Definition no_spec : ObjectSpec :=
  {| sc := {| Provisioner := ""; Parameters := None; VolumeBindingMode := None |};
     template := {| SchedulerName := ""; ImagePullSecrets := []; NodeSelector := ∅; InitContainers := [];
                    Containers := [] |};
     VolumeClaimTemplates := []; ClaimRef := None; Webhooks := []; Subjects := [];
     vm := {| VmVolumes := None; DataVolumeTemplates := []; vm_Ready := false |};
     claim_spec := {| VolumeMode := None; StorageClassName := None; DataSource := None; Requests_set := false;
                      Phase := "" |};
     snapshot := {| SnapshotSource := None; SnapshotClassName := None; HasStatus := false; RestoreSize := None; ReadyToUse := None;
                    SnapshotDataName := "" |};
     OwnerReferences := []; Path := "";
     helm := {| RepoName := ""; ChartName := ""; ReleaseName := ""; URL := ""; Values := "" |} |}.

(** An object.  [Labels] is a Go map and may be nil; [Replicas], [Affinity] and
    its [NodeAffinity] are pointers; [PodVolumes] are the volumes of the pod or of
    the pod template, each with the name of its claim when it has one, and
    [ContainerEnv] the environments of its containers. *)
Record Object := {
  obj_kind : Kind;
  TypeMeta_Kind : string;
  obj_Name : string;
  obj_Namespace : string;
  obj_UID : string;
  Labels : option (gmap string string);
  Annotations : gmap string string;
  Replicas : option Z;
  Affinity : option (option NodeAffinity);
  PodVolumes : list (option string);
  ContainerEnv : list (list (string * string));
  AccessModes : list string;
  VolumeName : string;
  StorageRequest : Z;
  Data : gmap string string;
  Status_text : string;
  Spec : ObjectSpec;
}.

(** The object of a type with a name, a namespace and labels, all else zero *)
Definition new_object (k : Kind) (name ns : string) (labels : option (gmap string string)) : Object :=
  {| obj_kind := k; TypeMeta_Kind := ""; obj_Name := name; obj_Namespace := ns; obj_UID := "";
     Labels := labels; Annotations := ∅; Replicas := None; Affinity := None; PodVolumes := []; ContainerEnv := [];
     AccessModes := []; VolumeName := ""; StorageRequest := 0; Data := ∅; Status_text := ""; Spec := no_spec |}.

Definition set_Kind (s : string) (o : Object) : Object :=
  {| obj_kind := obj_kind o; TypeMeta_Kind := s; obj_Name := obj_Name o; obj_Namespace := obj_Namespace o;
     obj_UID := obj_UID o; Labels := Labels o; Annotations := Annotations o; Replicas := Replicas o;
     Affinity := Affinity o; PodVolumes := PodVolumes o; ContainerEnv := ContainerEnv o;
     AccessModes := AccessModes o; VolumeName := VolumeName o; StorageRequest := StorageRequest o;
     Data := Data o; Status_text := Status_text o; Spec := Spec o |}.

Definition set_Name (n : string) (o : Object) : Object :=
  {| obj_kind := obj_kind o; TypeMeta_Kind := TypeMeta_Kind o; obj_Name := n;
     obj_Namespace := obj_Namespace o; obj_UID := obj_UID o; Labels := Labels o;
     Annotations := Annotations o; Replicas := Replicas o; Affinity := Affinity o;
     PodVolumes := PodVolumes o; ContainerEnv := ContainerEnv o; AccessModes := AccessModes o;
     VolumeName := VolumeName o; StorageRequest := StorageRequest o; Data := Data o;
     Status_text := Status_text o; Spec := Spec o |}.

Definition set_Namespace (ns : string) (o : Object) : Object :=
  {| obj_kind := obj_kind o; TypeMeta_Kind := TypeMeta_Kind o; obj_Name := obj_Name o;
     obj_Namespace := ns; obj_UID := obj_UID o; Labels := Labels o; Annotations := Annotations o;
     Replicas := Replicas o; Affinity := Affinity o; PodVolumes := PodVolumes o;
     ContainerEnv := ContainerEnv o; AccessModes := AccessModes o; VolumeName := VolumeName o;
     StorageRequest := StorageRequest o; Data := Data o; Status_text := Status_text o; Spec := Spec o |}.

Definition set_Labels (l : option (gmap string string)) (o : Object) : Object :=
  {| obj_kind := obj_kind o; TypeMeta_Kind := TypeMeta_Kind o; obj_Name := obj_Name o;
     obj_Namespace := obj_Namespace o; obj_UID := obj_UID o; Labels := l; Annotations := Annotations o;
     Replicas := Replicas o; Affinity := Affinity o; PodVolumes := PodVolumes o;
     ContainerEnv := ContainerEnv o; AccessModes := AccessModes o; VolumeName := VolumeName o;
     StorageRequest := StorageRequest o; Data := Data o; Status_text := Status_text o; Spec := Spec o |}.

Definition set_Annotations (a : gmap string string) (o : Object) : Object :=
  {| obj_kind := obj_kind o; TypeMeta_Kind := TypeMeta_Kind o; obj_Name := obj_Name o;
     obj_Namespace := obj_Namespace o; obj_UID := obj_UID o; Labels := Labels o; Annotations := a;
     Replicas := Replicas o; Affinity := Affinity o; PodVolumes := PodVolumes o;
     ContainerEnv := ContainerEnv o; AccessModes := AccessModes o; VolumeName := VolumeName o;
     StorageRequest := StorageRequest o; Data := Data o; Status_text := Status_text o; Spec := Spec o |}.

Definition set_Replicas (r : option Z) (o : Object) : Object :=
  {| obj_kind := obj_kind o; TypeMeta_Kind := TypeMeta_Kind o; obj_Name := obj_Name o;
     obj_Namespace := obj_Namespace o; obj_UID := obj_UID o; Labels := Labels o;
     Annotations := Annotations o; Replicas := r; Affinity := Affinity o; PodVolumes := PodVolumes o;
     ContainerEnv := ContainerEnv o; AccessModes := AccessModes o; VolumeName := VolumeName o;
     StorageRequest := StorageRequest o; Data := Data o; Status_text := Status_text o; Spec := Spec o |}.

Definition set_Affinity (a : option (option NodeAffinity)) (o : Object) : Object :=
  {| obj_kind := obj_kind o; TypeMeta_Kind := TypeMeta_Kind o; obj_Name := obj_Name o;
     obj_Namespace := obj_Namespace o; obj_UID := obj_UID o; Labels := Labels o;
     Annotations := Annotations o; Replicas := Replicas o; Affinity := a; PodVolumes := PodVolumes o;
     ContainerEnv := ContainerEnv o; AccessModes := AccessModes o; VolumeName := VolumeName o;
     StorageRequest := StorageRequest o; Data := Data o; Status_text := Status_text o; Spec := Spec o |}.

Definition set_PodVolumes (l : list (option string)) (o : Object) : Object :=
  {| obj_kind := obj_kind o; TypeMeta_Kind := TypeMeta_Kind o; obj_Name := obj_Name o;
     obj_Namespace := obj_Namespace o; obj_UID := obj_UID o; Labels := Labels o;
     Annotations := Annotations o; Replicas := Replicas o; Affinity := Affinity o; PodVolumes := l;
     ContainerEnv := ContainerEnv o; AccessModes := AccessModes o; VolumeName := VolumeName o;
     StorageRequest := StorageRequest o; Data := Data o; Status_text := Status_text o; Spec := Spec o |}.

Definition set_StorageRequest (z : Z) (o : Object) : Object :=
  {| obj_kind := obj_kind o; TypeMeta_Kind := TypeMeta_Kind o; obj_Name := obj_Name o;
     obj_Namespace := obj_Namespace o; obj_UID := obj_UID o; Labels := Labels o;
     Annotations := Annotations o; Replicas := Replicas o; Affinity := Affinity o;
     PodVolumes := PodVolumes o; ContainerEnv := ContainerEnv o; AccessModes := AccessModes o;
     VolumeName := VolumeName o; StorageRequest := z; Data := Data o; Status_text := Status_text o;
     Spec := Spec o |}.

Definition set_Spec (s : ObjectSpec) (o : Object) : Object :=
  {| obj_kind := obj_kind o; TypeMeta_Kind := TypeMeta_Kind o; obj_Name := obj_Name o;
     obj_Namespace := obj_Namespace o; obj_UID := obj_UID o; Labels := Labels o;
     Annotations := Annotations o; Replicas := Replicas o; Affinity := Affinity o;
     PodVolumes := PodVolumes o; ContainerEnv := ContainerEnv o; AccessModes := AccessModes o;
     VolumeName := VolumeName o; StorageRequest := StorageRequest o; Data := Data o;
     Status_text := Status_text o; Spec := s |}.

Definition set_sc (x : StorageClassSpec) (o : Object) : Object :=
  let s := Spec o in
  set_Spec {| sc := x; template := template s; VolumeClaimTemplates := VolumeClaimTemplates s;
     ClaimRef := ClaimRef s; Webhooks := Webhooks s; Subjects := Subjects s; vm := vm s;
     claim_spec := claim_spec s; snapshot := snapshot s; OwnerReferences := OwnerReferences s;
     Path := Path s; helm := helm s |} o.

Definition set_template (x : PodTemplate) (o : Object) : Object :=
  let s := Spec o in
  set_Spec {| sc := sc s; template := x; VolumeClaimTemplates := VolumeClaimTemplates s;
     ClaimRef := ClaimRef s; Webhooks := Webhooks s; Subjects := Subjects s; vm := vm s;
     claim_spec := claim_spec s; snapshot := snapshot s; OwnerReferences := OwnerReferences s;
     Path := Path s; helm := helm s |} o.

Definition set_VolumeClaimTemplates (x : list ClaimTemplate) (o : Object) : Object :=
  let s := Spec o in
  set_Spec {| sc := sc s; template := template s; VolumeClaimTemplates := x; ClaimRef := ClaimRef s;
     Webhooks := Webhooks s; Subjects := Subjects s; vm := vm s; claim_spec := claim_spec s;
     snapshot := snapshot s; OwnerReferences := OwnerReferences s; Path := Path s; helm := helm s |} o.

Definition set_ClaimRef (x : option string) (o : Object) : Object :=
  let s := Spec o in
  set_Spec {| sc := sc s; template := template s; VolumeClaimTemplates := VolumeClaimTemplates s;
     ClaimRef := x; Webhooks := Webhooks s; Subjects := Subjects s; vm := vm s;
     claim_spec := claim_spec s; snapshot := snapshot s; OwnerReferences := OwnerReferences s;
     Path := Path s; helm := helm s |} o.

Definition set_Webhooks (x : list (option string)) (o : Object) : Object :=
  let s := Spec o in
  set_Spec {| sc := sc s; template := template s; VolumeClaimTemplates := VolumeClaimTemplates s;
     ClaimRef := ClaimRef s; Webhooks := x; Subjects := Subjects s; vm := vm s;
     claim_spec := claim_spec s; snapshot := snapshot s; OwnerReferences := OwnerReferences s;
     Path := Path s; helm := helm s |} o.

Definition set_Subjects (x : list (string * string)) (o : Object) : Object :=
  let s := Spec o in
  set_Spec {| sc := sc s; template := template s; VolumeClaimTemplates := VolumeClaimTemplates s;
     ClaimRef := ClaimRef s; Webhooks := Webhooks s; Subjects := x; vm := vm s;
     claim_spec := claim_spec s; snapshot := snapshot s; OwnerReferences := OwnerReferences s;
     Path := Path s; helm := helm s |} o.

Definition set_claim_spec (x : ClaimSpec) (o : Object) : Object :=
  let s := Spec o in
  set_Spec {| sc := sc s; template := template s; VolumeClaimTemplates := VolumeClaimTemplates s;
     ClaimRef := ClaimRef s; Webhooks := Webhooks s; Subjects := Subjects s; vm := vm s; claim_spec := x;
     snapshot := snapshot s; OwnerReferences := OwnerReferences s; Path := Path s; helm := helm s |} o.

Definition set_snapshot (x : SnapshotSpec) (o : Object) : Object :=
  let s := Spec o in
  set_Spec {| sc := sc s; template := template s; VolumeClaimTemplates := VolumeClaimTemplates s;
     ClaimRef := ClaimRef s; Webhooks := Webhooks s; Subjects := Subjects s; vm := vm s;
     claim_spec := claim_spec s; snapshot := x; OwnerReferences := OwnerReferences s; Path := Path s;
     helm := helm s |} o.

Definition set_Path (x : string) (o : Object) : Object :=
  let s := Spec o in
  set_Spec {| sc := sc s; template := template s; VolumeClaimTemplates := VolumeClaimTemplates s;
     ClaimRef := ClaimRef s; Webhooks := Webhooks s; Subjects := Subjects s; vm := vm s;
     claim_spec := claim_spec s; snapshot := snapshot s; OwnerReferences := OwnerReferences s; Path := x;
     helm := helm s |} o.

Definition set_helm (x : HelmRepo) (o : Object) : Object :=
  let s := Spec o in
  set_Spec {| sc := sc s; template := template s; VolumeClaimTemplates := VolumeClaimTemplates s;
     ClaimRef := ClaimRef s; Webhooks := Webhooks s; Subjects := Subjects s; vm := vm s;
     claim_spec := claim_spec s; snapshot := snapshot s; OwnerReferences := OwnerReferences s;
     Path := Path s; helm := x |} o.

(** The rule that was not given *)
Definition no_rule : AutopilotRule :=
  {| Rule_Name := ""; MatchLabels := ∅; Expressions := []; Actions := []; Enforcement := "";
     ActionsCoolDownPeriod := 0 |}.

(** [scheduler.ScheduleOptions], the fields the modelled code reads; of the nodes
    only their number matters *)
Record ScheduleOptions := {
  AppKeys : list string;
  CsiAppKeys : list string;
  opt_Nodes : list Node;
  StorageProvisioner_ : string;
  opt_AutopilotRule : AutopilotRule;
  Scheduler : string;
  opt_Labels : gmap string string;
  PvcNodesAnnotation : list string;
  PvcSize : Z;
  opt_Namespace : string;
  TopologyLabels : list (gmap string string);
  PureFAPodName : string;
  Upgrade : bool;
}.

(** [scheduler.Context] *)
Record Context := {
  UID : string;
  App : AppSpec Object;
  ScheduleOpts : ScheduleOptions;
  SkipClusterScopedObject : bool;
}.

Definition set_SpecList (l : list Object) (a : AppSpec Object) : AppSpec Object :=
  {| Key := Key a; SpecList := l; Enabled := Enabled a; IsCSI := IsCSI a; NameSpace := NameSpace a |}.

(** [scheduler.Event], the fields that are read *)
Record SchedEvent := { ev_Message : string; ev_Count : Z; ev_LastSeen : Z }.

(** The fields of [*K8s] that [Init] sets from the flags and nothing writes later *)
Record K8sConfig := {
  secretConfigMapName : string;
  SecretType : string;
  VaultAddress : string;
  VaultToken : string;
  PureSANType : string;
  PureFADAPod : string;
  RunCSISnapshotAndRestoreManyTest : bool;
  secureApps : list string;
}.

(** The fields of [*K8s] that are read or written, and the package variable
    [defaultTorpedoLabel] *)
Record K8sState := {
  NodeDriverName : string;
  VolDriverName : string;
  PureVolumes : bool;
  eventsStorage : gmap string (list SchedEvent);
  defaultTorpedoLabel : gmap string string;
  config : K8sConfig;
}.

(** ** Types of objects *)

(** [validateSpec] *)
Definition validateSpec (o : Object) : outcome Object :=
  match obj_kind o with
  | KDeployment | KStatefulSet | KDaemonSet | KService | KPersistentVolumeClaim | KStorageClass
  | KVolumeSnapshot | KGroupVolumeSnapshot | KSecret | KConfigMap | KRule | KPod | KClusterPair
  | KMigration | KMigrationSchedule | KBackupLocation | KApplicationBackup | KSchedulePolicy
  | KApplicationRestore | KApplicationClone | KVolumeSnapshotRestore | KAutopilotRule
  | KServiceAccount | KClusterRole | KClusterRoleBinding | KRole | KRoleBinding | KCronJob | KJob
  | KLimitRange | KIngress | KPrometheus | KPrometheusRule | KServiceMonitor | KNamespace
  | KCRDv1beta1 | KCRDv1 | KPodDisruptionBudget | KNetworkPolicy | KEndpoints
  | KResourceTransformation | KValidatingWebhookConfiguration
  | KValidatingWebhookConfigurationList | KPersistentVolume | KVirtualMachine | KTask | KPipeline => Ok o
  | KTaskRun | KPipelineRun | KCustomResourceObjectYAML | KHelmRepo | KModelsDeployment
  | KOther _ =>
      Err (Errorf ("unsupported object: " +:+ TypeOf (obj_kind o)))
  end.

(** The [Kind] field [GetUpdatedSpec] fills in *)
Definition kind_field (k : Kind) : option string :=
  match k with
  | KDeployment => Some "Deployment"
  | KStatefulSet => Some "StatefulSet"
  | KService => Some "Service"
  | KPersistentVolumeClaim => Some "PersistentVolumeClaim"
  | KVolumeSnapshot => Some "VolumeSnapshot"
  | KSecret => Some "Secret"
  | KConfigMap => Some "ConfigMap"
  | KTask => Some "Task"
  | KPipeline => Some "Pipeline"
  | KTaskRun => Some "TaskRun"
  | KPipelineRun => Some "PipelineRun"
  | KStorageClass => Some "StorageClass"
  | _ => None
  end.

(** The call [GetUpdatedSpec] makes for a type: the type the call returns, whether
    the namespace is an argument, and the [Kind] field it sets *)
Definition updated_getter (k : Kind) : option (Kind * bool * option string) :=
  match k with
  | KDeployment | KStatefulSet | KService | KPersistentVolumeClaim | KVolumeSnapshot | KSecret
  | KConfigMap | KTask | KPipeline | KTaskRun | KPipelineRun =>
      Some (k, true, kind_field k)
  | KStorageClass => Some (KStorageClass, false, kind_field k)
  | KDaemonSet | KGroupVolumeSnapshot | KRule | KPod | KClusterPair | KMigration
  | KMigrationSchedule | KBackupLocation | KApplicationBackup | KApplicationRestore
  | KApplicationClone | KVolumeSnapshotRestore | KServiceAccount | KRole | KRoleBinding
  | KCronJob | KJob | KLimitRange | KIngress | KPrometheus | KPrometheusRule | KServiceMonitor
  | KPodDisruptionBudget | KNetworkPolicy | KEndpoints | KVirtualMachine =>
      Some (k, true, None)
  | KSchedulePolicy | KAutopilotRule | KClusterRole | KClusterRoleBinding | KNamespace
  | KValidatingWebhookConfiguration =>
      Some (k, false, None)
  | KCRDv1beta1 => Some (KCRDv1, false, None)
  | KCRDv1 => Some (KCRDv1beta1, false, None)
  | KResourceTransformation => Some (KMigrationSchedule, true, None)
  | KValidatingWebhookConfigurationList | KPersistentVolume | KCustomResourceObjectYAML
  | KHelmRepo | KModelsDeployment | KOther _ => None
  end.

(** *** Node affinity *)

(** [getAffinity]: [topologyLabels[0]] is out of range for an empty slice; the
    entries of the map come in the order of the range *)
Definition getAffinity (range : gmap string string → list (string * string))
    (topologyLabels : list (gmap string string)) : outcome (option NodeAffinity) :=
  labels ← index topologyLabels 0;
  mret (Some {| Required := Some [(λ kv, (kv.1, [kv.2])) <$> range labels] |}).

Fixpoint requirement_labels (reqs : list (string * list string)) (label : gmap string string)
    : outcome (gmap string string) :=
  match reqs with
  | [] => Ok label
  | (key, values) :: reqs' => v ← index values 0; requirement_labels reqs' (<[key := v]> label)
  end.

Fixpoint term_labels (terms : list (list (string * list string))) (label : gmap string string)
    : outcome (gmap string string) :=
  match terms with
  | [] => Ok label
  | t :: terms' => l ← requirement_labels t label; term_labels terms' l
  end.

Definition getLabelsFromNodeAffinity (nodeAffSpec : option NodeAffinity) : outcome (gmap string string) :=
  a ← deref nodeAffSpec;
  match Required a with
  | Some terms => term_labels terms ∅
  | None => Ok ∅
  end.

(** [MergeMaps]: writing to a nil map is a panic *)
Definition MergeMaps (m1 : option (gmap string string)) (m2 : gmap string string)
    : outcome (option (gmap string string)) :=
  match m1 with
  | Some m => Ok (Some (m2 ∪ m))
  | None => if decide (m2 = ∅) then Ok None else Panic "assignment to entry in nil map"
  end.

(** [rotateTopologyArray] *)
Definition rotate (l : list (gmap string string)) : list (gmap string string) :=
  match l with
  | first :: ((_ :: _) as arr) => arr ++ [first]
  | _ => l
  end.

Definition set_TopologyLabels (l : list (gmap string string)) (o : ScheduleOptions) : ScheduleOptions :=
  {| AppKeys := AppKeys o; CsiAppKeys := CsiAppKeys o; opt_Nodes := opt_Nodes o;
     StorageProvisioner_ := StorageProvisioner_ o; opt_AutopilotRule := opt_AutopilotRule o;
     Scheduler := Scheduler o; opt_Labels := opt_Labels o; PvcNodesAnnotation := PvcNodesAnnotation o;
     PvcSize := PvcSize o; opt_Namespace := opt_Namespace o; TopologyLabels := l;
     PureFAPodName := PureFAPodName o; Upgrade := Upgrade o |}.

Definition set_opt_Namespace (ns : string) (o : ScheduleOptions) : ScheduleOptions :=
  {| AppKeys := AppKeys o; CsiAppKeys := CsiAppKeys o; opt_Nodes := opt_Nodes o;
     StorageProvisioner_ := StorageProvisioner_ o; opt_AutopilotRule := opt_AutopilotRule o;
     Scheduler := Scheduler o; opt_Labels := opt_Labels o; PvcNodesAnnotation := PvcNodesAnnotation o;
     PvcSize := PvcSize o; opt_Namespace := ns; TopologyLabels := TopologyLabels o;
     PureFAPodName := PureFAPodName o; Upgrade := Upgrade o |}.

Definition rotateTopologyArray (o : ScheduleOptions) : ScheduleOptions :=
  set_TopologyLabels (rotate (TopologyLabels o)) o.

Definition isCsiApp (options : ScheduleOptions) (appName : string) : bool :=
  match find_first (λ app, bool_decide (app = appName)) (CsiAppKeys options) with
  | Some _ => true
  | None => false
  end.

(** ** Contexts *)

(** The branches of [RemoveAppSpecsByName]: the types it compares by name *)
Definition removable (k : Kind) : bool :=
  match k with
  | KConfigMap | KClusterRole | KClusterRoleBinding | KDeployment | KJob | KPersistentVolumeClaim
  | KPrometheus | KPrometheusRule | KRole | KRoleBinding | KSecret | KService | KServiceAccount
  | KServiceMonitor | KStatefulSet | KClusterPair => true
  | _ => false
  end.

Definition removed_by (spec removeSpec : Object) : bool :=
  removable (obj_kind spec) && bool_decide (obj_kind removeSpec = obj_kind spec) &&
  bool_decide (obj_Name spec = obj_Name removeSpec).

Definition RemoveAppSpecsByName (removeSpecs : list Object) : M Context unit := λ ctx,
  let remainSpecs := keep (λ spec, negb (existsb (removed_by spec) removeSpecs)) (SpecList (App ctx)) in
  (Ok tt, {| UID := UID ctx; App := set_SpecList remainSpecs (App ctx);
             ScheduleOpts := ScheduleOpts ctx;
     SkipClusterScopedObject := SkipClusterScopedObject ctx |}).

(** [meta.Accessor] finds object metadata in every type but lists and the
    torpedo's own spec types *)
Definition has_metadata (k : Kind) : bool :=
  match k with
  | KValidatingWebhookConfigurationList | KCustomResourceObjectYAML | KHelmRepo | KModelsDeployment
  | KOther _ => false
  | _ => true
  end.

(** The loop of [UpdateTasksID]: the objects are updated in place, those before
    one without metadata as well *)
Fixpoint set_namespaces (id : string) (specs : list Object) : outcome unit * list Object :=
  match specs with
  | [] => (Ok tt, [])
  | o :: specs' =>
      if has_metadata (obj_kind o) then
        let '(r, l) := set_namespaces id specs' in (r, set_Namespace id o :: l)
      else (Err (Errorf "object does not implement the Object interfaces"), o :: specs')
  end.

Definition UpdateTasksID (id : string) : M Context unit := λ ctx,
  let '(r, l) := set_namespaces id (SpecList (App ctx)) in
  (r, {| UID := id; App := set_SpecList l (App ctx); ScheduleOpts := ScheduleOpts ctx;
     SkipClusterScopedObject := SkipClusterScopedObject ctx |}).

(** ** The cluster *)

(** The state of the scheduler driver in the world of the program *)
Class K8sWorld (W : Type) `{PxWorld W} := {
  k8s : W → K8sState;
  set_k8s : K8sState → W → W;
}.

Class K8sWorldLaws (W : Type) `{K8sWorld W} : Prop := {
  k8s_set_k8s : ∀ s w, k8s (set_k8s s w) = s;
  px_set_k8s : ∀ s w, px (set_k8s s w) = px w;
  now_set_k8s : ∀ s w, now (set_k8s s w) = now w;
  k8s_sleep : ∀ d w, k8s (sleep d w) = k8s w;
}.

(** The clients of the Kubernetes API (sched-ops), by the type of object.  A get or
    a create returns a pointer and an error, and the pointer may be set when the
    error is. *)
Class K8sClient (W : Type) := {
  client_Get : Kind → string → string → M W (option Object * option error);
  client_Create : Object → M W (option Object * option error);
  client_Update : Object → M W Object;
  IsAlreadyExists : error → bool;
}.

(** Calls of the cluster do not write the memory of the program. *)
Class K8sExternal {W A} `{K8sWorld W} (m : M W A) : Prop := {
  k8s_external : ∀ w, k8s (m w).2 = k8s w;
  k8s_external_px :: External m;
}.

Class K8sClientFrame (W : Type) `{K8sWorld W} `{K8sClient W} : Prop := {
  client_Get_external :: ∀ k name ns, K8sExternal (client_Get k name ns);
  client_Create_external :: ∀ o, K8sExternal (client_Create o);
  client_Update_external :: ∀ o, K8sExternal (client_Update o);
}.

Definition k8sObjectCreateTimeout : Z := 2 * Minute.
Definition DefaultRetryInterval : Z := 10 * Second.
Definition DefaultTimeout : Z := 5 * Minute.

Section objects.
Context {W : Type} `{K8sWorld W} `{K8sClient W}.

(** [obj, err := Get...; if err != nil { return err }], after which the object is
    read *)
Definition get_object (k : Kind) (name ns : string) : M W Object :=
  '(obj, err) ← client_Get k name ns;
  match err with
  | Some e => throw e
  | None => lift (deref obj)
  end.

(** The same for a create *)
Definition create_object (o : Object) : M W Object :=
  '(obj, err) ← client_Create o;
  match err with
  | Some e => throw e
  | None => lift (deref obj)
  end.

(** [GetUpdatedSpec].  The answer is an [interface{}]: [None] is nil and
    [Some None] a nil pointer of a type.  For deployments, stateful sets and
    daemon sets the code tests [err == nil]. *)
Definition GetUpdatedSpec (spec : Object) : M W (option (option Object)) :=
  match updated_getter (obj_kind spec) with
  | None => throw (Errorf ("unsupported object: " +:+ TypeOf (obj_kind spec)))
  | Some (getter, namespaced, kind) =>
      '(obj, err) ← client_Get getter (obj_Name spec) (if (namespaced : bool) then obj_Namespace spec else "");
      let found : M W (option (option Object)) :=
        match kind with
        | Some s => o ← lift (deref obj); mret (Some (Some (set_Kind s o)))
        | None => mret (Some obj)
        end in
      match obj_kind spec with
      | KDeployment | KStatefulSet | KDaemonSet =>
          match err with
          | None => mret None
          | Some _ => found
          end
      | _ =>
          match err with
          | Some e => throw e
          | None => found
          end
      end
  end.

(** *** Namespaces *)

(** [AddNamespaceLabel]: the error of the update is a new variable of the [if]
    and the function returns the outer one, which is nil there *)
Definition AddNamespaceLabel (namespace : string) (labelMap : gmap string string) : M W unit :=
  ns ← get_object KNamespace namespace "";
  newLabels ← lift (MergeMaps (Labels ns) labelMap);
  attempt (client_Update (set_Labels newLabels ns)) (λ r,
    match r with
    | inl _ => mret tt
    | inr _ => let err : option error := None in
               match err with Some e => throw e | None => mret tt end
    end).

Definition RemoveNamespaceLabel (namespace : string) (labelMap : gmap string string) : M W unit :=
  ns ← get_object KNamespace namespace "";
  attempt (client_Update (set_Labels ((λ l, l ∖ labelMap) <$> Labels ns) ns)) (λ r,
    match r with
    | inl _ => mret tt
    | inr err => throw err
    end).

Definition GetNamespaceLabel (namespace : string) : M W (option (gmap string string)) :=
  ns ← get_object KNamespace namespace "";
  mret (Labels ns).

Definition modify_torpedo_labels (f : gmap string string → gmap string string) : M W unit := λ w,
  let s := k8s w in
  (Ok tt, set_k8s {| NodeDriverName := NodeDriverName s; VolDriverName := VolDriverName s;
    PureVolumes := PureVolumes s; eventsStorage := eventsStorage s;
    defaultTorpedoLabel := f (defaultTorpedoLabel s); config := config s |} w).

Definition get_torpedo_labels : M W (gmap string string) := λ w, (Ok (defaultTorpedoLabel (k8s w)), w).

(** What [createNamespace] writes into the map [defaultTorpedoLabel], of which
    [metadata] is another name *)
Definition namespace_labels {O} (app : AppSpec O) (options : ScheduleOptions)
    (metadata : gmap string string) : gmap string string :=
  opt_Labels options ∪ <["app" := Key app]> metadata.

(** The closure of [createNamespace] *)
Definition namespace_task {O} (app : AppSpec O) (namespace : string) (options : ScheduleOptions)
    : M W (task_result Object) :=
  _ ← modify_torpedo_labels (namespace_labels app options);
  metadata ← get_torpedo_labels;
  let failed (err : error) : M W (task_result Object) :=
    mret (Retry (AppErr AppErrFailedToScheduleApp (Key app)
      ("Failed to create namespace: " +:+ namespace +:+ ". Err: " +:+ Error err))) in
  attempt (create_object (new_object KNamespace namespace "" (Some metadata))) (λ r,
    match r with
    | inl ns => mret (Done ns)
    | inr err =>
        if IsAlreadyExists err then
          attempt (get_object KNamespace namespace "") (λ r',
            match r' with
            | inl ns => mret (Done ns)
            | inr err' => failed err'
            end)
        else failed err
    end).

Definition createNamespace {O} (app : AppSpec O) (namespace : string) (options : ScheduleOptions)
    : M W Object :=
  DoRetryWithTimeout (namespace_task app namespace options) k8sObjectCreateTimeout DefaultRetryInterval.

End objects.

(** ** Properties *)

(** *** Contexts *)

(** A context keeps exactly the objects that no removed object matches, in their
    order, and with every repetition. *)
Theorem RemoveAppSpecsByName_spec removeSpecs ctx :
  let ctx' := (RemoveAppSpecsByName removeSpecs ctx).2 in
  UID ctx' = UID ctx ∧ Key (App ctx') = Key (App ctx) ∧
  sublist (SpecList (App ctx')) (SpecList (App ctx)) ∧
  ∀ spec, spec ∈ SpecList (App ctx') ↔
    spec ∈ SpecList (App ctx) ∧
    ¬ ∃ r, r ∈ removeSpecs ∧ removable (obj_kind spec) = true ∧ obj_kind r = obj_kind spec ∧
           obj_Name r = obj_Name spec.
Proof.
  simpl. split_and!; [done..| |].
  - induction (SpecList (App ctx)) as [|o l IH]; simpl; [constructor|].
    destruct (negb _); by constructor.
  - intros spec. rewrite elem_of_keep, negb_true_iff, <- not_true_iff_false, existsb_exists.
    apply and_iff_compat_l, not_iff_compat. split; intros (r & Hr & Hm); exists r.
    + unfold removed_by in Hm. rewrite !andb_true_iff, !bool_decide_eq_true in Hm.
      rewrite list_elem_of_In. naive_solver.
    + rewrite <- list_elem_of_In. unfold removed_by.
      rewrite !andb_true_iff, !bool_decide_eq_true. naive_solver.
Qed.

(** Removing twice is removing once, and an object of a type without a branch -
    a daemon set, a custom resource definition - stays in the context even when
    it is named among the removed ones. *)
Theorem RemoveAppSpecsByName_other_kinds removeSpecs ctx spec :
  removable (obj_kind spec) = false →
  spec ∈ SpecList (App ctx) →
  spec ∈ SpecList (App (RemoveAppSpecsByName removeSpecs ctx).2).
Proof.
  intros Hk Hin. simpl. apply elem_of_keep. split; [done|].
  apply negb_true_iff, not_true_iff_false. rewrite existsb_exists. intros (r & _ & Hr).
  unfold removed_by in Hr. by rewrite Hk in Hr.
Qed.

Lemma set_namespaces_spec id specs :
  (∃ pre, set_namespaces id specs = (Ok tt, pre) ∧ pre = set_Namespace id <$> specs ∧
     Forall (λ o, has_metadata (obj_kind o) = true) specs) ∨
  (∃ pre o post e, specs = pre ++ o :: post ∧ has_metadata (obj_kind o) = false ∧
     set_namespaces id specs = (Err e, (set_Namespace id <$> pre) ++ o :: post)).
Proof.
  induction specs as [|o specs IH]; simpl.
  - left. exists []. split_and!; [done..|constructor].
  - destruct (has_metadata (obj_kind o)) eqn:E.
    + destruct IH as [(pre & -> & -> & Hall)|(pre & o' & post & e & -> & Ho' & ->)].
      * left. eexists. split_and!; [done..|]. by constructor.
      * right. by exists (o :: pre), o', post, e.
    + right. by exists [], o, specs, (Errorf "object does not implement the Object interfaces").
Qed.

(** [UpdateTasksID] moves every object of the context to the new namespace, or
    stops with an error at the first object without metadata: those before it
    have moved and those after it have not, and the context has its new id all
    the same. *)
Theorem UpdateTasksID_spec id ctx r ctx' :
  UpdateTasksID id ctx = (r, ctx') →
  UID ctx' = id ∧
  ((r = Ok tt ∧ SpecList (App ctx') = set_Namespace id <$> SpecList (App ctx)) ∨
   (∃ e pre o post, r = Err e ∧ SpecList (App ctx) = pre ++ o :: post ∧
      has_metadata (obj_kind o) = false ∧
      SpecList (App ctx') = (set_Namespace id <$> pre) ++ o :: post)).
Proof.
  unfold UpdateTasksID.
  destruct (set_namespaces_spec id (SpecList (App ctx)))
    as [(pre & -> & -> & _)|(pre & o & post & e & Hl & Ho & ->)]; intros Hu; simplify_eq/=;
    (split; [done|]); [by left|right].
  by exists e, pre, o, post.
Qed.

(** *** Affinity and topology *)

Lemma requirement_labels_map (l : list (string * string)) (m : gmap string string) :
  NoDup l.*1 →
  requirement_labels ((λ kv, (kv.1, [kv.2])) <$> l) m = Ok (list_to_map l ∪ m).
Proof.
  revert m. induction l as [|[k v] l IH]; intros m Hnd; simpl.
  - by rewrite (left_id_L ∅ (∪)).
  - inversion Hnd as [|?? Hk Hnd']; subst. unfold mbind, outcome_bind; simpl.
    rewrite IH by done. f_equal.
    rewrite <- insert_union_r by (by apply not_elem_of_list_to_map_1). by rewrite <- insert_union_l.
Qed.

(** The labels of the node affinity the driver builds are the topology labels it
    was built from, whatever the order of the map. *)
Theorem getLabels_getAffinity range (labels : gmap string string) rest :
  (∀ m, range m ≡ₚ map_to_list m) →
  (getAffinity range (labels :: rest) ≫= getLabelsFromNodeAffinity) = Ok labels.
Proof.
  intros Hr. assert (NoDup (range labels).*1) as Hnd.
  { rewrite (Hr labels). apply NoDup_fst_map_to_list. }
  unfold getAffinity, getLabelsFromNodeAffinity, term_labels. simpl.
  rewrite (requirement_labels_map _ _ Hnd). simpl. f_equal. rewrite (right_id_L ∅ (∪)).
  rewrite (list_to_map_proper (range labels) (map_to_list labels)) by done. apply list_to_map_to_list.
Qed.

Lemma rotate_cons x l : rotate (x :: l) = l ++ [x].
Proof. by destruct l. Qed.

Lemma rotate_iter (l1 l2 : list (gmap string string)) :
  Nat.iter (length l1) rotate (l1 ++ l2) = l2 ++ l1.
Proof.
  revert l2. induction l1 as [|x l1 IH]; intros l2.
  - simpl. by rewrite app_nil_r.
  - simpl length. rewrite Nat.iter_succ_r. simpl app. rewrite rotate_cons, <- app_assoc, IH.
    by rewrite <- app_assoc.
Qed.

(** Rotating the topology labels [k] times puts the [k]-th first, and as many times
    as there are labels restores them: successive applications go round the
    zones. *)
Theorem rotateTopologyArray_cycles options k :
  (k < length (TopologyLabels options))%nat →
  head (TopologyLabels (Nat.iter k rotateTopologyArray options)) = TopologyLabels options !! k ∧
  Nat.iter (length (TopologyLabels options)) rotateTopologyArray options = options.
Proof.
  assert (∀ n o, TopologyLabels (Nat.iter n rotateTopologyArray o) = Nat.iter n rotate (TopologyLabels o) ∧
    Nat.iter n rotateTopologyArray o = set_TopologyLabels (Nat.iter n rotate (TopologyLabels o)) o) as Hi.
  { intros n o. induction n as [|n [IH1 IH2]]; simpl; [by destruct o|]. by rewrite IH1, IH2. }
  intros Hk. destruct (Hi k options) as [-> _]. split.
  - pose proof (rotate_iter (take k (TopologyLabels options)) (drop k (TopologyLabels options))) as Hr.
    rewrite length_take_le, take_drop in Hr by lia. rewrite Hr.
    rewrite head_lookup, lookup_app_l by (rewrite length_drop; lia).
    by rewrite lookup_drop, Nat.add_0_r.
  - destruct (Hi (length (TopologyLabels options)) options) as [_ ->].
    pose proof (rotate_iter (TopologyLabels options) []) as Hr. rewrite app_nil_r in Hr.
    rewrite Hr. by destruct options.
Qed.

(** *** What the cluster is told *)

Lemma namespace_labels_idem {O} (app : AppSpec O) options m :
  namespace_labels app options (namespace_labels app options m) = namespace_labels app options m.
Proof.
  unfold namespace_labels. apply map_eq. intros k. rewrite !lookup_union, !lookup_insert.
  case_decide; [done|]. rewrite lookup_union, lookup_insert_ne by done.
  by destruct (opt_Labels options !! k), (m !! k).
Qed.

Section object_theorems.
Context {W : Type} `{K8sWorldLaws W} `{K8sClient W} `{!K8sClientFrame W}.

(** An object that exists is returned as the cluster has it, with its [Kind] field
    filled in for the types listed, and the error of the cluster otherwise - for
    every supported type but deployments, stateful sets and daemon sets. *)
Theorem GetUpdatedSpec_reads spec getter namespaced kind obj err w w1 :
  updated_getter (obj_kind spec) = Some (getter, namespaced, kind) →
  obj_kind spec ∉ [KDeployment; KStatefulSet; KDaemonSet] →
  client_Get getter (obj_Name spec) (if (namespaced : bool) then obj_Namespace spec else "") w =
    (Ok (Some obj, err), w1) →
  GetUpdatedSpec spec w =
    (match err with
     | Some e => Err e
     | None => Ok (Some (Some (match kind with Some s => set_Kind s obj | None => obj end)))
     end, w1).
Proof.
  intros Hg Hk Hc. unfold GetUpdatedSpec. rewrite Hg, (bind_Ok _ _ _ _ _ Hc).
  rewrite !not_elem_of_cons in Hk. destruct Hk as (? & ? & ? & _).
  destruct (obj_kind spec); try done; destruct err, kind; done.
Qed.

(** A workload that exists is answered with nil and no error, so a caller cannot
    tell it from one that was never read; a failed read of a deployment is
    answered without an error, or reads a nil pointer. *)
Theorem GetUpdatedSpec_workload spec obj err w w1 :
  obj_kind spec ∈ [KDeployment; KStatefulSet; KDaemonSet] →
  client_Get (obj_kind spec) (obj_Name spec) (obj_Namespace spec) w = (Ok (obj, err), w1) →
  match err with
  | None => GetUpdatedSpec spec w = (Ok None, w1)
  | Some _ => ∀ e w2, GetUpdatedSpec spec w ≠ (Err e, w2)
  end.
Proof.
  intros Hk Hc.
  assert (∃ kind, updated_getter (obj_kind spec) = Some (obj_kind spec, true, kind)) as [kind Hg].
  { rewrite !elem_of_cons, elem_of_nil in Hk. destruct Hk as [->|[->|[->|[]]]]; by eexists. }
  unfold GetUpdatedSpec. rewrite Hg, (bind_Ok _ _ _ _ _ Hc).
  rewrite !elem_of_cons, elem_of_nil in Hk.
  destruct Hk as [Hk|[Hk|[Hk|[]]]]; rewrite Hk in *; destruct err, kind, obj; try done.
Qed.

(** A label that the cluster refuses to store is reported as added: the error of
    the update is lost.  Removing a label reports the same error. *)
Theorem AddNamespaceLabel_loses_error namespace labelMap ns l w w1 e w2 :
  client_Get KNamespace namespace "" w = (Ok (Some ns, None), w1) →
  Labels ns = Some l →
  client_Update (set_Labels (Some (labelMap ∪ l)) ns) w1 = (Err e, w2) →
  AddNamespaceLabel namespace labelMap w = (Ok tt, w2) ∧
  ∀ w3, client_Update (set_Labels (Some (l ∖ labelMap)) ns) w1 = (Err e, w3) →
    RemoveNamespaceLabel namespace labelMap w = (Err e, w3).
Proof.
  intros Hg Hl Hu. unfold AddNamespaceLabel, RemoveNamespaceLabel, get_object.
  unfold_m. rewrite Hg. simpl. rewrite Hl. simpl. rewrite Hu. split; [done|]. intros w3 Hr.
  by rewrite Hr.
Qed.

(** *** Labels of namespaces *)

Definition torpedo_labels (w : W) : gmap string string := defaultTorpedoLabel (k8s w).

Lemma get_object_external k name ns : K8sExternal (get_object (W := W) k name ns).
Proof.
  split; [|unfold get_object; external_calls]. intros w. unfold get_object, mbind, M_bind.
  pose proof (k8s_external (m := client_Get k name ns) w) as He.
  destruct (client_Get k name ns w) as [[[obj err]|e|s|] w1]; simpl in *; [|done..].
  by destruct err.
Qed.

Lemma create_object_external o : K8sExternal (create_object (W := W) o).
Proof.
  split; [|unfold create_object; external_calls]. intros w. unfold create_object, mbind, M_bind.
  pose proof (k8s_external (m := client_Create o) w) as He.
  destruct (client_Create o w) as [[[obj err]|e|s|] w1]; simpl in *; [|done..].
  by destruct err.
Qed.

(** [CreateNamespace] answers with the namespace it was given, labels included. *)
Hypothesis client_Create_labels : ∀ o w o' w', create_object o w = (Ok o', w') → Labels o' = Labels o.

Definition exists_already (ns : string) (n : Object) : Prop :=
  ∃ wa wb, client_Get KNamespace ns "" wa = (Ok (Some n, None), wb).

Lemma namespace_task_labels {O} (app : AppSpec O) namespace options w r w' :
  namespace_task app namespace options w = (r, w') →
  torpedo_labels w' = namespace_labels app options (torpedo_labels w) ∧
  (∀ n, r = Ok (Done n) → Labels n = Some (torpedo_labels w') ∨ exists_already namespace n).
Proof using All.
  unfold namespace_task, torpedo_labels. unfold mbind, M_bind; simpl. rewrite k8s_set_k8s; simpl.
  set (w0 := set_k8s _ w).
  set (o := new_object KNamespace namespace "" _).
  assert (defaultTorpedoLabel (k8s w0) = namespace_labels app options (defaultTorpedoLabel (k8s w))) as Hw0.
  { unfold w0. by rewrite k8s_set_k8s. }
  unfold attempt. pose proof (create_object_external o) as Hco.
  pose proof (k8s_external (m := create_object o) w0) as Hc.
  destruct (create_object o w0) as [[n|e|s|] w1] eqn:Ho; simpl in Hc.
  - intros Hr. injection Hr as <- <-. rewrite Hc, Hw0. split; [done|].
    intros n' ?; simplify_eq. left. by apply client_Create_labels in Ho.
  - destruct (IsAlreadyExists e).
    + pose proof (get_object_external KNamespace namespace "") as Hx.
      pose proof (k8s_external (m := get_object KNamespace namespace "") w1) as Hg.
      destruct (get_object KNamespace namespace "" w1) as [[n|e'|s|] w2] eqn:Hgo; simpl in Hg;
        intros Hr; injection Hr as <- <-; rewrite Hg, Hc, Hw0; (split; [done|]); intros n' ?; simplify_eq.
      right. unfold get_object in Hgo. apply bind_Ok_inv in Hgo as ([obj err] & w3 & Hcg & Hk).
      destruct err; [done|]. destruct obj; simpl in Hk; unfold lift in Hk; simplify_eq. by exists w1, w2.
    + intros Hr. injection Hr as <- <-. rewrite Hc, Hw0. split; [done|]. intros n' ?; simplify_eq.
  - intros Hr. injection Hr as <- <-. rewrite Hc, Hw0. split; [done|]. intros n' ?; simplify_eq.
  - intros Hr. injection Hr as <- <-. rewrite Hc, Hw0. split; [done|]. intros n' ?; simplify_eq.
Qed.

Lemma createNamespace_labels {O} (app : AppSpec O) namespace options w n w' :
  createNamespace app namespace options w = (Ok n, w') →
  torpedo_labels w' = namespace_labels app options (torpedo_labels w) ∧
  (Labels n = Some (torpedo_labels w') ∨ exists_already namespace n).
Proof using All.
  intros Hr. unfold createNamespace in Hr.
  apply (DoRetryWithTimeout_Ok_keeps (λ w1, torpedo_labels w1 = torpedo_labels w ∨
    torpedo_labels w1 = namespace_labels app options (torpedo_labels w))) in Hr as (w1 & Hw1 & Hd).
  - apply namespace_task_labels in Hd as [Hl Hn]. split; [|by apply Hn].
    rewrite Hl. destruct Hw1 as [-> | ->]; [done|]. apply namespace_labels_idem.
  - intros w1 Hw1. right. destruct (namespace_task app namespace options w1) as [r w2] eqn:E.
    apply namespace_task_labels in E as [E _]. simpl. rewrite E.
    destruct Hw1 as [-> | ->]; [done|]. apply namespace_labels_idem.
  - intros d w1. unfold torpedo_labels. by rewrite k8s_sleep.
  - by left.
Qed.

(** The labels asked for one application end up on the namespaces of later ones:
    [createNamespace] adds them to the package's default labels, of which every
    namespace gets all. *)
Theorem createNamespace_labels_leak {O} (app1 : AppSpec O) ns1 options1 (app2 : AppSpec O) ns2 options2 w n1 w1 n2 w2 k v :
  createNamespace app1 ns1 options1 w = (Ok n1, w1) →
  createNamespace app2 ns2 options2 w1 = (Ok n2, w2) →
  opt_Labels options1 !! k = Some v → opt_Labels options2 !! k = None → k ≠ "app" →
  (∃ l, Labels n2 = Some l ∧ l !! k = Some v) ∨ exists_already ns2 n2.
Proof using All.
  intros Hc1 Hc2 Hk1 Hk2 Hk. apply createNamespace_labels in Hc1 as [Hl1 _].
  apply createNamespace_labels in Hc2 as [Hl2 [Hl|?]]; [left|by right].
  eexists. split; [done|]. rewrite Hl2, Hl1. unfold namespace_labels.
  rewrite lookup_union_r, lookup_insert_ne by done. by apply lookup_union_Some_l.
Qed.

End object_theorems.
