(* ===== verification/VolumeDrivers.v ===== *)
(** drivers/volume: the registry of volume drivers (volume.go), the default driver
    (common.go) and the drivers that embed it: aws, azure, gce, generic_csi, ibm,
    linstor, ocp and pso.

    A driver that embeds [DefaultDriver] answers a method by its own definition
    or, without one, by the default one.  The methods whose bodies do nothing but
    answer are tables here; the others are definitions. *)

From Stdlib Require Import Ascii.
From S2P Require Import Prelude GoStrings Errors Effects Task NodeRegistry PxDriver.

(** What such a method answers: that it is not supported, naming an operation, or
    no error and zero values *)
Inductive answer : Type := Unsupported (Operation : string) | Nothing.

#[export] Instance answer_eq_dec : EqDecision answer.
Proof. solve_decision. Defined.

Definition answer_outcome (a : answer) : outcome unit :=
  match a with
  | Unsupported op => Err (ErrNotSupported "Function" op)
  | Nothing => Ok tt
  end.

(** ** DefaultDriver *)

(** Methods GetVolumeDriverNamespace to IsDriverInstalled *)
Definition default_methods_1 : list (string * answer) :=
  [ ("GetVolumeDriverNamespace", Unsupported "GetVolumeDriverNamespace()");
    ("RefreshDriverEndpoints", Unsupported "RefreshDriverEndpoints()");
    ("ListAllVolumes", Unsupported "ListAllVolumes()");
    ("CreateVolume", Unsupported "CreateVolume()");
    ("CreateVolumeUsingPxctlCmd", Unsupported "CreateVolumeUsingPxctlCmd()");
    ("ResizeVolume", Unsupported "ResizeVolume()");
    ("CreateVolumeUsingRequest", Unsupported "CreateVolumeUsingRequest()");
    ("CloneVolume", Unsupported "CloneVolume()");
    ("AttachVolume", Unsupported "CreateVolume()");
    ("DetachVolume", Unsupported "DetachVolume()");
    ("DeleteVolume", Unsupported "DeleteVolume()");
    ("CleanupVolume", Unsupported "CleanupVolume()");
    ("InspectVolume", Unsupported "InspectVolume()");
    ("CreateSnapshot", Unsupported "CreateSnapshot()");
    ("GetStorageDevices", Unsupported "GetStorageDevices()");
    ("IsDriverInstalled", Unsupported "IsDriverInstalled()") ].

(** Methods RecoverDriver to DeleteAllCloudsnaps *)
Definition default_methods_2 : list (string * answer) :=
  [ ("RecoverDriver", Unsupported "RecoverDriver()");
    ("EnterMaintenance", Unsupported "EnterMaintenance()");
    ("ExitMaintenance", Unsupported "ExitMaintenance()");
    ("UpdatePoolIOPriority", Unsupported "UpdatePoolIOPriority()");
    ("RecoverPool", Unsupported "RecoverPool()");
    ("EnterPoolMaintenance", Unsupported "EnterPoolMaintenance()");
    ("ExitPoolMaintenance", Unsupported "ExitPoolMaintenance()");
    ("DeletePool", Unsupported "DeletePool()");
    ("GetNodePoolsStatus", Unsupported "GetNodePoolsStatus()");
    ("GetNodePools", Unsupported "GetNodePools()");
    ("GetDriverVersion", Unsupported "GetDriverVersion()");
    ("ValidateCreateVolume", Unsupported "ValidateCreateVolume()");
    ("ValidateCreateSnapshot", Unsupported "ValidateCreateSnapshot()");
    ("ValidateCreateSnapshotUsingPxctl", Unsupported "ValidateCreateSnapshotUsingPxctl()");
    ("GetCloudsnaps", Unsupported "Getloudsnaps()");
    ("GetCloudsnapsOfGivenVolume", Unsupported "GetCloudsnapsOfGivenVolume()");
    ("DeleteAllCloudsnaps", Unsupported "DeleteAllCloudsnaps()") ].

(** Methods ValidateCreateCloudsnap to GetNodeForBackup *)
Definition default_methods_3 : list (string * answer) :=
  [ ("ValidateCreateCloudsnap", Unsupported "ValidateCreateCloudsnap()");
    ("ValidateCreateCloudsnapUsingPxctl", Unsupported "ValidateCreateCloudsnapUsingPxctl()");
    ("ValidateCreateGroupSnapshotUsingPxctl", Unsupported "ValidateCreateGroupSnapshotUsingPxctl()");
    ("ValidateVolumeInPxctlList", Unsupported "ValidateVolumeInPxctlList()");
    ("ValidateGetByteUsedForVolume", Unsupported "ValidateGetByteUsedForVolume()");
    ("ValidatePureVolumesNoReplicaSets", Unsupported "ValidatePureVolumesNoReplicaSets()");
    ("InitializePureLocalVolumePaths", Unsupported "InitializePureLocalVolumePaths()");
    ("ValidatePureLocalVolumePaths", Unsupported "ValidatePureLocalVolumePaths()");
    ("ValidateUpdateVolume", Unsupported "ValidateUpdateVolume()");
    ("SetIoBandwidth", Unsupported "SetIoBandwidth()");
    ("UpdateVolumeSpec", Unsupported "UpdateVolumeSpec()");
    ("ValidateDeleteVolume", Unsupported "ValidateDeleteVolume()");
    ("ValidateVolumeCleanup", Unsupported "ValidateVolumeCleanup()");
    ("ValidateVolumeSetup", Unsupported "ValidateVolumeSetup()");
    ("StopDriver", Unsupported "StopDriver()");
    ("KillPXDaemon", Unsupported "KillPXDaemon()");
    ("GetNodeForVolume", Unsupported "GetNodeForVolume()");
    ("GetNodeForBackup", Unsupported "GetNodeForBackup()") ].

(** Methods ExtractVolumeInfo to GetClusterPairingInfo *)
Definition default_methods_4 : list (string * answer) :=
  [ ("ExtractVolumeInfo", Unsupported "ExtractVolumeInfo()");
    ("WaitDriverUpOnNode", Unsupported "WaitDriverUpOnNode()");
    ("GetDriverNodes", Unsupported "GetDriverNodes()");
    ("GetDriveSet", Unsupported "GetDriveSet()");
    ("GetDriverNode", Unsupported "GetDriverNode()");
    ("WaitDriverDownOnNode", Unsupported "WaitDriverDownOnNode()");
    ("GetReplicationFactor", Unsupported "GetReplicationFactor()");
    ("SetReplicationFactor", Unsupported "SetReplicationFactor()");
    ("WaitForReplicationToComplete", Unsupported "WaitForReplicationToComplete()");
    ("GetAggregationLevel", Unsupported "GetAggregationLevel()");
    ("StartDriver", Unsupported "StartDriver()");
    ("UpgradeDriver", Unsupported "UpgradeDriver()");
    ("ValidateDriver", Unsupported "ValidateDriver()");
    ("UpgradeStork", Unsupported "UpgradeDriver()");
    ("GetClusterPairingInfo", Unsupported "GetClusterPairingInfo()") ].

(** Methods DecommissionNode to IsStorageExpansionEnabled *)
Definition default_methods_5 : list (string * answer) :=
  [ ("DecommissionNode", Unsupported "DecommissionNode()");
    ("RecoverNode", Unsupported "RecoverNode()");
    ("GetNodeStatus", Unsupported "GetNodeStatus()");
    ("GetReplicaSets", Unsupported "GetReplicaSets()");
    ("ValidateVolumeSnapshotRestore", Unsupported "ValidateVolumeSnapshotRestore()");
    ("CollectDiags", Unsupported "CollectDiags()");
    ("ValidateDiagsOnS3", Unsupported "ValidateDiagsOnS3()");
    ("ValidateStoragePools", Unsupported "ValidateStoragePools()");
    ("ExpandPool", Unsupported "ExpandPool()");
    ("ExpandPoolUsingPxctlCmd", Unsupported "ExpandPoolUsingPxctlCmd()");
    ("GetAutoFsTrimStatus", Unsupported "GetAutoFsTrimStatus()");
    ("GetAutoFsTrimUsage", Unsupported "GetAutoFsTrimUsage()");
    ("ListStoragePools", Unsupported "ListStoragePools()");
    ("GetStorageSpec", Unsupported "ListStoragePools()");
    ("ValidateRebalanceJobs", Unsupported "ValidateRebalanceJobs()");
    ("ResizeStoragePoolByPercentage", Unsupported "ResizeStoragePoolByPercentage()");
    ("CreateAutopilotRules", Unsupported "CreateAutopilotRules()");
    ("IsStorageExpansionEnabled", Unsupported "IsStorageExpansionEnabled()") ].

(** Methods EstimatePoolExpandSize to ValidateNodeAfterPickingUpNodeID *)
Definition default_methods_6 : list (string * answer) :=
  [ ("EstimatePoolExpandSize", Unsupported "EstimatePoolExpandSize()");
    ("EstimateVolumeExpand", Unsupported "EstimateVolumeExpand()");
    ("GetLicenseSummary", Nothing);
    ("RestartDriver", Unsupported "RestartDriver()");
    ("SetClusterOpts", Unsupported "SetClusterOpts()");
    ("GetClusterOpts", Unsupported "GetClusterOpts()");
    ("SetClusterOptsWithConfirmation", Unsupported "SetClusterOpts()");
    ("SetClusterRunTimeOpts", Unsupported "SetClusterRunTimeOpts()");
    ("ToggleCallHome", Unsupported "ToggleCallHome()");
    ("UpdateSharedv4FailoverStrategyUsingPxctl", Unsupported "UpdateSharedv4FailoverStrategyUsingPxctl");
    ("UpdateIOPriority", Unsupported "UpdateIOPriority");
    ("UpdateStickyFlag", Unsupported "UpdateStickyFlag");
    ("ValidatePureFaFbMountOptions", Unsupported "ValidateMountOptions");
    ("ValidatePureFaCreateOptions", Unsupported "ValidateCreateOptions");
    ("GetStoragelessNodes", Unsupported "GetStoragelessNodes()");
    ("UpdateNodeWithStorageInfo", Unsupported "UpdateNodeWithStorageInfo()");
    ("WaitForNodeIDToBePickedByAnotherNode", Unsupported "WaitForNodeIdToBePickedByAnotherNode()");
    ("ValidateNodeAfterPickingUpNodeID", Unsupported "ValidateNodeAfterPickingUpNodeId()") ].

(** Methods WaitForPxPodsToBeUp to GetPoolsUsedSize *)
Definition default_methods_7 : list (string * answer) :=
  [ ("WaitForPxPodsToBeUp", Unsupported "WaitForPxPodsToBeUp()");
    ("IsOperatorBasedInstall", Unsupported "IsOperatorBasedInstall()");
    ("RunSecretsLogin", Unsupported "RunSecretsLogin()");
    ("GetDriver", Unsupported "GetDriver()");
    ("GetDriverVersionOnNode", Unsupported "GetPxVersionOnNode()");
    ("GetPxctlCmdOutputConnectionOpts", Unsupported "GetPxctlCmdOutputConnectionOpts()");
    ("GetPxctlCmdOutput", Unsupported "GetPxctlCmdOutput()");
    ("IsPureVolume", Unsupported "IsPureVolume()");
    ("GetNodeStats", Unsupported "GetNodeStats()");
    ("GetTrashCanVolumeIds", Unsupported "GetTrashCanVolumeIds()");
    ("IsPureFileVolume", Unsupported "IsPureFileVolume()");
    ("GetKvdbMembers", Unsupported "GetKvdbMembers()");
    ("GetNodePureVolumeAttachedCountMap", Unsupported "GetNodePureVolumeAttachedCountMap()");
    ("RejoinNode", Unsupported "RejoinNode()");
    ("AddBlockDrives", Unsupported "AddBlockDrives()");
    ("GetPoolDrives", Unsupported "GetPoolDrives()");
    ("AddCloudDrive", Unsupported "AddCloudDrive()");
    ("GetPoolsUsedSize", Unsupported "GetPoolsUsedSize()") ].

(** Methods IsIOsInProgressForTheVolume to CleanUpDefragSchedules *)
Definition default_methods_8 : list (string * answer) :=
  [ ("IsIOsInProgressForTheVolume", Unsupported "IsIOsInProgressForTheVolume()");
    ("GetRebalanceJobs", Unsupported "GetRebalanceJobs()");
    ("GetRebalanceJobStatus", Unsupported "GetRebalanceJobStatus()");
    ("UpdatePoolLabels", Unsupported "UpdatePoolLabels()");
    ("GetPoolLabelValue", Unsupported "GetPoolLabelValue()");
    ("IsNodeInMaintenance", Unsupported "IsNodeInMaintenance()");
    ("IsNodeOutOfMaintenance", Unsupported "IsNodeOutOfMaintenance()");
    ("GetAlertsUsingResourceTypeByTime", Unsupported "GetAlertsUsingResourceTypeByTime()");
    ("GetAlertsUsingResourceTypeBySeverity", Unsupported "GetAlertsUsingResourceTypeBySeverity()");
    ("GetJournalDevicePath", Unsupported "GetJournalDevicePath()");
    ("IsVolumeAttachedOnNode", Unsupported "IsVolumeAttachedOnNode()");
    ("GetPxctlStatus", Unsupported "GetPxctlStatus()");
    ("EnableSkinnySnap", Unsupported "EnableSkinnySnap()");
    ("UpdateSkinnySnapReplNum", Unsupported "UpdateSkinnySnapReplNum()");
    ("CreateDefragSchedule", Unsupported "CreateDefragSchedule()");
    ("GetDefragNodeStatus", Unsupported "GetDefragNodeStatus()");
    ("GetDefragClusterStatus", Unsupported "GetDefragClusterStatus()");
    ("CleanUpDefragSchedules", Unsupported "CleanUpDefragSchedules()") ].

(** Methods DeleteDefragSchedule to ValidateLastDefragScheduleStatus *)
Definition default_methods_9 : list (string * answer) :=
  [ ("DeleteDefragSchedule", Unsupported "DeleteDefragSchedule()");
    ("GetAllDefragSchedules", Unsupported "GetAllDefragSchedules()");
    ("InspectDefragSchedules", Unsupported "InspectDefragSchedules()");
    ("ValidateDefragScheduleInfo", Unsupported "ValidateDefragScheduleInfo()");
    ("ValidateDefragScheduleIdDeleted", Unsupported "ValidateDefragScheduleIdDeleted()");
    ("ValidatesDefragSchedulesTrigger", Unsupported "ValidatesDefragSchedulesTrigger()");
    ("ValidateLastDefragScheduleStatus", Unsupported "ValidateLastDefragScheduleStatus()") ].

(** The methods of the default driver that answer without looking at anything *)
Definition default_methods : list (string * answer) :=
  default_methods_1 ++ default_methods_2 ++ default_methods_3 ++ default_methods_4 ++ default_methods_5 ++
  default_methods_6 ++ default_methods_7 ++ default_methods_8 ++ default_methods_9.

Definition default_GetMaxReplicationFactor : Z := 3.
Definition default_GetMinReplicationFactor : Z := 1.
Definition default_CalculateAutopilotObjectSize (initSize workloadSize : Z) : Z := 0.
Definition default_IsPxReadyOnNode (n : Node) : bool := false.

(** Methods of the aws driver *)
Definition aws_methods : list (string * answer) :=
  [ ("ValidateVolumeCleanup", Nothing);
    ("RefreshDriverEndpoints", Nothing);
    ("GetProxySpecForAVolume", Nothing);
    ("InspectCurrentCluster", Nothing);
    ("DeleteSnapshotsForVolumes", Nothing);
    ("UpdateFBDANFSEndpoint", Unsupported "UpdateFBDANFSEndpoint()");
    ("ValidatePureFBDAMountSource", Unsupported "ValidatePureFBDAMountSource()") ].

(** Methods of the azure driver *)
Definition azure_methods : list (string * answer) :=
  [ ("ValidateVolumeCleanup", Nothing);
    ("RefreshDriverEndpoints", Nothing);
    ("GetProxySpecForAVolume", Nothing);
    ("InspectCurrentCluster", Nothing);
    ("GetDriverVersion", Nothing);
    ("ValidateCreateVolume", Nothing);
    ("ValidateVolumeSetup", Nothing);
    ("ValidateDeleteVolume", Nothing);
    ("InspectVolume", Unsupported "InspectVolume()");
    ("DeleteSnapshotsForVolumes", Nothing);
    ("UpdateFBDANFSEndpoint", Unsupported "UpdateFBDANFSEndpoint()");
    ("ValidatePureFBDAMountSource", Unsupported "ValidatePureFBDAMountSource()") ].

(** Methods of the gce driver *)
Definition gce_methods : list (string * answer) :=
  [ ("GetProxySpecForAVolume", Nothing);
    ("InspectCurrentCluster", Nothing);
    ("ValidateCreateVolume", Nothing);
    ("ValidateVolumeSetup", Nothing);
    ("ValidateDeleteVolume", Nothing);
    ("GetDriverVersion", Nothing);
    ("RefreshDriverEndpoints", Nothing);
    ("InspectVolume", Unsupported "InspectVolume()");
    ("DeleteSnapshotsForVolumes", Nothing);
    ("UpdateFBDANFSEndpoint", Unsupported "UpdateFBDANFSEndpoint()");
    ("ValidatePureFBDAMountSource", Unsupported "ValidatePureFBDAMountSource()") ].

(** Methods of the generic_csi driver *)
Definition generic_csi_methods : list (string * answer) :=
  [ ("ValidateVolumeCleanup", Nothing);
    ("RefreshDriverEndpoints", Nothing);
    ("GetProxySpecForAVolume", Nothing);
    ("InspectCurrentCluster", Nothing);
    ("DeleteSnapshotsForVolumes", Nothing);
    ("UpdateFBDANFSEndpoint", Unsupported "UpdateFBDANFSEndpoint()");
    ("ValidatePureFBDAMountSource", Unsupported "ValidatePureFBDAMountSource()") ].

(** Methods of the ibm driver *)
Definition ibm_methods : list (string * answer) :=
  [ ("ValidateCreateVolume", Nothing);
    ("ValidateVolumeSetup", Nothing);
    ("ValidateDeleteVolume", Nothing);
    ("GetDriverVersion", Nothing);
    ("RefreshDriverEndpoints", Nothing);
    ("GetProxySpecForAVolume", Nothing);
    ("InspectCurrentCluster", Nothing);
    ("InspectVolume", Unsupported "InspectVolume()");
    ("UpdateFBDANFSEndpoint", Unsupported "UpdateFBDANFSEndpoint()");
    ("ValidatePureFBDAMountSource", Unsupported "ValidatePureFBDAMountSource()") ].

(** Methods of the linstor driver *)
Definition linstor_methods : list (string * answer) :=
  [ ("GetProxySpecForAVolume", Nothing);
    ("InspectCurrentCluster", Nothing);
    ("KillPXDaemon", Nothing);
    ("DeleteSnapshotsForVolumes", Nothing);
    ("UpdateFBDANFSEndpoint", Unsupported "UpdateFBDANFSEndpoint()");
    ("ValidatePureFBDAMountSource", Unsupported "ValidatePureFBDAMountSource()") ].

(** Methods of the ocp driver *)
Definition ocp_methods : list (string * answer) :=
  [ ("ValidateCreateVolume", Nothing);
    ("ValidateVolumeSetup", Nothing);
    ("ValidateDeleteVolume", Nothing);
    ("GetDriverVersion", Nothing);
    ("RefreshDriverEndpoints", Nothing);
    ("GetProxySpecForAVolume", Nothing);
    ("InspectCurrentCluster", Nothing);
    ("InspectVolume", Unsupported "InspectVolume()");
    ("WaitDriverUpOnNode", Nothing);
    ("UpdateFBDANFSEndpoint", Unsupported "UpdateFBDANFSEndpoint()");
    ("ValidatePureFBDAMountSource", Unsupported "ValidatePureFBDAMountSource()");
    ("DeleteSnapshotsForVolumes", Nothing) ].

(** Methods of the pso driver *)
Definition pso_methods : list (string * answer) :=
  [ ("ValidateCreateVolume", Nothing);
    ("ValidateVolumeSetup", Nothing);
    ("ValidateDeleteVolume", Nothing);
    ("RefreshDriverEndpoints", Nothing);
    ("GetProxySpecForAVolume", Nothing);
    ("InspectCurrentCluster", Nothing);
    ("DeleteSnapshotsForVolumes", Nothing);
    ("UpdateFBDANFSEndpoint", Unsupported "UpdateFBDANFSEndpoint()");
    ("ValidatePureFBDAMountSource", Unsupported "ValidatePureFBDAMountSource()") ].

(** ** Drivers that embed it *)

Inductive VolumeDriver : Type := aws | azure | gce | genericCsi | ibm | linstor | ocp | pso.

#[export] Instance VolumeDriver_eq_dec : EqDecision VolumeDriver.
Proof. solve_decision. Defined.

Definition own_methods (d : VolumeDriver) : list (string * answer) :=
  match d with
  | aws => aws_methods | azure => azure_methods | gce => gce_methods | genericCsi => generic_csi_methods
  | ibm => ibm_methods | linstor => linstor_methods | ocp => ocp_methods | pso => pso_methods
  end.

Definition method_named (m : string) (l : list (string * answer)) : option answer :=
  snd <$> find_first (λ e, bool_decide (e.1 = m)) l.

(** Method lookup: the method of the driver hides the promoted one. *)
Definition dispatch (d : VolumeDriver) (m : string) : option answer :=
  match method_named m (own_methods d) with
  | Some a => Some a
  | None => method_named m default_methods
  end.

Definition driver_String (d : VolumeDriver) : string :=
  match d with
  | aws => "aws" | azure => "azure" | gce => "gce" | genericCsi => "generic_csi" | ibm => "ibm"
  | linstor => "linstor" | ocp => "ocp" | pso => "pso"
  end.

(** The [provisioners] of each package: what the caller names and what is used *)
Definition driver_provisioners (d : VolumeDriver) : gmap string string :=
  match d with
  | aws => {["aws" := "kubernetes.io/aws-ebs"]}
  | azure => {["azure" := "disk.csi.azure.com"; "azurefile" := "file.csi.azure.com"]}
  | gce => {["gce-pd" := "kubernetes.io/gce-pd"; "pd-csi-storage-gke" := "pd.csi.storage.gke.io"]}
  | genericCsi => {["generic_csi" := "csi"]}
  | ibm => {["ibm" := "vpc.block.csi.ibm.io"]}
  | linstor => {["linstor" := "linstor.csi.linbit.com"]}
  | ocp => {["rbd-csi" := "openshift-storage.rbd.csi.ceph.com";
             "cephfs-csi" := "openshift-storage.cephfs.csi.ceph.com";
             "rgw-csi" := "openshift-storage.ceph.rook.io/bucket"]}
  | pso => {["pso" := "pure-csi"; "pso-file" := "pure-csi"]}
  end.

Definition DefaultStorageProvisioner : string := "portworx".
Definition pxd_DriverName : string := "pxd".

(** ** Package variables of drivers/volume *)
Record VolumePackage := {
  volDrivers : gmap string VolumeDriver;
  provisioners : list string;
  StorageDriver : string;
  StorageProvisioner : string;
}.

Definition set_storage (drv prov : string) (s : VolumePackage) : VolumePackage :=
  {| volDrivers := volDrivers s; provisioners := provisioners s; StorageDriver := drv; StorageProvisioner := prov |}.

(** The provisioners are appended, in the order of the range over the map, before
    the name is looked up. *)
Definition Register (range : gmap string string → list (string * string)) (name : string)
    (driverProvisioners : gmap string string) (d : VolumeDriver) (s : VolumePackage)
    : outcome unit * VolumePackage :=
  let ps := provisioners s ++ (range driverProvisioners).*1 in
  let s' := λ m, {| volDrivers := m; provisioners := ps; StorageDriver := StorageDriver s;
                    StorageProvisioner := StorageProvisioner s |} in
  match volDrivers s !! name with
  | None => (Ok tt, s' (<[name := d]> (volDrivers s)))
  | Some _ => (Err (Errorf ("volume driver: " +:+ name +:+ " is already registered")), s' (volDrivers s))
  end.

Definition Get (name : string) (s : VolumePackage) : outcome VolumeDriver :=
  match volDrivers s !! name with
  | Some d => Ok d
  | None => Err (ErrNotFound name "VolumeDriver")
  end.

Definition GetStorageProvisioner (s : VolumePackage) : string := StorageProvisioner s.
Definition GetStorageDriver (s : VolumePackage) : string := StorageDriver s.
Definition GetVolumeProvisioners (s : VolumePackage) : list string := provisioners s.

(** ** Init *)

(** The branches the Init functions share: what happens with a provisioner the
    driver does not know, and with an empty one.  [None] stands for the entry of
    the default provisioner, which is read from the map of the driver. *)
Definition choose_provisioner (d : VolumeDriver) (drv : string) (unknown empty : option error)
    (storageProvisioner : string) (s : VolumePackage) : outcome unit * VolumePackage :=
  let fallback := default "" (driver_provisioners d !! DefaultStorageProvisioner) in
  let other := λ e, match e with
    | Some err => (Err err, set_storage drv (StorageProvisioner s) s)
    | None => (Ok tt, set_storage drv fallback s)
    end in
  if decide (storageProvisioner = "") then other empty
  else match driver_provisioners d !! storageProvisioner with
       | Some p => (Ok tt, set_storage drv p s)
       | None => other unknown
       end.

Definition unknown_provisioner (drv p : string) : error :=
  Errorf ("driver " +:+ drv +:+ ", does not support provisioner " +:+ p).
Definition empty_provisioner (drv : string) : error := Errorf ("Provisioner is empty for volume driver: " +:+ drv).

Definition aws_Init (p : string) : VolumePackage → outcome unit * VolumePackage :=
  choose_provisioner aws "aws" None (Some (empty_provisioner "aws")) p.

Definition azure_Init (p : string) : VolumePackage → outcome unit * VolumePackage :=
  choose_provisioner azure "azure" (Some (unknown_provisioner "azure" p)) None p.

Definition gce_Init (p : string) : VolumePackage → outcome unit * VolumePackage :=
  choose_provisioner gce "gce" (Some (unknown_provisioner "gce" p)) (Some (empty_provisioner "gce")) p.

Definition ibm_Init (p : string) : VolumePackage → outcome unit * VolumePackage :=
  choose_provisioner ibm "ibm" (Some (unknown_provisioner pxd_DriverName p))
    (Some (empty_provisioner pxd_DriverName)) p.

Definition ocp_Init (p : string) : VolumePackage → outcome unit * VolumePackage :=
  choose_provisioner ocp "ocp" (Some (unknown_provisioner pxd_DriverName p))
    (Some (empty_provisioner pxd_DriverName)) p.

Definition pso_Init (p : string) : VolumePackage → outcome unit * VolumePackage :=
  choose_provisioner pso "pso" (Some (unknown_provisioner pxd_DriverName p))
    (Some (empty_provisioner pxd_DriverName)) p.

(** The storage driver is not set; the client is made first. *)
Definition linstor_Init (NewClient : outcome unit) (p : string) (s : VolumePackage) : outcome unit * VolumePackage :=
  match NewClient with
  | Ok _ => choose_provisioner linstor (StorageDriver s) (Some (unknown_provisioner "linstor" p))
              (Some (empty_provisioner "linstor")) p s
  | Err e => (Err (Errorf ("error creating linstor client: " +:+ Error e)), s)
  | o => (o, s)
  end.

(** The provisioner comes from a config map; without the key it stays as it is. *)
Definition csi_Init (GetConfigMap : string → outcome (gmap string string)) (p configMap : string)
    (s : VolumePackage) : outcome unit * VolumePackage :=
  let s1 := set_storage "csi" (StorageProvisioner s) s in
  if decide (p = "generic_csi") then
    match GetConfigMap configMap with
    | Ok data =>
        (Ok tt, match data !! "csi_storageclass_key" with
                | Some v => set_storage "csi" v s
                | None => s1
                end)
    | Err _ => (Err (Errorf ("Failed to get config map for volume driver: csi, provisioner: " +:+ p)), s1)
    | Panic m => (Panic m, s1)
    | Diverge => (Diverge, s1)
    end
  else (Err (Errorf ("Invalid provisioner " +:+ p +:+ " for volume driver: csi")), s1).

(** ** Methods with a body of their own *)

(** A snapshot of the VPC service: its id, name and source volume *)
Record VpcSnapshot := { snap_ID : string; snap_Name : string; snap_Source : string }.

Class VpcService (W : Type) := {
  NewVpcV1 : string → M W unit;
  vpc_ListVolumes : string → M W (list string);
  vpc_ListSnapshots : M W (list VpcSnapshot);
  vpc_DeleteSnapshot : string → M W unit;
}.

Class OtherClusters (W : Type) := {
  linstor_ConnectionStatus : string → M W string;
  ListServices : M W (list (string * string));
  GetPodImages : string → M W (list (list string));
}.

Section other_drivers.
Context {W : Type} `{Clock W} `{VpcService W} `{OtherClusters W} `{K8sCore W}.
Context `{TriggerApi.BackgroundScheduler W}.

(** The inner loop of ibm.DeleteSnapshotsForVolumes *)
Fixpoint delete_snapshots (volumeID : string) (l : list VpcSnapshot) : M W unit :=
  match l with
  | [] => mret tt
  | s :: l' =>
      if decide (snap_Source s = volumeID) then
        _ ← wrap_err (λ e, Errorf ("error deleting snapshot '" +:+ snap_Name s +:+ "': " +:+ Error e))
              (vpc_DeleteSnapshot (snap_ID s));
        delete_snapshots volumeID l'
      else delete_snapshots volumeID l'
  end.

Fixpoint delete_of_volumes (volumeNames : list string) : M W unit :=
  match volumeNames with
  | [] => mret tt
  | name :: rest =>
      volumes ← wrap_err (λ e, Errorf ("error finding volume '" +:+ name +:+ "': " +:+ Error e)) (vpc_ListVolumes name);
      match volumes with
      | [] => delete_of_volumes rest
      | volumeID :: _ =>
          snapshots ← wrap_err (λ e, Errorf ("error listing snapshots: " +:+ Error e)) vpc_ListSnapshots;
          _ ← delete_snapshots volumeID snapshots;
          delete_of_volumes rest
      end
  end.

Definition ibm_DeleteSnapshotsForVolumes (volumeNames : list string) (apiKey : string) : M W unit :=
  _ ← wrap_err (λ e, Errorf ("error creating VPC service client: " +:+ Error e)) (NewVpcV1 apiKey);
  delete_of_volumes volumeNames.

(** [%q] of the name of a node, which has no characters to escape *)
Definition quote_name (s : string) : string := String "034" (s +:+ String "034" "").

Definition linstor_label : string := "linstor.linbit.com/linstor-node".

Fixpoint linstor_stop (nodes : list Node) : M W unit :=
  match nodes with
  | [] => mret tt
  | n :: nodes' =>
      _ ← wrap_err (λ e, Errorf ("Failed to set label on node " +:+ quote_name (Name n) +:+ ": " +:+ Error e))
            (RemoveLabelOnNode (Name n) linstor_label);
      _ ← (λ w, (Ok tt, sleep (1 * Minute) w));
      linstor_stop nodes'
  end.

Definition linstor_StopDriver (nodes : list Node) (triggerOpts : option (TriggerApi.TriggerOptions W)) : M W unit :=
  TriggerApi.PerformTask (linstor_stop nodes) triggerOpts.

Definition linstor_StartDriver (n : Node) : M W unit :=
  wrap_err (λ e, Errorf ("Failed to set label on node " +:+ quote_name (Name n) +:+ ": " +:+ Error e))
    (AddLabelOnNode (Name n) linstor_label "true").

Definition linstor_up_task (n : Node) : M W (task_result unit) :=
  attempt (linstor_ConnectionStatus (Name n)) (λ r,
    match r with
    | inr e => mret (Retry (Errorf ("failed to get info about LINSTOR node '" +:+ Name n +:+ "': " +:+ Error e)))
    | inl st =>
        if decide (st = "ONLINE") then mret (Done tt)
        else mret (Retry (Errorf ("LINSTOR node '" +:+ Name n +:+ "' is not online. status: " +:+ st)))
    end).

Definition linstor_WaitDriverUpOnNode (n : Node) (timeout : Z) : M W unit :=
  DoRetryWithTimeout (linstor_up_task n) timeout (10 * Second).

Definition GetPsoNamespace : M W string :=
  services ← wrap_err (λ e, Errorf ("failed to get list of services. Err: " +:+ Error e)) ListServices;
  match find_first (λ s, bool_decide (s.1 = "pso-csi-controller")) services with
  | Some s => mret s.2
  | None => throw (Errorf "can't find PSO service [pso-csi-controller] from list of services")
  end.

(** The tag of the image of the second container of the first pod *)
Definition pso_GetDriverVersion : M W string :=
  ns ← GetPsoNamespace;
  pods ← GetPodImages ns;
  images ← lift (index pods 0);
  image ← lift (index images 1);
  lift (index (Split image ":") 1).
End other_drivers.

(** ** What they guarantee *)

(** The name an answer gives differs from the method. *)
Definition misnamed (e : string * answer) : bool :=
  match e.2 with
  | Unsupported op => negb (bool_decide (op = e.1)) && negb (bool_decide (op = e.1 +:+ "()"))
  | Nothing => false
  end.

(** Every method of [DefaultDriver] that is not supported says so under its own
    name, but for ten that name another operation or misspell their own; and no
    method is defined twice. *)
Theorem default_methods_misnamed :
  keep misnamed default_methods =
    [ ("AttachVolume", Unsupported "CreateVolume()"); ("GetCloudsnaps", Unsupported "Getloudsnaps()");
      ("UpgradeStork", Unsupported "UpgradeDriver()"); ("GetStorageSpec", Unsupported "ListStoragePools()");
      ("SetClusterOptsWithConfirmation", Unsupported "SetClusterOpts()");
      ("ValidatePureFaFbMountOptions", Unsupported "ValidateMountOptions");
      ("ValidatePureFaCreateOptions", Unsupported "ValidateCreateOptions");
      ("WaitForNodeIDToBePickedByAnotherNode", Unsupported "WaitForNodeIdToBePickedByAnotherNode()");
      ("ValidateNodeAfterPickingUpNodeID", Unsupported "ValidateNodeAfterPickingUpNodeId()");
      ("GetDriverVersionOnNode", Unsupported "GetPxVersionOnNode()") ] ∧
  NoDup default_methods.*1.
Proof.
  split; [vm_compute; reflexivity|].
  apply (bool_decide_unpack (NoDup default_methods.*1)). vm_compute. exact I.
Qed.

Definition Inits : list (VolumeDriver * (string → VolumePackage → outcome unit * VolumePackage)) :=
  [(aws, aws_Init); (azure, azure_Init); (gce, gce_Init); (ibm, ibm_Init); (ocp, ocp_Init); (pso, pso_Init)].

(** A successful [Init] of a driver has chosen the provisioner the driver has for
    the requested name, but for aws with a name it does not know and azure with
    an empty name, which look up the provisioner of Portworx in their own table
    and end with an empty one.  Nothing else of the package changes but the name
    of the storage driver, and a failed Init keeps the provisioner. *)
Theorem Init_provisioner d init p s o s' :
  (d, init) ∈ Inits → init p s = (o, s') →
  volDrivers s' = volDrivers s ∧ provisioners s' = provisioners s ∧ StorageDriver s' = driver_String d ∧
  match o with
  | Ok _ => driver_provisioners d !! p = Some (StorageProvisioner s') ∨
            StorageProvisioner s' = "" ∧ (d = aws ∧ p ≠ "" ∧ driver_provisioners aws !! p = None ∨ d = azure ∧ p = "")
  | _ => StorageProvisioner s' = StorageProvisioner s
  end.
Proof.
  intros Hin Hi. unfold Inits in Hin.
  repeat (apply elem_of_cons in Hin as [[= -> ->]|Hin]); [..|by apply elem_of_nil in Hin];
    unfold aws_Init, azure_Init, gce_Init, ibm_Init, ocp_Init, pso_Init, choose_provisioner in Hi;
    (case_decide as Hp; [|destruct (driver_provisioners _ !! p) as [q|] eqn:Hq]);
    injection Hi as <- <-; (split_and!; [done..|]); simpl; auto.
  right. split; [reflexivity|]. by left.
Qed.

(** Drivers are found under the name they were first registered with: a second
    registration of a name fails and leaves the driver, but its provisioners are
    listed all the same. *)
Theorem Register_Get range name ps d s o s' :
  Register range name ps d s = (o, s') →
  (∀ other, Get other s' = if decide (other = name)
                           then Ok (default d (volDrivers s !! name)) else Get other s) ∧
  (o = Ok tt ↔ volDrivers s !! name = None) ∧
  GetVolumeProvisioners s' = GetVolumeProvisioners s ++ (range ps).*1.
Proof.
  unfold Register, Get. intros Hr. destruct (volDrivers s !! name) as [d'|] eqn:E; injection Hr as <- <-; simpl.
  - split_and!; [|split; [discriminate|done]|done]. intros other. case_decide as Hn; [subst; by rewrite E|done].
  - split_and!; [|done|done]. intros other. case_decide as Hn; [subst; by rewrite lookup_insert_eq|].
    by rewrite lookup_insert_ne.
Qed.

Section ibm_theorem.
Context {W : Type} `{VpcService W}.

Lemma delete_snapshots_success volumeID l w w' :
  delete_snapshots volumeID l w = (Ok tt, w') →
  ∀ s, s ∈ l → snap_Source s = volumeID → ∃ w1 w2, vpc_DeleteSnapshot (snap_ID s) w1 = (Ok tt, w2).
Proof.
  revert w. induction l as [|x l IH]; intros w Hd s Hs Hv; [by apply elem_of_nil in Hs|]. simpl in Hd.
  case_decide as Hx.
  - apply bind_Ok_inv in Hd as ([] & w1 & Hdel & Hd). apply wrap_err_Ok_inv in Hdel.
    apply elem_of_cons in Hs as [->|Hs]; [by eauto|by eapply IH].
  - apply elem_of_cons in Hs as [->|Hs]; [done|by eapply IH].
Qed.

(** When [DeleteSnapshotsForVolumes] of the ibm driver succeeds, each of the
    volumes was looked up by its name, and of a volume that exists every
    snapshot of a listing was deleted. *)
Theorem ibm_DeleteSnapshots_success volumeNames apiKey w w' :
  ibm_DeleteSnapshotsForVolumes volumeNames apiKey w = (Ok tt, w') →
  ∀ name, name ∈ volumeNames → ∃ w1 volumes w2, vpc_ListVolumes name w1 = (Ok volumes, w2) ∧
    match volumes with
    | [] => True
    | volumeID :: _ => ∃ snapshots w3, vpc_ListSnapshots w2 = (Ok snapshots, w3) ∧
        ∀ s, s ∈ snapshots → snap_Source s = volumeID → ∃ w4 w5, vpc_DeleteSnapshot (snap_ID s) w4 = (Ok tt, w5)
    end.
Proof.
  intros Hd. apply bind_Ok_inv in Hd as ([] & w1 & _ & Hd). clear w. revert w1 Hd.
  induction volumeNames as [|n rest IH]; intros w1 Hd name Hn; [by apply elem_of_nil in Hn|]. simpl in Hd.
  apply bind_Ok_inv in Hd as (volumes & w2 & Hl & Hd). apply wrap_err_Ok_inv in Hl.
  destruct volumes as [|volumeID more].
  - apply elem_of_cons in Hn as [->|Hn]; [by exists w1, [], w2|by eapply IH].
  - apply bind_Ok_inv in Hd as (snaps & w3 & Hs & Hd). apply wrap_err_Ok_inv in Hs.
    apply bind_Ok_inv in Hd as ([] & w4 & Hdel & Hd).
    apply elem_of_cons in Hn as [->|Hn]; [|by eapply IH].
    exists w1, (volumeID :: more), w2. split; [done|]. exists snaps, w3. split; [done|].
    by eapply delete_snapshots_success.
Qed.
End ibm_theorem.

Module VolumeDriversDemo.

Definition fresh : VolumePackage :=
  {| volDrivers := ∅; provisioners := []; StorageDriver := ""; StorageProvisioner := "portworx-volume" |}.

(** A provisioner that aws does not have *)
Lemma Init_provisioner_witness :
  let s' := (aws_Init "gp3" fresh).2 in
  volDrivers s' = ∅ ∧ provisioners s' = [] ∧ StorageDriver s' = "aws" ∧
  (driver_provisioners aws !! "gp3" = Some (StorageProvisioner s') ∨
   StorageProvisioner s' = "" ∧
     (aws = aws ∧ "gp3" ≠ "" ∧ driver_provisioners aws !! "gp3" = None ∨ aws = azure ∧ "gp3" = "")).
Proof.
  apply (Init_provisioner aws aws_Init "gp3" fresh (Ok tt) (aws_Init "gp3" fresh).2); [by left|reflexivity].
Defined.

Definition twice : VolumePackage := (Register map_to_list "pso" (driver_provisioners pso) pso fresh).2.

Lemma Register_Get_witness :
  let r := Register map_to_list "pso" (driver_provisioners pso) gce twice in
  (∀ other, Get other r.2 = if decide (other = "pso")
                            then Ok (default gce (volDrivers twice !! "pso")) else Get other twice) ∧
  (r.1 = Ok tt ↔ volDrivers twice !! "pso" = None) ∧
  GetVolumeProvisioners r.2 = GetVolumeProvisioners twice ++ (map_to_list (driver_provisioners pso)).*1.
Proof.
  apply (Register_Get map_to_list "pso" (driver_provisioners pso) gce twice
    (Register map_to_list "pso" (driver_provisioners pso) gce twice).1
    (Register map_to_list "pso" (driver_provisioners pso) gce twice).2).
  reflexivity.
Defined.

(** A service with two snapshots: the world is the list that is left. *)
#[export] Instance demo_vpc : VpcService (list VpcSnapshot) := {
  NewVpcV1 := λ _, mret tt;
  vpc_ListVolumes := λ name, mret (if decide (name = "vol1") then ["id1"] else []);
  vpc_ListSnapshots := λ w, (Ok w, w);
  vpc_DeleteSnapshot := λ i w, (Ok tt, keep (λ s, negb (bool_decide (snap_ID s = i))) w);
}.

Definition snaps : list VpcSnapshot :=
  [ {| snap_ID := "s1"; snap_Name := "one"; snap_Source := "id1" |};
    {| snap_ID := "s2"; snap_Name := "two"; snap_Source := "id2" |} ].

Lemma ibm_DeleteSnapshots_success_witness :
  ∃ w1 volumes w2, vpc_ListVolumes "vol1" w1 = (Ok volumes, w2) ∧
    match volumes with
    | [] => True
    | volumeID :: _ => ∃ snapshots w3, vpc_ListSnapshots w2 = (Ok snapshots, w3) ∧
        ∀ s, s ∈ snapshots → snap_Source s = volumeID → ∃ w4 w5, vpc_DeleteSnapshot (snap_ID s) w4 = (Ok tt, w5)
    end.
Proof.
  apply (ibm_DeleteSnapshots_success ["vol0"; "vol1"] "key" snaps
    (ibm_DeleteSnapshotsForVolumes ["vol0"; "vol1"] "key" snaps).2).
  - vm_compute. reflexivity.
  - right. left.
Defined.
End VolumeDriversDemo.
