(* ===== verification/K8sSpecs.v ===== *)
(** drivers/scheduler/k8s: reading application specs - which files of a directory
    belong to the provisioner, decoding the YAML documents of a file, images from
    an internal registry (k8s.go), and the parameters of Helm charts (helm.go).

    The file system, the YAML reader, the decoders of the Kubernetes client, the
    template engine and the environment are the class [SpecFiles]. *)

From Stdlib Require Import Ascii.
From S2P Require Import Prelude GoStrings Errors Effects Task NodeRegistry AutopilotRules SpecFactory PxDriver K8sObjects VolumeDrivers.

(** ** Interfaces *)

(** [walk_files]: the paths [filepath.Walk] visits that are not directories;
    [yaml_reads]: what the successive reads of a YAML reader return up to the end
    of the file; [Decode]: the deserializer of the client's own scheme ([None]) or
    of a scheme with the groups added to it; [render]: the template engine run on
    the text of a file with the configuration of an application, if it has one;
    [Unmarshal_HelmRepo]: decoding a file as a Helm repository. *)
Class SpecFiles := {
  walk_files : string → outcome (list string);
  ReadFile : string → outcome string;
  yaml_reads : string → list string;
  Decode : option (list string) → string → outcome Object;
  AddToScheme : string → outcome unit;
  render : option string → string → outcome string;
  customConfig : gmap string string;
  Unmarshal_HelmRepo : string → outcome HelmRepo;
  Getenv : string → string;
}.

Section specs.
Context `{SpecFiles}.
Context (volumes : VolumePackage).

(** ** Files *)

(** [GetVolumeDrivers]: the order of the map does not matter to its caller *)
Definition GetVolumeDrivers : list string := (map_to_list (volDrivers volumes)).*1.

Definition isValidProvider (specPath storageProvisioner : string) : bool :=
  negb (existsb (λ driver, negb (bool_decide (driver = storageProvisioner)) &&
                           Contains specPath ("/" +:+ driver +:+ "/")) GetVolumeDrivers).

(** [splitPath[len(splitPath)-1]]: the slice is never empty *)
Definition last_part (path : string) : string := List.last (Split path "/") "".

Definition IsAppHelmChartType (fileName : string) : outcome bool :=
  file ← ReadFile fileName;
  match Unmarshal_HelmRepo file with
  | Ok repoInfo =>
      Ok (bool_decide (RepoName repoInfo ≠ "" ∧ ChartName repoInfo ≠ "" ∧ ReleaseName repoInfo ≠ ""))
  | Err _ => Ok false
  | Panic s => Panic s
  | Diverge => Diverge
  end.

(** ** Decoding *)

Definition spec_groups : list string :=
  ["snapv1"; "storkapi"; "apapi"; "monitoringv1"; "apiextensionsv1beta1"; "apiextensionsv1";
   "storageapi"; "kubevirtv1"; "tektoncdv1"].

Fixpoint add_groups (groups : list string) : outcome unit :=
  match groups with
  | [] => Ok tt
  | g :: groups' => _ ← AddToScheme g; add_groups groups'
  end.

(** The groups are registered one by one when the client's scheme does not know
    the type. *)
Definition decodeSpec (specContents : string) : outcome Object :=
  match Decode None specContents with
  | Err _ => _ ← add_groups spec_groups; Decode (Some spec_groups) specContents
  | o => o
  end.

(** *** Images *)

Definition modifyImageInContainers (imageName : string) (containers : list Container) : list Container :=
  (λ c, {| Image := imageName +:+ "/" +:+ Image c; Args := Args c |}) <$> containers.

Definition set_containers (f : list Container → list Container) (t : PodTemplate) : PodTemplate :=
  {| SchedulerName := SchedulerName t; ImagePullSecrets := ImagePullSecrets t; NodeSelector := NodeSelector t;
     InitContainers := f (InitContainers t); Containers := f (Containers t) |}.

Definition substituteImageWithInternalRegistry (spec : Object) : Object :=
  let internalDockerRegistry := Getenv "INTERNAL_DOCKER_REGISTRY" in
  if decide (internalDockerRegistry = "") then spec else
  match obj_kind spec with
  | KDaemonSet | KDeployment | KStatefulSet | KJob | KPod =>
      set_template (set_containers (modifyImageInContainers internalDockerRegistry) (template (Spec spec))) spec
  | _ => spec
  end.

(** *** Documents

    The loop of [ParseSpecs] and of [ParseSpecsFromYamlBuf] over the documents of a
    file: blank ones are skipped, and the first that cannot be decoded or is of an
    unknown type ends it. *)
Fixpoint parse_documents (docs : list string) : outcome (list Object) :=
  match docs with
  | [] => Ok []
  | specContents :: docs' =>
      if decide (TrimSpace specContents = "") then parse_documents docs' else
      obj ← decodeSpec specContents;
      specObj ← validateSpec obj;
      rest ← parse_documents docs';
      mret (substituteImageWithInternalRegistry specObj :: rest)
  end.

Definition ParseSpecsFromYamlBuf (yamlBuf : string) : outcome (list Object) :=
  parse_documents (yaml_reads yamlBuf).

Definition ParseCharts (fileName : string) : outcome Object :=
  file ← ReadFile fileName;
  repoInfo ← Unmarshal_HelmRepo file;
  mret (set_helm repoInfo (new_object KHelmRepo "" "" None)).

(** One file of [ParseSpecs] *)
Definition parse_file (appName fileName : string) : outcome (list Object) :=
  isHelmChart ← IsAppHelmChartType fileName;
  if HasPrefix (last_part fileName) "cr-" then
    mret [set_Path fileName (new_object KCustomResourceObjectYAML "" "" None)]
  else if (isHelmChart : bool) then
    repoInfo ← ParseCharts fileName; mret [repoInfo]
  else
    file ← ReadFile fileName;
    processedFile ← render (customConfig !! appName) file;
    parse_documents (yaml_reads processedFile).

Fixpoint parse_files (appName : string) (fileList : list string) : outcome (list Object) :=
  match fileList with
  | [] => Ok []
  | fileName :: fileList' =>
      l ← parse_file appName fileName;
      rest ← parse_files appName fileList';
      mret (l ++ rest)
  end.

Definition K8s_ParseSpecs (specDir storageProvisioner : string) : outcome (list Object) :=
  files ← walk_files specDir;
  let fileList := keep (λ path, isValidProvider path storageProvisioner) files in
  parse_files (last_part specDir) fileList.

End specs.

(** ** Properties *)

(** The types [validateSpec] accepts *)
Definition supported (k : Kind) : Prop := ∃ o, obj_kind o = k ∧ validateSpec o = Ok o.

Lemma validateSpec_Ok o o' : validateSpec o = Ok o' → o' = o ∧ supported (obj_kind o).
Proof.
  intros Hv. assert (o' = o) as -> by (unfold validateSpec in Hv; destruct (obj_kind o); by simplify_eq).
  split; [done|]. by exists o.
Qed.

Lemma supported_no_helm k : supported k → k ≠ KHelmRepo ∧ k ≠ KCustomResourceObjectYAML.
Proof. intros (o & <- & Hv). unfold validateSpec in Hv. destruct (obj_kind o); done. Qed.

Section spec_theorems.
Context `{SpecFiles}.

Lemma substituteImage_kind o : obj_kind (substituteImageWithInternalRegistry o) = obj_kind o.
Proof.
  unfold substituteImageWithInternalRegistry. case_decide; [done|]. by destruct (obj_kind o) eqn:E; rewrite ?E.
Qed.

Lemma parse_documents_Ok docs l :
  parse_documents docs = Ok l → Forall (λ o, supported (obj_kind o)) l.
Proof.
  revert l. induction docs as [|d docs IH]; intros l; simpl; [intros ?; simplify_eq; constructor|].
  case_decide; [by apply IH|]. unfold mbind, outcome_bind, mret, outcome_ret.
  destruct (decodeSpec d) as [o|?|?|]; [|done..].
  destruct (validateSpec o) as [o'|?|?|] eqn:Hv; [|done..].
  destruct (parse_documents docs) as [rest|?|?|]; [|done..].
  intros ?; simplify_eq. apply validateSpec_Ok in Hv as [-> Hs].
  constructor; [by rewrite substituteImage_kind|by apply IH].
Qed.

Lemma parse_file_Ok app file l :
  parse_file app file = Ok l →
  Forall (λ o, supported (obj_kind o) ∨ obj_kind o = KHelmRepo ∨ obj_kind o = KCustomResourceObjectYAML) l.
Proof.
  unfold parse_file, ParseCharts, mbind, outcome_bind, mret, outcome_ret.
  destruct (IsAppHelmChartType file) as [b|?|?|]; [|done..].
  destruct (HasPrefix _ _); [intros ?; simplify_eq; constructor; naive_solver|].
  destruct (ReadFile file) as [s|?|?|]; [|by destruct b..]. destruct b.
  - destruct (Unmarshal_HelmRepo s); [|done..]. intros ?; simplify_eq. constructor; naive_solver.
  - destruct (render _ _) as [r|?|?|]; [|done..].
    intros Hd%parse_documents_Ok. eapply Forall_impl; [done|]. naive_solver.
Qed.

Lemma parse_files_Ok app files l :
  parse_files app files = Ok l →
  ∃ parts, Forall2 (λ f p, parse_file app f = Ok p) files parts ∧ l = concat parts.
Proof.
  revert l. induction files as [|f files IH]; intros l; simpl.
  - intros ?; simplify_eq. by exists [].
  - unfold mbind, outcome_bind, mret, outcome_ret. destruct (parse_file app f) as [p|?|?|] eqn:Hp; [|done..].
    destruct (parse_files app files) as [rest|?|?|]; [|done..]. intros ?; simplify_eq.
    destruct (IH rest eq_refl) as (parts & Hparts & ->). exists (p :: parts). by split; [constructor|].
Qed.

(** The specs of an application are the specs of the files under its directory, in
    the order of the walk, less the files under the directory of another volume
    driver; every one of them is a custom resource, a Helm repository or of a type
    the driver accepts. *)
Theorem ParseSpecs_spec volumes specDir prov files l :
  walk_files specDir = Ok files →
  K8s_ParseSpecs volumes specDir prov = Ok l →
  (∃ parts, l = concat parts ∧
     Forall2 (λ f p, parse_file (last_part specDir) f = Ok p)
       (keep (λ path, isValidProvider volumes path prov) files) parts) ∧
  Forall (λ o, supported (obj_kind o) ∨ obj_kind o = KHelmRepo ∨ obj_kind o = KCustomResourceObjectYAML) l.
Proof.
  intros Hw. unfold K8s_ParseSpecs. rewrite Hw. simpl. intros (parts & Hp & ->)%parse_files_Ok.
  split; [by exists parts|]. clear Hw.
  induction Hp as [|f p ?? Hf _ IH]; simpl; [constructor|]. apply Forall_app. split; [|done].
  by eapply parse_file_Ok.
Qed.

(** A path is rejected exactly when it goes through the directory of a registered
    volume driver that is not the provisioner. *)
Theorem isValidProvider_spec volumes path prov :
  isValidProvider volumes path prov = false ↔
  ∃ driver d, volDrivers volumes !! driver = Some d ∧ driver ≠ prov ∧
    ∃ a b, path = a +:+ "/" +:+ driver +:+ "/" +:+ b.
Proof.
  unfold isValidProvider, GetVolumeDrivers. rewrite negb_false_iff, existsb_exists. split.
  - intros (driver & Hin & [Hne Hc]%andb_true_iff).
    apply list_elem_of_In, list_elem_of_fmap in Hin as ([? d] & -> & Hd). apply elem_of_map_to_list in Hd.
    apply negb_true_iff, bool_decide_eq_false in Hne. apply Contains_spec in Hc as (a & b & ->).
    exists s, d. split_and!; [done..|]. exists a, b. simpl. by rewrite ?app_assoc_s.
  - intros (driver & d & Hd & Hne & a & b & ->). exists driver. split.
    + apply list_elem_of_In, list_elem_of_fmap. exists (driver, d). by rewrite elem_of_map_to_list.
    + rewrite bool_decide_eq_false_2 by done. simpl. apply Contains_spec. exists a, b.
      simpl. by rewrite ?app_assoc_s.
Qed.
End spec_theorems.
