(* ===== verification/K8sNodes.v ===== *)
(** drivers/scheduler/k8s/k8s.go: the nodes of the cluster - filling the node
    registry, the kubelet and the labels of a node, and draining a node before it
    is decommissioned. *)

From S2P Require Import Prelude GoStrings Errors Effects Task NodeRegistry SpecFactory PxDriver K8sObjects VolumeDrivers.

(** ** Interfaces *)

(** [corev1.Node]: its name and its addresses with their types *)
Record CoreNode := {
  core_Name : string;
  core_Addresses : list (string * string);
}.

(** [corev1.Pod], the fields that are read; [pod_Terminating] is a deletion
    timestamp that is set, and the volumes are as in [Object] *)
Record Pod := {
  pod_Name : string;
  pod_Namespace : string;
  pod_UID : string;
  pod_NodeName : string;
  pod_HostIP : string;
  pod_Terminating : bool;
  pod_Volumes : list (option string);
  pod_RestartCounts : list Z;
  pod_Status : string;
}.

#[export] Instance Pod_eq_dec : EqDecision Pod.
Proof. solve_decision. Defined.

(** The calls about nodes.  [IsNodeMaster] looks at the labels of the node it is
    given; [show_node] prints a node as [%v] does. *)
Class K8sNodeApi (W : Type) := {
  uuid_New : M W string;
  core_GetNodes : M W (list CoreNode);
  core_IsNodeReady : string → M W unit;
  IsNodeMaster : CoreNode → bool;
  GetLabelsOnNode : string → M W (gmap string string);
  CordonNode : string → Z → Z → M W unit;
  GetPodsByNode : string → string → M W (list Pod);
  GetStorageProvisionerForPVC : Object → M W string;
  DrainPodsFromNode : string → list Pod → Z → Z → M W unit;
  show_node : Node → string;
}.

Definition k8sNodeReadyTimeout : Z := 5 * Minute.
Definition FindFilesOnWorkerTimeout : Z := 1 * Minute.
Definition SystemdSchedServiceName : string := "kubelet".
Definition ZoneK8SNodeLabel : string := "failure-domain.beta.kubernetes.io/zone".
Definition RegionK8SNodeLabel : string := "failure-domain.beta.kubernetes.io/region".

Section nodes.
Context {W : Type} `{K8sWorld W} `{K8sClient W} `{K8sNodeApi W} `{NodeDriver W} `{K8sCore W}.

(** ** The registry *)

Definition registry_write (f : gmap string Node → outcome unit * gmap string Node) : M W unit := λ w,
  let s := px w in
  let '(o, reg) := f (nodeRegistry s) in
  (o, set_px {| nodeRegistry := reg; refreshEndpoint := refreshEndpoint s;
    skipPXSvcEndpoint := skipPXSvcEndpoint s; token := token s; namespace := namespace s;
    clusterManager := clusterManager s; sdkClients := sdkClients s;
    legacyClusterManager := legacyClusterManager s |} w).

(** [node.AddNode] and [node.CleanupRegistry] on the registry of the world *)
Definition registry_AddNode (n : Node) : M W unit :=
  u ← uuid_New; registry_write (Registry.AddNode u n).

Definition registry_CleanupRegistry : M W unit :=
  registry_write (λ reg, (Ok tt, Registry.CleanupRegistry reg)).

Definition node_ready_task (n : Node) : M W (task_result string) :=
  attempt (core_IsNodeReady (Name n)) (λ r,
    match r with
    | inl _ => mret (Done "")
    | inr err => mret (Retry (SchedErr (ErrNodeNotReady (Name n)) (Error err)))
    end).

Definition IsNodeReady (n : Node) : M W unit :=
  _ ← DoRetryWithTimeout (node_ready_task n) k8sNodeReadyTimeout DefaultRetryInterval; mret tt.

Definition getAddressesForNode (n : CoreNode) : list string :=
  (keep (λ a, bool_decide (a.1 = "ExternalIP") || bool_decide (a.1 = "InternalIP")) (core_Addresses n)).*2.

(** [parseK8SNode]: without labels the zone and the region stay empty *)
Definition parsed_node (driver : string) (n : CoreNode) (nodeLabels : gmap string string) : Node :=
  {| storageNode := None; uuid := ""; VolDriverNodeID := ""; Name := core_Name n;
     Addresses := getAddressesForNode n; UsableAddr := "";
     Type_ := if IsNodeMaster n && bool_decide (driver ≠ "ibm") then TypeMaster else TypeWorker;
     Zone := default "" (nodeLabels !! ZoneK8SNodeLabel);
     Region := default "" (nodeLabels !! RegionK8SNodeLabel); TopologyZone := "";
     TopologyRegion := ""; IsStorageDriverInstalled := false; IsMetadataNode := false;
     StoragePools := []; PxPodRestartCount := 0 |}.

Definition get_k8s : M W K8sState := λ w, (Ok (k8s w), w).

Definition parseK8SNode (n : CoreNode) : M W Node :=
  k ← get_k8s;
  attempt (GetLabelsOnNode (core_Name n)) (λ r,
    mret (parsed_node (NodeDriverName k) n (match r with inl l => l | inr _ => ∅ end))).

Definition AddNewNode (newNode : CoreNode) : M W unit :=
  n ← parseK8SNode newNode;
  _ ← IsNodeReady n;
  registry_AddNode n.

Definition RefreshNodeRegistry : M W unit :=
  nodes ← core_GetNodes;
  _ ← registry_CleanupRegistry;
  for_each AddNewNode nodes.

(** ** The services and the labels of a node *)

Definition StopSchedOnNode (n : Node) : M W unit :=
  wrap_err (λ err, SchedErr (ErrFailedToStopSchedOnNode SystemdSchedServiceName (show_node n)) (Error err))
    (Systemctl n SystemdSchedServiceName "stop" (conn_opts FindFilesOnWorkerTimeout DefaultRetryInterval)).

Definition StartSchedOnNode (n : Node) : M W unit :=
  wrap_err (λ err, SchedErr (ErrFailedToStartSchedOnNode SystemdSchedServiceName (show_node n)) (Error err))
    (Systemctl n SystemdSchedServiceName "start" (conn_opts DefaultTimeout DefaultRetryInterval)).

Definition EnableSchedulingOnNode (n : Node) : M W unit :=
  UnCordonNode (Name n) DefaultTimeout DefaultRetryInterval.

Definition DisableSchedulingOnNode (n : Node) : M W unit :=
  CordonNode (Name n) DefaultTimeout DefaultRetryInterval.

Definition k8s_AddLabelOnNode (n : Node) (lKey lValue : string) : M W unit :=
  wrap_err (λ err, SchedErr (ErrFailedToAddLabelOnNode lKey lValue (show_node n))
      ("Failed to add label on node. Err: " +:+ Error err))
    (AddLabelOnNode (Name n) lKey lValue).

Definition k8s_RemoveLabelOnNode (n : Node) (lKey : string) : M W unit :=
  wrap_err (λ err, SchedErr (ErrFailedToRemoveLabelOnNode lKey (show_node n))
      ("Failed to remove label on node. Err: " +:+ Error err))
    (RemoveLabelOnNode (Name n) lKey).

Definition SaveSchedulerLogsToFile (n : Node) (location : string) : M W unit :=
  _ ← RunCommand n ("journalctl -lu " +:+ SystemdSchedServiceName +:+ "* > " +:+ location +:+ "/kubelet.log")
        {| Timeout := DefaultTimeout; TimeBeforeRetry := DefaultRetryInterval; IgnoreError := false;
           Sudo := true |};
  mret tt.

Definition StopKubelet (n : Node) (options : ConnectionOpts) : M W unit :=
  _ ← RunCommand n ("sudo systemctl stop " +:+ "kubelet") options; mret tt.

Definition StartKubelet (n : Node) (options : ConnectionOpts) : M W unit :=
  _ ← RunCommand n ("sudo systemctl start " +:+ "kubelet") options; mret tt.

(** ** Draining *)

(** The volume package is read, not written, by the scheduler. *)
Context (volumes : VolumePackage).

(** The volumes of a pod in [getPodsUsingStorage]: [Some true] is the [append] with
    its [break], [None] the return at a claim that cannot be read *)
Fixpoint pod_uses_storage (ns : string) (vols : list (option string)) : M W (option bool) :=
  match vols with
  | [] => mret (Some false)
  | None :: vols' => pod_uses_storage ns vols'
  | Some claim :: vols' =>
      attempt (get_object KPersistentVolumeClaim claim ns) (λ r,
        match r with
        | inr _ => mret None
        | inl pvc =>
            attempt (GetStorageProvisionerForPVC pvc) (λ r',
              match r' with
              | inl scProvisioner =>
                  if decide (scProvisioner = GetStorageProvisioner volumes) then mret (Some true)
                  else pod_uses_storage ns vols'
              | inr _ => pod_uses_storage ns vols'
              end)
        end)
  end.

(** [getPodsUsingStorage]; its second argument is not used *)
Fixpoint getPodsUsingStorage (pods : list Pod) (provisioner : string) : M W (list Pod) :=
  match pods with
  | [] => mret []
  | pod :: pods' =>
      b ← pod_uses_storage (pod_Namespace pod) (pod_Volumes pod);
      match b with
      | None => mret []
      | Some true => l ← getPodsUsingStorage pods' provisioner; mret (pod :: l)
      | Some false => getPodsUsingStorage pods' provisioner
      end
  end.

Definition drain_timeout (npods : nat) : Z := DefaultTimeout * (Z.of_nat npods / 40 + 1).

Definition PrepareNodeToDecommission (n : Node) (provisioner : string) : M W unit :=
  pods ← wrap_err (λ err, SchedErr (ErrFailedToDecommissionNode (show_node n))
           ("Failed to get pods on the node: " +:+ Name n +:+ ". Err: " +:+ Error err))
         (GetPodsByNode (Name n) "");
  podsUsingStorage ← getPodsUsingStorage pods provisioner;
  wrap_err (λ err, SchedErr (ErrFailedToDecommissionNode (show_node n))
      ("Failed to drain pods from node: " +:+ Name n +:+ ". Err: " +:+ Error err))
    (DrainPodsFromNode (Name n) podsUsingStorage (drain_timeout (length podsUsingStorage)) DefaultRetryInterval).

End nodes.

(** ** Properties *)

(** The calls of the node API do not write the memory of the program, and a new
    uuid is not empty and not in use. *)
Class K8sNodeFrame (W : Type) `{K8sWorld W} `{K8sNodeApi W} : Prop := {
  core_GetNodes_external :: External core_GetNodes;
  core_IsNodeReady_external :: ∀ name, External (core_IsNodeReady name);
  GetLabelsOnNode_external :: ∀ name, External (GetLabelsOnNode name);
  uuid_New_fresh : ∀ w, ∃ u w', uuid_New w = (Ok u, w') ∧ u ≠ "" ∧
    nodeRegistry (px w) !! u = None ∧ px w' = px w;
}.

Section node_theorems.
Context {W : Type} `{PxWorldLaws W} `{!K8sWorld W} `{K8sNodeApi W} `{!K8sNodeFrame W}.

(** The registry of a world *)
Definition reg (w : W) : gmap string Node := nodeRegistry (px w).

Lemma reg_external {A} (m : M W A) `{!External m} w o w' : m w = (o, w') → reg w' = reg w.
Proof.
  intros E. pose proof (external (m := m) w) as [Hp _]. rewrite E in Hp.
  unfold reg. simpl in Hp. by rewrite Hp.
Qed.

Lemma registry_write_reg f w : reg (registry_write f w).2 = (f (reg w)).2.
Proof.
  unfold registry_write, reg. destruct (f (nodeRegistry (px w))) as [o r]. simpl. by rewrite px_set_px.
Qed.

Lemma IsNodeReady_reg n w : reg (IsNodeReady n w).2 = reg w.
Proof.
  set (I w' := reg w' = reg w). assert (preserves I (IsNodeReady n)) as Hp.
  { unfold IsNodeReady. apply preserves_bind; [|intros; apply preserves_ret].
    apply preserves_DoRetry; [|intros d w1; unfold I, reg; by rewrite px_sleep].
    unfold node_ready_task. apply preserves_attempt; [|intros []; apply preserves_ret].
    intros w1 Hw1. unfold I in *. destruct (core_IsNodeReady _ w1) as [o w2] eqn:E.
    apply (reg_external _) in E. simpl. congruence. }
  by apply Hp.
Qed.

Lemma IsNodeReady_Ok n w w' :
  IsNodeReady n w = (Ok tt, w') → ∃ w1, core_IsNodeReady (Name n) w1 = (Ok tt, w').
Proof.
  intros (s & w1 & Hr & Ho)%bind_Ok_inv. injection Ho as <-. apply DoRetryWithTimeout_Ok_inv in Hr as [w2 Ht].
  exists w2. unfold node_ready_task, attempt in Ht.
  destruct (core_IsNodeReady (Name n) w2) as [[[]|e|x|] w3] eqn:E; unfold mret, M_ret in Ht; simplify_eq/=.
  done.
Qed.

(** A node joins the registry: with the labels that were read first, it answered that it
    is ready, and right after that its entry was filed under a new uuid. *)
Definition joins (n : CoreNode) (w w' : W) : Prop :=
  let labels := match (GetLabelsOnNode (core_Name n) w).1 with Ok l => l | _ => ∅ end in
  let node := parsed_node (NodeDriverName (k8s w)) n labels in
  ∃ wr wa u wu, core_IsNodeReady (core_Name n) wr = (Ok tt, wa) ∧ uuid_New wa = (Ok u, wu) ∧
    registry_write (Registry.AddNode u node) wu = (Ok tt, w') ∧
    u ≠ "" ∧ reg w !! u = None ∧ reg w' = <[u := set_uuid u node]> (reg w).

(** A node is left out: waiting for it ended with the error. *)
Definition left_out (n : CoreNode) (e : error) (w' : W) : Prop :=
  ∃ node w1, Name node = core_Name n ∧ IsNodeReady node w1 = (Err e, w').

Lemma registry_AddNode_joins node w o w' :
  uuid node = "" → registry_AddNode node w = (o, w') →
  o = Ok tt ∧ ∃ u wu, uuid_New w = (Ok u, wu) ∧ registry_write (Registry.AddNode u node) wu = (Ok tt, w') ∧
    u ≠ "" ∧ reg w !! u = None ∧ reg w' = <[u := set_uuid u node]> (reg w).
Proof.
  intros Hu. unfold registry_AddNode, mbind, M_bind.
  destruct (uuid_New_fresh w) as (u & w3 & Hn & Hu0 & Hfresh & Hpx). rewrite Hn. intros Ho.
  pose proof (registry_write_reg (Registry.AddNode u node) w3) as Hw. rewrite Ho in Hw.
  assert (o = Ok tt) as ->.
  { unfold registry_write, Registry.AddNode in Ho. rewrite decide_False in Ho by (intros []; done). by simplify_eq/=. }
  split; [done|]. exists u, w3. unfold Registry.AddNode in Hw at 1. rewrite decide_False in Hw by (intros []; done).
  simpl in Hw. unfold reg in *. rewrite Hpx in Hw. split_and!; done.
Qed.

(** A node joins, or the registry is left alone. *)
Lemma AddNewNode_reg n w o w' :
  AddNewNode n w = (o, w') →
  (o = Ok tt ∧ joins n w w') ∨ (o ≠ Ok tt ∧ reg w' = reg w ∧ ∀ e, o = Err e → left_out n e w').
Proof.
  unfold AddNewNode, parseK8SNode, get_k8s, mbind, M_bind, attempt, joins.
  destruct (GetLabelsOnNode (core_Name n) w) as [r w1] eqn:El. apply (reg_external _) in El. simpl.
  assert (∀ labels, let node := parsed_node (NodeDriverName (k8s w)) n labels in
    (IsNodeReady node ≫= λ _, registry_AddNode node) w1 = (o, w') →
    (o = Ok tt ∧ ∃ wr wa u wu, core_IsNodeReady (core_Name n) wr = (Ok tt, wa) ∧ uuid_New wa = (Ok u, wu) ∧
      registry_write (Registry.AddNode u node) wu = (Ok tt, w') ∧
      u ≠ "" ∧ reg w !! u = None ∧ reg w' = <[u := set_uuid u node]> (reg w)) ∨
    (o ≠ Ok tt ∧ reg w' = reg w ∧ ∀ e, o = Err e → left_out n e w')) as Hadd.
  { intros labels node. pose proof (IsNodeReady_reg node w1) as Hr. unfold mbind, M_bind.
    destruct (IsNodeReady node w1) as [[[]|e|s|] w2] eqn:E; simpl in Hr.
    - intros [-> (u & wu & Hn & Hw & Hu & Hf & Hi)]%registry_AddNode_joins; [|done]. left. split; [done|].
      apply IsNodeReady_Ok in E as [wr E]. exists wr, w2, u, wu. by rewrite <- El, <- Hr.
    - intros Ho. simplify_eq. right. split_and!; [done|congruence|]. intros e' [= <-]. by exists node, w1.
    - intros Ho. simplify_eq. right. split_and!; [done|congruence|done].
    - intros Ho. simplify_eq. right. split_and!; [done|congruence|done]. }
  destruct r as [l|e|s|]; intros Ho; [by apply Hadd..| |]; simplify_eq/=; right; by rewrite El.
Qed.

Definition node_names (r : gmap string Node) : list string := Name <$> (map_to_list r).*2.

Lemma node_names_insert u n r :
  r !! u = None → node_names (<[u := n]> r) ≡ₚ Name n :: node_names r.
Proof. intros Hu. unfold node_names. by rewrite map_to_list_insert. Qed.

(** One node after the other *)
Inductive all_join : list CoreNode → W → W → Prop :=
  | all_join_nil w : all_join [] w w
  | all_join_cons n l w w1 w' : joins n w w1 → all_join l w1 w' → all_join (n :: l) w w'.

(** What a run that added [added] did with the rest: there is none, or its first node
    was left out. *)
Definition stopped (o : outcome unit) (rest : list CoreNode) (w2 w' : W) : Prop :=
  match rest with
  | [] => o = Ok tt ∧ w' = w2
  | n :: _ => o ≠ Ok tt ∧ reg w' = reg w2 ∧ ∀ e, o = Err e → left_out n e w'
  end.

Lemma add_nodes_join nodes w o w' :
  for_each AddNewNode nodes w = (o, w') →
  ∃ added rest w2, nodes = added ++ rest ∧ all_join added w w2 ∧ stopped o rest w2 w'.
Proof.
  revert w. induction nodes as [|n nodes IH]; intros w; simpl.
  - intros Ho. unfold mret, M_ret in Ho. simplify_eq. exists [], [], w'. by repeat constructor.
  - unfold mbind, M_bind. destruct (AddNewNode n w) as [r w1] eqn:Ea.
    apply AddNewNode_reg in Ea as [[-> Hj]|(Hne & Hr & He)].
    + intros (added & rest & w2 & -> & Hn & Ho)%IH. exists (n :: added), rest, w2. split_and!; [done| |done].
      by econstructor.
    + intros Ho. exists [], (n :: nodes), w. split_and!; [done|constructor|].
      by destruct r as [[]|e|s|]; simplify_eq.
Qed.

Lemma all_join_names l w w' :
  all_join l w w' → node_names (reg w') ≡ₚ node_names (reg w) ++ (core_Name <$> l).
Proof.
  induction 1 as [w|n l w w1 w' Hj _ IH]; simpl; [by rewrite app_nil_r|].
  destruct Hj as (_ & _ & u & _ & _ & _ & _ & _ & Hu & Hr).
  rewrite IH, Hr, (node_names_insert _ _ _ Hu). apply Permutation_middle.
Qed.


Lemma AddNewNode_wf n : preserves (λ w, Registry.wf (reg w)) (AddNewNode n).
Proof.
  intros w Hw. destruct (AddNewNode n w) as [o w'] eqn:E. simpl.
  apply AddNewNode_reg in E as [[_ (_ & _ & u & _ & _ & _ & _ & Hu & _ & Hr)]|(_ & Hr & _)]; rewrite Hr; [|done].
  by apply (Registry.wf_insert (reg w) (set_uuid u _)).
Qed.

(** Whatever it answers, the registry it leaves is well formed, also when the one
    it started from was not. *)
Theorem RefreshNodeRegistry_wf w o w' nodes w1 :
  core_GetNodes w = (Ok nodes, w1) → RefreshNodeRegistry w = (o, w') → Registry.wf (reg w').
Proof.
  intros Hg Hr. unfold RefreshNodeRegistry in Hr. rewrite (bind_Ok _ _ _ _ _ Hg) in Hr.
  assert (∀ l, preserves (λ w, Registry.wf (reg w)) (for_each AddNewNode l)) as Ha.
  { intros l. apply preserves_for_each, AddNewNode_wf. }
  unfold mbind, M_bind in Hr. unfold registry_CleanupRegistry in Hr.
  pose proof (registry_write_reg (λ reg, (Ok tt, Registry.CleanupRegistry reg)) w1) as Hc.
  unfold registry_write in *. simpl in *.
  specialize (Ha nodes _ (eq_ind_r Registry.wf (map_Forall_empty _) Hc)). by rewrite Hr in Ha.
Qed.
End node_theorems.

(** *** Draining *)

Section drain_theorems.
Context {W : Type} `{K8sWorld W} `{K8sClient W} `{K8sNodeApi W} (volumes : VolumePackage).

(** A cluster whose claims do not change while they are read *)
Context (claims : string → string → option Object) (provisioner_of : Object → option string).
Hypothesis read_claim : ∀ claim ns w, get_object KPersistentVolumeClaim claim ns w =
  (match claims claim ns with Some pvc => Ok pvc | None => Err (Errorf "not found") end, w).
Hypothesis read_provisioner : ∀ pvc (w : W), GetStorageProvisionerForPVC pvc w =
  (match provisioner_of pvc with Some p => Ok p | None => Err (Errorf "no storage class") end, w).

(** A claim of the storage provisioner of the volume package *)
Definition on_storage (ns claim : string) : bool :=
  match claims claim ns with
  | Some pvc => bool_decide (provisioner_of pvc = Some (GetStorageProvisioner volumes))
  | None => false
  end.

Definition uses_storage (pod : Pod) : bool :=
  existsb (λ v, match v with Some c => on_storage (pod_Namespace pod) c | None => false end) (pod_Volumes pod).

(** A claim that cannot be read comes before any claim on the storage. *)
Fixpoint blocked (ns : string) (vols : list (option string)) : bool :=
  match vols with
  | [] => false
  | None :: vols' => blocked ns vols'
  | Some c :: vols' =>
      match claims c ns with
      | None => true
      | Some _ => negb (on_storage ns c) && blocked ns vols'
      end
  end.

Lemma pod_uses_storage_eq ns vols w :
  pod_uses_storage volumes ns vols w =
  (Ok (if blocked ns vols then None
       else Some (existsb (λ v, match v with Some c => on_storage ns c | None => false end) vols)), w).
Proof using read_claim read_provisioner.
  induction vols as [|[c|] vols IH]; simpl; [done| |done].
  unfold attempt. rewrite read_claim. unfold on_storage at 1 2. destruct (claims c ns) as [pvc|]; [|done].
  rewrite read_provisioner. destruct (provisioner_of pvc) as [p|].
  - case_decide as Hp; [by rewrite bool_decide_true by congruence|].
    rewrite bool_decide_false by congruence. simpl. by rewrite IH.
  - rewrite bool_decide_false by done. simpl. by rewrite IH.
Qed.

(** The pods drained before a node is decommissioned are those with a claim of the
    storage provisioner among the pods up to the first one that has a claim that
    cannot be read: from there on no pod is drained and no error is reported.
    The provisioner passed by the caller plays no role. *)
Theorem getPodsUsingStorage_spec pods provisioner w :
  ∃ seen rest, pods = seen ++ rest ∧
    getPodsUsingStorage volumes pods provisioner w = (Ok (keep uses_storage seen), w) ∧
    Forall (λ p, blocked (pod_Namespace p) (pod_Volumes p) = false) seen ∧
    match rest with
    | [] => True
    | p :: _ => blocked (pod_Namespace p) (pod_Volumes p) = true
    end.
Proof using read_claim read_provisioner.
  induction pods as [|pod pods IH]; [by exists [], []|].
  simpl. unfold mbind, M_bind. rewrite pod_uses_storage_eq.
  destruct (blocked (pod_Namespace pod) (pod_Volumes pod)) eqn:Eb.
  - exists [], (pod :: pods). by split_and!.
  - destruct IH as (seen & rest & -> & Hg & Hs & Hr). exists (pod :: seen), rest.
    split_and!; [done| |by constructor|done]. simpl.
    change (existsb _ (pod_Volumes pod)) with (uses_storage pod).
    destruct (uses_storage pod); unfold mbind, M_bind; by rewrite Hg.
Qed.

End drain_theorems.
