(* ===== verification/K8sHelm.v ===== *)
(** drivers/scheduler/k8s/helm.go: Helm charts - their parameters from a config map,
    the repositories, and installing, upgrading and uninstalling a release.

    The specs of an application are pointers the factory shares between all the
    applications it hands out: [SchedState] holds the memory they point to, the
    map of the factory, and whether the package variable [settings] was set.  The
    Helm library is the class [HelmLib]. *)

From S2P Require Import Prelude GoStrings Errors Effects Task NodeRegistry AutopilotRules SpecFactory PxDriver K8sObjects VolumeDrivers K8sSpecs K8sNodes.

(** ** State *)

Record SchedState := {
  specs : gmap nat Object;
  appSpecFactory : gmap string (AppSpec nat);
  helm_settings : bool;
}.

Class SchedWorld (W : Type) `{K8sWorld W} := {
  sched : W → SchedState;
  set_sched : SchedState → W → W;
}.

Section store.
Context {W : Type} `{SchedWorld W}.

Definition set_specs (m : gmap nat Object) (w : W) : W :=
  set_sched {| specs := m; appSpecFactory := appSpecFactory (sched w); helm_settings := helm_settings (sched w) |} w.

(** Reading and writing through a pointer to a spec *)
Definition read_spec (p : nat) : M W Object := λ w, (deref (specs (sched w) !! p), w).

Definition write_spec (p : nat) (o : Object) : M W unit := λ w, (Ok tt, set_specs (<[p := o]> (specs (sched w))) w).

(** [settings = cli.New()], and reading through [settings] *)
Definition new_settings : M W unit := λ w,
  (Ok tt, set_sched {| specs := specs (sched w); appSpecFactory := appSpecFactory (sched w); helm_settings := true |} w).

Definition need_settings : M W unit := λ w,
  (if helm_settings (sched w) then Ok tt
   else Panic "invalid memory address or nil pointer dereference", w).
End store.

(** ** The Helm library *)

(** A chart: its type and whether it lists dependencies *)
Record Chart := { chart_Type : string; chart_has_Dependencies : bool }.

Class HelmLib (W : Type) := {
  os_MkdirAll : M W unit;
  os_IsExist : error → bool;
  os_IsNotExist : error → bool;
  TryLock : M W bool;
  Unlock : M W unit;
  read_repositories : M W string;
  unmarshal_repositories : string → outcome (list (string * string));
  write_repositories : list (string * string) → M W unit;
  repo_LoadFile : M W (list (string * string) * option error);
  NewChartRepository : string * string → M W unit;
  DownloadIndexFile : string * string → M W unit;
  action_Init : string → M W unit;
  LocateChart : string → M W string;
  MergeValues : outcome (gmap string string);
  strvals_ParseInto : string → gmap string string → outcome (gmap string string);
  loader_Load : string → M W Chart;
  CheckDependencies : Chart → outcome unit;
  install_Run : string → string → Chart → gmap string string → M W string;
  upgrade_Run : string → string → Chart → gmap string string → M W string;
  getvalues_Run : string → M W (gmap string string);
  uninstall_Run : string → Z → M W string;
}.

Definition HelmInstallURL : string := "install-url".
Definition HelmUpgradeURL : string := "upgrade-url".
Definition HelmValues : string := "values".
Definition HelmExtraValues : string := "extra-values".
Definition HelmChartName : string := "chart-name".
Definition HelmRepoName : string := "repo-name".
Definition deleteTasksWaitTimeout : Z := 5 * Minute.

Section helm.
Context {W : Type} `{SchedWorld W} `{K8sClient W} `{SpecFiles} `{HelmLib W}.

(** ** Parameters *)

(** What [SetHelmParams] does with the data of the config map: the fields are written
    one by one, those before a missing key as well *)
Definition helm_params (appKey : string) (data : gmap string string) (upgrade : bool) (h : HelmRepo)
    : outcome unit * HelmRepo :=
  let urlKey := if upgrade then HelmUpgradeURL else HelmInstallURL in
  let h1 := {| RepoName := if upgrade then default (RepoName h) (data !! HelmRepoName) else RepoName h;
               ChartName := if upgrade then default (ChartName h) (data !! HelmChartName) else ChartName h;
               ReleaseName := ReleaseName h; URL := URL h; Values := Values h |} in
  match data !! urlKey with
  | None => (Err (Errorf ("helm repo url '" +:+ urlKey +:+ "' not provided in the configmap " +:+ appKey)), h1)
  | Some url =>
      let h2 := {| RepoName := RepoName h1; ChartName := ChartName h1; ReleaseName := ReleaseName h1; URL := url;
                   Values := Values h1 |} in
      match data !! HelmValues with
      | None => (Err (Errorf ("helm install custom values not provided in the configmap " +:+ appKey)), h2)
      | Some values =>
          let extra := default "" (data !! HelmExtraValues) in
          (Ok tt, {| RepoName := RepoName h2; ChartName := ChartName h2; ReleaseName := ReleaseName h2; URL := URL h2;
                     Values := if decide (extra = "") then values else values +:+ "," +:+ extra |})
      end
  end.

Definition SetHelmParams (appKey : string) (p : nat) (options : ScheduleOptions) : M W unit :=
  configMap ← wrap_err (λ err, Errorf ("failed to get config map: " +:+ Error err))
                (get_object KConfigMap appKey "default");
  o ← read_spec p;
  let '(r, h) := helm_params appKey (Data configMap) (Upgrade options) (helm (Spec o)) in
  _ ← write_spec p (set_helm h o);
  lift r.

(** ** Repositories *)

(** The body runs to its end whatever it returns, and the lock is released after it
    when it was acquired. *)
Definition with_lock {A} (locked : bool) (m : M W A) : M W A := λ w,
  let '(r, w1) := m w in
  match r with
  | Panic s => (Panic s, w1)
  | _ => if locked then (r, (Unlock w1).2) else (r, w1)
  end.

Definition RepoAdd (repoInfo : HelmRepo) : M W unit :=
  _ ← need_settings;
  _ ← attempt os_MkdirAll (λ r,
        match r with
        | inr err => if os_IsExist err then mret tt else throw err
        | inl _ => mret tt
        end);
  locked ← TryLock;
  with_lock locked (
    b ← attempt read_repositories (λ r,
          match r with
          | inr err => if os_IsNotExist err then mret "" else throw err
          | inl s => mret s
          end);
    f ← lift (unmarshal_repositories b);
    if decide (RepoName repoInfo ∈ f.*1) then mret tt
    else
      let c := (RepoName repoInfo, URL repoInfo) in
      _ ← NewChartRepository c;
      _ ← wrap_err (λ err, Errorf ("looks like " +:+ quoted (URL repoInfo) +:+
              " is not a valid chart repository or cannot be reached: " +:+ Error err))
            (DownloadIndexFile c);
      write_repositories (f ++ [c])).

(** [RepoUpdate]: one goroutine per repository downloads its index and only logs an
    error; the downloads are listed here in the order the goroutines are started *)
Definition RepoUpdate : M W unit :=
  _ ← need_settings;
  '(repos, err) ← repo_LoadFile;
  if decide (default false (os_IsNotExist <$> err) = true ∨ repos = []) then
    throw (Errorf ("No repositories found, need to add one before updating, err: " +:+
                   match err with Some e => Error e | None => "<nil>" end))
  else
    _ ← for_each NewChartRepository repos;
    for_each (λ re, attempt (DownloadIndexFile re) (λ _, mret tt)) repos.

(** ** Releases *)

Definition isChartInstallable (ch : Chart) : bool * option error :=
  if decide (chart_Type ch = "" ∨ chart_Type ch = "application") then (true, None)
  else (false, Some (Errorf (chart_Type ch +:+ " charts are not installable"))).

(** The values of the [--set] option *)
Definition parsed_values (repoInfo : HelmRepo) : outcome (gmap string string) :=
  vals ← MergeValues;
  match strvals_ParseInto (Values repoInfo) vals with
  | Err e => Err (Errorf ("failed parsing --set data: " +:+ Error e))
  | o => o
  end.

(** [if !validInstallableChart { return err }] *)
Definition check_installable (ch : Chart) : M W unit :=
  let '(valid, err) := isChartInstallable ch in
  if (valid : bool) then mret tt else match err with Some e => throw e | None => mret tt end.

(** A new install has [DependencyUpdate] false. *)
Definition InstallChart (ns : string) (repoInfo : HelmRepo) : M W string :=
  _ ← need_settings;
  _ ← action_Init ns;
  cp ← LocateChart (RepoName repoInfo +:+ "/" +:+ ChartName repoInfo);
  vals ← lift (parsed_values repoInfo);
  chartRequested ← loader_Load cp;
  _ ← check_installable chartRequested;
  _ ← (if chart_has_Dependencies chartRequested then lift (CheckDependencies chartRequested) else mret tt);
  install_Run (ReleaseName repoInfo) ns chartRequested vals.

Definition GetChartValues (ns : string) (repoInfo : HelmRepo) : M W (gmap string string) :=
  _ ← need_settings;
  _ ← action_Init ns;
  getvalues_Run (ReleaseName repoInfo).

(** The existing values win over those of the config map. *)
Definition UpgradeChart (ns : string) (repoInfo : HelmRepo) : M W string :=
  _ ← need_settings;
  _ ← action_Init ns;
  cp ← LocateChart (RepoName repoInfo +:+ "/" +:+ ChartName repoInfo);
  vals ← lift (parsed_values repoInfo);
  existVals ← wrap_err (λ err, Errorf ("failed getting existing values --set data: " +:+ Error err))
                (GetChartValues ns repoInfo);
  chartRequested ← loader_Load cp;
  _ ← check_installable chartRequested;
  upgrade_Run (ReleaseName repoInfo) ns chartRequested (existVals ∪ vals).

(** [UnInstallHelmChart]: the objects of the release, parsed from its manifest *)
Definition UnInstallHelmChart (ns : string) (repoInfo : HelmRepo) : M W (list Object) :=
  _ ← need_settings;
  _ ← action_Init ns;
  manifest ← uninstall_Run (ReleaseName repoInfo) deleteTasksWaitTimeout;
  lift (ParseSpecsFromYamlBuf manifest).

End helm.
