(* ===== verification/K8sCreate.v ===== *)
(** drivers/scheduler/k8s/k8s.go: creating the objects of an application -
    [createMigrationObjects], [createStorageObject] and the other functions
    [CreateSpecObjects] runs over the specs of an application, one pass after the
    other, and [Schedule], [AddTasks] and [ScheduleUninstall] on top of it.

    The specs are pointers: the functions write the namespace and other fields into
    the objects the factory keeps, and send copies to the cluster.  A nil pointer
    of a type in the answer is the zero object of the type. *)

From Stdlib Require Import Ascii.
From S2P Require Import Prelude GoStrings Errors Effects Strconv Task NodeRegistry AutopilotRules SpecFactory PxDriver K8sObjects VolumeDrivers K8sSpecs K8sNodes K8sHelm.

(** ** Interfaces *)

(** An autopilot rule as it is sent to the cluster *)
Record RuleObject := {
  rule : AutopilotRule;
  rule_Labels : gmap string string;
  rule_NamespaceSelector : gmap string string;
}.

(** The calls that only creating needs: registering a custom resource definition,
    rules, the vault client, [kubectl], [os.Stat] with [ErrNotExist], quantities,
    the docker configuration of a registry, Go's order of a label map, and [%v] of
    an object. *)
Class K8sCreateApi (W : Type) := {
  RegisterCRD : Object → M W unit;
  api_CreateAutopilotRule : RuleObject → M W (option RuleObject * option error);
  api_GetAutopilotRule : string → M W RuleObject;
  vault_NewClient : M W unit;
  vault_SetAddress : string → M W unit;
  vault_Write : string → string → gmap string string → M W unit;
  Kubectl : list string → M W unit;
  Stat_missing : string → M W bool;
  ParseQuantity : string → outcome Z;
  docker_config : string → string → string → string;
  range_labels : gmap string string → list (string * string);
  show_object : Object → string;
}.

Definition PortworxStrict : string := "strict".
Definition StorkSnapshot : string := "stork-snapshot".
Definition CsiProvisioner : string := "pxd.portworx.com".
Definition CSIStorageProvisioner : string := "csi".
Definition NodeType : string := "node-type".
Definition FastpathNodeType : string := "fastpath".
Definition SecretVault : string := "vault".
Definition autopilotEnabledAnnotationKey : string := "torpedo.io/autopilot-enabled".
Definition pvcLabelsAnnotationKey : string := "torpedo.io/pvclabels-enabled".
Definition pvcNodesAnnotationKey : string := "torpedo.io/pvcnodes-enabled".
Definition cdiPvcRunningMessageAnnotationKey : string := "cdi.kubevirt.io/storage.condition.running.message".
Definition cdiPvcImportEndpointAnnotationKey : string := "cdi.kubevirt.io/storage.import.endpoint".
Definition cdiImportComplete : string := "Import Complete".
Definition cdiImageImportTimeout : Z := 20 * Minute.
Definition cdiImageImportRetry : Z := 30 * Second.
Definition secretNameKey : string := "secret_name".
Definition secretNamespaceKey : string := "secret_namespace".
Definition encryptionKey : string := "encryption".
Definition encryptionName : string := "secure".
Definition secretName : string := "openstorage.io/auth-secret-name".
Definition secretNamespace : string := "openstorage.io/auth-secret-namespace".
Definition CsiProvisionerSecretName : string := "csi.storage.k8s.io/provisioner-secret-name".
Definition CsiProvisionerSecretNamespace : string := "csi.storage.k8s.io/provisioner-secret-namespace".
Definition CsiNodePublishSecretName : string := "csi.storage.k8s.io/node-publish-secret-name".
Definition CsiNodePublishSecretNamespace : string := "csi.storage.k8s.io/node-publish-secret-namespace".
Definition CsiControllerExpandSecretName : string := "csi.storage.k8s.io/controller-expand-secret-name".
Definition CsiControllerExpandSecretNamespace : string := "csi.storage.k8s.io/controller-expand-secret-namespace".

(** ** Namespaces in specs *)

(** [namespaceRegex.ReplaceAllString(s, ns)]: the pattern is a literal, and the name
    of a namespace has no [$] *)
Definition in_namespace (ns s : string) : string := ReplaceAll s "_NAMESPACE_" ns.

Definition substituteNamespaceInPVC (ns : string) (pvc : Object) : Object :=
  set_Annotations (in_namespace ns <$> Annotations pvc) (set_Name (in_namespace ns (obj_Name pvc)) pvc).

Definition substituteNamespaceInContainers (ns : string) (containers : list Container) : list Container :=
  (λ c, {| Image := Image c; Args := in_namespace ns <$> Args c |}) <$> containers.

Definition substituteNamespaceInVolumes (ns : string) (vols : list (option string)) : list (option string) :=
  option_map (in_namespace ns) <$> vols.

Definition addLabelsToPVC (labels : gmap string string) (pvc : Object) : Object :=
  set_Labels (Some (labels ∪ default ∅ (Labels pvc))) pvc.

Definition addAnnotationsToPVC (annotations : gmap string string) (pvc : Object) : Object :=
  set_Annotations (annotations ∪ Annotations pvc) pvc.

(** ** Security annotations *)

Definition isSecureEnabled (appName : string) (apps : list string) : bool :=
  match find_first (λ name, bool_decide (name = appName)) apps with Some _ => true | None => false end.

(** [m[key] = v] for the keys of the list, in order *)
Definition set_keys (keys : list string) (v : string) (m : gmap string string) : gmap string string :=
  foldl (λ m k, <[k := v]> m) m keys.

Definition csi_name_keys : list string :=
  [CsiProvisionerSecretName; CsiNodePublishSecretName; CsiControllerExpandSecretName].
Definition csi_namespace_keys : list string :=
  [CsiProvisionerSecretNamespace; CsiNodePublishSecretNamespace; CsiControllerExpandSecretNamespace].

(** The closure [setSecureParams] on the parameters of a storage class *)
Definition setSecureParams (storageProvisioner : string) (data : gmap string string) (isCSI : bool)
    (params : gmap string string) : gmap string string :=
  let name := default "" (data !! secretNameKey) in
  let ns := default "" (data !! secretNamespaceKey) in
  let has k := bool_decide (is_Some (data !! k)) in
  let p1 := if has encryptionKey then <[encryptionName := "true"]> params else params in
  let p2 := if isCSI then set_keys csi_namespace_keys ns (set_keys csi_name_keys name p1) else p1 in
  if Contains storageProvisioner "pxd" then
    let p3 := if has secretNameKey then set_keys csi_name_keys name p2 else p2 in
    if has secretNamespaceKey then set_keys csi_namespace_keys ns p3 else p3
  else
    let p3 := if has secretNameKey then <[secretName := name]> p2 else p2 in
    if has secretNamespaceKey then <[secretNamespace := ns]> p3 else p3.

(** The two annotations of every other type *)
Definition secret_annotations (data : gmap string string) (a : gmap string string) : gmap string string :=
  let a1 := match data !! secretNameKey with Some v => <[secretName := v]> a | None => a end in
  match data !! secretNamespaceKey with Some v => <[secretNamespace := v]> a1 | None => a1 end.

Definition set_Parameters (p : option (gmap string string)) (s : StorageClassSpec) : StorageClassSpec :=
  {| Provisioner := Provisioner s; Parameters := p; VolumeBindingMode := VolumeBindingMode s |}.

Definition addSecurityAnnotation {O} (cfg : K8sConfig) (storageProvisioner : string) (configMap : Object)
    (app : AppSpec O) (o : Object) : Object :=
  let data := Data configMap in
  match obj_kind o with
  | KStorageClass =>
      if decide (secretConfigMapName cfg = "") then o else
      let params := default ∅ (Parameters (sc (Spec o))) in
      let secured := setSecureParams storageProvisioner data (IsCSI app) params in
      let params' :=
        if isSecureEnabled (Key app) (secureApps cfg) || bool_decide (secureApps cfg = []) then secured else params in
      set_sc (set_Parameters (Some params') (sc (Spec o))) o
  | KPersistentVolumeClaim =>
      if IsCSI app then o else set_Annotations (secret_annotations data (Annotations o)) o
  | KStatefulSet =>
      set_VolumeClaimTemplates
        ((λ t, {| ct_Name := ct_Name t; ct_Annotations := secret_annotations data (ct_Annotations t) |}) <$>
           VolumeClaimTemplates (Spec o)) o
  | KVolumeSnapshot | KApplicationBackup | KApplicationClone | KApplicationRestore | KMigration
  | KMigrationSchedule | KVolumeSnapshotRestore | KGroupVolumeSnapshot | KClusterPair =>
      set_Annotations (secret_annotations data (Annotations o)) o
  | _ => o
  end.

Section create.
Context {W : Type} `{SchedWorld W} `{K8sClient W} `{SpecFiles} `{HelmLib W} `{K8sCreateApi W}.
Context `{K8sNodeApi W} `{NodeDriver W} `{K8sCore W}.
Context (volumes : VolumePackage).

(** ** Shared steps *)

(** Assigning to fields of a spec; the object after the assignment *)
Definition update_spec (p : nat) (f : Object → Object) : M W Object :=
  o ← read_spec p;
  let o' := f o in
  _ ← write_spec p o'; mret o'.

Definition schedule_failed {O} (app : AppSpec O) (msg : string) (err : error) : error :=
  AppErr AppErrFailedToScheduleApp (Key app) (msg +:+ Error err).

Definition with_kind (kind : option string) (o : Object) : Object :=
  match kind with Some s => set_Kind s o | None => o end.

(** Create the object, or get the one that exists already.  [report] chooses between
    the error of the create and that of the get: most callers assign the second to
    the variable of the first, some declare a new one. *)
Definition create_or_get (o : Object) (ns : string) (kind : option string)
    (report : error → error → error) (failed : error → error) : M W (option Object) :=
  attempt (create_object o) (λ r,
    match r with
    | inl x => mret (Some (with_kind kind x))
    | inr err =>
        if IsAlreadyExists err then
          attempt (get_object (obj_kind o) (obj_Name o) ns) (λ r',
            match r' with
            | inl x => mret (Some (with_kind kind x))
            | inr err' => throw (failed (report err err'))
            end)
        else throw (failed err)
    end).

Definition got_error (created got : error) : error := got.
Definition created_error (created got : error) : error := created.

(** Most types: move the spec to the namespace, create it or get it there *)
Definition create_in (p : nat) (nsName : string) {O} (app : AppSpec O) (what : string) (kind : option string)
    : M W (option Object) :=
  o ← update_spec p (set_Namespace nsName);
  create_or_get o (obj_Namespace o) kind got_error
    (schedule_failed app ("Failed to create " +:+ what +:+ ": " +:+ obj_Name o +:+ ". Err: ")).

(** The same without looking for one that exists *)
Definition create_new (p : nat) (nsName : string) {O} (app : AppSpec O) (what : string) : M W (option Object) :=
  o ← update_spec p (set_Namespace nsName);
  x ← wrap_err (schedule_failed app ("Failed to create " +:+ what +:+ ": " +:+ obj_Name o +:+ ". Err: "))
        (create_object o);
  mret (Some x).

(** The annotations that are added first when a secret is configured.
    [addSecurityAnnotation] never returns an error. *)
Definition secure_spec {O} (p : nat) (app : AppSpec O) : M W unit :=
  k ← get_k8s;
  let configMapName := secretConfigMapName (config k) in
  if decide (configMapName = "") then mret tt else
  configMap ← wrap_err (λ err, SchedErr (ErrFailedToGetConfigMap configMapName)
                  ("Failed to get config map: Err: " +:+ Error err))
                (get_object KConfigMap configMapName "default");
  _ ← update_spec p (addSecurityAnnotation (config k) (GetStorageProvisioner volumes) configMap app);
  mret tt.

(** ** Migration, definitions and restores *)

Definition createMigrationObjects {O} (p : nat) (ns : Object) (app : AppSpec O) : M W (option Object) :=
  _ ← secure_spec p app;
  o ← read_spec p;
  match obj_kind o with
  | KClusterPair => create_new p (obj_Name ns) app "ClusterPair"
  | KMigration => create_new p (obj_Name ns) app "Migration"
  | KMigrationSchedule => create_new p (obj_Name ns) app "MigrationSchedule"
  | KSchedulePolicy =>
      create_or_get o "" None got_error
        (schedule_failed app ("Failed to create SchedulePolicy: " +:+ obj_Name o +:+ ". Err: "))
  | KResourceTransformation =>
      o' ← update_spec p (set_Namespace (obj_Name ns));
      x ← wrap_err (schedule_failed app ("Failed to create ResourceTransformation: " +:+ obj_Name o' +:+ "/" +:+
              obj_Namespace o' +:+ ". Obj: " +:+ show_object o' +:+ ", Err: ")) (create_object o');
      mret (Some x)
  | _ => mret None
  end.

(** A definition is registered and then read back. *)
Definition register_crd {O} (p : nat) (ns : Object) (app : AppSpec O) (what : string) : M W (option Object) :=
  o ← update_spec p (set_Namespace (obj_Name ns));
  attempt (RegisterCRD o) (λ r,
    match r with
    | inl _ =>
        crd ← wrap_err (schedule_failed app ("Failed to Get " +:+ what +:+ " after Registration: " +:+ obj_Name o +:+ ". Err: "))
                (get_object (obj_kind o) (obj_Name o) "");
        mret (Some crd)
    | inr err =>
        let failed := schedule_failed app ("Failed to Register " +:+ what +:+ ": " +:+ obj_Name o +:+ ". Err: ") err in
        if IsAlreadyExists err then
          attempt (get_object (obj_kind o) (obj_Name o) "") (λ r',
            match r' with
            | inl crd => mret (Some crd)
            | inr _ => throw failed
            end)
        else throw failed
    end).

Definition createCRDObjects {O} (p : nat) (ns : Object) (app : AppSpec O) : M W (option Object) :=
  o ← read_spec p;
  match obj_kind o with
  | KCRDv1 => register_crd p ns app "CRD"
  | KCRDv1beta1 => register_crd p ns app "CRDV1beta1"
  | _ => mret None
  end.

Definition createVolumeSnapshotRestore {O} (p : nat) (ns : Object) (app : AppSpec O) : M W (option Object) :=
  _ ← secure_spec p app;
  o ← read_spec p;
  match obj_kind o with
  | KVolumeSnapshotRestore => create_new p (obj_Name ns) app "VolumeSnapshotRestore"
  | _ => mret None
  end.

(** ** Storage *)

(** The placement strategies of two application names: a missing file and a failing
    [kubectl] are only logged *)
Definition apply_vps (vpsSpec : string) : M W unit :=
  missing ← Stat_missing vpsSpec;
  if (missing : bool) then mret tt
  else attempt (Kubectl ["apply"; "-f"; vpsSpec]) (λ _, mret tt).

Definition apply_strategies (appKey : string) : M W unit :=
  _ ← (if Contains appKey "fastpath" then apply_vps "/torpedo/deployments/customconfigs/fastpath-vps.yaml" else mret tt);
  if Contains appKey "repl-vps" then apply_vps "/torpedo/deployments/customconfigs/repl-vps.yaml" else mret tt.

(** The provisioner a storage class gets *)
Definition class_provisioner {O} (options : ScheduleOptions) (app : AppSpec O) (current : string) : string :=
  if decide (current = StorkSnapshot) then current
  else if decide (GetStorageProvisioner volumes = PortworxStrict) then current
  else if decide (StorageProvisioner_ options = DefaultStorageProvisioner ∨
                  StorageProvisioner_ options = CSIStorageProvisioner) then
    if IsCSI app then CsiProvisioner else GetStorageProvisioner volumes
  else current.

(** The name of the FlashArray pod in the parameters of a [pure_block] class *)
Definition set_fa_pod (pod : string) (params : option (gmap string string)) : option (gmap string string) :=
  if decide (pod = "") then params else
  match params with
  | Some m => if decide (m !! "backend" = Some "pure_block") then Some (<["pure_fa_pod_name" := pod]> m) else params
  | None => None
  end.

(** The parameters and the binding mode with Pure volumes *)
Definition pure_class (cfg : K8sConfig) (options : ScheduleOptions) (s : StorageClassSpec) : StorageClassSpec :=
  let params1 := if decide (PureSANType cfg = "NVMEOF-RDMA")
                 then delete "max_bandwidth" ∘ delete "max_iops" <$> Parameters s else Parameters s in
  {| Provisioner := Provisioner s;
     Parameters := set_fa_pod (PureFAPodName options) (set_fa_pod (PureFADAPod cfg) params1);
     VolumeBindingMode := if RunCSISnapshotAndRestoreManyTest cfg then Some "Immediate" else VolumeBindingMode s |}.

Definition class_spec {O} (k : K8sState) (options : ScheduleOptions) (app : AppSpec O) (s : StorageClassSpec)
    : StorageClassSpec :=
  let s1 := {| Provisioner := class_provisioner options app (Provisioner s); Parameters := Parameters s;
               VolumeBindingMode := VolumeBindingMode s |} in
  if PureVolumes k then pure_class (config k) options s1 else s1.

Definition create_storage_class {O} (p : nat) (ns : Object) (app : AppSpec O) (options : ScheduleOptions)
    : M W (option Object) :=
  k ← get_k8s;
  o ← update_spec p (λ o, set_sc (class_spec k options app (sc (Spec o))) (set_Namespace (obj_Name ns) o));
  create_or_get o "" (Some "StorageClass") got_error
    (schedule_failed app ("Failed to create storage class: " +:+ obj_Name o +:+ ". Err: ")).

(** An annotation that [strconv.ParseBool] reads as true *)
Definition flag_set (key : string) (annotations : gmap string string) : bool :=
  match annotations !! key with Some v => ParseBool v | None => false end.

Definition is_cloned (o : Object) : bool := bool_decide (Annotations o !! "pvc.source" = Some "cloned").

(** What [createStorageObject] writes into a claim *)
Definition prepare_claim (nsName : string) (options : ScheduleOptions) (o : Object) : Object :=
  let o1 := if is_cloned o then o else substituteNamespaceInPVC nsName (set_Namespace nsName o) in
  let o2 := if flag_set pvcLabelsAnnotationKey (Annotations o1) && negb (bool_decide (opt_Labels options = ∅))
            then addLabelsToPVC (opt_Labels options) o1 else o1 in
  if flag_set pvcNodesAnnotationKey (Annotations o2) && negb (bool_decide (PvcNodesAnnotation options = []))
  then addAnnotationsToPVC {["nodes" := Join (PvcNodesAnnotation options) ","]} o2 else o2.

(** The copy that is sent: its size may be replaced; assigning to a map of requests
    that is nil is a panic *)
Definition sized_claim {O} (app : AppSpec O) (options : ScheduleOptions) (o : Object) : outcome Object :=
  if decide (0 < PvcSize options ∧ flag_set autopilotEnabledAnnotationKey (Annotations o) = true) then
    match ParseQuantity (Itoa (PvcSize options)) with
    | Ok q => if Requests_set (claim_spec (Spec o)) then Ok (set_StorageRequest q o)
              else Panic "assignment to entry in nil map"
    | Err parseErr => Err (schedule_failed app ("Failed to create PVC: " +:+ obj_Name o +:+ ". Err: ") parseErr)
    | Panic s => Panic s
    | Diverge => Diverge
    end
  else Ok o.

(** Waiting for the import of a cloned claim; the claim is read whether or not the
    get returned an error *)
Definition import_task (name ns : string) : M W (task_result Object) :=
  '(pvc, _) ← client_Get KPersistentVolumeClaim name ns;
  o ← lift (deref pvc);
  match Annotations o !! cdiPvcRunningMessageAnnotationKey with
  | Some message =>
      if decide (message = cdiImportComplete) then mret (Done o)
      else mret (Retry (Errorf ("waiting for annotation [" +:+ cdiPvcRunningMessageAnnotationKey +:+ "] in pvc [" +:+
             name +:+ "] in namespace [" +:+ ns +:+ "] to be " +:+ cdiImportComplete +:+ ", but got " +:+ message)))
  | None => mret (Retry (Errorf ("annotation [" +:+ cdiPvcRunningMessageAnnotationKey +:+ "] not found in pvc [" +:+
             name +:+ "] in namespace [" +:+ ns +:+ "]")))
  end.

Definition import_endpoint (o : Object) : bool :=
  match Annotations o !! cdiPvcImportEndpointAnnotationKey with
  | Some endpoint => negb (bool_decide (endpoint = ""))
  | None => false
  end.

(** [CreateAutopilotRule]: the labels are the package's; a rule that exists is
    answered with the pointer of the failed create *)
Definition autopilot_rule_task (r : RuleObject) : M W (task_result (option RuleObject)) :=
  labels ← get_torpedo_labels;
  let apRule := {| rule := rule r; rule_Labels := labels; rule_NamespaceSelector := rule_NamespaceSelector r |} in
  '(aRule, err) ← api_CreateAutopilotRule apRule;
  match err with
  | None => mret (Done aRule)
  | Some e =>
      let failed : task_result (option RuleObject) :=
        Retry (Errorf ("failed to create autopilot rule: " +:+ Rule_Name (rule apRule) +:+ ". Err: " +:+ Error e)) in
      if IsAlreadyExists e then
        attempt (api_GetAutopilotRule (Rule_Name (rule apRule))) (λ g,
          match g with
          | inl _ => mret (Done aRule)
          | inr _ => mret failed
          end)
      else mret failed
  end.

Definition CreateAutopilotRule (apRule : RuleObject) : M W (option RuleObject) :=
  DoRetryWithTimeout (autopilot_rule_task apRule) k8sObjectCreateTimeout DefaultRetryInterval.

(** The rule of the options, for the labels of the options *)
Definition create_rule_for (options : ScheduleOptions) (pvc : Object) : M W unit :=
  if flag_set autopilotEnabledAnnotationKey (Annotations pvc) && negb (bool_decide (Rule_Name (opt_AutopilotRule options) = ""))
  then
    let r := opt_AutopilotRule options in
    _ ← CreateAutopilotRule
          {| rule := {| Rule_Name := Rule_Name r; MatchLabels := opt_Labels options; Expressions := Expressions r;
                        Actions := Actions r; Enforcement := Enforcement r;
                        ActionsCoolDownPeriod := ActionsCoolDownPeriod r |};
             rule_Labels := ∅; rule_NamespaceSelector := opt_Labels options |};
    mret tt
  else mret tt.

(** After the create: a cloned claim waits for its import, whatever the create
    returned, and an import that completes hides the error of the create. *)
Definition claim_created {O} (app : AppSpec O) (options : ScheduleOptions) (o sent : Object)
    (answer : option Object * option error) : M W (option Object) :=
  let '(pvc, err) := answer in
  '(pvc', err') ←
    (if is_cloned o then
       c ← lift (deref pvc);
       if import_endpoint c then
         c' ← DoRetryWithTimeout (import_task (obj_Name o) (obj_Namespace o)) cdiImageImportTimeout cdiImageImportRetry;
         mret (Some c', None)
       else mret (pvc, err)
     else mret (pvc, err));
  match err' with
  | Some e => throw (schedule_failed app ("Failed to create PVC: " +:+ obj_Name sent +:+ ". Err: ") e)
  | None =>
      c ← lift (deref pvc');
      let claim := set_Kind "PersistentVolumeClaim" c in
      _ ← create_rule_for options claim;
      mret (Some claim)
  end.

Definition create_claim {O} (p : nat) (ns : Object) (app : AppSpec O) (options : ScheduleOptions)
    : M W (option Object) :=
  o ← update_spec p (prepare_claim (obj_Name ns) options);
  sent ← lift (sized_claim app options o);
  '(pvc, err) ← client_Create sent;
  match err with
  | Some e =>
      if IsAlreadyExists e then
        '(pvc', err') ← client_Get KPersistentVolumeClaim (obj_Name sent) (obj_Namespace sent);
        match err' with
        | None => c ← lift (deref pvc'); mret (Some (set_Kind "PersistentVolumeClaim" c))
        | Some _ => claim_created app options o sent (pvc', err')
        end
      else claim_created app options o sent (pvc, err)
  | None => claim_created app options o sent (pvc, err)
  end.

(** The claim a persistent volume is bound to moves to the namespace; writing through
    a nil pointer is a panic. *)
Definition create_volume {O} (p : nat) (ns : Object) (app : AppSpec O) : M W (option Object) :=
  o ← read_spec p;
  _ ← lift (deref (ClaimRef (Spec o)));
  let o' := set_ClaimRef (Some (obj_Name ns)) o in
  _ ← write_spec p o';
  create_or_get o' "" None got_error
    (schedule_failed app ("Failed to create PersistentVolume: " +:+ obj_Name o' +:+ ". Err: ")).

Definition createStorageObject {O} (p : nat) (ns : Object) (app : AppSpec O) (options : ScheduleOptions)
    : M W (option Object) :=
  _ ← secure_spec p app;
  _ ← apply_strategies (Key app);
  o ← read_spec p;
  match obj_kind o with
  | KStorageClass => create_storage_class p ns app options
  | KPersistentVolumeClaim => create_claim p ns app options
  | KVolumeSnapshot => create_in p (obj_Name ns) app "Snapshot" (Some "VolumeSnapshot")
  | KGroupVolumeSnapshot => create_in p (obj_Name ns) app "group snapshot" None
  | KPersistentVolume => create_volume p ns app
  | _ => mret None
  end.

(** ** Workloads, services and configuration *)

(** [createDockerRegistrySecret]: no secret unless the three variables are set *)
Definition createDockerRegistrySecret (name ns : string) : M W (option Object) :=
  let dockerServer := Getenv "IMAGE_PULL_SERVER" in
  let dockerUsername := Getenv "IMAGE_PULL_USERNAME" in
  let dockerPassword := Getenv "IMAGE_PULL_PASSWORD" in
  if decide (dockerServer = "" ∨ dockerUsername = "" ∨ dockerPassword = "") then mret None else
  let secretObj :=
    {| obj_kind := KSecret; TypeMeta_Kind := ""; obj_Name := name; obj_Namespace := ns; obj_UID := ""; Labels := None;
       Annotations := ∅; Replicas := None; Affinity := None; PodVolumes := []; ContainerEnv := []; AccessModes := [];
       VolumeName := ""; StorageRequest := 0;
       Data := {[".dockerconfigjson" := docker_config dockerServer dockerUsername dockerPassword]};
       Status_text := ""; Spec := no_spec |} in
  create_or_get secretObj ns None got_error
    (λ err, Errorf ("failed to create Docker registry secret: " +:+ name +:+ " in namespace: " +:+ ns +:+
                    " . Err: " +:+ Error err)).

Definition set_pod_template (f : PodTemplate → PodTemplate) (o : Object) : Object :=
  set_template (f (template (Spec o))) o.

Definition set_scheduler (options : ScheduleOptions) (t : PodTemplate) : PodTemplate :=
  {| SchedulerName := if decide (Scheduler options = "") then SchedulerName t else Scheduler options;
     ImagePullSecrets := ImagePullSecrets t; NodeSelector := NodeSelector t; InitContainers := InitContainers t;
     Containers := Containers t |}.

Definition set_args (ns : string) (t : PodTemplate) : PodTemplate :=
  {| SchedulerName := SchedulerName t; ImagePullSecrets := ImagePullSecrets t; NodeSelector := NodeSelector t;
     InitContainers := InitContainers t; Containers := substituteNamespaceInContainers ns (Containers t) |}.

Definition set_pull_secret (secret : option Object) (t : PodTemplate) : PodTemplate :=
  {| SchedulerName := SchedulerName t;
     ImagePullSecrets := match secret with Some s => [obj_Name s] | None => ImagePullSecrets t end;
     NodeSelector := NodeSelector t; InitContainers := InitContainers t; Containers := Containers t |}.

Definition set_node_selector (options : ScheduleOptions) (t : PodTemplate) : PodTemplate :=
  {| SchedulerName := SchedulerName t; ImagePullSecrets := ImagePullSecrets t;
     NodeSelector := if decide (opt_Nodes options ≠ [] ∧ opt_Labels options ≠ ∅) then opt_Labels options
                     else NodeSelector t;
     InitContainers := InitContainers t; Containers := Containers t |}.

(** The affinity a workload gets from the topology labels *)
Definition topology_affinity (options : ScheduleOptions) (o : Object) : outcome Object :=
  match TopologyLabels options with
  | [] => Ok o
  | labels => a ← getAffinity range_labels labels; mret (set_Affinity (Some a) o)
  end.

(** A deployment for fastpath nodes labels the first node of the storage driver: the
    index is out of range when there is none, and an error is dropped *)
Definition label_fastpath (o : Object) : M W unit :=
  match Affinity o with
  | Some (Some nodeAff) =>
      labels ← lift (getLabelsFromNodeAffinity (Some nodeAff));
      if decide (labels !! NodeType = Some FastpathNodeType) then
        nodes ← registry_GetStorageDriverNodes;
        n ← lift (index nodes 0);
        attempt (k8s_AddLabelOnNode n NodeType FastpathNodeType) (λ _, mret tt)
      else mret tt
  | _ => mret tt
  end.

(** From the pull secret to the answer *)
Definition deploy {O} (p : nat) (app : AppSpec O) (options : ScheduleOptions) (what secretFor kind : string)
    : M W (option Object) :=
  o ← read_spec p;
  secret ← wrap_err (schedule_failed app ("Failed to create Docker registry secret for " +:+ secretFor +:+ ": " +:+
                       obj_Name o +:+ ". Err: "))
             (createDockerRegistrySecret (Key app) (obj_Namespace o));
  o' ← update_spec p (set_pod_template (set_node_selector options ∘ set_pull_secret secret));
  create_or_get o' (obj_Namespace o') (Some kind) got_error
    (schedule_failed app ("Failed to create " +:+ what +:+ ": " +:+ obj_Name o' +:+ ". Err: ")).

Definition create_deployment {O} (p : nat) (ns : Object) (app : AppSpec O) (options : ScheduleOptions)
    : M W (option Object) :=
  o ← update_spec p (λ o, set_pod_template (set_scheduler options)
        (set_PodVolumes (substituteNamespaceInVolumes (obj_Name ns) (PodVolumes o)) (set_Namespace (obj_Name ns) o)));
  o' ← lift (topology_affinity options o);
  _ ← write_spec p o';
  _ ← label_fastpath o';
  deploy p app options "Deployment" "deployment" "Deployment".

Definition create_stateful_set {O} (p : nat) (ns : Object) (app : AppSpec O) (options : ScheduleOptions)
    : M W (option Object) :=
  _ ← secure_spec p app;
  o ← read_spec p;
  o' ← lift (topology_affinity options o);
  _ ← write_spec p (set_pod_template (set_scheduler options ∘ set_args (obj_Name ns))
        (set_PodVolumes (substituteNamespaceInVolumes (obj_Name ns) (PodVolumes o')) (set_Namespace (obj_Name ns) o')));
  deploy p app options "StatefulSet" "statefulset" "StatefulSet".

Definition createVaultSecret (o : Object) : M W unit :=
  k ← get_k8s;
  _ ← vault_NewClient;
  _ ← vault_SetAddress (VaultAddress (config k));
  vault_Write (VaultToken (config k)) ("secret/" +:+ obj_Name o) (Data o).

Definition create_secret {O} (p : nat) (ns : Object) (app : AppSpec O) : M W (option Object) :=
  o ← update_spec p (set_Namespace (obj_Name ns));
  k ← get_k8s;
  _ ← (if decide (SecretType (config k) = SecretVault) then createVaultSecret o else mret tt);
  create_or_get o (obj_Namespace o) (Some "Secret") got_error
    (schedule_failed app ("Failed to create Secret: " +:+ obj_Name o +:+ ". Err: ")).

(** Objects of the namespace [kube-system] stay there. *)
Definition unless_system (ns : string) (o : Object) : Object :=
  if decide (obj_Namespace o = "kube-system") then o else set_Namespace ns o.

Definition create_unless_system {O} (p : nat) (ns : Object) (app : AppSpec O) (what : string) : M W (option Object) :=
  o ← update_spec p (unless_system (obj_Name ns));
  create_or_get o (obj_Namespace o) None got_error
    (schedule_failed app ("Failed to create " +:+ what +:+ ": " +:+ obj_Name o +:+ ", Err: ")).

(** The second error of a pod is a variable of its own. *)
Definition create_pod {O} (p : nat) (ns : Object) (app : AppSpec O) (options : ScheduleOptions) : M W (option Object) :=
  o ← update_spec p (λ o, set_pod_template (set_scheduler options) (set_Namespace (obj_Name ns) o));
  secret ← wrap_err (schedule_failed app ("Failed to create Docker registry secret for pod: " +:+ obj_Name o +:+ ". Err: "))
             (createDockerRegistrySecret (obj_Namespace o) (obj_Namespace o));
  o' ← update_spec p (set_pod_template (set_pull_secret secret));
  create_or_get o' (obj_Namespace o') None created_error
    (λ err, AppErr AppErrFailedToSchedulePod (Key app) ("Failed to create Pod: " +:+ obj_Name o' +:+ ". Err: " +:+ Error err)).

Definition createCoreObject {O} (p : nat) (ns : Object) (app : AppSpec O) (options : ScheduleOptions)
    : M W (option Object) :=
  o ← read_spec p;
  match obj_kind o with
  | KDeployment => create_deployment p ns app options
  | KStatefulSet => create_stateful_set p ns app options
  | KService => create_in p (obj_Name ns) app "Service" (Some "Service")
  | KSecret => create_secret p ns app
  | KRule => create_unless_system p ns app "Rule"
  | KPod => create_pod p ns app options
  | KConfigMap => create_in p (obj_Name ns) app "Config Map" (Some "ConfigMap")
  | KEndpoints => create_in p (obj_Name ns) app "Endpoints" None
  | KNetworkPolicy => create_in p (obj_Name ns) app "NetworkPolicy" None
  | _ => mret None
  end.

(** ** Pipelines, roles, backups, networking, jobs and monitoring *)

Definition createTektonObjects {O} (p : nat) (ns : Object) (app : AppSpec O) : M W (option Object) :=
  o ← read_spec p;
  match obj_kind o with
  | KTask => create_unless_system p ns app "task"
  | KPipeline => create_unless_system p ns app "pipeline"
  | _ => mret None
  end.

Definition move_subjects (ns : string) (o : Object) : Object :=
  set_Subjects ((λ s, if decide (s.1 = "ServiceAccount") then (s.1, ns) else s) <$> Subjects (Spec o)) o.

Definition createRbacObjects {O} (p : nat) (ns : Object) (app : AppSpec O) : M W (option Object) :=
  o ← read_spec p;
  match obj_kind o with
  | KRole => create_in p (obj_Name ns) app "Role" None
  | KRoleBinding => create_in p (obj_Name ns) app "Role Binding" None
  | KClusterRole =>
      o' ← update_spec p (set_Namespace (obj_Name ns));
      create_or_get o' "" None got_error
        (schedule_failed app ("Failed to create Cluster Role: " +:+ obj_Name o' +:+ ". Err: "))
  | KClusterRoleBinding =>
      o' ← update_spec p (λ o, move_subjects (obj_Name ns) (set_Namespace (obj_Name ns) o));
      create_or_get o' "" None got_error
        (schedule_failed app ("Failed to create Cluster Role Binding: " +:+ obj_Name o' +:+ ". Err: "))
  | KServiceAccount => create_in p (obj_Name ns) app "Service Account" None
  | _ => mret None
  end.

(** A clone of an application keeps its namespace. *)
Definition createBackupObjects {O} (p : nat) (ns : Object) (app : AppSpec O) : M W (option Object) :=
  o ← read_spec p;
  match obj_kind o with
  | KBackupLocation => create_new p (obj_Name ns) app "BackupLocation"
  | KApplicationBackup => create_new p (obj_Name ns) app "ApplicationBackup"
  | KApplicationRestore => create_new p (obj_Name ns) app "ApplicationRestore"
  | KApplicationClone =>
      x ← wrap_err (schedule_failed app ("Failed to create ApplicationClone: " +:+ obj_Name o +:+ ". Err: "))
            (create_object o);
      mret (Some x)
  | _ => mret None
  end.

Definition createNetworkingObjects {O} (p : nat) (ns : Object) (app : AppSpec O) : M W (option Object) :=
  o ← read_spec p;
  match obj_kind o with
  | KIngress => create_in p (obj_Name ns) app "Ingress" None
  | _ => mret None
  end.

Definition createBatchObjects {O} (p : nat) (ns : Object) (app : AppSpec O) : M W (option Object) :=
  o ← read_spec p;
  match obj_kind o with
  | KCronJob => create_in p (obj_Name ns) app "CronJob" None
  | KJob => create_in p (obj_Name ns) app "Job" None
  | _ => mret None
  end.

(** Monitors and budgets that name a namespace stay there. *)
Definition unless_named (ns : string) (o : Object) : Object :=
  if decide (obj_Namespace o = "") then set_Namespace ns o else o.

Definition create_unless_named {O} (p : nat) (ns : Object) (app : AppSpec O) (what : string) : M W (option Object) :=
  o ← update_spec p (unless_named (obj_Name ns));
  create_or_get o (obj_Namespace o) None got_error
    (schedule_failed app ("Failed to create " +:+ what +:+ ": " +:+ obj_Name o +:+ ". Err: ")).

Definition createServiceMonitorObjects {O} (p : nat) (ns : Object) (app : AppSpec O) : M W (option Object) :=
  o ← read_spec p;
  match obj_kind o with
  | KServiceMonitor => create_unless_named p ns app "ServiceMonitor"
  | _ => mret None
  end.

Definition createPodDisruptionBudgetObjects {O} (p : nat) (ns : Object) (app : AppSpec O) : M W (option Object) :=
  o ← read_spec p;
  match obj_kind o with
  | KPodDisruptionBudget => create_unless_named p ns app "PodDisruptionBudget"
  | _ => mret None
  end.

(** *** Webhooks *)

(** The pointer to a webhook configuration of the older API, which no spec file can
    hold: [validateSpec] refuses it *)
Definition webhook_v1beta1 : Kind := KOther "*v1beta1.ValidatingWebhookConfiguration".

Fixpoint move_webhooks (ns : string) (hooks : list (option string)) : outcome (list (option string)) :=
  match hooks with
  | [] => Ok []
  | hook :: hooks' => _ ← deref hook; rest ← move_webhooks ns hooks'; mret (Some ns :: rest)
  end.

Definition create_webhooks {O} (p : nat) (ns : Object) (app : AppSpec O) : M W (option Object) :=
  o ← update_spec p (set_Namespace (obj_Name ns));
  hooks ← lift (move_webhooks (obj_Name ns) (Webhooks (Spec o)));
  o' ← update_spec p (set_Webhooks hooks);
  create_or_get o' "" None created_error
    (schedule_failed app ("Failed to Create ValidatingWebhookConfiguration: " +:+ obj_Name o' +:+ ". Err: ")).

Definition createAdmissionRegistrationObjects {O} (p : nat) (ns : Object) (app : AppSpec O) : M W (option Object) :=
  _ ← secure_spec p app;
  o ← read_spec p;
  if decide (obj_kind o = KValidatingWebhookConfiguration ∨ obj_kind o = webhook_v1beta1)
  then create_webhooks p ns app else mret None.

(** *** Custom resources *)

(** [kubectl apply]; the answer is the spec itself *)
Definition createCustomResourceObjects {O} (p : nat) (ns : Object) (app : AppSpec O) : M W (option Object) :=
  o ← read_spec p;
  match obj_kind o with
  | KCustomResourceObjectYAML =>
      let cryaml := Path (Spec o) in
      missing ← Stat_missing cryaml;
      if (missing : bool) then throw (Errorf ("Cannot find yaml in path " +:+ cryaml)) else
      _ ← wrap_err (λ err, Errorf ("Error applying spec [" +:+ cryaml +:+ "], Error: " +:+ Error err))
            (Kubectl ["apply"; "-f"; cryaml; "-n"; obj_Name ns]);
      o' ← update_spec p (λ o, set_Name "placeholder" (set_Namespace (obj_Name ns) o));
      mret (Some o')
  | _ => mret None
  end.

(** *** Virtual machines *)

(** Waiting for the image of a volume of a machine, when it is a claim that imports
    one *)
Definition image_task (vmName name ns : string) : M W (task_result string) :=
  '(pvc, _) ← client_Get KPersistentVolumeClaim name ns;
  o ← lift (deref pvc);
  match Annotations o !! cdiPvcRunningMessageAnnotationKey with
  | Some message =>
      if decide (message = cdiImportComplete) then mret (Done "")
      else mret (Retry (Errorf ("waiting for annotation [" +:+ cdiPvcRunningMessageAnnotationKey +:+ "] in pvc [" +:+
             name +:+ "] in namespace [" +:+ ns +:+ "] for virtual machine [" +:+ vmName +:+ "] to be " +:+
             cdiImportComplete +:+ ", but got " +:+ message)))
  | None => mret (Retry (Errorf ("annotation [" +:+ cdiPvcRunningMessageAnnotationKey +:+ "] not found in pvc [" +:+
             name +:+ "] in namespace [" +:+ ns +:+ "] for virtual machine [" +:+ vmName +:+ "]")))
  end.

Definition WaitForImageImportForVM (vmName ns : string) (v : option string) : M W unit :=
  match v with
  | None => mret tt
  | Some pvcName =>
      pvc ← get_object KPersistentVolumeClaim pvcName ns;
      if import_endpoint pvc then
        _ ← DoRetryWithTimeout (image_task vmName pvcName ns) cdiImageImportTimeout cdiImageImportRetry; mret tt
      else mret tt
  end.

Definition clone_task (ns pvcName : string) : M W (task_result unit) :=
  attempt (get_object KPersistentVolumeClaim pvcName ns) (λ r,
    match r with
    | inr err => mret (Retry err)
    | inl pvc =>
        if decide (Annotations pvc !! "cdi.kubevirt.io/storage.condition.source.running.message" = Some "Clone Complete")
        then mret (Done tt)
        else mret (Retry (Errorf ("waiting for clone operation to succeed for PVC [" +:+ pvcName +:+
               "] in namespace [" +:+ ns +:+ "], current phase: " +:+
               default "" (Annotations pvc !! "cdi.kubevirt.io/clonePhase"))))
    end).

Definition WaitForCloneToSucceed (ns pvcName : string) : M W unit :=
  DoRetryWithTimeout (clone_task ns pvcName) cdiImageImportTimeout cdiImageImportRetry.

(** [time.Sleep] *)
Definition pause (d : Z) : M W unit := λ w, (Ok tt, sleep d w).

(** The machine is a variable the closure assigns, so its last value counts whatever
    the wait returns. *)
Definition vm_ready_task (name ns : string) : M (W * option Object) (task_result unit) :=
  '(o, err) ← up (client_Get KVirtualMachine name ns);
  _ ← put_local o;
  match err with
  | Some e => mret (Retry e)
  | None =>
      m ← lift (deref o);
      if vm_Ready (vm (Spec m)) then mret (Done tt)
      else mret (Retry (Errorf ("waiting for VM [" +:+ name +:+ "] in namespace [" +:+ ns +:+ "] to be ready")))
  end.

Definition wait_vm (o m : Object) : M W (option Object) :=
  '(_, last) ← with_local (Some m)
      (attempt (DoRetryWithTimeout (vm_ready_task (obj_Name o) (obj_Namespace o)) cdiImageImportTimeout cdiImageImportRetry)
         (λ _, mret tt));
  mret (Some (default (new_object KVirtualMachine "" "" None) last)).

(** A machine on cloned volumes: an error of the create other than that it exists is
    not looked at. *)
Definition create_cloned_vm {O} (p : nat) (ns : Object) (app : AppSpec O) : M W (option Object) :=
  o ← update_spec p (unless_system (obj_Name ns));
  let wait : M W (option Object) :=
    _ ← for_each (WaitForCloneToSucceed (obj_Name ns)) (DataVolumeTemplates (vm (Spec o)));
    _ ← pause (30 * Second);
    m ← wrap_err (λ err, Errorf ("failed to retrieve VM after creating/waiting for DataVolumes: " +:+ Error err))
          (get_object KVirtualMachine (obj_Name o) (obj_Namespace o));
    wait_vm o m in
  '(_, err) ← client_Create o;
  match err with
  | None => wait
  | Some e =>
      if IsAlreadyExists e then
        attempt (get_object KVirtualMachine (obj_Name o) (obj_Namespace o)) (λ r,
          match r with
          | inl m => mret (Some m)
          | inr _ => wait
          end)
      else wait
  end.

Definition createVirtualMachineObjects {O} (p : nat) (ns : Object) (app : AppSpec O) : M W (option Object) :=
  o ← read_spec p;
  match obj_kind o with
  | KVirtualMachine =>
      if is_cloned o then create_cloned_vm p ns app
      else
        vols ← lift (deref (VmVolumes (vm (Spec o))));
        _ ← for_each (WaitForImageImportForVM (obj_Name o) (obj_Name ns)) vols;
        create_unless_system p ns app "VirtualMachine"
  | _ => mret None
  end.

(** ** All the objects of an application *)

(** One pass over the specs: each is tried until it succeeds or the time is over *)
Definition create_task (create : nat → M W (option Object)) (p : nat) : M W (task_result (option Object)) :=
  attempt (create p) (λ r,
    match r with
    | inl obj => mret (Done obj)
    | inr err => mret (Retry err)
    end).

Fixpoint create_each (create : nat → M W (option Object)) (ps : list nat) : M W (list Object) :=
  match ps with
  | [] => mret []
  | p :: ps' =>
      obj ← DoRetryWithTimeout (create_task create p) k8sObjectCreateTimeout DefaultRetryInterval;
      rest ← create_each create ps';
      mret (match obj with Some o => o :: rest | None => rest end)
  end.

Fixpoint run_passes (passes : list (nat → M W (option Object))) (ps : list nat) : M W (list Object) :=
  match passes with
  | [] => mret []
  | create :: passes' => l ← create_each create ps; rest ← run_passes passes' ps; mret (l ++ rest)
  end.

Definition create_passes {O} (ns : Object) (app : AppSpec O) (options : ScheduleOptions)
    : list (nat → M W (option Object)) :=
  [ λ p, createMigrationObjects p ns app;
    λ p, createCRDObjects p ns app;
    λ p, createVolumeSnapshotRestore p ns app;
    λ p, createStorageObject p ns app options;
    λ p, createTektonObjects p ns app;
    λ p, createRbacObjects p ns app;
    λ p, createCoreObject p ns app options;
    λ p, createBackupObjects p ns app;
    λ p, createNetworkingObjects p ns app;
    λ p, createBatchObjects p ns app;
    λ p, createServiceMonitorObjects p ns app;
    λ p, createPodDisruptionBudgetObjects p ns app;
    λ p, createAdmissionRegistrationObjects p ns app;
    λ p, createCustomResourceObjects p ns app;
    λ p, createVirtualMachineObjects p ns app ].

Definition CreateSpecObjects (app : AppSpec nat) (namespace : string) (options : ScheduleOptions) : M W (list Object) :=
  ns ← createNamespace app namespace options;
  run_passes (create_passes ns app options) (SpecList app).

(** ** Scheduling *)

Context `{!SpecSource (O := nat)}.

(** The factory's map is a part of the state *)
Definition with_factory {A} (m : M (gmap string (AppSpec nat)) A) : M W A := λ w,
  let '(r, apps) := m (appSpecFactory (sched w)) in
  (r, set_sched {| specs := specs (sched w); appSpecFactory := apps; helm_settings := helm_settings (sched w) |} w).

Definition set_IsCSI {O} (b : bool) (a : AppSpec O) : AppSpec O :=
  {| Key := Key a; SpecList := SpecList a; Enabled := Enabled a; IsCSI := b; NameSpace := NameSpace a |}.

Fixpoint get_apps (options : ScheduleOptions) (keys : list string) : M W (list (AppSpec nat)) :=
  match keys with
  | [] => mret []
  | key :: keys' =>
      appSpec ← with_factory (SpecFactory.Get key);
      rest ← get_apps options keys';
      mret ((if isCsiApp options key then set_IsCSI true appSpec else appSpec) :: rest)
  end.

(** [HelmSchedule]: the answer holds the objects of the manifests, not the chart *)
Definition helm_one (app : AppSpec nat) (appNamespace : string) (options : ScheduleOptions) (p : nat)
    : M W (list Object) :=
  o ← read_spec p;
  match obj_kind o with
  | KHelmRepo =>
      _ ← SetHelmParams (Key app) p options;
      _ ← new_settings;
      o1 ← read_spec p;
      _ ← RepoAdd (helm (Spec o1));
      _ ← RepoUpdate;
      _ ← createNamespace app appNamespace options;
      o2 ← update_spec p (set_Namespace appNamespace);
      manifest ← (if Upgrade options then UpgradeChart (obj_Namespace o2) (helm (Spec o2))
                  else InstallChart (obj_Namespace o2) (helm (Spec o2)));
      lift (ParseSpecsFromYamlBuf manifest)
  | _ => mret []
  end.

(** A loop that collects lists and stops at the first error *)
Fixpoint collect_each {A B} (body : A → M W (list B)) (l : list A) : M W (list B) :=
  match l with
  | [] => mret []
  | x :: l' => y ← body x; rest ← collect_each body l'; mret (y ++ rest)
  end.

Definition HelmSchedule (app : AppSpec nat) (appNamespace : string) (options : ScheduleOptions) : M W (list Object) :=
  collect_each (helm_one app appNamespace options) (SpecList app).

Definition context_of (instanceID nsField : string) (app : AppSpec nat) (objs : list Object) (options : ScheduleOptions)
    : Context :=
  {| UID := instanceID;
     App := {| Key := Key app; SpecList := objs; Enabled := Enabled app; IsCSI := false; NameSpace := nsField |};
     ScheduleOpts := options; SkipClusterScopedObject := false |}.

(** The loop of [Schedule] ([custom] is false) and of [ScheduleWithCustomAppSpecs],
    which does not fill in the namespace of the application.  The topology labels
    go on rotating from one application to the next; the namespace is reset. *)
Fixpoint schedule_apps (custom : bool) (instanceID oldNamespace : string) (apps : list (AppSpec nat))
    (options : ScheduleOptions) : M W (list Context) :=
  match apps with
  | [] => mret []
  | app :: apps' =>
      let appNamespace := if decide (opt_Namespace options = "") then GetID app instanceID else opt_Namespace options in
      let options1 := set_opt_Namespace appNamespace options in
      let options2 := rotateTopologyArray options1 in
      specObjects ← CreateSpecObjects app appNamespace options2;
      helmSpecObjects ← HelmSchedule app appNamespace options2;
      let ctx := context_of instanceID (if custom then "" else appNamespace) app (specObjects ++ helmSpecObjects) options2 in
      rest ← schedule_apps custom instanceID oldNamespace apps' (set_opt_Namespace oldNamespace options2);
      mret (ctx :: rest)
  end.

Definition Schedule (instanceID : string) (options : ScheduleOptions) : M W (list Context) :=
  apps ← (if decide (AppKeys options = []) then with_factory SpecFactory.GetAll else get_apps options (AppKeys options));
  schedule_apps false instanceID (opt_Namespace options) apps options.

Definition ScheduleWithCustomAppSpecs (apps : list (AppSpec nat)) (instanceID : string) (options : ScheduleOptions)
    : M W (list Context) :=
  schedule_apps true instanceID (opt_Namespace options) apps options.

(** ** Adding to and removing from a context *)

Fixpoint apps_of (keys : list string) : M W (list (AppSpec nat)) :=
  match keys with
  | [] => mret []
  | key :: keys' => appSpec ← with_factory (SpecFactory.Get key); rest ← apps_of keys'; mret (appSpec :: rest)
  end.

Definition set_context_specs (l : list Object) (ctx : Context) : Context :=
  {| UID := UID ctx; App := set_SpecList l (App ctx); ScheduleOpts := ScheduleOpts ctx;
     SkipClusterScopedObject := SkipClusterScopedObject ctx |}.

(** The context is written at the end, when nothing failed: it is the answer. *)
Definition AddTasks (ctx : option Context) (options : ScheduleOptions) : M W Context :=
  match ctx with
  | None => throw (Errorf "context to add tasks to cannot be nil")
  | Some ctx =>
      if decide (AppKeys options = []) then throw (Errorf "need to specify list of applications to add to context") else
      let appNamespace := opt_Namespace (ScheduleOpts ctx) in
      apps ← apps_of (AppKeys options);
      objects ← collect_each (λ app,
        l ← CreateSpecObjects app appNamespace options;
        h ← HelmSchedule app appNamespace options;
        mret (l ++ h)) apps;
      mret (set_context_specs (SpecList (App ctx) ++ objects) ctx)
  end.

(** The charts among the specs of an application *)
Definition uninstall_one (p : nat) : M W (list Object) :=
  o ← read_spec p;
  match obj_kind o with
  | KHelmRepo => UnInstallHelmChart (obj_Namespace o) (helm (Spec o))
  | _ => mret []
  end.

Definition ScheduleUninstall (ctx : option Context) (options : ScheduleOptions) : M W Context :=
  match ctx with
  | None => throw (Errorf "context to remove tasks to cannot be nil")
  | Some ctx =>
      if decide (AppKeys options = []) then throw (Errorf "need to specify list of applications to remove to context") else
      apps ← apps_of (AppKeys options);
      removeSpecs ← collect_each (λ app, collect_each uninstall_one (SpecList app)) apps;
      let '(r, ctx') := RemoveAppSpecsByName removeSpecs ctx in
      _ ← lift r;
      mret ctx'
  end.

End create.
