(* ===== verification/K8sCreateProps.v ===== *)
(** Properties of creating and scheduling applications (K8sCreate): which objects
    [CreateSpecObjects] makes, in which order, and what [Schedule] answers. *)

From Stdlib Require Import Ascii.
From S2P Require Import Prelude GoStrings Errors Effects Strconv Task NodeRegistry AutopilotRules SpecFactory PxDriver K8sObjects VolumeDrivers K8sSpecs K8sNodes K8sHelm K8sCreate.

(** ** The interface of the cluster, for the theorems below *)

(** A call that leaves the memory of the scheduler alone *)
Class KeepsSched {W A} `{SchedWorld W} (m : M W A) : Prop :=
  keeps_sched : ∀ w, sched (m w).2 = sched w.

Class SchedLaws (W : Type) `{SchedWorld W} : Prop := {
  sched_set_sched : ∀ s w, sched (set_sched s w) = s;
  sched_set_k8s : ∀ s w, sched (set_k8s s w) = sched w;
  sched_sleep : ∀ d w, sched (sleep d w) = sched w;
  range_nodes_sched :: KeepsSched range_nodes;
}.

Class CreateFrame (W : Type) `{SchedWorld W} `{K8sClient W} `{K8sCreateApi W} `{HelmLib W} `{K8sCore W} : Prop := {
  frame_Get :: ∀ k n ns, KeepsSched (client_Get k n ns);
  frame_Create :: ∀ o, KeepsSched (client_Create o);
  frame_RegisterCRD :: ∀ o, KeepsSched (RegisterCRD o);
  frame_CreateRule :: ∀ r, KeepsSched (api_CreateAutopilotRule r);
  frame_GetRule :: ∀ n, KeepsSched (api_GetAutopilotRule n);
  frame_vault_New :: KeepsSched vault_NewClient;
  frame_vault_Address :: ∀ a, KeepsSched (vault_SetAddress a);
  frame_vault_Write :: ∀ t p d, KeepsSched (vault_Write t p d);
  frame_Kubectl :: ∀ a, KeepsSched (Kubectl a);
  frame_Stat :: ∀ f, KeepsSched (Stat_missing f);
  frame_AddLabel :: ∀ n k v, KeepsSched (AddLabelOnNode n k v);
  frame_MkdirAll :: KeepsSched os_MkdirAll;
  frame_TryLock :: KeepsSched TryLock;
  frame_Unlock :: KeepsSched Unlock;
  frame_read_repos :: KeepsSched read_repositories;
  frame_write_repos :: ∀ l, KeepsSched (write_repositories l);
  frame_LoadFile :: KeepsSched repo_LoadFile;
  frame_NewRepo :: ∀ c, KeepsSched (NewChartRepository c);
  frame_Download :: ∀ c, KeepsSched (DownloadIndexFile c);
  frame_Init :: ∀ ns, KeepsSched (action_Init ns);
  frame_Locate :: ∀ c, KeepsSched (LocateChart c);
  frame_Load :: ∀ c, KeepsSched (loader_Load c);
  frame_install :: ∀ r ns c v, KeepsSched (install_Run r ns c v);
  frame_upgrade :: ∀ r ns c v, KeepsSched (upgrade_Run r ns c v);
  frame_values :: ∀ r, KeepsSched (getvalues_Run r);
  frame_uninstall :: ∀ r t, KeepsSched (uninstall_Run r t);
}.

(** The cluster answers with objects of the type it was asked for. *)
Class ClusterKinds (W : Type) `{K8sClient W} : Prop := {
  Create_kind : ∀ o w x e w', client_Create o w = (Ok (Some x, e), w') → obj_kind x = obj_kind o;
  Get_kind : ∀ k n ns w x e w', client_Get k n ns w = (Ok (Some x, e), w') → obj_kind x = k;
}.

(** ** Which types each pass handles *)

Definition migration_kinds : list Kind := [KClusterPair; KMigration; KMigrationSchedule; KSchedulePolicy; KResourceTransformation].
Definition crd_kinds : list Kind := [KCRDv1; KCRDv1beta1].
Definition restore_kinds : list Kind := [KVolumeSnapshotRestore].
Definition storage_kinds : list Kind :=
  [KStorageClass; KPersistentVolumeClaim; KVolumeSnapshot; KGroupVolumeSnapshot; KPersistentVolume].
Definition tekton_kinds : list Kind := [KTask; KPipeline].
Definition rbac_kinds : list Kind := [KRole; KRoleBinding; KClusterRole; KClusterRoleBinding; KServiceAccount].
Definition core_kinds : list Kind :=
  [KDeployment; KStatefulSet; KService; KSecret; KRule; KPod; KConfigMap; KEndpoints; KNetworkPolicy].
Definition backup_kinds : list Kind := [KBackupLocation; KApplicationBackup; KApplicationRestore; KApplicationClone].
Definition networking_kinds : list Kind := [KIngress].
Definition batch_kinds : list Kind := [KCronJob; KJob].
Definition monitor_kinds : list Kind := [KServiceMonitor].
Definition budget_kinds : list Kind := [KPodDisruptionBudget].
Definition webhook_kinds : list Kind := [KValidatingWebhookConfiguration; webhook_v1beta1].
Definition custom_kinds : list Kind := [KCustomResourceObjectYAML].
Definition machine_kinds : list Kind := [KVirtualMachine].

(** The passes in their order *)
Definition pass_kinds : list (list Kind) :=
  [migration_kinds; crd_kinds; restore_kinds; storage_kinds; tekton_kinds; rbac_kinds; core_kinds; backup_kinds;
   networking_kinds; batch_kinds; monitor_kinds; budget_kinds; webhook_kinds; custom_kinds; machine_kinds].

(** The specs a pass makes objects of, in the order of the list *)
Definition handled_by (ks : list Kind) (objs : gmap nat Object) (ps : list nat) : list Object :=
  omap (λ p, o ← objs !! p; if decide (obj_kind o ∈ ks) then Some o else None) ps.

(** ** What becomes of a spec *)

(** The name of a claim has the namespaces in it that the claim was created for. *)
Definition renamed : string → string → Prop := rtc (λ a b, ∃ ns, b = in_namespace ns a).

(** The spec [o0] later on: the same type, path and name, except that claims are renamed
    for their namespace, and custom resources have a placeholder for a name *)
Definition same_spec (o0 o : Object) : Prop :=
  obj_kind o = obj_kind o0 ∧ Path (Spec o) = Path (Spec o0) ∧
  (obj_Name o = obj_Name o0 ∨
   obj_kind o0 = KPersistentVolumeClaim ∧ renamed (obj_Name o0) (obj_Name o) ∨
   obj_kind o0 = KCustomResourceObjectYAML).

Definition same_specs (a b : gmap nat Object) : Prop := ∀ p, option_Forall2 same_spec (a !! p) (b !! p).

Lemma same_spec_refl o : same_spec o o.
Proof. split_and!; [done..|by left]. Qed.

Lemma same_specs_refl a : same_specs a a.
Proof. intros p. destruct (a !! p); constructor. apply same_spec_refl. Qed.

(** An assignment that leaves type, name and path alone *)
Definition unchanged (o o' : Object) : Prop :=
  obj_kind o' = obj_kind o ∧ obj_Name o' = obj_Name o ∧ Path (Spec o') = Path (Spec o).

Lemma same_spec_unchanged o0 o o' : same_spec o0 o → unchanged o o' → same_spec o0 o'.
Proof. intros (Hk & Hp & Hn) (Hk' & Hn' & Hp'). unfold same_spec. rewrite Hk', Hn', Hp'. by split_and!. Qed.

Section create_theorems.
Context {W : Type} `{PxWorldLaws W} `{!K8sWorld W} `{!K8sWorldLaws W} `{!SchedWorld W} `{!SchedLaws W}.
Context `{!K8sClient W} `{SpecFiles} `{!HelmLib W} `{!K8sCreateApi W}.
Context `{!K8sNodeApi W} `{!NodeDriver W} `{!K8sCore W} `{!CreateFrame W} `{!ClusterKinds W}.
Context (volumes : VolumePackage) (K0 : gmap nat Object).

Definition kinds_are (w : W) : Prop := same_specs K0 (specs (sched w)).

Notation ens m Q := (ensures kinds_are m Q).

(** ** The answers of the cluster *)

(** The create of [o] was answered with [x], and with the error [e]. *)
Definition created (o x : Object) (e : option error) : Prop :=
  obj_kind x = obj_kind o ∧ ∃ w w', client_Create o w = (Ok (Some x, e), w').

(** So was the get of an object. *)
Definition got (k : Kind) (n ns : string) (x : Object) (e : option error) : Prop :=
  obj_kind x = k ∧ ∃ w w', client_Get k n ns w = (Ok (Some x, e), w').

(** The cluster was asked to create [o], and did or said that it exists. *)
Definition requested (o : Object) : Prop :=
  (∃ x e, created o x e) ∨ (∃ w w', RegisterCRD o w = (Ok tt, w')) ∨
  ∃ err w w', IsAlreadyExists err = true ∧
    (create_object o w = (Err err, w') ∨ RegisterCRD o w = (Err err, w') ∨
     ∃ x, client_Create o w = (Ok (x, Some err), w')).

(** [x] is an answer of the cluster for the spec [o0]: to the create of the spec as it was
    then, or to a get of its type and name, in its namespace or that of types without one,
    after the create was requested.  Only for claims and machines an answer next to an
    error is taken, and only for machines the error of the create is not looked at. *)
Definition answered_for (o0 x : Object) : Prop :=
  ∃ o kind x0 e, same_spec o0 o ∧ x = with_kind kind x0 ∧
    (e = None ∨ obj_kind o0 ∈ [KPersistentVolumeClaim; KVirtualMachine]) ∧
    (created o x0 e ∨
     (requested o ∨ obj_kind o0 = KVirtualMachine) ∧
     ∃ ns, (ns = obj_Namespace o ∨ ns = "") ∧ got (obj_kind o) (obj_Name o) ns x0 e).

(** The file of a custom resource was applied; the answer is the spec. *)
Definition applied (o0 : Object) : Prop :=
  obj_kind o0 = KCustomResourceObjectYAML ∧
  ∃ ns w w', Kubectl ["apply"; "-f"; Path (Spec o0); "-n"; ns] w = (Ok tt, w').

(** A machine on cloned volumes that the last look did not find: the answer is empty. *)
Definition lost_machine (o0 x : Object) : Prop :=
  obj_kind o0 = KVirtualMachine ∧ x = new_object KVirtualMachine "" "" None ∧
  ∃ o e w w', same_spec o0 o ∧ client_Get KVirtualMachine (obj_Name o) (obj_Namespace o) w = (Ok (None, e), w').

(** The object of a spec *)
Definition made_of (o0 x : Object) : Prop :=
  obj_kind x = obj_kind o0 ∧ (answered_for o0 x ∨ applied o0 ∨ lost_machine o0 x).

(** What a create function answers for a pointer *)
Definition made (o0 : Object) (r : option Object) : Prop := ∃ x, r = Some x ∧ made_of o0 x.
Definition made_at (p : nat) (r : option Object) : Prop := ∃ o0, K0 !! p = Some o0 ∧ made o0 r.

(** The spec behind a pointer *)
Definition spec_at (p : nat) (o : Object) : Prop := ∃ o0, K0 !! p = Some o0 ∧ same_spec o0 o.

Lemma with_kind_kind kind o : obj_kind (with_kind kind o) = obj_kind o.
Proof. by destruct kind. Qed.

Lemma made_created o0 o kind x e :
  same_spec o0 o → e = None ∨ obj_kind o0 ∈ [KPersistentVolumeClaim; KVirtualMachine] → created o x e →
  made o0 (Some (with_kind kind x)).
Proof.
  intros Hs He [Hk Hc]. exists (with_kind kind x). split; [done|]. split; [rewrite with_kind_kind, Hk; apply Hs|].
  left. exists o, kind, x, e. split_and!; [done..|]. left. by split.
Qed.

Lemma made_got o0 o kind ns x e :
  same_spec o0 o → e = None ∨ obj_kind o0 ∈ [KPersistentVolumeClaim; KVirtualMachine] →
  requested o ∨ obj_kind o0 = KVirtualMachine → ns = obj_Namespace o ∨ ns = "" →
  got (obj_kind o) (obj_Name o) ns x e → made o0 (Some (with_kind kind x)).
Proof.
  intros Hs He Hr Hns [Hk Hg]. exists (with_kind kind x). split; [done|]. split; [rewrite with_kind_kind, Hk; apply Hs|].
  left. exists o, kind, x, e. split_and!; [done..|]. right. split; [done|]. exists ns. split; [done|]. by split.
Qed.

(** ** The steps *)

Lemma preserves_kept {A} (m : M W A) : KeepsSched m → preserves kinds_are m.
Proof. intros Hm w. unfold kinds_are. by rewrite (keeps_sched (m := m)). Qed.

Lemma ens_kept {A} (m : M W A) : KeepsSched m → ens m (λ _, True).
Proof. intros Hm. by apply ensures_any, preserves_kept. Qed.

(** The same with the run that answered *)
Lemma ens_ran {A} (m : M W A) : KeepsSched m → ens m (λ a, ∃ w w', m w = (Ok a, w')).
Proof.
  intros Hm w Hw. split; [by apply preserves_kept|]. intros a Ha. exists w, (m w).2. by rewrite <- Ha, <- surjective_pairing.
Qed.

(** An attempt, with the run that failed *)
Lemma ens_attempt {A B} (m : M W A) (k : A + error → M W B) (P : A → Prop) (Q : B → Prop) :
  ens m P → (∀ a, P a → ens (k (inl a)) Q) →
  (∀ e, (∃ w w', m w = (Err e, w')) → ens (k (inr e)) Q) → ens (attempt m k) Q.
Proof.
  intros Hm Ha He w Hw. destruct (Hm w Hw) as [Hw1 HP]. unfold attempt.
  destruct (m w) as [[a|e|s|] w1] eqn:E; simpl in *; [by apply Ha; [apply HP|]|by apply He; [eauto|]|done..].
Qed.

Lemma kinds_sleep d w : kinds_are w → kinds_are (sleep d w).
Proof. unfold kinds_are. by rewrite sched_sleep. Qed.

Lemma ens_get_k8s : ens get_k8s (λ _, True).
Proof. by intros w Hw. Qed.

Lemma ens_read p : ens (read_spec p) (spec_at p).
Proof.
  intros w Hw. split; [done|]. intros o Ho. unfold read_spec in Ho. simpl in Ho. specialize (Hw p).
  destruct (specs (sched w) !! p); simplify_eq/=. inversion Hw as [o0 ? Hs Hk|]. by exists o0.
Qed.

Lemma ens_write p o : spec_at p o → ens (write_spec p o) (λ _, True).
Proof.
  intros (o0 & Hk & Hs) w Hw. split; [|done]. unfold write_spec, set_specs, kinds_are in *. simpl.
  rewrite sched_set_sched. simpl. intros q. destruct (decide (p = q)) as [<-|Hne].
  - rewrite lookup_insert_eq, Hk. by constructor.
  - rewrite lookup_insert_ne by done. apply Hw.
Qed.

Lemma spec_unchanged p o o' : spec_at p o → unchanged o o' → spec_at p o'.
Proof. intros (o0 & Hk & Hs) Hu. exists o0. split; [done|]. by eapply same_spec_unchanged. Qed.

Lemma ens_update_spec p f : (∀ o, spec_at p o → spec_at p (f o)) → ens (update_spec p f) (spec_at p).
Proof.
  intros Hf. eapply ensures_bind; [apply ens_read|]. intros o Ho.
  eapply ensures_bind; [by apply ens_write, Hf|]. intros _ _. by apply ensures_ret, Hf.
Qed.

Lemma ens_update p f : (∀ o, unchanged o (f o)) → ens (update_spec p f) (spec_at p).
Proof. intros Hf. apply ens_update_spec. intros o Ho. by eapply spec_unchanged. Qed.

Lemma ens_client_Create o :
  ens (client_Create o) (λ r, (∃ w w', client_Create o w = (Ok r, w')) ∧ ∀ x, r.1 = Some x → created o x r.2).
Proof.
  eapply ensures_weaken; [apply ens_ran, _|]. intros [x e] (w & w' & Hr). split; [by exists w, w'|].
  intros x' [= ->]. split; [by eapply Create_kind|by exists w, w'].
Qed.

Lemma ens_client_Get k n ns : ens (client_Get k n ns) (λ r, ∀ x, r.1 = Some x → got k n ns x r.2).
Proof.
  eapply ensures_weaken; [apply ens_ran, _|]. intros [x e] (w & w' & Hr) x' [= ->].
  split; [by eapply Get_kind|by exists w, w'].
Qed.

Lemma ens_deref {A} (p : option A) (Q : A → Prop) : (∀ a, p = Some a → Q a) → ens (lift (deref p)) Q.
Proof. intros Hp. apply ensures_lift. destruct p; naive_solver. Qed.

Lemma ens_pointer {A} (p : option A) : ens (lift (deref p)) (λ a, p = Some a).
Proof. by apply ens_deref. Qed.

Lemma ens_create o : ens (create_object o) (λ x, created o x None).
Proof.
  eapply ensures_bind; [apply ens_client_Create|]. intros [x [e|]] [_ Hx]; [apply ensures_throw|].
  by apply ens_deref.
Qed.

Lemma ens_get k n ns : ens (get_object k n ns) (λ x, got k n ns x None).
Proof.
  eapply ensures_bind; [apply ens_client_Get|]. intros [x [e|]] Hx; [apply ensures_throw|].
  by apply ens_deref.
Qed.

Lemma ens_create_or_get o0 o ns kind report failed :
  same_spec o0 o → ns = obj_Namespace o ∨ ns = "" → ens (create_or_get o ns kind report failed) (made o0).
Proof.
  intros Hs Hns. eapply ens_attempt; [apply ens_create|..].
  - intros x Hx. apply ensures_ret. by eapply made_created; [..|left|].
  - intros e (w & w' & He). destruct (IsAlreadyExists e) eqn:Hex; [|apply ensures_throw].
    eapply ensures_attempt; [apply ens_get|..]; intros x; [|apply ensures_throw].
    intros Hx. apply ensures_ret. eapply made_got; [done|by left| |done|done]. left. right. right. exists e, w, w'. auto.
Qed.

Lemma ens_create_or_get_at p o ns kind report failed :
  spec_at p o → ns = obj_Namespace o ∨ ns = "" → ens (create_or_get o ns kind report failed) (made_at p).
Proof.
  intros (o0 & Hk & Hs) Hns. eapply ensures_weaken; [by apply ens_create_or_get|]. intros r Hr. by exists o0.
Qed.

(** [ens_step] takes one step of a call: its invariant part, and the postcondition of
    the steps that matter. *)
Ltac by_unchanged := unfold unchanged; by split_and!.
Ltac ens_prim :=
  lazymatch goal with
  | |- ensures _ (read_spec _) _ => apply ens_read
  | |- ensures _ get_k8s _ => apply ens_get_k8s
  | |- ensures _ (update_spec _ _) _ => apply ens_update; intros ?; by_unchanged
  | |- ensures _ (create_object _) _ => apply ens_create
  | |- ensures _ (get_object _ _ _) _ => apply ens_get
  | |- ensures _ (client_Create _) _ => apply ens_client_Create
  | |- ensures _ (client_Get _ _ _) _ => apply ens_client_Get
  | |- ensures _ (wrap_err _ _) _ => eapply ensures_wrap_err; ens_prim
  | |- ensures _ (throw _) _ => apply ensures_throw
  | |- _ => apply ens_kept; apply _
  end.

Ltac ens_step :=
  let x := fresh "x" in let Hx := fresh "Hx" in
  eapply ensures_bind; [solve [ens_prim]|intros x Hx; cbv beta in Hx].

(** The spec that was just written is created, or got. *)
Ltac ens_make := eapply ens_create_or_get_at; [eassumption|first [by left|by right]].

Lemma ens_create_in p ns {O} (app : AppSpec O) what kind : ens (create_in p ns app what kind) (made_at p).
Proof. ens_step. ens_make. Qed.

Lemma made_new p o x : spec_at p o → created o x None → made_at p (Some x).
Proof. intros (o0 & Hk & Hs) Hx. exists o0. split; [done|]. by eapply (made_created _ _ None); [..|left|]. Qed.

Lemma ens_create_new p ns {O} (app : AppSpec O) what : ens (create_new p ns app what) (made_at p).
Proof. do 2 ens_step. apply ensures_ret. by eapply made_new. Qed.

Lemma addSecurityAnnotation_unchanged {O} cfg prov cm (app : AppSpec O) o :
  unchanged o (addSecurityAnnotation cfg prov cm app o).
Proof.
  unfold addSecurityAnnotation, unchanged. destruct (obj_kind o) eqn:E; repeat case_match; simpl; rewrite ?E; done.
Qed.

Lemma ens_secure p {O} (app : AppSpec O) : ens (secure_spec volumes p app) (λ _, True).
Proof.
  ens_step. cbv zeta. case_decide; [by apply ensures_ret|]. ens_step.
  eapply ensures_bind; [apply ens_update; intros o; apply addSecurityAnnotation_unchanged|].
  intros. by apply ensures_ret.
Qed.

Lemma unless_system_unchanged ns o : unchanged o (unless_system ns o).
Proof. unfold unless_system. case_decide; by_unchanged. Qed.

Lemma unless_named_unchanged ns o : unchanged o (unless_named ns o).
Proof. unfold unless_named. case_decide; by_unchanged. Qed.

Lemma ens_unless_system p ns {O} (app : AppSpec O) what : ens (create_unless_system p ns app what) (made_at p).
Proof. eapply ensures_bind; [apply ens_update, unless_system_unchanged|]. intros x Hx. ens_make. Qed.

Lemma ens_unless_named p ns {O} (app : AppSpec O) what : ens (create_unless_named p ns app what) (made_at p).
Proof. eapply ensures_bind; [apply ens_update, unless_named_unchanged|]. intros x Hx. ens_make. Qed.

Ltac made_prim :=
  lazymatch goal with
  | |- ensures _ (create_in _ _ _ _ _) _ => apply ens_create_in
  | |- ensures _ (create_new _ _ _ _) _ => apply ens_create_new
  | |- ensures _ (create_unless_system _ _ _ _) _ => apply ens_unless_system
  | |- ensures _ (create_unless_named _ _ _ _) _ => apply ens_unless_named
  end.

(** ** The passes *)

Definition pass_post (ks : list Kind) (p : nat) (r : option Object) : Prop :=
  ∃ o0, K0 !! p = Some o0 ∧ if decide (obj_kind o0 ∈ ks) then made o0 r else r = None.

Definition pass_ok (ks : list Kind) (f : nat → M W (option Object)) : Prop := ∀ p, ens (f p) (pass_post ks p).

Lemma pass_made ks p o m : spec_at p o → obj_kind o ∈ ks → ens m (made_at p) → ens m (pass_post ks p).
Proof.
  intros (o0 & Hk & Hs & _) Hin Hm. eapply ensures_weaken; [done|]. intros r (o1 & Hk' & Hr). rewrite Hk in Hk'. injection Hk' as <-.
  exists o0. rewrite Hs in Hin. by rewrite decide_True.
Qed.

Lemma pass_skipped ks p o : spec_at p o → obj_kind o ∉ ks → ens (mret None) (pass_post ks p).
Proof. intros (o0 & Hk & Hs & _) Hin. apply ensures_ret. exists o0. rewrite Hs in Hin. by rewrite decide_False. Qed.

(** Case analysis on the type of the spec: the types of the list are left. *)
Ltac decided := apply (bool_decide_unpack _); vm_compute; exact I.
Ltac by_kind o :=
  let E := fresh "Ek" in
  match goal with Hk : spec_at _ o |- _ =>
    destruct (obj_kind o) eqn:E;
    first [ eapply pass_skipped; [exact Hk|rewrite E; decided]
          | eapply pass_made; [exact Hk|rewrite E; decided|] ]
  end.

Lemma migration_pass {O} ns (app : AppSpec O) : pass_ok migration_kinds (λ p, createMigrationObjects volumes p ns app).
Proof.
  intros p. eapply ensures_bind; [apply ens_secure|]. intros _ _. ens_step. by_kind x; try made_prim.
  - ens_make.
  - do 2 ens_step. apply ensures_ret. by eapply made_new.
Qed.

Lemma ens_register p ns {O} (app : AppSpec O) what : ens (register_crd p ns app what) (made_at p).
Proof.
  ens_step. destruct Hx as (o0 & Hk & Hs). apply ensures_weaken with (made o0); [|intros r Hr; by exists o0].
  eapply ens_attempt; [apply ens_ran, _|..].
  - intros [] Hr. ens_step. apply ensures_ret. eapply (made_got _ _ None); [done|by left|left; right; by left|by right|done].
  - intros e (w & w' & He). cbv zeta. destruct (IsAlreadyExists e) eqn:Hex; [|apply ensures_throw].
    eapply ensures_attempt; [ens_prim|..]; intros y; [|apply ensures_throw].
    intros Hy. apply ensures_ret. eapply (made_got _ _ None); [done|by left| |by right|done].
    left. right. right. exists e, w, w'. auto.
Qed.

Lemma crd_pass {O} ns (app : AppSpec O) : pass_ok crd_kinds (λ p, createCRDObjects p ns app).
Proof. intros p. ens_step. by_kind x; apply ens_register. Qed.

Lemma restore_pass {O} ns (app : AppSpec O) : pass_ok restore_kinds (λ p, createVolumeSnapshotRestore volumes p ns app).
Proof.
  intros p. eapply ensures_bind; [apply ens_secure|]. intros _ _. ens_step. by_kind x. apply ens_create_new.
Qed.

(** *** Storage *)

Lemma ens_vps f : ens (apply_vps f) (λ _, True).
Proof.
  ens_step. destruct x; [by apply ensures_ret|]. eapply ensures_attempt; [ens_prim|..]; intros; by apply ensures_ret.
Qed.

Lemma ens_strategies key : ens (apply_strategies key) (λ _, True).
Proof.
  eapply (ensures_bind _ _ _ (λ _, True)); [destruct (Contains key "fastpath")|intros _ _; destruct (Contains _ _)];
    by apply ens_vps || apply ensures_ret.
Qed.

Lemma ens_import name ns :
  ens (import_task name ns) (λ r, ∀ o, r = Done o → ∃ e, got KPersistentVolumeClaim name ns o e).
Proof.
  ens_step. destruct x as [pvc err]. eapply ensures_bind; [apply ens_pointer|]. simpl in Hx. intros o Ho. apply Hx in Ho.
  destruct (Annotations o !! _); [case_decide|]; apply ensures_ret; naive_solver.
Qed.

Lemma ens_rule r : ens (CreateAutopilotRule r) (λ _, True).
Proof.
  apply ensures_DoRetry; [|apply kinds_sleep]. apply ensures_weaken with (λ _, True); [|done].
  eapply (ensures_bind _ _ _ (λ _, True)); [by intros w Hw|]. intros l _. ens_step. destruct x as [ru [e|]]; [|by apply ensures_ret].
  cbv zeta. destruct (IsAlreadyExists e); [|by apply ensures_ret].
  eapply ensures_attempt; [ens_prim|..]; intros; by apply ensures_ret.
Qed.

Lemma prepare_claim_keeps ns options o :
  obj_kind (prepare_claim ns options o) = obj_kind o ∧ Path (Spec (prepare_claim ns options o)) = Path (Spec o) ∧
  (obj_Name (prepare_claim ns options o) = obj_Name o ∨
   obj_Name (prepare_claim ns options o) = in_namespace ns (obj_Name o)).
Proof. unfold prepare_claim. cbv zeta. repeat case_match; simpl; auto. Qed.

Lemma same_claim o0 o :
  obj_kind o0 = KPersistentVolumeClaim → same_spec o0 o → renamed (obj_Name o0) (obj_Name o).
Proof. intros Hk (_ & _ & [->|[[_ Hr]|Hc]]); [apply rtc_refl|done|congruence]. Qed.

Lemma prepare_claim_same ns options o0 o :
  obj_kind o0 = KPersistentVolumeClaim → same_spec o0 o → same_spec o0 (prepare_claim ns options o).
Proof.
  intros Hk Hs. pose proof (same_claim o0 o Hk Hs) as Hr. destruct (prepare_claim_keeps ns options o) as (Hk1 & Hp1 & Hn1).
  destruct Hs as (Hk2 & Hp2 & _). split_and!; [congruence..|]. right. left. split; [done|].
  destruct Hn1 as [->| ->]; [done|]. eapply rtc_r; [done|]. by eexists.
Qed.

Lemma sized_claim_unchanged {O} (app : AppSpec O) options o o' :
  sized_claim app options o = Ok o' → unchanged o o' ∧ obj_Namespace o' = obj_Namespace o.
Proof. unfold sized_claim, unchanged. repeat case_match; intros Hs; simplify_eq; by split_and!. Qed.

Definition as_claim (c : Object) : Object := set_Kind "PersistentVolumeClaim" c.

Lemma ens_claim_created {O} (app : AppSpec O) options o0 o sent answer :
  obj_kind o0 = KPersistentVolumeClaim → same_spec o0 sent → obj_Name sent = obj_Name o → obj_Namespace sent = obj_Namespace o →
  (∀ x, answer.1 = Some x → made o0 (Some (as_claim x)) ∧ requested sent) →
  ens (claim_created app options o sent answer) (made o0).
Proof.
  intros Hk Hs Hn Hns Ha. destruct answer as [pvc err]. simpl in Ha. unfold claim_created.
  eapply (ensures_bind _ _ _ (λ r, ∀ x, r.1 = Some x → made o0 (Some (as_claim x)))).
  - destruct (is_cloned o); [|apply ensures_ret; naive_solver].
    eapply ensures_bind; [apply ens_pointer|]. intros c Hc.
    destruct (import_endpoint c); [|apply ensures_ret; naive_solver].
    eapply ensures_bind; [apply ensures_DoRetry; [apply ens_import|apply kinds_sleep]|].
    intros c' [e Hc']. apply ensures_ret. intros x [= <-]. destruct (Ha _ Hc) as [_ Hr].
    eapply (made_got o0 sent (Some "PersistentVolumeClaim") (obj_Namespace o)); [done|right; rewrite Hk; by left|by left|by left|].
    rewrite Hn. destruct Hs as [-> _]. rewrite Hk. exact Hc'.
  - intros [pvc' [e|]] Hx; [apply ensures_throw|].
    eapply ensures_bind; [apply ens_pointer|]. intros c Hc.
    eapply (ensures_bind _ _ _ (λ _, True)).
    + unfold create_rule_for. case_match; [|by apply ensures_ret].
      eapply ensures_bind; [apply ens_rule|]. intros. by apply ensures_ret.
    + intros _ _. apply ensures_ret. by apply (Hx c).
Qed.

Lemma ens_claim p ns {O} (app : AppSpec O) options o0 :
  K0 !! p = Some o0 → obj_kind o0 = KPersistentVolumeClaim → ens (create_claim p ns app options) (made_at p).
Proof.
  intros Hp Hk. apply ensures_weaken with (made o0); [|intros r Hr; by exists o0].
  eapply ensures_bind.
  { apply ens_update_spec. intros o (o1 & Hp1 & Hs). rewrite Hp in Hp1. injection Hp1 as <-. exists o0.
    split; [done|]. by apply prepare_claim_same. }
  intros o (o1 & Hp1 & Hs). rewrite Hp in Hp1. injection Hp1 as <-.
  eapply (ensures_bind _ _ _ (λ x, unchanged o x ∧ obj_Namespace x = obj_Namespace o)).
  { apply ensures_lift. intros x. apply sized_claim_unchanged. }
  intros sent [Hu Hns]. pose proof (same_spec_unchanged _ _ _ Hs Hu) as Hsent. destruct Hu as (_ & Hn & _).
  assert (∀ e : option error, e = None ∨ obj_kind o0 ∈ [KPersistentVolumeClaim; KVirtualMachine]) as He by (intros e; right; rewrite Hk; by left).
  ens_step. destruct x as [pvc err]. simpl in Hx. destruct Hx as [Hrun Hx].
  assert (ens (claim_created app options o sent (pvc, err)) (made o0)) as Hcreated.
  { apply (ens_claim_created _ _ o0); [done..|]. simpl. intros x Hc. apply Hx in Hc. split; [by eapply (made_created _ _ (Some _))|].
    left. by exists x, err. }
  destruct err as [e|]; [|done]. destruct (IsAlreadyExists e) eqn:Hex; [|done].
  assert (requested sent) as Hreq.
  { destruct Hrun as (w & w' & Hrun). right. right. exists e, w, w'. split; [done|]. right. right. by exists pvc. }
  assert (∀ x e, got KPersistentVolumeClaim (obj_Name sent) (obj_Namespace sent) x e → made o0 (Some (as_claim x))) as Hgot.
  { intros x e' Hg. eapply (made_got _ _ (Some "PersistentVolumeClaim") (obj_Namespace sent)); [exact Hsent|apply (He e')|by left|by left|].
    destruct Hsent as [-> _]. rewrite Hk. exact Hg. }
  ens_step. destruct x as [pvc' [e'|]]; simpl in Hx0.
  - apply (ens_claim_created _ _ o0); [done..|]. simpl. intros x Hc. apply Hx0 in Hc. split; [by eapply Hgot|done].
  - eapply ensures_bind; [apply ens_pointer|]. intros c Hc. apply ensures_ret. by eapply Hgot, Hx0.
Qed.

Lemma storage_pass {O} ns (app : AppSpec O) options :
  pass_ok storage_kinds (λ p, createStorageObject volumes p ns app options).
Proof.
  intros p. eapply ensures_bind; [apply ens_secure|]. intros _ _.
  eapply ensures_bind; [apply ens_strategies|]. intros _ _. ens_step. by_kind x; try made_prim.
  - destruct Hx as (o0 & Hp & Hk & _). apply (ens_claim _ _ _ _ o0); congruence.
  - ens_step. ens_step. ens_make.
  - ens_step. eapply ensures_bind; [apply ens_pointer|]. intros _ _. cbv zeta.
    assert (spec_at p (set_ClaimRef (Some (obj_Name ns)) x0)) as Hw by (eapply spec_unchanged; [done|by_unchanged]).
    eapply ensures_bind; [by apply ens_write|]. intros _ _. ens_make.
Qed.

(** *** Workloads *)

Lemma ens_docker name ns : ens (createDockerRegistrySecret name ns) (λ _, True).
Proof.
  unfold createDockerRegistrySecret. case_decide; [by apply ensures_ret|].
  eapply ensures_weaken; [eapply ens_create_or_get; [apply same_spec_refl|by left]|done].
Qed.

Lemma ens_deploy p {O} (app : AppSpec O) options what secretFor kind :
  ens (deploy p app options what secretFor kind) (made_at p).
Proof.
  ens_step. eapply ensures_bind; [eapply ensures_wrap_err, ens_docker|]. intros s _. ens_step. ens_make.
Qed.

Lemma topology_affinity_unchanged options o o' : topology_affinity options o = Ok o' → unchanged o o'.
Proof.
  unfold topology_affinity, unchanged. destruct (TopologyLabels options); [by intros [= ->]|].
  unfold mbind, outcome_bind. by destruct (getAffinity _ _); intros [= <-].
Qed.

Lemma ens_affinity options o : ens (lift (topology_affinity options o)) (λ o', unchanged o o').
Proof. apply ensures_lift, topology_affinity_unchanged. Qed.

Lemma ens_fastpath o : ens (label_fastpath o) (λ _, True).
Proof.
  unfold label_fastpath. destruct (Affinity o) as [[a|]|]; [|by apply ensures_ret..].
  eapply (ensures_bind _ _ _ (λ _, True)); [by apply ensures_lift|]. intros l _.
  case_decide; [|by apply ensures_ret].
  eapply (ensures_bind _ _ _ (λ _, True)).
  { eapply ensures_bind; [apply ens_kept, _|]. intros. by apply ensures_ret. }
  intros nodes _. eapply (ensures_bind _ _ _ (λ _, True)); [by apply ensures_lift|]. intros n _.
  eapply ensures_attempt; [eapply ensures_wrap_err, ens_kept, _|..]; intros; by apply ensures_ret.
Qed.

Lemma ens_vault o : ens (createVaultSecret o) (λ _, True).
Proof. do 3 ens_step. ens_prim. Qed.

Lemma core_pass {O} ns (app : AppSpec O) options : pass_ok core_kinds (λ p, createCoreObject volumes p ns app options).
Proof.
  intros p. ens_step. by_kind x; try made_prim.
  - ens_step. eapply ensures_bind; [apply ens_affinity|]. intros o' Ho'.
    eapply ensures_bind; [eapply ens_write, spec_unchanged; done|]. intros _ _.
    eapply ensures_bind; [apply ens_fastpath|]. intros _ _. apply ens_deploy.
  - eapply ensures_bind; [apply ens_secure|]. intros _ _. ens_step.
    eapply ensures_bind; [apply ens_affinity|]. intros o' Ho'.
    eapply ensures_bind.
    { eapply ens_write, spec_unchanged; [eapply spec_unchanged; done|by_unchanged]. }
    intros _ _. apply ens_deploy.
  - ens_step. ens_step. eapply (ensures_bind _ _ _ (λ _, True)).
    { case_decide; [apply ens_vault|by apply ensures_ret]. }
    intros _ _. ens_make.
  - ens_step. eapply ensures_bind; [eapply ensures_wrap_err, ens_docker|]. intros s _. ens_step. ens_make.
Qed.

(** *** The other passes *)

Lemma tekton_pass {O} ns (app : AppSpec O) : pass_ok tekton_kinds (λ p, createTektonObjects p ns app).
Proof. intros p. ens_step. by_kind x; made_prim. Qed.

Lemma rbac_pass {O} ns (app : AppSpec O) : pass_ok rbac_kinds (λ p, createRbacObjects p ns app).
Proof.
  intros p. ens_step. by_kind x; try made_prim; ens_step; ens_make.
Qed.

Lemma backup_pass {O} ns (app : AppSpec O) : pass_ok backup_kinds (λ p, createBackupObjects p ns app).
Proof.
  intros p. ens_step. by_kind x; try made_prim. ens_step. apply ensures_ret. by eapply made_new.
Qed.

Lemma networking_pass {O} ns (app : AppSpec O) : pass_ok networking_kinds (λ p, createNetworkingObjects p ns app).
Proof. intros p. ens_step. by_kind x; made_prim. Qed.

Lemma batch_pass {O} ns (app : AppSpec O) : pass_ok batch_kinds (λ p, createBatchObjects p ns app).
Proof. intros p. ens_step. by_kind x; made_prim. Qed.

Lemma monitor_pass {O} ns (app : AppSpec O) : pass_ok monitor_kinds (λ p, createServiceMonitorObjects p ns app).
Proof. intros p. ens_step. by_kind x; made_prim. Qed.

Lemma budget_pass {O} ns (app : AppSpec O) : pass_ok budget_kinds (λ p, createPodDisruptionBudgetObjects p ns app).
Proof. intros p. ens_step. by_kind x; made_prim. Qed.

Lemma webhook_pass {O} ns (app : AppSpec O) :
  pass_ok webhook_kinds (λ p, createAdmissionRegistrationObjects volumes p ns app).
Proof.
  intros p. eapply ensures_bind; [apply ens_secure|]. intros _ _. ens_step. case_decide as Hk.
  - eapply pass_made; [exact Hx|unfold webhook_kinds; set_solver|].
    ens_step. eapply (ensures_bind _ _ _ (λ _, True)); [by apply ensures_lift|]. intros hooks _. ens_step. ens_make.
  - eapply pass_skipped; [exact Hx|unfold webhook_kinds; set_solver].
Qed.

Lemma custom_pass {O} ns (app : AppSpec O) : pass_ok custom_kinds (λ p, createCustomResourceObjects p ns app).
Proof.
  intros p. ens_step. by_kind x. cbv zeta. ens_step. destruct x0; [apply ensures_throw|].
  eapply ensures_bind; [eapply ensures_wrap_err, ens_ran, _|]. intros [] Happ.
  destruct Hx as (o0 & Hp & Hk & Hpath & _). rewrite Ek in Hk.
  eapply ensures_bind.
  { apply ens_update_spec. intros o (o1 & Hp1 & Hk1 & Hpath1 & _). rewrite Hp in Hp1. injection Hp1 as <-.
    exists o0. split_and!; [done|]. split_and!; [done..|]. right. by right. }
  intros o' (o1 & Hp1 & Hk1 & _). rewrite Hp in Hp1. injection Hp1 as <-.
  apply ensures_ret. exists o0. split; [done|]. exists o'. split; [done|]. split; [done|]. right. left.
  split; [done|]. rewrite <- Hpath. by exists (obj_Name ns).
Qed.

(** *** Virtual machines *)

Lemma ens_loop {A} (body : A → M W unit) l :
  (∀ x, ens (body x) (λ _, True)) → ens (for_each body l) (λ _, True).
Proof. intros Hb. apply ensures_any, preserves_for_each. intros x. by eapply ensures_preserves. Qed.

Lemma ens_image vmName ns v : ens (WaitForImageImportForVM vmName ns v) (λ _, True).
Proof.
  destruct v as [pvcName|]; [|by apply ensures_ret]. ens_step. destruct (import_endpoint x); [|by apply ensures_ret].
  eapply (ensures_bind _ _ _ (λ _, True)); [|by intros; apply ensures_ret].
  apply ensures_DoRetry; [|apply kinds_sleep]. apply ensures_weaken with (λ _, True); [|done].
  ens_step. destruct x0 as [pvc err]. eapply ensures_bind; [apply ens_pointer|]. intros o _.
  destruct (Annotations o !! _); [case_decide|]; by apply ensures_ret.
Qed.

Lemma ens_clone ns pvcName : ens (WaitForCloneToSucceed ns pvcName) (λ _, True).
Proof.
  apply ensures_DoRetry; [|apply kinds_sleep]. apply ensures_weaken with (λ _, True); [|done].
  eapply ensures_attempt; [ens_prim|..]; intros; [case_decide|]; by apply ensures_ret.
Qed.

(** What the variable of the machine holds: an answer of the cluster, or nothing after the
    last look *)
Definition vm_inv (o0 : Object) (wl : W * option Object) : Prop :=
  kinds_are wl.1 ∧ made o0 (Some (default (new_object KVirtualMachine "" "" None) wl.2)).

Lemma preserves_vm_ready o0 o :
  obj_kind o0 = KVirtualMachine → same_spec o0 o →
  preserves (vm_inv o0) (vm_ready_task (obj_Name o) (obj_Namespace o)).
Proof.
  intros Hk Hs [w l] [Hw Hl]. unfold vm_ready_task, mbind, M_bind. rewrite up_eq. simpl.
  destruct (ens_client_Get KVirtualMachine (obj_Name o) (obj_Namespace o) w Hw) as [Hw1 Hg].
  destruct (client_Get KVirtualMachine (obj_Name o) (obj_Namespace o) w) as [[[x e]|e|s|] w1] eqn:E; simpl in *; [|by split..].
  assert (vm_inv o0 (w1, x)) as Hinv.
  { split; [done|]. destruct x as [m|]; simpl.
    - eapply (made_got _ _ None); [done|right; rewrite Hk; by right; left|by right|by left|].
      destruct Hs as [-> _]. rewrite Hk. by apply (Hg (Some m, e)).
    - eexists. split; [done|]. split; [by rewrite Hk|]. right. right. split_and!; [done..|]. by exists o, e, w, w1. }
  destruct e; [done|]. destruct x as [m|]; simpl; [|done]. by destruct (vm_Ready _).
Qed.

Lemma ens_wait_vm o0 o m :
  obj_kind o0 = KVirtualMachine → same_spec o0 o → made o0 (Some m) → ens (wait_vm o m) (made o0).
Proof.
  intros Hk Hs Hm. eapply (ensures_bind _ _ _ (λ r, made o0 (Some (default (new_object KVirtualMachine "" "" None) r.2)))).
  - intros w Hw. unfold with_local. set (t := attempt _ _).
    assert (preserves (vm_inv o0) t) as Ht.
    { apply preserves_attempt; [|by intros r wl Hwl]. apply preserves_DoRetry; [by apply preserves_vm_ready|].
      intros d [w1 l] [Hw1 Hl]. split; [by apply kinds_sleep|done]. }
    assert (vm_inv o0 (w, Some m)) as Hinv by (by split).
    specialize (Ht _ Hinv) as [Hw1 Hl]. destruct (t (w, Some m)) as [[[]|e|s|] [w1 l]]; simpl in *; [|done..].
    split; [done|]. intros [? ?] [= <- <-]. done.
  - intros [u x] Hx. by apply ensures_ret.
Qed.

Lemma ens_cloned_vm p ns {O} (app : AppSpec O) o0 :
  K0 !! p = Some o0 → obj_kind o0 = KVirtualMachine → ens (create_cloned_vm p ns app) (made_at p).
Proof.
  intros Hp Hk. apply ensures_weaken with (made o0); [|intros r Hr; by exists o0].
  eapply ensures_bind; [apply ens_update, unless_system_unchanged|]. intros o (o1 & Hp1 & Hs).
  rewrite Hp in Hp1. injection Hp1 as <-. cbv zeta.
  eapply (ensures_bind _ _ _ (λ _, True)); [apply ens_kept, _|]. intros [u err] _.
  assert (∀ m, got KVirtualMachine (obj_Name o) (obj_Namespace o) m None → made o0 (Some m)) as Hgot.
  { intros m Hm. eapply (made_got _ _ None); [done|by left|by right|by left|]. destruct Hs as [-> _]. by rewrite Hk. }
  assert (ens (_ ← for_each (WaitForCloneToSucceed (obj_Name ns)) (DataVolumeTemplates (vm (Spec o)));
    _ ← pause (30 * Second);
    m ← wrap_err (λ err, Errorf ("failed to retrieve VM after creating/waiting for DataVolumes: " +:+ Error err))
          (get_object KVirtualMachine (obj_Name o) (obj_Namespace o));
    wait_vm o m) (made o0)) as Hwait.
  { eapply ensures_bind; [apply ens_loop; intros; apply ens_clone|]. intros _ _.
    eapply (ensures_bind _ _ _ (λ _, True)); [by intros w Hw; split; [apply kinds_sleep|]|]. intros _ _.
    ens_step. apply ens_wait_vm; [done..|by apply Hgot]. }
  destruct err as [e|]; [|exact Hwait]. destruct (IsAlreadyExists e); [|exact Hwait].
  eapply ensures_attempt; [ens_prim|..]; [|intros; exact Hwait].
  intros m Hm. by apply ensures_ret, Hgot.
Qed.

Lemma machine_pass {O} ns (app : AppSpec O) : pass_ok machine_kinds (λ p, createVirtualMachineObjects p ns app).
Proof.
  intros p. ens_step. by_kind x. destruct (is_cloned x).
  - destruct Hx as (o0 & Hp & Hk & _). apply (ens_cloned_vm _ _ _ o0); congruence.
  - eapply ensures_bind; [apply ens_pointer|]. intros vols _.
    eapply ensures_bind; [apply ens_loop; intros; apply ens_image|]. intros _ _. made_prim.
Qed.

(** ** All the passes *)

Lemma ens_create_each ks f ps :
  pass_ok ks f → ens (create_each f ps) (λ l, Forall2 made_of (handled_by ks K0 ps) l).
Proof.
  intros Hf. induction ps as [|p ps IH]; simpl; [by apply ensures_ret|].
  eapply (ensures_bind _ _ _ (pass_post ks p)).
  { apply ensures_DoRetry; [|apply kinds_sleep].
    eapply ensures_attempt; [apply Hf|..]; intros; apply ensures_ret; naive_solver. }
  intros r (k & Hk & Hr). eapply ensures_bind; [exact IH|]. intros rest Hrest. apply ensures_ret.
  unfold handled_by in *. simpl. rewrite Hk. simpl. case_decide.
  - destruct Hr as (x & -> & Hr). by constructor.
  - by subst r.
Qed.

Lemma passes_ok {O} ns (app : AppSpec O) options : Forall2 pass_ok pass_kinds (create_passes volumes ns app options).
Proof.
  constructor; [apply migration_pass|].
  constructor; [apply crd_pass|].
  constructor; [apply restore_pass|].
  constructor; [apply storage_pass|].
  constructor; [apply tekton_pass|].
  constructor; [apply rbac_pass|].
  constructor; [apply core_pass|].
  constructor; [apply backup_pass|].
  constructor; [apply networking_pass|].
  constructor; [apply batch_pass|].
  constructor; [apply monitor_pass|].
  constructor; [apply budget_pass|].
  constructor; [apply webhook_pass|].
  constructor; [apply custom_pass|].
  constructor; [apply machine_pass|].
  constructor.
Qed.

Lemma ens_run_passes kss fs ps :
  Forall2 pass_ok kss fs →
  ens (run_passes fs ps) (λ l, Forall2 made_of (concat ((λ ks, handled_by ks K0 ps) <$> kss)) l).
Proof.
  induction 1 as [|ks f kss fs Hf _ IH]; simpl; [by apply ensures_ret|].
  eapply ensures_bind; [by apply ens_create_each|]. intros l Hl. eapply ensures_bind; [exact IH|]. intros rest Hrest.
  apply ensures_ret. by apply Forall2_app.
Qed.

Lemma ens_namespace {O} (app : AppSpec O) ns options : ens (createNamespace app ns options) (λ _, True).
Proof.
  apply ensures_DoRetry; [|apply kinds_sleep]. apply ensures_weaken with (λ _, True); [|done].
  eapply (ensures_bind _ _ _ (λ _, True)).
  { intros w Hw. split; [|done]. unfold kinds_are. simpl. by rewrite sched_set_k8s. }
  intros _ _. eapply (ensures_bind _ _ _ (λ _, True)); [by intros w Hw|]. intros l _. cbv zeta.
  eapply ensures_attempt; [ens_prim|by intros; apply ensures_ret|]. intros e.
  destruct (IsAlreadyExists e); [|by apply ensures_ret].
  eapply ensures_attempt; [ens_prim|..]; intros; by apply ensures_ret.
Qed.

Lemma ens_CreateSpecObjects app ns options :
  ens (CreateSpecObjects volumes app ns options)
    (λ l, Forall2 made_of (concat ((λ ks, handled_by ks K0 (SpecList app)) <$> pass_kinds)) l).
Proof.
  eapply ensures_bind; [apply ens_namespace|]. intros n _. apply ens_run_passes, passes_ok.
Qed.

(** ** Charts *)

Lemma ens_need_settings : ens need_settings (λ _, True).
Proof. by intros w Hw. Qed.

Lemma ens_new_settings : ens new_settings (λ _, True).
Proof. intros w Hw. split; [|done]. unfold kinds_are, new_settings in *. simpl. by rewrite sched_set_sched. Qed.

Lemma ens_SetHelmParams key p options : ens (SetHelmParams key p options) (λ _, True).
Proof.
  do 2 ens_step. destruct (helm_params _ _ _ _) as [r h].
  eapply ensures_bind; [eapply ens_write, spec_unchanged; [done|by_unchanged]|]. intros _ _. by apply ensures_lift.
Qed.

Lemma ens_with_lock {A} locked (m : M W A) : ens m (λ _, True) → ens (with_lock locked m) (λ _, True).
Proof.
  intros Hm w Hw. split; [|done]. destruct (Hm w Hw) as [Hw1 _]. unfold with_lock.
  destruct (m w) as [[a|e|s|] w1]; simpl in *; [..|done|]; destruct locked; simpl; try done; by apply preserves_kept; [apply _|].
Qed.

Lemma ens_RepoAdd h : ens (RepoAdd h) (λ _, True).
Proof.
  eapply ensures_bind; [apply ens_need_settings|]. intros _ _.
  eapply (ensures_bind _ _ _ (λ _, True)).
  { eapply ensures_attempt; [ens_prim|by intros; apply ensures_ret|]. intros e.
    destruct (os_IsExist e); [by apply ensures_ret|apply ensures_throw]. }
  intros _ _. ens_step. apply ens_with_lock. eapply (ensures_bind _ _ _ (λ _, True)).
  { eapply ensures_attempt; [ens_prim|by intros; apply ensures_ret|]. intros e.
    destruct (os_IsNotExist e); [by apply ensures_ret|apply ensures_throw]. }
  intros b _. eapply (ensures_bind _ _ _ (λ _, True)); [by apply ensures_lift|]. intros f _.
  case_decide; [by apply ensures_ret|]. cbv zeta. do 2 ens_step. ens_prim.
Qed.

Lemma ens_RepoUpdate : ens RepoUpdate (λ _, True).
Proof.
  eapply ensures_bind; [apply ens_need_settings|]. intros _ _. ens_step. destruct x as [repos err].
  case_decide; [apply ensures_throw|]. eapply ensures_bind; [apply ens_loop; intros; ens_prim|]. intros _ _.
  apply ens_loop. intros re. eapply ensures_attempt; [ens_prim|..]; intros; by apply ensures_ret.
Qed.

Lemma ens_installable c : ens (check_installable c) (λ _, True).
Proof.
  unfold check_installable. destruct (isChartInstallable c) as [[] [e|]]; first [by apply ensures_ret|apply ensures_throw].
Qed.

Lemma ens_values h : ens (lift (parsed_values h)) (λ _, True).
Proof. by apply ensures_lift. Qed.

Lemma ens_InstallChart ns h : ens (InstallChart ns h) (λ _, True).
Proof.
  eapply ensures_bind; [apply ens_need_settings|]. intros _ _. do 2 ens_step.
  eapply ensures_bind; [apply ens_values|]. intros v _. ens_step.
  eapply ensures_bind; [apply ens_installable|]. intros _ _.
  eapply (ensures_bind _ _ _ (λ _, True)); [case_match; by first [apply ensures_lift|apply ensures_ret]|].
  intros _ _. ens_prim.
Qed.

Lemma ens_UpgradeChart ns h : ens (UpgradeChart ns h) (λ _, True).
Proof.
  eapply ensures_bind; [apply ens_need_settings|]. intros _ _. do 2 ens_step.
  eapply ensures_bind; [apply ens_values|]. intros v _. eapply (ensures_bind _ _ _ (λ _, True)).
  { apply ensures_wrap_err. eapply ensures_bind; [apply ens_need_settings|]. intros _ _. ens_step. ens_prim. }
  intros ev _. ens_step. eapply ensures_bind; [apply ens_installable|]. intros _ _. ens_prim.
Qed.

(** The objects of a chart come from a manifest. *)
Lemma ens_helm_one app ns options p :
  ens (helm_one app ns options p) (Forall (λ o, supported (obj_kind o))).
Proof.
  ens_step. destruct (obj_kind x) eqn:E; try by apply ensures_ret.
  eapply ensures_bind; [apply ens_SetHelmParams|]. intros _ _.
  eapply ensures_bind; [apply ens_new_settings|]. intros _ _. ens_step.
  eapply ensures_bind; [apply ens_RepoAdd|]. intros _ _. eapply ensures_bind; [apply ens_RepoUpdate|]. intros _ _.
  eapply ensures_bind; [apply ens_namespace|]. intros _ _. ens_step.
  eapply (ensures_bind _ _ _ (λ _, True)).
  { destruct (Upgrade options); [apply ens_UpgradeChart|apply ens_InstallChart]. }
  intros manifest _. apply ensures_lift. intros l. apply parse_documents_Ok.
Qed.

Lemma ens_HelmSchedule app ns options :
  ens (HelmSchedule app ns options) (Forall (λ o, supported (obj_kind o))).
Proof.
  unfold HelmSchedule. induction (SpecList app) as [|p ps IH]; simpl; [apply ensures_ret; constructor|].
  eapply ensures_bind; [apply ens_helm_one|]. intros l Hl. eapply ensures_bind; [exact IH|]. intros rest Hrest.
  apply ensures_ret. by apply Forall_app.
Qed.

(** ** Scheduling *)

Lemma handled_by_in ks ps o : o ∈ handled_by ks K0 ps → obj_kind o ∈ ks.
Proof.
  unfold handled_by. rewrite list_elem_of_omap. intros (p & _ & Hp).
  destruct (K0 !! p); simpl in Hp; [|done]. by case_decide; simplify_eq.
Qed.

Definition in_namespace_of (options : ScheduleOptions) (instanceID : string) (app : AppSpec nat) : string :=
  if decide (opt_Namespace options = "") then GetID app instanceID else opt_Namespace options.

(** The [i]-th context of a schedule *)
Definition describes (instanceID : string) (options : ScheduleOptions) (i : nat) (app : AppSpec nat) (ctx : Context) : Prop :=
  UID ctx = instanceID ∧ Key (App ctx) = Key app ∧
  opt_Namespace (ScheduleOpts ctx) = in_namespace_of options instanceID app ∧
  TopologyLabels (ScheduleOpts ctx) = Nat.iter (S i) rotate (TopologyLabels options) ∧
  Forall (λ o, obj_kind o ∈ concat pass_kinds ∨ supported (obj_kind o)) (SpecList (App ctx)).

Lemma created_kinds (l : list Object) ps :
  Forall2 made_of (concat ((λ ks, handled_by ks K0 ps) <$> pass_kinds)) l →
  Forall (λ o, obj_kind o ∈ concat pass_kinds) l.
Proof.
  intros Hl. apply Forall_forall. intros x Hx. apply list_elem_of_lookup in Hx as [i Hx].
  destruct (Forall2_lookup_r _ _ _ _ _ Hl Hx) as (o0 & Hin%list_elem_of_lookup_2 & [-> _]).
  apply list_elem_of_In, in_concat in Hin as (k & Hk & Hin). apply list_elem_of_In, list_elem_of_fmap in Hk as (ks & -> & Hks).
  apply list_elem_of_In, handled_by_in in Hin. apply list_elem_of_In, in_concat. exists ks.
  split; by apply list_elem_of_In.
Qed.

Lemma ens_schedule_apps custom instanceID apps options :
  ens (schedule_apps volumes custom instanceID (opt_Namespace options) apps options)
    (λ ctxs, length ctxs = length apps ∧
       ∀ i app ctx, apps !! i = Some app → ctxs !! i = Some ctx → describes instanceID options i app ctx).
Proof.
  remember (opt_Namespace options) as old eqn:Hold. revert options Hold.
  induction apps as [|app apps IH]; intros options ->; simpl; [by apply ensures_ret|].
  eapply ensures_bind; [apply ens_CreateSpecObjects|]. intros l Hl.
  eapply ensures_bind; [apply ens_HelmSchedule|]. intros h Hh.
  eapply ensures_bind; [by apply IH|]. intros rest [Hlen Hrest]. apply ensures_ret. split; [simpl; lia|].
  intros [|i] app' ctx Happ Hctx; simpl in *; simplify_eq.
  - split_and!; try done. simpl. apply Forall_app. split.
    + eapply Forall_impl; [exact (created_kinds _ _ Hl)|]. intros o Ho. by left.
    + eapply Forall_impl; [exact Hh|]. intros o Ho. by right.
  - destruct (Hrest i app' ctx Happ Hctx) as (? & ? & ? & Ht & ?). split_and!; try done.
    rewrite Ht. symmetry. apply (Nat.iter_succ_r (S i)).
Qed.

Lemma kinds_with_factory {A} (m : M (gmap string (AppSpec nat)) A) : preserves kinds_are (with_factory m).
Proof.
  intros w Hw. unfold with_factory. destruct (m (appSpecFactory (sched w))) as [r apps]. unfold kinds_are. simpl.
  by rewrite sched_set_sched.
Qed.
End create_theorems.

(** ** Theorems *)

(** The types that are accepted in spec files and never created *)
Definition skipped_kinds : list Kind :=
  [KDaemonSet; KAutopilotRule; KLimitRange; KPrometheus; KPrometheusRule; KNamespace; KValidatingWebhookConfigurationList].

(** No type is handled by two passes, and the types that [validateSpec] accepts and no
    pass creates are the seven listed, daemon sets among them. *)
Theorem pass_kinds_spec :
  NoDup (concat pass_kinds) ∧
  ∀ k, supported k ∧ k ∉ concat pass_kinds ↔ k ∈ skipped_kinds.
Proof.
  split; [apply (bool_decide_unpack _); vm_compute; exact I|]. intros k. split.
  - intros [(o & <- & Hv) Hn]. unfold validateSpec in Hv.
    destruct (obj_kind o); try done;
      first [ apply (bool_decide_unpack _); vm_compute; exact I
            | exfalso; apply Hn, (bool_decide_unpack _); vm_compute; exact I ].
  - intros Hk. unfold skipped_kinds in Hk. rewrite !elem_of_cons, elem_of_nil in Hk.
    destruct Hk as [->|[->|[->|[->|[->|[->|[->|[]]]]]]]];
      (split; [|apply (bool_decide_unpack _); vm_compute; exact I]).
    all: match goal with |- supported ?k => by exists (new_object k "" "" None) end.
Qed.

Section create_results.
Context {W : Type} `{PxWorldLaws W} `{!K8sWorld W} `{!K8sWorldLaws W} `{!SchedWorld W} `{!SchedLaws W}.
Context `{!K8sClient W} `{SpecFiles} `{!HelmLib W} `{!K8sCreateApi W}.
Context `{!K8sNodeApi W} `{!NodeDriver W} `{!K8sCore W} `{!CreateFrame W} `{!ClusterKinds W}.
Context (volumes : VolumePackage).

Definition spec_kinds (w : W) : gmap nat Kind := obj_kind <$> specs (sched w).

(** C7. When [CreateSpecObjects] succeeds it returns one object for every spec of a type a
    pass handles, ordered by the passes - migrations and definitions first, storage before
    workloads, custom resources and machines last - and within a pass by the spec list;
    specs of other types are skipped without an error.  The object of a spec is what the
    cluster answered to the create of that spec, or to a get of its type and name after a
    create that found it there (for definitions after they were registered, for cloned
    claims after the import); for a custom resource its file was applied, and for machines
    on cloned volumes the last look counts, whatever the create said.  Type, path and name
    of the specs stay, but for claims that are renamed for their namespace and the
    placeholder names of custom resources. *)
Theorem CreateSpecObjects_order app ns options w l w' :
  CreateSpecObjects volumes app ns options w = (Ok l, w') →
  Forall2 made_of (concat ((λ ks, handled_by ks (specs (sched w)) (SpecList app)) <$> pass_kinds)) l ∧
  same_specs (specs (sched w)) (specs (sched w')).
Proof.
  intros Hc. destruct (ens_CreateSpecObjects volumes (specs (sched w)) app ns options w (same_specs_refl _)) as [Hw Hl].
  rewrite Hc in Hw, Hl. split; [by apply Hl|done].
Qed.

Context `{!SpecSource (O := nat)}.

(** The applications of the keys, as the factory has them *)
Lemma get_apps_Ok options keys w apps w' :
  get_apps options keys w = (Ok apps, w') →
  spec_kinds w' = spec_kinds w ∧ appSpecFactory (sched w') = appSpecFactory (sched w) ∧
  Forall2 (λ key app, ∃ d, appSpecFactory (sched w) !! key = Some d ∧ Enabled d = true ∧
             Key app = Key d ∧ SpecList app = SpecList d ∧ IsCSI app = isCsiApp options key) keys apps.
Proof.
  revert w apps w'. induction keys as [|key keys IH]; intros w apps w'; simpl.
  - unfold mret, M_ret. intros ?; simplify_eq. by split_and!.
  - intros (app & w1 & Hg & (rest & w2 & Hr & Hk)%bind_Ok_inv)%bind_Ok_inv.
    unfold with_factory, SpecFactory.Get in Hg.
    destruct (appSpecFactory (sched w) !! key) as [d|] eqn:Hd; [|done].
    destruct (Enabled d) eqn:He; [|done]. injection Hg as <- <-.
    unfold mret, M_ret in Hk. injection Hk as <- <-.
    apply IH in Hr as (Hk1 & Hf1 & Hall). unfold spec_kinds in *. rewrite sched_set_sched in Hk1, Hf1, Hall.
    simpl in *. split_and!; [done..|]. constructor; [|done].
    exists d. by destruct (isCsiApp options key).
Qed.

(** C26. [Schedule] of a list of keys makes one context for each, in order: of the
    application registered under the key, in the namespace of the options or one
    named after the application and the instance, with the topology labels rotated
    once more for each; its objects were created by a pass or come from the
    manifest of a chart. *)
Theorem Schedule_contexts instanceID options w ctxs w' :
  AppKeys options ≠ [] →
  Schedule volumes instanceID options w = (Ok ctxs, w') →
  length ctxs = length (AppKeys options) ∧
  ∀ i key ctx, AppKeys options !! i = Some key → ctxs !! i = Some ctx →
    ∃ d, appSpecFactory (sched w) !! key = Some d ∧ Enabled d = true ∧
      UID ctx = instanceID ∧ Key (App ctx) = Key d ∧
      opt_Namespace (ScheduleOpts ctx) =
        (if decide (opt_Namespace options = "") then Key d +:+ "-" +:+ instanceID else opt_Namespace options) ∧
      TopologyLabels (ScheduleOpts ctx) = Nat.iter (S i) rotate (TopologyLabels options) ∧
      Forall (λ o, obj_kind o ∈ concat pass_kinds ∨ supported (obj_kind o)) (SpecList (App ctx)).
Proof.
  intros Hne. unfold Schedule. rewrite decide_False by done. intros (apps & w1 & Hg & Hs)%bind_Ok_inv.
  apply get_apps_Ok in Hg as (Hk & _ & Hall).
  destruct (ens_schedule_apps volumes (specs (sched w1)) false instanceID apps options w1 (same_specs_refl _)) as [_ Hq].
  rewrite Hs in Hq. destruct (Hq ctxs eq_refl) as [Hlen Hi].
  split; [by rewrite Hlen, <- (Forall2_length _ _ _ Hall)|]. intros i key ctx Hkey Hctx.
  destruct (Forall2_lookup_l _ _ _ _ _ Hall Hkey) as (app & Happ & d & Hd & He & HK & HS & _).
  destruct (Hi i app ctx Happ Hctx) as (? & HKey & Hns & ? & ?).
  exists d. split_and!; try done; [by rewrite HKey|]. rewrite Hns. unfold in_namespace_of, GetID. by rewrite HK.
Qed.

(** The charts of an application are not among the objects of its contexts, so a
    later [Destroy] of such a context finds no chart to uninstall. *)
Theorem Schedule_no_charts instanceID options w ctxs w' ctx o :
  AppKeys options ≠ [] →
  Schedule volumes instanceID options w = (Ok ctxs, w') →
  ctx ∈ ctxs → o ∈ SpecList (App ctx) → obj_kind o ≠ KHelmRepo.
Proof.
  intros Hne. unfold Schedule. rewrite decide_False by done. intros (apps & w1 & Hg & Hs)%bind_Ok_inv Hctx Ho.
  destruct (ens_schedule_apps volumes (specs (sched w1)) false instanceID apps options w1 (same_specs_refl _)) as [_ Hq].
  rewrite Hs in Hq. destruct (Hq ctxs eq_refl) as [Hlen Hi].
  apply list_elem_of_lookup in Hctx as [i Hctx].
  destruct (lookup_lt_is_Some_2 apps i) as [app Happ]; [rewrite <- Hlen; by eapply lookup_lt_Some|].
  destruct (Hi i app ctx Happ Hctx) as (_ & _ & _ & _ & Hall). rewrite Forall_forall in Hall.
  destruct (Hall o Ho) as [Hin|Hin]; [|by apply supported_no_helm].
  intros Heq. rewrite Heq in Hin. revert Hin. apply (bool_decide_unpack _). vm_compute. exact I.
Qed.

(** *** The name of a claim *)

Lemma prepare_claim_name ns options o :
  Annotations o !! "pvc.source" = None →
  obj_Name (prepare_claim ns options o) = in_namespace ns (obj_Name o) ∧
  obj_Namespace (prepare_claim ns options o) = ns ∧
  Annotations (prepare_claim ns options o) !! "pvc.source" = None.
Proof.
  intros Ha. unfold prepare_claim, is_cloned. rewrite bool_decide_eq_false_2 by (by rewrite Ha). cbv zeta.
  assert (Annotations (substituteNamespaceInPVC ns (set_Namespace ns o)) !! "pvc.source" = None) as Ha1.
  { simpl. by rewrite lookup_fmap, Ha. }
  repeat case_match; simpl; split_and!; try done; rewrite lookup_union_r by done; done.
Qed.

Lemma preserves_sched {A} (m : M W A) (P : SchedState → Prop) : KeepsSched m → preserves (λ w, P (sched w)) m.
Proof. intros Hm w. by rewrite (keeps_sched (m := m)). Qed.

(** After its spec is prepared, nothing in the creation of a claim writes specs. *)
Lemma preserves_claim_sent p o1 {O} (app : AppSpec O) options o :
  preserves (λ w, specs (sched w) !! p = Some o1) (
    sent ← lift (sized_claim app options o);
    '(pvc, err) ← client_Create sent;
    match err with
    | Some e =>
        if IsAlreadyExists e then
          '(pvc', err') ← client_Get KPersistentVolumeClaim (obj_Name sent) (obj_Namespace sent);
          match err' with
          | None => c ← lift (deref pvc'); mret (Some (set_Kind "PersistentVolumeClaim" c))
          | Some _ => claim_created app options o sent (pvc', err')
          end
        else claim_created app options o sent (pvc, err)
    | None => claim_created app options o sent (pvc, err)
    end).
Proof.
  set (I := λ w, specs (sched w) !! p = Some o1).
  assert (∀ {A} (m : M W A), KeepsSched m → preserves I m) as Hk.
  { intros A m. apply (preserves_sched m (λ s, specs s !! p = Some o1)). }
  assert (∀ d w, I w → I (sleep d w)) as Hs by (intros d w; unfold I; by rewrite sched_sleep).
  assert (∀ sent answer, preserves I (claim_created app options o sent answer)) as Hc.
  { intros sent [pvc err]. unfold claim_created, create_rule_for, CreateAutopilotRule, import_task, autopilot_rule_task.
    preserve; try (by apply Hk, _). by intros w Hw. }
  preserve; try (by apply Hk, _).
Qed.

(** The placeholder of the namespace in the name of a claim is replaced in the spec the
    factory keeps: once the claim was created for one namespace, every other
    namespace gets a claim named after the first. *)
Theorem claim_name_sticks p ns1 {O} (app : AppSpec O) options w r w1 o :
  specs (sched w) !! p = Some o →
  Annotations o !! "pvc.source" = None →
  Contains (in_namespace (obj_Name ns1) (obj_Name o)) "_NAMESPACE_" = false →
  create_claim p ns1 app options w = (r, w1) →
  ∃ o1, specs (sched w1) !! p = Some o1 ∧
    ∀ ns2 options2, obj_Namespace (prepare_claim ns2 options2 o1) = ns2 ∧
      obj_Name (prepare_claim ns2 options2 o1) = in_namespace (obj_Name ns1) (obj_Name o).
Proof.
  intros Hp Ha Hn Hc. destruct (prepare_claim_name (obj_Name ns1) options o Ha) as (Hname & Hns & Ha1).
  exists (prepare_claim (obj_Name ns1) options o). split.
  - unfold create_claim, update_spec in Hc. rewrite bind_assoc in Hc.
    unfold mbind at 1, M_bind at 1 in Hc. unfold read_spec in Hc. rewrite Hp in Hc. simpl in Hc.
    rewrite bind_assoc in Hc. unfold mbind at 1, M_bind at 1 in Hc. unfold write_spec at 1 in Hc.
    match type of Hc with (?m ?w0) = _ => pose proof (preserves_claim_sent p (prepare_claim (obj_Name ns1) options o)
      app options (prepare_claim (obj_Name ns1) options o) w0) as Hpres end.
    rewrite <- (f_equal snd Hc : _ = w1). apply Hpres.
    unfold set_specs. rewrite sched_set_sched. simpl. by rewrite lookup_insert_eq.
  - intros ns2 options2. destruct (prepare_claim_name ns2 options2 _ Ha1) as (Hname2 & Hns2 & _).
    split; [done|]. rewrite Hname2, Hname. by apply ReplaceAll_absent.
Qed.
End create_results.
