(* ===== verification/K8sApps.v ===== *)
(** drivers/scheduler/k8s/k8s.go: what the driver does with a running
    application - waiting until it runs or is gone, its pods and the nodes they
    run on, deleting its pods, scaling it, and checking its topology. *)

From S2P Require Import Prelude GoStrings Errors Effects Task NodeRegistry SpecFactory PxDriver K8sObjects VolumeDrivers K8sNodes.

(** ** Interfaces *)

(** The calls about applications and pods.  [ValidateCustom] is the call that waits
    for an object of the types of stork, kubevirt, networking and batch that have
    one; the accessors of the PDS client's deployments come first, and
    [range_pods] is Go's order of a map of pods. *)
Class K8sAppsApi (W : Type) := {
  ClusterResourceName : Object → string;
  pds_Namespace : Object → option string;
  show_pds_Name : Object → string;
  GetDeploymentPods : Object → M W (list Pod);
  GetStatefulSetPods : Object → M W (list Pod);
  GetPodByUID : string → string → M W (option Pod);
  GetPods : string → M W (list Pod);
  IsPodRunning : Pod → bool;
  ValidateDeployment : Object → Z → Z → M W unit;
  ValidateStatefulSet : Object → Z → M W unit;
  ValidatePod : Object → Z → Z → M W unit;
  ValidateCustom : Object → Z → Z → M W unit;
  ValidateJob : string → string → Z → M W unit;
  ValidateTerminatedDeployment : Object → Z → Z → M W unit;
  ValidateTerminatedStatefulSet : Object → Z → Z → M W unit;
  ValidateDeletedService : string → string → M W unit;
  WaitForPodDeletion : string → string → Z → M W unit;
  DeletePod : string → string → bool → M W unit;
  DeletePods : list Pod → bool → M W unit;
  core_GetPodLog : string → string → option Z → string → M W string;
  FindFiles : string → Node → ConnectionOpts → Z → Z → M W string;
  range_pods : gmap string Pod → list (string * Pod);
  show_pods : list Pod → string;
}.

(** [schederrors.ErrPodsNotFound] *)
Definition ErrPodsNotFound : error := Errorf "Pod(s) not found".

Definition k8sDestroyTimeout : Z := 10 * Minute.
Definition volDirCleanupTimeout : Z := 5 * Minute.
Definition deleteTasksWaitTimeout : Z := 5 * Minute.
Definition k8sPodsRootDir : string := "/var/lib/kubelet/pods".
Definition DeploymentSuffix : string := "-dep".
Definition StatefulSetSuffix : string := "-ss".
Definition deleteStrategyAnnotationKey : string := "torpedo.io/delete-strategy".

Section apps.
Context {W : Type} `{K8sWorld W} `{K8sClient W} `{K8sAppsApi W}.

(** ** Waiting until the application runs *)

Definition app_failed (k : app_error) (ctx : Context) (what : string) (err : error) : error :=
  AppErr k (Key (App ctx)) (what +:+ Error err).

(** "name, namespace" as most messages print them *)
Definition at_ns (name ns : string) : string := name +:+ ",Namespace: " +:+ ns +:+ ". Err: ".

(** How [WaitForRunning] names the custom specs in its messages *)
Definition custom_spec_text (k : Kind) : option string :=
  match k with
  | KClusterPair => Some "cluster Pair"
  | KMigration => Some "Migration"
  | KMigrationSchedule => Some "MigrationSchedule"
  | KBackupLocation => Some "BackupLocation"
  | KApplicationBackup => Some "ApplicationBackup"
  | KApplicationRestore => Some "ApplicationRestore"
  | KApplicationClone => Some "ApplicationClone"
  | KVolumeSnapshotRestore => Some "VolumeSnapshotRestore"
  | KVolumeSnapshot => Some "VolumeSnapshot"
  | KAutopilotRule => Some "AutopilotRule"
  | KIngress => Some "Ingress"
  | KCronJob => Some "CronJob"
  | KJob => Some "Job"
  | KResourceTransformation => Some "ResourceTransformation"
  | KVirtualMachine => Some "VirtualMachineRunning State"
  | _ => None
  end.

(** One object in the loop of [WaitForRunning] *)
Definition validate_running (ctx : Context) (timeout retryInterval : Z) (obj : Object) : M W unit :=
  let failed := app_failed AppErrFailedToValidateApp ctx in
  match obj_kind obj with
  | KDeployment =>
      wrap_err (failed ("Failed to validate Deployment: " +:+ at_ns (obj_Name obj) (obj_Namespace obj)))
        (ValidateDeployment obj timeout retryInterval)
  | KModelsDeployment =>
      ns ← lift (deref (pds_Namespace obj));
      ss ← wrap_err (failed ("Failed to get StatefulSet: " +:+ at_ns (ClusterResourceName obj) ns))
             (get_object KStatefulSet (ClusterResourceName obj) ns);
      replicas ← lift (deref (Replicas ss));
      wrap_err (failed ("Failed to validate StatefulSet: " +:+ at_ns (show_pds_Name obj) ns))
        (ValidateStatefulSet ss (i64 (timeout * replicas)))
  | KStatefulSet =>
      replicas ← lift (deref (Replicas obj));
      wrap_err (failed ("Failed to validate StatefulSet: " +:+ at_ns (obj_Name obj) (obj_Namespace obj)))
        (ValidateStatefulSet obj (i64 (timeout * replicas)))
  | KService =>
      _ ← wrap_err (failed ("Failed to validate Service: " +:+ at_ns (obj_Name obj) (obj_Namespace obj)))
            (get_object KService (obj_Name obj) (obj_Namespace obj)); mret tt
  | KRule =>
      _ ← wrap_err (failed ("Failed to validate Rule: " +:+ at_ns (obj_Name obj) (obj_Namespace obj)))
            (get_object KRule (obj_Name obj) (obj_Namespace obj)); mret tt
  | KPod =>
      wrap_err (λ _, AppErr AppErrFailedToValidatePod (Key (App ctx))
          ("Failed to validate Pod: [" +:+ obj_Namespace obj +:+ "] " +:+ obj_Name obj +:+
           ". Err: Pod is not ready " +:+ Status_text obj))
        (ValidatePod obj timeout retryInterval)
  | k =>
      match custom_spec_text k with
      | None => mret tt
      | Some what =>
          wrap_err (λ err, SchedErr (ErrFailedToValidateCustomSpec (obj_Name obj) (TypeOf k))
              ("Failed to validate " +:+ what +:+ ": " +:+ obj_Name obj +:+ ". Err: " +:+ Error err))
            (match k with
             | KAutopilotRule =>
                 '(_, err) ← client_Get KAutopilotRule (obj_Name obj) "";
                 match err with Some e => throw e | None => mret tt end
             | KJob => ValidateJob (obj_Name obj) (obj_Namespace obj) timeout
             | _ => ValidateCustom obj timeout retryInterval
             end)
      end
  end.

(** [getPodsForApp] *)
Fixpoint pods_of (specs : list Object) : M W (list Pod) :=
  match specs with
  | [] => mret []
  | obj :: specs' =>
      pods ← match obj_kind obj with
             | KDeployment => GetDeploymentPods obj
             | KStatefulSet => GetStatefulSetPods obj
             | _ => mret []
             end;
      rest ← pods_of specs';
      mret (pods ++ rest)
  end.

Definition getPodsForApp (ctx : Context) : M W (list Pod) := pods_of (SpecList (App ctx)).

(** The closure [isPodTerminating] *)
Definition terminating_task (ctx : Context) : M W (task_result unit) :=
  attempt (getPodsForApp ctx) (λ r,
    match r with
    | inr err =>
        if decide (err = ErrPodsNotFound) then mret (Done tt)
        else mret (Retry (Errorf ("failed to get pods for app " +:+ Key (App ctx) +:+ ": " +:+ Error err)))
    | inl pods =>
        match keep pod_Terminating pods with
        | [] => mret (Done tt)
        | l => mret (Retry (Errorf ("terminating pods: " +:+
                 show_strings ((λ p, pod_Namespace p +:+ "/" +:+ pod_Name p) <$> l))))
        end
    end).

Definition WaitForRunning (ctx : Context) (timeout retryInterval : Z) : M W unit :=
  _ ← for_each (validate_running ctx timeout retryInterval) (SpecList (App ctx));
  DoRetryWithTimeout (terminating_task ctx) k8sDestroyTimeout DefaultRetryInterval.

(** ** Waiting until the application is gone *)

Definition at_namespace (name ns : string) : string := name +:+ ", namespace: " +:+ ns.

Definition validate_destroyed (ctx : Context) (timeout : Z) (obj : Object) : M W unit :=
  let failed := app_failed AppErrFailedToValidateAppDestroy ctx in
  match obj_kind obj with
  | KDeployment =>
      wrap_err (failed ("Failed to validate destroy of deployment: " +:+
          at_namespace (obj_Name obj) (obj_Namespace obj) +:+ ". Err: "))
        (ValidateTerminatedDeployment obj timeout DefaultRetryInterval)
  | KStatefulSet =>
      wrap_err (failed ("Failed to validate destroy of statefulset: " +:+
          at_namespace (obj_Name obj) (obj_Namespace obj) +:+ " Err: "))
        (ValidateTerminatedStatefulSet obj timeout DefaultRetryInterval)
  | KService =>
      wrap_err (failed ("Failed to validate destroy of service: " +:+
          at_namespace (obj_Name obj) (obj_Namespace obj) +:+ ". Err: "))
        (ValidateDeletedService (obj_Name obj) (obj_Namespace obj))
  | KPod =>
      wrap_err (λ err, AppErr AppErrFailedToValidatePodDestroy (Key (App ctx))
          ("Failed to validate destroy of pod: " +:+ obj_Name obj +:+ ",namespace:" +:+ obj_Namespace obj +:+
           ". Err: " +:+ Error err))
        (WaitForPodDeletion (obj_UID obj) (obj_Namespace obj) deleteTasksWaitTimeout)
  | _ => mret tt
  end.

Definition WaitForDestroy (ctx : Context) (timeout : Z) : M W unit :=
  for_each (validate_destroyed ctx timeout) (SpecList (App ctx)).

(** [getVolumeDirPath]; [filepath.Join] of the three parts *)
Definition getVolumeDirPath (podUID : string) : string :=
  path_Join (path_Join k8sPodsRootDir podUID) "volumes".

Definition find_volume_dir (ctx : Context) (podUID : string) (n : Node) : M W unit :=
  volDir ← FindFiles (getVolumeDirPath podUID) n (conn_opts FindFilesOnWorkerTimeout DefaultRetryInterval) 1 1;
  if decide (TrimSpace volDir ≠ "") then
    throw (AppErr AppErrFailedToDeleteVolumeDirForPod (Key (App ctx))
      ("Volume directory for pod " +:+ podUID +:+ " still exists in node: " +:+ Name n))
  else mret tt.

Definition validateVolumeDirCleanup (ctx : Context) (podUID : string) : M W unit :=
  workers ← registry_GetWorkerNodes;
  for_each (find_volume_dir ctx podUID) workers.

Definition cleanup_task (ctx : Context) (podUID : string) : M W (task_result unit) :=
  attempt (validateVolumeDirCleanup ctx podUID) (λ r,
    match r with
    | inl _ => mret (Done tt)
    | inr err => mret (Retry err)
    end).

Definition waitForCleanup (ctx : Context) (podList : list Pod) : M W unit :=
  for_each (λ pod, DoRetryWithTimeout (cleanup_task ctx (pod_UID pod)) volDirCleanupTimeout DefaultRetryInterval)
    podList.

(** ** Pods outside a set of nodes *)

(** The pods one object of [filterPodsByNodes] contributes *)
Definition app_pods (ctx : Context) (obj : Object) : M W (list Pod) :=
  let failed (what : string) (err : error) : M W (list Pod) :=
    if decide (err = ErrPodsNotFound) then mret []
    else throw (AppErr AppErrFailedToGetAppStatus (Key (App ctx))
           ("Failed to get " +:+ what +:+ ": " +:+ obj_Name obj +:+ ". Err: " +:+ Error err)) in
  match obj_kind obj with
  | KDeployment => attempt (GetDeploymentPods obj) (λ r, match r with inl l => mret l | inr e => failed "deployment" e end)
  | KStatefulSet => attempt (GetStatefulSetPods obj) (λ r, match r with inl l => mret l | inr e => failed "statefulset" e end)
  | KPod =>
      attempt (GetPodByUID (obj_UID obj) (obj_Namespace obj)) (λ r,
        match r with inl (Some p) => mret [p] | inl None => mret [] | inr e => failed "pod" e end)
  | _ => mret []
  end.

Fixpoint collect_pods (ctx : Context) (specs : list Object) (allPods : gmap string Pod) : M W (gmap string Pod) :=
  match specs with
  | [] => mret allPods
  | obj :: specs' =>
      pods ← app_pods ctx obj;
      collect_pods ctx specs' (foldl (λ m p, <[pod_UID p := p]> m) allPods pods)
  end.

Definition excluded (excludeList : list Node) (p : Pod) : bool :=
  existsb (λ n, bool_decide (pod_NodeName p = Name n)) excludeList.

Definition filterPodsByNodes (ctx : Context) (excludeList : list Node) : M W (list string) :=
  allPods ← collect_pods ctx (SpecList (App ctx)) ∅;
  mret ((λ p, pod_Namespace p +:+ "/" +:+ pod_Name p +:+ " (" +:+ pod_NodeName p +:+ ")") <$>
    keep (λ p, negb (excluded excludeList p)) (range_pods allPods).*2).

Definition termination_task (ctx : Context) (excludeList : list Node) : M W (task_result unit) :=
  attempt (filterPodsByNodes ctx excludeList) (λ r,
    match r with
    | inr err => mret (Retry err)
    | inl [] => mret (Done tt)
    | inl podNames => mret (Retry (Errorf ("pods " +:+ show_strings podNames +:+ " still present in the system")))
    end).

Definition SelectiveWaitForTermination (ctx : Context) (timeout : Z) (excludeList : list Node) : M W unit :=
  DoRetryWithTimeout (termination_task ctx excludeList) timeout DefaultRetryInterval.

(** ** Deleting the pods of an application *)

Definition isRollingDeleteStrategyEnabled (ctx : Context) : bool :=
  existsb (λ obj, bool_decide (obj_kind obj = KStatefulSet) &&
                  bool_decide (Annotations obj !! deleteStrategyAnnotationKey = Some "rolling"))
    (SpecList (App ctx)).

Definition wait_pod_deleted (pod : Pod) : M W unit :=
  wrap_err (λ err, Errorf ("k8s DeleteTasks failed to wait for pod: [" +:+ pod_Namespace pod +:+ "] " +:+
      pod_Name pod +:+ " to terminate. err: " +:+ Error err))
    (WaitForPodDeletion (pod_UID pod) (pod_Namespace pod) deleteTasksWaitTimeout).

(** One pod of the rolling strategy *)
Definition delete_and_wait (ctx : Context) (pod : Pod) : M W unit :=
  _ ← wrap_err (app_failed AppErrFailedToDeleteTasks ctx "failed to delete pods due to: ")
        (DeletePod (pod_Name pod) (pod_Namespace pod) false);
  _ ← wait_pod_deleted pod;
  wrap_err (λ _, AppErr AppErrFailedToValidatePod (Key (App ctx))
      ("Failed to validate Pod: [" +:+ pod_Namespace pod +:+ "] " +:+ pod_Name pod +:+
       ". Err: Pod is not ready " +:+ pod_Status pod))
    (WaitForRunning ctx DefaultTimeout DefaultRetryInterval).

(** The closure [deleteTasks] *)
Definition delete_tasks (ctx : Context) : M W unit :=
  pods ← wrap_err (app_failed AppErrFailedToDeleteTasks ctx "failed to get pods due to: ") (getPodsForApp ctx);
  if isRollingDeleteStrategyEnabled ctx then for_each (delete_and_wait ctx) pods
  else
    _ ← wrap_err (app_failed AppErrFailedToDeleteTasks ctx "failed to delete pods due to: ")
          (DeletePods pods false);
    for_each wait_pod_deleted pods.

Definition DeleteTasks `{TriggerApi.BackgroundScheduler W} (ctx : Context)
    (opts : option (TriggerApi.TriggerOptions W)) : M W unit :=
  TriggerApi.PerformTask (delete_tasks ctx) opts.

(** ** The nodes of an application *)

(** The loop over the pods: [inr] is a return with an error to retry *)
Fixpoint nodes_of_pods (ctx : Context) (nodeMap : gmap string Node) (pods : list Pod) (result : list Node)
    : list Node + error :=
  let failed (cause : string) : error := AppErr AppErrFailedToGetNodesForApp (Key (App ctx)) cause in
  match pods with
  | [] => inl result
  | p :: pods' =>
      if decide (TrimSpace (pod_NodeName p) = "")
      then inr (failed ("pod " +:+ pod_Name p +:+ " is not scheduled to any node yet"))
      else
        match nodeMap !! pod_NodeName p with
        | None => inr (failed ("node: " +:+ pod_NodeName p +:+ " not present in node map"))
        | Some n =>
            nodes_of_pods ctx nodeMap pods'
              (if negb (Registry.Contains result n) && IsPodRunning p then result ++ [n] else result)
        end
  end.

Definition nodes_task (ctx : Context) : M W (task_result (list Node)) :=
  attempt (getPodsForApp ctx) (λ r,
    match r with
    | inr err =>
        mret (Stop (AppErr AppErrFailedToGetNodesForApp (Key (App ctx)) ("failed to get pods due to: " +:+ Error err)))
    | inl pods =>
        l ← range_nodes;
        match nodes_of_pods ctx (Registry.index_by Name l) pods [] with
        | inr err => mret (Retry err)
        | inl [] =>
            mret (Retry (AppErr AppErrFailedToGetNodesForApp (Key (App ctx))
              ("no pods in running state " +:+ show_pods pods)))
        | inl result => mret (Done result)
        end
    end).

Definition GetNodesForApp (ctx : Context) : M W (list Node) :=
  DoRetryWithTimeout (nodes_task ctx) DefaultTimeout DefaultRetryInterval.

(** [GetPodLog] *)
Fixpoint pod_logs (sinceSeconds : option Z) (containerName : string) (pods : list Pod)
    (logsByPodName : gmap string string) : M W (gmap string string) :=
  match pods with
  | [] => mret logsByPodName
  | pod :: pods' =>
      output ← wrap_err (λ err, Errorf ("failed to get logs for the pod " +:+ pod_Namespace pod +:+ "/" +:+
                 pod_Name pod +:+ ": " +:+ Error err))
               (core_GetPodLog (pod_Name pod) (pod_Namespace pod) sinceSeconds containerName);
      pod_logs sinceSeconds containerName pods' (<[pod_Name pod := output]> logsByPodName)
  end.

Definition GetPodLog (ctx : Context) (sinceSeconds : Z) (containerName : string) : M W (gmap string string) :=
  pods ← getPodsForApp ctx;
  pod_logs (if decide (0 < sinceSeconds) then Some sinceSeconds else None) containerName pods ∅.

(** ** Scaling *)

(** The claims of a deployment: a claim that cannot be read, or that only one node
    may write, stops the search *)
Fixpoint claims_shared (ns : string) (vols : list (option string)) : M W bool :=
  match vols with
  | [] => mret true
  | None :: vols' => claims_shared ns vols'
  | Some claim :: vols' =>
      attempt (get_object KPersistentVolumeClaim claim ns) (λ r,
        match r with
        | inr _ => mret false
        | inl pvc =>
            if existsb (λ ac, bool_decide (ac = "ReadWriteOnce")) (AccessModes pvc) then mret false
            else claims_shared ns vols'
        end)
  end.

Definition IsScalable (spec : Object) : M W bool :=
  match obj_kind spec with
  | KDeployment =>
      attempt (get_object KDeployment (obj_Name spec) (obj_Namespace spec)) (λ r,
        match r with
        | inr _ => mret false
        | inl dep => claims_shared (obj_Namespace dep) (PodVolumes dep)
        end)
  | KStatefulSet => mret true
  | _ => mret false
  end.

(** [*obj.Spec.Replicas = v] *)
Definition write_replicas (v : Z) (obj : Object) : outcome Object :=
  _ ← deref (Replicas obj); mret (set_Replicas (Some v) obj).

Definition scale_task (name ns : string) (newScaleFactor : Z) : M W (task_result Object) :=
  attempt (get_object KDeployment name ns) (λ r,
    match r with
    | inr err => mret (Retry err)
    | inl dep =>
        dep' ← lift (write_replicas newScaleFactor dep);
        attempt (client_Update dep') (λ r',
          match r' with
          | inl d => mret (Done d)
          | inr err => mret (Retry err)
          end)
    end).

Definition scale_one (ctx : Context) (scaleFactorMap : gmap string Z) (obj : Object) : M W unit :=
  scalable ← IsScalable obj;
  if negb scalable then mret tt
  else
    match obj_kind obj with
    | KDeployment =>
        let newScaleFactor := default 0 (scaleFactorMap !! (obj_Name obj +:+ DeploymentSuffix)) in
        _ ← wrap_err (app_failed AppErrFailedToUpdateApp ctx
                ("Failed to update Deployment: " +:+ obj_Name obj +:+ ". Err: "))
              (DoRetryWithTimeout (scale_task (obj_Name obj) (obj_Namespace obj) newScaleFactor)
                 (2 * Minute) Second);
        mret tt
    | KStatefulSet =>
        ss ← get_object KStatefulSet (obj_Name obj) (obj_Namespace obj);
        let newScaleFactor := default 0 (scaleFactorMap !! (obj_Name obj +:+ StatefulSetSuffix)) in
        ss' ← lift (write_replicas newScaleFactor ss);
        _ ← wrap_err (app_failed AppErrFailedToUpdateApp ctx
                ("Failed to update StatefulSet: " +:+ obj_Name obj +:+ ". Err: "))
              (client_Update ss');
        mret tt
    | _ => mret tt
    end.

Definition ScaleApplication (ctx : Context) (scaleFactorMap : gmap string Z) : M W unit :=
  for_each (scale_one ctx scaleFactorMap) (SpecList (App ctx)).

(** The key of an object in the scale factor map *)
Definition scale_key (obj : Object) : option string :=
  match obj_kind obj with
  | KDeployment => Some (obj_Name obj +:+ DeploymentSuffix)
  | KStatefulSet => Some (obj_Name obj +:+ StatefulSetSuffix)
  | _ => None
  end.

Fixpoint scale_factors (specs : list Object) (scaleFactorMap : gmap string Z) : M W (gmap string Z) :=
  match specs with
  | [] => mret scaleFactorMap
  | obj :: specs' =>
      match scale_key obj with
      | Some key =>
          o ← get_object (obj_kind obj) (obj_Name obj) (obj_Namespace obj);
          replicas ← lift (deref (Replicas o));
          scale_factors specs' (<[key := replicas]> scaleFactorMap)
      | None => scale_factors specs' scaleFactorMap
      end
  end.

Definition GetScaleFactorMap (ctx : Context) : M W (gmap string Z) := scale_factors (SpecList (App ctx)) ∅.

(** ** Topology *)

(** [node.GetNodeByIP] over an order of the registry *)
Definition node_by_ip (l : list Node) (ip : string) : option Node :=
  find_first (λ n, existsb (λ addr, bool_decide (addr = ip)) (Addresses n)) l.

(** One pod of [validatePodsTopology]: the node is looked at when it was not found,
    and then it is [Node{}] *)
Definition pod_topology (labelValue : string) (pod : Pod) : M W unit :=
  l ← range_nodes;
  match node_by_ip l (pod_HostIP pod) with
  | Some _ => mret tt
  | None =>
      let n := emptyNode in
      if decide (TopologyZone n ≠ labelValue ∨ TopologyRegion n ≠ labelValue) then
        throw (SchedErr (ErrTopologyLabelMismatch (pod_Name pod))
          ("Topology Mismatch.Pod [" +:+ pod_Name pod +:+ "] on zone [" +:+ labelValue +:+
           "] scheduled on a node [" +:+ Name n +:+ "]."))
      else mret tt
  end.

Definition validatePodsTopology (podList : list Pod) (labelValue : string) : M W unit :=
  for_each (pod_topology labelValue) podList.

Definition topology_of (obj : Object) : M W unit :=
  let failed (err : error) : error := SchedErr (ErrFailedToValidateTopologyLabel (obj_Namespace obj)) (Error err) in
  o ← wrap_err failed (get_object (obj_kind obj) (obj_Name obj) (obj_Namespace obj));
  nodeAff ← lift (deref (Affinity o));
  labels ← lift (getLabelsFromNodeAffinity nodeAff);
  podList ← wrap_err failed (GetPods (obj_Namespace obj));
  wrap_err failed (validatePodsTopology podList (default "" (labels !! TopologyZoneK8sNodeLabel))).

Definition ValidateTopologyLabel (ctx : Context) : M W unit :=
  for_each (λ obj, match obj_kind obj with
                   | KDeployment | KStatefulSet => topology_of obj
                   | _ => mret tt
                   end) (SpecList (App ctx)).

End apps.

(** ** Properties *)

Section app_theorems.
Context {W : Type} `{PxWorldLaws W} `{!K8sWorld W} `{K8sClient W} `{K8sAppsApi W}.

(** The attempts of a wait that led from one world to another, all of them before
    the deadline *)
Definition waited {A} (t : M W (task_result A)) (timeout : Z) (w w1 : W) : Prop :=
  ∃ es, retries t (now w + timeout) DefaultRetryInterval es w w1 ∧ now w1 < now w + timeout.

(** The custom types that are validated by a method of their own *)
Definition custom_validated : list Kind :=
  [KClusterPair; KMigration; KMigrationSchedule; KBackupLocation; KApplicationBackup; KApplicationRestore;
   KApplicationClone; KVolumeSnapshotRestore; KVolumeSnapshot; KIngress; KCronJob; KResourceTransformation;
   KVirtualMachine].

(** The answer of the cluster that lets an object pass.  A stateful set, also that of a
    data service, has the timeout once for each replica; for a type that is not listed
    nothing is asked. *)
Definition seen_running (timeout interval : Z) (obj : Object) (wa wb : W) : Prop :=
  match obj_kind obj with
  | KDeployment => ValidateDeployment obj timeout interval wa = (Ok tt, wb)
  | KStatefulSet => ∃ n, Replicas obj = Some n ∧ ValidateStatefulSet obj (i64 (timeout * n)) wa = (Ok tt, wb)
  | KModelsDeployment => ∃ ns ss n w1, pds_Namespace obj = Some ns ∧
      client_Get KStatefulSet (ClusterResourceName obj) ns wa = (Ok (Some ss, None), w1) ∧
      Replicas ss = Some n ∧ ValidateStatefulSet ss (i64 (timeout * n)) w1 = (Ok tt, wb)
  | KService | KRule => ∃ x, client_Get (obj_kind obj) (obj_Name obj) (obj_Namespace obj) wa = (Ok (Some x, None), wb)
  | KPod => ValidatePod obj timeout interval wa = (Ok tt, wb)
  | KAutopilotRule => ∃ x, client_Get KAutopilotRule (obj_Name obj) "" wa = (Ok (x, None), wb)
  | KJob => ValidateJob (obj_Name obj) (obj_Namespace obj) timeout wa = (Ok tt, wb)
  | k => if decide (k ∈ custom_validated) then ValidateCustom obj timeout interval wa = (Ok tt, wb) else wb = wa
  end.

(** One object after the other *)
Inductive all_running (timeout interval : Z) : list Object → W → W → Prop :=
  | all_running_nil w : all_running timeout interval [] w w
  | all_running_cons o l w w1 w' :
      seen_running timeout interval o w w1 → all_running timeout interval l w1 w' →
      all_running timeout interval (o :: l) w w'.

Lemma get_object_Ok k n ns (w : W) x w' :
  get_object k n ns w = (Ok x, w') → client_Get k n ns w = (Ok (Some x, None), w').
Proof.
  intros ([o err] & w1 & Hg & Hr)%bind_Ok_inv. destruct err; [done|].
  apply lift_Ok_inv in Hr as [Hx ->]. by destruct o; simplify_eq/=.
Qed.

Lemma deref_Ok_inv {A} (p : option A) (w w' : W) a : lift (deref p) w = (Ok a, w') → p = Some a ∧ w' = w.
Proof. intros [Hd ->]%lift_Ok_inv. by destruct p; simplify_eq/=. Qed.

Lemma validate_running_seen ctx timeout interval o w w' :
  validate_running ctx timeout interval o w = (Ok tt, w') → seen_running timeout interval o w w'.
Proof.
  unfold validate_running, seen_running, custom_spec_text. cbv zeta. destruct (obj_kind o) eqn:E;
    try (intros Hv%wrap_err_Ok_inv; exact Hv);
    try (intros Hv%wrap_err_Ok_inv; rewrite decide_True by (apply (bool_decide_unpack _); vm_compute; exact I); exact Hv);
    try (intros (x & w1 & Hv%wrap_err_Ok_inv%get_object_Ok & Hr)%bind_Ok_inv; unfold mret, M_ret in Hr; simplify_eq; by exists x);
    try (intros Hv; unfold mret, M_ret in Hv; injection Hv as <-;
         rewrite decide_False by (unfold custom_validated; rewrite !elem_of_cons, elem_of_nil; naive_solver); reflexivity).
  - intros (n & w1 & [Hn ->]%deref_Ok_inv & Hv%wrap_err_Ok_inv)%bind_Ok_inv. by exists n.
  - intros ([x err] & w1 & Hv & Hr)%wrap_err_Ok_inv%bind_Ok_inv. destruct err; [done|]. unfold mret, M_ret in Hr. simplify_eq.
    by exists x.
  - intros (ns & w1 & [Hn ->]%deref_Ok_inv & Hv)%bind_Ok_inv.
    apply bind_Ok_inv in Hv as (ss & w2 & Hs%wrap_err_Ok_inv%get_object_Ok & Hv).
    apply bind_Ok_inv in Hv as (n & w3 & [Hr ->]%deref_Ok_inv & Hv%wrap_err_Ok_inv). by exists ns, ss, n, w2.
Qed.

Lemma all_running_steps ctx timeout interval l w w' :
  steps (validate_running ctx timeout interval) l w w' → all_running timeout interval l w w'.
Proof. induction 1; econstructor; eauto using validate_running_seen. Qed.

(** C33. When [WaitForRunning] succeeds, the cluster let every object of the application
    pass, in the order of the spec list: deployments, stateful sets (also those of data
    services), pods, jobs and the custom types with a validation were found valid, and
    services, rules and autopilot rules were found; of other types nothing is asked.  After
    that the last look at the pods, within the time for it, saw none that is being
    terminated, or no pods at all. *)
Theorem WaitForRunning_success ctx timeout interval w w' :
  WaitForRunning ctx timeout interval w = (Ok tt, w') →
  ∃ w1 w2, all_running timeout interval (SpecList (App ctx)) w w1 ∧
    waited (terminating_task ctx) k8sDestroyTimeout w1 w2 ∧
    ((∃ pods, getPodsForApp ctx w2 = (Ok pods, w') ∧ ∀ p, p ∈ pods → pod_Terminating p = false) ∨
     getPodsForApp ctx w2 = (Err ErrPodsNotFound, w')).
Proof.
  intros ([] & w1 & Hl%for_each_Ok & Hr)%bind_Ok_inv.
  apply DoRetryWithTimeout_Ok_retries in Hr as (es & w2 & Hr & Hn & Ht).
  exists w1, w2. split_and!; [by eapply all_running_steps|by exists es|].
  unfold terminating_task, attempt in Ht.
  destruct (getPodsForApp ctx w2) as [[pods|e|s|] w3] eqn:Eg; simplify_eq.
  - left. exists pods. destruct (keep pod_Terminating pods) eqn:Ek; [|done].
    unfold mret, M_ret in Ht. simplify_eq. split; [done|]. intros p Hp.
    apply not_true_iff_false. intros Hpt. assert (p ∈ keep pod_Terminating pods) as Hin by (by apply elem_of_keep).
    rewrite Ek in Hin. by apply elem_of_nil in Hin.
  - right. case_decide; [|done]. unfold mret, M_ret in Ht. by simplify_eq.
Qed.

(** When [SelectiveWaitForTermination] succeeds, every pod the cluster knew of the
    application at the last look was on an excluded node. *)
Theorem SelectiveWaitForTermination_success ctx timeout excludeList w w' :
  (∀ m, range_pods m ≡ₚ map_to_list m) →
  SelectiveWaitForTermination ctx timeout excludeList w = (Ok tt, w') →
  ∃ w1 allPods, waited (termination_task ctx excludeList) timeout w w1 ∧
    collect_pods ctx (SpecList (App ctx)) ∅ w1 = (Ok allPods, w') ∧
    ∀ uid p, allPods !! uid = Some p → ∃ n, n ∈ excludeList ∧ pod_NodeName p = Name n.
Proof.
  intros Hperm (es & w1 & Hr & Hn & Ht)%DoRetryWithTimeout_Ok_retries.
  unfold termination_task, attempt, filterPodsByNodes, mbind, M_bind in Ht.
  destruct (collect_pods _ _ _ w1) as [[m|e|s|] w2] eqn:Ec; simplify_eq/=.
  destruct (keep _ _) as [|p0 l] eqn:Ek; [|done]. simpl in Ht. unfold mret, M_ret in Ht. simplify_eq.
  exists w1, m. split_and!; [by exists es|done|]. intros uid p Hp.
  destruct (excluded excludeList p) eqn:Ee.
  - apply existsb_exists in Ee as (n & Hin & Hx). exists n. apply bool_decide_eq_true in Hx.
    by rewrite list_elem_of_In.
  - assert (p ∈ keep (λ p, negb (excluded excludeList p)) (range_pods m).*2) as Hin.
    { apply elem_of_keep. rewrite Ee. split; [|done]. rewrite Hperm. apply list_elem_of_fmap.
      exists (uid, p). split; [done|]. by apply elem_of_map_to_list. }
    rewrite Ek in Hin. by apply elem_of_nil in Hin.
Qed.

(** [DeleteTasks] that succeeds without options deleted the pods and waited for each
    of them to disappear; with the rolling strategy it waited for the application
    to run again before it went on to the next pod. *)
Theorem DeleteTasks_waits `{TriggerApi.BackgroundScheduler W} ctx w w' :
  DeleteTasks ctx None w = (Ok tt, w') →
  ∃ pods w1, getPodsForApp ctx w = (Ok pods, w1) ∧
    if isRollingDeleteStrategyEnabled ctx then
      steps (λ pod, _ ← DeletePod (pod_Name pod) (pod_Namespace pod) false;
                    _ ← WaitForPodDeletion (pod_UID pod) (pod_Namespace pod) deleteTasksWaitTimeout;
                    WaitForRunning ctx DefaultTimeout DefaultRetryInterval) pods w1 w'
    else
      ∃ w2, DeletePods pods false w1 = (Ok tt, w2) ∧
        steps (λ pod, WaitForPodDeletion (pod_UID pod) (pod_Namespace pod) deleteTasksWaitTimeout) pods w2 w'.
Proof.
  assert (∀ (f g : Pod → M W unit) l wa wb,
    (∀ x wa wb, f x wa = (Ok tt, wb) → g x wa = (Ok tt, wb)) → steps f l wa wb → steps g l wa wb) as Hmono.
  { intros f g l wa wb Hfg. induction 1; econstructor; eauto. }
  unfold DeleteTasks, TriggerApi.PerformTask, delete_tasks.
  intros (pods & w1 & Hg%wrap_err_Ok_inv & Hd)%bind_Ok_inv. exists pods, w1. split; [done|].
  destruct (isRollingDeleteStrategyEnabled ctx).
  - apply for_each_Ok in Hd. revert Hd. apply Hmono. intros pod wa wb.
    intros ([] & wc & Hd1%wrap_err_Ok_inv & ([] & wd & Hd2%wrap_err_Ok_inv & Hd3%wrap_err_Ok_inv)%bind_Ok_inv)%bind_Ok_inv.
    by rewrite (bind_Ok _ _ _ _ _ Hd1), (bind_Ok _ _ _ _ _ Hd2).
  - apply bind_Ok_inv in Hd as ([] & w2 & Hd1%wrap_err_Ok_inv & Hs%for_each_Ok). exists w2. split; [done|].
    revert Hs. apply Hmono. intros pod wa wb. apply wrap_err_Ok_inv.
Qed.

(** *** The nodes of an application *)

Lemma Contains_names result n : Registry.Contains result n = true ↔ Name n ∈ Name <$> result.
Proof.
  unfold Registry.Contains.
  destruct (find_first _ result) as [m|] eqn:E; split; try done.
  - intros _. apply find_first_Some in E as [Hin Hm%bool_decide_eq_true].
    apply list_elem_of_fmap. by exists m.
  - intros (m & Hm & Hin)%list_elem_of_fmap. rewrite find_first_None in E.
    specialize (E m Hin). by rewrite bool_decide_true in E.
Qed.

Lemma index_by_name (l : list Node) name n :
  Registry.index_by Name l !! name = Some n → n ∈ l ∧ Name n = name.
Proof.
  unfold Registry.index_by.
  enough (∀ m : gmap string Node, (∀ k x, m !! k = Some x → x ∈ l ∧ Name x = k) → ∀ l', l' ⊆ l →
    ∀ k x, foldl (λ m n, <[Name n := n]> m) m l' !! k = Some x → x ∈ l ∧ Name x = k) as Hg.
  { apply (Hg ∅); [by intros|done]. }
  intros m Hm l'. revert m Hm. induction l' as [|y l' IH]; intros m Hm Hl; simpl; [done|].
  apply IH; [|set_solver]. intros k x. rewrite lookup_insert. case_decide as Hk; [|apply Hm].
  intros ?; simplify_eq. split; [set_solver|done].
Qed.

(** What one pass over the pods has collected: distinct nodes of the map, each
    with a running pod, and every running pod is on one of them. *)
Definition collected (nodeMap : gmap string Node) (pods : list Pod) (result : list Node) : Prop :=
  NoDup (Name <$> result) ∧
  (∀ n, n ∈ result → ∃ p, p ∈ pods ∧ IsPodRunning p = true ∧ nodeMap !! pod_NodeName p = Some n) ∧
  (∀ p, p ∈ pods → ∃ n, nodeMap !! pod_NodeName p = Some n ∧
     (IsPodRunning p = true → Name n ∈ Name <$> result)).

Lemma nodes_of_pods_collected ctx nodeMap pods seen result result' :
  collected nodeMap seen result → nodes_of_pods ctx nodeMap pods result = inl result' →
  collected nodeMap (seen ++ pods) result'.
Proof.
  revert seen result. induction pods as [|p pods IH]; intros seen result Hc; simpl.
  - intros ?; simplify_eq. by rewrite app_nil_r.
  - case_decide; [done|]. destruct (nodeMap !! pod_NodeName p) as [n|] eqn:En; [|done].
    intros Hr. replace (seen ++ p :: pods) with ((seen ++ [p]) ++ pods) by (by rewrite <- app_assoc).
    eapply IH; [|exact Hr]. clear Hr IH. destruct Hc as (Hnd & Hin & Hall). unfold collected.
    destruct (Registry.Contains result n) eqn:Ec; simpl.
    + apply Contains_names in Ec. split_and!; [done|set_solver|].
      intros q [Hq|Hq]%elem_of_app; [by apply Hall|]. apply list_elem_of_singleton in Hq as ->. by exists n.
    + assert (Name n ∉ Name <$> result) as Hn by (rewrite <- Contains_names, Ec; done).
      destruct (IsPodRunning p) eqn:Ep.
      * rewrite fmap_app. split_and!.
        -- apply NoDup_app. simpl. split_and!; [done| |apply NoDup_singleton]. set_solver.
        -- intros x [Hx|Hx]%elem_of_app; [set_solver|]. apply list_elem_of_singleton in Hx as ->.
           exists p. set_solver.
        -- intros q [Hq|Hq]%elem_of_app.
           ++ destruct (Hall q Hq) as (m & ? & Hm). exists m. split; [done|]. intros Hrun.
              apply elem_of_app. left. by apply Hm.
           ++ apply list_elem_of_singleton in Hq as ->. exists n. split; [done|]. intros _.
              apply elem_of_app. right. by left.
      * split_and!; [done|set_solver|]. intros q [Hq|Hq]%elem_of_app; [by apply Hall|].
        apply list_elem_of_singleton in Hq as ->. exists n. by split; [|congruence].
Qed.

(** [GetNodesForApp] returns, without repetition, exactly the nodes of the registry
    that run a pod of the application at the look that ended the wait, and there is
    at least one. *)
Theorem GetNodesForApp_success ctx w nodes w' :
  GetNodesForApp ctx w = (Ok nodes, w') →
  ∃ w1 w2 pods, waited (nodes_task ctx) DefaultTimeout w w1 ∧ getPodsForApp ctx w1 = (Ok pods, w2) ∧
    nodes ≠ [] ∧ NoDup (Name <$> nodes) ∧
    (∀ n, n ∈ nodes → (∃ k, nodeRegistry (px w2) !! k = Some n) ∧
       ∃ p, p ∈ pods ∧ IsPodRunning p = true ∧ pod_NodeName p = Name n) ∧
    (∀ p, p ∈ pods → IsPodRunning p = true → pod_NodeName p ∈ Name <$> nodes).
Proof.
  intros (es & w1 & Hr & Hn & Ht)%DoRetryWithTimeout_Ok_retries.
  unfold nodes_task, attempt in Ht. destruct (getPodsForApp ctx w1) as [[pods|e|s|] w2] eqn:Eg; try done.
  unfold mbind, M_bind in Ht. destruct (range_nodes_spec w2) as (l & w3 & Hl & Hperm & _). rewrite Hl in Ht.
  destruct (nodes_of_pods ctx (Registry.index_by Name l) pods []) as [result|] eqn:En; [|done].
  eapply (nodes_of_pods_collected _ _ _ []) in En as (Hnd & Hin & Hall);
    [|split_and!; [by constructor|set_solver..]].
  destruct result as [|n0 result]; [done|]. unfold mret, M_ret in Ht. simplify_eq.
  exists w1, w2, pods. split_and!; [by exists es|done..| |].
  - intros n (p & Hp & Hrun & Hm%index_by_name)%Hin. destruct Hm as [Hnl Hname].
    rewrite Hperm in Hnl. apply list_elem_of_fmap in Hnl as ([k n'] & -> & Hk%elem_of_map_to_list).
    split; [by exists k|]. exists p. by rewrite Hname.
  - intros p Hp Hrun. destruct (Hall p Hp) as (n & Hm%index_by_name & Hx). destruct Hm as [_ <-]. by apply Hx.
Qed.

(** *** Scaling *)

(** The scale factor map has an entry for every deployment and stateful set of the
    application and no other, so scaling the same application with it never takes
    the zero of a missing entry. *)
Theorem GetScaleFactorMap_covers ctx w m w' :
  GetScaleFactorMap ctx w = (Ok m, w') →
  ∀ key, is_Some (m !! key) ↔ ∃ obj, obj ∈ SpecList (App ctx) ∧ scale_key obj = Some key.
Proof.
  unfold GetScaleFactorMap. intros Hs key.
  enough (∀ specs m0 w, scale_factors specs m0 w = (Ok m, w') →
    is_Some (m !! key) ↔ is_Some (m0 !! key) ∨ ∃ obj, obj ∈ specs ∧ scale_key obj = Some key) as Hg.
  { rewrite (Hg _ _ _ Hs), lookup_empty. split; [intros [[? ?]|?]; done|by right]. }
  clear Hs w. induction specs as [|obj specs IH]; intros m0 w; simpl.
  - unfold mret, M_ret. intros ?; simplify_eq. set_solver.
  - destruct (scale_key obj) as [k|] eqn:Ek.
    + intros (o & w1 & _ & Hr)%bind_Ok_inv. apply bind_Ok_inv in Hr as (r & w2 & _ & Hr).
      rewrite (IH _ _ Hr). rewrite lookup_insert_is_Some. split.
      * intros [[->|[_ ?]]|(o' & ? & ?)]; [right; exists obj; set_solver|by left|right; exists o'; set_solver].
      * intros [?|(o' & [->|?]%elem_of_cons & ?)]; [destruct (decide (k = key)); naive_solver| |naive_solver].
        left. left. congruence.
    + intros Hr. rewrite (IH _ _ Hr). split; (intros [?|(o' & Ho' & ?)]; [by left|right; exists o']).
      * set_solver.
      * apply elem_of_cons in Ho' as [->|?]; [congruence|done].
Qed.

(** *** Topology *)

Lemma node_by_ip_registry (l : list Node) (r : gmap string Node) ip :
  l ≡ₚ (map_to_list r).*2 →
  is_Some (node_by_ip l ip) ↔ ∃ k n, r !! k = Some n ∧ ip ∈ Addresses n.
Proof.
  intros Hperm. unfold node_by_ip. split.
  - intros [n [Hin Ha]%find_first_Some]. rewrite Hperm in Hin.
    apply list_elem_of_fmap in Hin as ([k n'] & -> & Hk%elem_of_map_to_list).
    apply existsb_exists in Ha as (a & Ha & <-%bool_decide_eq_true). exists k, n'.
    by rewrite list_elem_of_In.
  - intros (k & n & Hk & Ha). destruct (find_first _ l) as [m|] eqn:Ef; [by exists m|].
    rewrite find_first_None in Ef. exfalso.
    assert (n ∈ l) as Hn.
    { rewrite Hperm. apply list_elem_of_fmap. exists (k, n). by rewrite elem_of_map_to_list. }
    specialize (Ef n Hn). apply not_true_iff_false in Ef. apply Ef, existsb_exists.
    exists ip. rewrite bool_decide_eq_true. by rewrite <- list_elem_of_In.
Qed.

(** The host of a pod is the address of a registered node. *)
Definition known_host (r : gmap string Node) (p : Pod) : Prop :=
  ∃ k n, r !! k = Some n ∧ pod_HostIP p ∈ Addresses n.

Lemma pod_topology_cases zone p w :
  nodeRegistry (px (pod_topology zone p w).2) = nodeRegistry (px w) ∧
  (((pod_topology zone p w).1 = Ok tt ∧ (zone = "" ∨ known_host (nodeRegistry (px w)) p)) ∨
   (∃ e, (pod_topology zone p w).1 = Err e) ∧ zone ≠ "" ∧ ¬ known_host (nodeRegistry (px w)) p).
Proof.
  unfold pod_topology, mbind, M_bind.
  destruct (range_nodes_spec w) as (l & w2 & -> & Hperm & Hpx & _).
  pose proof (node_by_ip_registry l _ (pod_HostIP p) Hperm) as Hip. unfold known_host.
  destruct (node_by_ip l (pod_HostIP p)) as [n|].
  - simpl. rewrite Hpx. split; [done|]. left. split; [done|]. right. by apply Hip.
  - assert (¬ known_host (nodeRegistry (px w)) p) as Hk by (by intros [? ?]%Hip).
    case_decide as Hz; simpl; rewrite Hpx; (split; [done|]).
    + right. split; [by eexists|]. split; [|done]. intros ->. by destruct Hz.
    + left. split; [done|]. left. destruct (decide ("" = zone)); [done|]. destruct Hz. by left.
Qed.

(** The topology of pods is accepted exactly when every pod is on a known host or
    no zone was asked for: the zone of the node a pod runs on plays no role. *)
Theorem validatePodsTopology_spec podList zone w :
  (validatePodsTopology podList zone w).1 = Ok tt ↔
  zone = "" ∨ ∀ p, p ∈ podList → known_host (nodeRegistry (px w)) p.
Proof.
  transitivity (∀ p, p ∈ podList → zone = "" ∨ known_host (nodeRegistry (px w)) p);
    [|destruct (decide (zone = "")); naive_solver].
  unfold validatePodsTopology. revert w. induction podList as [|p l IH]; intros w; simpl; [set_solver|].
  destruct (pod_topology_cases zone p w) as [Hreg Hcase]. unfold mbind, M_bind.
  destruct (pod_topology zone p w) as [[[]|e|s|] w2]; simpl in *;
    [rewrite IH, Hreg|..]; destruct Hcase as [[Hok Hx]|[[e' Hok] Hx]]; simplify_eq; [set_solver|].
  split; [done|]. intros Hall. exfalso. destruct (Hall p); [by left|naive_solver..].
Qed.
End app_theorems.
