(* ===== verification/PxExpansion.v ===== *)
(** drivers/volume/portworx/portworx.go: what autopilot is expected to make of
    storage pools and volumes - the estimates of expanded sizes, and the
    validation of the pools of the cluster against them. *)

From Stdlib Require Import Ascii Floats.SpecFloat.
From S2P Require Import Prelude GoStrings Errors Effects Float64 Strconv Task OpenStorageApi NodeRegistry AutopilotRules PxDriver.

(** pkg/units/units.go *)
Definition GiB : Z := 1073741824.
Definition GB : Z := 1000000000.

(** What Go and the Kubernetes libraries decide: [resource.ParseQuantity] with
    [Value] (an int64), the conversion of a float64 out of range, and the order
    of a range over maps. *)
Class ExpansionEnv := {
  ParseQuantity : string → outcome Z;
  f64_outside : float64 → Z;
  range_disks : gmap string StorageResource → list (string * StorageResource);
  range_labels : gmap string string → list (string * string);
}.

Class ExpansionEnvLaws `{ExpansionEnv} : Prop := {
  range_disks_perm : ∀ m, range_disks m ≡ₚ map_to_list m;
  range_labels_perm : ∀ m, range_labels m ≡ₚ map_to_list m;
}.

(** ** Loops without a bound

    [for { ... }] around a body that either returns or goes on with a new
    state. *)
Section expand_loop.
Context {S A : Type} (pass : S → outcome (A + S)).

Fixpoint expand_loop (fuel : nat) (s : S) : outcome A :=
  match fuel with
  | O => Diverge
  | Datatypes.S fuel' =>
      r ← pass s;
      match r with
      | inl a => Ok a
      | inr s' => expand_loop fuel' s'
      end
  end.

(** The body goes on along the iterates of [next] and returns at the [k]th. *)
Lemma expand_loop_iter (next : S → S) k s a fuel :
  (∀ j, (j < k)%nat → pass (Nat.iter j next s) = Ok (inr (Nat.iter (1 + j) next s))) →
  pass (Nat.iter k next s) = Ok (inl a) → (k < fuel)%nat → expand_loop fuel s = Ok a.
Proof.
  revert s fuel. induction k as [|k IH]; intros s fuel Hgo Hend Hf; (destruct fuel as [|fuel]; [lia|]); simpl.
  - simpl in Hend. by rewrite Hend.
  - pose proof (Hgo 0%nat ltac:(lia)) as H0. simpl in H0. rewrite H0. simpl. apply IH; [|by rewrite <- Nat.iter_succ_r|lia].
    intros j Hj. rewrite <- !Nat.iter_succ_r. apply Hgo. lia.
Qed.

(** A body that never returns *)
Lemma expand_loop_stuck (I : S → Prop) s fuel :
  (∀ s, I s → ∃ s', pass s = Ok (inr s') ∧ I s') → I s → expand_loop fuel s = Diverge.
Proof.
  intros Hstep. revert s. induction fuel as [|fuel IH]; intros s Hs; [done|]. simpl.
  destruct (Hstep s Hs) as (s' & -> & Hs'). by apply IH.
Qed.

(** More fuel does not change an answer. *)
Lemma expand_loop_more fuel fuel' s o :
  expand_loop fuel s = o → o ≠ Diverge → (fuel <= fuel')%nat → expand_loop fuel' s = o.
Proof.
  revert s fuel'. induction fuel as [|fuel IH]; intros s fuel' Ho Hnd Hle; [by subst|].
  destruct fuel' as [|fuel']; [lia|]. simpl in *. destruct (pass s) as [[a|s']|e|m|]; simpl in *; try done.
  apply IH; [done..|lia].
Qed.

(** What holds along the loop holds of its answer. *)
Lemma expand_loop_inv (I : S → Prop) (Q : A → Prop) fuel s a :
  (∀ s, I s → match pass s with Ok (inl a) => Q a | Ok (inr s') => I s' | _ => True end) →
  I s → expand_loop fuel s = Ok a → Q a.
Proof.
  intros Hstep. revert s. induction fuel as [|fuel IH]; intros s Hs He; [done|]. simpl in He.
  specialize (Hstep s Hs). destruct (pass s) as [[a'|s']|e|m|]; simpl in He; simplify_eq; eauto.
Qed.
End expand_loop.

(** ** The first iterate beyond a limit *)

Definition first_reach (next : Z → Z) (limit init : Z) (k : nat) : Prop :=
  limit <= Nat.iter k next init ∧ ∀ j, (j < k)%nat → Nat.iter j next init < limit.

Lemma first_reach_exists next limit init :
  (∀ t, init <= t < limit → t < next t) → ∃ k, first_reach next limit init k.
Proof.
  intros Hgrow. remember (Z.to_nat (limit - init)) as n eqn:Hn. revert init Hgrow Hn.
  induction (lt_wf n) as [n _ IH]; intros init Hgrow ->.
  destruct (decide (limit <= init)) as [Hle|Hlt].
  { exists 0%nat. split; [done|]. intros j Hj. lia. }
  destruct (IH (Z.to_nat (limit - next init))) with (init := next init) as (k & Hk & Hall).
  { specialize (Hgrow init). lia. }
  { intros t Ht. apply Hgrow. specialize (Hgrow init). lia. }
  { done. }
  exists (S k). split; [by rewrite Nat.iter_succ_r|]. intros [|j] Hj; [simpl; lia|].
  rewrite Nat.iter_succ_r. apply Hall. lia.
Qed.

(** The iterates before the limit, and the one that reaches it, grow. *)
Lemma first_reach_grows next limit init k :
  (∀ t, init <= t < limit → t < next t) → first_reach next limit init k →
  ∀ j, (j <= k)%nat → init + Z.of_nat j <= Nat.iter j next init.
Proof.
  intros Hgrow [_ Hall] j. induction j as [|j IH]; intros Hj; [simpl; lia|].
  specialize (IH ltac:(lia)). pose proof (Hall j ltac:(lia)). simpl.
  specialize (Hgrow (Nat.iter j next init) ltac:(lia)). lia.
Qed.

Section estimates.
Context `{ExpansionEnv}.

(** ** Conditions *)

Definition doesConditionMatch (metric : float64) (e : LabelSelectorRequirement) : outcome bool :=
  v0 ← index (Values e) 0;
  let condExprValue := (ParseFloat v0).1 in
  Ok ((f64_ltb metric condExprValue && bool_decide (Operator e = LabelSelectorOpLt)) ||
      (f64_ltb condExprValue metric && bool_decide (Operator e = LabelSelectorOpGt))).

(** ** EstimatePoolExpandSize *)

(** The loop that checks the actions and keeps the scale type of the last one *)
Fixpoint check_pool_actions (actionScaleType : string) (actions : list RuleAction) : outcome string :=
  match actions with
  | [] => Ok actionScaleType
  | a :: actions' =>
      if decide (Action_Name a ≠ StorageSpecAction)
      then Err (ErrNotSupported (Action_Name a) "EstimatePoolExpandSize for action")
      else if decide (Params a = ∅) then Err (ErrNotSupported "without params" "Pool expand action")
      else
        let t := default "" (Params a !! RuleScaleType) in
        if decide (t = "") then Err (ErrNotSupported "without param for scale type" "Pool expand action")
        else check_pool_actions t actions'
  end.

(** [poolBaseUsage] *)
Definition pool_base_usage (initialSize : Z) : Z :=
  if decide (initialSize < 32 * GiB) then 3 * GiB
  else u64_of_f64 f64_outside (f64_div (f64_of_Z initialSize) (f64_of_Z 10)).

(** The loop over the disks: the last one of the medium *)
Definition base_disk_size (medium : Z) (disks : list (string * StorageResource)) : Z :=
  fold_left (λ size d, if decide (Disk_Medium d.2 = medium) then Disk_Size d.2 else size) disks 0.

Definition pool_metric (total workload : Z) (key : string) : outcome float64 :=
  if decide (key = PxPoolAvailableCapacityMetric) then
    let availableSize := i64 (i64 total - i64 workload) in
    Ok (f64_div (f64_of_Z (i64 (availableSize * 100))) (f64_of_Z total))
  else if decide (key = PxPoolTotalCapacityMetric) then Ok (f64_div (f64_of_Z total) (f64_of_Z GiB))
  else Err (ErrNotSupported key "Pool Condition Expression Key").

(** [requiredScaleSize] of an action *)
Definition pool_scale_size (total : Z) (a : RuleAction) : outcome float64 :=
  match Params a !! RuleActionsScalePercentage with
  | Some v =>
      p ← ParseUint v;
      Ok (f64_of_Z (u64 (total * p) / 100))
  | None =>
      match Params a !! RuleActionsScaleSize with
      | Some v =>
          match ParseUint v with
          | Err err =>
              match ParseQuantity v with
              | Ok a => Ok (f64_of_Z (u64 a))
              | _ => Err err
              end
          | o => z ← o; Ok (f64_of_Z z)
          end
      | None => Ok (S754_zero false)
      end
  end.

Definition apply_pool_action (scaleType : string) (base ndisks total : Z) (a : RuleAction) : outcome Z :=
  required ← pool_scale_size total a;
  if decide (scaleType = RuleScaleTypeAddDisk) then
    let requiredNewDisks := u64_of_f64 f64_outside (f64_ceil (f64_div required (f64_of_Z base))) in
    Ok (u64 (total + u64 (requiredNewDisks * base)))
  else Ok (u64 (total + u64 (u64_of_f64 f64_outside required * ndisks))).

Fixpoint apply_pool_actions (scaleType : string) (base ndisks : Z) (actions : list RuleAction) (total : Z)
    : outcome Z :=
  match actions with
  | [] => Ok total
  | a :: actions' =>
      total' ← apply_pool_action scaleType base ndisks total a;
      apply_pool_actions scaleType base ndisks actions' total'
  end.

(** The loop over the expressions, the body of the outer loop *)
Fixpoint pool_pass (scaleType : string) (base ndisks workload : Z) (actions : list RuleAction)
    (exprs : list LabelSelectorRequirement) (total : Z) : outcome (Z + Z) :=
  match exprs with
  | [] => Ok (inr total)
  | e :: exprs' =>
      metric ← pool_metric total workload (Key e);
      hit ← doesConditionMatch metric e;
      if (hit : bool) then
        total' ← apply_pool_actions scaleType base ndisks actions total;
        pool_pass scaleType base ndisks workload actions exprs' total'
      else Ok (inl (total - total mod GiB))
  end.

Definition EstimatePoolExpandSize (fuel : nat) (apRule : AutopilotRule) (pool : StoragePool) (n : Node)
    : outcome Z :=
  actionScaleType ← check_pool_actions "" (Actions apRule);
  let initialSize := Pool_TotalSize (SP_AtInit pool) in
  let workloadSize := u64 (SP_WorkloadSize pool + pool_base_usage initialSize) in
  sn ← deref (storageNode n);
  let baseDiskSize := base_disk_size (Pool_Medium (SP_AtInit pool)) (range_disks (Disks sn)) in
  if decide (baseDiskSize = 0)
  then Err (Errorf ("failed to detect base disk size for pool: " +:+ Pool_Uuid (SP_pool pool)))
  else
    expand_loop (pool_pass actionScaleType baseDiskSize (Z.of_nat (size (Disks sn))) workloadSize
                   (Actions apRule) (Expressions apRule))
      fuel initialSize.

(** ** EstimateVolumeExpand *)

(** [parseMaxSize], less the two errors, which its callers only log; the size
    is 0 with both of them. *)
Definition parseMaxSize (maxSize : string) : Z :=
  match ParseUint maxSize with
  | Ok z => z
  | _ => match ParseQuantity maxSize with Ok a => u64 a | _ => 0 end
  end.

Definition volume_metric (total workload : Z) (key : string) : outcome float64 :=
  if decide (key = PxVolumeUsagePercentMetric) then
    Ok (f64_div (f64_mul (f64_of_Z (i64 workload)) (f64_of_Z 100)) (f64_of_Z total))
  else if decide (key = PxVolumeTotalCapacityMetric) then Ok (f64_div (f64_of_Z total) (f64_of_Z GB))
  else Err (ErrNotSupported key "Volume Condition Expression Key").

(** One action: [inl] returns the size and the number of resizes. *)
Definition apply_volume_action (initialSize : Z) (a : RuleAction) (s : Z * Z) : outcome (Z * Z + Z * Z) :=
  let '(total, resizeCount) := s in
  let maxSize := parseMaxSize <$> Params a !! RuleMaxSize in
  if (match maxSize with Some m => bool_decide (m <= total) | None => false end) then Ok (inl (total, 0))
  else
    p ← ParseUint (default "" (Params a !! RuleActionsScalePercentage));
    let requiredScaleSize := f64_of_Z (u64 (total * p) / 100) in
    let total' := u64 (total + u64_of_f64 f64_outside requiredScaleSize) in
    let resizeCount' := if decide (total' ≠ initialSize) then resizeCount + 1 else resizeCount in
    match maxSize with
    | Some m => if decide (m ≠ 0 ∧ m <= total') then Ok (inl (m, resizeCount')) else Ok (inr (total', resizeCount'))
    | None => Ok (inr (total', resizeCount'))
    end.

Fixpoint apply_volume_actions (initialSize : Z) (actions : list RuleAction) (s : Z * Z)
    : outcome (Z * Z + Z * Z) :=
  match actions with
  | [] => Ok (inr s)
  | a :: actions' =>
      r ← apply_volume_action initialSize a s;
      match r with
      | inl res => Ok (inl res)
      | inr s' => apply_volume_actions initialSize actions' s'
      end
  end.

Fixpoint volume_pass (initialSize workload : Z) (actions : list RuleAction)
    (exprs : list LabelSelectorRequirement) (s : Z * Z) : outcome (Z * Z + Z * Z) :=
  match exprs with
  | [] => Ok (inr s)
  | e :: exprs' =>
      metric ← volume_metric s.1 workload (Key e);
      hit ← doesConditionMatch metric e;
      if (hit : bool) then
        r ← apply_volume_actions initialSize actions s;
        match r with
        | inl res => Ok (inl res)
        | inr s' => volume_pass initialSize workload actions exprs' s'
        end
      else Ok (inl s)
  end.

(** The loop that checks the actions *)
Fixpoint check_volume_actions (actions : list RuleAction) : outcome unit :=
  match actions with
  | [] => Ok tt
  | a :: actions' =>
      if decide (Action_Name a ≠ VolumeSpecAction)
      then Err (ErrNotSupported (Action_Name a) "EstimateVolumeExpand for action")
      else check_volume_actions actions'
  end.

Definition EstimateVolumeExpand (fuel : nat) (apRule : AutopilotRule) (initialSize workloadSize : Z)
    : outcome (Z * Z) :=
  _ ← check_volume_actions (Actions apRule);
  expand_loop (volume_pass initialSize workloadSize (Actions apRule) (Expressions apRule))
    fuel (initialSize, 0).

(** ** What the estimates compute *)

(** Growing by a percentage *)
Definition grow (pct t : Z) : Z := t + t * pct / 100.

Lemma doesConditionMatch_lt metric key v :
  0 <= v < 2 ^ 53 →
  doesConditionMatch metric (expression key LabelSelectorOpLt [Itoa v]) = Ok (f64_ltb metric (f64_of_Z v)).
Proof.
  intros Hv. unfold doesConditionMatch. simpl. rewrite ParseFloat_Itoa by done. simpl. f_equal.
  by rewrite andb_true_r, andb_false_r, orb_false_r.
Qed.

(** One expansion of a volume by a percentage, in the range of exact floats *)
Lemma apply_volume_action_grow init t c p name :
  0 <= p < two64 → 0 <= t < 2 ^ 53 → t * p < two64 → t * p / 100 < 2 ^ 53 →
  apply_volume_action init {| Action_Name := name; Params := {[RuleActionsScalePercentage := Itoa p]} |} (t, c) =
    Ok (inr (grow p t, if decide (grow p t ≠ init) then c + 1 else c)).
Proof.
  intros Hp Ht Hm Hd. unfold apply_volume_action. simpl Params.
  rewrite lookup_singleton_ne, lookup_singleton_eq by done. simpl. rewrite ParseUint_Itoa by done. simpl.
  rewrite (u64_id (t * p)) by (split; nia).
  assert (0 <= t * p / 100) by (apply Z.div_pos; nia).
  rewrite u64_of_f64_of_Z by lia. rewrite u64_id by (unfold is_u64, two64; lia). done.
Qed.

Lemma volume_metric_total t wl v :
  volume_metric t wl (Key (expression PxVolumeTotalCapacityMetric LabelSelectorOpLt v)) =
    Ok (f64_div (f64_of_Z t) (f64_of_Z GB)).
Proof. reflexivity. Qed.

Lemma volume_pass_grows init wl cap p t c :
  0 < cap < 2 ^ 22 → t < cap * GB → 0 <= p < two64 → 0 < t < 2 ^ 53 → t * p < two64 → t * p / 100 < 2 ^ 53 →
  volume_pass init wl (Actions (PVCRuleByTotalSize cap p "")) (Expressions (PVCRuleByTotalSize cap p "")) (t, c) =
    Ok (inr (grow p t, if decide (grow p t ≠ init) then c + 1 else c)).
Proof.
  intros Hcap Hlt Hp Ht Hm Hd. unfold PVCRuleByTotalSize, with_maxsize. rewrite decide_True by done.
  cbn [Actions Expressions volume_pass apply_volume_actions fst].
  rewrite volume_metric_total. cbn [mbind outcome_bind]. rewrite doesConditionMatch_lt by lia.
  cbn [mbind outcome_bind]. unfold GB in *. rewrite f64_div_int_lt by lia.
  rewrite apply_volume_action_grow by lia. done.
Qed.

Lemma volume_pass_stops init wl cap p t c :
  0 < cap < 2 ^ 22 → cap * GB <= t → 0 < t < 2 ^ 53 →
  volume_pass init wl (Actions (PVCRuleByTotalSize cap p "")) (Expressions (PVCRuleByTotalSize cap p "")) (t, c) =
    Ok (inl (t, c)).
Proof.
  intros Hcap Hle Ht. unfold PVCRuleByTotalSize, with_maxsize. rewrite decide_True by done.
  cbn [Actions Expressions volume_pass fst]. rewrite volume_metric_total. cbn [mbind outcome_bind].
  rewrite doesConditionMatch_lt by lia. cbn [mbind outcome_bind]. unfold GB in *.
  by rewrite f64_div_int_ge by lia.
Qed.

Lemma grow_bound p t limit B :
  0 <= p → 0 <= t < limit → limit * (100 + p) <= 100 * B → grow p t < B.
Proof.
  intros Hp Ht Hl. unfold grow. pose proof (Z.div_mod (t * p) 100 ltac:(lia)).
  pose proof (Z.mod_pos_bound (t * p) 100 ltac:(lia)). nia.
Qed.

(** C11. With a rule of [PVCRuleByTotalSize], [EstimateVolumeExpand] computes in
    exact integers what autopilot does: the size grows by the percentage,
    rounded down, as long as it is below the capacity, and the number of
    resizes is the number of those steps; it returns for every amount of
    fuel beyond that number. *)
Theorem EstimateVolumeExpand_total_size cap p init wl :
  0 < cap < 2 ^ 22 → 0 < p < two64 → 0 < init < 2 ^ 53 → 100 <= init * p →
  Z.max init (cap * GB) * (100 + p) <= 100 * 2 ^ 53 →
  ∃ k, first_reach (grow p) (cap * GB) init k ∧
    ∀ fuel, (k < fuel)%nat →
      EstimateVolumeExpand fuel (PVCRuleByTotalSize cap p "") init wl =
        Ok (Nat.iter k (grow p) init, Z.of_nat k).
Proof.
  intros Hcap Hp Hinit Hgr Hbound.
  assert (∀ t, init <= t → t < grow p t) as Hgrow.
  { intros t Ht. unfold grow. assert (1 <= t * p / 100); [|lia]. apply Z.div_le_lower_bound; nia. }
  destruct (first_reach_exists (grow p) (cap * GB) init) as [k Hk]; [naive_solver lia|].
  pose proof (first_reach_grows _ _ _ _ (λ t Ht, Hgrow t (proj1 Ht)) Hk) as Hge. destruct Hk as [Hend Hall].
  exists k. split; [done|]. intros fuel Hf. unfold EstimateVolumeExpand.
  replace (check_volume_actions _) with (Ok tt : outcome unit) by reflexivity. cbn [mbind outcome_bind].
  set (next := λ s : Z * Z, (grow p s.1, s.2 + 1)).
  assert (∀ j, Nat.iter j next (init, 0) = (Nat.iter j (grow p) init, Z.of_nat j)) as Hiter.
  { induction j as [|j IH]; [done|]. simpl. rewrite IH. unfold next. simpl. f_equal. lia. }
  assert (∀ j, (j <= k)%nat → Nat.iter j (grow p) init < 2 ^ 53) as Hlt53.
  { intros [|j] Hj; [simpl; lia|]. simpl. pose proof (Hall j ltac:(lia)). pose proof (Hge j ltac:(lia)).
    apply (grow_bound _ _ (Z.max init (cap * GB))); lia. }
  assert (∀ t, init <= t < Z.max (init + 1) (cap * GB) → t * p < two64 ∧ t * p / 100 < 2 ^ 53) as Hfit.
  { intros t Ht. assert (t * p < 100 * 2 ^ 53) by nia. split; [unfold two64; lia|].
    apply Z.div_lt_upper_bound; lia. }
  apply (expand_loop_iter _ next k); [| |done].
  - intros j Hj. change (Nat.iter (1 + j) next (init, 0)) with (next (Nat.iter j next (init, 0))).
    rewrite Hiter. pose proof (Hge j ltac:(lia)). pose proof (Hlt53 j ltac:(lia)). pose proof (Hall j ltac:(lia)).
    destruct (Hfit (Nat.iter j (grow p) init)); [lia|].
    rewrite volume_pass_grows by lia. unfold next. simpl.
    rewrite decide_True; [done|]. specialize (Hgrow (Nat.iter j (grow p) init)). lia.
  - rewrite Hiter. pose proof (Hge k ltac:(lia)). pose proof (Hlt53 k ltac:(lia)).
    apply volume_pass_stops; lia.
Qed.

(** A percentage too small to add a byte makes [EstimateVolumeExpand] loop
    for ever: as long as the rule matches, no amount of fuel is enough. *)
Theorem EstimateVolumeExpand_stuck cap p init wl fuel :
  0 < cap < 2 ^ 22 → 0 <= p < two64 → 0 < init < cap * GB → init < 2 ^ 53 → init * p < 100 →
  EstimateVolumeExpand fuel (PVCRuleByTotalSize cap p "") init wl = Diverge.
Proof.
  intros Hcap Hp Hinit H53 Hsmall. unfold EstimateVolumeExpand.
  replace (check_volume_actions _) with (Ok tt : outcome unit) by reflexivity. cbn [mbind outcome_bind].
  apply (expand_loop_stuck _ (λ s, s.1 = init)); [|done]. intros [t c] Heq. simpl in Heq. subst t.
  assert (init * p / 100 = 0) as Hz by (apply Z.div_small; nia).
  eexists. split; [apply volume_pass_grows; (unfold two64; lia) || lia|]. simpl. unfold grow. lia.
Qed.

(** *** Rules with a maximal size *)

(** An action that scales by [p] percent up to [m] *)
Definition scales_up_to (a : RuleAction) (p m : Z) : Prop :=
  Action_Name a = VolumeSpecAction ∧ Params a !! RuleActionsScalePercentage = Some (Itoa p) ∧
  parseMaxSize <$> Params a !! RuleMaxSize = Some m.

Lemma apply_volume_action_max init a p m t c :
  scales_up_to a p m → 0 < p < two64 → 0 < m < 2 ^ 53 → m * (100 + p) <= 100 * 2 ^ 53 → 0 <= init <= t → t <= m →
  100 <= init * p →
  apply_volume_action init a (t, c) =
    if decide (t = m) then Ok (inl (m, 0))
    else if decide (m <= grow p t) then Ok (inl (m, c + 1)) else Ok (inr (grow p t, c + 1)).
Proof.
  intros (_ & Hp & Hmax) Hpb Hm Hbound Hi Ht Hgr. unfold apply_volume_action. rewrite Hmax, Hp. simpl.
  case_decide as Htm.
  { subst t. by rewrite bool_decide_eq_true_2 by lia. }
  rewrite bool_decide_eq_false_2 by lia. rewrite ParseUint_Itoa by lia. simpl.
  assert (t * p < 100 * 2 ^ 53) by nia. assert (100 <= t * p) by nia.
  assert (1 <= t * p / 100 < 2 ^ 53) by (split; [apply Z.div_le_lower_bound; lia|apply Z.div_lt_upper_bound; lia]).
  rewrite (u64_id (t * p)) by (unfold is_u64, two64; lia). rewrite u64_of_f64_of_Z by lia.
  rewrite u64_id by (unfold is_u64, two64; lia). unfold grow. rewrite (decide_True (P := _ ≠ init)) by lia.
  destruct (decide (m <= t + t * p / 100)), (decide (m ≠ 0 ∧ m <= t + t * p / 100)); done || lia.
Qed.

Lemma volume_metric_ok t wl key :
  key = PxVolumeUsagePercentMetric ∨ key = PxVolumeTotalCapacityMetric → ∃ f, volume_metric t wl key = Ok f.
Proof. intros [-> | ->]; unfold volume_metric; repeat case_decide; naive_solver. Qed.

(** Whether the condition holds of a volume of size [t] *)
Definition holds (wl : Z) (e : LabelSelectorRequirement) (t : Z) : bool :=
  match (metric ← volume_metric t wl (Key e); doesConditionMatch metric e) with Ok b => b | _ => false end.

(** One round under a maximal size: stop, or grow and stay below it *)
Lemma volume_pass_max init wl e v vs a p m t c :
  Values e = v :: vs → (Key e = PxVolumeUsagePercentMetric ∨ Key e = PxVolumeTotalCapacityMetric) →
  scales_up_to a p m → 0 < p < two64 → 0 < m < 2 ^ 53 → m * (100 + p) <= 100 * 2 ^ 53 → 0 <= init <= t → t <= m →
  100 <= init * p →
  volume_pass init wl [a] [e] (t, c) =
    if holds wl e t then
      if decide (t = m) then Ok (inl (m, 0))
      else if decide (m <= grow p t) then Ok (inl (m, c + 1)) else Ok (inr (grow p t, c + 1))
    else Ok (inl (t, c)).
Proof.
  intros Hval Hkey Ha Hp Hm Hbound Hi Ht Hgr. unfold holds. cbn [volume_pass fst].
  destruct (volume_metric_ok t wl (Key e) Hkey) as [f ->]. unfold doesConditionMatch. rewrite Hval.
  change (index (v :: vs) 0) with (Ok v : outcome string). cbn [mbind outcome_bind].
  match goal with |- context [if ?b then _ else _] => destruct b end; [|done].
  cbn [apply_volume_actions]. rewrite (apply_volume_action_max init a p m t c) by done.
  destruct (decide (t = m)); [done|]. by destruct (decide (m <= grow p t)).
Qed.

(** The estimate after [k] growth steps from [t], [c] resizes before: the condition held of
    every size before, and each step stayed below the maximal size.  It ends where the
    condition does not hold any more, with the number of steps; at the maximal size itself,
    with the number 0; or with the step that reaches it, which counts. *)
Definition stops_after (wl : Z) (e : LabelSelectorRequirement) (p m t c : Z) (k : nat) (r : Z * Z) : Prop :=
  (∀ j, (j < k)%nat → holds wl e (Nat.iter j (grow p) t) = true ∧ Nat.iter (S j) (grow p) t < m) ∧
  let size := Nat.iter k (grow p) t in
  if holds wl e size then
    if decide (size = m) then r = (m, 0) else m <= grow p size ∧ r = (m, c + Z.of_nat k + 1)
  else r = (size, c + Z.of_nat k).

Lemma stops_later wl e p m t c k r :
  holds wl e t = true → grow p t < m → stops_after wl e p m (grow p t) (c + 1) k r → stops_after wl e p m t c (S k) r.
Proof.
  intros Hh Hm [Hall Hend]. split.
  - intros [|j] Hj; [done|]. rewrite (Nat.iter_succ_r (S j)), (Nat.iter_succ_r j). apply Hall. lia.
  - cbv zeta in *. rewrite Nat.iter_succ_r. replace (c + Z.of_nat (S k)) with (c + 1 + Z.of_nat k) by lia. exact Hend.
Qed.

(** C18. For a rule with one condition on the usage or the capacity of a volume and one
    action that scales by a percentage up to a maximal size [m], and a volume of at most
    this size that the percentage makes grow, within the sizes that floats hold exactly:
    [EstimateVolumeExpand] returns with any fuel above the number of bytes to [m].  It
    grows the volume as long as the condition holds and [m] is not reached; the number of
    resizes it reports is that of the growth steps, the one that is cut off at [m]
    included, except that a volume that has the maximal size is reported with none. *)
Theorem EstimateVolumeExpand_max_size rule e v vs a p m init wl :
  Expressions rule = [e] → Values e = v :: vs →
  (Key e = PxVolumeUsagePercentMetric ∨ Key e = PxVolumeTotalCapacityMetric) →
  Actions rule = [a] → scales_up_to a p m →
  0 < p < two64 → 0 < m < 2 ^ 53 → m * (100 + p) <= 100 * 2 ^ 53 → 0 <= init <= m → 100 <= init * p →
  ∃ k size count, init <= size <= m ∧ stops_after wl e p m init 0 k (size, count) ∧
    ∀ fuel, (Z.to_nat (m - init) < fuel)%nat → EstimateVolumeExpand fuel rule init wl = Ok (size, count).
Proof.
  intros Hexpr Hval Hkey Hact Ha Hp Hm Hbound Hinit Hgr.
  assert (∀ fuel t c, init <= t <= m → (Z.to_nat (m - t) < fuel)%nat → ∃ k size count,
    init <= size <= m ∧ stops_after wl e p m t c k (size, count) ∧
    expand_loop (volume_pass init wl [a] [e]) fuel (t, c) = Ok (size, count)) as Hloop.
  { induction fuel as [|fuel IH]; intros t c Ht Hf; [lia|]. cbn [expand_loop].
    rewrite (volume_pass_max init wl e v vs a p m t c) by (done || lia).
    destruct (holds wl e t) eqn:Hh.
    2: { exists 0%nat, t, c. split_and!; [lia..| |done]. split; [lia|]. cbv zeta. simpl. rewrite Hh. f_equal. lia. }
    destruct (decide (t = m)) as [Hd|Hd].
    { exists 0%nat, m, 0. split_and!; [lia..| |done]. split; [lia|]. cbv zeta. simpl. by rewrite Hh, decide_True. }
    destruct (decide (m <= grow p t)) as [Hg|Hg].
    { exists 0%nat, m, (c + 1). split_and!; [lia..| |done]. split; [lia|]. cbv zeta. simpl. rewrite Hh, decide_False by done.
      split; [done|]. f_equal. lia. }
    assert (1 <= t * p / 100) by (apply Z.div_le_lower_bound; nia).
    destruct (IH (grow p t) (c + 1)) as (k & size & count & Hs & Hk & Hl); [unfold grow in *; lia..|].
    exists (S k), size, count. split_and!; [lia..| |done]. apply stops_later; [done|lia|done]. }
  destruct (Hloop (S (Z.to_nat (m - init))) init 0) as (k & size & count & Hs & Hk & Hl); [lia..|].
  exists k, size, count. split_and!; [lia..|done|]. intros fuel Hf. unfold EstimateVolumeExpand. rewrite Hact, Hexpr.
  destruct Ha as (Hname & _). cbn [check_volume_actions]. rewrite decide_False by (intros Hne; by apply Hne).
  cbn [mbind outcome_bind]. by apply (expand_loop_more _ (S (Z.to_nat (m - init)))).
Qed.

(** *** Pools *)

(** Every disk of the pool grows by the percentage of the pool. *)
Definition pool_grow (p ndisks t : Z) : Z := t + t * p / 100 * ndisks.

Lemma pool_metric_total t wl v :
  pool_metric t wl (Key (expression PxPoolTotalCapacityMetric LabelSelectorOpLt v)) =
    Ok (f64_div (f64_of_Z t) (f64_of_Z GiB)).
Proof. reflexivity. Qed.

Lemma pool_grow_bound p nd t limit B :
  0 <= p → 1 <= nd → 0 <= t < limit → limit * (100 + p * nd) <= 100 * B → t * p < 100 * B ∧ pool_grow p nd t < B.
Proof.
  intros Hp Hnd Ht Hl. unfold pool_grow. pose proof (Z.div_mod (t * p) 100 ltac:(lia)).
  pose proof (Z.mod_pos_bound (t * p) 100 ltac:(lia)).
  assert (p <= p * nd) by nia. assert (t * p <= t * (p * nd)) by nia.
  assert (t * (100 + p * nd) <= 100 * B - (100 + p * nd)) by nia.
  assert (100 * (t * p / 100 * nd) <= t * (p * nd)) by nia. split; lia.
Qed.

Lemma apply_pool_action_grow scaleType base nd t a p :
  scaleType ≠ RuleScaleTypeAddDisk → Params a !! RuleActionsScalePercentage = Some (Itoa p) →
  0 <= p < two64 → 0 <= t → 0 <= nd → t * p < 100 * 2 ^ 53 → pool_grow p nd t < 2 ^ 53 →
  apply_pool_action scaleType base nd t a = Ok (pool_grow p nd t).
Proof.
  intros Hs Hpar Hp Ht Hnd Hm Hb. unfold apply_pool_action, pool_scale_size. rewrite Hpar.
  rewrite ParseUint_Itoa by done. cbn [mbind outcome_bind]. rewrite decide_False by done.
  assert (0 <= t * p) by nia.
  assert (0 <= t * p / 100 < 2 ^ 53) by (split; [apply Z.div_pos; lia|apply Z.div_lt_upper_bound; lia]).
  rewrite (u64_id (t * p)) by (unfold is_u64, two64; lia). rewrite u64_of_f64_of_Z by lia.
  assert (0 <= t * p / 100 * nd) by nia. unfold pool_grow in *.
  rewrite (u64_id (t * p / 100 * nd)) by (unfold is_u64, two64; lia).
  by rewrite u64_id by (unfold is_u64, two64; lia).
Qed.

Section pool_rule.
Context (total p nd base wl : Z) (expandType : string) (labels : gmap string string).
Context (Htotal : 0 < total < 2 ^ 22) (Hp : 0 < p < two64) (Hnd : 0 < nd).
Context (Htype : expandType ≠ RuleScaleTypeAddDisk).

Let rule := PoolRuleByTotalSize total p expandType labels.

Lemma pool_pass_stops t :
  total * GiB <= t → 0 < t < 2 ^ 53 →
  pool_pass expandType base nd wl (Actions rule) (Expressions rule) t = Ok (inl (t - t mod GiB)).
Proof.
  intros Hle Ht. unfold rule, PoolRuleByTotalSize. cbn [Actions Expressions pool_pass].
  rewrite pool_metric_total. cbn [mbind outcome_bind]. rewrite doesConditionMatch_lt by lia.
  cbn [mbind outcome_bind]. rewrite f64_div_int_ge; [done|unfold GiB in *; lia..].
Qed.

Lemma pool_pass_grows t :
  t < total * GiB → 0 < t < 2 ^ 53 → t * p < 100 * 2 ^ 53 → pool_grow p nd t < 2 ^ 53 →
  pool_pass expandType base nd wl (Actions rule) (Expressions rule) t = Ok (inr (pool_grow p nd t)).
Proof.
  intros Hlt Ht Hm Hb. unfold rule, PoolRuleByTotalSize. cbn [Actions Expressions pool_pass apply_pool_actions].
  rewrite pool_metric_total. cbn [mbind outcome_bind]. rewrite doesConditionMatch_lt by lia.
  cbn [mbind outcome_bind]. rewrite f64_div_int_lt by (unfold GiB in *; lia).
  rewrite (apply_pool_action_grow _ _ _ _ _ p); [done|done|done|lia..].
Qed.
End pool_rule.

Lemma check_pool_rule total p expandType labels :
  expandType ≠ "" → check_pool_actions "" (Actions (PoolRuleByTotalSize total p expandType labels)) = Ok expandType.
Proof.
  intros Hne. unfold PoolRuleByTotalSize. cbn [Actions check_pool_actions Params Action_Name].
  rewrite decide_False by (intros Hc; by apply Hc). rewrite decide_False by apply insert_non_empty.
  rewrite lookup_insert_ne, lookup_singleton_eq by done. cbn. by rewrite decide_False.
Qed.

(** With a rule of [PoolRuleByTotalSize] that resizes disks,
    [EstimatePoolExpandSize] follows in exact integers the growth of the pool -
    every disk by the percentage of the pool - up to the first size that is at
    least the total of the rule, and rounds it down to whole GiB. *)
Theorem EstimatePoolExpandSize_total_size total p expandType labels pool n sn :
  0 < total < 2 ^ 22 → 0 < p < two64 → expandType ≠ "" → expandType ≠ RuleScaleTypeAddDisk →
  storageNode n = Some sn → base_disk_size (Pool_Medium (SP_AtInit pool)) (range_disks (Disks sn)) ≠ 0 →
  let init := Pool_TotalSize (SP_AtInit pool) in
  let nd := Z.of_nat (size (Disks sn)) in
  0 < nd → 0 < init < 2 ^ 53 → 100 <= init * p →
  Z.max init (total * GiB) * (100 + p * nd) <= 100 * 2 ^ 53 →
  ∃ k, first_reach (pool_grow p nd) (total * GiB) init k ∧
    ∀ fuel, (k < fuel)%nat →
      let t := Nat.iter k (pool_grow p nd) init in
      EstimatePoolExpandSize fuel (PoolRuleByTotalSize total p expandType labels) pool n = Ok (t - t mod GiB).
Proof.
  intros Htotal Hp Hne Htype Hsn Hbase init nd Hnd Hinit Hgr Hbound.
  assert (∀ t, init <= t → t < pool_grow p nd t) as Hgrow.
  { intros t Ht. unfold pool_grow. assert (1 <= t * p / 100) by (apply Z.div_le_lower_bound; nia). nia. }
  destruct (first_reach_exists (pool_grow p nd) (total * GiB) init) as [k Hk]; [naive_solver lia|].
  pose proof (first_reach_grows _ _ _ _ (λ t Ht, Hgrow t (proj1 Ht)) Hk) as Hge. destruct Hk as [Hend Hall].
  assert (∀ t, init <= t < total * GiB → t * p < 100 * 2 ^ 53 ∧ pool_grow p nd t < 2 ^ 53) as Hfit.
  { intros t Ht. apply (pool_grow_bound p nd t (Z.max init (total * GiB))); lia. }
  assert (∀ j, (j <= k)%nat → Nat.iter j (pool_grow p nd) init < 2 ^ 53) as Hlt53.
  { intros [|j] Hj; [simpl; lia|]. simpl. pose proof (Hall j ltac:(lia)). pose proof (Hge j ltac:(lia)).
    apply Hfit. lia. }
  exists k. split; [done|]. intros fuel Hf t. unfold EstimatePoolExpandSize.
  rewrite check_pool_rule by done. cbn [mbind outcome_bind]. rewrite Hsn. cbn [deref mbind outcome_bind].
  rewrite decide_False by done. apply (expand_loop_iter _ (pool_grow p nd) k); [| |done].
  - intros j Hj. pose proof (Hge j ltac:(lia)). pose proof (Hall j ltac:(lia)). pose proof (Hlt53 j ltac:(lia)).
    destruct (Hfit (Nat.iter j (pool_grow p nd) init)); [lia|].
    apply pool_pass_grows; fold init; done || lia.
  - pose proof (Hge k ltac:(lia)). pose proof (Hlt53 k ltac:(lia)).
    apply pool_pass_stops; fold init; done || lia.
Qed.
End estimates.

(** ** The pools of the cluster *)

Definition label_pair_matches (rule_labels pool_labels : gmap string string) (kv : string * string) : bool :=
  bool_decide (default "" (rule_labels !! kv.1) = default "" (pool_labels !! kv.1)) &&
  bool_decide (default "" (rule_labels !! kv.2) = default "" (pool_labels !! kv.2)).

Section pools.
Context `{ExpansionEnv}.
Context {W : Type} `{PxWorld W} `{NodeDriver W} `{SchedOps W} `{K8sCore W} `{PxSdk W} `{AutopilotApi W}.
Context (config_map : string) (fuel : nat).

(** [labelsMatch] of getExpectedPoolSizes *)
Definition labels_match (apRule : AutopilotRule) (pool : StoragePool) : bool :=
  existsb (label_pair_matches (MatchLabels apRule) (Pool_Labels (SP_pool pool)))
    (range_labels (MatchLabels apRule)).

Fixpoint expect_pools (apRule : AutopilotRule) (n : Node) (pools : list StoragePool)
    (expected : gmap string Z) : outcome (gmap string Z) :=
  match pools with
  | [] => Ok expected
  | pool :: pools' =>
      let u := Pool_Uuid (SP_pool pool) in
      expected' ←
        (if labels_match apRule pool then
           size ← EstimatePoolExpandSize fuel apRule pool n;
           Ok (<[u := size]> expected)
         else
           match expected !! u with
           | Some _ => Ok expected
           | None => Ok (<[u := Pool_TotalSize (SP_AtInit pool)]> expected)
           end);
      expect_pools apRule n pools' expected'
  end.

Fixpoint expect_nodes (apRule : AutopilotRule) (nodes : list Node) (expected : gmap string Z)
    : outcome (gmap string Z) :=
  match nodes with
  | [] => Ok expected
  | n :: nodes' =>
      expected' ← expect_pools apRule n (StoragePools n) expected;
      expect_nodes apRule nodes' expected'
  end.

Fixpoint expect_rules (rules : list AutopilotRule) (expected : gmap string Z) : M W (gmap string Z) :=
  match rules with
  | [] => mret expected
  | apRule :: rules' =>
      nodes ← registry_GetWorkerNodes;
      expected' ← lift (expect_nodes apRule nodes expected);
      expect_rules rules' expected'
  end.

Definition getExpectedPoolSizes (listApRules : list AutopilotRule) : M W (gmap string Z) :=
  attempt (RefreshDriverEndpoints config_map) (λ _, expect_rules listApRules ∅).

(** The double loop of the task of ValidateStoragePools: [None] when a pool is
    larger than expected, else whether all are of the expected size *)
Fixpoint compare_sizes (expected : gmap string Z) (pools : list StoragePool) (allDone : bool) : option bool :=
  match pools with
  | [] => Some allDone
  | pool :: pools' =>
      let expectedSize := default 0 (expected !! Pool_Uuid (SP_pool pool)) in
      let size := Pool_TotalSize (SP_pool pool) in
      if decide (expectedSize = size) then compare_sizes expected pools' allDone
      else if decide (expectedSize < size) then None
      else compare_sizes expected pools' false
  end.

Definition pool_sizes_task (expected : gmap string Z) : M W (task_result string) :=
  attempt (RefreshDriverEndpoints config_map) (λ r,
    match r with
    | inr err => mret (Retry err)
    | inl _ =>
        nodes ← registry_GetWorkerNodes;
        match compare_sizes expected (concat (StoragePools <$> nodes)) true with
        | None | Some true => mret (Done "")
        | Some false => mret (Retry (Errorf "some sizes of pools are not as expected"))
        end
    end).

Definition ValidateStoragePools : M W unit :=
  listApRules ← ListAutopilotRules;
  match listApRules with
  | [] => mret tt
  | _ =>
      expected ← getExpectedPoolSizes listApRules;
      _ ← DoRetryWithTimeout (pool_sizes_task expected)
            validateStoragePoolSizeTimeout validateStoragePoolSizeInterval;
      mret tt
  end.

Definition isAutopilotMatchStoragePoolLabels (apRule : AutopilotRule) (sPools : list StoragePool) : bool :=
  existsb (λ kv, existsb (λ pool, bool_decide (Pool_Labels (SP_pool pool) !! kv.1 = Some kv.2)) sPools)
    (range_labels (MatchLabels apRule)).

Fixpoint some_rule_matches (rules : list AutopilotRule) : M W bool :=
  match rules with
  | [] => mret false
  | apRule :: rules' =>
      nodes ← registry_GetWorkerNodes;
      if existsb (λ n, isAutopilotMatchStoragePoolLabels apRule (StoragePools n)) nodes then mret true
      else some_rule_matches rules'
  end.

Definition IsStorageExpansionEnabled : M W bool :=
  attempt (RefreshDriverEndpoints config_map) (λ _,
    listApRules ← ListAutopilotRules;
    some_rule_matches listApRules).

(** *** What a successful validation has seen *)

Lemma compare_sizes_spec expected pools b :
  match compare_sizes expected pools b with
  | None => ∃ pool, pool ∈ pools ∧ default 0 (expected !! Pool_Uuid (SP_pool pool)) < Pool_TotalSize (SP_pool pool)
  | Some true => b = true ∧ ∀ pool, pool ∈ pools →
      default 0 (expected !! Pool_Uuid (SP_pool pool)) = Pool_TotalSize (SP_pool pool)
  | Some false => True
  end.
Proof.
  revert b. induction pools as [|pool pools IH]; intros b; simpl.
  { destruct b; [|done]. split; [done|]. by intros pool ?%elem_of_nil. }
  case_decide as Heq; [|case_decide as Hlt].
  - specialize (IH b). destruct (compare_sizes expected pools b) as [[]|]; [|done|].
    + destruct IH as [-> IH]. split; [done|]. intros q [->|Hq]%elem_of_cons; auto.
    + destruct IH as (q & ? & ?). exists q. split; [by right|done].
  - exists pool. split; [by left|done].
  - specialize (IH false). destruct (compare_sizes expected pools false) as [[]|]; [|done|].
    + by destruct IH.
    + destruct IH as (q & ? & ?). exists q. split; [by right|done].
Qed.

(** A pool of a worker node of the registry *)
Definition worker_pool (w : W) (pool : StoragePool) : Prop :=
  ∃ u n, nodeRegistry (px w) !! u = Some n ∧ Type_ n = TypeWorker ∧ pool ∈ StoragePools n.

Context `{!PxWorldLaws W}.

(** When [ValidateStoragePools] returns without error there are no rules,
    or at the last look at the cluster every pool of a worker had exactly the
    expected size - or some pool was larger than expected, which is accepted as
    well. *)
Theorem ValidateStoragePools_success w w' :
  ValidateStoragePools w = (Ok tt, w') →
  (ListAutopilotRules w = (Ok [], w')) ∨
  ∃ rules w1 expected w2, ListAutopilotRules w = (Ok rules, w1) ∧
    getExpectedPoolSizes rules w1 = (Ok expected, w2) ∧
    ((∀ pool, worker_pool w' pool →
        Pool_TotalSize (SP_pool pool) = default 0 (expected !! Pool_Uuid (SP_pool pool))) ∨
     (∃ pool, worker_pool w' pool ∧
        default 0 (expected !! Pool_Uuid (SP_pool pool)) < Pool_TotalSize (SP_pool pool))).
Proof.
  intros Hv. apply bind_Ok_inv in Hv as (rules & w1 & Hl & Hv). destruct rules as [|r rules].
  { unfold mret, M_ret in Hv. simplify_eq. by left. }
  right. exists (r :: rules), w1. apply bind_Ok_inv in Hv as (expected & w2 & He & Hv).
  exists expected, w2. split; [done|]. split; [done|].
  apply bind_Ok_inv in Hv as (out & w3 & Hr & Hret). unfold mret, M_ret in Hret. simplify_eq.
  apply DoRetryWithTimeout_Ok_inv in Hr as [w4 Ht]. unfold pool_sizes_task, attempt in Ht.
  destruct (RefreshDriverEndpoints config_map w4) as [[[]|e|s|] w5]; [|done..].
  apply bind_Ok_inv in Ht as (nodes & w6 & Hn & Ht). apply registry_GetWorkerNodes_spec in Hn as [Hpx Hn].
  assert (∀ pool, pool ∈ concat (StoragePools <$> nodes) ↔ worker_pool w6 pool) as Hw.
  { intros pool. unfold worker_pool. rewrite Hpx, list_elem_of_In, in_concat. split.
    - intros (l & (n & -> & Hin)%list_elem_of_In%list_elem_of_fmap & Hp%list_elem_of_In).
      apply Hn in Hin as [[u Hu] Hty]. by exists u, n.
    - intros (u & n & Hu & Hty & Hp). exists (StoragePools n). rewrite <- !list_elem_of_In. split; [|done].
      apply list_elem_of_fmap. exists n. split; [done|]. apply Hn. split; [by exists u|done]. }
  pose proof (compare_sizes_spec expected (concat (StoragePools <$> nodes)) true) as Hc.
  destruct (compare_sizes _ _ _) as [[]|]; unfold mret, M_ret in Ht; simplify_eq.
  - left. intros pool Hp%Hw. symmetry. by apply Hc.
  - right. destruct Hc as (pool & Hin%Hw & Hlt). by exists pool.
Qed.
End pools.
