(* ===== verification/K8sAutopilot.v ===== *)
(** drivers/scheduler/k8s/k8s.go: autopilot as the scheduler driver sees it - where
    it and Portworx are installed, the events it publishes and the objects of its
    rules, and what it is expected to make of the claims of an application. *)

From Stdlib Require Import Ascii.
From S2P Require Import Prelude GoStrings Errors Effects Float64 Strconv Task NodeRegistry AutopilotRules SpecFactory PxDriver K8sObjects VolumeDrivers K8sNodes K8sApps PxExpansion.

(** ** Interfaces *)

(** An item of the status of an autopilot rule object *)
Record AroItem := {
  aro_State : string;
  aro_Message : string;
  aro_Timestamp : Z;
}.

Record Aro := {
  aro_Name : string;
  aro_Items : list AroItem;
}.

(** A Kubernetes event as it is watched: the kind of the object it is about, its
    message, count and time *)
Record WatchedEvent := {
  InvolvedKind : string;
  we_Message : string;
  we_Count : Z;
  we_LastTimestamp : Z;
}.

Class K8sAutopilotApi (W : Type) := {
  ListServices : M W (list (string * string));
  ListPods : string → string → M W (list Pod);
  ListAutopilotRuleObjects : string → M W (list Aro);
  ValidatePersistentVolumeClaimSize : Object → Z → Z → Z → M W unit;
  GetPodByName : string → string → M W Pod;
  pod_log_tail : string → string → Z → M W string;
  show_rule : AutopilotRule → string;
}.

Definition RuleStateInit : string := "Initializing".
Definition RuleStateNormal : string := "Normal".
Definition RuleStateTriggered : string := "Triggered".
Definition RuleStateActiveActionsPending : string := "ActiveActionsPending".
Definition RuleStateActiveActionsInProgress : string := "ActiveActionsInProgress".
Definition RuleStateActiveActionsTaken : string := "ActiveActionsTaken".

Definition autopilotDefaultNamespace : string := "kube-system".
Definition portworxServiceName : string := "portworx-service".
Definition PortworxNotDeployed : string := "portworx not deployed".
Definition AutopilotLabelNameKey : string := "name".
Definition AutopilotLabelValue : string := "autopilot".
Definition autopilotEnabledAnnotationKey : string := "torpedo.io/autopilot-enabled".
Definition specObjAppWorkloadSizeEnvVar : string := "SIZE".

(** ** Claims *)

(** [isAutopilotMatchPvcLabels]: one label in common is enough *)
Definition isAutopilotMatchPvcLabels (range : gmap string string → list (string * string))
    (apRule : AutopilotRule) (pvc : Object) : bool :=
  existsb (λ kv, bool_decide (default ∅ (Labels pvc) !! kv.1 = Some kv.2)) (range (MatchLabels apRule)).

(** [getSpecAppEnvVar]: the first variable of the name in a container of a
    deployment *)
Definition getSpecAppEnvVar (ctx : Context) (key : string) : string :=
  let envs := mjoin ((λ o, mjoin (ContainerEnv o)) <$>
                keep (λ o, bool_decide (obj_kind o = KDeployment)) (SpecList (App ctx))) in
  match find_first (λ e, bool_decide (e.1 = key)) envs with
  | Some e => e.2
  | None => ""
  end.

Definition GetWorkloadSizeFromAppSpec (ctx : Context) : outcome Z :=
  let appEnvVar := getSpecAppEnvVar ctx specObjAppWorkloadSizeEnvVar in
  if decide (appEnvVar = "") then Ok 0
  else
    match ParseUint appEnvVar with
    | Ok wSize => if decide (wSize < 1024) then Ok (u64 (wSize * GiB)) else Ok 0
    | Err err => Err (Errorf ("can't parse value " +:+ appEnvVar +:+ " of environment variable. Err: " +:+ Error err))
    | Panic s => Panic s
    | Diverge => Diverge
    end.

(** ** States of rule objects *)

(** The states an object went through, without the empty ones *)
Definition states_of (a : Aro) : list string :=
  keep (λ s, negb (bool_decide (s = ""))) (aro_State <$> aro_Items a).

Definition expectedAroStates : list string :=
  [RuleStateTriggered; RuleStateActiveActionsPending; RuleStateActiveActionsInProgress;
   RuleStateActiveActionsTaken; RuleStateNormal].

(** The states of [VerifyPoolResizeARO], each once *)
Fixpoint distinct_states (states acc : list string) : list string :=
  match states with
  | [] => acc
  | s :: states' =>
      distinct_states states' (if existsb (λ t, bool_decide (s = t)) acc then acc else acc ++ [s])
  end.

Definition resizeAroStates : list string :=
  [RuleStateTriggered; RuleStateActiveActionsPending; RuleStateActiveActionsInProgress;
   RuleStateActiveActionsTaken].

(** The counter of [VerifyPoolResizeARO] *)
Definition missing_states (aroStates : list string) : Z :=
  Z.of_nat (length resizeAroStates) -
  Z.of_nat (length (mjoin ((λ e, keep (λ a, bool_decide (e = a)) aroStates) <$> resizeAroStates))).

(** The loop of [VerifyPoolResizeARO] over the rule objects *)
Fixpoint resize_triggered (ruleName : string) (aros : list Aro) (ruleTriggered : bool) : outcome bool :=
  match aros with
  | [] => Ok ruleTriggered
  | a :: aros' =>
      if Contains (aro_Name a) ruleName then
        if decide (missing_states (distinct_states (states_of a) []) = 0)
        then resize_triggered ruleName aros' true
        else Err (Errorf ("autopilot rule object: " +:+ aro_Name a +:+ " doesn't have all expected states"))
      else resize_triggered ruleName aros' ruleTriggered
  end.

(** The loop of [WaitForRebalanceAROToComplete] over the items of one object *)
Fixpoint rebalance_done (started : bool) (startedAt : Z) (items : list AroItem) : bool :=
  match items with
  | [] => false
  | i :: items' =>
      if decide (aro_State i = "") then rebalance_done started startedAt items'
      else
        let here := Contains (aro_Message i) "Rebalance summary:" in
        let started' := started || here in
        let startedAt' := if here then aro_Timestamp i else startedAt in
        let taken := bool_decide (aro_State i = RuleStateActiveActionsTaken) ||
          (bool_decide (aro_State i = RuleStateNormal) &&
           Contains (aro_Message i) "ActiveActionsPending => Normal") in
        if taken && bool_decide (startedAt' < aro_Timestamp i) && started' then true
        else rebalance_done started' startedAt' items'
  end.

(** ** Events *)

Definition transition (objName from to : string) : string :=
  "rule: " +:+ objName +:+ " transition from " +:+ from +:+ " => " +:+ to.

(** The literal of [validateEvents], in the order it is written *)
Definition expected_events (objName : string) (count : Z) : list (string * Z) :=
  [(transition objName RuleStateInit RuleStateNormal, 1);
   (transition objName RuleStateNormal RuleStateTriggered, count);
   (transition objName RuleStateTriggered RuleStateActiveActionsPending, count);
   (transition objName RuleStateActiveActionsPending RuleStateActiveActionsInProgress, count);
   (transition objName RuleStateActiveActionsInProgress RuleStateActiveActionsTaken, count);
   (transition objName RuleStateActiveActionsTaken RuleStateNormal, count)].

(** Messages whose count has to be met exactly *)
Definition exact_event (message : string) : bool :=
  Contains message (RuleStateInit +:+ " => " +:+ RuleStateNormal) ||
  Contains message (RuleStateActiveActionsInProgress +:+ " => " +:+ RuleStateActiveActionsTaken) ||
  Contains message (RuleStateActiveActionsTaken +:+ " => " +:+ RuleStateNormal).

Fixpoint check_events (events : gmap string Z) (expected : list (string * Z)) : outcome unit :=
  match expected with
  | [] => Ok tt
  | (message, expectedCount) :: expected' =>
      match events !! message with
      | None => Err (Errorf ("expected event with message '" +:+ message +:+ "'"))
      | Some occurrences =>
          if exact_event message then
            if decide (occurrences ≠ expectedCount) then
              Err (Errorf ("expected number of occurances " +:+ Itoa expectedCount +:+ " for event message '" +:+
                message +:+ "'. Got: " +:+ Itoa occurrences))
            else check_events events expected'
          else if decide (expectedCount <= occurrences) then check_events events expected'
          else
            Err (Errorf ("expected number of occurances >= " +:+ Itoa expectedCount +:+ " for event message '" +:+
              message +:+ "'. Got: " +:+ Itoa occurrences))
      end
  end.

(** [validateEvents]; the expected events are a map, ranged over in some order *)
Definition validateEvents (range : list (string * Z) → list (string * Z)) (objName : string)
    (events : gmap string Z) (count : Z) : outcome unit :=
  if decide (count = 0) then Ok tt
  else check_events events (range (expected_events objName count)).

(** [int32(x)] *)
Definition i32 (z : Z) : Z := (z + 2147483648) mod 4294967296 - 2147483648.

Section autopilot.
Context `{ExpansionEnv}.
Context {W : Type} `{K8sWorld W} `{K8sClient W} `{AutopilotApi W} `{K8sAutopilotApi W}.
Context (volumes : VolumePackage) (fuel : nat) (range_events : list (string * Z) → list (string * Z)).

(** ** Namespaces *)

Definition GetPortworxNamespace : M W string :=
  allServices ← ListServices;
  let namespaces := snd <$> keep (λ svc, bool_decide (svc.1 = portworxServiceName)) allServices in
  match namespaces with
  | [] => throw (Errorf (PortworxNotDeployed +:+ " on this K8S cluster"))
  | ns0 :: _ =>
      let other := find_first (λ ns, bool_decide (ns ≠ "kube-system")) namespaces in
      match decide (length namespaces = 2%nat), other with
      | left _, Some ns => mret ns
      | _, _ =>
          if decide (2 < length namespaces)%nat then
            throw (Errorf ("Portworx service [" +:+ portworxServiceName +:+ "] is deployed in too many namespaces " +:+
              show_strings namespaces +:+ ", something is wrong here"))
          else mret ns0
      end
  end.

Definition GetAutopilotNamespace : M W string :=
  attempt GetPortworxNamespace (λ r,
    match r with
    | inr err =>
        if Contains (Error err) PortworxNotDeployed then mret autopilotDefaultNamespace
        else throw (Errorf ("Failed to find portworx namespace " +:+ Error err))
    | inl _ =>
        pods ← ListPods AutopilotLabelNameKey AutopilotLabelValue;
        let ns := match pods with p :: _ => pod_Namespace p | [] => "" end in
        if decide (ns = "") then
          throw (Errorf ("Failed to find autopilot namespace using pods with label [" +:+ AutopilotLabelNameKey +:+
            "=" +:+ AutopilotLabelValue +:+ "]"))
        else mret ns
    end).

Definition IsAutopilotEnabled : M W bool :=
  pods ← ListPods AutopilotLabelNameKey AutopilotLabelValue;
  match pods with
  | [] => throw (Errorf ("Failed to find autopilot pods with label [" +:+ AutopilotLabelNameKey +:+ "=" +:+
            AutopilotLabelValue +:+ "]"))
  | _ => mret true
  end.

(** ** Rule objects *)

Fixpoint check_aros (aros : list Aro) : outcome unit :=
  match aros with
  | [] => Ok tt
  | a :: aros' =>
      if decide (states_of a = expectedAroStates) then check_aros aros'
      else Err (Errorf ("autopilot rule object: " +:+ aro_Name a +:+ " doesn't have all expected states"))
  end.

Definition ValidateAutopilotRuleObjects : M W unit :=
  namespace ← GetAutopilotNamespace;
  aros ← ListAutopilotRuleObjects namespace;
  lift (check_aros aros).

Definition VerifyPoolResizeARO (rule : AutopilotRule) : M W bool :=
  namespace ← wrap_err (λ _, Errorf "No Namespace") GetAutopilotNamespace;
  aros ← wrap_err (λ _, Errorf "No ARO available") (ListAutopilotRuleObjects namespace);
  match aros with
  | [] => throw (Errorf "The list of autopilot rule objects is empty, please make sure that you have an appropriate autopilot rule")
  | _ =>
      triggered ← lift (resize_triggered (Rule_Name rule) aros false);
      if (triggered : bool) then mret true
      else throw (Errorf ("No ARO found for rule: " +:+ show_rule rule +:+ " "))
  end.

Definition rebalance_task : M W (task_result unit) :=
  attempt GetAutopilotNamespace (λ r,
    match r with
    | inr err => mret (Stop err)
    | inl namespace =>
        attempt (ListAutopilotRuleObjects namespace) (λ r',
          match r' with
          | inr err => mret (Retry err)
          | inl [] => mret (Retry (Errorf "The list of autopilot rule objects is empty, please make sure that you have an appropriate autopilot rule"))
          | inl aros =>
              if existsb (λ a, rebalance_done false 0 (aro_Items a)) aros then mret (Done tt)
              else mret (Retry (Errorf "Rebalance ARO not completed or did not start yet"))
          end)
    end).

Definition WaitForRebalanceAROToComplete : M W unit :=
  DoRetryWithTimeout rebalance_task (30 * Minute) (60 * Second).

(** ** Expansion of claims *)

(** [volDriver.EstimateVolumeExpand] of the driver with the name: Portworx computes
    it, the other drivers answer from the table *)
Definition driver_EstimateVolumeExpand (name : string) (apRule : AutopilotRule) (initialSize wSize : Z)
    : outcome (Z * Z) :=
  if decide (name = pxd_DriverName) then EstimateVolumeExpand fuel apRule initialSize wSize
  else
    d ← VolumeDrivers.Get name volumes;
    match dispatch d "EstimateVolumeExpand" with
    | Some a => _ ← answer_outcome a; Ok (0, 0)
    | None => Ok (0, 0)
    end.

Definition EstimatePVCExpansion (pvc : Object) (apRule : AutopilotRule) (wSize : Z) : M W (Z * Z) :=
  k ← get_k8s;
  let initialPVCSize := u64 (StorageRequest pvc) in
  _ ← lift (if decide (VolDriverName k = pxd_DriverName) then Ok tt
            else _ ← VolumeDrivers.Get (VolDriverName k) volumes; Ok tt);
  if isAutopilotMatchPvcLabels range_labels apRule pvc
  then lift (driver_EstimateVolumeExpand (VolDriverName k) apRule initialPVCSize wSize)
  else mret (initialPVCSize, 0).

Definition validatePVCSize (ctx : Context) (obj : Object) (rule : AutopilotRule) (timeout retryInterval : Z)
    : M W unit :=
  wSize ← lift (GetWorkloadSizeFromAppSpec ctx);
  '(expectedPVCSize, _) ← EstimatePVCExpansion obj rule wSize;
  wrap_err (app_failed AppErrFailedToValidateStorage ctx
      ("Failed to validate size: " +:+ Itoa expectedPVCSize +:+ " of PVC: " +:+ obj_Name obj +:+
       ", Namespace: " +:+ obj_Namespace obj +:+ ". Err: "))
    (ValidatePersistentVolumeClaimSize obj (i64 expectedPVCSize) timeout retryInterval).

(** *** Events *)

(** One event of the channel in [collectEvents]; [t] is when the collection
    started *)
Definition collect_event (t : Z) (e : WatchedEvent) : M W unit := λ w,
  let s := k8s w in
  if decide (we_LastTimestamp e <= t) then (Ok tt, w)
  else
    let storage := default [] (eventsStorage s !! InvolvedKind e) in
    (Ok tt, set_k8s {| NodeDriverName := NodeDriverName s; VolDriverName := VolDriverName s;
      PureVolumes := PureVolumes s;
      eventsStorage := <[InvolvedKind e := storage ++
        [{| ev_Message := we_Message e; ev_Count := we_Count e; ev_LastSeen := we_LastTimestamp e |}]]>
        (eventsStorage s);
      defaultTorpedoLabel := defaultTorpedoLabel s; config := config s |} w).

(** The loop of [collectEvents] over the events received so far *)
Definition collectEvents (t : Z) (received : list WatchedEvent) : M W unit := for_each (collect_event t) received.

Definition GetEvents : M W (gmap string (list SchedEvent)) := λ w, (Ok (eventsStorage (k8s w)), w).

(** [eventMap] of [ValidateAutopilotEvents]: the last event with a message counts *)
Definition event_counts (events : list SchedEvent) : gmap string Z :=
  foldl (λ m e, <[ev_Message e := ev_Count e]> m) ∅ events.

(** One rule in [ValidateAutopilotEvents] *)
Definition validate_rule_events (eventMap : gmap string Z) (obj : Object) (wSize : Z) (rule : AutopilotRule)
    : M W unit :=
  '(_, resizeCount) ← EstimatePVCExpansion obj rule wSize;
  let coolDownPeriod := if decide (ActionsCoolDownPeriod rule = 0) then 5 else ActionsCoolDownPeriod rule in
  _ ← pause (Second * (coolDownPeriod + 10));
  lift (validateEvents range_events (Rule_Name rule +:+ ":pvc-" +:+ obj_UID obj) eventMap (i32 resizeCount)).

(** [strconv.ParseBool]: its error names the function and the value *)
Definition parse_annotation (s : string) : outcome bool :=
  if existsb (λ t, bool_decide (s = t)) ["0"; "f"; "F"; "FALSE"; "false"; "False"; "1"; "t"; "T"; "TRUE"; "true"; "True"]
  then Ok (ParseBool s)
  else Err (Errorf ("strconv.ParseBool: parsing " +:+ quoted s +:+ ": invalid syntax")).

Definition validate_claim_events (ctx : Context) (eventMap : gmap string Z) (obj : Object) : M W unit :=
  match obj_kind obj with
  | KPersistentVolumeClaim =>
      autopilotEnabled ← lift (match Annotations obj !! autopilotEnabledAnnotationKey with
                               | Some v => parse_annotation v
                               | None => Ok false
                               end);
      if (autopilotEnabled : bool) then
        rules ← ListAutopilotRules;
        wSize ← lift (GetWorkloadSizeFromAppSpec ctx);
        for_each (validate_rule_events eventMap obj wSize) rules
      else mret tt
  | _ => mret tt
  end.

Definition ValidateAutopilotEvents (ctx : Context) : M W unit :=
  events ← GetEvents;
  for_each (validate_claim_events ctx (event_counts (default [] (events !! "AutopilotRule")))) (SpecList (App ctx)).

Definition IsAutopilotEnabledForVolume (annotations : gmap string string) : bool :=
  match annotations !! autopilotEnabledAnnotationKey with
  | Some v => ParseBool v
  | None => false
  end.

(** ** Bandwidth of a pod *)

(** The digits at the start of a string, and the first run of digits in it
    ([FindAll([0-9]+)[0]]) *)
Fixpoint digits_prefix (s : string) : string :=
  match s with
  | String c s' => if is_digit c then String c (digits_prefix s') else ""
  | EmptyString => ""
  end.

Fixpoint first_number (s : string) : option string :=
  match s with
  | EmptyString => None
  | String c s' => if is_digit c then Some (digits_prefix s) else first_number s'
  end.

Fixpoint scan_iops (lines : list string) : option (outcome Z) :=
  match lines with
  | [] => None
  | line :: lines' =>
      if Contains line "iops" then
        match first_number line with
        | None => Some (Panic "index out of range [0] with length 0")
        | Some d =>
            match Atoi d with
            | Ok speed => if decide (speed = 0) then scan_iops lines' else Some (Ok speed)
            | _ => Some (Err (Errorf "Error in getting the speed"))
            end
        end
      else scan_iops lines'
  end.

Definition GetIOBandwidth (podName namespace : string) : M W Z :=
  pod ← wrap_err (λ _, Errorf "error in getting FIO PODS") (GetPodByName podName namespace);
  log ← pod_log_tail (pod_Name pod) (pod_Namespace pod) 250;
  match scan_iops (Split log "010"%char) with
  | Some o => lift o
  | None => throw (Errorf ("pod " +:+ podName +:+ " does not have bandwidth in logs"))
  end.

End autopilot.

(** ** Properties *)

(** *** Events *)

Lemma split_at_char c (u v u' v' : string) :
  string_forall (λ x, negb (Ascii.eqb x c)) u = true → string_forall (λ x, negb (Ascii.eqb x c)) v = true →
  u +:+ String c v = u' +:+ String c v' → v = v'.
Proof.
  revert u'. induction u as [|d u IH]; intros u' Hu Hv; destruct u' as [|d' u']; simpl in *.
  - intros He. by simplify_eq.
  - intros He. simplify_eq. rewrite string_forall_app in Hv. simpl in Hv.
    by rewrite Ascii.eqb_refl, andb_false_r in Hv.
  - intros He. simplify_eq. by rewrite Ascii.eqb_refl in Hu.
  - intros He. simplify_eq. apply andb_true_iff in Hu as [_ Hu]. by eapply IH.
Qed.

(** A text with the character once can only contain a pattern with it around that
    place. *)
Lemma Contains_at_char c u v x y :
  string_forall (λ a, negb (Ascii.eqb a c)) u = true → string_forall (λ a, negb (Ascii.eqb a c)) v = true →
  Contains (u +:+ String c v) (x +:+ String c y) = true → HasPrefix v y = true.
Proof.
  intros Hu Hv (a & b & He)%Contains_spec. rewrite app_assoc_s in He. rewrite <- app_assoc_s in He. simpl in He.
  apply split_at_char in He; [|done..]. rewrite He. apply HasPrefix_app.
Qed.

(** A name without the arrow of the messages *)
Definition no_arrow (objName : string) : Prop := string_forall (λ a, negb (Ascii.eqb a ">")) objName = true.

Lemma transition_arrow objName from to :
  transition objName from to =
  ("rule: " +:+ objName +:+ " transition from " +:+ from +:+ " =") +:+ String ">" (" " +:+ to).
Proof. unfold transition. by rewrite !app_assoc_s. Qed.

Lemma exact_event_no objName from to :
  no_arrow objName → no_arrow from → no_arrow to →
  HasPrefix (" " +:+ to) " Normal" = false → HasPrefix (" " +:+ to) " ActiveActionsTaken" = false →
  exact_event (transition objName from to) = false.
Proof.
  intros Ho Hf Ht Hn Ha. unfold no_arrow in *. rewrite transition_arrow. unfold exact_event.
  set (u := "rule: " +:+ objName +:+ " transition from " +:+ from +:+ " =").
  assert (string_forall (λ a, negb (Ascii.eqb a ">")) u = true) as Hu.
  { unfold u. rewrite !string_forall_app, Ho, Hf. done. }
  assert (string_forall (λ a, negb (Ascii.eqb a ">")) (" " +:+ to) = true) as Hv by (simpl; by rewrite Ht).
  assert (∀ x y, HasPrefix (" " +:+ to) y = false →
    Contains (u +:+ String ">" (" " +:+ to)) (x +:+ String ">" y) = false) as Hc.
  { intros x y Hy. apply not_true_iff_false. intros Hx.
    apply Contains_at_char in Hx; [|done..]. congruence. }
  rewrite !orb_false_iff. split_and!.
  - apply (Hc "Initializing =" " Normal" Hn).
  - apply (Hc "ActiveActionsInProgress =" " ActiveActionsTaken" Ha).
  - apply (Hc "ActiveActionsTaken =" " Normal" Hn).
Qed.

Lemma exact_event_yes objName from to :
  (from, to) ∈ [(RuleStateInit, RuleStateNormal); (RuleStateActiveActionsInProgress, RuleStateActiveActionsTaken);
         (RuleStateActiveActionsTaken, RuleStateNormal)] →
  exact_event (transition objName from to) = true.
Proof.
  intros Hp. assert (Contains (transition objName from to) (from +:+ " => " +:+ to) = true) as Hc.
  { apply Contains_spec. exists ("rule: " +:+ objName +:+ " transition from "), "".
    rewrite app_empty_r. unfold transition. by rewrite !app_assoc_s. }
  unfold exact_event. rewrite !elem_of_cons, elem_of_nil in Hp.
  destruct Hp as [?|[?|[?|[]]]]; simplify_eq; rewrite Hc; by rewrite ?orb_true_r.
Qed.

Lemma check_events_Ok events expected :
  check_events events expected = Ok tt ↔
  ∀ m c, (m, c) ∈ expected → ∃ n, events !! m = Some n ∧ if exact_event m then n = c else c <= n.
Proof.
  induction expected as [|[m c] l IH]; simpl; [set_solver|].
  transitivity ((∃ n, events !! m = Some n ∧ if exact_event m then n = c else c <= n) ∧
                check_events events l = Ok tt).
  - destruct (events !! m) as [n|]; [|naive_solver]. destruct (exact_event m); case_decide; naive_solver.
  - rewrite IH. setoid_rewrite elem_of_cons. naive_solver.
Qed.

(** C31. The events of an object are accepted exactly when it was initialised once, took
    its action and returned to normal exactly as often as it was to be resized, and
    was triggered, pending and in progress at least as often. *)
Theorem validateEvents_spec range objName events count :
  (∀ l, range l ≡ₚ l) → no_arrow objName → count ≠ 0 →
  let seen from to n := events !! transition objName from to = Some n in
  validateEvents range objName events count = Ok tt ↔
  seen RuleStateInit RuleStateNormal 1 ∧
  seen RuleStateActiveActionsInProgress RuleStateActiveActionsTaken count ∧
  seen RuleStateActiveActionsTaken RuleStateNormal count ∧
  ∃ a b c, seen RuleStateNormal RuleStateTriggered a ∧
    seen RuleStateTriggered RuleStateActiveActionsPending b ∧
    seen RuleStateActiveActionsPending RuleStateActiveActionsInProgress c ∧
    count <= a ∧ count <= b ∧ count <= c.
Proof.
  intros Hr Ho Hc seen. unfold validateEvents. rewrite decide_False by done. rewrite check_events_Ok.
  assert ((∀ m c, (m, c) ∈ range (expected_events objName count) →
      ∃ n, events !! m = Some n ∧ if exact_event m then n = c else c <= n) ↔
    Forall (λ mc, ∃ n, events !! mc.1 = Some n ∧ if exact_event mc.1 then n = mc.2 else mc.2 <= n)
      (expected_events objName count)) as ->.
  { rewrite Forall_forall. setoid_rewrite (Hr (expected_events objName count)).
    split; [intros Hx [m c]; apply Hx|intros Hx m c; apply (Hx (m, c))]. }
  unfold expected_events. rewrite !Forall_cons, Forall_nil. simpl.
  rewrite (exact_event_yes objName RuleStateInit), (exact_event_yes objName RuleStateActiveActionsInProgress),
    (exact_event_yes objName RuleStateActiveActionsTaken) by set_solver.
  rewrite !exact_event_no by done. unfold seen. split.
  - intros ((? & ? & ->) & (a & ? & ?) & (b & ? & ?) & (c & ? & ?) & (? & ? & ->) & (? & ? & ->) & _).
    split_and!; [done..|]. by exists a, b, c.
  - intros (? & ? & ? & a & b & c & ? & ? & ? & ? & ? & ?). split_and!; eauto.
Qed.

(** *** Rule objects *)

Lemma distinct_states_spec states acc :
  NoDup acc → NoDup (distinct_states states acc) ∧
  ∀ s, s ∈ distinct_states states acc ↔ s ∈ acc ∨ s ∈ states.
Proof.
  revert acc. induction states as [|s states IH]; intros acc Hnd; simpl; [set_solver|].
  assert (existsb (λ t, bool_decide (s = t)) acc = true ↔ s ∈ acc) as He.
  { rewrite existsb_exists. setoid_rewrite bool_decide_eq_true. setoid_rewrite <- list_elem_of_In. naive_solver. }
  destruct (existsb _ acc).
  - destruct (IH acc Hnd) as [? Hs]. split; [done|]. intros t. rewrite Hs. set_solver.
  - destruct (IH (acc ++ [s])) as [? Hs]; [|split; [done|]; intros t; rewrite Hs; set_solver].
    apply NoDup_app. split_and!; [done|set_solver|apply NoDup_singleton].
Qed.

Lemma keep_eq_length (l : list string) s :
  NoDup l → length (keep (λ a, bool_decide (s = a)) l) = (if decide (s ∈ l) then 1 else 0)%nat.
Proof.
  induction 1 as [|x l Hx Hnd IH]; simpl; [done|]. case_bool_decide as Hs.
  - subst. simpl. rewrite IH, decide_False by done. by rewrite decide_True by (by left).
  - rewrite IH. apply decide_ext. set_solver.
Qed.

(** All the states of a resize occur. *)
Definition all_resize_states (states : list string) : Prop := ∀ s, s ∈ resizeAroStates → s ∈ states.

(** The counter reaches zero exactly when all expected states were seen. *)
Lemma missing_states_zero states :
  missing_states (distinct_states states []) = 0 ↔ all_resize_states states.
Proof.
  unfold all_resize_states. destruct (distinct_states_spec states []) as [Hnd Hs]; [constructor|].
  assert (∀ s, s ∈ distinct_states states [] ↔ s ∈ states) as Hd by (intros s; rewrite Hs; set_solver).
  rewrite <- Forall_forall. unfold missing_states, resizeAroStates.
  rewrite !Forall_cons, Forall_nil, <- !Hd. clear Hd Hs. revert Hnd.
  generalize (distinct_states states []) as l. intros l Hnd.
  cbn [length fmap list_fmap mjoin list_join]. rewrite !length_app, !keep_eq_length by done.
  repeat case_decide; simpl; (split; [|naive_solver]); intros; try lia; by split_and!.
Qed.

Lemma resize_triggered_spec ruleName aros b :
  resize_triggered ruleName aros b = Ok true ↔
  (b = true ∨ Exists (λ a, Contains (aro_Name a) ruleName = true) aros) ∧
  Forall (λ a, Contains (aro_Name a) ruleName = true → all_resize_states (states_of a)) aros.
Proof.
  revert b. induction aros as [|a aros IH]; intros b; simpl.
  - rewrite Exists_nil, Forall_nil. split; [intros [= ->]; tauto|intuition congruence].
  - rewrite Exists_cons, Forall_cons. destruct (Contains (aro_Name a) ruleName) eqn:Ec.
    + case_decide as Hm; rewrite missing_states_zero in Hm; [rewrite IH|]; intuition congruence.
    + rewrite IH. intuition congruence.
Qed.

Section autopilot_theorems.
Context `{ExpansionEnv}.
Context {W : Type} `{K8sWorldLaws W} `{K8sClient W} `{AutopilotApi W} `{K8sAutopilotApi W}.

(** [VerifyPoolResizeARO] answers true exactly when an object is named after the
    rule and every such object went through all the states of a resize, in any
    order and any number of times. *)
Theorem VerifyPoolResizeARO_spec rule w ns w1 aros w2 :
  GetAutopilotNamespace w = (Ok ns, w1) → ListAutopilotRuleObjects ns w1 = (Ok aros, w2) →
  VerifyPoolResizeARO rule w = (Ok true, w2) ↔
  (∃ a, a ∈ aros ∧ Contains (aro_Name a) (Rule_Name rule) = true) ∧
  ∀ a, a ∈ aros → Contains (aro_Name a) (Rule_Name rule) = true → all_resize_states (states_of a).
Proof.
  intros Hn Hl. unfold VerifyPoolResizeARO.
  rewrite (bind_Ok _ _ _ _ _ (wrap_err_Ok _ _ _ _ _ Hn)), (bind_Ok _ _ _ _ _ (wrap_err_Ok _ _ _ _ _ Hl)).
  transitivity (resize_triggered (Rule_Name rule) aros false = Ok true).
  - destruct aros as [|a aros]; [split; done|]. unfold mbind, M_bind, lift.
    destruct (resize_triggered _ _ _) as [[]|e|s|]; split; intros Hx; simplify_eq; done.
  - rewrite resize_triggered_spec, Exists_exists, Forall_forall. intuition congruence.
Qed.

(** *** Rebalancing *)

Definition summary (i : AroItem) : Prop := Contains (aro_Message i) "Rebalance summary:" = true.

Definition action_taken (i : AroItem) : Prop :=
  aro_State i = RuleStateActiveActionsTaken ∨
  (aro_State i = RuleStateNormal ∧ Contains (aro_Message i) "ActiveActionsPending => Normal" = true).

Lemma rebalance_done_sound items started at_ :
  rebalance_done started at_ items = true →
  ∃ pre t post, items = pre ++ t :: post ∧ action_taken t ∧
    ((started = true ∧ at_ < aro_Timestamp t) ∨
     ∃ s, s ∈ pre ∧ summary s ∧ aro_Timestamp s < aro_Timestamp t).
Proof.
  revert started at_. induction items as [|i items IH]; intros started at_; simpl; [done|].
  set (here := Contains (aro_Message i) "Rebalance summary:").
  assert (∀ st a, rebalance_done st a items = true →
    (st = true ∧ a = at_ → started = true ∨ here = true) → 
    (st = true → (started = true ∧ a = at_) ∨ (here = true ∧ a = aro_Timestamp i)) →
    ∃ pre t post, i :: items = pre ++ t :: post ∧ action_taken t ∧
      ((started = true ∧ at_ < aro_Timestamp t) ∨
       ∃ s, s ∈ pre ∧ summary s ∧ aro_Timestamp s < aro_Timestamp t)) as Hrec.
  { intros st a (pre & t & post & -> & Ht & Hc)%IH _ Hst. exists (i :: pre), t, post.
    split_and!; [done..|]. destruct Hc as [[Hs Ha]|(s & Hin & Hsum & Hlt)].
    - destruct (Hst Hs) as [[? ->]|[Hh ->]]; [by left|]. right. exists i. split_and!; [by left|done..].
    - right. exists s. split_and!; [by right|done..]. }
  case_decide; [intros Hr; apply (Hrec _ _ Hr); naive_solver|].
  destruct (_ && _ && _) eqn:Et.
  - intros _. rewrite !andb_true_iff, bool_decide_eq_true in Et. destruct Et as [[Htk Hlt] Hst].
    exists [], i, items. split_and!; [done| |].
    + rewrite orb_true_iff, andb_true_iff, !bool_decide_eq_true in Htk. exact Htk.
    + left. destruct here; [lia|]. by rewrite orb_false_r in Hst.
  - intros Hr. apply (Hrec _ _ Hr); destruct here, started; naive_solver.
Qed.

(** When the wait for rebalancing ends without an error, the last look at the rule
    objects found one whose action was taken after a rebalance summary that
    precedes it. *)
Theorem WaitForRebalanceAROToComplete_success w w' :
  WaitForRebalanceAROToComplete w = (Ok tt, w') →
  ∃ w1 w2 ns aros a pre t post s, GetAutopilotNamespace w1 = (Ok ns, w2) ∧
    ListAutopilotRuleObjects ns w2 = (Ok aros, w') ∧ a ∈ aros ∧ aro_Items a = pre ++ t :: post ∧
    action_taken t ∧ s ∈ pre ∧ summary s ∧ aro_Timestamp s < aro_Timestamp t.
Proof.
  intros [w1 Ht]%DoRetryWithTimeout_Ok_inv. unfold rebalance_task, attempt in Ht.
  destruct (GetAutopilotNamespace w1) as [[ns|e|s|] w2] eqn:En; try done.
  destruct (ListAutopilotRuleObjects ns w2) as [[aros|e|s|] w3] eqn:El; try done.
  destruct aros as [|a0 aros]; [done|]. destruct (existsb _ _) eqn:Ex; [|done].
  unfold mret, M_ret in Ht. simplify_eq.
  apply existsb_exists in Ex as (a & Hin & (pre & t & post & Hi & Hta & Hc)%rebalance_done_sound).
  destruct Hc as [[? _]|(s & Hs & Hsum & Hlt)]; [done|].
  exists w1, w2, ns, (a0 :: aros), a, pre, t, post, s. rewrite list_elem_of_In. by split_and!.
Qed.

(** *** Collecting events *)

(** The counts the validation of a kind of object would use in a world *)
Definition counts_of (kind : string) (w : W) : gmap string Z :=
  event_counts (default [] (eventsStorage (k8s w) !! kind)).

Definition counted (t : Z) (kind msg : string) (e : WatchedEvent) : bool :=
  bool_decide (t < we_LastTimestamp e) && bool_decide (InvolvedKind e = kind) && bool_decide (we_Message e = msg).

Lemma collect_event_counts t e w kind msg :
  ∃ w', collect_event t e w = (Ok tt, w') ∧
    counts_of kind w' !! msg = if counted t kind msg e then Some (we_Count e) else counts_of kind w !! msg.
Proof.
  unfold collect_event, counted. case_decide as Ht.
  { exists w. by rewrite (bool_decide_false (t < _)) by lia. }
  eexists. split; [done|]. unfold counts_of. rewrite k8s_set_k8s. simpl.
  rewrite bool_decide_true by lia. simpl. case_bool_decide as Hk; simpl.
  - subst kind. rewrite lookup_insert_eq. simpl. unfold event_counts at 1. rewrite foldl_app. simpl.
    rewrite lookup_insert. case_bool_decide as Hm; [by rewrite decide_True|by rewrite decide_False].
  - by rewrite lookup_insert_ne.
Qed.

(** The count used for a message is that of the last event received about it since
    the collection started, and events from before do not count. *)
Theorem collectEvents_counts t received w kind msg :
  counts_of kind (collectEvents t received w).2 !! msg =
  match last (keep (counted t kind msg) received) with
  | Some e => Some (we_Count e)
  | None => counts_of kind w !! msg
  end.
Proof.
  unfold collectEvents. revert w. induction received as [|e l IH]; intros w; simpl; [done|].
  destruct (collect_event_counts t e w kind msg) as (w1 & He & Hc).
  rewrite (bind_Ok _ _ _ _ _ He), IH, Hc. destruct (counted t kind msg e); [|done].
  rewrite last_cons. by destruct (last _).
Qed.
End autopilot_theorems.

(** *** Sizes of workloads *)

(** The size of the workload of an application is its environment variable in GiB
    below 1024; a size given in bytes, as the test of the code for 1024 expects,
    counts as no workload at all. *)
Theorem GetWorkloadSizeFromAppSpec_spec ctx n :
  ParseUint (getSpecAppEnvVar ctx specObjAppWorkloadSizeEnvVar) = Ok n →
  GetWorkloadSizeFromAppSpec ctx = Ok (if decide (n < 1024) then n * GiB else 0).
Proof.
  intros Hp. unfold GetWorkloadSizeFromAppSpec. case_decide as He.
  { by rewrite He in Hp. }
  rewrite Hp. case_decide; [|done]. f_equal. apply u64_id.
  pose proof (ParseUint_range _ _ Hp). unfold is_u64, two64, GiB in *. lia.
Qed.
