(* ===== verification/K8sDestroy.v ===== *)
(** drivers/scheduler/k8s/k8s.go: destroying the objects of an application - the
    functions [Destroy] runs over the specs of a context, one pass after the other,
    and what is left in the cluster after it. *)

From Stdlib Require Import Ascii.
From S2P Require Import Prelude GoStrings Errors Effects Task NodeRegistry AutopilotRules SpecFactory PxDriver K8sObjects VolumeDrivers K8sSpecs K8sNodes K8sHelm K8sCreate K8sCreateProps K8sApps PxExpansion K8sAutopilot.

(** The deletes of the clients, by the type of object; cluster-scoped types ignore
    the namespace *)
Class K8sDelete (W : Type) := {
  client_Delete : Kind → string → string → M W unit;
}.

Definition OptionsWaitForDestroy : string := "WAIT_FOR_DESTROY".
Definition OptionsWaitForResourceLeakCleanup : string := "WAIT_FOR_RESOURCE_LEAK_CLEANUP".

(** [value, ok := opts[key]; ok && value] *)
Definition option_on (opts : gmap string bool) (key : string) : bool := default false (opts !! key).

(** The dynamic types of the [pods] an object had *)
Inductive PodsValue :=
  | PodSlice (pods : list Pod)
  | PodPointers (pods : list (option Pod)).

(** [pods.([]corev1.Pod)] *)
Definition as_slice (v : PodsValue) : outcome (list Pod) :=
  match v with
  | PodSlice l => Ok l
  | PodPointers _ => Panic "interface conversion: interface {} is []*v1.Pod, not []v1.Pod"
  end.

(** A webhook configuration of the older API by value, which is what the type switch
    of [destroyAdmissionRegistrationObjects] looks for; the specs are pointers *)
Definition webhook_v1beta1_value : Kind := KOther "v1beta1.ValidatingWebhookConfiguration".

Section destroy.
Context {W : Type} `{SchedWorld W} `{K8sClient W} `{SpecFiles} `{HelmLib W} `{K8sCreateApi W}.
Context `{K8sAppsApi W} `{K8sAutopilotApi W} `{K8sDelete W}.

(** ** One object *)

Definition destroy_failed (app : AppSpec Object) (msg : string) (err : error) : error :=
  AppErr AppErrFailedToDestroyApp (Key app) (msg +:+ Error err).

(** Delete, or report the failure as one of the application *)
Definition destroy_object (app : AppSpec Object) (what ns : string) (o : Object) : M W unit :=
  wrap_err (destroy_failed app ("Failed to " +:+ what +:+ ": " +:+ obj_Name o +:+ ". Err: "))
    (client_Delete (obj_kind o) (obj_Name o) ns).

(** The pods of an object when resource leaks are checked: an error is only logged *)
Definition pods_before (leaks : bool) (m : M W (list Pod)) : M W (option PodsValue) :=
  if leaks then
    attempt m (λ r, mret (Some (PodSlice (match r with inl l => l | inr _ => [] end))))
  else mret None.

Definition pod_before (leaks : bool) (o : Object) : M W (option PodsValue) :=
  if leaks then
    attempt (GetPodByName (obj_Name o) (obj_Namespace o)) (λ r,
      mret (Some (PodPointers [match r with inl p => Some p | inr _ => None end])))
  else mret None.

(** The error of a call next to the pods *)
Definition with_error (pods : option PodsValue) (m : M W unit) : M W (option PodsValue * option error) :=
  attempt m (λ r, mret (pods, match r with inl _ => None | inr e => Some e end)).

Definition destroyCoreObject (opts : gmap string bool) (app : AppSpec Object) (o : Object)
    : M W (option PodsValue * option error) :=
  let leaks := option_on opts OptionsWaitForResourceLeakCleanup in
  let ns := obj_Namespace o in
  match obj_kind o with
  | KDeployment =>
      pods ← pods_before leaks (GetDeploymentPods o);
      with_error pods (destroy_object app "destroy Deployment" ns o)
  | KStatefulSet =>
      pods ← pods_before leaks (GetStatefulSetPods o);
      with_error pods (destroy_object app "destroy stateful set" ns o)
  | KService => with_error None (destroy_object app "destroy Service" ns o)
  | KRule => with_error None (destroy_object app "destroy Rule" ns o)
  | KPod =>
      pods ← pod_before leaks o;
      with_error pods (wrap_err (λ err, AppErr AppErrFailedToDestroyPod (Key app)
          ("Failed to destroy Pod: " +:+ obj_Name o +:+ ". Err: " +:+ Error err))
        (DeletePod (obj_Name o) ns false))
  | KConfigMap =>
      _ ← (if leaks then attempt (client_Get KConfigMap (obj_Name o) ns) (λ _, mret tt) else mret tt);
      with_error None (destroy_object app "destroy config map" ns o)
  | KAutopilotRule => with_error None (destroy_object app "destroy AutopilotRule" "" o)
  | _ => mret (None, None)
  end.

Definition destroyAdmissionRegistrationObjects (app : AppSpec Object) (o : Object) : M W unit :=
  if decide (obj_kind o = KValidatingWebhookConfiguration) then
    destroy_object app "destroy ValidatingWebhookConfiguration" "" o
  else if decide (obj_kind o = webhook_v1beta1_value) then
    destroy_object app "destroy ValidatingWebhookConfigurationV1beta1" "" o
  else mret tt.

Definition destroyCRDObjects (app : AppSpec Object) (o : Object) : M W unit :=
  match obj_kind o with
  | KCRDv1 => destroy_object app "destroy CRD" "" o
  | KCRDv1beta1 => destroy_object app "destroy CRDV1beta1" "" o
  | _ => mret tt
  end.

Definition destroyVirtualMachineObjects (app : AppSpec Object) (o : Object) : M W unit :=
  match obj_kind o with
  | KVirtualMachine => destroy_object app "destroy VirtualMachine" (obj_Namespace o) o
  | _ => mret tt
  end.

Definition destroyCustomResourceObjects (app : AppSpec Object) (o : Object) : M W unit :=
  match obj_kind o with
  | KCustomResourceObjectYAML =>
      let cryaml := Path (Spec o) in
      let msg := "Failed to destroy Custom Resource Object: " +:+ obj_Name o +:+ ". Err: " in
      missing ← Stat_missing cryaml;
      if (missing : bool) then
        throw (AppErr AppErrFailedToDestroyApp (Key app) (msg +:+ "Cannot find yaml in path: " +:+ cryaml))
      else
        wrap_err (destroy_failed app msg) (Kubectl ["delete"; "-f"; cryaml; "-n"; obj_Namespace o])
  | _ => mret tt
  end.

Definition destroyMigrationObject (app : AppSpec Object) (o : Object) : M W unit :=
  let ns := obj_Namespace o in
  match obj_kind o with
  | KClusterPair => destroy_object app "delete ClusterPair" ns o
  | KMigration => destroy_object app "delete Migration" ns o
  | KMigrationSchedule => destroy_object app "delete MigrationSchedule" ns o
  | KSchedulePolicy => destroy_object app "delete SchedulePolicy" "" o
  | KResourceTransformation => destroy_object app "delete ResourceTransformation" ns o
  | _ => mret tt
  end.

Definition destroyVolumeSnapshotRestoreObject (app : AppSpec Object) (o : Object) : M W unit :=
  match obj_kind o with
  | KVolumeSnapshotRestore => destroy_object app "delete VolumeSnapshotRestore" (obj_Namespace o) o
  | _ => mret tt
  end.

Definition destroyBackupObjects (app : AppSpec Object) (o : Object) : M W unit :=
  let ns := obj_Namespace o in
  match obj_kind o with
  | KBackupLocation => destroy_object app "delete BackupLocation" ns o
  | KApplicationBackup => destroy_object app "delete ApplicationBackup" ns o
  | KApplicationRestore => destroy_object app "delete ApplicationRestore" ns o
  | KApplicationClone => destroy_object app "delete ApplicationClone" ns o
  | _ => mret tt
  end.

Definition destroyRbacObjects (app : AppSpec Object) (o : Object) : M W unit :=
  match obj_kind o with
  | KClusterRole => destroy_object app "destroy ClusterRole" "" o
  | KClusterRoleBinding => destroy_object app "destroy ClusterRoleBinding" "" o
  | KServiceAccount => destroy_object app "destroy ServiceAccount" (obj_Namespace o) o
  | _ => mret tt
  end.

Definition destroyPodDisruptionBudgetObjects (app : AppSpec Object) (o : Object) : M W unit :=
  match obj_kind o with
  | KPodDisruptionBudget => destroy_object app "destroy PodDisruptionBudget" (obj_Namespace o) o
  | _ => mret tt
  end.

Definition destroyServiceMonitorObjects (app : AppSpec Object) (o : Object) : M W unit :=
  match obj_kind o with
  | KServiceMonitor => destroy_object app "destroy ServiceMonitor" (obj_Namespace o) o
  | _ => mret tt
  end.

(** ** The passes *)

(** The closure of every pass but that of the core objects: all errors are retried *)
Definition destroy_task (f : AppSpec Object → Object → M W unit) (app : AppSpec Object) (o : Object)
    : M W (task_result unit) :=
  attempt (f app o) (λ r, match r with inl _ => mret (Done tt) | inr err => mret (Retry err) end).

Definition destroy_pass (f : AppSpec Object → Object → M W unit) (app : AppSpec Object) : M W unit :=
  for_each (λ o, DoRetryWithTimeout (destroy_task f app o) k8sDestroyTimeout DefaultRetryInterval) (SpecList app).

(** The closure for core objects: objects that are not found count as destroyed *)
Definition core_task (opts : gmap string bool) (app : AppSpec Object) (o : Object)
    : M W (task_result (option PodsValue)) :=
  '(currPods, err) ← destroyCoreObject opts app o;
  match err with
  | Some e => if Contains (Error e) "not found" then mret (Done currPods) else mret (Retry e)
  | None => mret (Done currPods)
  end.

(** The loop over the core objects collects pods only after an error, and
    [DoRetryWithTimeout] answers nil next to an error. *)
Fixpoint core_pass (opts : gmap string bool) (app : AppSpec Object) (specs : list Object) (podList : list Pod)
    : M W (list Pod) :=
  match specs with
  | [] => mret podList
  | o :: specs' =>
      podList' ← attempt (DoRetryWithTimeout (core_task opts app o) k8sDestroyTimeout DefaultRetryInterval) (λ r,
        match r with
        | inl _ => mret podList
        | inr err =>
            if option_on opts OptionsWaitForResourceLeakCleanup then
              let pods : option PodsValue := None in
              match pods with
              | Some v => l ← lift (as_slice v); mret (podList ++ l)
              | None => mret podList
              end
            else throw err
        end);
      core_pass opts app specs' podList'
  end.

Fixpoint uninstall_charts (specs : list Object) : M W (list Object) :=
  match specs with
  | [] => mret []
  | o :: specs' =>
      l ← match obj_kind o with
          | KHelmRepo => UnInstallHelmChart (obj_Namespace o) (helm (Spec o))
          | _ => mret []
          end;
      rest ← uninstall_charts specs';
      mret (l ++ rest)
  end.

(** [true] when [Destroy] returns nil at once *)
Definition destroy_rule (ruleName : string) : M W bool :=
  if decide (ruleName = "") then mret false else
  attempt (client_Delete KAutopilotRule ruleName "") (λ r,
    match r with
    | inl _ => mret false
    | inr err => if Contains (Error err) "not found" then mret true else throw err
    end).

(** The passes after the rule, up to the waiting *)
Definition destroy_passes (opts : gmap string bool) (app : AppSpec Object) : M W (list Pod) :=
  _ ← destroy_pass destroyAdmissionRegistrationObjects app;
  _ ← destroy_pass destroyRbacObjects app;
  podList ← core_pass opts app (SpecList app) [];
  _ ← destroy_pass destroyVolumeSnapshotRestoreObject app;
  _ ← destroy_pass destroyMigrationObject app;
  _ ← destroy_pass destroyBackupObjects app;
  _ ← destroy_pass destroyServiceMonitorObjects app;
  _ ← destroy_pass destroyPodDisruptionBudgetObjects app;
  _ ← destroy_pass destroyVirtualMachineObjects app;
  _ ← destroy_pass destroyCRDObjects app;
  mret podList.

Definition destroy_waits (opts : gmap string bool) (ctx : Context) (podList : list Pod) : M W unit :=
  if option_on opts OptionsWaitForResourceLeakCleanup then
    _ ← WaitForDestroy ctx k8sDestroyTimeout;
    waitForCleanup ctx podList
  else if option_on opts OptionsWaitForDestroy then WaitForDestroy ctx k8sDestroyTimeout
  else mret tt.

(** [RemoveAppSpecsByName] on the context of the caller *)
Definition remove_specs (removeSpecs : list Object) : M (W * Context) unit := λ wc,
  let '(r, ctx') := RemoveAppSpecsByName removeSpecs wc.2 in (r, (wc.1, ctx')).

(** [Destroy] on the world and the context behind the pointer it is given *)
Definition Destroy (opts : gmap string bool) : M (W * Context) unit :=
  ctx ← get_local;
  _ ← up (destroy_pass destroyCustomResourceObjects (App ctx));
  removeSpecs ← up (uninstall_charts (SpecList (App ctx)));
  _ ← remove_specs removeSpecs;
  ctx ← get_local;
  gone ← up (destroy_rule (Rule_Name (opt_AutopilotRule (ScheduleOpts ctx))));
  if (gone : bool) then mret tt else
  podList ← up (destroy_passes opts (App ctx));
  up (destroy_waits opts ctx podList).

End destroy.

(** ** What is destroyed *)

(** The types of the passes, and where their deletes look for an object *)
Definition deleted_in_namespace : list Kind :=
  [KServiceAccount; KDeployment; KStatefulSet; KService; KRule; KPod; KConfigMap; KVolumeSnapshotRestore; KClusterPair;
   KMigration; KMigrationSchedule; KResourceTransformation; KBackupLocation; KApplicationBackup; KApplicationRestore;
   KApplicationClone; KServiceMonitor; KPodDisruptionBudget; KVirtualMachine].
Definition deleted_by_name : list Kind :=
  [KValidatingWebhookConfiguration; KClusterRole; KClusterRoleBinding; KAutopilotRule; KSchedulePolicy; KCRDv1;
   KCRDv1beta1].
Definition destroyed_kinds : list Kind := deleted_in_namespace ++ deleted_by_name.

(** The types whose deletes may fail with "not found" *)
Definition core_deleted : list Kind :=
  [KDeployment; KStatefulSet; KService; KRule; KPod; KConfigMap; KAutopilotRule].

(** Created by [CreateSpecObjects], and untouched by [Destroy] *)
Definition leaked_kinds : list Kind :=
  [KStorageClass; KPersistentVolumeClaim; KVolumeSnapshot; KGroupVolumeSnapshot; KPersistentVolume; KTask; KPipeline;
   KRole; KRoleBinding; KSecret; KEndpoints; KNetworkPolicy; KIngress; KCronJob; KJob; webhook_v1beta1].

Section destroy_theorems.
Context {W : Type} `{SchedWorld W} `{K8sClient W} `{SpecFiles} `{HelmLib W} `{K8sCreateApi W}.
Context `{K8sAppsApi W} `{K8sAutopilotApi W} `{K8sDelete W}.

Definition target_namespace (o : Object) : string :=
  if decide (obj_kind o ∈ deleted_by_name) then "" else obj_Namespace o.

(** The request that deletes an object *)
Definition delete_request (o : Object) : M W unit :=
  if decide (obj_kind o = KPod) then DeletePod (obj_Name o) (obj_Namespace o) false
  else client_Delete (obj_kind o) (obj_Name o) (target_namespace o).

(** One call of the passes and of the waiting after them.  None of them creates. *)
Inductive destroying : W → W → Prop :=
  | destroying_delete k n ns w : destroying w (client_Delete k n ns w).2
  | destroying_pod n ns force w : destroying w (DeletePod n ns force w).2
  | destroying_sleep d w : destroying w (sleep d w)
  | destroying_deployment o t i w : destroying w (ValidateTerminatedDeployment o t i w).2
  | destroying_set o t i w : destroying w (ValidateTerminatedStatefulSet o t i w).2
  | destroying_service n ns w : destroying w (ValidateDeletedService n ns w).2
  | destroying_wait u ns t w : destroying w (WaitForPodDeletion u ns t w).2.

(** The request for the object was answered without an error, and from there the run went
    on to the world. *)
Definition deleted (o : Object) (w : W) : Prop :=
  ∃ wa wb, delete_request o wa = (Ok tt, wb) ∧ rtc destroying wb w.

(** The request for a core object was answered with an error that makes a "not found" of
    the message of the application. *)
Definition tolerated (app : AppSpec Object) (o : Object) : Prop :=
  obj_kind o ∈ core_deleted ∧
  ∃ e w1 w2 k msg, delete_request o w1 = (Err e, w2) ∧
    Contains (Error (AppErr k (Key app) (msg +:+ Error e))) "not found" = true.

(** A call that is one of [destroying] *)
Class Destroying {A} (m : M W A) : Prop := destroying_by : ∀ w, destroying w (m w).2.

#[local] Instance destroying_client_Delete k n ns : Destroying (client_Delete k n ns).
Proof. intros w. constructor. Qed.
#[local] Instance destroying_DeletePod n ns force : Destroying (DeletePod n ns force).
Proof. intros w. constructor. Qed.
#[local] Instance destroying_terminated_deployment o t i : Destroying (ValidateTerminatedDeployment o t i).
Proof. intros w. constructor. Qed.
#[local] Instance destroying_terminated_set o t i : Destroying (ValidateTerminatedStatefulSet o t i).
Proof. intros w. constructor. Qed.
#[local] Instance destroying_deleted_service n ns : Destroying (ValidateDeletedService n ns).
Proof. intros w. constructor. Qed.
#[local] Instance destroying_pod_deletion u ns t : Destroying (WaitForPodDeletion u ns t).
Proof. intros w. constructor. Qed.

Lemma deleted_later o w w1 : deleted o w → destroying w w1 → deleted o w1.
Proof. intros (wa & wb & Hd & Hr) Hs. exists wa, wb. split; [done|]. by eapply rtc_r. Qed.

Lemma keeps_deleted {A} (m : M W A) o : Destroying m → preserves (deleted o) m.
Proof. intros Hm w Hw. eapply deleted_later; [done|]. apply Hm. Qed.

Lemma sleep_deleted o d w : deleted o w → deleted o (sleep d w).
Proof. intros Hw. eapply deleted_later; [done|]. constructor. Qed.

Hint Resolve sleep_deleted : torpedo.
Hint Extern 1 (preserves _ _) => apply keeps_deleted; apply _ : torpedo.

Lemma keeps_destroy_object app what ns o x : preserves (deleted x) (destroy_object app what ns o).
Proof. unfold destroy_object. preserve. Qed.

Hint Resolve keeps_destroy_object : torpedo.

Definition pass_keeps (f : AppSpec Object → Object → M W unit) : Prop := ∀ app o x, preserves (deleted x) (f app o).

Lemma destroy_task_keeps f app o x : pass_keeps f → preserves (deleted x) (destroy_task f app o).
Proof. intros Hf. unfold destroy_task. specialize (Hf app o x). preserve. Qed.

Lemma destroy_pass_keeps f app x : pass_keeps f → preserves (deleted x) (destroy_pass f app).
Proof.
  intros Hf. apply preserves_for_each. intros o. apply preserves_DoRetry; [by apply destroy_task_keeps|].
  intros d w. apply sleep_deleted.
Qed.

(** A pass destroys the objects of its types. *)
Lemma destroy_pass_gone f (ks : list Kind) app w w' :
  pass_keeps f →
  (∀ o w1 w2, obj_kind o ∈ ks → f app o w1 = (Ok tt, w2) → deleted o w2) →
  destroy_pass f app w = (Ok tt, w') →
  ∀ o, o ∈ SpecList app → obj_kind o ∈ ks → deleted o w'.
Proof.
  intros Hk Hf Hp o Ho Hkind. revert Hkind.
  change ((λ o w, obj_kind o ∈ ks → deleted o w) o w').
  eapply (for_each_establishes _ _ (SpecList app) w w'); [|clear o Ho|exact Hp|done].
  - intros x y w1 Hy Hks. eapply preserves_DoRetry; [by apply destroy_task_keeps| |by apply Hy].
    intros d w2. apply sleep_deleted.
  - intros x w1 w2 _ Hd Hks. apply DoRetryWithTimeout_Ok_inv in Hd as (w3 & Hd).
    unfold destroy_task, attempt in Hd. destruct (f app x w3) as [[[]|e|s|] w4] eqn:E; try done.
    injection Hd as <-. by eapply Hf.
Qed.

Lemma destroy_object_gone app what ns o w w' :
  obj_kind o ≠ KPod → ns = target_namespace o → destroy_object app what ns o w = (Ok tt, w') → deleted o w'.
Proof.
  intros Hk -> Hd%wrap_err_Ok_inv. exists w, w'. split; [|done]. unfold delete_request. by rewrite decide_False.
Qed.

(** A function of a pass keeps what is gone, and deletes the objects of its types. *)
Definition destroys (f : AppSpec Object → Object → M W unit) (ks : list Kind) : Prop :=
  pass_keeps f ∧ ∀ app o w1 w2, obj_kind o ∈ ks → f app o w1 = (Ok tt, w2) → deleted o w2.

Tactic Notation "destroys_tac" reference(f) :=
  split; intros app o; unfold f;
  [ intros x; preserve
  | intros w1 w2 Hk Hd; repeat case_decide; destruct (obj_kind o) eqn:E; try done;
    try (exfalso; revert Hk; apply (bool_decide_unpack _); vm_compute; exact I);
    (eapply destroy_object_gone; [by rewrite E| |exact Hd]; unfold target_namespace; rewrite E; reflexivity) ].

Lemma admission_destroys : destroys destroyAdmissionRegistrationObjects [KValidatingWebhookConfiguration].
Proof. destroys_tac destroyAdmissionRegistrationObjects. Qed.
Lemma rbac_destroys : destroys destroyRbacObjects [KClusterRole; KClusterRoleBinding; KServiceAccount].
Proof. destroys_tac destroyRbacObjects. Qed.
Lemma restore_destroys : destroys destroyVolumeSnapshotRestoreObject restore_kinds.
Proof. destroys_tac destroyVolumeSnapshotRestoreObject. Qed.
Lemma migration_destroys : destroys destroyMigrationObject migration_kinds.
Proof. destroys_tac destroyMigrationObject. Qed.
Lemma backup_destroys : destroys destroyBackupObjects backup_kinds.
Proof. destroys_tac destroyBackupObjects. Qed.
Lemma monitor_destroys : destroys destroyServiceMonitorObjects monitor_kinds.
Proof. destroys_tac destroyServiceMonitorObjects. Qed.
Lemma budget_destroys : destroys destroyPodDisruptionBudgetObjects budget_kinds.
Proof. destroys_tac destroyPodDisruptionBudgetObjects. Qed.
Lemma machine_destroys : destroys destroyVirtualMachineObjects machine_kinds.
Proof. destroys_tac destroyVirtualMachineObjects. Qed.
Lemma crd_destroys : destroys destroyCRDObjects crd_kinds.
Proof. destroys_tac destroyCRDObjects. Qed.

(** What a pass adds to the types that are gone *)
Lemma destroy_pass_adds (Q : Object → Prop) f ks app w w' :
  destroys f ks → destroy_pass f app w = (Ok tt, w') →
  ∀ done : list Kind,
  (∀ o, o ∈ SpecList app → obj_kind o ∈ done → deleted o w ∨ Q o) →
  (∀ o, o ∈ SpecList app → obj_kind o ∈ done ++ ks → deleted o w' ∨ Q o).
Proof.
  intros [Hk Hf] Hp done Hd o Ho [Hin|Hin]%elem_of_app.
  - destruct (Hd o Ho Hin) as [Hg|]; [left|by right].
    pose proof (destroy_pass_keeps f app o Hk w Hg) as Hg'. by rewrite Hp in Hg'.
  - left. eapply destroy_pass_gone; [done| |done..]. intros. by eapply Hf.
Qed.

Lemma with_error_keeps pods m x : preserves (deleted x) m → preserves (deleted x) (with_error pods m).
Proof. intros. unfold with_error. preserve. Qed.

Lemma with_error_none pods (m : M W unit) p w w' : with_error pods m w = (Ok (p, None), w') → m w = (Ok tt, w').
Proof.
  unfold with_error, attempt. destruct (m w) as [[[]|e|s|] w1]; try done. unfold mret, M_ret. naive_solver.
Qed.

Lemma core_keeps opts app o x :
  option_on opts OptionsWaitForResourceLeakCleanup = false → preserves (deleted x) (destroyCoreObject opts app o).
Proof.
  intros Hl. unfold destroyCoreObject, pods_before, pod_before. rewrite Hl. cbv zeta.
  destruct (obj_kind o); preserve; apply with_error_keeps; preserve.
Qed.

Lemma core_task_keeps opts app o x :
  option_on opts OptionsWaitForResourceLeakCleanup = false → preserves (deleted x) (core_task opts app o).
Proof.
  intros Hl. apply preserves_bind; [by apply core_keeps|]. intros [pods err]. preserve.
Qed.

Lemma destroy_core_gone opts app o w w' pods err :
  option_on opts OptionsWaitForResourceLeakCleanup = false → obj_kind o ∈ core_deleted →
  destroyCoreObject opts app o w = (Ok (pods, err), w') → err = None → deleted o w'.
Proof.
  intros Hl Hk Hd ->. unfold destroyCoreObject, pods_before, pod_before in Hd. rewrite Hl in Hd.
  destruct (obj_kind o) eqn:E;
    try (exfalso; revert Hk; apply (bool_decide_unpack _); vm_compute; exact I);
    cbn in Hd; apply with_error_none in Hd.
  6: { apply wrap_err_Ok_inv in Hd. exists w, w'. split; [|done]. unfold delete_request. by rewrite decide_True. }
  all: eapply destroy_object_gone; [by rewrite E| |exact Hd]; unfold target_namespace; rewrite E; reflexivity.
Qed.

Lemma with_error_some pods (m : M W unit) h p e w w' :
  with_error pods (wrap_err h m) w = (Ok (p, Some e), w') → ∃ e0, m w = (Err e0, w') ∧ e = h e0.
Proof.
  unfold with_error, attempt, wrap_err, attempt. destruct (m w) as [[[]|e0|s|] w1]; try done.
  unfold mret, M_ret, throw. simpl. intros [= _ <- <-]. by exists e0.
Qed.

Lemma destroy_core_tolerated opts app o w w' pods e :
  option_on opts OptionsWaitForResourceLeakCleanup = false → obj_kind o ∈ core_deleted →
  destroyCoreObject opts app o w = (Ok (pods, Some e), w') → Contains (Error e) "not found" = true → tolerated app o.
Proof.
  intros Hl Hk Hd Hn. split; [done|]. unfold destroyCoreObject, pods_before, pod_before in Hd. rewrite Hl in Hd.
  destruct (obj_kind o) eqn:E;
    try (exfalso; revert Hk; apply (bool_decide_unpack _); vm_compute; exact I);
    cbn in Hd; apply with_error_some in Hd as (e0 & Hd & ->); exists e0, w, w'.
  6: { exists AppErrFailedToDestroyPod, ("Failed to destroy Pod: " +:+ obj_Name o +:+ ". Err: ").
       unfold delete_request. rewrite decide_True by done. split; [done|]. by rewrite !app_assoc_s. }
  all: do 2 eexists; (split; [|exact Hn]); unfold delete_request, target_namespace; rewrite ?E in Hd |- *; exact Hd.
Qed.

Lemma core_pass_gone opts app specs podList w l w' :
  option_on opts OptionsWaitForResourceLeakCleanup = false →
  core_pass opts app specs podList w = (Ok l, w') →
  l = podList ∧ (∀ x, deleted x w → deleted x w') ∧
  ∀ o, o ∈ specs → obj_kind o ∈ core_deleted → deleted o w' ∨ tolerated app o.
Proof.
  intros Hl. revert podList w. induction specs as [|o specs IH]; intros podList w; simpl.
  - unfold mret, M_ret. intros Hp. simplify_eq. split_and!; [done..|]. intros o Ho. by apply elem_of_nil in Ho.
  - intros (podList' & w1 & Ha & Hr)%bind_Ok_inv. rewrite Hl in Ha. unfold attempt in Ha.
    destruct (DoRetryWithTimeout (core_task opts app o) _ _ w) as [[pods|e|s|] w2] eqn:Hd; try done.
    unfold mret, M_ret in Ha. injection Ha as <- <-.
    apply IH in Hr as (-> & Hkeep & Hall). split; [done|].
    assert (∀ x, deleted x w → deleted x w2) as Hk2.
    { intros x Hx. pose proof (preserves_DoRetry (deleted x) (core_task opts app o) k8sDestroyTimeout DefaultRetryInterval
        (core_task_keeps opts app o x Hl) (λ d w, sleep_deleted x d w) w Hx) as Hp. by rewrite Hd in Hp. }
    split; [auto|]. intros o' Ho' Hkind. apply elem_of_cons in Ho' as [->|Ho']; [|by apply Hall].
    apply DoRetryWithTimeout_Ok_inv in Hd as (w3 & (r & w4 & Hc & Hm)%bind_Ok_inv). destruct r as [p [e|]].
    + destruct (Contains (Error e) "not found") eqn:Hn; [|done]. right. by eapply destroy_core_tolerated.
    + left. unfold mret, M_ret in Hm. injection Hm as _ <-. apply Hkeep. by eapply destroy_core_gone.
Qed.

Lemma destroy_waits_keep opts ctx podList x :
  option_on opts OptionsWaitForResourceLeakCleanup = false → preserves (deleted x) (destroy_waits opts ctx podList).
Proof.
  intros Hl. unfold destroy_waits. rewrite Hl. destruct (option_on opts OptionsWaitForDestroy); [|preserve].
  apply preserves_for_each. intros o. unfold validate_destroyed. preserve.
Qed.

Ltac take_pass Hp Hg lem :=
  let w := fresh "w" in let Hd := fresh "Hd" in
  apply bind_Ok_inv in Hp as ([] & w & Hd & Hp);
  pose proof (destroy_pass_adds _ _ _ _ _ _ lem Hd _ Hg) as Hg'; clear Hg Hd; rename Hg' into Hg.

Lemma destroy_passes_gone opts app w podList w' :
  option_on opts OptionsWaitForResourceLeakCleanup = false →
  destroy_passes opts app w = (Ok podList, w') →
  podList = [] ∧
  ∀ o, o ∈ SpecList app → obj_kind o ∈ destroyed_kinds → deleted o w' ∨ tolerated app o.
Proof.
  intros Hl Hp. unfold destroy_passes in Hp.
  assert (∀ o, o ∈ SpecList app → obj_kind o ∈ ([] : list Kind) → deleted o w ∨ tolerated app o) as Hg.
  { intros o _ Ho. by apply elem_of_nil in Ho. }
  take_pass Hp Hg admission_destroys. take_pass Hp Hg rbac_destroys.
  apply bind_Ok_inv in Hp as (l & w2 & Hc & Hp).
  apply core_pass_gone in Hc as (-> & Hkeep & Hcore); [|done].
  assert (∀ o, o ∈ SpecList app → obj_kind o ∈ ([] ++ [KValidatingWebhookConfiguration]) ++
      [KClusterRole; KClusterRoleBinding; KServiceAccount] ++ core_deleted → deleted o w2 ∨ tolerated app o) as Hg2.
  { intros o Ho. rewrite app_assoc. intros [Hin|Hin]%elem_of_app; [|by apply Hcore].
    destruct (Hg o Ho Hin); [left; auto|by right]. }
  clear Hg Hcore Hkeep.
  take_pass Hp Hg2 restore_destroys. take_pass Hp Hg2 migration_destroys. take_pass Hp Hg2 backup_destroys.
  take_pass Hp Hg2 monitor_destroys. take_pass Hp Hg2 budget_destroys. take_pass Hp Hg2 machine_destroys.
  take_pass Hp Hg2 crd_destroys.
  unfold mret, M_ret in Hp. injection Hp as <- <-. split; [done|]. intros o Ho Hk. apply Hg2; [done|].
  match goal with |- _ ∈ ?l => assert (Forall (λ k, k ∈ l) destroyed_kinds) as Hall end.
  { apply (bool_decide_unpack _). vm_compute. exact I. }
  rewrite Forall_forall in Hall. by apply Hall.
Qed.

End destroy_theorems.

(** ** What [Destroy] leaves behind *)

Section destroy_leaks.
Context {W : Type} `{SchedWorld W} `{K8sClient W} `{SpecFiles} `{HelmLib W} `{K8sCreateApi W}.
Context `{K8sAppsApi W} `{K8sAutopilotApi W} `{K8sDelete W}.

(** A pass that does nothing with the specs it is given *)
Lemma destroy_pass_idle (f : AppSpec Object → Object → M W unit) app w :
  (∀ o, o ∈ SpecList app → f app o = mret tt) → destroy_pass f app w = (Ok tt, w).
Proof.
  intros Hf. unfold destroy_pass. revert Hf. generalize (SpecList app). intros l Hf. induction l as [|o l IH]; [done|].
  simpl. erewrite bind_Ok; [apply IH; intros; apply Hf; by right|].
  apply DoRetryWithTimeout_first; [done|]. unfold destroy_task. by rewrite (Hf o) by (by left).
Qed.

Lemma core_pass_idle opts app l podList w :
  (∀ o, o ∈ l → destroyCoreObject opts app o = mret (None, None)) →
  core_pass opts app l podList w = (Ok podList, w).
Proof.
  intros Hf. induction l as [|o l IH]; [done|]. simpl. erewrite bind_Ok; [apply IH; intros; apply Hf; by right|].
  unfold attempt. erewrite DoRetryWithTimeout_first; [done|done|].
  unfold core_task. by rewrite (Hf o) by (by left).
Qed.

Lemma uninstall_charts_none l (w : W) : (∀ o, o ∈ l → obj_kind o ≠ KHelmRepo) → uninstall_charts l w = (Ok [], w).
Proof.
  intros Hl. induction l as [|o l IH]; [done|]. simpl.
  erewrite bind_Ok; [|destruct (obj_kind o) eqn:E; try done; by destruct (Hl o (ltac:(by left)))].
  erewrite bind_Ok; [done|]. apply IH. intros. apply Hl. by right.
Qed.

Lemma remove_nothing ctx (w : W) : remove_specs [] (w, ctx) = (Ok tt, (w, ctx)).
Proof.
  unfold remove_specs, RemoveAppSpecsByName. simpl. repeat f_equal. destruct ctx as [u [] so sk]. simpl. f_equal.
  unfold set_SpecList. simpl. f_equal. induction SpecList as [|o l IH]; [done|]. simpl. by f_equal.
Qed.

Lemma destroy_idle_prefix opts ctx (w : W) :
  (∀ o, o ∈ SpecList (App ctx) → obj_kind o ≠ KHelmRepo ∧ obj_kind o ≠ KCustomResourceObjectYAML) →
  Destroy opts (w, ctx) =
    (gone ← up (destroy_rule (Rule_Name (opt_AutopilotRule (ScheduleOpts ctx))));
     if (gone : bool) then mret tt else
     podList ← up (destroy_passes opts (App ctx));
     up (destroy_waits opts ctx podList)) (w, ctx).
Proof.
  intros Hk. unfold Destroy. rewrite bind_get_local.
  erewrite bind_Ok; [|rewrite up_eq, destroy_pass_idle; [done|]].
  2: { intros o Ho. unfold destroyCustomResourceObjects. destruct (obj_kind o) eqn:E; try done.
       by destruct (Hk o Ho) as [_ []]. }
  erewrite bind_Ok; [|rewrite up_eq, uninstall_charts_none; [done|]; intros o Ho; by apply Hk].
  simpl. erewrite bind_Ok; [|apply remove_nothing]. by rewrite bind_get_local.
Qed.

(** A context with an autopilot rule that does not exist any more: [Destroy] returns
    nil right after the delete of the rule failed with "not found", and none of the
    application's objects is deleted. *)
Theorem Destroy_missing_rule opts ctx (w w1 : W) e :
  (∀ o, o ∈ SpecList (App ctx) → obj_kind o ≠ KHelmRepo ∧ obj_kind o ≠ KCustomResourceObjectYAML) →
  Rule_Name (opt_AutopilotRule (ScheduleOpts ctx)) ≠ "" →
  client_Delete KAutopilotRule (Rule_Name (opt_AutopilotRule (ScheduleOpts ctx))) "" w = (Err e, w1) →
  Contains (Error e) "not found" = true →
  Destroy opts (w, ctx) = (Ok tt, (w1, ctx)).
Proof.
  intros Hk Hr Hd Hn. rewrite destroy_idle_prefix by done.
  erewrite bind_Ok; [|rewrite up_eq; unfold destroy_rule, attempt; rewrite decide_False, Hd, Hn by done; done].
  done.
Qed.

(** The types no pass of [Destroy] has a branch for *)
Lemma leaked_idle o app opts :
  obj_kind o ∈ leaked_kinds →
  destroyAdmissionRegistrationObjects app o = mret tt ∧ destroyRbacObjects app o = mret tt ∧
  destroyCoreObject opts app o = mret (None, None) ∧ destroyVolumeSnapshotRestoreObject app o = mret tt ∧
  destroyMigrationObject app o = mret tt ∧ destroyBackupObjects app o = mret tt ∧
  destroyServiceMonitorObjects app o = mret tt ∧ destroyPodDisruptionBudgetObjects app o = mret tt ∧
  destroyVirtualMachineObjects app o = mret tt ∧ destroyCRDObjects app o = mret tt.
Proof.
  intros Hk. unfold destroyAdmissionRegistrationObjects, destroyRbacObjects, destroyCoreObject,
    destroyVolumeSnapshotRestoreObject, destroyMigrationObject, destroyBackupObjects, destroyServiceMonitorObjects,
    destroyPodDisruptionBudgetObjects, destroyVirtualMachineObjects, destroyCRDObjects.
  unfold leaked_kinds in Hk. repeat (apply elem_of_cons in Hk as [Hk|Hk]); [..|by apply elem_of_nil in Hk];
    rewrite Hk; by split_and!.
Qed.

Lemma destroy_waits_idle opts ctx (w : W) :
  Forall (λ o, obj_kind o ∈ leaked_kinds) (SpecList (App ctx)) → destroy_waits opts ctx [] w = (Ok tt, w).
Proof.
  intros Hk. assert (∀ t, WaitForDestroy ctx t w = (Ok tt, w)) as Hw.
  { intros t. unfold WaitForDestroy. induction Hk as [|o l Ho _ IH]; [done|]. simpl.
    erewrite bind_Ok; [exact IH|]. unfold validate_destroyed. unfold leaked_kinds in Ho.
    repeat (apply elem_of_cons in Ho as [Ho|Ho]); [..|by apply elem_of_nil in Ho]; by rewrite Ho. }
  unfold destroy_waits. destruct (option_on opts OptionsWaitForResourceLeakCleanup).
  - by rewrite (bind_Ok _ _ _ _ _ (Hw _)).
  - destruct (option_on opts OptionsWaitForDestroy); [apply Hw|done].
Qed.

(** C40. Sixteen types - claims and storage classes, secrets, roles, jobs, ingresses and
    others - are created by [CreateSpecObjects] and deleted by no pass: [Destroy] of
    an application made of such objects succeeds without a single call to the
    cluster, and leaves the world and the context as they were. *)
Theorem Destroy_leaks opts ctx (w : W) :
  Forall (λ o, obj_kind o ∈ leaked_kinds) (SpecList (App ctx)) →
  Rule_Name (opt_AutopilotRule (ScheduleOpts ctx)) = "" →
  Forall (λ k, k ∈ concat pass_kinds ∧ k ∉ destroyed_kinds) leaked_kinds ∧
  Destroy opts (w, ctx) = (Ok tt, (w, ctx)).
Proof.
  intros Hk Hr. split; [apply (bool_decide_unpack _); vm_compute; exact I|]. rewrite Forall_forall in Hk.
  rewrite destroy_idle_prefix.
  2: { intros o Ho. specialize (Hk o Ho). split; intros E; rewrite E in Hk; revert Hk;
       apply (bool_decide_unpack _); vm_compute; exact I. }
  unfold destroy_rule. rewrite decide_True by done. erewrite bind_Ok by done. simpl.
  assert (∀ o, o ∈ SpecList (App ctx) → _) as Hi by (intros o Ho; exact (leaked_idle o (App ctx) opts (Hk o Ho))).
  assert (destroy_passes opts (App ctx) w = (Ok [], w)) as Hp.
  { unfold destroy_passes.
    repeat first [ rewrite (bind_Ok _ _ _ w []) by (apply core_pass_idle; intros o Ho; apply Hi, Ho)
                 | rewrite (bind_Ok _ _ _ w tt) by (apply destroy_pass_idle; intros o Ho; apply Hi, Ho) ]. done. }
  erewrite bind_Ok; [|rewrite up_eq, Hp; done]. rewrite up_eq, destroy_waits_idle; [done|]. by rewrite Forall_forall.
Qed.
End destroy_leaks.
