(* ===== verification/PxNodeOps.v ===== *)
(** drivers/volume/portworx/portworx.go: operations on the nodes of the
    cluster - running pxctl, waiting for the driver, maintenance mode, node id
    migration, decommissioning and rejoining. *)

From Stdlib Require Import Ascii.
From S2P Require Import Prelude GoStrings Errors Effects GoJson Task OpenStorageApi NodeRegistry PxDriver.

Definition enterMaintenancePath : string := "/entermaintenance".
Definition exitMaintenancePath : string := "/exitmaintenance".
Definition pxSystemdServiceName : string := "portworx.service".

(** [isNodeNotFound] and [errIsNotFound] *)
Definition isNodeNotFound (err : error) : bool :=
  bool_decide (status_code err = code_NotFound) ||
  (bool_decide (status_code err = code_Internal) && Contains (Error err) "Unable to locate node").

Definition errIsNotFound (err : error) : bool :=
  bool_decide (status_code err = code_NotFound) || Contains (Error err) "code = NotFound".

(** [node [name/id]] of the messages *)
Definition node_tag (n : Node) : string := "[" +:+ Name n +:+ "/" +:+ VolDriverNodeID n +:+ "]".

(** ** Pure checks on storage nodes *)

Definition px_Contains (nodes : list StorageNode) (n : StorageNode) : bool :=
  existsb (λ value, bool_decide (Hostname value = Hostname n)) nodes.

(** The loop over the source pools, reading the pool of the same index of the
    destination. *)
Fixpoint same_uuids (x : nat) (srcPools dstPools : list ApiStoragePool) : outcome bool :=
  match srcPools with
  | [] => Ok true
  | pool :: srcPools' =>
      dst ← index dstPools (Z.of_nat x);
      if decide (Pool_Uuid pool = Pool_Uuid dst) then same_uuids (S x) srcPools' dstPools
      else Ok false
  end.

Definition comparePoolsAndDisks (srcNode dstNode : StorageNode) : outcome bool :=
  if decide (length (Pools srcNode) ≠ length (Pools dstNode)) then Ok false
  else
    same ← same_uuids 0 (Pools srcNode) (Pools dstNode);
    if negb same then Ok false
    else if decide (size (Disks srcNode) ≠ size (Disks dstNode)) then Ok false
    else Ok true.

Definition validateNodeIDMigration (delNode newNode : StorageNode)
    (storagelessNodes : list StorageNode) : outcome bool :=
  if negb (Nat.eqb (length storagelessNodes) 0) && negb (px_Contains storagelessNodes newNode)
  then Ok false
  else comparePoolsAndDisks delNode newNode.

Definition ValidateNodeAfterPickingUpNodeID (delNode newNode : StorageNode)
    (storagelessNodes : list StorageNode) : outcome unit :=
  valid ← validateNodeIDMigration delNode newNode storagelessNodes;
  if (valid : bool) then Ok tt
  else Err (Errorf ("validation failed: NodeId: [" +:+ Id delNode +:+
         "] pick-up failed by new Node: [" +:+ Hostname newNode +:+ "]")).

Section node_ops.
Context {W : Type} `{PxWorld W} `{NodeDriver W} `{SchedOps W} `{K8sCore W} `{PxSdk W}.
(** How often [GetDriverNode] may call itself. *)
Context (depth : nat).

(** ** pxctl *)

Definition getPxctlPath (n : Node) : M W string :=
  attempt (RunCommand n "which pxctl"
    {| Timeout := defaultTimeout; TimeBeforeRetry := defaultRetryInterval;
       IgnoreError := false; Sudo := true |}) (λ r,
    match r with
    | inr _ => mret "sudo /opt/pwx/bin/pxctl"
    | inl out => mret (TrimSpace ("sudo " +:+ out))
    end).

(** The pxctl context is created before and deleted after a command when the
    driver has a token. *)
Definition create_context (n : Node) (pxctlPath : string) (opts : ConnectionOpts) : M W unit :=
  s ← get_px;
  if decide (token s = "") then mret tt
  else _ ← wrap_err (λ e, Errorf ("failed to create pxctl context. cause: " +:+ Error e))
             (RunCommand n (pxctlPath +:+ " context create admin --token=" +:+ token s) opts);
       mret tt.

Definition delete_context (n : Node) (pxctlPath : string) (opts : ConnectionOpts) : M W unit :=
  s ← get_px;
  if decide (token s = "") then mret tt
  else _ ← wrap_err (λ e, Errorf ("failed to delete pxctl context. cause: " +:+ Error e))
             (RunCommand n (pxctlPath +:+ " context delete admin") opts);
       mret tt.

Definition GetPxctlStatus (n : Node) : M W string :=
  let opts := conn_opts defaultTimeout defaultRetryInterval in
  pxctlPath ← getPxctlPath n;
  _ ← create_context n pxctlPath opts;
  out ← wrap_err (λ e, Errorf ("failed to get pxctl status. cause: " +:+ Error e))
          (RunCommand n (pxctlPath +:+ " -j status") opts);
  data ← wrap_err (λ e, Errorf ("failed to unmarshal pxctl status. cause: " +:+ Error e))
           (lift (Unmarshal out));
  _ ← delete_context n pxctlPath opts;
  match data with
  | JObject statusMap =>
      match find_first (λ kv, bool_decide (kv.1 = "status")) statusMap with
      | Some (_, JString status) => mret status
      | Some _ => panic "interface conversion: interface {} is not string"
      | None => mret (Status_String STATUS_NONE)
      end
  | _ => panic "interface conversion: interface {} is not map[string]interface {}"
  end.

Definition GetPxctlCmdOutputConnectionOpts (n : Node) (command : string) (opts : ConnectionOpts)
    (retry : bool) : M W string :=
  pxctlPath ← getPxctlPath n;
  _ ← create_context n pxctlPath opts;
  let cmd := pxctlPath +:+ " " +:+ command in
  out ← wrap_err (λ e, Errorf ("failed to get pxctl command output. cause: " +:+ Error e))
          (if retry then RunCommand n cmd opts else RunCommandWithNoRetry n cmd opts);
  _ ← delete_context n pxctlPath opts;
  mret out.

Definition GetPxctlCmdOutput (n : Node) (command : string) : M W string :=
  GetPxctlCmdOutputConnectionOpts n command (conn_opts defaultTimeout defaultRetryInterval) true.

(** ** Looking up a node *)

(** The body of [GetDriverNode(n *node.Node, nManager...)]; [again] is the call
    it makes of itself once a new id has been stored in the node. *)
Definition get_driver_node_body (again : M (W * Node) StorageNode) (nManager : bool)
    : M (W * Node) StorageNode :=
  _ ← up (if nManager then mret tt
          else _ ← set_refreshEndpoint true; refresh_client);
  n ← get_local;
  attempt (up (node_Inspect (VolDriverNodeID n))) (λ r,
    match r with
    | inl resp => mret resp
    | inr err =>
        if isNodeNotFound err
        then attempt updateNodeID (λ r',
          match r' with
          | inl _ => again
          | inr err' => throw err'
          end)
        else throw err
    end).

Fixpoint GetDriverNode_rec (fuel : nat) (nManager : bool) : M (W * Node) StorageNode :=
  match fuel with
  | O => λ wl, (Diverge, wl)
  | S fuel' => get_driver_node_body (GetDriverNode_rec fuel' true) nManager
  end.

Definition GetDriverNode : M (W * Node) StorageNode := GetDriverNode_rec (S depth) false.

(** ** Driver up and down *)

Definition WaitForPxPodsToBeUp (n : Node) : M W unit :=
  wrap_err (λ err, Errorf ("PX pod failed to come up on node : [" +:+ Name n +:+ "]. Error: [" +:+
      Error err +:+ "]"))
    (DoRetryWithTimeout
      (ready ← IsPXReadyOnNode n;
       if (ready : bool) then mret (Done tt)
       else mret (Retry (ErrFailedToWaitForPx n
         ("px pod is not ready on node: " +:+ Name n +:+ " after 5m0s"))))
      validatePxPodsUpTimeout podUpRetryInterval).

Definition wait_px (n : Node) (cause : string) : task_result unit :=
  Retry (ErrFailedToWaitForPx n cause).

(** The first closure of [WaitDriverUpOnNode]; the captured copy of the node is
    the second component of the world, and [updateNodeID] may rewrite it. *)
Definition driver_up_task : M (W * Node) (task_result unit) :=
  n ← get_local;
  attempt (up (_ ← refresh_client; node_Inspect (VolDriverNodeID n))) (λ r,
    match r with
    | inr err => mret (wait_px n
        ("failed to get node info " +:+ node_tag n +:+ ", Err: " +:+ Error err))
    | inl pxNode =>
        match NodeStatus pxNode with
        | STATUS_DECOMMISSION => mret (Done tt)
        | STATUS_OK =>
            attempt (up (GetPxctlStatus n)) (λ r',
              match r' with
              | inr err => mret (wait_px n
                  ("failed to get pxctl status on node " +:+ node_tag n +:+ ", Err: " +:+ Error err))
              | inl pxStatus =>
                  if decide (pxStatus = Status_String STATUS_OK) then mret (Done tt)
                  else mret (wait_px n ("node " +:+ node_tag n +:+
                    " status is up but PX cluster is not ok. Expected: " +:+
                    Status_String STATUS_OK +:+ " Actual: " +:+ pxStatus))
              end)
        | STATUS_OFFLINE =>
            let waiting (n' : Node) := wait_px n' ("node " +:+ node_tag n' +:+
              " status is up but PX cluster is not ok. Expected: " +:+
              Status_String STATUS_OK +:+ " Actual: " +:+ Status_String STATUS_OFFLINE) in
            if decide (length (Pools pxNode) = 0%nat)
            then attempt (_ ← up refresh_client; updateNodeID) (λ r',
              n' ← get_local;
              match r' with
              | inr err => mret (wait_px n' ("failed to update node id " +:+ node_tag n' +:+
                  ", Err: " +:+ Error err))
              | inl _ => mret (waiting n')
              end)
            else mret (waiting n)
        | st => mret (wait_px n ("PX cluster is usable but node " +:+ node_tag n +:+
            " status is not ok. Expected: " +:+ Status_String STATUS_OK +:+ " Actual: " +:+
            Status_String st))
        end
    end).

(** The second closure; [timeout] is printed with its unit. *)
Definition pod_up_task (timeout_text : string) : M (W * Node) (task_result unit) :=
  n ← get_local;
  ready ← up (IsPXReadyOnNode n);
  if (ready : bool) then mret (Done tt)
  else mret (wait_px n ("PX pod is not ready on node " +:+ node_tag n +:+ " after " +:+ timeout_text)).

(** [PrintCommandOutput] runs a command only to log its output. *)
Definition PrintCommandOutput (cmnd : string) (n : Node) : M W unit :=
  attempt (RunCommand n cmnd {| Timeout := defaultTimeout; TimeBeforeRetry := defaultRetryInterval;
    IgnoreError := false; Sudo := true |}) (λ _, mret tt).

Definition WaitDriverUpOnNode (n : Node) (timeout : Z) (timeout_text : string) : M W unit :=
  run_local n (
    _ ← attempt (DoRetryWithTimeout driver_up_task timeout defaultRetryInterval) (λ r,
      match r with
      | inl _ => mret tt
      | inr err =>
          n' ← get_local;
          _ ← up (PrintCommandOutput "journalctl -lu portworx* -n 100 --no-pager " n');
          throw (Errorf ("PX failed to come up on node " +:+ node_tag n' +:+ ", Err: " +:+ Error err))
      end);
    attempt (DoRetryWithTimeout (pod_up_task timeout_text) timeout defaultRetryInterval) (λ r,
      match r with
      | inl _ => mret tt
      | inr err =>
          n' ← get_local;
          throw (Errorf ("PX pod failed to come up on node " +:+ node_tag n' +:+ ", Err: " +:+ Error err))
      end)).

(** An endpoint counts as down when connecting to it is refused or times out. *)
Definition endpoint_down (r : unit + error) : bool :=
  match r with
  | inl _ => false
  | inr err => negb (negb (Contains (Error err) "connect: connection refused") &&
                     negb (Contains (Error err) "i/o timeout"))
  end.

Fixpoint driver_down_loop (n : Node) (addrs : list string) : M W (task_result unit) :=
  match addrs with
  | [] => mret (Done tt)
  | addr :: addrs' =>
      attempt (testAndSetEndpointUsingNodeIP addr) (λ r,
        if endpoint_down r then driver_down_loop n addrs'
        else mret (Retry (ErrFailedToWaitForPx n "px is not yet down on node")))
  end.

Definition WaitDriverDownOnNode (n : Node) : M W unit :=
  wrap_err (λ err, Errorf ("failed to stop PX on node [" +:+ Name n +:+ "], Err: " +:+ Error err))
    (DoRetryWithTimeout (driver_down_loop n (Addresses n))
      validateNodeStopTimeout waitDriverDownOnNodeRetryInterval).

(** [GetNodeStatus]: a node the cluster does not know has status none. *)
Definition GetNodeStatus (n : Node) : M W Status :=
  attempt (DoRetryWithTimeout
    (attempt (_ ← refresh_client; node_Inspect (VolDriverNodeID n)) (λ r,
      match r with
      | inl resp => mret (Done resp)
      | inr err => if isNodeNotFound err then mret (Stop err) else mret (Retry err)
      end)) (5 * Minute) (1 * Minute)) (λ r,
    match r with
    | inl resp => mret (NodeStatus resp)
    | inr err =>
        if isNodeNotFound err then mret STATUS_NONE
        else throw (PxErr PxErrFailedToGetNodeStatus (Name n)
          ("Failed to check status on node [" +:+ Name n +:+ "], Err: " +:+ Error err))
    end).

(** ** Maintenance mode *)

Definition maintenanceOp (n : Node) (op : string) : M W unit :=
  pxdRestPort ← getRestContainerPort;
  addr ← lift (index (Addresses n) 0);
  let url := MakeURL "http://" addr pxdRestPort in
  _ ← lift (NewClient url);
  rest_get url op.

Definition maintenance_request (op : string) : M (W * Node) (task_result unit) :=
  n ← get_local;
  attempt (up (maintenanceOp n op)) (λ r,
    match r with inl _ => mret (Done tt) | inr err => mret (Retry err) end).

(** The closure that waits for a status of the node. *)
Definition status_task (want : Status) (msg : Node → Status → string)
    : M (W * Node) (task_result unit) :=
  attempt GetDriverNode (λ r,
    n ← get_local;
    match r with
    | inr err => mret (Retry err)
    | inl apiNode =>
        if decide (NodeStatus apiNode = want) then mret (Done tt)
        else mret (Retry (Errorf (msg n (NodeStatus apiNode))))
    end).

Definition EnterMaintenance (n : Node) : M W unit :=
  run_local n (
    _ ← DoRetryWithTimeout (maintenance_request enterMaintenancePath)
          maintenanceOpTimeout defaultRetryInterval;
    _ ← up (pause (3 * Minute));
    attempt (DoRetryWithTimeout
      (status_task STATUS_MAINTENANCE (λ n' st,
        "node [" +:+ Name n' +:+ "], Current status: " +:+ Status_String st +:+ ", Expected: " +:+
        Status_String STATUS_MAINTENANCE)) maintenanceWaitTimeout defaultRetryInterval) (λ r,
      match r with
      | inl _ => mret tt
      | inr err =>
          n' ← get_local;
          throw (PxErr PxErrFailedToEnterMaintenence (Name n') (Error err))
      end)).

Definition ExitMaintenance (n : Node) : M W unit :=
  run_local n (
    _ ← DoRetryWithTimeout (maintenance_request exitMaintenancePath)
          maintenanceOpTimeout defaultRetryInterval;
    DoRetryWithTimeout
      (status_task STATUS_OK (λ n' _,
        "Node [" +:+ Name n' +:+ "] is not up after exiting Maintenance mode"))
      maintenanceWaitTimeout defaultRetryInterval).

Definition RecoverDriver (n : Node) : M W unit :=
  _ ← EnterMaintenance n;
  _ ← pause (1 * Minute);
  ExitMaintenance n.

Definition EnterPoolMaintenance (n : Node) : M W unit :=
  _ ← wrap_err (λ err, Errorf ("error when entering pool maintenance on node [" +:+ Name n +:+
        "], Err: " +:+ Error err))
      (RunCommand n "pxctl sv pool maintenance -e -y"
        (conn_opts maintenanceWaitTimeout defaultRetryInterval));
  pause (3 * Minute).

(** The part of [ExitPoolMaintenance] after its early return *)
Definition exit_pools (n : Node) : M W unit :=
  _ ← wrap_err (λ err, Errorf ("error when exiting pool maintenance on node [" +:+ Name n +:+
        "], Err: " +:+ Error err))
      (RunCommand n "pxctl sv pool maintenance -x -y"
        (conn_opts maintenanceWaitTimeout defaultRetryInterval));
  pause (3 * Minute).

Definition ExitPoolMaintenance (n : Node) : M W unit :=
  attempt (GetPxctlStatus n) (λ r,
    match r with
    | inl pxStatus =>
        if decide (pxStatus = Status_String STATUS_OK) then mret tt else exit_pools n
    | inr _ => exit_pools n
    end).

Definition RecoverPool (n : Node) : M W unit :=
  _ ← EnterPoolMaintenance n;
  _ ← pause (1 * Minute);
  ExitPoolMaintenance n.

(** ** Pools of a node *)

(** [strings.Trim(strings.Split(line, ":")[1], " ")] *)
Definition after_colon (line : string) : outcome string :=
  field ← index (Split line ":"%char) 1;
  Ok (Trim field " ").

(** The variables of the loops of [GetNodePoolsStatus] and [GetNodePools]: the
    uuid seen last, the value seen on this line, the map being built. *)
Record pool_scan := { scan_uuid : string; scan_value : string; scan_data : gmap string string }.

Definition scan_start : pool_scan := {| scan_uuid := ""; scan_value := ""; scan_data := ∅ |}.

(** One line of the output: [label] marks the lines that carry the value
    ("Status" in one function, "Pool" in the other). *)
Definition pool_scan_line (label : string) (st : pool_scan) (l : string) : outcome pool_scan :=
  let line := Trim l " " in
  uuid' ← (if Contains line "UUID" then after_colon line else Ok (scan_uuid st));
  value' ← (if Contains line label then after_colon line else Ok (scan_value st));
  if negb (bool_decide (uuid' = "")) && negb (bool_decide (value' = ""))
  then Ok {| scan_uuid := ""; scan_value := "";
             scan_data := match scan_data st !! uuid' with
                          | Some _ => scan_data st
                          | None => <[uuid' := value']> (scan_data st)
                          end |}
  else Ok {| scan_uuid := uuid'; scan_value := ""; scan_data := scan_data st |}.

Fixpoint pool_scan_lines (label : string) (st : pool_scan) (ls : list string) : outcome pool_scan :=
  match ls with
  | [] => Ok st
  | l :: ls' => st' ← pool_scan_line label st l; pool_scan_lines label st' ls'
  end.

Definition newline : ascii := ascii_of_nat 10.

Definition GetNodePoolsStatus (n : Node) : M W (gmap string string) :=
  pxctl ← getPxctlPath n;
  out ← wrap_err (λ err, Errorf ("error getting pool status on node [" +:+ Name n +:+ "], Err: " +:+
          Error err))
        (RunCommand n (pxctl +:+ " sv pool show | grep -e UUID -e Status")
          (conn_opts validatePXStartTimeout defaultRetryInterval));
  st ← lift (pool_scan_lines "Status" scan_start (Split out newline));
  mret (scan_data st).

Definition GetNodePools (n : Node) : M W (gmap string string) :=
  pxctl ← getPxctlPath n;
  out ← wrap_err (λ err, Errorf ("error getting pool info on node [" +:+ Name n +:+ "], Err: " +:+
          Error err))
        (RunCommand n (pxctl +:+ " sv pool show | grep -e Pool -e UUID")
          (conn_opts validatePXStartTimeout defaultRetryInterval));
  st ← lift (pool_scan_lines "Pool" scan_start (Split out newline));
  mret (scan_data st).

Definition UpdatePoolIOPriority (n : Node) (poolUUID IOPriority : string) : M W unit :=
  _ ← wrap_err (λ err, Errorf ("Updating Pool IO Priority failed on Node [" +:+ Name n +:+
         "], Err: [" +:+ Error err +:+ "]"))
      (RunCommand n ("pxctl sv pool update -u " +:+ poolUUID +:+ " --io_priority " +:+ IOPriority)
        (conn_opts maintenanceWaitTimeout defaultRetryInterval));
  mret tt.

Definition DeletePool (n : Node) (poolID : string) (retry : bool) : M W unit :=
  let cmd := "pxctl sv pool delete " +:+ poolID +:+ " -y" in
  let opts := conn_opts maintenanceWaitTimeout defaultRetryInterval in
  _ ← wrap_err (λ err, Errorf ("error deleting pool on node [" +:+ Name n +:+ "], Err: " +:+
         Error err))
      (if retry then RunCommand n cmd opts else RunCommandWithNoRetry n cmd opts);
  mret tt.

(** ** Node id migration *)

Definition WaitForNodeIDToBePickedByAnotherNode (delNode : StorageNode) : M W StorageNode :=
  DoRetryWithTimeout
    (attempt (getPxNodeByID (Id delNode)) (λ r,
      match r with
      | inr err => mret (Retry err)
      | inl nNode =>
          if decide (Hostname nNode = Hostname delNode)
          then mret (Retry (Errorf ("waiting for NodeId [" +:+ Id delNode +:+
                 "] to be picked by another node")))
          else if decide (length (Pools nNode) = 0%nat)
          then mret (Retry (Errorf ("waiting for storage to be up in node [" +:+
                 Hostname nNode +:+ "]")))
          else mret (Done nNode)
      end)) validateStoragePoolSizeTimeout validateStoragePoolSizeInterval.

Definition IsDriverInstalled (n : Node) : M W bool :=
  wrap_err (λ err, Errorf ("Failed to check if PX is installed on node [" +:+ Name n +:+ "], Err: " +:+
      Error err)) (IsPXEnabled n).

(** ** Stopping and starting the driver *)

Definition stop_one (force : bool) (n : Node) : M W unit :=
  if force then
    let pxCrashCmd := "sudo pkill -9 px-storage" in
    _ ← wrap_err (λ err, Errorf ("failed to run cmd [" +:+ pxCrashCmd +:+ "] on node [" +:+ Name n +:+
           "], Err: " +:+ Error err))
        (RunCommand n pxCrashCmd (conn_opts crashDriverTimeout defaultRetryInterval));
    pause waitVolDriverToCrash
  else
    _ ← StopPxOnNode n;
    _ ← Systemctl n pxSystemdServiceName "stop" (conn_opts stopDriverTimeout defaultRetryInterval);
    pause (waitVolDriverToCrash `quot` 6).

Definition StopDriver `{TriggerApi.BackgroundScheduler W} (nodes : list Node) (force : bool)
    (triggerOpts : option (TriggerApi.TriggerOptions W)) : M W unit :=
  TriggerApi.PerformTask (for_each (stop_one force) nodes) triggerOpts.

(** The process id is the second field of the first line of [ps] that shows the
    daemon and not the grep. *)
Definition is_daemon_line (line : string) : bool :=
  Contains line "/usr/local/bin/px -daemon" && negb (Contains line "grep").

Definition daemon_pid (out : string) : outcome string :=
  match find_first is_daemon_line (Split out newline) with
  | Some line => index (Fields line) 1
  | None => Ok ""
  end.

Definition kill_one (n : Node) : M W unit :=
  out ← RunCommand n ("ps -ef | grep " +:+ dquote +:+ "px -daemon" +:+ dquote)
          {| Timeout := 20 * Second; TimeBeforeRetry := 5 * Second; IgnoreError := false;
             Sudo := true |};
  processPid ← lift (daemon_pid out);
  if decide (processPid = "")
  then throw (Errorf ("unable to find PID for px daemon in output [" +:+ out +:+ "]"))
  else
    let pxCrashCmd := "sudo kill -9 " +:+ processPid in
    _ ← wrap_err (λ err, Errorf ("failed to run cmd [" +:+ pxCrashCmd +:+ "] on node [" +:+ Name n +:+
           "], Err: " +:+ Error err))
        (RunCommand n pxCrashCmd (conn_opts crashDriverTimeout defaultRetryInterval));
    pause waitVolDriverToCrash.

Definition KillPXDaemon `{TriggerApi.BackgroundScheduler W} (nodes : list Node)
    (triggerOpts : option (TriggerApi.TriggerOptions W)) : M W unit :=
  TriggerApi.PerformTask (for_each kill_one nodes) triggerOpts.

Definition StartDriver (n : Node) : M W unit :=
  _ ← StartPxOnNode n;
  Systemctl n pxSystemdServiceName "start" (conn_opts startDriverTimeout defaultRetryInterval).

Definition RestartDriver `{TriggerApi.BackgroundScheduler W} (n : Node)
    (triggerOpts : option (TriggerApi.TriggerOptions W)) : M W unit :=
  TriggerApi.PerformTask (RestartPxOnNode n) triggerOpts.

(** ** Decommissioning and rejoining *)

Definition decommission_err (n : Node) (cause : string) : error :=
  PxErr PxErrFailedToDecommissionNode (Name n) cause.

Definition still_exists (n : Node) : string :=
  "node [" +:+ Name n +:+ "] still exist in the PX cluster".

(** [EnterMaintenance] and, for a storageless node, the check that an offline
    node is as good. *)
Definition decommission_maintenance : M (W * Node) unit :=
  n ← get_local;
  attempt (up (EnterMaintenance n)) (λ r,
    match r with
    | inl _ => mret tt
    | inr err =>
        if decide (length (StoragePools n) = 0%nat)
        then stNode ← GetDriverNode;
             if decide (NodeStatus stNode = STATUS_OFFLINE) then mret tt else throw err
        else throw err
    end).

(** The wait for maintenance or offline status; its error is dropped. *)
Definition wait_maintenance_task : M (W * Node) (task_result unit) :=
  attempt GetDriverNode (λ r,
    n ← get_local;
    match r with
    | inr _ => mret (Retry (Errorf ("failed getting node [" +:+ Name n +:+ "] status")))
    | inl stNode =>
        if decide (NodeStatus stNode = STATUS_MAINTENANCE ∨ NodeStatus stNode = STATUS_OFFLINE)
        then mret (Done tt)
        else mret (Retry (Errorf ("waiting for node [" +:+ Name n +:+
               "] to be in maintenence mode, current Status: " +:+
               Status_String (NodeStatus stNode))))
    end).

(** [cluster delete], run on another node; a pending removal counts as done. *)
Definition delete_task (cmdNode : Node) (cmd : string) : M W (task_result unit) :=
  attempt (RunCommandWithNoRetry cmdNode cmd (conn_opts (2 * Minute) (10 * Second))) (λ r,
    match r with
    | inl _ => mret (Done tt)
    | inr err =>
        if Contains (Error err) "Node remove is pending" then mret (Done tt)
        else mret (Retry err)
    end).

(** The loop [latestNode.Hostname == n.Hostname], which reads the host name
    through the embedded storage node. *)
Fixpoint host_listed (n : Node) (latestNodes : list StorageNode) : outcome bool :=
  match latestNodes with
  | [] => Ok false
  | latestNode :: latestNodes' =>
      sn ← deref (storageNode n);
      if decide (Hostname latestNode = Hostname sn) then Ok true
      else host_listed n latestNodes'
  end.

Definition gone_task (n : Node) : M W (task_result unit) :=
  attempt (getPxNodes false) (λ r,
    match r with
    | inr err => mret (Retry (decommission_err n (Error err)))
    | inl latestNodes =>
        isNodeExist ← lift (host_listed n latestNodes);
        if (isNodeExist : bool) then mret (Retry (decommission_err n (still_exists n)))
        else mret (Done tt)
    end).

(** The node with [IsStorageDriverInstalled] cleared *)
Definition clear_installed (n : Node) : Node :=
  {| storageNode := storageNode n; uuid := uuid n; VolDriverNodeID := VolDriverNodeID n;
     Name := Name n; Addresses := Addresses n; UsableAddr := UsableAddr n; Type_ := Type_ n;
     Zone := Zone n; Region := Region n; TopologyZone := TopologyZone n;
     TopologyRegion := TopologyRegion n; IsStorageDriverInstalled := false;
     IsMetadataNode := IsMetadataNode n; StoragePools := StoragePools n;
     PxPodRestartCount := PxPodRestartCount n |}.

(** [DecommissionNode(n *node.Node)].  When [Inspect] fails its response is nil
    and the error message dereferences it. *)
Definition DecommissionNode : M (W * Node) unit :=
  n ← get_local;
  _ ← wrap_err (λ err, decommission_err n ("Failed to set label on node [" +:+ Name n +:+
         "], Err: " +:+ Error err)) (up (AddLabelOnNode (Name n) PXEnabledLabelKey "remove"));
  _ ← decommission_maintenance;
  n1 ← get_local;
  nodeResp ← attempt (up (_ ← refresh_client; node_Inspect (VolDriverNodeID n1))) (λ r,
    match r with
    | inl resp => mret resp
    | inr _ => panic "invalid memory address or nil pointer dereference"
    end);
  _ ← attempt (DoRetryWithTimeout wait_maintenance_task defaultTimeout defaultRetryInterval)
        (λ _, mret tt);
  n2 ← get_local;
  pxctl ← up (getPxctlPath n2);
  let cmd := "echo Y | " +:+ pxctl +:+ " cluster delete -f " +:+ Id nodeResp in
  drivers ← up registry_GetStorageDriverNodes;
  let cmdNode := default emptyNode
    (find_first (λ cn, negb (bool_decide (Name cn = Name n2))) drivers) in
  _ ← up (DoRetryWithTimeout (delete_task cmdNode cmd) (5 * Minute) (10 * Second));
  let n3 := clear_installed n2 in
  _ ← put_local n3;
  _ ← wrap_err (λ err, Errorf ("failed to update node [" +:+ Name n3 +:+ "], Err: " +:+ Error err))
        (up (registry_UpdateNode n3));
  _ ← up (set_refreshEndpoint true);
  wrap_err (λ _, decommission_err n3 (still_exists n3))
    (up (DoRetryWithTimeout (gone_task n3) (25 * Minute) (3 * Minute))).

Section rejoin.
Context `{TriggerApi.BackgroundScheduler W}.

Definition rejoin_err (n : Node) (cause : string) : error :=
  PxErr PxErrFailedToRejoinNode (Name n) cause.

Definition RejoinNode (n : Node) : M W unit :=
  let label err := "Failed to set label on node [" +:+ Name n +:+ "], Err: " +:+ Error err in
  pxctl ← getPxctlPath n;
  _ ← wrap_err (λ err, rejoin_err n ("Failed running node wipe on node [" +:+ Name n +:+ "], Err: " +:+
         Error err))
      (RunCommand n (pxctl +:+ " sv node-wipe --all") (conn_opts (10 * Minute) podUpRetryInterval));
  _ ← wrap_err (λ err, rejoin_err n (label err)) (RemoveLabelOnNode (Name n) PXServiceLabelKey);
  _ ← wrap_err (λ err, rejoin_err n (label err)) (RemoveLabelOnNode (Name n) PXEnabledLabelKey);
  _ ← wrap_err (λ err, rejoin_err n (Error err)) (RestartDriver n None);
  wrap_err (λ err, rejoin_err n ("Failed to uncordon node [" +:+ Name n +:+ "], Err: " +:+ Error err))
    (UnCordonNode (Name n) defaultTimeout defaultRetryInterval).

Definition recover_err (n : Node) (cause : string) : error :=
  PxErr PxErrFailedToRecoverDriver (Name n) cause.

(** [RecoverNode(n *node.Node)]: a failing [GetDriverNode] is only logged. *)
Definition RecoverNode : M (W * Node) unit :=
  n ← get_local;
  let label err := "Failed to set label on node [" +:+ Name n +:+ "], Err: " +:+ Error err in
  _ ← wrap_err (λ err, recover_err n (label err)) (up (RemoveLabelOnNode (Name n) PXServiceLabelKey));
  _ ← wrap_err (λ err, recover_err n (label err)) (up (RemoveLabelOnNode (Name n) PXEnabledLabelKey));
  _ ← wrap_err (λ err, recover_err n (Error err)) (up (RestartDriver n None));
  _ ← up (pause (1 * Minute));
  _ ← attempt GetDriverNode (λ r,
    match r with
    | inr _ => mret tt
    | inl stNode =>
        if decide (NodeStatus stNode = STATUS_MAINTENANCE)
        then n1 ← get_local;
             wrap_err (λ err, recover_err n1 (Error err)) (up (ExitMaintenance n1))
        else mret tt
    end);
  n2 ← get_local;
  wrap_err (λ err, recover_err n2 ("Failed to uncordon node [" +:+ Name n2 +:+ "], Err: " +:+ Error err))
    (up (UnCordonNode (Name n2) defaultTimeout defaultRetryInterval)).
End rejoin.
End node_ops.

(** ** Properties *)

Lemma same_uuids_spec x src dst :
  (x + length src = length dst)%nat →
  same_uuids x src dst = Ok (bool_decide (Pool_Uuid <$> src = Pool_Uuid <$> drop x dst)).
Proof.
  revert x. induction src as [|p src IH]; intros x Hlen; simpl in *.
  - rewrite drop_ge by lia. done.
  - destruct (lookup_lt_is_Some_2 dst x) as [q Hq]; [lia|].
    unfold index. rewrite decide_False by lia. rewrite Nat2Z.id, Hq.
    rewrite (drop_S _ _ _ Hq). unfold mbind, outcome_bind. simpl.
    case_decide as Hu.
    + rewrite IH by lia. do 2 f_equal. apply bool_decide_ext. rewrite Hu. unfold fmap; split; congruence.
    + f_equal. symmetry. apply bool_decide_eq_false. congruence.
Qed.

(** C39. [comparePoolsAndDisks] never reads past the end of the destination's
    pools, and answers true exactly when the two nodes have the same pool uuids
    in the same order and equally many disks. *)
Theorem comparePoolsAndDisks_spec srcNode dstNode :
  comparePoolsAndDisks srcNode dstNode =
    Ok (bool_decide (Pool_Uuid <$> Pools srcNode = Pool_Uuid <$> Pools dstNode ∧
                     size (Disks srcNode) = size (Disks dstNode))).
Proof.
  unfold comparePoolsAndDisks. case_decide as Hlen.
  { f_equal. symmetry. apply bool_decide_eq_false. intros [Hu _]. apply Hlen.
    by rewrite <- (length_fmap Pool_Uuid), Hu, length_fmap. }
  rewrite same_uuids_spec by lia. rewrite drop_0. unfold mbind, outcome_bind.
  case_bool_decide as Hu; simpl.
  - case_decide as Hd; f_equal; symmetry;
      [apply bool_decide_eq_false|apply bool_decide_eq_true]; tauto.
  - f_equal. symmetry. apply bool_decide_eq_false. tauto.
Qed.

Lemma fields_loop_app_space cur a c b :
  is_space c = true →
  fields_loop cur (a +:+ String c b) = fields_loop cur a ++ Fields b.
Proof.
  intros Hc. revert cur. induction a as [|d a IH]; intros cur; simpl.
  - rewrite Hc. unfold Fields. by destruct cur.
  - destruct (is_space d); [|apply IH]. destruct cur; [apply IH|]. simpl. f_equal. apply IH.
Qed.

Lemma Fields_nonempty cur a c b : is_space c = false → fields_loop cur (a +:+ String c b) ≠ [].
Proof.
  intros Hc. revert cur. induction a as [|d a IH]; intros cur; simpl.
  - rewrite Hc. clear. assert (∀ s cur, cur ≠ "" → fields_loop cur s ≠ []) as Hne.
    { induction s as [|e s IHs]; intros cur0 Hcur; simpl.
      - by destruct cur0.
      - destruct (is_space e); [by destruct cur0|]. apply IHs. by destruct cur0. }
    apply Hne. by destruct cur.
  - destruct (is_space d); [|apply IH]. by destruct cur; [apply IH|].
Qed.

(** Killing the PX daemon never indexes past the fields of a [ps] line: a
    line that shows the daemon has at least two fields, so the process id is
    found for every output. *)
Theorem daemon_pid_total out :
  daemon_pid out =
    match find_first is_daemon_line (Split out newline) with
    | Some line => Ok (Fields line !!! 1%nat)
    | None => Ok ""
    end.
Proof.
  unfold daemon_pid. destruct (find_first _ _) as [line|] eqn:E; [|done].
  apply find_first_Some in E as [_ Hd]. unfold is_daemon_line in Hd.
  apply andb_true_iff in Hd as [(a & b & ->)%Contains_spec _].
  assert (2 <= length (Fields (a +:+ "/usr/local/bin/px -daemon" +:+ b)))%nat as Hlen.
  { change ("/usr/local/bin/px -daemon" +:+ b)
      with ("/usr/local/bin/px" +:+ String " " (String "-" ("daemon" +:+ b))).
    rewrite <- app_assoc_s. unfold Fields. rewrite fields_loop_app_space by done.
    rewrite length_app.
    pose proof (Fields_nonempty "" "" "-" ("daemon" +:+ b) eq_refl).
    pose proof (Fields_nonempty "" a "/" "usr/local/bin/px" eq_refl) as Hne.
    unfold Fields. simpl in *.
    destruct (fields_loop "" (a +:+ _)); [done|].
    destruct (fields_loop "-daemon" b); [done|]. simpl. lia. }
  unfold index. rewrite decide_False by lia. change (Z.to_nat 1) with 1%nat.
  destruct (lookup_lt_is_Some_2 (Fields (a +:+ "/usr/local/bin/px -daemon" +:+ b)) 1) as [f Hf]; [lia|].
  by rewrite Hf, (list_lookup_total_correct _ _ _ Hf).
Qed.

Lemma HasPrefix_before a c b sub :
  free_of c sub = true → HasPrefix (a +:+ String c b) sub = HasPrefix a sub.
Proof.
  unfold HasPrefix. revert a. induction sub as [|d sub IH]; intros a Hf; [by destruct a|].
  simpl in Hf. apply andb_true_iff in Hf as [Hd Hf]. apply negb_true_iff, Ascii.eqb_neq in Hd.
  destruct a as [|e a]; simpl; [by destruct (ascii_dec d c)|].
  destruct (ascii_dec d e); [by apply IH|done].
Qed.

(** A text without the separator is found on one of its two sides. *)
Lemma Contains_around a c b sub :
  free_of c sub = true →
  Contains (a +:+ String c b) sub = Contains a sub || Contains b sub.
Proof.
  intros Hf. induction a as [|d a IH].
  - simpl. pose proof (HasPrefix_before "" c b sub Hf) as Hp. simpl in Hp. rewrite Hp. by destruct (HasPrefix "" sub).
  - change (String d a +:+ String c b) with (String d (a +:+ String c b)). cbn [Contains].
    rewrite IH. pose proof (HasPrefix_before (String d a) c b sub Hf) as Hp. simpl in Hp.
    by rewrite Hp, orb_assoc.
Qed.

Lemma TrimRight_app a b cs : TrimRight b cs = b → b ≠ "" → TrimRight (a +:+ b) cs = a +:+ b.
Proof.
  intros Hb Hne. induction a as [|c a IH]; simpl; [done|]. rewrite IH.
  destruct (a +:+ b) eqn:E; [|done]. by apply app_eq_empty in E as [_ ?].
Qed.

(** A field of a report: not empty, without blanks around it, without colons
    and line ends, and without the word that marks the [other] kind of line. *)
Definition field_ok (other : string) (s : string) : Prop :=
  s ≠ "" ∧ TrimLeft s " " = s ∧ TrimRight s " " = s ∧ free_of ":" s = true ∧
  free_of newline s = true ∧ Contains s other = false.

(** What [pxctl sv pool show] reports for one pool: its uuid, its status, and
    the status of its last operation when there was one. *)
Record pool_report := { rep_uuid : string; rep_status : string; rep_last : list string }.

Definition report_lines (r : pool_report) : list string :=
  ("UUID:  " +:+ rep_uuid r) :: ("Status:  " +:+ rep_status r) ::
  ((λ o, "LastOperation Status:  " +:+ o) <$> rep_last r).

Definition report_ok (r : pool_report) : Prop :=
  field_ok "Status" (rep_uuid r) ∧ field_ok "UUID" (rep_status r) ∧
  Forall (field_ok "UUID") (rep_last r).

Lemma after_colon_field label other s :
  free_of ":" label = true → field_ok other s → after_colon (label +:+ ":  " +:+ s) = Ok s.
Proof.
  intros Hl (_ & Htl & Htr & Hc & _).
  unfold after_colon, Split. simpl (":  " +:+ s). rewrite split_loop_app by done.
  unfold Split. rewrite split_loop_free by done. unfold index. simpl. unfold mbind, outcome_bind.
  unfold Trim. simpl. by rewrite Htl, Htr.
Qed.

Lemma Contains_blanks s sub :
  free_of " " sub = true → sub ≠ "" → Contains ("  " +:+ s) sub = Contains s sub.
Proof.
  intros Hf Hne. destruct sub as [|c sub]; [done|]. pose proof Hf as Hc. unfold free_of in Hc.
  simpl in Hc. apply andb_true_iff in Hc as [Hc _]. apply negb_true_iff, Ascii.eqb_neq in Hc.
  simpl. unfold HasPrefix. simpl. by destruct (ascii_dec c " ").
Qed.

Lemma Trim_field c a s :
  Ascii.eqb c " " = false → s ≠ "" → TrimRight s " " = s →
  Trim (String c a +:+ s) " " = String c a +:+ s.
Proof.
  intros Hc Hne Hs. unfold Trim. simpl. rewrite Hc. simpl.
  apply (TrimRight_app (String c a)); done.
Qed.

(** Whether a labelled line contains a word is decided by the label and the field. *)
Lemma Contains_line label s sub :
  free_of ":" sub = true → free_of " " sub = true → sub ≠ "" →
  Contains (label +:+ ":  " +:+ s) sub = Contains label sub || Contains s sub.
Proof.
  intros Hc Hb Hne. change (":  " +:+ s) with (String ":" ("  " +:+ s)).
  by rewrite Contains_around, Contains_blanks.
Qed.

Lemma scan_uuid_line st u :
  field_ok "Status" u → scan_value st = "" →
  pool_scan_line "Status" st ("UUID" +:+ ":  " +:+ u) =
    Ok {| scan_uuid := u; scan_value := ""; scan_data := scan_data st |}.
Proof.
  intros Hu Hv. pose proof Hu as (Hne & _ & Htr & _ & _ & HS). unfold pool_scan_line.
  assert (Trim ("UUID" +:+ ":  " +:+ u) " " = "UUID" +:+ ":  " +:+ u) as ->
    by (by apply (Trim_field "U" "UID:  ")).
  rewrite !Contains_line, HS by done.
  change (Contains "UUID" "UUID") with true. change (Contains "UUID" "Status") with false. cbn [orb].
  rewrite (after_colon_field "UUID" "Status" u) by done.
  unfold mbind, outcome_bind. rewrite Hv, (bool_decide_eq_true_2 ("" = "")) by done.
  by rewrite andb_false_r.
Qed.

Lemma scan_status_line st label s :
  field_ok "UUID" s → free_of ":" label = true → Contains label "UUID" = false →
  (∃ c l, label = String c l ∧ Ascii.eqb c " " = false) → Contains label "Status" = true →
  pool_scan_line "Status" st (label +:+ ":  " +:+ s) =
    Ok (if decide (scan_uuid st = "")
        then {| scan_uuid := ""; scan_value := ""; scan_data := scan_data st |}
        else {| scan_uuid := ""; scan_value := "";
                scan_data := match scan_data st !! scan_uuid st with
                             | Some _ => scan_data st
                             | None => <[scan_uuid st := s]> (scan_data st)
                             end |}).
Proof.
  intros Hs Hl HU (c & l & -> & Hc) Hst. pose proof Hs as (Hne & _ & Htr & _ & _ & HsU).
  unfold pool_scan_line.
  assert (Trim (String c l +:+ ":  " +:+ s) " " = String c l +:+ ":  " +:+ s) as ->.
  { rewrite <- app_assoc_s. by apply (Trim_field c (l +:+ ":  ")). }
  rewrite !Contains_line, HU, HsU, Hst by done.
  rewrite (after_colon_field _ "UUID") by done. unfold mbind, outcome_bind. cbn [orb].
  rewrite (bool_decide_eq_false_2 (s = "")) by done.
  destruct (decide (scan_uuid st = "")) as [->|Hu]; [done|].
  by rewrite bool_decide_eq_false_2.
Qed.

Lemma pool_scan_lines_cons label st st' l ls :
  pool_scan_line label st l = Ok st' →
  pool_scan_lines label st (l :: ls) = pool_scan_lines label st' ls.
Proof. intros Hl. simpl. by rewrite Hl. Qed.

Lemma scan_report_lines r ls m :
  report_ok r →
  pool_scan_lines "Status" {| scan_uuid := ""; scan_value := ""; scan_data := m |}
    (report_lines r ++ ls) =
  pool_scan_lines "Status" {| scan_uuid := ""; scan_value := "";
    scan_data := match m !! rep_uuid r with
                 | Some _ => m | None => <[rep_uuid r := rep_status r]> m end |} ls.
Proof.
  intros (Hu & Hs & Ho). unfold report_lines.
  erewrite <- app_comm_cons, pool_scan_lines_cons by (by apply scan_uuid_line).
  erewrite <- app_comm_cons, pool_scan_lines_cons
    by (apply (scan_status_line _ "Status"); try done; by exists "S"%char, "tatus").
  cbn [scan_uuid scan_data]. destruct Hu as [Hne _]. rewrite decide_False by done.
  generalize (match m !! rep_uuid r with
              | Some _ => m | None => <[rep_uuid r := rep_status r]> m end). intros m'.
  induction Ho as [|o os Hok _ IH]; [done|]. rewrite fmap_cons, <- app_comm_cons.
  erewrite pool_scan_lines_cons
    by (apply (scan_status_line _ "LastOperation Status"); try done;
        by exists "L"%char, "astOperation Status").
  rewrite decide_True by done. apply IH.
Qed.

Lemma scan_reports rs m :
  Forall report_ok rs →
  pool_scan_lines "Status" {| scan_uuid := ""; scan_value := ""; scan_data := m |}
    (concat (report_lines <$> rs)) =
  Ok {| scan_uuid := ""; scan_value := "";
        scan_data := m ∪ list_to_map ((λ r, (rep_uuid r, rep_status r)) <$> rs) |}.
Proof.
  intros Hrs. revert m. induction Hrs as [|r rs Hr _ IH]; intros m.
  - simpl. by rewrite (right_id_L ∅ (∪)).
  - rewrite fmap_cons. cbn [concat]. rewrite scan_report_lines by done. rewrite IH. do 2 f_equal.
    rewrite fmap_cons. cbn [list_to_map foldr]. destruct (m !! rep_uuid r) eqn:E.
    + apply map_eq. intros k. rewrite !lookup_union. destruct (decide (k = rep_uuid r)) as [->|Hk].
      * rewrite E, lookup_insert_eq. by destruct (list_to_map _ !! _).
      * by rewrite lookup_insert_ne.
    + rewrite <- insert_union_l. by apply insert_union_r.
Qed.

Section node_theorems.
Context {W : Type} `{PxWorldLaws W} `{NodeDriver W} `{SchedOps W} `{K8sCore W} `{PxSdk W}.
Context `{!PxFrame W} (depth : nat).

Lemma free_of_report r : report_ok r → Forall (λ l, free_of newline l = true) (report_lines r).
Proof.
  intros ((_ & _ & _ & _ & Hu & _) & (_ & _ & _ & _ & Hs & _) & Ho). unfold report_lines.
  repeat apply Forall_cons_2; [by rewrite free_of_app..|].
  apply Forall_fmap. eapply Forall_impl; [exact Ho|].
  intros o (_ & _ & _ & _ & Hn & _). unfold compose. by rewrite free_of_app.
Qed.

(** [GetNodePoolsStatus] reads back the report of pxctl: for every list of
    pools, printed as a uuid line, a status line and any number of
    last-operation status lines each, the map returned sends every uuid to the
    status of the first pool with it; the last-operation lines do not disturb
    it. *)
Theorem GetNodePoolsStatus_reads n rs w w1 w2 path :
  rs ≠ [] → Forall report_ok rs →
  getPxctlPath n w = (Ok path, w1) →
  RunCommand n (path +:+ " sv pool show | grep -e UUID -e Status")
    (conn_opts validatePXStartTimeout defaultRetryInterval) w1 =
    (Ok (Join (concat (report_lines <$> rs)) (String newline "")), w2) →
  GetNodePoolsStatus n w = (Ok (list_to_map ((λ r, (rep_uuid r, rep_status r)) <$> rs)), w2).
Proof.
  intros Hne Hrs Hp Hr. unfold GetNodePoolsStatus. rewrite (bind_Ok _ _ _ _ _ Hp).
  rewrite (bind_Ok _ _ _ _ _ (wrap_err_Ok _ _ _ _ _ Hr)).
  rewrite Split_Join.
  - unfold lift, mbind, M_bind. unfold scan_start. rewrite scan_reports by done.
    simpl. by rewrite (left_id_L ∅ (∪)).
  - by destruct rs.
  - apply Forall_concat, Forall_fmap. eapply Forall_impl; [exact Hrs|]. apply free_of_report.
Qed.

(** *** Waiting *)

(** What a successful attempt of the first closure saw. *)
Definition saw_driver_up (wl : W * Node) : Prop :=
  ∃ w1 pxNode w2,
    (refresh_client ≫= λ _, node_Inspect (VolDriverNodeID wl.2)) w1 = (Ok pxNode, w2) ∧
    (NodeStatus pxNode = STATUS_DECOMMISSION ∧ w2 = wl.1 ∨
     NodeStatus pxNode = STATUS_OK ∧ GetPxctlStatus wl.2 w2 = (Ok (Status_String STATUS_OK), wl.1)).

Lemma driver_up_task_Done wl wl' :
  driver_up_task wl = (Ok (Done tt), wl') → saw_driver_up wl'.
Proof.
  destruct wl as [w n], wl' as [w' n']. unfold driver_up_task. rewrite bind_get_local.
  unfold attempt at 1. rewrite up_eq.
  destruct ((refresh_client ≫= λ _, node_Inspect (VolDriverNodeID n)) w) as [[p|e|s|] w1] eqn:Hi;
    [|done..].
  cbn [fst snd]. unfold saw_driver_up; cbn [fst snd].
  destruct (NodeStatus p) eqn:Hst; try done.
  - unfold attempt. rewrite up_eq.
    destruct (GetPxctlStatus n w1) as [[st|e|s|] w2] eqn:Hp; [|done..]. cbn [fst snd].
    case_decide; [|done]. unfold mret, M_ret. intros Hd. simplify_eq.
    exists w, p, w1. tauto.
  - case_decide; [|done]. unfold attempt. destruct ((up refresh_client ≫= λ _, updateNodeID) (w1, n)) as [[[]|e|s|] [w2 n2]]; done.
  - unfold mret, M_ret. intros Hd. simplify_eq. exists w, p, w'. tauto.
Qed.

(** When [WaitDriverUpOnNode] returns without error, the node was seen
    decommissioned, or up with a pxctl status of OK, under the driver id the
    node had then; and the readiness of the PX pod was the last thing
    asked, and answered yes. *)
Theorem WaitDriverUpOnNode_success n timeout text w w' :
  WaitDriverUpOnNode n timeout text w = (Ok tt, w') →
  ∃ wl n', saw_driver_up wl ∧ ∃ w1, IsPXReadyOnNode n' w1 = (Ok true, w').
Proof.
  intros (n' & Hr)%run_local_inv. apply bind_Ok_inv in Hr as ([] & wl & Hx & Hy).
  unfold attempt at 1 in Hx. 
  destruct (DoRetryWithTimeout driver_up_task _ _ _) as [[[]|e|s|] wl1] eqn:E1; [| |done..].
  2:{ destruct wl1. rewrite bind_get_local in Hx. by apply bind_Ok_inv in Hx as (? & ? & ? & ?). }
  apply DoRetryWithTimeout_Ok_inv in E1 as (wl0 & Hup%driver_up_task_Done).
  unfold attempt at 1 in Hy.
  destruct (DoRetryWithTimeout (pod_up_task _) _ _ _) as [[[]|e|s|] wl2] eqn:E2; [|by destruct wl2|done..].
  apply DoRetryWithTimeout_Ok_inv in E2 as ([w3 n3] & Hpod).
  unfold pod_up_task in Hpod. rewrite bind_get_local in Hpod.
  apply bind_Ok_inv in Hpod as (b & [w4 n4] & [Hb ->]%up_Ok_inv & Hk).
  unfold mret, M_ret in *. destruct b; simplify_eq/=.
  by eauto.
Qed.

(** When [WaitDriverDownOnNode] returns without error, connecting to every
    address of the node was refused or timed out. *)
Theorem WaitDriverDownOnNode_success n w w' :
  WaitDriverDownOnNode n w = (Ok tt, w') →
  ∀ addr, addr ∈ Addresses n → ∃ w1 e w2,
    testAndSetEndpointUsingNodeIP addr w1 = (Err e, w2) ∧
    (Contains (Error e) "connect: connection refused" = true ∨
     Contains (Error e) "i/o timeout" = true).
Proof.
  intros Hw%wrap_err_Ok_inv. apply DoRetryWithTimeout_Ok_inv in Hw as [w0 Hl].
  revert w0 Hl. induction (Addresses n) as [|a l IH]; intros w0 Hl addr Hin; [by apply elem_of_nil in Hin|].
  simpl in Hl. unfold attempt in Hl.
  destruct (testAndSetEndpointUsingNodeIP a w0) as [[[]|e|s|] w1] eqn:E; [done| |done..].
  destruct (endpoint_down (inr e)) eqn:Hd; [|done].
  apply elem_of_cons in Hin as [->|Hin]; [|by eapply IH].
  exists w0, e, w1. split; [done|]. unfold endpoint_down in Hd.
  by destruct (Contains (Error e) "connect: connection refused"); [left|right; destruct (Contains _ _)].
Qed.

(** *** Maintenance *)

Lemma status_task_Done d want msg wl wl' :
  status_task d want msg wl = (Ok (Done tt), wl') →
  ∃ apiNode, GetDriverNode d wl = (Ok apiNode, wl') ∧ NodeStatus apiNode = want.
Proof.
  unfold status_task, attempt. destruct (GetDriverNode d wl) as [[a|e|s|] [w1 n1]]; [| |done..].
  - rewrite bind_get_local. case_decide; [|done]. unfold mret, M_ret. intros Hd. simplify_eq. eauto.
  - by rewrite bind_get_local.
Qed.

(** When [EnterMaintenance] returns without error, the maintenance request
    had been accepted, and the last thing asked was the status of the node,
    which was maintenance. *)
Theorem EnterMaintenance_success n w w' :
  EnterMaintenance depth n w = (Ok tt, w') →
  (∃ w1 n1 w2, maintenanceOp n1 enterMaintenancePath w1 = (Ok tt, w2)) ∧
  ∃ wl apiNode n', GetDriverNode depth wl = (Ok apiNode, (w', n')) ∧
    NodeStatus apiNode = STATUS_MAINTENANCE.
Proof.
  intros (n' & Hr)%run_local_inv. apply bind_Ok_inv in Hr as ([] & [w1 n1] & Hreq & Hk). split.
  - apply DoRetryWithTimeout_Ok_inv in Hreq as ([w0 n0] & Ht). unfold maintenance_request in Ht.
    rewrite bind_get_local in Ht. unfold attempt in Ht. rewrite up_eq in Ht.
    destruct (maintenanceOp n0 _ w0) as [[[]|e|s|] w2] eqn:E; [|done..]. eauto.
  - apply bind_Ok_inv in Hk as ([] & wl2 & _ & Hk). unfold attempt in Hk.
    destruct (DoRetryWithTimeout _ _ _ wl2) as [[[]|e|s|] [w3 n3]] eqn:E; [|done..].
    apply DoRetryWithTimeout_Ok_inv in E as (wl0 & (a & Ha & Hs)%status_task_Done).
    unfold mret, M_ret in Hk. simplify_eq. eauto.
Qed.

(** [GetNodeStatus] returns a status only if the node was inspected and had
    it, or if the cluster answered that it does not know the node, in which
    case the status is none. *)
Theorem GetNodeStatus_sound n st w w' :
  GetNodeStatus n w = (Ok st, w') →
  (∃ w1 resp, (refresh_client ≫= λ _, node_Inspect (VolDriverNodeID n)) w1 = (Ok resp, w') ∧
     st = NodeStatus resp) ∨
  (st = STATUS_NONE ∧ ∃ err, isNodeNotFound err = true).
Proof.
  unfold GetNodeStatus. unfold attempt at 1.
  destruct (DoRetryWithTimeout _ _ _ w) as [[resp|e|s|] w1] eqn:E; [| |done..].
  - apply DoRetryWithTimeout_Ok_inv in E as [w0 E]. unfold attempt in E.
    destruct ((refresh_client ≫= λ _, node_Inspect (VolDriverNodeID n)) w0) as [[r|e|s|] w2] eqn:Hi;
      [|by destruct (isNodeNotFound e)|done..].
    unfold mret, M_ret in *. intros Hs. simplify_eq. left. eauto.
  - destruct (isNodeNotFound e) eqn:Hn; [|done]. unfold mret, M_ret. intros Hs. simplify_eq.
    right. eauto.
Qed.

(** *** The registry under the operations on nodes *)

(** The operations of this file that may write the registry, on the node behind
    their pointer. *)
Inductive node_op : Type :=
  | OpGetDriverNode
  | OpWaitDriverUp (timeout : Z) (text : string)
  | OpEnterMaintenance
  | OpExitMaintenance
  | OpRecoverDriver
  | OpDecommission
  | OpRecoverNode.

Definition run_op `{TriggerApi.BackgroundScheduler W} (op : node_op) : M (W * Node) unit :=
  match op with
  | OpGetDriverNode => _ ← GetDriverNode depth; mret tt
  | OpWaitDriverUp timeout text => n ← get_local; up (WaitDriverUpOnNode n timeout text)
  | OpEnterMaintenance => n ← get_local; up (EnterMaintenance depth n)
  | OpExitMaintenance => n ← get_local; up (ExitMaintenance depth n)
  | OpRecoverDriver => n ← get_local; up (RecoverDriver depth n)
  | OpDecommission => DecommissionNode depth
  | OpRecoverNode => RecoverNode depth
  end.

(** A test drives the operations one after the other and goes on after an error. *)
Fixpoint run_ops `{TriggerApi.BackgroundScheduler W} (ops : list node_op) : M (W * Node) unit :=
  match ops with
  | [] => mret tt
  | op :: ops' => attempt (run_op op) (λ _, run_ops ops')
  end.

Lemma J_sleep d wl : J wl → J (sleep d wl).
Proof. destruct wl as [w n]. intros [Hw Hn]. split; [by apply on_registry_sleep|done]. Qed.
Hint Resolve J_sleep : torpedo.

Lemma preserves_updateNodeID : preserves J updateNodeID.
Proof. unfold updateNodeID. preserve. Qed.
Hint Resolve preserves_updateNodeID : torpedo.

Lemma preserves_GetDriverNode : preserves J (GetDriverNode depth).
Proof.
  unfold GetDriverNode. generalize (S depth), false. induction n as [|fuel IH]; intros b; [by intros wl|].
  simpl. unfold get_driver_node_body, set_refreshEndpoint. preserve. apply preserves_J_up. preserve.
Qed.
Hint Resolve preserves_GetDriverNode : torpedo.

(** A call of one node passed by value keeps the registry well formed. *)
Lemma preserves_on_copy {A} (n : Node) (m : M (W * Node) A) :
  Registry.driver_info n → preserves J m → preserves (on_registry Registry.wf) (run_local n m).
Proof. intros Hn Hm. apply (preserves_run_local _ J); [by intros|by intros ? []|done]. Qed.

Lemma preserves_J_copy {A} (f : Node → M W A) :
  (∀ n, Registry.driver_info n → preserves (on_registry Registry.wf) (f n)) →
  preserves J (get_local ≫= λ n, up (f n)).
Proof.
  intros Hf [w n] [Hw Hn]. rewrite bind_get_local, up_eq. split; [by apply Hf|done].
Qed.

Lemma preserves_pxctl P n : preserves (on_registry P) (getPxctlPath n).
Proof. unfold getPxctlPath. preserve. Qed.
Hint Resolve preserves_pxctl : torpedo.

Lemma preserves_GetPxctlStatus P n : preserves (on_registry P) (GetPxctlStatus n).
Proof. unfold GetPxctlStatus, create_context, delete_context. preserve. Qed.
Hint Resolve preserves_GetPxctlStatus : torpedo.

Lemma preserves_maintenanceOp P n op : preserves (on_registry P) (maintenanceOp n op).
Proof. unfold maintenanceOp, getRestContainerPort. preserve. Qed.
Hint Resolve preserves_maintenanceOp : torpedo.

Lemma preserves_status_task st msg : preserves J (status_task depth st msg).
Proof. unfold status_task. preserve. Qed.

Lemma preserves_maintenance_request op : preserves J (maintenance_request op).
Proof. unfold maintenance_request. preserve. Qed.
Hint Resolve preserves_status_task preserves_maintenance_request : torpedo.

Lemma preserves_EnterMaintenance n :
  Registry.driver_info n → preserves (on_registry Registry.wf) (EnterMaintenance depth n).
Proof. intros Hn. apply preserves_on_copy; [done|]. preserve. Qed.

Lemma preserves_ExitMaintenance n :
  Registry.driver_info n → preserves (on_registry Registry.wf) (ExitMaintenance depth n).
Proof. intros Hn. apply preserves_on_copy; [done|]. preserve. Qed.
Hint Resolve preserves_EnterMaintenance preserves_ExitMaintenance : torpedo.

Lemma preserves_driver_up_task : preserves J driver_up_task.
Proof.
  unfold driver_up_task. preserve. apply preserves_J_up. preserve.
Qed.
Hint Resolve preserves_driver_up_task preserves_IsPXReadyOnNode : torpedo.

(** Reading the node keeps what [J] says of it. *)
Lemma preserves_J_bind_get {A} (f : Node → M (W * Node) A) :
  (∀ n, Registry.driver_info n → preserves J (f n)) → preserves J (get_local ≫= f).
Proof. intros Hf [w n] [Hw Hn]. rewrite bind_get_local. by apply Hf. Qed.

Ltac preserve_node :=
  repeat first
    [ solve [eauto 3 with torpedo]
    | apply preserves_J_bind_get; intros ? ?
    | preserve_step
    | apply preserves_J_up; solve [preserve] ].

Lemma preserves_WaitDriverUp n timeout text :
  Registry.driver_info n → preserves (on_registry Registry.wf) (WaitDriverUpOnNode n timeout text).
Proof.
  intros Hn. apply preserves_on_copy; [done|]. unfold pod_up_task, PrintCommandOutput. preserve_node.
Qed.
Hint Resolve preserves_WaitDriverUp : torpedo.

Lemma clear_installed_info n : Registry.driver_info (clear_installed n).
Proof. by intros ?. Qed.
Hint Resolve clear_installed_info : torpedo.

Lemma preserves_DecommissionNode : preserves J (DecommissionNode depth).
Proof.
  unfold DecommissionNode, decommission_maintenance, wait_maintenance_task, delete_task, gone_task,
    registry_GetStorageDriverNodes, set_refreshEndpoint. preserve_node.
Qed.

Lemma preserves_RecoverNode `{TriggerApi.BackgroundScheduler W} : preserves J (RecoverNode depth).
Proof. unfold RecoverNode, RestartDriver, TriggerApi.PerformTask. preserve_node. Qed.
Hint Resolve preserves_DecommissionNode preserves_RecoverNode : torpedo.

(** C6. Whatever operations are run on a node, in whatever order and with
    whatever failures, the registry stays well formed and the node keeps a
    storage node whenever it counts as having the driver installed. *)
Theorem node_ops_wf `{TriggerApi.BackgroundScheduler W} ops w n :
  Registry.wf (nodeRegistry (px w)) → Registry.driver_info n →
  let '(w', n') := (run_ops ops (w, n)).2 in
  Registry.wf (nodeRegistry (px w')) ∧ Registry.driver_info n'.
Proof.
  intros Hw Hn. enough (preserves J (run_ops ops)) as Hp.
  { specialize (Hp (w, n) (conj Hw Hn)). by destruct (run_ops ops (w, n)) as [o [w' n']]. }
  induction ops as [|op ops IH]; simpl; [preserve|].
  apply preserves_attempt; [|done]. destruct op; simpl; unfold RecoverDriver; preserve_node.
Qed.

(** *** Decommissioning *)

Lemma host_listed_false n l :
  host_listed n l = Ok false →
  ∀ sn p, storageNode n = Some sn → p ∈ l → Hostname p ≠ Hostname sn.
Proof.
  intros Hl sn p Hsn. induction l as [|q l IH]; [by intros ?%elem_of_nil|].
  simpl in Hl. rewrite Hsn in Hl. simpl in Hl. unfold mbind, outcome_bind in Hl.
  case_decide; [done|]. intros [->|Hp]%elem_of_cons; [done|]. by apply IH.
Qed.

Lemma gone_task_Done n w w' :
  gone_task n w = (Ok (Done tt), w') →
  ∃ l, getPxNodes false w = (Ok l, w') ∧ host_listed n l = Ok false.
Proof.
  unfold gone_task, attempt. destruct (getPxNodes false w) as [[l|e|s|] w1]; [|done..].
  unfold lift, mbind, M_bind. destruct (host_listed n l) as [[]|e|s|] eqn:E; [done| |done..].
  unfold mret, M_ret. intros Hd. simplify_eq. eauto.
Qed.

Lemma gone_keeps_registry n w w' t i :
  DoRetryWithTimeout (gone_task n) t i w = (Ok tt, w') →
  nodeRegistry (px w') = nodeRegistry (px w).
Proof.
  intros Hd.
  assert (preserves (on_registry (λ r, r = nodeRegistry (px w)))
            (DoRetryWithTimeout (gone_task n) t i)) as Hp by (unfold gone_task; preserve).
  specialize (Hp w eq_refl). by rewrite Hd in Hp.
Qed.

(** C5. When [DecommissionNode] returns without error, the node's own entry of
    the registry says that the driver is not installed, and the last list of
    the cluster's nodes that was fetched has no node with its host name. *)
Theorem DecommissionNode_success w n w' n' :
  DecommissionNode depth (w, n) = (Ok tt, (w', n')) →
  nodeRegistry (px w') !! uuid n' = Some n' ∧ IsStorageDriverInstalled n' = false ∧
  ∃ w1 l, getPxNodes false w1 = (Ok l, w') ∧
    ∀ sn p, storageNode n' = Some sn → p ∈ l → Hostname p ≠ Hostname sn.
Proof.
  unfold DecommissionNode. rewrite bind_get_local. intros Hd.
  apply bind_Ok_inv in Hd as ([] & wl1 & _ & Hd).
  apply bind_Ok_inv in Hd as ([] & [w2 n2] & _ & Hd). rewrite bind_get_local in Hd.
  apply bind_Ok_inv in Hd as (resp & wl3 & _ & Hd).
  apply bind_Ok_inv in Hd as ([] & [w4 n4] & _ & Hd). rewrite bind_get_local in Hd.
  apply bind_Ok_inv in Hd as (path & [w5 n5] & [_ ->]%up_Ok_inv & Hd).
  apply bind_Ok_inv in Hd as (drivers & [w6 n6] & [_ ->]%up_Ok_inv & Hd).
  apply bind_Ok_inv in Hd as ([] & [w7 n7] & [_ ->]%up_Ok_inv & Hd).
  rewrite bind_put_local in Hd.
  apply bind_Ok_inv in Hd as ([] & [w8 n8] & [Hreg ->]%wrap_err_Ok_inv%up_Ok_inv & Hd).
  apply bind_Ok_inv in Hd as ([] & [w9 n9] & [Hset ->]%up_Ok_inv & Hd).
  apply wrap_err_Ok_inv, up_Ok_inv in Hd as [Hgone ->].
  apply registry_UpdateNode_Ok in Hreg as [_ Hreg].
  pose proof (gone_keeps_registry _ _ _ _ _ Hgone) as Hkeep.
  unfold set_refreshEndpoint, modify_px in Hset. simplify_eq.
  rewrite px_set_px in Hkeep. simpl in Hkeep. rewrite Hkeep, Hreg, lookup_insert_eq.
  split; [done|]. split; [done|].
  apply DoRetryWithTimeout_Ok_inv in Hgone as (w1 & (l & Hl & Hh)%gone_task_Done).
  exists w1, l. split; [done|]. by apply host_listed_false.
Qed.

(** When the node is labelled and put into maintenance but inspecting it
    then fails, [DecommissionNode] does not return its error: it dereferences
    the nil response while building the message. *)
Theorem DecommissionNode_inspect_failure w n w1 wl2 w3 e :
  AddLabelOnNode (Name n) PXEnabledLabelKey "remove" w = (Ok tt, w1) →
  decommission_maintenance depth (w1, n) = (Ok tt, wl2) →
  (refresh_client ≫= λ _, node_Inspect (VolDriverNodeID wl2.2)) wl2.1 = (Err e, w3) →
  DecommissionNode depth (w, n) =
    (Panic "invalid memory address or nil pointer dereference", (w3, wl2.2)).
Proof.
  intros Hl Hm Hi. unfold DecommissionNode. rewrite bind_get_local.
  rewrite (bind_Ok _ _ _ (w1, n) tt) by (apply wrap_err_Ok; by rewrite up_eq, Hl).
  rewrite (bind_Ok _ _ _ _ _ Hm). destruct wl2 as [w2 n2]. rewrite bind_get_local.
  simpl in Hi. unfold mbind at 1, M_bind at 1. unfold attempt at 1. rewrite up_eq, Hi. done.
Qed.

(** *** The fuel of GetDriverNode *)

Lemma get_driver_node_body_mono (again again' : M (W * Node) StorageNode) b wl o wl' :
  (∀ wl1 o1 wl2, again wl1 = (o1, wl2) → o1 ≠ Diverge → again' wl1 = (o1, wl2)) →
  get_driver_node_body again b wl = (o, wl') → o ≠ Diverge →
  get_driver_node_body again' b wl = (o, wl').
Proof.
  intros Hmore. unfold get_driver_node_body, mbind, M_bind.
  destruct (up _ wl) as [[[]|e|s|] [w1 n1]]; [|naive_solver..].
  unfold get_local, attempt. rewrite up_eq.
  destruct (node_Inspect _ _) as [[r|e|s|] w2]; cbn [fst snd]; [naive_solver| |naive_solver..].
  destruct (isNodeNotFound e); [|naive_solver].
  destruct (updateNodeID _) as [[[]|e'|s'|] wl3]; naive_solver.
Qed.

Lemma GetDriverNode_rec_more fuel b wl o wl' :
  GetDriverNode_rec fuel b wl = (o, wl') → o ≠ Diverge →
  GetDriverNode_rec (S fuel) b wl = (o, wl').
Proof.
  revert b wl o wl'. induction fuel as [|fuel IH]; intros b wl o wl' Hg Ho.
  - simpl in Hg. simplify_eq.
  - eapply get_driver_node_body_mono; [intros; by apply IH|exact Hg|done].
Qed.

(** The bound on the recursion of [GetDriverNode] is only a bound: an
    answer found within it is the answer for every larger bound. *)
Theorem GetDriverNode_fuel d1 d2 wl o wl' :
  (d1 <= d2)%nat → GetDriverNode d1 wl = (o, wl') → o ≠ Diverge → GetDriverNode d2 wl = (o, wl').
Proof.
  unfold GetDriverNode. intros Hle Hg Ho. induction Hle as [|d2 Hle IH]; [done|].
  by apply GetDriverNode_rec_more.
Qed.
End node_theorems.
