(* ===== verification/PxVolume.v ===== *)
(** drivers/volume/portworx/portworx.go: operations on volumes - creation,
    clean-up, validation against the requested parameters, attachment and
    replication. *)

From Stdlib Require Import Ascii.
From S2P Require Import Prelude GoStrings Errors Effects Float64 Strconv Task OpenStorageApi NodeRegistry PxDriver PxNodeOps.

(** [torpedovolume.Volume] (drivers/volume/volume.go) *)
Record Volume := {
  ID : string;
  Volume_Name : string;
  Namespace : string;
  Annotations : gmap string string;
  Labels : gmap string string;
  Size : Z;
  RequestedSize : Z;
  Shared : bool;
  Raw : bool;
}.

(** What a message of [errFailedToInspectVolume] may show *)
Inductive spec_value : Type :=
  | VBool (b : bool)
  | VInt (z : Z)
  | VString (s : string)
  | VStrings (l : list string)
  | VGroup (g : option string)
  | VLabels (m : gmap string string).

(** The volume services of the SDK.  A call made with [d.getContext()] carries
    the token of the driver, which is part of the world; the calls whose name
    ends in [As] carry the token they are given. *)
Class VolumeSdk (W : Type) := {
  vol_Inspect : string → M W (option ApiVolume);
  vol_InspectAs : string → string → M W (option ApiVolume);
  node_InspectAs : string → string → M W StorageNode;
  vol_Enumerate : M W (list string);
  vol_Create : string → Z → Z → M W string;
  vol_Update : string → VolumeSpecUpdate → M W unit;
  vol_Delete : string → M W unit;
  vol_Clone : string → string → M W string;
  vol_SnapshotCreateAs : string → string → string → M W unit;
  mount_Attach : string → M W string;
  mount_Detach : string → M W unit;
  mount_Unmount : string → string → M W unit;
  pool_EnumerateRebalanceJobs : M W (list (string * RebalanceJobState));
  pool_ResizeByPercentage : string → Z → Z → M W unit;
}.

(** The scheduler's side of volumes, the parser of storage class parameters,
    the [%#v] of a value, and Go's choice of an order for a map. *)
Class VolumeEnv (W : Type) := {
  GetVolumeName : Volume → string;
  ValidateSnapshot : gmap string string → option ApiVolume → M W unit;
  GetPersistentVolume : string → M W Z;
  SpecFromOpts : gmap string string → outcome (VolumeSpec * gmap string string);
  sharp_v : spec_value → string;
  range_params : gmap string string → M W (list (string * string));
}.

Class VolumeEnvLaws (W : Type) `{VolumeEnv W} : Prop := {
  range_params_spec : ∀ m w, ∃ l w', range_params m w = (Ok l, w') ∧ l ≡ₚ map_to_list m;
}.

Definition refreshEndpointParam : string := "refresh-endpoint".
Definition secretName : string := "openstorage.io/auth-secret-name".
Definition secretNamespace : string := "openstorage.io/auth-secret-namespace".
Definition DeviceMapper : string := "mapper".
Definition MaxUint32 : Z := 4294967295.

Definition deleteVolumeLabelList : list string :=
  [ "auth-token"; "pv.kubernetes.io"; "volume.beta.kubernetes.io"; "kubectl.kubernetes.io";
    "volume.kubernetes.io"; "pvc_name"; "pvc_namespace";
    "csi.storage.k8s.io/provisioner-secret-name"; "csi.storage.k8s.io/provisioner-secret-namespace";
    "csi.storage.k8s.io/node-publish-secret-name"; "csi.storage.k8s.io/node-publish-secret-namespace";
    "csi.storage.k8s.io/controller-expand-secret-name";
    "csi.storage.k8s.io/controller-expand-secret-namespace" ].

Definition hasIgnorePrefix (str : string) : bool := existsb (HasPrefix str) deleteVolumeLabelList.

Definition deleteLabelsFromRequestedSpec (labels : gmap string string) : gmap string string :=
  filter (λ kv : string * string, hasIgnorePrefix kv.1 = false) labels.

Definition inspect_error (volumeName cause : string) : error :=
  PxErr PxErrFailedToInspectVolume volumeName cause.

Section volumes.
Context {W : Type} `{PxWorld W} `{NodeDriver W} `{SchedOps W} `{K8sCore W} `{PxSdk W}.
Context `{VolumeSdk W} `{VolumeEnv W}.

(** ** Plain operations *)

Definition ListAllVolumes : M W (list string) :=
  _ ← refresh_client; vol_Enumerate.

Definition CreateVolume (volName : string) (size haLevel : Z) : M W string :=
  _ ← refresh_client;
  wrap_err (λ err, Errorf ("failed to create volume, Err: " +:+ Error err))
    (vol_Create volName size haLevel).

Definition CreateVolumeUsingPxctlCmd (n : Node) (volName : string) (size haLevel : Z) : M W unit :=
  _ ← RunCommandWithNoRetry n ("pxctl volume create " +:+ volName +:+ " --size " +:+ Itoa size +:+
        " --repl " +:+ Itoa haLevel) (conn_opts maintenanceWaitTimeout defaultRetryInterval);
  mret tt.

(** [Inspect] through the volume driver at hand, and the volume of its answer *)
Definition inspect_or (h : error → error) (name : string) : M W ApiVolume :=
  resp ← wrap_err h (vol_Inspect name);
  lift (deref resp).

Definition ResizeVolume (volName : string) (size : Z) : M W unit :=
  _ ← refresh_client;
  vol ← inspect_or (λ err, Errorf ("failed to find volume " +:+ volName +:+ " due to " +:+ Error err))
          volName;
  vol_Update (Vol_Id vol) {| HaLevelOpt := None; SnapshotIntervalOpt := None; SizeOpt := Some size;
    IoThrottleOpt := None; ReplicaSetOpt := None |}.

Definition CloneVolume (volumeID : string) : M W string :=
  _ ← refresh_client;
  pxVolume ← inspect_or (λ err, Errorf ("failed to find volume " +:+ volumeID +:+ " due to " +:+
               Error err)) volumeID;
  newID ← wrap_err (λ err, Errorf ("failed to clone volume [" +:+ Vol_Id pxVolume +:+ "], Err: " +:+
             Error err)) (vol_Clone (Vol_Id pxVolume) (Locator_Name pxVolume +:+ "_clone"));
  if decide (newID = "") then throw (Errorf "cloned volume id returned was null") else mret newID.

Definition AttachVolume (volumeID : string) : M W string :=
  _ ← refresh_client;
  wrap_err (λ err, Errorf ("failed to attach volume [" +:+ volumeID +:+ "], Err: " +:+ Error err))
    (mount_Attach volumeID).

Definition DetachVolume (volumeID : string) : M W unit :=
  _ ← refresh_client;
  wrap_err (λ err, Errorf ("failed to detach volume [" +:+ volumeID +:+ "], Err: " +:+ Error err))
    (mount_Detach volumeID).

Definition DeleteVolume (volumeID : string) : M W unit :=
  _ ← refresh_client;
  pxVolume ← inspect_or (λ err, Errorf ("failed to find volume [" +:+ volumeID +:+ "], Err: " +:+
               Error err)) volumeID;
  wrap_err (λ err, Errorf ("failed to delete volume [" +:+ Vol_Id pxVolume +:+ "], Err: " +:+ Error err))
    (vol_Delete (Vol_Id pxVolume)).

Definition InspectVolume (name : string) : M W (option ApiVolume) :=
  _ ← refresh_client;
  s ← get_px;
  vol_InspectAs (token s) name.

(** *** CleanupVolume *)

(** Unmount everywhere, detach, delete. *)
Fixpoint unmount_paths (pxVolume : ApiVolume) (paths : list string) : M W unit :=
  match paths with
  | [] => mret tt
  | path :: paths' =>
      _ ← refresh_client;
      _ ← wrap_err (λ err, Errorf ("failed to unmount volume [" +:+ Vol_Id pxVolume +:+ "] at " +:+
             path +:+ ", Err: " +:+ Error err)) (mount_Unmount (Vol_Id pxVolume) path);
      unmount_paths pxVolume paths'
  end.

Definition remove_volume (pxVolume : ApiVolume) : M W unit :=
  _ ← unmount_paths pxVolume (AttachPath pxVolume);
  _ ← wrap_err (λ err, Errorf ("failed to detach volume [" +:+ Vol_Id pxVolume +:+ "], Err: " +:+
         Error err)) (mount_Detach (Vol_Id pxVolume));
  wrap_err (λ err, Errorf ("failed to delete volume [" +:+ Vol_Id pxVolume +:+ "], Err: " +:+
    Error err)) (vol_Delete (Vol_Id pxVolume)).

Fixpoint cleanup_loop (volumeName : string) (ids : list string) : M W unit :=
  match ids with
  | [] => mret tt
  | volumeID :: ids' =>
      resp ← vol_Inspect volumeID;
      pxVolume ← lift (deref resp);
      if decide (Locator_Name pxVolume = volumeName) then remove_volume pxVolume
      else cleanup_loop volumeName ids'
  end.

Definition CleanupVolume (volumeName : string) : M W unit :=
  _ ← refresh_client;
  ids ← vol_Enumerate;
  cleanup_loop volumeName ids.

(** ** Attachment *)

Definition IsVolumeAttachedOnNode (volume : ApiVolume) (n : Node) : M W bool :=
  if decide (VolDriverNodeID n = AttachedOn volume) then mret true
  else
    resp ← node_Inspect (VolDriverNodeID n);
    if decide (MgmtIp resp = AttachedOn volume) then mret true
    else if decide (DataIp resp = AttachedOn volume) then mret true
    else mret (existsb (λ ip, bool_decide (ip = AttachedOn volume)) (Addresses n)).

(** The loop over candidate nodes, left at the first one the volume is attached on *)
Fixpoint attached_node (volume : ApiVolume) (nodes : list Node) : M W (option Node) :=
  match nodes with
  | [] => mret None
  | n :: nodes' =>
      ok ← IsVolumeAttachedOnNode volume n;
      if (ok : bool) then mret (Some n) else attached_node volume nodes'
  end.

Definition registry_GetNodesByTopologyZoneLabel (zone : string) : M W (list Node) :=
  l ← range_nodes; mret (keep (λ n, bool_decide (TopologyZone n = zone)) l).

(** A missing key of a [map[string]string] reads as the empty string. *)
Definition param (params : gmap string string) (k : string) : string := default "" (params !! k).

Definition ValidateVolumeTopology (vol : ApiVolume) (params : gmap string string) : M W unit :=
  let zone := param params TopologyZoneK8sNodeLabel in
  nodes ← registry_GetNodesByTopologyZoneLabel zone;
  found ← attached_node vol nodes;
  match found with
  | Some _ => mret tt
  | None => throw (PxErr PxErrCsiTopologyMismatch (Locator_Name vol) ("volume [" +:+ Vol_Id vol +:+
              "] is not attched on nodes with topology label [" +:+ zone +:+ "]"))
  end.

(** An inspection with the retries the [Get...] functions share: a volume that
    is not found is not looked for again. *)
Definition inspect_with_retry (name : string) (timeout interval : Z) : M W ApiVolume :=
  DoRetryWithTimeout
    (attempt (_ ← refresh_client; vol_Inspect name) (λ r,
      match r with
      | inl resp => vol ← lift (deref resp); mret (Done vol)
      | inr err => if errIsNotFound err then mret (Stop err) else mret (Retry err)
      end)) timeout interval.

Definition GetProxySpecForAVolume (volume : Volume) : M W (option ProxySpec) :=
  let name := GetVolumeName volume in
  wrap_err (λ err, PxErr PxErrFailedToGetVolumeProxySpec name (Error err))
    (vol ← inspect_with_retry name validateReplicationUpdateTimeout defaultRetryInterval;
     mret (Spec_ProxySpec (Vol_Spec vol))).

Definition IsPureVolume (volume : Volume) : M W bool :=
  proxySpec ← GetProxySpecForAVolume volume;
  match proxySpec with
  | None => mret false
  | Some ps => mret (bool_decide (Proxy_Protocol ps = PROXY_PROTOCOL_PURE_BLOCK) ||
                     bool_decide (Proxy_Protocol ps = PROXY_PROTOCOL_PURE_FILE))
  end.

Definition IsPureFileVolume (volume : Volume) : M W bool :=
  proxySpec ← GetProxySpecForAVolume volume;
  match proxySpec with
  | None => mret false
  | Some ps => mret (bool_decide (Proxy_Protocol ps = PROXY_PROTOCOL_PURE_FILE))
  end.

(** The closure of [GetNodeForVolume]; the result is nil for file volumes and
    for snapshots. *)
Definition node_for_volume_task (vol : Volume) (volumeName : string)
    : M W (task_result (option Node)) :=
  attempt (_ ← refresh_client; vol_Inspect volumeName) (λ r,
    match r with
    | inr err => mret (Stop (inspect_error volumeName (Error err)))
    | inl resp =>
        attempt (IsPureFileVolume vol) (λ r1,
          match r1 with
          | inr err => mret (Stop err)
          | inl true => mret (Done None)
          | inl false =>
              nodes ← registry_GetStorageDriverNodes;
              attempt (match nodes with
                       | [] => mret None
                       | _ => pxVol ← lift (deref resp); attached_node pxVol nodes
                       end) (λ r2,
                match r2 with
                | inr err => mret (Stop err)
                | inl (Some n) => mret (Done (Some n))
                | inl None =>
                    pxVol ← lift (deref resp);
                    parent ← lift (deref (Source_Parent pxVol));
                    if decide (parent = "")
                    then mret (Retry (Errorf ("volume [" +:+ volumeName +:+
                           "] is not attached on any node")))
                    else mret (Done None)
                end)
          end)
    end).

Definition GetNodeForVolume (vol : Volume) (timeout retryInterval : Z) : M W (option Node) :=
  let volumeName := GetVolumeName vol in
  _ ← set_refreshEndpoint true;
  attempt (DoRetryWithTimeout (node_for_volume_task vol volumeName) timeout retryInterval) (λ r,
    _ ← set_refreshEndpoint false;
    match r with
    | inl n => mret n
    | inr err => throw (PxErr PxErrFailedToValidateAttachment volumeName (Error err))
    end).

(** ** Replication *)

Definition GetReplicationFactor (vol : Volume) : M W Z :=
  let name := GetVolumeName vol in
  wrap_err (λ err, PxErr PxErrFailedToGetReplicationFactor name (Error err))
    (v ← inspect_with_retry name validateReplicationUpdateTimeout defaultRetryInterval;
     mret (HaLevel (Vol_Spec v))).

Definition GetAggregationLevel (vol : Volume) : M W Z :=
  let name := GetVolumeName vol in
  wrap_err (λ err, PxErr PxErrFailedToGetAggregationLevel name (Error err))
    (v ← inspect_with_retry name inspectVolumeTimeout inspectVolumeRetryInterval;
     mret (AggregationLevel (Vol_Spec v))).

Definition GetMaxReplicationFactor : Z := 3.
Definition GetMinReplicationFactor : Z := 1.

Definition isClean (vol : ApiVolume) : bool :=
  forallb (λ v, bool_decide (default "" (v !! "RuntimeState") = "clean")) (RuntimeState vol).

Definition areRepSetsFinal (vol : ApiVolume) (replFactor : Z) : bool :=
  forallb (λ rs, bool_decide (Z.of_nat (length (Nodes rs)) = replFactor)) (ReplicaSets vol).

Definition replication_done (vol : ApiVolume) (replFactor : Z) : bool :=
  areRepSetsFinal vol replFactor && isClean vol.

(** The polling loop: [time.After] has fired once the deadline is reached. *)
Fixpoint replication_loop (fuel : nat) (volumeName : string) (replFactor deadline : Z)
    (resp : option ApiVolume) : M W (option ApiVolume) :=
  match fuel with
  | O => λ w, (Diverge, w)
  | S fuel' => λ w,
      match resp with
      | None => (Panic "invalid memory address or nil pointer dereference", w)
      | Some vol =>
          if replication_done vol replFactor then (Ok resp, w)
          else if decide (deadline <= now w) then (Ok resp, w)
          else (resp' ← vol_Inspect volumeName;
                _ ← pause defaultRetryInterval;
                replication_loop fuel' volumeName replFactor deadline resp') w
      end
  end.

Definition WaitForReplicationToComplete (vol : Volume) (replFactor replicationUpdateTimeout : Z)
    : M W unit :=
  let volumeName := GetVolumeName vol in
  _ ← refresh_client;
  resp ← vol_Inspect volumeName;
  last ← (λ w, replication_loop (retry_fuel replicationUpdateTimeout defaultRetryInterval) volumeName
            replFactor (now w + replicationUpdateTimeout) resp w);
  v ← lift (deref last);
  if replication_done v replFactor then mret tt
  else throw (Errorf ("volume didn't successfully change to replication factor of " +:+
         Itoa replFactor)).

(** The closure of [SetReplicationFactor] *)
Definition set_replication_task (vol : Volume) (replFactor : Z)
    (nodesToBeUpdated poolsToBeUpdated : list string) (waitForUpdateToFinish : bool)
    (timeout : Z) : M W (task_result unit) :=
  let volumeName := GetVolumeName vol in
  attempt (_ ← refresh_client; vol_Inspect volumeName) (λ r,
    match r with
    | inr err => if errIsNotFound err then mret (Stop err) else mret (Retry err)
    | inl resp =>
        v ← lift (deref resp);
        attempt (vol_Update (Vol_Id v)
          {| HaLevelOpt := Some replFactor; SnapshotIntervalOpt := Some MaxUint32; SizeOpt := None;
             IoThrottleOpt := None;
             ReplicaSetOpt := Some {| Nodes := nodesToBeUpdated; PoolUuids := poolsToBeUpdated |} |})
          (λ r1,
          match r1 with
          | inr err => mret (Stop err)
          | inl _ =>
              if waitForUpdateToFinish
              then attempt (WaitForReplicationToComplete vol replFactor timeout) (λ r2,
                match r2 with
                | inl _ => mret (Done tt)
                | inr err => if errIsNotFound err then mret (Stop err) else mret (Retry err)
                end)
              else mret (Done tt)
          end)
    end).

(** [opts] is the timeout of the first element of the optional options. *)
Definition SetReplicationFactor (vol : Volume) (replFactor : Z)
    (nodesToBeUpdated poolsToBeUpdated : list string) (waitForUpdateToFinish : bool)
    (opts : option Z) : M W unit :=
  let timeout := default validateReplicationUpdateTimeout opts in
  wrap_err (λ err, PxErr PxErrFailedToSetReplicationFactor (GetVolumeName vol) (Error err))
    (DoRetryWithTimeout (set_replication_task vol replFactor nodesToBeUpdated poolsToBeUpdated
       waitForUpdateToFinish timeout) timeout defaultRetryInterval).

Definition GetReplicaSets (torpedovol : Volume) : M W (list ReplicaSet) :=
  _ ← refresh_client;
  v ← inspect_or (λ err, inspect_error (Volume_Name torpedovol) (Error err))
        (GetVolumeName torpedovol);
  mret (ReplicaSets v).

(** ** Updates of the spec *)

(** [SetIoBandwidth] and [UpdateVolumeSpec] differ in the update they send. *)
Definition update_spec (vol : Volume) (upd : VolumeSpecUpdate) : M W unit :=
  let volumeName := GetVolumeName vol in
  _ ← refresh_client;
  _ ← vol_Inspect volumeName;
  wrap_err (λ err, Errorf ("failed to set set IOps for volumeName [" +:+ volumeName +:+ "], Err: " +:+
      Error err))
    (DoRetryWithTimeout
      (attempt (vol_Update volumeName upd) (λ r,
        match r with
        | inl _ => mret (Done tt)
        | inr _ => mret (Retry (Errorf ("volume [" +:+ volumeName +:+ "] not updated yet")))
        end)) inspectVolumeTimeout defaultRetryInterval).

Definition SetIoBandwidth (vol : Volume) (readBandwidthMBps writeBandwidthMBps : Z) : M W unit :=
  update_spec vol {| HaLevelOpt := None; SnapshotIntervalOpt := None; SizeOpt := None;
    IoThrottleOpt := Some (readBandwidthMBps, writeBandwidthMBps); ReplicaSetOpt := None |}.

Definition UpdateVolumeSpec (vol : Volume) (volumeSpec : VolumeSpecUpdate) : M W unit :=
  update_spec vol volumeSpec.

(** ** Validation *)

(** [getTokenForVolume(name, params)]; the name is not used. *)
Definition getTokenForVolume (params : gmap string string) : M W string :=
  s ← get_px;
  let volSecret := param params secretName in
  let volSecretNamespace := param params secretNamespace in
  if negb (bool_decide (volSecret = "")) && negb (bool_decide (volSecretNamespace = ""))
  then mret (default (token s) (params !! "auth-token"))
  else mret (token s).

(** The preamble of the functions that take parameters *)
Definition apply_refresh_param (params : gmap string string) : M W unit :=
  match params !! refreshEndpointParam with
  | Some val => set_refreshEndpoint (ParseBool val)
  | None => mret tt
  end.

(** The closure [t] of [ValidateCreateVolume] *)
Definition volume_usable_task (tok volumeName : string) : M W (task_result ApiVolume) :=
  attempt (vol_InspectAs tok volumeName) (λ r,
    match r with
    | inr err => mret (Retry err)
    | inl resp =>
        vol ← lift (deref resp);
        if decide (Vol_Status vol ≠ VOLUME_STATUS_UP)
        then mret (Retry (inspect_error volumeName ("Volume has invalid status. Expected: " +:+
               VolumeStatus_String VOLUME_STATUS_UP +:+ ", Actual: " +:+
               VolumeStatus_String (Vol_Status vol))))
        else if decide (Vol_State vol = VOLUME_STATE_ERROR ∨ Vol_State vol = VOLUME_STATE_DELETED)
        then mret (Retry (inspect_error volumeName ("Volume has invalid state. Actual:" +:+
               VolumeState_String (Vol_State vol))))
        else if decide (Vol_State vol = VOLUME_STATE_ATTACHED ∧
                        AttachedState vol = ATTACH_STATE_EXTERNAL ∧ DevicePath vol = "")
        then mret (Retry (Errorf ("device path is not present for volume: " +:+ volumeName)))
        else mret (Done vol)
    end).

(** The closure [volumeInspectDevicePath] *)
Definition device_path_task (tok volumeName : string) : M W (task_result unit) :=
  attempt (vol_InspectAs tok volumeName) (λ r,
    match r with
    | inr err => mret (Retry err)
    | inl resp =>
        vol ← lift (deref resp);
        if Contains (DevicePath vol) DeviceMapper then mret (Done tt)
        else mret (Retry (Errorf ("device path [" +:+ DevicePath vol +:+
               "] is not correct for volume [" +:+ volumeName +:+ "]")))
    end).

(** [errFailedToInspectVolume] *)
Definition errFailedToInspectVolume (volumeName key : string) (expected actual : spec_value) : error :=
  inspect_error volumeName ("volume has invalid " +:+ key +:+ " value. Expected:" +:+
    sharp_v expected +:+ " Actual:" +:+ sharp_v actual).

(** A comparison of the [switch]: equal, or the error *)
Definition expect {A} `{EqDecision A} (volumeName k : string) (shown : A → spec_value)
    (expected actual : A) : M W unit :=
  if decide (expected = actual) then mret tt
  else throw (errFailedToInspectVolume volumeName k (shown expected) (shown actual)).

(** The IO profile Portworx may derive from the requested one *)
Definition io_profile_ok (requested derived : IoProfile) (haLevel : Z) : bool :=
  if decide (requested = derived) then true
  else match requested with
  | IO_PROFILE_AUTO | IO_PROFILE_DB | IO_PROFILE_SEQUENTIAL =>
      negb (negb (bool_decide (derived = IO_PROFILE_DB_REMOTE)) &&
            negb (bool_decide (derived = IO_PROFILE_NONE)))
  | IO_PROFILE_AUTO_JOURNAL =>
      negb (negb (bool_decide (derived = IO_PROFILE_JOURNAL)) &&
            negb (bool_decide (derived = IO_PROFILE_NONE)))
  | IO_PROFILE_DB_REMOTE => negb (bool_decide (2 <= haLevel))
  | _ => false
  end.

(** The requested labels are a part of the labels of the volume. *)
Definition labels_included (requested actual : gmap string string) : bool :=
  forallb (λ kv, bool_decide (actual !! kv.1 = Some kv.2)) (map_to_list requested).

(** One case of the [switch] over the parameters.  [requestedLabels] are the
    requested labels without the ignored ones, [actualLabels] those of the
    volume without the pvc label. *)
Definition check_param (volumeName : string) (vol : ApiVolume) (requestedSpec : VolumeSpec)
    (requestedLabels actualLabels : gmap string string) (checkVolSpecGroup : bool)
    (k v : string) : M W unit :=
  let spec := Vol_Spec vol in
  if decide (k = "nodes") then
    rs ← lift (deref (Spec_ReplicaSet spec));
    if decide (v = Join (Nodes rs) ",") then mret tt
    else throw (errFailedToInspectVolume volumeName k (VString v) (VStrings (Nodes rs)))
  else if decide (k = "parent") then
    parent ← lift (deref (Source_Parent vol));
    expect volumeName k VString v parent
  else if decide (k = "ephemeral") then
    expect volumeName k VBool (Ephemeral requestedSpec) (Ephemeral spec)
  else if decide (k = "fs") then
    expect volumeName k VInt (Spec_Format requestedSpec) (Spec_Format spec)
  else if decide (k = "block_size") then
    expect volumeName k VInt (BlockSize requestedSpec) (BlockSize spec)
  else if decide (k = "repl") then
    expect volumeName k VInt (HaLevel requestedSpec) (HaLevel spec)
  else if decide (k = "snap_interval") then
    expect volumeName k VInt (SnapshotInterval requestedSpec) (SnapshotInterval spec)
  else if decide (k = "aggregation_level") then
    expect volumeName k VInt (AggregationLevel requestedSpec) (AggregationLevel spec)
  else if decide (k = "sticky") then
    expect volumeName k VBool (Sticky requestedSpec) (Sticky spec)
  else if decide (k = "group") then
    if checkVolSpecGroup then expect volumeName k VGroup (Spec_Group requestedSpec) (Spec_Group spec)
    else mret tt
  else if decide (k = "fg") then
    expect volumeName k VBool (GroupEnforced requestedSpec) (GroupEnforced spec)
  else if decide (k = "labels") then
    if negb checkVolSpecGroup || labels_included requestedLabels actualLabels then mret tt
    else throw (errFailedToInspectVolume volumeName k (VLabels requestedLabels) (VLabels actualLabels))
  else if decide (k = "io_profile") then
    if io_profile_ok (Spec_IoProfile requestedSpec) (DerivedIoProfile vol) (HaLevel spec) then mret tt
    else throw (errFailedToInspectVolume volumeName k
           (VString (IoProfile_String (Spec_IoProfile requestedSpec)))
           (VString (IoProfile_String (DerivedIoProfile vol))))
  else if decide (k = "size") then
    capacity ← wrap_err (λ err, Errorf ("failed to get PV [" +:+ volumeName +:+ "], Err: " +:+
                  Error err)) (GetPersistentVolume volumeName);
    if decide (u64 capacity = Spec_Size spec) then mret tt
    else throw (Errorf ("failed to validate volume [" +:+ volumeName +:+ "] size, expected: " +:+
           Itoa capacity +:+ ", actual: " +:+ Itoa (Spec_Size spec)))
  else mret tt.

Fixpoint check_params (check : string → string → M W unit) (l : list (string * string)) : M W unit :=
  match l with
  | [] => mret tt
  | (k, v) :: l' => _ ← check k v; check_params check l'
  end.

(** The replica nodes of the volume are inspected, to no further effect. *)
Fixpoint inspect_replica_nodes (tok volumeName : string) (ids : list string) : M W unit :=
  match ids with
  | [] => mret tt
  | n :: ids' =>
      _ ← refresh_client;
      _ ← wrap_err (λ err, inspect_error volumeName ("Failed to inspect ReplicaSet on node " +:+ n +:+
             ", Err: " +:+ Error err)) (node_InspectAs tok n);
      inspect_replica_nodes tok volumeName ids'
  end.

(** The rest of the function for a volume that is not a snapshot or clone *)
Definition validate_plain_volume (tok volumeName : string) (params : gmap string string)
    (vol : ApiVolume) : M W unit :=
  let proxy := Proxy_Protocol <$> Spec_ProxySpec (Vol_Spec vol) in
  _ ← (if decide (proxy = Some PROXY_PROTOCOL_PURE_BLOCK ∧ Vol_State vol = VOLUME_STATE_ATTACHED ∧
                  Contains (DevicePath vol) DeviceMapper = false)
       then wrap_err (λ err, inspect_error volumeName ("Failed to validate device path [" +:+
                DevicePath vol +:+ "]: [" +:+ Error err +:+ "]"))
              (DoRetryWithTimeout (device_path_task tok volumeName) (5 * Minute)
                 inspectVolumeRetryInterval)
       else mret tt);
  _ ← (if decide (is_Some (params !! TopologyZoneK8sNodeLabel) ∧ is_Some proxy ∧
                  proxy ≠ Some PROXY_PROTOCOL_PURE_FILE)
       then wrap_err (λ err, inspect_error volumeName ("Topology Inspect failed, Err: " +:+ Error err))
              (ValidateVolumeTopology vol params)
       else mret tt);
  _ ← inspect_replica_nodes tok volumeName (concat (Nodes <$> ReplicaSets vol));
  requested ← wrap_err (λ err, inspect_error volumeName
                  ("failed to parse requested spec of volume, Err: " +:+ Error err))
                (lift (SpecFromOpts params));
  let actualLabels := delete "pvc" (VolumeLabels vol) in
  let requestedLabels := deleteLabelsFromRequestedSpec requested.2 in
  let checkVolSpecGroup := negb (bool_decide (is_Some (params !! "backupGroupCheckSkip"))) in
  order ← range_params params;
  check_params (check_param volumeName vol requested.1 requestedLabels actualLabels
    checkVolSpecGroup) order.

(** A snapshot or clone is validated against its parent only. *)
Definition validate_child_volume (tok volumeName : string) (params : gmap string string)
    (vol : ApiVolume) : M W unit :=
  let parentID := default "" (Source_Parent vol) in
  attempt (vol_InspectAs tok parentID) (λ r,
    match r with
    | inr _ => throw (inspect_error volumeName ("Could not get parent with ID [" +:+ parentID +:+ "]"))
    | inl parent =>
        wrap_err (λ err, inspect_error volumeName ("Snapshot/Clone validation failed, Err: " +:+
          Error err)) (ValidateSnapshot params parent)
    end).

Definition ValidateCreateVolume (volumeName : string) (params : gmap string string) : M W unit :=
  tok ← getTokenForVolume params;
  _ ← apply_refresh_param params;
  _ ← refresh_client;
  vol ← wrap_err (λ err, inspect_error volumeName ("Volume inspect returned err: " +:+ Error err))
          (DoRetryWithTimeout (volume_usable_task tok volumeName) inspectVolumeTimeout
             inspectVolumeRetryInterval);
  if IsSnapshot vol || IsClone vol then validate_child_volume tok volumeName params vol
  else validate_plain_volume tok volumeName params vol.

Definition ValidateUpdateVolume (vol : Volume) (params : gmap string string) : M W unit :=
  let volumeName := GetVolumeName vol in
  tok ← getTokenForVolume params;
  wrap_err (λ err, inspect_error volumeName ("Volume inspect returned err: " +:+ Error err))
    (DoRetryWithTimeout
      (attempt (_ ← refresh_client; vol_InspectAs tok volumeName) (λ r,
        match r with
        | inr err => mret (Retry err)
        | inl resp =>
            respVol ← lift (deref resp);
            if decide (Spec_Size (Vol_Spec respVol) = RequestedSize vol) then mret (Done tt)
            else mret (Retry (inspect_error volumeName ("Volume size differs. Expected:" +:+
                   Itoa (RequestedSize vol) +:+ " Actual:" +:+ Itoa (Spec_Size (Vol_Spec respVol)))))
        end)) inspectVolumeTimeout inspectVolumeRetryInterval).

Definition ValidateDeleteVolume (vol : Volume) : M W unit :=
  let volumeName := GetVolumeName vol in
  wrap_err (λ err, PxErr PxErrFailedToDeleteVolume volumeName (Error err))
    (DoRetryWithTimeout
      (attempt (_ ← refresh_client; vol_Inspect (ID vol)) (λ r,
        match r with
        | inr err => if errIsNotFound err then mret (Done tt) else mret (Retry err)
        | inl resp =>
            if decide (is_Some resp ∧ Shared vol = false)
            then mret (Retry (Errorf ("volume [" +:+ volumeName +:+ "] with ID [" +:+ ID vol +:+
                   "] in namespace [" +:+ Namespace vol +:+ "] is not yet removed from the system")))
            else mret (Done tt)
        end)) validateDeleteVolumeTimeout defaultRetryInterval).

Definition ValidatePureVolumesNoReplicaSets (volumeName : string) (params : gmap string string)
    : M W unit :=
  tok ← getTokenForVolume params;
  _ ← apply_refresh_param params;
  _ ← refresh_client;
  resp ← vol_InspectAs tok volumeName;
  match resp with
  | Some respVol =>
      if decide (length (ReplicaSets respVol) = 0%nat) then mret tt
      else throw (Errorf ("purevolumes [" +:+ volumeName +:+ "] has replicationset and it should not"))
  | None => mret tt
  end.

Definition ValidateCreateSnapshot (volumeName : string) (params : gmap string string) : M W string :=
  tok ← getTokenForVolume params;
  _ ← apply_refresh_param params;
  _ ← refresh_client;
  let volName := volumeName +:+ "_snapshot" in
  _ ← wrap_err (λ err, Errorf ("failed to create local snapshot, Err: " +:+ Error err))
        (vol_SnapshotCreateAs tok volumeName volName);
  mret volName.

(** *** Commands run on the first node with the driver *)

Definition on_first_node (cmd : string) (h : error → error) : M W string :=
  nodes ← registry_GetStorageDriverNodes;
  n ← lift (index nodes 0);
  wrap_err h (RunCommandWithNoRetry n cmd (conn_opts crashDriverTimeout defaultRetryInterval)).

Definition constructSnapshotName (volumeName : string) : string := volumeName +:+ "-snapshot".

Definition pxctlVolumeUpdate : string := "pxctl volume update ".

Definition ValidateCreateSnapshotUsingPxctl (volumeName : string) : M W string :=
  let volName := constructSnapshotName volumeName in
  _ ← on_first_node ("pxctl volume snapshot create " +:+ volumeName +:+ " --name " +:+ volName)
        (λ err, Errorf ("failed to create local snapshot using PXCTL, Err: " +:+ Error err));
  mret volName.

Definition UpdateIOPriority (volumeName priorityType : string) : M W unit :=
  _ ← on_first_node (pxctlVolumeUpdate +:+ " --io_priority " +:+ priorityType +:+ "  " +:+ volumeName)
        (λ err, Errorf ("failed setting IO priority, Err: " +:+ Error err));
  mret tt.

Definition UpdateStickyFlag (volumeName stickyOption : string) : M W unit :=
  _ ← on_first_node (pxctlVolumeUpdate +:+ " " +:+ volumeName +:+ " --sticky " +:+ stickyOption)
        (λ err, Errorf ("failed setting sticky option to " +:+ stickyOption +:+ " for volume " +:+
           volumeName +:+ ", Err: " +:+ Error err));
  mret tt.

Definition ValidateCreateCloudsnapUsingPxctl (volumeName : string) : M W unit :=
  _ ← on_first_node ("pxctl cloudsnap backup " +:+ volumeName)
        (λ err, Errorf ("failed to create cloudsnap using PXCTL, Err: " +:+ Error err));
  mret tt.

Definition ValidateVolumeInPxctlList (volumeName : string) : M W unit :=
  out ← on_first_node "pxctl volume list "
          (λ err, Errorf ("failed to list volumes using PXCTL, Err: " +:+ Error err));
  if Contains out volumeName then mret tt
  else throw (Errorf ("volume name [" +:+ volumeName +:+ "] is not present in PXCTL volume list")).

(** ** Rebalance and resize of pools *)

Fixpoint rebalance_jobs_done (jobs : list (string * RebalanceJobState)) : task_result unit :=
  match jobs with
  | [] => Done tt
  | (id, st) :: jobs' =>
      if decide (st = REBALANCE_DONE) then rebalance_jobs_done jobs'
      else Retry (Errorf ("rebalance job is not done. Job ID: " +:+ id +:+ ", State: " +:+
             RebalanceJobState_String st))
  end.

Definition ValidateRebalanceJobs : M W unit :=
  DoRetryWithTimeout
    (attempt pool_EnumerateRebalanceJobs (λ r,
      match r with
      | inr err => mret (Retry err)
      | inl jobs => mret (rebalance_jobs_done jobs)
      end)) validateRebalanceJobsTimeout validateRebalanceJobsInterval.

(** [e] is the number of the resize operation type. *)
Definition ResizeStoragePoolByPercentage (poolUUID : string) (e percentage : Z) : M W unit :=
  DoRetryWithTimeout
    (attempt (pool_ResizeByPercentage poolUUID e percentage) (λ r,
      match r with
      | inr err => mret (Retry err)
      | inl _ => mret (Done tt)
      end)) validateRebalanceJobsTimeout validateRebalanceJobsInterval.
End volumes.

(** ** Properties *)

Section volume_theorems.
Context {W : Type} `{PxWorldLaws W} `{NodeDriver W} `{SchedOps W} `{K8sCore W} `{PxSdk W}.
Context `{VolumeSdk W} `{VolumeEnv W}.

(** *** Replication *)

(** A volume at replication [replFactor]: every replica set has that many
    nodes, and every runtime state is clean. *)
Definition replicated (vol : ApiVolume) (replFactor : Z) : Prop :=
  (∀ rs, rs ∈ ReplicaSets vol → Z.of_nat (length (Nodes rs)) = replFactor) ∧
  (∀ st, st ∈ RuntimeState vol → st !! "RuntimeState" = Some "clean").

Lemma replication_done_spec vol k : replication_done vol k = true ↔ replicated vol k.
Proof.
  unfold replication_done, areRepSetsFinal, isClean, replicated.
  rewrite andb_true_iff, !forallb_forall. setoid_rewrite bool_decide_eq_true.
  setoid_rewrite <- list_elem_of_In. split; intros [Hr Hs]; split; [done| |done|].
  - intros st Hst. specialize (Hs st Hst). by destruct (st !! "RuntimeState"); simplify_eq/=.
  - intros st Hst. by rewrite (Hs st Hst).
Qed.

Lemma replication_loop_Ok fuel name k d resp w last w' :
  replication_loop fuel name k d resp w = (Ok last, w') →
  (∃ w1 w2, vol_Inspect name w1 = (Ok resp, w2)) →
  ∃ w1 w2, vol_Inspect name w1 = (Ok last, w2).
Proof.
  revert resp w. induction fuel as [|fuel IH]; intros resp w Hl Hin; [done|].
  simpl in Hl. destruct resp as [v|]; [|done].
  destruct (replication_done v k); [by simplify_eq|]. case_decide; [by simplify_eq|].
  apply bind_Ok_inv in Hl as (resp' & w1 & Hi & Hl). apply bind_Ok_inv in Hl as ([] & w2 & _ & Hl).
  eauto.
Qed.

(** When [WaitForReplicationToComplete] returns without error, an
    inspection of the volume showed every replica set with the requested number
    of nodes and every runtime state clean. *)
Theorem WaitForReplicationToComplete_success vol k timeout w w' :
  WaitForReplicationToComplete vol k timeout w = (Ok tt, w') →
  ∃ w1 v w2, vol_Inspect (GetVolumeName vol) w1 = (Ok (Some v), w2) ∧ replicated v k.
Proof.
  intros Hw. apply bind_Ok_inv in Hw as ([] & w1 & _ & Hw).
  apply bind_Ok_inv in Hw as (resp & w2 & Hi & Hw).
  apply bind_Ok_inv in Hw as (last & w3 & Hl & Hw).
  destruct last as [v|]; [|done]. unfold deref, lift, mbind, M_bind in Hw.
  destruct (replication_done v k) eqn:Hd; [|done]. rewrite replication_done_spec in Hd.
  apply replication_loop_Ok in Hl as (? & ? & ?); eauto.
Qed.

(** Inspections answer, with a volume or an error, and take time forwards. *)
Definition inspect_answers (name : string) : Prop :=
  ∀ w, ∃ o w', vol_Inspect name w = (o, w') ∧ now w <= now w' ∧
    ((∃ v, o = Ok (Some v)) ∨ ∃ e, o = Err e).

Lemma replication_loop_total fuel name k d v w :
  inspect_answers name → d - now w <= (Z.of_nat fuel - 1) * defaultRetryInterval → (0 < fuel)%nat →
  ∃ o w', replication_loop fuel name k d (Some v) w = (o, w') ∧
    ((∃ v', o = Ok (Some v')) ∨ ∃ e, o = Err e).
Proof.
  intros Hin. revert v w. induction fuel as [|fuel IH]; intros v w Hd Hf; [lia|]. simpl.
  destruct (replication_done v k); [by eauto 6|]. case_decide as Hdl; [by eauto 6|].
  unfold mbind, M_bind, pause.
  destruct (Hin w) as (o & w1 & -> & Hle & [[v' ->]|[e ->]]); [|by eauto 6].
  pose proof (now_sleep defaultRetryInterval w1). apply IH; unfold defaultRetryInterval, Second in *; nia.
Qed.

(** C32. [WaitForReplicationToComplete] terminates: when the inspections of the
    volume answer, it returns, with success or with an error, whatever the
    volume's state does in the meantime. *)
Theorem WaitForReplicationToComplete_terminates vol k timeout w :
  inspect_answers (GetVolumeName vol) → (∃ w1, refresh_client w = (Ok tt, w1)) →
  ∃ o w', WaitForReplicationToComplete vol k timeout w = (o, w') ∧
    (o = Ok tt ∨ ∃ e, o = Err e).
Proof.
  intros Hin [w1 Hr]. unfold WaitForReplicationToComplete. rewrite (bind_Ok _ _ _ _ _ Hr).
  destruct (Hin w1) as (o & w2 & Hi & _ & [[v ->]|[e ->]]).
  2:{ rewrite (bind_Err _ _ _ _ _ Hi). eauto 6. }
  rewrite (bind_Ok _ _ _ _ _ Hi).
  destruct (replication_loop_total (retry_fuel timeout defaultRetryInterval) (GetVolumeName vol) k
    (now w2 + timeout) v w2) as (o & w3 & Hl & Ho); [done| |unfold retry_fuel; lia|].
  { unfold retry_fuel, defaultRetryInterval, Second.
    pose proof (Z.mod_pos_bound timeout (10 * 1000000000) ltac:(lia)).
    pose proof (Z.div_mod timeout (10 * 1000000000) ltac:(lia)). lia. }
  destruct Ho as [[v' ->]|[e ->]].
  - erewrite bind_Ok by exact Hl. unfold lift, mbind, M_bind; simpl.
    destruct (replication_done v' k); eauto 6.
  - erewrite bind_Err by exact Hl. eauto 6.
Qed.

(** *** Attachment *)

(** The volume is attached under one of the names of the node. *)
Definition attached_under (volume : ApiVolume) (n : Node) (sn : StorageNode) : Prop :=
  AttachedOn volume = MgmtIp sn ∨ AttachedOn volume = DataIp sn ∨ AttachedOn volume ∈ Addresses n.

(** [IsVolumeAttachedOnNode] answers true exactly when the volume's
    attachment is the driver id of the node, one of the two addresses the
    cluster knows it by, or one of its own addresses; the cluster is asked only
    when the driver id does not decide, and only its error makes it fail. *)
Theorem IsVolumeAttachedOnNode_spec volume n w :
  IsVolumeAttachedOnNode volume n w =
    if decide (AttachedOn volume = VolDriverNodeID n) then (Ok true, w)
    else match node_Inspect (VolDriverNodeID n) w with
         | (Ok sn, w') => (Ok (bool_decide (attached_under volume n sn)), w')
         | (Err e, w') => (Err e, w')
         | (Panic s, w') => (Panic s, w')
         | (Diverge, w') => (Diverge, w')
         end.
Proof.
  unfold IsVolumeAttachedOnNode, attached_under. case_decide as Hid; case_decide; try congruence; [done|].
  unfold mbind, M_bind, mret, M_ret.
  destruct (node_Inspect _ w) as [[sn|e|s|] w1]; [|done..].
  case_decide; [by rewrite bool_decide_eq_true_2 by auto|].
  case_decide; [by rewrite bool_decide_eq_true_2 by auto|].
  do 2 f_equal. apply eq_true_iff_eq. rewrite existsb_exists, bool_decide_eq_true. split.
  - intros (ip & Hip%list_elem_of_In & ->%bool_decide_eq_true). auto.
  - intros [Hm|[Hd|Ha]]; [congruence..|]. exists (AttachedOn volume).
    by rewrite <- list_elem_of_In, bool_decide_eq_true.
Qed.

(** *** ValidateCreateVolume *)

(** The profiles Portworx may derive from a requested one: the profile itself; for auto,
    and for the retired db and sequential, db_remote or none; for auto_journal, journal or
    none; and anything for db_remote with less than two replicas. *)
Definition may_derive (requested derived : IoProfile) (haLevel : Z) : Prop :=
  derived = requested ∨
  (requested ∈ [IO_PROFILE_AUTO; IO_PROFILE_DB; IO_PROFILE_SEQUENTIAL] ∧ derived ∈ [IO_PROFILE_DB_REMOTE; IO_PROFILE_NONE]) ∨
  (requested = IO_PROFILE_AUTO_JOURNAL ∧ derived ∈ [IO_PROFILE_JOURNAL; IO_PROFILE_NONE]) ∨
  (requested = IO_PROFILE_DB_REMOTE ∧ haLevel < 2).

Lemma io_profile_ok_derive requested derived haLevel :
  io_profile_ok requested derived haLevel = true → may_derive requested derived haLevel.
Proof.
  unfold io_profile_ok, may_derive. case_decide as Heq; [by left|]. intros Hok. right.
  destruct requested; try done;
    try (left; split; [repeat constructor|]; rewrite negb_true_iff, andb_false_iff, !negb_false_iff, !bool_decide_eq_true in Hok; set_solver);
    try (right; left; split; [done|]; rewrite negb_true_iff, andb_false_iff, !negb_false_iff, !bool_decide_eq_true in Hok; set_solver).
  right. right. split; [done|]. apply negb_true_iff, bool_decide_eq_false in Hok. lia.
Qed.

(** The contract: what the parameters of a storage class promise about the
    volume [name] made from them. *)
Definition keeps_request (name : string) (params : gmap string string) (vol : ApiVolume) (req : VolumeSpec)
    (labels : gmap string string) : Prop :=
  let spec := Vol_Spec vol in
  let has k := is_Some (params !! k) in
  (∀ v, params !! "nodes" = Some v → ∃ rs, Spec_ReplicaSet spec = Some rs ∧ v = Join (Nodes rs) ",") ∧
  (∀ v, params !! "parent" = Some v → Source_Parent vol = Some v) ∧
  (has "ephemeral" → Ephemeral req = Ephemeral spec) ∧
  (has "fs" → Spec_Format req = Spec_Format spec) ∧
  (has "block_size" → BlockSize req = BlockSize spec) ∧
  (has "repl" → HaLevel req = HaLevel spec) ∧
  (has "snap_interval" → SnapshotInterval req = SnapshotInterval spec) ∧
  (has "aggregation_level" → AggregationLevel req = AggregationLevel spec) ∧
  (has "sticky" → Sticky req = Sticky spec) ∧
  (has "fg" → GroupEnforced req = GroupEnforced spec) ∧
  (params !! "backupGroupCheckSkip" = None → has "group" → Spec_Group req = Spec_Group spec) ∧
  (params !! "backupGroupCheckSkip" = None → has "labels" →
     ∀ k v, labels !! k = Some v → hasIgnorePrefix k = false →
       k ≠ "pvc" ∧ VolumeLabels vol !! k = Some v) ∧
  (has "io_profile" → may_derive (Spec_IoProfile req) (DerivedIoProfile vol) (HaLevel spec)) ∧
  (has "size" → ∃ w1 capacity w2, GetPersistentVolume name w1 = (Ok capacity, w2) ∧ Spec_Size spec = u64 capacity).

Lemma expect_Ok {A} `{EqDecision A} name k (shown : A → spec_value) x y w w' :
  expect name k shown x y w = (Ok tt, w') → x = y.
Proof. unfold expect. by case_decide. Qed.

Lemma check_params_Ok (check : string → string → M W unit) l w w' :
  check_params check l w = (Ok tt, w') →
  ∀ k v, (k, v) ∈ l → ∃ w1 w2, check k v w1 = (Ok tt, w2).
Proof.
  revert w. induction l as [|[k v] l IH]; intros w Hc k' v' Hin; [by apply elem_of_nil in Hin|].
  apply bind_Ok_inv in Hc as ([] & w1 & Hk & Hc).
  apply elem_of_cons in Hin as [[= -> ->]|Hin]; [eauto|]. by eapply IH.
Qed.

Lemma labels_included_spec requested actual :
  labels_included requested actual = true ↔ requested ⊆ actual.
Proof.
  unfold labels_included. rewrite forallb_forall, map_subseteq_spec. split.
  - intros Hf k v Hk. specialize (Hf (k, v)). rewrite bool_decide_eq_true in Hf. apply Hf.
    by apply list_elem_of_In, elem_of_map_to_list.
  - intros Hs [k v] Hin%list_elem_of_In%elem_of_map_to_list. apply bool_decide_eq_true. by apply Hs.
Qed.

(** A check that passed, by key *)
Ltac checked Hall k :=
  intros [v Hv]; destruct (Hall k v Hv) as (?w & ?w & Hc); unfold check_param in Hc; simpl in Hc;
  by apply expect_Ok in Hc.

Lemma checks_keep_request params name vol req labels :
  (∀ k v, params !! k = Some v → ∃ w1 w2,
     check_param name vol req (deleteLabelsFromRequestedSpec labels) (delete "pvc" (VolumeLabels vol))
       (negb (bool_decide (is_Some (params !! "backupGroupCheckSkip")))) k v w1 = (Ok tt, w2)) →
  keeps_request name params vol req labels.
Proof.
  intros Hall. unfold keeps_request. split_and!.
  - intros v Hv. destruct (Hall _ _ Hv) as (w1 & w2 & Hc). unfold check_param in Hc. simpl in Hc.
    apply bind_Ok_inv in Hc as (rs & w3 & Hd & Hc). unfold lift, deref in Hd.
    destruct (Spec_ReplicaSet _); simplify_eq. case_decide; [|done]. eauto.
  - intros v Hv. destruct (Hall _ _ Hv) as (w1 & w2 & Hc). unfold check_param in Hc. simpl in Hc.
    apply bind_Ok_inv in Hc as (p & w3 & Hd & Hc). unfold lift, deref in Hd.
    destruct (Source_Parent _); simplify_eq. by apply expect_Ok in Hc as ->.
  - checked Hall "ephemeral".
  - checked Hall "fs".
  - checked Hall "block_size".
  - checked Hall "repl".
  - checked Hall "snap_interval".
  - checked Hall "aggregation_level".
  - checked Hall "sticky".
  - checked Hall "fg".
  - intros Hskip [v Hv]. destruct (Hall _ _ Hv) as (w1 & w2 & Hc).
    rewrite bool_decide_eq_false_2 in Hc by (rewrite Hskip; by intros [??]).
    unfold check_param in Hc. simpl in Hc. by apply expect_Ok in Hc.
  - intros Hskip [v Hv] k lv Hk Hign. destruct (Hall _ _ Hv) as (w1 & w2 & Hc).
    rewrite bool_decide_eq_false_2 in Hc by (rewrite Hskip; by intros [??]).
    unfold check_param in Hc. simpl in Hc.
    destruct (labels_included _ _) eqn:Hl; [|done]. rewrite labels_included_spec in Hl.
    assert (delete "pvc" (VolumeLabels vol) !! k = Some lv) as Hlk.
    { eapply lookup_weaken; [|exact Hl]. apply map_lookup_filter_Some. done. }
    by apply lookup_delete_Some in Hlk as [? ?].
  - intros [v Hv]. destruct (Hall _ _ Hv) as (w1 & w2 & Hc). unfold check_param in Hc. simpl in Hc.
    destruct (io_profile_ok _ _ _) eqn:Hio; [|done]. by apply io_profile_ok_derive.
  - intros [v Hv]. destruct (Hall _ _ Hv) as (w1 & w2 & Hc). unfold check_param in Hc. simpl in Hc.
    apply bind_Ok_inv in Hc as (capacity & w3 & Hg%wrap_err_Ok_inv & Hc). case_decide; [|done]. eauto.
Qed.

(** Where the volume is: a Pure block device that is attached has a path of the device
    mapper, at once or in a later inspection; the topology was validated when one was
    asked for; and every replica node could be inspected. *)
Definition well_placed (tok name : string) (params : gmap string string) (vol : ApiVolume) : Prop :=
  let proxy := Proxy_Protocol <$> Spec_ProxySpec (Vol_Spec vol) in
  (proxy = Some PROXY_PROTOCOL_PURE_BLOCK → Vol_State vol = VOLUME_STATE_ATTACHED →
     ∃ w1 v w2, vol_InspectAs tok name w1 = (Ok (Some v), w2) ∧ Contains (DevicePath v) DeviceMapper = true) ∧
  (is_Some (params !! TopologyZoneK8sNodeLabel) → is_Some proxy → proxy ≠ Some PROXY_PROTOCOL_PURE_FILE →
     ∃ w1 w2, ValidateVolumeTopology vol params w1 = (Ok tt, w2)) ∧
  (∀ n, n ∈ concat (Nodes <$> ReplicaSets vol) → ∃ w1 sn w2, node_InspectAs tok n w1 = (Ok sn, w2)).

Lemma inspect_replica_nodes_Ok tok name ids w w' n :
  inspect_replica_nodes tok name ids w = (Ok tt, w') → n ∈ ids → ∃ w1 sn w2, node_InspectAs tok n w1 = (Ok sn, w2).
Proof.
  revert w. induction ids as [|id ids IH]; intros w Hi Hn; [by apply elem_of_nil in Hn|].
  apply bind_Ok_inv in Hi as ([] & w1 & _ & Hi). apply bind_Ok_inv in Hi as (sn & w2 & Hs%wrap_err_Ok_inv & Hi).
  apply elem_of_cons in Hn as [->|Hn]; [by exists w1, sn, w2|by eapply IH].
Qed.

Lemma device_path_Done tok name w w' :
  device_path_task tok name w = (Ok (Done tt), w') →
  ∃ v, vol_InspectAs tok name w = (Ok (Some v), w') ∧ Contains (DevicePath v) DeviceMapper = true.
Proof.
  unfold device_path_task, attempt. destruct (vol_InspectAs tok name w) as [[[v|]|e|s|] w1]; [|done..].
  unfold lift, deref, mbind, M_bind, mret, M_ret. destruct (Contains _ _) eqn:Hc; [|done]. intros ?. simplify_eq. eauto.
Qed.

Lemma volume_usable_Done tok name w vol w' :
  volume_usable_task tok name w = (Ok (Done vol), w') →
  vol_InspectAs tok name w = (Ok (Some vol), w') ∧ Vol_Status vol = VOLUME_STATUS_UP ∧
  Vol_State vol ≠ VOLUME_STATE_ERROR ∧ Vol_State vol ≠ VOLUME_STATE_DELETED ∧
  (Vol_State vol = VOLUME_STATE_ATTACHED → AttachedState vol = ATTACH_STATE_EXTERNAL →
   DevicePath vol ≠ "").
Proof.
  unfold volume_usable_task, attempt.
  destruct (vol_InspectAs tok name w) as [[[v|]|e|s|] w1]; [|done..].
  unfold lift, deref, mbind, M_bind, mret, M_ret.
  repeat (case_decide; [done|]). intros Hd. simplify_eq.
  destruct (decide (Vol_Status vol = VOLUME_STATUS_UP)); [|tauto]. naive_solver.
Qed.

Lemma has_parent_kinds vol : IsSnapshot vol || IsClone vol = has_parent vol.
Proof. unfold IsSnapshot, IsClone. by destruct (has_parent vol), (Vol_Readonly vol). Qed.


(** *** Clean-up and deletion *)

(** The volume was unmounted from each of its paths, detached and deleted. *)
Definition removed (vol : ApiVolume) : Prop :=
  (∀ path, path ∈ AttachPath vol → ∃ w1 w2, mount_Unmount (Vol_Id vol) path w1 = (Ok tt, w2)) ∧
  (∃ w1 w2, mount_Detach (Vol_Id vol) w1 = (Ok tt, w2)) ∧
  (∃ w1 w2, vol_Delete (Vol_Id vol) w1 = (Ok tt, w2)).

Lemma remove_volume_Ok vol w w' : remove_volume vol w = (Ok tt, w') → removed vol.
Proof.
  intros Hr. apply bind_Ok_inv in Hr as ([] & w1 & Hu & Hr).
  apply bind_Ok_inv in Hr as ([] & w2 & Hd%wrap_err_Ok_inv & Hr%wrap_err_Ok_inv).
  split; [|split; eauto]. revert w Hu. induction (AttachPath vol) as [|p ps IH]; intros w Hu path Hin;
    [by apply elem_of_nil in Hin|].
  apply bind_Ok_inv in Hu as ([] & w3 & _ & Hu).
  apply bind_Ok_inv in Hu as ([] & w4 & Hp%wrap_err_Ok_inv & Hu).
  apply elem_of_cons in Hin as [->|Hin]; eauto.
Qed.

(** When [CleanupVolume] returns without error, the volumes of the cluster
    were enumerated and inspected in turn, and either none of them has the
    name, or the first that has it was unmounted from every path, detached and
    deleted, and no later one was looked at. *)
Theorem CleanupVolume_success volumeName w w' :
  CleanupVolume volumeName w = (Ok tt, w') →
  ∃ ids w1 w2, vol_Enumerate w1 = (Ok ids, w2) ∧
  ∃ seen rest, ids = seen ++ rest ∧
    (∀ id, id ∈ seen → ∃ w3 v w4, vol_Inspect id w3 = (Ok (Some v), w4) ∧
       Locator_Name v ≠ volumeName) ∧
    (rest = [] ∨ ∃ id rest' w3 v w4, rest = id :: rest' ∧ vol_Inspect id w3 = (Ok (Some v), w4) ∧
       Locator_Name v = volumeName ∧ removed v).
Proof.
  intros Hc. apply bind_Ok_inv in Hc as ([] & w1 & _ & Hc).
  apply bind_Ok_inv in Hc as (ids & w2 & He & Hc). exists ids, w1, w2. split; [done|].
  clear He. revert w2 Hc. induction ids as [|id ids IH]; intros w2 Hc.
  { exists [], []. split; [done|]. split; [by intros ? ?%elem_of_nil|by left]. }
  apply bind_Ok_inv in Hc as (resp & w3 & Hi & Hc). apply bind_Ok_inv in Hc as (v & w4 & Hd & Hc).
  unfold lift, deref in Hd. destruct resp as [v'|]; simplify_eq. case_decide as Hn.
  - exists [], (id :: ids). split; [done|]. split; [by intros ? ?%elem_of_nil|].
    right. exists id, ids, w2, v, w4. apply remove_volume_Ok in Hc. done.
  - destruct (IH _ Hc) as (seen & rest & -> & Hs & Hr). exists (id :: seen), rest.
    split; [done|]. split; [|done]. intros id' [->|Hin]%elem_of_cons; [by eauto 6|by apply Hs].
Qed.

(** When [ValidateDeleteVolume] returns without error, the cluster
    answered that the volume is not found, or answered without a volume - or
    the volume is a shared one, for which any answer passes. *)
Theorem ValidateDeleteVolume_success vol w w' :
  ValidateDeleteVolume vol w = (Ok tt, w') →
  ∃ w1, let '(o, w2) := (refresh_client ≫= λ _, vol_Inspect (ID vol)) w1 in
    w2 = w' ∧ match o with
    | Ok None => True
    | Ok (Some _) => Shared vol = true
    | Err e => errIsNotFound e = true
    | _ => False
    end.
Proof.
  intros Hd%wrap_err_Ok_inv. apply DoRetryWithTimeout_Ok_inv in Hd as [w1 Hd]. exists w1.
  unfold attempt in Hd.
  destruct ((refresh_client ≫= λ _, vol_Inspect (ID vol)) w1) as [[resp|e|s|] w2] eqn:E; [| |done..].
  - case_decide as Hs; [done|]. unfold mret, M_ret in Hd. simplify_eq.
    destruct resp; [|done]. split; [done|]. destruct (Shared vol); [done|]. destruct Hs; eauto.
  - destruct (errIsNotFound e) eqn:Hn; [|done]. unfold mret, M_ret in Hd. by simplify_eq.
Qed.

Lemma rebalance_jobs_done_spec jobs :
  rebalance_jobs_done jobs = Done tt ↔ Forall (λ j, j.2 = REBALANCE_DONE) jobs.
Proof.
  induction jobs as [|[id st] jobs IH]; simpl; [done|]. rewrite Forall_cons. simpl.
  case_decide; [tauto|]. split; [done|tauto].
Qed.

(** When [ValidateRebalanceJobs] returns without error, every rebalance job
    of the last enumeration was done. *)
Theorem ValidateRebalanceJobs_success w w' :
  ValidateRebalanceJobs w = (Ok tt, w') →
  ∃ w1 jobs, pool_EnumerateRebalanceJobs w1 = (Ok jobs, w') ∧
    Forall (λ j, j.2 = REBALANCE_DONE) jobs.
Proof.
  intros Hd. apply DoRetryWithTimeout_Ok_inv in Hd as [w1 Hd]. unfold attempt in Hd.
  destruct (pool_EnumerateRebalanceJobs w1) as [[jobs|e|s|] w2] eqn:E; [|done..].
  unfold mret, M_ret in Hd. exists w1, jobs. rewrite <- rebalance_jobs_done_spec. naive_solver.
Qed.

(** *** GetNodeForVolume *)

Lemma attached_node_Some vol nodes w n w' :
  attached_node vol nodes w = (Ok (Some n), w') →
  n ∈ nodes ∧ ∃ w1, IsVolumeAttachedOnNode vol n w1 = (Ok true, w').
Proof.
  revert w. induction nodes as [|m nodes IH]; intros w Ha; [done|].
  apply bind_Ok_inv in Ha as ([] & w1 & Hm & Ha).
  - unfold mret, M_ret in Ha. simplify_eq. split; [by left|eauto].
  - apply IH in Ha as [? ?]. split; [by right|done].
Qed.

Lemma registry_drivers_Ok w l w' :
  registry_GetStorageDriverNodes w = (Ok l, w') →
  ∀ n, n ∈ l → IsStorageDriverInstalled n = true ∧ ∃ u, nodeRegistry (px w) !! u = Some n.
Proof.
  intros Hr n Hn. apply bind_Ok_inv in Hr as (all & w1 & Hall & Hr).
  unfold mret, M_ret in Hr. simplify_eq. apply elem_of_keep in Hn as [Hn Hi]. split; [done|].
  destruct (range_nodes_spec w) as (l' & w2 & Hl & Hp & _). rewrite Hl in Hall. simplify_eq.
  rewrite Hp, list_elem_of_fmap in Hn. destruct Hn as ([u n'] & -> & Hu%elem_of_map_to_list). eauto.
Qed.

Lemma node_for_volume_Done vol name w n w' :
  node_for_volume_task vol name w = (Ok (Done (Some n)), w') →
  IsStorageDriverInstalled n = true ∧
  ∃ w1 w2 u v, nodeRegistry (px w1) !! u = Some n ∧ IsVolumeAttachedOnNode v n w2 = (Ok true, w').
Proof.
  unfold node_for_volume_task. unfold attempt at 1.
  destruct ((refresh_client ≫= λ _, vol_Inspect name) w) as [[resp|e|s|] w1]; [|done..].
  unfold attempt at 1. destruct (IsPureFileVolume vol w1) as [[[]|e|s|] w2]; [done| |done..].
  intros Hd. apply bind_Ok_inv in Hd as (nodes & w3 & Hn & Hd).
  unfold attempt at 1 in Hd. destruct nodes as [|m nodes].
  { cbn in Hd. destruct resp as [v|]; [|done]. unfold mbind, M_bind, lift in Hd. simpl in Hd.
    destruct (Source_Parent v); simpl in Hd; [|done]. by case_decide. }
  destruct resp as [v|]; [|done]. change ((lift (deref (Some v)) ≫= λ pxVol, attached_node pxVol (m :: nodes)) w3)
    with (attached_node v (m :: nodes) w3) in Hd.
  destruct (attached_node v (m :: nodes) w3) as [[[n'|]|e|s|] w4] eqn:Ha; [| |done..].
  - unfold mret, M_ret in Hd. simplify_eq. apply attached_node_Some in Ha as [Hin [w5 Hat]].
    destruct (registry_drivers_Ok _ _ _ Hn _ Hin) as [? [u ?]]. eauto 8.
  - apply bind_Ok_inv in Hd as (v' & w5 & Hv & Hd). apply bind_Ok_inv in Hd as (p & w6 & Hp & Hd).
    by case_decide.
Qed.

(** [GetNodeForVolume] leaves the driver with its normal endpoint handling
    whether it succeeds or fails, and a node it returns is a registered node
    with the driver installed on which the volume was seen attached. *)
Theorem GetNodeForVolume_result vol timeout interval w o w' :
  GetNodeForVolume vol timeout interval w = (o, w') →
  match o with
  | Ok (Some n) => refreshEndpoint (px w') = false ∧ IsStorageDriverInstalled n = true ∧
      ∃ w1 w2 w3 u v, nodeRegistry (px w1) !! u = Some n ∧
        IsVolumeAttachedOnNode v n w2 = (Ok true, w3)
  | Ok None | Err _ => refreshEndpoint (px w') = false
  | _ => True
  end.
Proof.
  unfold GetNodeForVolume, set_refreshEndpoint, modify_px, mbind, M_bind, mret, M_ret, throw, attempt.
  destruct (DoRetryWithTimeout _ _ _ _) as [[r|e|s|] w1] eqn:E; intros Hg; simplify_eq; try done.
  - destruct r as [n|]; simplify_eq/=; rewrite px_set_px; [|done].
    apply DoRetryWithTimeout_Ok_inv in E as (w0 & (? & ? & ? & ? & ? & ? & ?)%node_for_volume_Done).
    split_and!; [done..|]. eauto 8.
  - simplify_eq/=. by rewrite px_set_px.
Qed.
End volume_theorems.
