(* ===== verification/PureDevices.v ===== *)
(** drivers/volume/portworx/portworx.go: the multipath devices of Pure volumes
    on the nodes - reading [dmsetup] and [lsblk], the baseline taken at start,
    and the validation that no device is missing and none is left over. *)

From Stdlib Require Import Ascii.
From S2P Require Import Prelude GoStrings Errors Effects Float64 Strconv Task OpenStorageApi NodeRegistry PxDriver PxNodeOps PxVolume.

Definition PureVolumeOUI : string := "24a937".

(** [pureLocalPathEntry] *)
Record pureLocalPathEntry := {
  WWID : string;
  SinglePaths : list string;
  Entry_Size : Z;
}.

Notation devices := (gmap string pureLocalPathEntry) (only parsing).

(** The slice [s[lo:hi]] of a string *)
Definition slice (s : string) (lo hi : nat) : outcome string :=
  if decide (hi <= String.length s)%nat then Ok (String.substring lo (hi - lo) s)
  else Panic "slice bounds out of range".

Definition GetSerialFromWWID (wwid : string) : outcome string :=
  if negb (Contains wwid PureVolumeOUI)
  then Err (Errorf ("not a Pure Storage multipath WWID '" +:+ wwid +:+ "'"))
  else if HasPrefix wwid "eui."
  then a ← slice wwid 6 20; b ← slice wwid 26 36; Ok (ToLower (a +:+ b))
  else Ok (TrimPrefix (ToLower wwid) ("36" +:+ PureVolumeOUI +:+ "0")).

(** *** parseLsblkOutput *)

(** The variables of the loop *)
Record lsblk_state := { foundDevices : devices; currentEntry : option pureLocalPathEntry }.

(** [if currentEntry != nil { foundDevices[currentEntry.WWID] = *currentEntry }] *)
Definition finish (st : lsblk_state) : devices :=
  match currentEntry st with
  | Some e => <[WWID e := e]> (foundDevices st)
  | None => foundDevices st
  end.

Definition add_single_path (e : pureLocalPathEntry) (path : string) : pureLocalPathEntry :=
  {| WWID := WWID e; SinglePaths := SinglePaths e ++ [path]; Entry_Size := Entry_Size e |}.

Definition lsblk_line (st : lsblk_state) (l : string) : outcome lsblk_state :=
  let line := TrimSpace l in
  if decide (line = "") then Ok st
  else if Contains line "p" && negb (Contains line "sd") then Ok st
  else if Contains line PureVolumeOUI then
    let found := finish st in
    let parts := Fields line in
    name ← index parts 0;
    let wwid := remove_char "`" (remove_char "-" name) in
    sizeStr ← index parts 1;
    match ParseUint sizeStr with
    | Ok size => Ok {| foundDevices := found;
                       currentEntry := Some {| WWID := wwid; SinglePaths := []; Entry_Size := size |} |}
    | Err err => Err (Errorf ("failed to parse size '" +:+ sizeStr +:+ "' from lsblk output, Err: " +:+
                   Error err))
    | Panic s => Panic s
    | Diverge => Diverge
    end
  else match currentEntry st with
  | Some e =>
      if HasPrefix line "|-" || HasPrefix line "`-" then
        path ← index (Fields (String.substring 2 (String.length line - 2) line)) 0;
        Ok {| foundDevices := foundDevices st; currentEntry := Some (add_single_path e path) |}
      else Ok {| foundDevices := finish st; currentEntry := None |}
  | None => Ok st
  end.

Fixpoint lsblk_lines (st : lsblk_state) (ls : list string) : outcome lsblk_state :=
  match ls with
  | [] => Ok st
  | l :: ls' => st' ← lsblk_line st l; lsblk_lines st' ls'
  end.

Definition parseLsblkOutput (out : string) : outcome devices :=
  st ← lsblk_lines {| foundDevices := ∅; currentEntry := None |} (Split out newline);
  Ok (finish st).

(** *** dmsetup *)

Definition tab : ascii := ascii_of_nat 9.

(** The mapper name of a line, unless the line is not a Pure device or is a
    partition *)
Definition dmsetup_mapper (line : string) : option string :=
  if negb (Contains line PureVolumeOUI) then None
  else
    let mapperName := default "" (Split line tab !! 0%nat) in
    if Contains mapperName PureVolumeOUI &&
       (Nat.ltb 34 (String.length mapperName) || Contains line "p")
    then None else Some mapperName.

Definition dmsetup_mappers (out : string) : list string := omap dmsetup_mapper (Split out newline).

(** *** Collecting and validating *)

(** Go's choice of an order for an iteration over a map *)
Class MapOrder (W : Type) := {
  range_map : ∀ V, gmap string V → M W (list (string * V));
}.
Arguments range_map {W _} V m.

Class MapOrderLaws (W : Type) `{MapOrder W} : Prop := {
  range_map_spec : ∀ V (m : gmap string V) w, ∃ l w', range_map V m w = (Ok l, w') ∧ l ≡ₚ map_to_list m;
}.

Section pure.
Context {W : Type} `{PxWorld W} `{NodeDriver W} `{SchedOps W} `{K8sCore W} `{PxSdk W}.
Context `{VolumeSdk W} `{VolumeEnv W} `{MapOrder W}.

Definition crash_opts : ConnectionOpts := conn_opts crashDriverTimeout defaultRetryInterval.

(** The management IP is read through the embedded storage node. *)
Definition mgmt_ip (n : Node) : outcome string :=
  sn ← deref (storageNode n); Ok (MgmtIp sn).

(** An error whose message shows the management IP *)
Definition throw_ip {A} (n : Node) (msg : string → string) : M W A :=
  ip ← lift (mgmt_ip n); throw (Errorf (msg ip)).

(** The last loop of [collectLocalNodeInfo] *)
Fixpoint check_mappers (n : Node) (parsed : devices) (mappers : list string) : M W unit :=
  match mappers with
  | [] => mret tt
  | mapper :: mappers' =>
      match parsed !! mapper with
      | None => throw_ip n (λ ip, "found mapper " +:+ mapper +:+ " in dmsetup but not lsblk on node " +:+
          ip +:+ ", inconsistent disk state (we didn't clean something up right?)")
      | Some e =>
          if decide (length (SinglePaths e) = 0%nat)
          then throw_ip n (λ ip, "found mapper " +:+ mapper +:+ " with no single paths on node " +:+ ip +:+
                 ", this should not happen (we didn't clean something up right?)")
          else check_mappers n parsed mappers'
      end
  end.

Definition collectLocalNodeInfo (n : Node) : M W devices :=
  attempt (RunCommandWithNoRetry n "dmsetup ls" crash_opts) (λ r,
    match r with
    | inr err => throw_ip n (λ ip, "failed to check dmsetup ls output on node " +:+ ip +:+ ", Err: " +:+
                   Error err)
    | inl out =>
        let mappers := dmsetup_mappers out in
        attempt (RunCommandWithNoRetry n "lsblk --inverse --ascii --noheadings -o NAME,SIZE -b"
                   crash_opts) (λ r1,
          match r1 with
          | inr err => throw_ip n (λ ip,
              "failed to check 'lsblk --inverse --ascii --noheadings -o NAME,SIZE' output on node " +:+
              ip +:+ ", Err: " +:+ Error err)
          | inl out1 =>
              attempt (lift (parseLsblkOutput out1)) (λ r2,
                match r2 with
                | inr err => throw_ip n (λ ip, "failed to parse lsblk output on node " +:+ ip +:+
                               ", Err: " +:+ Error err)
                | inl lsblkParsed =>
                    if decide (size lsblkParsed = length mappers)
                    then _ ← check_mappers n lsblkParsed mappers; mret lsblkParsed
                    else throw_ip n (λ ip, "found " +:+ Itoa (Z.of_nat (length mappers)) +:+
                      " mappers in dmsetup but " +:+ Itoa (Z.of_nat (size lsblkParsed)) +:+
                      " devices in lsblk on node " +:+ ip +:+
                      ", inconsistent disk state (we didn't clean something up right?)")
                end)
          end)
    end).

Fixpoint collect_nodes (nodes : list Node) (acc : gmap string devices) : M W (gmap string devices) :=
  match nodes with
  | [] => mret acc
  | n :: nodes' =>
      localPathMap ← collectLocalNodeInfo n;
      ip ← lift (mgmt_ip n);
      collect_nodes nodes' (<[ip := localPathMap]> acc)
  end.

Definition getCurrentPureLocalVolumePaths : M W (gmap string devices) :=
  nodes ← registry_GetStorageDriverNodes;
  collect_nodes nodes ∅.

(** [d.pureDeviceBaseline] is the second component of the world. *)
Definition InitializePureLocalVolumePaths : M (W * gmap string devices) unit :=
  currentDevices ← up getCurrentPureLocalVolumePaths;
  put_local currentDevices.

(** Remove the baseline devices of one node; a missing one is an error. *)
Fixpoint remove_baseline_node (node : string) (wwids : list string) (current : devices)
    : outcome devices :=
  match wwids with
  | [] => Ok current
  | wwid :: wwids' =>
      match current !! wwid with
      | Some _ => remove_baseline_node node wwids' (delete wwid current)
      | None => Err (Errorf ("baseline FA device " +:+ wwid +:+ " originally present on node " +:+ node +:+
                  " is missing, this should not happen"))
      end
  end.

(** A node without an entry reads as an empty map; deleting from it changes
    nothing that is kept. *)
Fixpoint remove_baseline (baseline : list (string * devices)) (current : gmap string devices)
    : M W (gmap string devices) :=
  match baseline with
  | [] => mret current
  | (node, baselineDevices) :: baseline' =>
      order ← range_map pureLocalPathEntry baselineDevices;
      left ← lift (remove_baseline_node node order.*1 (default ∅ (current !! node)));
      remove_baseline baseline'
        (match current !! node with Some _ => <[node := left]> current | None => current end)
  end.

(** The volumes with a Pure block spec, each with the serial number of its
    device *)
Fixpoint fada_volumes (names : list string) : M W (list (ApiVolume * string)) :=
  match names with
  | [] => mret []
  | volName :: names' =>
      resp ← InspectVolume volName;
      v ← lift (deref resp);
      match Spec_ProxySpec (Vol_Spec v) with
      | Some ps =>
          if bool_decide (Proxy_Protocol ps = PROXY_PROTOCOL_PURE_BLOCK) ||
             bool_decide (Proxy_Protocol ps = PROXY_PROTOCOL_PURE_FILE)
          then match PureBlock_SerialNum ps with
               | Some serial => rest ← fada_volumes names'; mret ((v, serial) :: rest)
               | None => fada_volumes names'
               end
          else fada_volumes names'
      | None => fada_volumes names'
      end
  end.

(** The first storage-driver node with the management IP; the comparison reads
    the IP of every node before it. *)
Fixpoint node_with_ip (ip : string) (nodes : list Node) : outcome bool :=
  match nodes with
  | [] => Ok false
  | n :: nodes' =>
      ip' ← mgmt_ip n;
      if decide (ip' = ip) then Ok true else node_with_ip ip nodes'
  end.

(** The first device in the order given whose serial number is the wanted one *)
Fixpoint device_with_serial (serial : string) (l : list (string * pureLocalPathEntry))
    : outcome (option pureLocalPathEntry) :=
  match l with
  | [] => Ok None
  | (_, e) :: l' =>
      s ← GetSerialFromWWID (WWID e);
      if decide (s = serial) then Ok (Some e) else device_with_serial serial l'
  end.

(** One volume: its device must be on the node it is attached on, with its
    size, and is taken off the list. *)
Definition claim_volume (v : ApiVolume) (serial : string) (current : gmap string devices)
    : M W (gmap string devices) :=
  let attachedOn := AttachedOn v in
  nodes ← registry_GetStorageDriverNodes;
  found ← lift (node_with_ip attachedOn nodes);
  if negb found then mret current
  else
    order ← range_map pureLocalPathEntry (default ∅ (current !! attachedOn));
    device ← lift (device_with_serial (ToLower serial) order);
    match device with
    | None => throw (Errorf ("volume " +:+ Locator_Name v +:+ " is attached to node " +:+ attachedOn +:+
                " but not found in any local path"))
    | Some e =>
        if decide (Entry_Size e = Spec_Size (Vol_Spec v))
        then mret (match current !! attachedOn with
                   | Some devs => <[attachedOn := delete (WWID e) devs]> current
                   | None => current
                   end)
        else throw (Errorf ("volume " +:+ Locator_Name v +:+ " is attached to node " +:+ attachedOn +:+
               " but has incorrect size " +:+ Itoa (Entry_Size e) +:+ " instead of expected size " +:+
               Itoa (Spec_Size (Vol_Spec v))))
    end.

Fixpoint claim_volumes (vols : list (ApiVolume * string)) (current : gmap string devices)
    : M W (gmap string devices) :=
  match vols with
  | [] => mret current
  | (v, serial) :: vols' => current' ← claim_volume v serial current; claim_volumes vols' current'
  end.

(** The last loop: nothing may be left. *)
Fixpoint none_left (l : list (string * devices)) : outcome unit :=
  match l with
  | [] => Ok tt
  | (node, devs) :: l' =>
      if decide (size devs = 0%nat) then none_left l'
      else Err (Errorf ("found " +:+ Itoa (Z.of_nat (size devs)) +:+ " extra devices on node " +:+ node +:+
             " that are not attached to any torpedo app volume (it may be from a clone test pod)"))
  end.

(** The function [t] *)
Definition validate_paths_once (baseline : gmap string devices) : M W unit :=
  currentDevices ← getCurrentPureLocalVolumePaths;
  order ← range_map devices baseline;
  afterBaseline ← remove_baseline order currentDevices;
  allVolNames ← ListAllVolumes;
  fadaVolumes ← fada_volumes allVolNames;
  remaining ← claim_volumes fadaVolumes afterBaseline;
  last ← range_map devices remaining;
  lift (none_left last).

Definition ValidatePureLocalVolumePaths : M (W * gmap string devices) unit :=
  DoRetryWithTimeout
    (baseline ← get_local;
     attempt (up (validate_paths_once baseline)) (λ r,
       match r with
       | inr err => mret (Retry err)
       | inl _ => mret (Done tt)
       end)) (2 * Minute) defaultRetryInterval.
End pure.

(** ** Properties of the parser *)

(** The devices found are filed under their own names and have 64-bit sizes. *)
Definition entry_ok (k : string) (e : pureLocalPathEntry) : Prop := WWID e = k ∧ is_u64 (Entry_Size e).

Definition lsblk_inv (st : lsblk_state) : Prop :=
  map_Forall entry_ok (foundDevices st) ∧
  (∀ e, currentEntry st = Some e → is_u64 (Entry_Size e)).

Lemma finish_ok st : lsblk_inv st → map_Forall entry_ok (finish st).
Proof.
  intros [Hf Hc]. unfold finish. destruct (currentEntry st) as [e|]; [|done].
  apply map_Forall_insert_2; [|done]. split; [done|by apply Hc].
Qed.

Lemma lsblk_line_inv st l st' : lsblk_line st l = Ok st' → lsblk_inv st → lsblk_inv st'.
Proof.
  intros Hl Hst. pose proof (finish_ok st Hst) as Hfin. unfold lsblk_line in Hl.
  case_decide; [by simplify_eq|]. destruct (_ && _); [by simplify_eq|].
  destruct (Contains _ PureVolumeOUI).
  - unfold mbind, outcome_bind in Hl. destruct (index _ 0) as [name|e|s|]; [|done..].
    destruct (index _ 1) as [sz|e|s|]; [|done..].
    destruct (ParseUint sz) as [z|e|s|] eqn:Hz; simplify_eq. split; [done|].
    intros e [= <-]. by eapply ParseUint_range.
  - destruct (currentEntry st) as [e|] eqn:Hc; [|by simplify_eq].
    destruct (_ || _); [|by simplify_eq].
    unfold mbind, outcome_bind in Hl. destruct (index _ 0) as [path|e'|s|]; simplify_eq.
    destruct Hst as [Hf Hu]. split; [done|]. intros e' [= <-]. by apply (Hu e).
Qed.

Lemma lsblk_lines_inv st ls st' : lsblk_lines st ls = Ok st' → lsblk_inv st → lsblk_inv st'.
Proof.
  revert st. induction ls as [|l ls IH]; intros st; simpl; [by intros [= ->]|].
  unfold mbind, outcome_bind. destruct (lsblk_line st l) as [st1|e|s|] eqn:Hl; [|done..].
  intros Hs Hinv. eapply IH; [done|]. by eapply lsblk_line_inv.
Qed.

Lemma parsed_entries_ok out found : parseLsblkOutput out = Ok found → map_Forall entry_ok found.
Proof.
  unfold parseLsblkOutput, mbind, outcome_bind.
  destruct (lsblk_lines _ _) as [st|e|s|] eqn:Hl; [|done..]. intros [= <-]. apply finish_ok.
  eapply lsblk_lines_inv; [done|]. split; [apply map_Forall_empty|done].
Qed.

(** *** Reading back a listing *)

(** The blanks between two columns: one and [k] more *)
Fixpoint blanks (k : nat) : string := match k with O => " " | S k' => String " " (blanks k') end.

(** Two columns *)
Definition columns (a : string) (k : nat) (b : string) : string := a +:+ blanks k +:+ b.

Lemma TrimSpace_line a k b : word a → word b → TrimSpace (columns a k b) = columns a k b.
Proof.
  intros [Hna Ha] [Hnb Hb]. destruct a as [|c a]; [done|]. simpl in Ha.
  apply andb_true_iff in Ha as [Hc _]. apply negb_true_iff in Hc. unfold TrimSpace, Trim, columns.
  change (String c a +:+ blanks k +:+ b) with (String c (a +:+ blanks k +:+ b)). cbn [TrimLeft].
  rewrite in_spaces, Hc. change (String c (a +:+ blanks k +:+ b)) with (String c a +:+ blanks k +:+ b).
  rewrite <- app_assoc_s. apply TrimRight_app; [by apply TrimRight_word|done].
Qed.

Lemma fields_loop_blanks k s : fields_loop "" (blanks k +:+ s) = fields_loop "" s.
Proof. induction k as [|k IH]; [done|]. simpl. exact IH. Qed.

Lemma Fields_line a k b : word a → word b → Fields (columns a k b) = [a; b].
Proof.
  intros [Hna Ha] [Hnb Hb]. unfold Fields, columns. rewrite fields_loop_word by done.
  pose proof (fields_loop_word "" b "" Hb) as Hf. rewrite app_empty_r in Hf. simpl in Hf.
  assert (fields_loop "" b = [b]) as Hlast by (rewrite Hf; by destruct b).
  destruct a as [|c a]; [done|]. simpl. destruct k as [|k]; simpl; [by rewrite Hlast|].
  by rewrite fields_loop_blanks, Hlast.
Qed.

Lemma Contains_two a k b sub :
  free_of " " sub = true → sub ≠ "" → Contains (columns a k b) sub = Contains a sub || Contains b sub.
Proof.
  intros Hf Hne. assert (∀ s, Contains (String " " s) sub = Contains s sub) as Hs.
  { intros s. change (String " " s) with ("" +:+ String " " s). rewrite Contains_around by done. by destruct sub. }
  assert (∀ k, Contains (blanks k +:+ b) sub = Contains b sub) as Hb.
  { intros j. induction j as [|j IH]; [apply Hs|]. rewrite <- IH. apply (Hs (blanks j +:+ b)). }
  unfold columns. destruct k as [|k].
  - change (a +:+ blanks 0 +:+ b) with (a +:+ String " " b). by rewrite Contains_around.
  - change (a +:+ blanks (S k) +:+ b) with (a +:+ String " " (blanks k +:+ b)). by rewrite Contains_around, Hb.
Qed.

Lemma HasPrefix_columns a k b sub : free_of " " sub = true → HasPrefix (columns a k b) sub = HasPrefix a sub.
Proof.
  intros Hf. unfold columns. destruct k as [|k].
  - change (a +:+ blanks 0 +:+ b) with (a +:+ String " " b). by rewrite HasPrefix_before.
  - change (a +:+ blanks (S k) +:+ b) with (a +:+ String " " (blanks k +:+ b)). by rewrite HasPrefix_before.
Qed.

Lemma remove_char_free c s : free_of c s = true → remove_char c s = s.
Proof.
  induction s as [|d s IH]; simpl; [done|]. intros [Hd Hs]%andb_true_iff.
  apply negb_true_iff in Hd. rewrite Hd. by rewrite IH.
Qed.

Lemma substring_all s : String.substring 0 (String.length s) s = s.
Proof. induction s as [|c s IH]; simpl; [done|by rewrite IH]. Qed.

(** A line below a device: the tree mark, a path, the blanks and its size *)
Record lsblk_child := { child_last : bool; child_name : string; child_gap : nat; child_size : string }.

Definition child_mark (c : lsblk_child) : string := if child_last c then "`-" else "|-".

Definition child_line (c : lsblk_child) : string :=
  columns (child_mark c +:+ child_name c) (child_gap c) (child_size c).

(** What keeps a line from being taken for a partition or a Pure device *)
Definition plain_columns (name size : string) : Prop :=
  word name ∧ word size ∧ (Contains name "sd" = true ∨ Contains name "p" = false ∧ Contains size "p" = false) ∧
  Contains name PureVolumeOUI = false ∧ Contains size PureVolumeOUI = false.

Definition child_ok (c : lsblk_child) : Prop := plain_columns (child_name c) (child_size c).

(** A top-level line with the lines below it: a Pure device, or another disk; or an empty
    line, as the one at the end of the output *)
Inductive lsblk_item : Type :=
  | PureDevice (wwid : string) (gap : nat) (size_text : string) (size : Z) (children : list lsblk_child)
  | OtherDisk (name : string) (gap : nat) (size_text : string) (children : list lsblk_child)
  | EmptyLine.

Definition item_lines (i : lsblk_item) : list string :=
  match i with
  | PureDevice wwid k sz _ cs => columns wwid k sz :: (child_line <$> cs)
  | OtherDisk name k sz cs => columns name k sz :: (child_line <$> cs)
  | EmptyLine => [""]
  end.

Definition item_ok (i : lsblk_item) : Prop :=
  match i with
  | PureDevice wwid _ sz size cs =>
      word wwid ∧ word sz ∧ Contains wwid PureVolumeOUI = true ∧
      Contains wwid "p" = false ∧ Contains sz "p" = false ∧
      free_of "-" wwid = true ∧ free_of "`" wwid = true ∧ ParseUint sz = Ok size ∧ Forall child_ok cs
  | OtherDisk name _ sz cs =>
      plain_columns name sz ∧ HasPrefix name "|-" = false ∧ HasPrefix name "`-" = false ∧ Forall child_ok cs
  | EmptyLine => True
  end.

(** What the item contributes *)
Definition record_item (m : devices) (i : lsblk_item) : devices :=
  match i with
  | PureDevice wwid _ _ size cs =>
      <[wwid := {| WWID := wwid; SinglePaths := child_name <$> cs; Entry_Size := size |}]> m
  | OtherDisk _ _ _ _ | EmptyLine => m
  end.

Lemma word_mark c : child_ok c → word (child_mark c +:+ child_name c).
Proof.
  intros [[Hne Hw] _]. unfold word, child_mark. rewrite string_forall_app, Hw.
  destruct (child_last c); split; done.
Qed.

(** The mark in front of a name changes none of the tests. *)
Lemma Contains_mark c s :
  free_of "-" s = true → s ≠ "" → Contains "`" s = false → Contains "|" s = false →
  Contains (child_mark c +:+ child_name c) s = Contains (child_name c) s.
Proof.
  intros Hf Hne Ht Hp. unfold child_mark. destruct (child_last c).
  - change ("`-" +:+ child_name c) with ("`" +:+ String "-" (child_name c)). by rewrite Contains_around, Ht.
  - change ("|-" +:+ child_name c) with ("|" +:+ String "-" (child_name c)). by rewrite Contains_around, Hp.
Qed.

(** The test for a partition, and that for a Pure device *)
Lemma plain_tests name k size :
  (Contains name "sd" = true ∨ Contains name "p" = false ∧ Contains size "p" = false) →
  Contains name PureVolumeOUI = false → Contains size PureVolumeOUI = false →
  Contains (columns name k size) "p" && negb (Contains (columns name k size) "sd") = false ∧
  Contains (columns name k size) PureVolumeOUI = false.
Proof.
  intros Hp Ho Hos. rewrite !Contains_two, Ho, Hos by done. split; [|done].
  destruct Hp as [-> | [-> ->]]; [by rewrite andb_false_r|done].
Qed.

(** The tests of [lsblk_line] on a child line *)
Lemma child_line_tests c :
  child_ok c →
  TrimSpace (child_line c) = child_line c ∧ child_line c ≠ "" ∧
  Contains (child_line c) "p" && negb (Contains (child_line c) "sd") = false ∧
  Contains (child_line c) PureVolumeOUI = false ∧
  HasPrefix (child_line c) "|-" || HasPrefix (child_line c) "`-" = true ∧
  Fields (String.substring 2 (String.length (child_line c) - 2) (child_line c)) =
    [child_name c; child_size c].
Proof.
  intros Hc. pose proof (word_mark c Hc) as Hm. destruct Hc as (Hn & Hs & Hsd & Ho & Hos).
  destruct (plain_tests (child_mark c +:+ child_name c) (child_gap c) (child_size c)) as [Hpart Hoc];
    [by rewrite !Contains_mark..|done|].
  unfold child_line. split_and!; [by apply TrimSpace_line| |done|done| |].
  - unfold columns, child_mark. by destruct (child_last c).
  - rewrite !HasPrefix_columns by done. unfold child_mark. destruct (child_last c).
    + by rewrite (HasPrefix_app "`-"), orb_true_r.
    + by rewrite (HasPrefix_app "|-").
  - rewrite <- (Fields_line _ (child_gap c) _ Hn Hs). f_equal. unfold columns. rewrite app_assoc_s.
    unfold child_mark. destruct (child_last c); simpl; rewrite Nat.sub_0_r; apply substring_all.
Qed.

Lemma lsblk_child_line st c :
  child_ok c →
  lsblk_line st (child_line c) =
    Ok {| foundDevices := foundDevices st;
          currentEntry := (λ e, add_single_path e (child_name c)) <$> currentEntry st |}.
Proof.
  intros (Ht & Hne & Hpart & Ho & Hp & Hf)%child_line_tests. unfold lsblk_line.
  rewrite Ht, decide_False, Hpart, Ho by done.
  destruct st as [f [e|]]; simpl; [|done]. by rewrite Hp, Hf.
Qed.

Lemma lsblk_lines_cons st l st' ls :
  lsblk_line st l = Ok st' → lsblk_lines st (l :: ls) = lsblk_lines st' ls.
Proof. intros Hl. cbn [lsblk_lines]. by rewrite Hl. Qed.

Lemma lsblk_children st cs ls :
  Forall child_ok cs →
  lsblk_lines st ((child_line <$> cs) ++ ls) =
    lsblk_lines {| foundDevices := foundDevices st;
      currentEntry := (λ e, {| WWID := WWID e; SinglePaths := SinglePaths e ++ (child_name <$> cs);
                               Entry_Size := Entry_Size e |}) <$> currentEntry st |} ls.
Proof.
  intros Hcs. revert st. induction Hcs as [|c cs Hc _ IH]; intros st.
  - f_equal. destruct st as [f [[w sp sz]|]]; simpl; by rewrite ?app_nil_r.
  - rewrite fmap_cons, <- app_comm_cons, (lsblk_lines_cons _ _ _ _ (lsblk_child_line st c Hc)), IH.
    f_equal.
    destruct st as [f [[w sp sz]|]]; simpl; [|done]. by rewrite <- app_assoc.
Qed.

Lemma lsblk_pure_line st wwid k sz size :
  item_ok (PureDevice wwid k sz size []) →
  lsblk_line st (columns wwid k sz) =
    Ok {| foundDevices := finish st;
          currentEntry := Some {| WWID := wwid; SinglePaths := []; Entry_Size := size |} |}.
Proof.
  intros (Hw & Hs & Ho & Hp & Hps & Hd & Ht & Hz & _). unfold lsblk_line.
  rewrite TrimSpace_line by done. rewrite decide_False by (destruct Hw; by destruct wwid).
  rewrite !Contains_two by done. rewrite Hp, Hps, Ho. cbn [orb andb].
  rewrite Fields_line by done. unfold index; simpl. unfold mbind, outcome_bind.
  by rewrite Hz, (remove_char_free "-"), (remove_char_free "`").
Qed.

Lemma lsblk_other_line st name k sz :
  item_ok (OtherDisk name k sz []) →
  lsblk_line st (columns name k sz) = Ok {| foundDevices := finish st; currentEntry := None |}.
Proof.
  intros ((Hw & Hs & Hsd & Ho & Hos) & Hp1 & Hp2 & _). destruct (plain_tests name k sz Hsd Ho Hos) as [Hpart Hoc].
  unfold lsblk_line. rewrite TrimSpace_line by done. rewrite decide_False by (destruct Hw; by destruct name).
  rewrite Hpart, Hoc, !HasPrefix_columns, Hp1, Hp2 by done. by destruct st as [f [e|]].
Qed.

Lemma lsblk_item_lines st i ls :
  item_ok i →
  ∃ st', lsblk_lines st (item_lines i ++ ls) = lsblk_lines st' ls ∧
    finish st' = record_item (finish st) i.
Proof.
  destruct i as [wwid k sz size cs|name k sz cs|]; intros Hi; simpl item_lines.
  - assert (Forall child_ok cs) as Hcs by apply Hi.
    assert (item_ok (PureDevice wwid k sz size [])) as Hi0 by (simpl in *; naive_solver).
    eexists. split; [|].
    + rewrite <- app_comm_cons, (lsblk_lines_cons _ _ _ _ (lsblk_pure_line st wwid k sz size Hi0)).
      by apply lsblk_children.
    + done.
  - assert (Forall child_ok cs) as Hcs by apply Hi.
    assert (item_ok (OtherDisk name k sz [])) as Hi0 by (simpl in *; naive_solver).
    eexists. split; [|].
    + rewrite <- app_comm_cons, (lsblk_lines_cons _ _ _ _ (lsblk_other_line st name k sz Hi0)).
      by apply lsblk_children.
    + done.
  - by exists st.
Qed.

Lemma word_free_of_newline w : word w → free_of newline w = true.
Proof.
  intros [_ Hw]. unfold free_of. induction w as [|c w IH]; simpl in *; [done|].
  apply andb_true_iff in Hw as [Hc Hw]. rewrite IH by done. rewrite andb_true_r.
  destruct (Ascii.eqb_spec c newline) as [->|]; done.
Qed.

Lemma columns_free a k b : word a → word b → free_of newline (columns a k b) = true.
Proof.
  intros Ha%word_free_of_newline Hb%word_free_of_newline. unfold columns. rewrite !free_of_app, Ha, Hb, andb_true_r.
  induction k as [|k IH]; [done|]. exact IH.
Qed.

Lemma item_lines_free i : item_ok i → Forall (λ l, free_of newline l = true) (item_lines i).
Proof.
  assert (∀ cs, Forall child_ok cs → Forall (λ l, free_of newline l = true) (child_line <$> cs)) as Hc.
  { intros cs Hcs. apply Forall_fmap. eapply Forall_impl; [exact Hcs|]. intros c Hok.
    apply columns_free; [by apply word_mark|apply Hok]. }
  destruct i; simpl; intros Hi; [..|by repeat constructor]; (apply Forall_cons_2; [apply columns_free; apply Hi|apply Hc, Hi]).
Qed.

(** C12. [parseLsblkOutput] reads back every listing of Pure devices, other disks and empty
    lines with the paths one level below them, the columns any number of blanks apart, in
    which other disks and paths have sd in their name or no letter p, and the names of
    Pure devices, which have the identifier of the vendor in them, have neither p nor a
    tree mark: the result has exactly the listed devices, each with its size and all of
    its single paths in order. *)
Theorem parseLsblkOutput_reads items :
  items ≠ [] → Forall item_ok items →
  parseLsblkOutput (Join (concat (item_lines <$> items)) (String newline "")) =
    Ok (foldl record_item ∅ items).
Proof.
  intros Hne Hok. unfold parseLsblkOutput. rewrite Split_Join.
  - change (∅ : devices) with (finish {| foundDevices := ∅; currentEntry := None |}) at 2.
    generalize {| foundDevices := ∅; currentEntry := None |}. clear Hne.
    induction Hok as [|i items Hi _ IH]; intros st; [done|].
    rewrite fmap_cons. cbn [concat foldl].
    destruct (lsblk_item_lines st i (concat (item_lines <$> items)) Hi) as (st' & -> & <-). apply IH.
  - destruct items as [|i items]; [done|]. by destruct i.
  - apply Forall_concat, Forall_fmap. eapply Forall_impl; [exact Hok|]. apply item_lines_free.
Qed.

(** A partition of another disk does not end the entry of the Pure device
    before it, so the disk below the partition is counted among the single
    paths of the Pure device. *)
Theorem parseLsblkOutput_partition_leak :
  parseLsblkOutput (Join
    ["3624a9370afb23ff64fc142a600062859 1073741824000"; "|-sdf 1073741824000"; "`-sdg 1073741824000";
     "nvme0n1p1 3219128320"; "`-nvme0n1 137438953472"] (String newline "")) =
  Ok {["3624a9370afb23ff64fc142a600062859" :=
        {| WWID := "3624a9370afb23ff64fc142a600062859"; SinglePaths := ["sdf"; "sdg"; "nvme0n1"];
           Entry_Size := 1073741824000 |}]}.
Proof. vm_compute. reflexivity. Qed.

(** A device below a partition that is not the last one keeps the pipe of the
    tree in its name. *)
Example parseLsblkOutput_pipe :
  parseLsblkOutput (Join ["sda 1"; "|-3624a9370afb23ff64fc142a600062859 1073741824000"; "|-sdf 1"]
    (String newline "")) =
  Ok {["|3624a9370afb23ff64fc142a600062859" :=
        {| WWID := "|3624a9370afb23ff64fc142a600062859"; SinglePaths := ["sdf"];
           Entry_Size := 1073741824000 |}]}.
Proof. vm_compute. reflexivity. Qed.

(** ** Properties of the validation *)

Section pure_theorems.
Context {W : Type} `{PxWorldLaws W} `{NodeDriver W} `{SchedOps W} `{K8sCore W} `{PxSdk W}.
Context `{VolumeSdk W} `{VolumeEnv W} `{MapOrderLaws W}.

(** [has m node k e]: device [e] is listed as [k] on [node]. *)
Definition has (m : gmap string devices) (node k : string) (e : pureLocalPathEntry) : Prop :=
  ∃ devs, m !! node = Some devs ∧ devs !! k = Some e.

Lemma has_insert_same m node devs k e : has (<[node := devs]> m) node k e ↔ devs !! k = Some e.
Proof.
  unfold has. rewrite lookup_insert_eq. naive_solver.
Qed.

Lemma has_insert_other m node devs node' k e :
  node ≠ node' → has (<[node := devs]> m) node' k e ↔ has m node' k e.
Proof. intros Hne. unfold has. by rewrite lookup_insert_ne. Qed.

(** The step both loops make: the devices of one node are replaced, when the
    node is known. *)
Definition replace_node (m : gmap string devices) (node : string) (devs : devices) : gmap string devices :=
  match m !! node with Some _ => <[node := devs]> m | None => m end.

Lemma has_replace m node devs node' k e :
  has (replace_node m node devs) node' k e ↔
    (node' = node ∧ is_Some (m !! node) ∧ devs !! k = Some e) ∨ (node' ≠ node ∧ has m node' k e).
Proof.
  unfold replace_node. destruct (decide (node' = node)) as [->|Hne].
  - destruct (m !! node) eqn:E.
    + rewrite has_insert_same. split; [left; eauto|naive_solver].
    + unfold has. rewrite E. split; [naive_solver|]. intros [(_ & [? ?] & _)|[? _]]; done.
  - destruct (m !! node) eqn:E; [rewrite has_insert_other by done|]; naive_solver.
Qed.

Lemma remove_baseline_node_Ok node wwids (cur out : devices) :
  remove_baseline_node node wwids cur = Ok out →
  (∀ x, x ∈ wwids → is_Some (cur !! x)) ∧
  (∀ k e, out !! k = Some e → cur !! k = Some e) ∧
  (∀ k e, cur !! k = Some e → k ∈ wwids ∨ out !! k = Some e).
Proof.
  revert cur. induction wwids as [|x wwids IH]; intros cur; simpl.
  - intros [= ->]. split; [by intros x ?%elem_of_nil|]. auto.
  - destruct (cur !! x) eqn:Hx; [|done]. intros (Hin & Hsub & Hrest)%IH. split_and!.
    + intros y [->|Hy]%elem_of_cons; [by eauto|].
      destruct (Hin y Hy) as [e He%lookup_delete_Some]. naive_solver.
    + intros k e He%Hsub%lookup_delete_Some. naive_solver.
    + intros k e He. rewrite elem_of_cons. destruct (decide (k = x)) as [->|Hne]; [auto|].
      rewrite <- (lookup_delete_ne cur x k) in He by done. apply Hrest in He as [?|?]; auto.
Qed.

Lemma remove_baseline_Ok l cur w out w' :
  remove_baseline l cur w = (Ok out, w') →
  (∀ node bd k, (node, bd) ∈ l → is_Some (bd !! k) → ∃ e, has cur node k e) ∧
  (∀ node k e, has out node k e → has cur node k e) ∧
  (∀ node k e, has cur node k e →
     (∃ bd, (node, bd) ∈ l ∧ is_Some (bd !! k)) ∨ has out node k e).
Proof.
  revert cur w. induction l as [|[node bd] l IH]; intros cur w Hr.
  { unfold remove_baseline, mret, M_ret in Hr. simplify_eq.
    split; [by intros ??? ?%elem_of_nil|]. auto. }
  apply bind_Ok_inv in Hr as (order & w1 & Ho & Hr). apply bind_Ok_inv in Hr as (left & w2 & Hl & Hr).
  unfold lift in Hl. simplify_eq. change (match cur !! node with
    | Some _ => <[node:=left]> cur | None => cur end) with (replace_node cur node left) in Hr.
  apply IH in Hr as (Hin & Hsub & Hrest).
  destruct (remove_baseline_node node order.*1 (default ∅ (cur !! node))) as [out'|e|s|] eqn:Hn;
    simplify_eq. apply remove_baseline_node_Ok in Hn as (Hin1 & Hsub1 & Hrest1).
  destruct (range_map_spec _ bd w) as (l' & w3 & Hl' & Hperm). rewrite Hl' in Ho. simplify_eq.
  assert (∀ k, k ∈ order.*1 ↔ is_Some (bd !! k)) as Hdom.
  { intros k. rewrite Hperm, list_elem_of_fmap. split.
    - intros ([k' e] & -> & Hk%elem_of_map_to_list). by eexists.
    - intros [e He]. exists (k, e). by rewrite elem_of_map_to_list. }
  assert (∀ nd k e, has (replace_node cur node left) nd k e → has cur nd k e) as Hstep.
  { intros nd k e [(-> & [devs Hd] & Hk)|[_ Hk]]%has_replace; [|done].
    exists devs. split; [done|]. apply Hsub1 in Hk. by rewrite Hd in Hk. }
  split_and!.
  - intros nd b k [[= -> ->]|Hnb]%elem_of_cons Hk.
    + apply Hdom, Hin1 in Hk as [e He]. exists e. destruct (cur !! node) as [devs|] eqn:Hd.
      * by exists devs.
      * simpl in He. by rewrite lookup_empty in He.
    + destruct (Hin _ _ _ Hnb Hk) as [e He]. eauto.
  - eauto.
  - intros nd k e Hk. destruct (decide (nd = node)) as [->|Hne].
    + pose proof Hk as (devs & Hd & Hke). destruct (Hrest1 k e) as [Hin'|Hleft]; [by rewrite Hd| |].
      * left. exists bd. rewrite elem_of_cons, <- Hdom. auto.
      * destruct (Hrest node k e) as [(b & ? & ?)|?]; [apply has_replace; left; eauto| |auto].
        left. exists b. rewrite elem_of_cons. auto.
    + destruct (Hrest nd k e) as [(b & ? & ?)|?]; [apply has_replace; right; auto| |auto].
      left. exists b. rewrite elem_of_cons. auto.
Qed.

(** Every device is listed under its own name. *)
Definition keyed (m : gmap string devices) : Prop := ∀ node k e, has m node k e → WWID e = k.

(** The device of a volume: on the node the volume is attached on, with its
    serial number and its size. *)
Definition device_of (v : ApiVolume) (serial node k : string) (e : pureLocalPathEntry) : Prop :=
  AttachedOn v = node ∧ GetSerialFromWWID k = Ok (ToLower serial) ∧
  Entry_Size e = Spec_Size (Vol_Spec v).

Lemma device_with_serial_Some serial l e :
  device_with_serial serial l = Ok (Some e) →
  ∃ k, (k, e) ∈ l ∧ GetSerialFromWWID (WWID e) = Ok serial.
Proof.
  induction l as [|[k e'] l IH]; simpl; [done|]. unfold mbind, outcome_bind.
  destruct (GetSerialFromWWID (WWID e')) as [s|?|?|] eqn:Hs; [|done..]. case_decide; simplify_eq.
  - intros [= <-]. exists k. split; [by left|done].
  - intros (k' & ? & ?)%IH. exists k'. split; [by right|done].
Qed.

Lemma claim_volume_Ok v serial cur w out w' :
  claim_volume v serial cur w = (Ok out, w') → keyed cur →
  (∀ node k e, has out node k e → has cur node k e) ∧
  (∀ node k e, has cur node k e → device_of v serial node k e ∨ has out node k e).
Proof.
  intros Hc Hk. apply bind_Ok_inv in Hc as (nodes & w1 & _ & Hc).
  apply bind_Ok_inv in Hc as (found & w2 & _ & Hc). destruct found; simpl in Hc.
  2:{ unfold mret, M_ret in Hc. simplify_eq. auto. }
  apply bind_Ok_inv in Hc as (order & w3 & Ho & Hc).
  apply bind_Ok_inv in Hc as (dev & w4 & Hd & Hc). unfold lift in Hd.
  destruct dev as [e|]; [|done]. case_decide as Hsize; [|done]. unfold mret, M_ret in Hc. simplify_eq.
  destruct (cur !! AttachedOn v) as [devs|] eqn:Hcur; [|auto].
  destruct (device_with_serial (ToLower serial) order) as [[e'|]|?|?|] eqn:Hdev; simplify_eq.
  apply device_with_serial_Some in Hdev as (k & Hin & Hser).
  destruct (range_map_spec _ (default ∅ (Some devs)) w2) as (l & w5 & Hl & Hperm). rewrite Hl in Ho.
  simplify_eq. rewrite Hperm in Hin. apply elem_of_map_to_list in Hin. simpl in Hin.
  assert (WWID e = k) as He by (apply (Hk (AttachedOn v)); by exists devs). split.
  - intros node k' d Hh. destruct (decide (node = AttachedOn v)) as [->|Hne].
    + apply has_insert_same, lookup_delete_Some in Hh as [_ Hh]. by exists devs.
    + by apply has_insert_other in Hh.
  - intros node k' d Hh. destruct (decide (node = AttachedOn v)) as [->|Hne].
    + destruct Hh as (devs' & ? & Hd'). simplify_eq. destruct (decide (k' = WWID e)) as [->|Hk'].
      * left. simplify_eq. done.
      * right. apply has_insert_same. by rewrite lookup_delete_ne.
    + right. by apply has_insert_other.
Qed.

Lemma claim_volumes_Ok vols cur w out w' :
  claim_volumes vols cur w = (Ok out, w') → keyed cur →
  ∀ node k e, has cur node k e →
    (∃ v serial, (v, serial) ∈ vols ∧ device_of v serial node k e) ∨ has out node k e.
Proof.
  revert cur w. induction vols as [|[v serial] vols IH]; intros cur w Hc Hk node k e Hh.
  { unfold claim_volumes, mret, M_ret in Hc. simplify_eq. auto. }
  apply bind_Ok_inv in Hc as (cur1 & w1 & Hv & Hc).
  apply claim_volume_Ok in Hv as [Hsub Hrest]; [|done].
  destruct (Hrest _ _ _ Hh) as [Hd|Hh1].
  - left. exists v, serial. split; [by left|done].
  - assert (keyed cur1) as Hk1 by (intros nd k' e' Hh'; eapply Hk, Hsub, Hh').
    destruct (IH _ _ Hc Hk1 _ _ _ Hh1) as [(v' & s' & ? & ?)|?]; [|auto].
    left. exists v', s'. split; [by right|done].
Qed.

Lemma none_left_Ok l : none_left l = Ok tt → ∀ node devs, (node, devs) ∈ l → devs = ∅.
Proof.
  induction l as [|[nd dv] l IH]; simpl; [by intros _ ?? ?%elem_of_nil|].
  case_decide as Hs; [|done]. intros Hl node devs [[= -> ->]|Hin]%elem_of_cons; [|by eapply IH].
  by apply map_size_empty_inv.
Qed.

(** A volume the cluster listed with a Pure block spec of the serial number *)
Definition fada_volume (v : ApiVolume) (serial : string) : Prop :=
  (∃ name w1 w2, InspectVolume name w1 = (Ok (Some v), w2)) ∧
  ∃ ps, Spec_ProxySpec (Vol_Spec v) = Some ps ∧ PureBlock_SerialNum ps = Some serial.

Lemma fada_volumes_Ok names w l w' :
  fada_volumes names w = (Ok l, w') → ∀ v serial, (v, serial) ∈ l → fada_volume v serial.
Proof.
  revert w l. induction names as [|name names IH]; intros w l Hf v serial Hin.
  { unfold fada_volumes, mret, M_ret in Hf. simplify_eq. by apply elem_of_nil in Hin. }
  apply bind_Ok_inv in Hf as (resp & w1 & Hi & Hf). apply bind_Ok_inv in Hf as (u & w2 & Hd & Hf).
  unfold lift, deref in Hd. destruct resp as [u'|]; simplify_eq.
  destruct (Spec_ProxySpec (Vol_Spec u)) as [ps|] eqn:Hps; [|by eapply IH].
  destruct (_ || _); [|by eapply IH]. destruct (PureBlock_SerialNum ps) as [sn|] eqn:Hsn; [|by eapply IH].
  apply bind_Ok_inv in Hf as (rest & w3 & Hr & Hf). unfold mret, M_ret in Hf. simplify_eq.
  apply elem_of_cons in Hin as [[= -> ->]|Hin]; [|by eapply IH].
  split; [by eauto|by exists ps].
Qed.

Lemma collectLocalNodeInfo_keys n w devs w' :
  collectLocalNodeInfo n w = (Ok devs, w') → map_Forall entry_ok devs.
Proof.
  assert (∀ (A : Type) (msg : string → string) (w0 : W) (a : A) w1, throw_ip n msg w0 ≠ (Ok a, w1)) as Hno.
  { intros A msg w0 a w1 Hx. apply bind_Ok_inv in Hx as (ip & w2 & _ & Hx). done. }
  unfold collectLocalNodeInfo. unfold attempt at 1.
  destruct (RunCommandWithNoRetry _ _ _ w) as [[out|e|s|] w1]; [|by intros ?%Hno|done..].
  unfold attempt at 1. destruct (RunCommandWithNoRetry _ _ _ w1) as [[out1|e|s|] w2];
    [|by intros ?%Hno|done..].
  unfold attempt, lift. destruct (parseLsblkOutput out1) as [m|e|s|] eqn:Hp; [|by intros ?%Hno|done..].
  case_decide; [|by intros ?%Hno]. intros Hc. apply bind_Ok_inv in Hc as ([] & w3 & _ & Hc).
  unfold mret, M_ret in Hc. simplify_eq. by apply parsed_entries_ok in Hp.
Qed.

Lemma getCurrent_keyed w cur w' : getCurrentPureLocalVolumePaths w = (Ok cur, w') → keyed cur.
Proof.
  intros Hc. apply bind_Ok_inv in Hc as (nodes & w1 & _ & Hc).
  assert (keyed ∅) as Hk by (intros nd k e (devs & Hd & _); by rewrite lookup_empty in Hd).
  revert Hc Hk. generalize (∅ : gmap string devices). revert w1.
  induction nodes as [|n nodes IH]; intros w1 acc Hc Hk.
  { unfold collect_nodes, mret, M_ret in Hc. by simplify_eq. }
  apply bind_Ok_inv in Hc as (devs & w2 & Hn%collectLocalNodeInfo_keys & Hc).
  apply bind_Ok_inv in Hc as (ip & w3 & _ & Hc). eapply IH; [done|]. intros nd k e Hh.
  destruct (decide (ip = nd)) as [->|Hne].
  - apply has_insert_same in Hh. by destruct (Hn _ _ Hh).
  - apply has_insert_other in Hh; [|done]. by eapply Hk.
Qed.

Lemma validate_once_Ok baseline w w' :
  validate_paths_once baseline w = (Ok tt, w') →
  ∃ w1 current w2, getCurrentPureLocalVolumePaths w1 = (Ok current, w2) ∧
    (∀ node k e, has baseline node k e → ∃ e', has current node k e') ∧
    (∀ node k e, has current node k e →
       (∃ e', has baseline node k e') ∨
       ∃ v serial, fada_volume v serial ∧ device_of v serial node k e).
Proof.
  intros Hv. apply bind_Ok_inv in Hv as (cur & w1 & Hcur & Hv).
  apply bind_Ok_inv in Hv as (order & w2 & Ho & Hv). apply bind_Ok_inv in Hv as (after & w3 & Hb & Hv).
  apply bind_Ok_inv in Hv as (names & w4 & _ & Hv). apply bind_Ok_inv in Hv as (vols & w5 & Hf & Hv).
  apply bind_Ok_inv in Hv as (rem & w6 & Hc & Hv). apply bind_Ok_inv in Hv as (last & w7 & Hl & Hn).
  unfold lift in Hn. simplify_eq. exists w, cur, w1. split; [done|].
  pose proof (getCurrent_keyed _ _ _ Hcur) as Hk.
  apply remove_baseline_Ok in Hb as (Hin & Hsub & Hrest).
  destruct (range_map_spec _ baseline w1) as (l & w8 & Hl1 & Hp1). rewrite Hl1 in Ho. simplify_eq.
  destruct (range_map_spec _ rem w6) as (l & w9 & Hl2 & Hp2). rewrite Hl2 in Hl. simplify_eq.
  assert (keyed after) as Hka by (intros nd k e Hh; eapply Hk, Hsub, Hh).
  split.
  - intros node k e (bd & Hbd & Hke). apply (Hin node bd k); [|by eauto].
    by rewrite Hp1, elem_of_map_to_list.
  - intros node k e Hh. destruct (Hrest _ _ _ Hh) as [(bd & Hbd & [e' He'])|Ha].
    + left. exists e', bd. rewrite Hp1, elem_of_map_to_list in Hbd. done.
    + right. destruct (claim_volumes_Ok _ _ _ _ _ Hc Hka _ _ _ Ha) as [(v & s & Hin' & Hd)|Hr].
      * exists v, s. split; [|done]. by eapply fada_volumes_Ok.
      * exfalso. destruct Hr as (devs & Hdevs & He).
        destruct (none_left last) as [[]|?|?|] eqn:Hnl; simplify_eq.
        rewrite (none_left_Ok _ Hnl node devs) in He; [by rewrite lookup_empty in He|].
        by rewrite Hp2, elem_of_map_to_list.
Qed.

(** C4. When [ValidatePureLocalVolumePaths] returns without error, there was a
    survey of the nodes in which every device of the baseline is still present,
    and every device is one of the baseline or the device of a Pure block
    volume of the cluster that is attached on that node, with the volume's
    serial number and size: nothing is missing and nothing is left over. *)
Theorem ValidatePureLocalVolumePaths_success w baseline wl' :
  ValidatePureLocalVolumePaths (w, baseline) = (Ok tt, wl') →
  ∃ w1 current w2, getCurrentPureLocalVolumePaths w1 = (Ok current, w2) ∧
    (∀ node k e, has baseline node k e → ∃ e', has current node k e') ∧
    (∀ node k e, has current node k e →
       (∃ e', has baseline node k e') ∨
       ∃ v serial, fada_volume v serial ∧ device_of v serial node k e).
Proof.
  intros Hv.
  assert (preserves (λ wl, wl.2 = baseline) ValidatePureLocalVolumePaths) as Hp.
  { apply preserves_DoRetry; [|by intros d [w0 b]]. intros [w0 b] Hb. rewrite bind_get_local.
    unfold attempt. rewrite up_eq. by destruct (validate_paths_once b w0) as [[]]. }
  specialize (Hp (w, baseline) eq_refl). rewrite Hv in Hp.
  apply DoRetryWithTimeout_Ok_inv in Hv as ([w0 b] & Hd). rewrite bind_get_local in Hd.
  unfold attempt in Hd. rewrite up_eq in Hd.
  destruct (validate_paths_once b w0) as [[[]|?|?|] w1] eqn:Hone; simpl in Hd; [|done..].
  unfold mret, M_ret in Hd. simplify_eq/=. by apply validate_once_Ok in Hone.
Qed.
End pure_theorems.
