(* ===== verification/PxDrives.v ===== *)
(** drivers/volume/portworx/portworx.go: drives and pools of a node as pxctl
    reports them - adding drives, reading node statistics, the trash can, the
    drives and used sizes of pools - and expanding, labelling and listing
    pools. *)

From Stdlib Require Import Ascii Floats.SpecFloat.
From S2P Require Import Prelude GoStrings Errors Effects GoJson Float64 Strconv Task OpenStorageApi NodeRegistry PxDriver PxNodeOps PxVolume PureDevices.

(** [node.BlockDrive], the fields that are read *)
Record BlockDrive := {
  Drive_Path : string;
  MountPoint : string;
  FSType : string;
  Drive_Type : string;
}.

(** [torpedovolume.DiskResource] *)
Record DiskResource := {
  PoolId : string;
  Device : string;
  MediaType : string;
  SizeInGib : Z;
}.

(** [statusJSON] *)
Record statusJSON := { Status_ : string; Error_ : string; Cmd_ : string }.

Definition zero_status : statusJSON := {| Status_ := ""; Error_ := ""; Cmd_ := "" |}.

(** [%+v] *)
Definition show_status (s : statusJSON) : string :=
  "{Status:" +:+ Status_ s +:+ " Error:" +:+ Error_ s +:+ " Cmd:" +:+ Cmd_ s +:+ "}".

(** The operation types of a pool resize *)
Inductive ResizeOperationType : Type := RESIZE_TYPE_AUTO | RESIZE_TYPE_ADD_DISK | RESIZE_TYPE_RESIZE_DISK.

(** The block drives of a node ([GetBlockDrives] of the node driver, in the order
    Go ranges over its map), the services of PX that concern pools, the decoder
    of [statusJSON] into an existing value, and the text of JSON values that
    are neither strings, booleans nor null, and floats out of range. *)
Class DriveServices (W : Type) := {
  GetBlockDrives : Node → M W (list BlockDrive);
  sdk_JournalDev : M W string;
  pool_Resize : string → Z → ResizeOperationType → bool → M W unit;
  vol_EnumerateWithLabels : string → string → M W (list string);
  UnmarshalStatus : string → statusJSON → statusJSON * option error;
  show_json : json → string;
  float_outside : float64 → Z;
}.

Definition sprint_json (other : json → string) (j : json) : string :=
  match j with
  | JNull => "<nil>"
  | JBool true => "true"
  | JBool false => "false"
  | JString s => s
  | _ => other j
  end.

Definition json_field (key : string) (m : list (string * json)) : option json :=
  snd <$> find_first (λ kv, bool_decide (kv.1 = key)) m.

Definition expandStoragePoolTimeout : Z := 2 * Minute.
Definition upgradeTimeout : Z := 10 * Minute.
Definition upgradeRetryInterval : Z := 30 * Second.
Definition pxVersionLabel : string := "PX Version".
Definition pureKey : string := "backend".
Definition pureBlockValue : string := "pure_block".
Definition driveAddSuccessStatus : string := "Drive add done".
Definition driveExitsStatus : string := "Device already exists".
Definition metadataAddSuccessStatus : string := "Successfully added metadata device".
Definition journalAddSuccessStatus : string := "Successfully added journal device".

(** ** Reading pxctl status

    The regular expression [\b\d+:\d+\b.*]: at most one match in a line, since
    the rest of the line belongs to the match. *)

Definition is_word (c : ascii) : bool :=
  let n := nat_of_ascii c in
  is_digit c || (Nat.leb 65 n && Nat.leb n 90) || (Nat.leb 97 n && Nat.leb n 122) || Nat.eqb n 95.

Fixpoint skip_digits (s : string) : string :=
  match s with
  | String c s' => if is_digit c then skip_digits s' else s
  | EmptyString => EmptyString
  end.

(** Digits, a colon, digits and a word boundary at the head of the string *)
Definition major_minor (s : string) : bool :=
  match s with
  | String c s1 =>
      is_digit c &&
      match skip_digits s1 with
      | String ":" (String c' s2) =>
          is_digit c' &&
          match skip_digits s2 with
          | String c'' _ => negb (is_word c'')
          | EmptyString => true
          end
      | _ => false
      end
  | EmptyString => false
  end.

Fixpoint pool_match (after_word : bool) (s : string) : option string :=
  match s with
  | EmptyString => None
  | String c s' =>
      if negb after_word && major_minor s then Some s else pool_match (is_word c) s'
  end.

Definition pool_matches (output : string) : list string :=
  omap (pool_match false) (Split output newline).

Section drives.
Context {W : Type} `{PxWorld W} `{NodeDriver W} `{SchedOps W} `{K8sCore W} `{PxSdk W}.
Context `{VolumeSdk W} `{MapOrder W} `{DriveServices W}.
Context (depth : nat).

(** One word of a match: what is read so far and the size seen last *)
Definition pool_drive_word (st : DiskResource * float64) (tv : string) : outcome (DiskResource * float64) :=
  let '(r, size) := st in
  if bool_decide (PoolId r = "") && Contains tv ":" then
    p ← index (Split tv ":") 0;
    Ok ({| PoolId := p; Device := Device r; MediaType := MediaType r; SizeInGib := SizeInGib r |}, size)
  else if Contains tv "/" then
    Ok ({| PoolId := PoolId r; Device := tv; MediaType := MediaType r; SizeInGib := SizeInGib r |}, size)
  else if Contains tv "_" then
    Ok ({| PoolId := PoolId r; Device := Device r; MediaType := tv; SizeInGib := SizeInGib r |}, size)
  else
    match ParseFloat tv with
    | (val, false) => Ok (r, if f64_eqb size (f64_of_Z 0) then val else size)
    | (_, true) =>
        if Contains tv "GiB" || Contains tv "TiB" then
          let size' := if Contains tv "TiB" then f64_mul size (f64_of_Z 1024) else size in
          Ok ({| PoolId := PoolId r; Device := Device r; MediaType := MediaType r;
                 SizeInGib := u64_of_f64 float_outside size' |}, size')
        else Ok (r, size)
    end.

Fixpoint pool_drive_words (st : DiskResource * float64) (words : list string) : outcome (DiskResource * float64) :=
  match words with
  | [] => Ok st
  | tv :: words' => st' ← pool_drive_word st tv; pool_drive_words st' words'
  end.

Definition zero_resource : DiskResource := {| PoolId := ""; Device := ""; MediaType := ""; SizeInGib := 0 |}.

Definition pool_drive (m : string) : outcome DiskResource :=
  r ← pool_drive_words (zero_resource, S754_zero false) (Fields m); Ok r.1.

Fixpoint pool_drive_list (matches : list string) : outcome (list DiskResource) :=
  match matches with
  | [] => Ok []
  | m :: matches' => r ← pool_drive m; l ← pool_drive_list matches'; Ok (r :: l)
  end.

(** The loop that files the drives under their pool *)
Definition file_drive (m : gmap string (list DiskResource)) (r : DiskResource) : gmap string (list DiskResource) :=
  <[PoolId r := default [] (m !! PoolId r) ++ [r]]> m.

Definition file_drives (resources : list DiskResource) : gmap string (list DiskResource) :=
  fold_left file_drive resources ∅.

Definition GetPoolDrives (n : Node) : M W (gmap string (list DiskResource)) :=
  output ← RunCommand n "pxctl status"
             {| Timeout := defaultTimeout; TimeBeforeRetry := defaultRetryInterval; IgnoreError := false;
                Sudo := true |};
  resources ← lift (pool_drive_list (pool_matches output));
  mret (file_drives resources).

(** ** Node statistics and the trash can *)

(** The steps that GetNodeStats and GetTrashCanVolumeIds share: run a pxctl
    command inside a context and decode its output *)
Definition pxctl_json (n : Node) (command : string) : M W json :=
  let opts := conn_opts defaultTimeout defaultRetryInterval in
  pxctlPath ← getPxctlPath n;
  _ ← create_context n pxctlPath opts;
  out ← wrap_err (λ e, Errorf ("failed to get pxctl status. cause: " +:+ Error e))
          (RunCommand n (pxctlPath +:+ command) opts);
  data ← wrap_err (λ e, Errorf ("failed to unmarshal pxctl status. cause: " +:+ Error e))
           (lift (Unmarshal out));
  _ ← delete_context n pxctlPath opts;
  mret data.

(** [if p, ok := value[key]; ok { x = int(p.(float64)) }] *)
Definition stat_of (value : list (string * json)) (key : string) : outcome Z :=
  match json_field key value with
  | None => Ok 0
  | Some (JNumber text) => Ok (i64_of_f64 float_outside (ParseFloat text).1)
  | Some _ => Panic "interface conversion: interface {} is not float64"
  end.

Definition GetNodeStats (n : Node) : M W (gmap string (gmap string Z)) :=
  data ← pxctl_json n " sv dump --nodestats -j";
  match data with
  | JObject nodeStats =>
      let value := match json_field "relaxed_reclaim_stats" nodeStats with Some (JObject v) => v | _ => [] end in
      pending ← lift (stat_of value "pending");
      deleted ← lift (stat_of value "deleted");
      skipped ← lift (stat_of value "skipped");
      mret {[Name n := {["deleted" := deleted; "pending" := pending; "skipped" := skipped]}]}
  | _ => panic "interface conversion: interface {} is not map[string]interface {}"
  end.

Fixpoint trash_ids (vols : list string) (l : list json) : outcome (list string) :=
  match l with
  | [] => Ok vols
  | JObject tp :: l' =>
      let str := sprint_json show_json (default JNull (json_field "id" tp)) in
      trash_ids (vols ++ [Trim str " "]) l'
  | _ :: _ => Panic "interface conversion: interface {} is not map[string]interface {}"
  end.

(** [make([]string, 50)] is a slice of fifty empty strings. *)
Definition GetTrashCanVolumeIds (n : Node) : M W (list string) :=
  data ← pxctl_json n " v l --trashcan -j";
  match data with
  | JArray res => lift (trash_ids (replicate 50 "") res)
  | _ => panic "interface conversion: interface {} is not []interface {}"
  end.

(** ** Attached Pure volumes *)

(** The loop over [node.GetNodesByName()] *)
Fixpoint init_counts (nodes : list (string * Node)) (counts : gmap string Z) (ips : gmap string string)
    : gmap string Z * gmap string string :=
  match nodes with
  | [] => (counts, ips)
  | (key, n) :: nodes' =>
      init_counts nodes' (<[key := 0]> counts) (fold_left (λ m ip, <[ip := Name n]> m) (Addresses n) ips)
  end.

Fixpoint count_attached (ips : gmap string string) (ids : list string) (counts : gmap string Z)
    : M W (gmap string Z) :=
  match ids with
  | [] => mret counts
  | volumeID :: ids' =>
      resp ← vol_Inspect volumeID;
      pxVol ← lift (deref resp);
      let counts' :=
        if decide (Vol_State pxVol = VOLUME_STATE_ATTACHED) then
          match ips !! AttachedOn pxVol with
          | Some nodeName => <[nodeName := default 0 (counts !! nodeName) + 1]> counts
          | None => counts
          end
        else counts in
      count_attached ips ids' counts'
  end.

Definition GetNodePureVolumeAttachedCountMap : M W (gmap string Z) :=
  _ ← refresh_client;
  all ← range_nodes;
  byName ← range_map Node (Registry.index_by Name all);
  let '(counts, ips) := init_counts byName ∅ ∅ in
  ids ← wrap_err (λ e, Errorf ("Failed to get pure volume list, Err: " +:+ Error e))
          (vol_EnumerateWithLabels pureKey pureBlockValue);
  count_attached ips ids counts.

(** ** Adding drives *)

Definition isDiskPartitioned (n : Node) (drivePath : string) : M W bool :=
  out ← wrap_err (λ e, Errorf ("error checking drive partition for [" +:+ drivePath +:+ "] in node [" +:+
           Name n +:+ "], Err: " +:+ Error e))
        (RunCommandWithNoRetry n ("ls -l " +:+ drivePath +:+ "*") crash_opts);
  mret (bool_decide (1 < length (Split (TrimSpace out) newline))%nat).

(** [driveAddFlag] of addDrive *)
Definition drive_add_flag (drivePath : string) (poolID : Z) : string :=
  if Contains drivePath "size" then
    let flag := "-s " +:+ drivePath in
    if decide (poolID ≠ -1) then flag +:+ " -p " +:+ Itoa poolID
    else if Contains drivePath "--metadata" || Contains drivePath "--journal" then flag
    else flag +:+ " --newpool"
  else "-d " +:+ drivePath.

Definition drive_added (st : statusJSON) : bool :=
  Contains (Status_ st) driveAddSuccessStatus || Contains (Status_ st) metadataAddSuccessStatus ||
  Contains (Status_ st) journalAddSuccessStatus.

Definition addDrive (n : Node) (drivePath : string) (poolID : Z) : M W unit :=
  pxctl ← getPxctlPath n;
  out ← wrap_err (λ e, Errorf ("error when adding drive [" +:+ drivePath +:+ "] in node [" +:+ Name n +:+
           "] using PXCTL, Err: " +:+ Error e))
        (RunCommandWithNoRetry n
          (pxctl +:+ " -j service drive add " +:+ drive_add_flag drivePath poolID +:+ " -o start") crash_opts);
  match UnmarshalStatus out zero_status with
  | (_, Some e) => throw (Errorf ("failed to unmarshal adding drive, Err: " +:+ Error e))
  | (st, None) =>
      if drive_added st then mret tt
      else throw (Errorf ("failed to add drive [" +:+ drivePath +:+ "] on node [" +:+ Name n +:+
             "], AddDrive Status: " +:+ show_status st))
  end.

Definition AddCloudDrive (n : Node) (deviceSpec : string) (poolID : Z) : M W unit :=
  addDrive n deviceSpec poolID.

(** The closure of waitForAddDriveToComplete; the status is a variable of the
    enclosing function.  A status that is not final is answered without error
    as well ([nil, true, nil]), which the retry engine takes for the end. *)
Definition add_drive_status_task (n : Node) (drivePath : string) : M (W * statusJSON) (task_result unit) :=
  let flag := if Contains drivePath "size" then "-s " +:+ drivePath else "-d " +:+ drivePath in
  pxctl ← up (getPxctlPath n);
  attempt (up (RunCommandWithNoRetry n
      (pxctl +:+ " -j service drive add " +:+ flag +:+ " -o status") crash_opts)) (λ r,
    match r with
    | inr err =>
        if Contains (Error err) driveExitsStatus then mret (Done tt)
        else mret (Stop (Errorf ("failed to add drive status for path [" +:+ drivePath +:+ "] on node [" +:+
               Name n +:+ "] using PXCTL, Err: " +:+ Error err)))
    | inl out =>
        st ← get_local;
        let '(st', err) := UnmarshalStatus out st in
        _ ← put_local st';
        match err with
        | Some e => mret (Retry (Errorf ("failed to unmarshal add drive status, Err: " +:+ Error e)))
        | None =>
            if Contains (Status_ st') "Drive add: Storage rebalance complete" ||
               Contains (Status_ st') "Device already exists"
            then mret (Done tt) else mret (Done tt)
        end
    end).

Definition waitForAddDriveToComplete (n : Node) (drivePath : string) : M W unit :=
  run_local zero_status
    (attempt (DoRetryWithTimeout (add_drive_status_task n drivePath) (3 * Hour) (2 * Minute)) (λ r,
      match r with
      | inl _ => mret tt
      | inr err =>
          st ← get_local;
          throw (Errorf ("failed to  add drive for path [" +:+ drivePath +:+ "] on node [" +:+ Name n +:+
            "], Status: " +:+ show_status st +:+ ", Err: " +:+ Error err))
      end)).

(** The drives AddBlockDrives may use *)
Definition drive_free (drv : BlockDrive) : bool :=
  negb (Contains (Drive_Path drv) "pxd") && bool_decide (MountPoint drv = "") &&
  bool_decide (FSType drv = "") && bool_decide (Drive_Type drv = "disk").

Fixpoint eligible_drives (n : Node) (drives : list BlockDrive) (eligible : gmap string BlockDrive)
    : M W (gmap string BlockDrive) :=
  match drives with
  | [] => mret eligible
  | drv :: drives' =>
      if drive_free drv then
        isPartitioned ← isDiskPartitioned n (Drive_Path drv);
        eligible_drives n drives'
          (if (isPartitioned : bool) then eligible else <[Drive_Path drv := drv]> eligible)
      else eligible_drives n drives' eligible
  end.

Definition add_and_wait (n : Node) (drv : BlockDrive) : M W unit :=
  _ ← addDrive n (Drive_Path drv) (-1);
  waitForAddDriveToComplete n (Drive_Path drv).

Fixpoint add_all (n : Node) (drives : list (string * BlockDrive)) : M W unit :=
  match drives with
  | [] => mret tt
  | (_, drv) :: drives' => _ ← add_and_wait n drv; add_all n drives'
  end.

Fixpoint add_named (n : Node) (eligible : gmap string BlockDrive) (paths : list string) : M W unit :=
  match paths with
  | [] => mret tt
  | drvPath :: paths' =>
      match eligible !! drvPath with
      | Some drv => _ ← add_and_wait n drv; add_named n eligible paths'
      | None => throw (Errorf ("block drive path [" +:+ drvPath +:+
                  "] is not eligible or does not exist to perform drive add"))
      end
  end.

Definition AddBlockDrives (n : Node) (drivePath : list string) : M W unit :=
  blockDrives ← GetBlockDrives n;
  eligible ← eligible_drives n blockDrives ∅;
  if decide (blockDrives = [] ∨ eligible = ∅) then throw (Errorf "no block drives available to add")
  else
    match drivePath with
    | [] => l ← range_map BlockDrive eligible; add_all n l
    | _ => add_named n eligible drivePath
    end.

(** ** Pools *)

Definition ExpandPool (poolUUID : string) (operation : ResizeOperationType) (sz : Z)
    (skipWaitForCleanVolumes : bool) : M W unit :=
  DoRetryWithTimeout
    (attempt (pool_Resize poolUUID sz operation skipWaitForCleanVolumes) (λ r,
      match r with inl _ => mret (Done tt) | inr err => mret (Retry err) end))
    expandStoragePoolTimeout defaultRetryInterval.

Definition ExpandPoolUsingPxctlCmd (n : Node) (poolUUID : string) (operation : ResizeOperationType) (sz : Z)
    (skipWaitForCleanVolumes : bool) : M W unit :=
  let operationString :=
    match operation with
    | RESIZE_TYPE_ADD_DISK => "add-disk"
    | RESIZE_TYPE_RESIZE_DISK => "resize-disk"
    | RESIZE_TYPE_AUTO => "auto"
    end in
  let cmd := "pxctl sv pool expand --uid " +:+ poolUUID +:+ " --size " +:+ Itoa sz +:+ " --operation " +:+
             operationString in
  _ ← RunCommandWithNoRetry n (if skipWaitForCleanVolumes then cmd +:+ " -f" else cmd)
        (conn_opts maintenanceWaitTimeout defaultRetryInterval);
  mret tt.

(** The loop over the label selector, in any order: all labels have to agree. *)
Definition selector_matches (labelSelector : list (string * string)) (pool : ApiStoragePool) : bool :=
  forallb (λ kv, bool_decide (kv.2 = default "" (Pool_Labels pool !! kv.1))) labelSelector.

Fixpoint list_pools_of (labelSelector : list (string * string)) (ids : list string)
    (pools : gmap string ApiStoragePool) : M W (gmap string ApiStoragePool) :=
  match ids with
  | [] => mret pools
  | nodeID :: ids' =>
      resp ← node_Inspect nodeID;
      list_pools_of labelSelector ids'
        (fold_left (λ m pool, if selector_matches labelSelector pool then <[Pool_Uuid pool := pool]> m else m)
           (Pools resp) pools)
  end.

Definition ListStoragePools (labelSelector : gmap string string) : M W (gmap string ApiStoragePool) :=
  ids ← node_Enumerate;
  list_pools_of (map_to_list labelSelector) ids ∅.

Definition GetPoolLabelValue (poolUUID label : string) : M W string :=
  pools ← ListStoragePools ∅;
  l ← range_map ApiStoragePool pools;
  let PropertyMatch :=
    match find_first (λ kv, bool_decide (Pool_Uuid kv.2 = poolUUID)) l with
    | Some (_, pool) => default "" (Pool_Labels pool !! label)
    | None => ""
    end in
  if decide (PropertyMatch = "")
  then throw (Errorf ("Failed to Get [" +:+ label +:+ "] for PoolUUID [" +:+ poolUUID +:+ "]"))
  else mret PropertyMatch.

Definition UpdatePoolLabels (n : Node) (poolID : string) (labels : gmap string string) : M W unit :=
  l ← range_map string labels;
  let labelsStr := Join ((λ kv, kv.1 +:+ "=" +:+ kv.2) <$> l) "," in
  pxctl ← getPxctlPath n;
  _ ← RunCommandWithNoRetry n (pxctl +:+ " sv pool update -u " +:+ poolID +:+ " --labels=" +:+ labelsStr)
        (conn_opts (2 * Minute) (10 * Second));
  mret tt.

(** The loop of GetPoolsUsedSize *)
Definition used_size_line (st : pool_scan) (l : string) : outcome pool_scan :=
  let line := Trim (Trim l " ") "," in
  let value := λ line, field ← after_colon line; Ok (remove_char "034" field) in
  poolId ← (if Contains line "uuid" then value line else Ok (scan_uuid st));
  usedSize ← (if Contains line "Used" then value line else Ok (scan_value st));
  if bool_decide (poolId ≠ "") && bool_decide (usedSize ≠ "")
  then Ok {| scan_uuid := ""; scan_value := ""; scan_data := <[poolId := usedSize]> (scan_data st) |}
  else Ok {| scan_uuid := poolId; scan_value := usedSize; scan_data := scan_data st |}.

Fixpoint used_size_lines (st : pool_scan) (ls : list string) : outcome pool_scan :=
  match ls with
  | [] => Ok st
  | l :: ls' => st' ← used_size_line st l; used_size_lines st' ls'
  end.

Definition GetPoolsUsedSize (n : Node) : M W (gmap string string) :=
  pxctl ← getPxctlPath n;
  let cmd := pxctl +:+ " sv pool show -j | grep -e uuid -e '" +:+ String "034" "Used" +:+ String "034" "'" in
  out ← DoRetryWithTimeout
          (attempt (RunCommandWithNoRetry n cmd (conn_opts (2 * Minute) (10 * Second))) (λ r,
            match r with inl out => mret (Done out) | inr err => mret (Retry err) end))
          (5 * Minute) (10 * Second);
  st ← lift (used_size_lines scan_start (Split out newline));
  mret (scan_data st).

Definition GetStorageSpec : M W string :=
  wrap_err (λ e, Errorf ("Error getting StorageSpec resource, Err: " +:+ Error e)) sdk_JournalDev.

Fixpoint connect_each (addrs : list string) : M W unit :=
  match addrs with
  | [] => mret tt
  | addr :: addrs' => attempt (testAndSetEndpointUsingNodeIP addr) (λ _, connect_each addrs')
  end.

Definition GetJournalDevicePath (n : Node) : M W string :=
  _ ← connect_each (Addresses n);
  DoRetryWithTimeout
    (attempt GetStorageSpec (λ r,
      match r with
      | inr err => mret (Retry err)
      | inl dev => if decide (dev = "auto") then mret (Retry (Errorf "journalDev not yet updated"))
                   else mret (Done dev)
      end)) upgradeTimeout defaultRetryInterval.

Definition IsIOsInProgressForTheVolume (n : Node) (volumeNameOrID : string) : M W bool :=
  pxctl ← getPxctlPath n;
  out ← RunCommandWithNoRetry n (pxctl +:+ " v i " +:+ volumeNameOrID +:+ "| grep -e 'IOs in progress'")
          (conn_opts (2 * Minute) (10 * Second));
  data ← lift (index (Split (Trim out " ") ":") 1);
  val ← lift (Atoi (Trim (Trim data (String newline "")) " "));
  mret (bool_decide (0 < val)).

(** ** Versions and maintenance *)

Definition IsNodeInMaintenance (n : Node) : M W bool :=
  run_local n (
    stNode ← GetDriverNode depth;
    mret (bool_decide (NodeStatus stNode = STATUS_MAINTENANCE))).

Definition IsNodeOutOfMaintenance (n : Node) : M W bool :=
  run_local n (
    stNode ← GetDriverNode depth;
    mret (bool_decide (NodeStatus stNode = STATUS_OK))).

Definition GetStorageDevices (n : Node) : M W (list string) :=
  run_local n (
    pxNode ← GetDriverNode depth;
    l ← up (range_map StorageResource (Disks pxNode));
    mret ((λ kv, Disk_Path kv.2) <$> l)).

Definition version_task : M (W * Node) (task_result string) :=
  attempt (GetDriverNode depth) (λ r,
    match r with
    | inr err => mret (Stop err)
    | inl pxNode =>
        if decide (NodeStatus pxNode = STATUS_OK)
        then mret (Done (default "" (NodeLabels pxNode !! pxVersionLabel)))
        else mret (Retry (Errorf ("px cluster is usable but node status is not ok. Expected: " +:+
               Status_String STATUS_OK +:+ " Actual: " +:+ Status_String (NodeStatus pxNode))))
    end).

Definition getPxVersionOnNode (n : Node) : M W string :=
  run_local n (
    wrap_err (λ _, Errorf "Timeout after 3m0s waiting to get PX Version")
      (DoRetryWithTimeout version_task getNodeTimeout getNodeRetryInterval)).

Definition GetDriverVersionOnNode (n : Node) : M W string :=
  wrap_err (λ e, Errorf ("failed to get PX version on node [" +:+ Name n +:+ "], Err: " +:+ Error e))
    (getPxVersionOnNode n).

Definition GetDriverVersion : M W string :=
  nodeList ← registry_GetStorageDriverNodes;
  match nodeList with
  | [] => throw (Errorf "failed to find any PX nodes")
  | pxNode :: _ => GetDriverVersionOnNode pxNode
  end.

(** The first three octets of a version: [^(\d+\.\d+\.\d+).*] *)
Definition take_number (s : string) : option (string * string) :=
  (fix go (acc s : string) :=
     match s with
     | String c s' => if is_digit c then go (acc +:+ String c "") s'
                      else if decide (acc = "") then None else Some (acc, s)
     | EmptyString => if decide (acc = "") then None else Some (acc, "")
     end) "" s.

Definition three_octets (tag : string) : option string :=
  '(a, r1) ← take_number tag;
  match r1 with
  | String "." r1' =>
      '(b, r2) ← take_number r1';
      match r2 with
      | String "." r2' => '(c, _) ← take_number r2'; Some (a +:+ "." +:+ b +:+ "." +:+ c)
      | _ => None
      end
  | _ => None
  end.

Definition upgrade_task (n : Node) (tag : string) : M W (task_result unit) :=
  match three_octets tag with
  | None => mret (Stop (PxErr PxErrFailedToUpgradeVolumeDriver tag
              ("failed to parse first 3 octets of PX version from new version tag [" +:+ tag +:+ "]")))
  | Some octets =>
      attempt (getPxVersionOnNode n) (λ r,
        match r with
        | inr err => mret (Retry (ErrFailedToWaitForPx n
            ("failed to get PX version from node [" +:+ Name n +:+ "], Err: " +:+ Error err)))
        | inl pxVersion =>
            if HasPrefix pxVersion octets then mret (Done tt)
            else mret (Retry (PxErr PxErrFailedToUpgradeVolumeDriver tag
              ("PX version on node [" +:+ VolDriverNodeID n +:+ "] is still [" +:+ pxVersion +:+
               "]. It was expected to begin with [" +:+ octets +:+ "]")))
        end)
  end.

Definition WaitForUpgrade (n : Node) (tag : string) : M W unit :=
  DoRetryWithTimeout (upgrade_task n tag) upgradeTimeout upgradeRetryInterval.

(** ** What the operations guarantee *)

(** [waitForAddDriveToComplete] does not wait: as soon as pxctl answers with a
    status that can be decoded it returns without error, whatever the status
    says and without another look. *)
Theorem waitForAddDriveToComplete_first_status n drivePath w pxctl w1 out w2 st :
  getPxctlPath n w = (Ok pxctl, w1) →
  RunCommandWithNoRetry n (pxctl +:+ " -j service drive add " +:+
    (if Contains drivePath "size" then "-s " +:+ drivePath else "-d " +:+ drivePath) +:+ " -o status")
    crash_opts w1 = (Ok out, w2) →
  UnmarshalStatus out zero_status = (st, None) →
  waitForAddDriveToComplete n drivePath w = (Ok tt, w2).
Proof.
  intros Hpath Hrun Hst. unfold waitForAddDriveToComplete, run_local, attempt.
  rewrite (DoRetryWithTimeout_first _ _ _ (w, zero_status) tt (w2, st)); [done|done|].
  unfold add_drive_status_task, mbind, M_bind. rewrite up_eq, Hpath. cbn [fst snd].
  unfold attempt. rewrite up_eq, Hrun. cbn [fst snd]. unfold get_local, put_local. cbn [fst snd]. rewrite Hst.
  by destruct (_ || _).
Qed.

(** The volume ids of the trash can come after fifty empty ones. *)
Lemma trash_ids_prefix vols l ids : trash_ids vols l = Ok ids → ∃ l', ids = vols ++ l' ∧ length l' = length l.
Proof.
  revert vols. induction l as [|j l IH]; intros vols Hl; simpl in Hl.
  - simplify_eq. exists []. by rewrite app_nil_r.
  - destruct j; try done. apply IH in Hl as (l' & -> & Hlen). rewrite <- app_assoc. eexists. split; [done|].
    simpl. by rewrite Hlen.
Qed.

(** The trash can of a node always seems to hold fifty volumes without id:
    the answer of [GetTrashCanVolumeIds] starts with fifty empty strings. *)
Theorem GetTrashCanVolumeIds_shape n w ids w' :
  GetTrashCanVolumeIds n w = (Ok ids, w') →
  ∃ res l, ids = replicate 50 "" ++ l ∧ length l = length (A := json) res ∧
    pxctl_json n " v l --trashcan -j" w = (Ok (JArray res), w').
Proof.
  intros Hg. apply bind_Ok_inv in Hg as (data & w1 & Hd & Hg). destruct data; try done.
  unfold lift in Hg. injection Hg as Hids <-. apply trash_ids_prefix in Hids as (l' & -> & Hlen). eauto 6.
Qed.

(** *** Adding drives *)

Lemma eligible_drives_sound n drives eligible w eligible' w' :
  eligible_drives n drives eligible w = (Ok eligible', w') →
  ∀ p drv, eligible' !! p = Some drv →
    eligible !! p = Some drv ∨ (drv ∈ drives ∧ drive_free drv = true ∧ Drive_Path drv = p).
Proof.
  revert eligible w. induction drives as [|d drives IH]; intros eligible w He p drv Hp; simpl in He.
  { unfold mret, M_ret in He. simplify_eq. by left. }
  destruct (drive_free d) eqn:Hf.
  - apply bind_Ok_inv in He as (b & w1 & _ & He). destruct (IH _ _ He p drv Hp) as [Hin|(? & ? & ?)].
    + destruct b; [by left|]. apply lookup_insert_Some in Hin as [[<- <-]|[_ ?]]; [|by left].
      right. split_and!; [by left|done..].
    + right. split_and!; [by right|done..].
  - destruct (IH _ _ He p drv Hp) as [?|(? & ? & ?)]; [by left|]. right. split_and!; [by right|done..].
Qed.

Lemma add_named_success n eligible paths w w' :
  add_named n eligible paths w = (Ok tt, w') →
  ∀ p, p ∈ paths → ∃ drv w1 w2, eligible !! p = Some drv ∧ add_and_wait n drv w1 = (Ok tt, w2).
Proof.
  revert w. induction paths as [|q paths IH]; intros w Ha p Hp; [by apply elem_of_nil in Hp|]. simpl in Ha.
  destruct (eligible !! q) as [drv|] eqn:E; [|done].
  apply bind_Ok_inv in Ha as ([] & w1 & Hd & Ha). apply elem_of_cons in Hp as [->|Hp]; [|by eapply IH].
  by exists drv, w, w1.
Qed.

(** When [AddBlockDrives] succeeds for a list of paths, each of them is the
    path of a drive of the node that is a disk without file system and mount
    point and no PX device, and pxctl reported that it was added. *)
Theorem AddBlockDrives_success n drivePath w w' :
  AddBlockDrives n drivePath w = (Ok tt, w') → drivePath ≠ [] →
  ∃ drives, (GetBlockDrives n w).1 = Ok drives ∧
    ∀ p, p ∈ drivePath → ∃ drv, drv ∈ drives ∧ Drive_Path drv = p ∧ drive_free drv = true ∧
      ∃ w1 w2, addDrive n p (-1) w1 = (Ok tt, w2).
Proof.
  intros Ha Hne. apply bind_Ok_inv in Ha as (drives & w1 & Hd & Ha). exists drives. rewrite Hd. split; [done|].
  apply bind_Ok_inv in Ha as (eligible & w2 & He & Ha). case_decide; [done|].
  destruct drivePath as [|q l]; [done|]. intros p Hp.
  destruct (add_named_success _ _ _ _ _ Ha p Hp) as (drv & w3 & w4 & Hin & Hadd).
  destruct (eligible_drives_sound _ _ _ _ _ _ He p drv Hin) as [Hempty|(? & ? & <-)]; [done|].
  exists drv. split_and!; [done..|]. apply bind_Ok_inv in Hadd as ([] & w5 & Hadd & _). eauto.
Qed.

(** *** Files of drives *)

(** The drives read from pxctl status are filed under their own pool, none
    is lost and none is invented. *)
Theorem file_drives_spec resources p :
  default [] (file_drives resources !! p) = keep (λ r, bool_decide (PoolId r = p)) resources.
Proof.
  unfold file_drives.
  assert (∀ m, default [] (fold_left file_drive resources m !! p) =
    default [] (m !! p) ++ keep (λ r, bool_decide (PoolId r = p)) resources) as Hgen.
  { induction resources as [|r resources IH]; intros m; simpl; [by rewrite app_nil_r|].
    rewrite IH. unfold file_drive. case_bool_decide as Hp.
    - subst p. rewrite lookup_insert_eq. simpl. by rewrite <- app_assoc.
    - by rewrite lookup_insert_ne. }
  rewrite Hgen. by rewrite lookup_empty.
Qed.

(** *** Attached volumes *)

(** Whether a volume counts for the node [name] *)
Definition attached_at (ips : gmap string string) (name : string) (v : ApiVolume) : bool :=
  bool_decide (Vol_State v = VOLUME_STATE_ATTACHED) && bool_decide (ips !! AttachedOn v = Some name).

Lemma count_attached_spec ips ids counts w counts' w' :
  count_attached ips ids counts w = (Ok counts', w') →
  ∃ vols, Forall2 (λ id v, ∃ w1 w2, vol_Inspect id w1 = (Ok (Some v), w2)) ids vols ∧
    ∀ name, default 0 (counts' !! name) =
      default 0 (counts !! name) + Z.of_nat (length (keep (attached_at ips name) vols)).
Proof.
  revert counts w. induction ids as [|id ids IH]; intros counts w Hc; simpl in Hc.
  { unfold mret, M_ret in Hc. simplify_eq. exists []. split; [constructor|]. intros name. simpl. lia. }
  apply bind_Ok_inv in Hc as (resp & w1 & Hi & Hc). apply bind_Ok_inv in Hc as (v & w2 & Hv & Hc).
  destruct resp as [v'|]; [|done]. unfold lift, deref in Hv. simplify_eq.
  apply IH in Hc as (vols & Hvols & Hcount). exists (v :: vols). split; [constructor; eauto|].
  intros name. rewrite Hcount. clear Hcount IH. cbn [keep]. unfold attached_at at 2.
  case_decide as Hst; [rewrite (bool_decide_eq_true_2 _ Hst)|by rewrite (bool_decide_eq_false_2 _ Hst)].
  destruct (ips !! AttachedOn v) as [nm|] eqn:E; simpl; [|done].
  case_bool_decide as Hn; simpl.
  - injection Hn as ->. rewrite lookup_insert_eq. simpl. lia.
  - rewrite lookup_insert_ne by congruence. done.
Qed.

(** Each address in the table of addresses is one of a node of that name. *)
Lemma init_counts_spec nodes counts ips counts' ips' :
  init_counts nodes counts ips = (counts', ips') →
  (∀ name, default 0 (counts !! name) = 0) →
  (∀ name, default 0 (counts' !! name) = 0) ∧
  ∀ ip name, ips' !! ip = Some name →
    ips !! ip = Some name ∨ ∃ key n, (key, n) ∈ nodes ∧ Name n = name ∧ ip ∈ Addresses n.
Proof.
  assert (∀ addrs nm (m : gmap string string) ip name,
    fold_left (λ m ip, <[ip := nm]> m) addrs m !! ip = Some name →
    m !! ip = Some name ∨ (nm = name ∧ ip ∈ addrs)) as Hfold.
  { intros addrs nm. induction addrs as [|a addrs IHa]; intros m ip name Hf; [by left|].
    destruct (IHa _ _ _ Hf) as [Hin|[-> ?]]; [|by right; split; [|right]].
    apply lookup_insert_Some in Hin as [[-> ->]|[_ ?]]; [right; split; [done|left]|by left]. }
  revert counts ips. induction nodes as [|[key n] nodes IH]; intros counts ips Hi Hz; simpl in Hi.
  { simplify_eq. split; [done|]. by left. }
  apply IH in Hi as [Hz' Hip].
  2:{ intros name. destruct (decide (key = name)) as [->|Hne]; [by rewrite lookup_insert_eq|].
      rewrite lookup_insert_ne by done. apply Hz. }
  split; [done|]. intros ip name Hl. destruct (Hip ip name Hl) as [Hf|(k' & n' & Hin & ? & ?)].
  - apply Hfold in Hf as [?|[? ?]]; [by left|]. right. exists key, n. split; [by left|done].
  - right. exists k', n'. split; [by right|done].
Qed.

(** [GetNodePureVolumeAttachedCountMap] counts: each volume the cluster lists
    was inspected once, and the number of a node is the number of the attached
    ones whose attach address belongs to a node of that name. *)
Theorem GetNodePureVolumeAttachedCountMap_counts w counts w' :
  GetNodePureVolumeAttachedCountMap w = (Ok counts, w') →
  ∃ ids vols ips nodes,
    Forall2 (λ id v, ∃ w1 w2, vol_Inspect id w1 = (Ok (Some v), w2)) ids vols ∧
    (∃ w1 w2, vol_EnumerateWithLabels pureKey pureBlockValue w1 = (Ok ids, w2)) ∧
    (∃ w1 w2, (all ← range_nodes; range_map Node (Registry.index_by Name all)) w1 = (Ok nodes, w2)) ∧
    (∀ ip name, ips !! ip = Some name → ∃ key n, (key, n) ∈ nodes ∧ Name n = name ∧ ip ∈ Addresses n) ∧
    ∀ name, default 0 (counts !! name) = Z.of_nat (length (keep (attached_at ips name) vols)).
Proof.
  intros Hg. apply bind_Ok_inv in Hg as ([] & w1 & _ & Hg).
  apply bind_Ok_inv in Hg as (all & w2 & Hall & Hg). apply bind_Ok_inv in Hg as (nodes & w3 & Hr & Hg).
  destruct (init_counts nodes ∅ ∅) as [c0 ips] eqn:Hi.
  apply init_counts_spec in Hi as [Hz Hips]; [|done].
  apply bind_Ok_inv in Hg as (ids & w4 & He & Hg). apply wrap_err_Ok_inv in He.
  apply count_attached_spec in Hg as (vols & Hvols & Hcount).
  exists ids, vols, ips, nodes. split_and!; [done|eauto| | |].
  - exists w1, w3. by rewrite (bind_Ok _ _ _ _ _ Hall).
  - intros ip name Hl. by destruct (Hips ip name Hl).
  - intros name. by rewrite Hcount, Hz.
Qed.

(** *** Waiting for an upgrade *)

(** A successful [WaitForUpgrade] read from the node a version that begins
    with the first three numbers of the tag. *)
Theorem WaitForUpgrade_success n tag w w' :
  WaitForUpgrade n tag w = (Ok tt, w') →
  ∃ octets version rest w1, three_octets tag = Some octets ∧
    getPxVersionOnNode n w1 = (Ok version, w') ∧ version = octets +:+ rest.
Proof.
  intros Hw. apply DoRetryWithTimeout_Ok_inv in Hw as (w1 & Ht). unfold upgrade_task in Ht.
  destruct (three_octets tag) as [octets|]; [|done]. unfold attempt in Ht.
  destruct (getPxVersionOnNode n w1) as [[version|e|s|] w2] eqn:E; try done.
  destruct (HasPrefix version octets) eqn:Hp; [|done]. apply HasPrefix_spec in Hp as [rest ->].
  unfold mret, M_ret in Ht. simplify_eq. eauto 8.
Qed.

(** *** Used sizes of pools *)

(** A value of the JSON report: a field without a comma at its end that is not
    empty without its quotes *)
Definition value_ok (other : string) (v : string) : Prop :=
  field_ok other v ∧ TrimRight v "," = v ∧ remove_char "034" v ≠ "".


(** One line that survives the grep *)
Definition json_line (key v : string) : string := "    " +:+ quoted key +:+ ": " +:+ v +:+ ",".

(** What pxctl reports of a pool: its uuid and the used size, as printed *)
Definition used_lines (r : string * string) : list string := [json_line "uuid" r.1; json_line "Used" r.2].

Definition used_ok (r : string * string) : Prop := value_ok "Used" r.1 ∧ value_ok "uuid" r.2.

Lemma TrimRight_comma s : TrimRight s "," = s → s ≠ "" → TrimRight (s +:+ ",") "," = s.
Proof.
  induction s as [|c s IH]; intros Ht Hne; [done|].
  destruct s as [|d s]; [simpl in *; by destruct (Ascii.eqb c "," || false)|].
  assert (TrimRight (String d s) "," = String d s) as Hd.
  { revert Ht. generalize (String d s) as t. intros t. cbn [TrimRight].
    destruct (TrimRight t ","); [by destruct (in_set c ","); intros [=]|congruence]. }
  specialize (IH Hd ltac:(done)).
  change (String c (String d s) +:+ ",") with (String c (String d s +:+ ",")).
  generalize dependent (String d s +:+ ","). intros t Ht'. cbn [TrimRight]. by rewrite Ht'.
Qed.

(** What both trims leave of a line *)
Lemma json_line_trim key v other :
  value_ok other v → Trim (Trim (json_line key v) " ") "," = quoted key +:+ ": " +:+ v.
Proof.
  intros ((Hne & _) & Hc & _). unfold json_line.
  assert (Trim ("    " +:+ quoted key +:+ ": " +:+ v +:+ ",") " " = quoted key +:+ ": " +:+ v +:+ ",") as ->.
  { unfold Trim. change (TrimLeft _ " ") with (quoted key +:+ ": " +:+ v +:+ ",").
    rewrite <- !app_assoc_s. by apply TrimRight_app. }
  unfold Trim. change (TrimLeft _ ",") with (quoted key +:+ ": " +:+ v +:+ ",").
  rewrite <- !app_assoc_s. apply (TrimRight_comma ((quoted key +:+ ": ") +:+ v)).
  - by apply TrimRight_app.
  - by rewrite !app_eq_empty; intros [[? _] _].
Qed.

Lemma json_line_value key v other :
  free_of ":" (quoted key) = true → value_ok other v →
  (field ← after_colon (quoted key +:+ ": " +:+ v); Ok (remove_char "034" field)) = Ok (remove_char "034" v).
Proof.
  intros Hk ((_ & Htl & Htr & Hc & _) & _). unfold after_colon, Split.
  simpl (": " +:+ v). rewrite split_loop_app by done. unfold Split. rewrite split_loop_free by done.
  unfold index. simpl. unfold mbind, outcome_bind. unfold Trim. simpl. by rewrite Htl, Htr.
Qed.

Lemma Contains_json_line key v sub :
  free_of ":" sub = true → free_of " " sub = true → sub ≠ "" →
  Contains (quoted key +:+ ": " +:+ v) sub = Contains (quoted key) sub || Contains v sub.
Proof.
  intros Hc Hb Hne. change (": " +:+ v) with (String ":" ("" +:+ String " " v)).
  rewrite !Contains_around by done. destruct sub; [done|]. done.
Qed.

Lemma used_uuid_line u m :
  value_ok "Used" u →
  used_size_line {| scan_uuid := ""; scan_value := ""; scan_data := m |} (json_line "uuid" u) =
    Ok {| scan_uuid := remove_char "034" u; scan_value := ""; scan_data := m |}.
Proof.
  intros Hu. unfold used_size_line. cbv zeta. rewrite (json_line_trim _ _ _ Hu), !Contains_json_line by done.
  pose proof Hu as ((_ & _ & _ & _ & _ & Hu0) & _). rewrite Hu0.
  change (Contains (quoted "uuid") "uuid") with true. change (Contains (quoted "uuid") "Used") with false.
  cbn [orb]. rewrite (json_line_value "uuid" _ _ eq_refl Hu). unfold mbind, outcome_bind. cbn [scan_value].
  by rewrite (bool_decide_eq_false_2 ("" ≠ "")), andb_false_r by (by intros []).
Qed.

Lemma used_value_line id v m :
  id ≠ "" → value_ok "uuid" v →
  used_size_line {| scan_uuid := id; scan_value := ""; scan_data := m |} (json_line "Used" v) =
    Ok {| scan_uuid := ""; scan_value := ""; scan_data := <[id := remove_char "034" v]> m |}.
Proof.
  intros Hid Hv. unfold used_size_line. cbv zeta. rewrite (json_line_trim _ _ _ Hv), !Contains_json_line by done.
  pose proof Hv as ((_ & _ & _ & _ & _ & Hv0) & _ & Hne). rewrite Hv0.
  change (Contains (quoted "Used") "uuid") with false. change (Contains (quoted "Used") "Used") with true.
  cbn [orb]. rewrite (json_line_value "Used" _ _ eq_refl Hv). unfold mbind, outcome_bind. cbn [scan_uuid].
  by rewrite !bool_decide_eq_true_2.
Qed.

Lemma used_size_report r ls m :
  used_ok r →
  used_size_lines {| scan_uuid := ""; scan_value := ""; scan_data := m |} (used_lines r ++ ls) =
  used_size_lines {| scan_uuid := ""; scan_value := "";
    scan_data := <[remove_char "034" r.1 := remove_char "034" r.2]> m |} ls.
Proof.
  intros [Hu Hs]. unfold used_lines. cbn [app used_size_lines]. rewrite used_uuid_line by done.
  unfold mbind, outcome_bind. rewrite used_value_line by (done || apply Hu). done.
Qed.

Lemma used_size_reports rs m :
  Forall used_ok rs →
  used_size_lines {| scan_uuid := ""; scan_value := ""; scan_data := m |} (concat (used_lines <$> rs)) =
  Ok {| scan_uuid := ""; scan_value := "";
        scan_data := fold_left (λ m r, <[remove_char "034" r.1 := remove_char "034" r.2]> m) rs m |}.
Proof.
  intros Hrs. revert m. induction Hrs as [|r rs Hr _ IH]; intros m; [done|].
  rewrite fmap_cons. cbn [concat]. by rewrite used_size_report, IH.
Qed.

(** [GetPoolsUsedSize] reads back the JSON report of pxctl: for every list of
    pools printed as a line with the uuid and a line with the used size, the map
    sends each uuid to the size of the last pool with it, both without quotes. *)
Theorem GetPoolsUsedSize_reads n rs w w1 w2 path :
  rs ≠ [] → Forall used_ok rs →
  getPxctlPath n w = (Ok path, w1) →
  RunCommandWithNoRetry n
    (path +:+ " sv pool show -j | grep -e uuid -e '" +:+ String "034" "Used" +:+ String "034" "'")
    (conn_opts (2 * Minute) (10 * Second)) w1 =
    (Ok (Join (concat (used_lines <$> rs)) (String newline "")), w2) →
  GetPoolsUsedSize n w =
    (Ok (fold_left (λ m r, <[remove_char "034" r.1 := remove_char "034" r.2]> m) rs ∅), w2).
Proof.
  intros Hne Hrs Hp Hr. unfold GetPoolsUsedSize. rewrite (bind_Ok _ _ _ _ _ Hp).
  erewrite bind_Ok; [|apply DoRetryWithTimeout_first; [done|unfold attempt; by rewrite Hr]].
  rewrite Split_Join.
  - unfold lift, mbind, M_bind. unfold scan_start. by rewrite used_size_reports.
  - by destruct rs.
  - apply Forall_concat, Forall_fmap. eapply Forall_impl; [exact Hrs|].
    intros r [((_ & _ & _ & _ & Hu & _) & _) ((_ & _ & _ & _ & Hs & _) & _)].
    unfold compose, used_lines, json_line. repeat constructor; by rewrite !free_of_app, ?Hu, ?Hs.
Qed.
End drives.
