(* ===== verification/PxCluster.v ===== *)
(** drivers/volume/portworx/portworx.go: the cluster as a whole - cloud
    snapshots, mount options, diagnostics, licences, cluster options, alerts,
    cluster pairs and defragmentation - and the listing of S3 objects of
    pkg/s3utils/s3utils.go. *)

From Stdlib Require Import Ascii.
From stdpp Require Import sorting.
From S2P Require Import Prelude GoStrings Errors Effects GoJson Strconv Task OpenStorageApi NodeRegistry PxDriver PxNodeOps PxVolume PureDevices PxDrives.

(** ** Data *)

(** [DiagRequestConfig] and [DiagOps] (drivers/volume/common.go): the fields the
    driver reads or sets; the others are passed on unread. *)
Record DiagRequestConfig := {
  OutputFile : string;
  Profile : bool;
  Live : bool;
  Diag_Token : string;
}.

Record DiagOps := {
  Diag_Validate : bool;
  Async : bool;
  PxStopped : bool;
  PxDir : string;
}.

Inductive Job_State : Type :=
  | Job_UNSPECIFIED_STATE | Job_PENDING | Job_RUNNING | Job_DONE | Job_PAUSED | Job_CANCELLED | Job_FAILED.

#[export] Instance Job_State_eq_dec : EqDecision Job_State.
Proof. solve_decision. Defined.

Inductive Sharedv4FailoverStrategy : Type :=
  | Sharedv4_UNSPECIFIED | Sharedv4_AGGRESSIVE | Sharedv4_NORMAL.

Definition Sharedv4FailoverStrategy_String (s : Sharedv4FailoverStrategy) : string :=
  match s with
  | Sharedv4_UNSPECIFIED => "UNSPECIFIED"
  | Sharedv4_AGGRESSIVE => "AGGRESSIVE"
  | Sharedv4_NORMAL => "NORMAL"
  end.

(** [DefragPoolStatus], [DefragNodeStatus] and [SdkGetDefragNodeStatusResponse] *)
Record DefragPoolStatus := { Pool_Running : bool; LastSuccess : bool }.
Record DefragNodeStatus := { PoolStatus : gmap string DefragPoolStatus; RunningSchedule : string }.
Record DefragNodeResponse := { Resp_NodeStatus : option DefragNodeStatus }.

(** A schedule as [Enumerate] and [Inspect] return it *)
Record DefragSchedule := { Schedule_Id : string; StartTime : string; MaxDurationMinutes : Z }.
Record DefragJob := { Job_MaxDurationMinutes : Z }.

(** [timestamp.Timestamp] *)
Record Timestamp := { Seconds : Z; Nanos : Z }.

(** The query of an alert: its resource type and one option *)
Inductive AlertOption : Type :=
  | MinSeverityType (severity : Z)
  | TimeSpan (start_time end_time : Timestamp).
Record AlertQuery := { ResourceType : Z; Query_Opt : AlertOption }.

(** The snapshot of a [VolumeSnapshotData] *)
Record PortworxSnapshot := { SnapshotID : string; SnapshotType : string }.

(** [s3utils.Object] *)
Record S3Object := { S3_Key : string; S3_Size : Z }.

(** The status of a licence, [LicenseSummary] *)
Record LicenseStatus := { Sku : string; Conditions : list string }.
Record LicenseSummary := { SKU : string; Features : list string; LicenesConditionMsg : string }.

(** The services that only these functions call.  The calls that end in [As]
    carry a token; [node_EnumerateAt] and [pair_...At] go to the endpoint they
    are given.  [DiagsFile] is the field of the driver of that name, [Getenv]
    the environment, and [local_hour] the calendar: year, month, day and hour
    of an instant in the local time zone. *)
Class ClusterServices (W : Type) := {
  DiagsFile : W → string;
  set_DiagsFile : string → W → W;
  Getenv : string → W → string;
  local_hour : Z → Z * Z * Z * Z;
  show_node : Node → string;
  cs_EnumerateAs : string → string → M W (list string);
  cs_DeleteAllAs : string → string → M W unit;
  cs_CreateAs : string → string → M W unit;
  cs_Status : M W (gmap string (string * string));
  vol_StatsAs : string → string → M W (option Z);
  node_EnumerateAt : string → M W (list string);
  pair_EnumerateAt : string → string → M W unit;
  pair_GetTokenAt : string → string → M W (option string);
  GetRemotePXNodes : string → M W (list Node);
  alerts_EnumerateWithFilters : AlertQuery → M W Z;
  alerts_Recv : Z → M W (list string);
  diags_Collect : string → bool → bool → string → M W (option string);
  job_GetStatus : string → M W Job_State;
  diags_Post : string → DiagRequestConfig → M W unit;
  license_Status : M W (option LicenseStatus);
  feature_Enumerate : M W (list string);
  GetCRD : string → M W unit;
  defrag_CreateSchedule : string → DefragJob → M W string;
  defrag_GetNodeStatus : string → M W DefragNodeResponse;
  defrag_EnumerateNodeStatus : M W (gmap string DefragNodeResponse);
  defrag_CleanUpSchedules : M W unit;
  schedule_Delete : string → string → M W unit;
  schedule_Enumerate : string → M W (list DefragSchedule);
  schedule_Inspect : string → string → M W DefragSchedule;
  s3_ListObjects : string → string → string → string → bool → string → string → M W (list S3Object);
}.

Definition pxServiceLocalEndpoint : string := "portworx-service.kube-system.svc.cluster.local".
Definition pxDiagPath : string := "/remotediags".
Definition clusterUUIDFile : string := "cluster_uuid".
Definition DefragJobType : string := "DEFRAG".
Definition PortworxSnapshotTypeCloud : string := "cloud".
Definition RESOURCE_TYPE_VOLUME : Z := 1.
Definition sdkDiagCollectionTimeout : Z := 30 * Minute.
Definition sdkDiagCollectionRetryInterval : Z := 10 * Second.
Definition validateDiagsOnS3RetryTimeout : Z := 60 * Minute.
Definition validateDiagsOnS3RetryInterval : Z := 30 * Second.
Definition skinnySnapRetryInterval : Z := 5 * Second.
Definition defaulDefragTriggerInterval : Z := 15 * Minute.

(** [s[strings.LastIndex(s, /)+1:]]: what follows the last slash *)
Definition base_name (s : string) : string := default s (last (Split s "/")).

(** [int32(z)]: a conversion that keeps the low 32 bits *)
Definition int32 (z : Z) : Z := (z + 2 ^ 31) mod 2 ^ 32 - 2 ^ 31.

(** Two digits, [%02d] *)
Definition two_digits (z : Z) : string := if decide (0 <= z < 10) then "0" +:+ Itoa z else Itoa z.

(** *** sort.SearchStrings *)

(** The loop of [sort.Search]: the first index in [i..j) for which [f] holds *)
Fixpoint sort_Search (fuel : nat) (f : nat → bool) (i j : nat) : nat :=
  match fuel with
  | O => i
  | S fuel' =>
      if Nat.ltb i j then
        let h := Nat.div2 (i + j) in
        if f h then sort_Search fuel' f i h else sort_Search fuel' f (S h) j
      else i
  end.

(** [sort.SearchStrings(a, x)]; the interval at least halves, so its length
    bounds the number of steps. *)
Definition SearchStrings (a : list string) (x : string) : nat :=
  sort_Search (length a) (λ i, match a !! i with Some s => string_leb x s | None => true end) 0 (length a).

(** [index < len(options) && options[index] == key] *)
Definition wanted (options : list string) (key : string) : bool :=
  match options !! SearchStrings options key with
  | Some s => bool_decide (s = key)
  | None => false
  end.

Section cluster.
Context {W : Type} `{PxWorld W} `{NodeDriver W} `{SchedOps W} `{K8sCore W} `{PxSdk W}.
Context `{VolumeSdk W} `{VolumeEnv W} `{MapOrder W} `{DriveServices W} `{ClusterServices W}.
(** How often [GetDriverNode] may call itself. *)
Context (depth : nat).

(** ** Mount options *)

Definition run_on (volumeNode : option Node) (cmd : string) (h : error → error) : M W string :=
  n ← lift (deref volumeNode);
  wrap_err h (RunCommandWithNoRetry n cmd crash_opts).

Fixpoint check_mount_options (out : string) (mountoption : list string) : M W unit :=
  match mountoption with
  | [] => mret tt
  | m :: mountoption' =>
      if Contains out m then check_mount_options out mountoption'
      else throw (Errorf ("Failed to get " +:+ m +:+ " option in the mount options"))
  end.

Definition ValidatePureFaFbMountOptions (volumeName : string) (mountoption : list string)
    (volumeNode : option Node) : M W unit :=
  out ← run_on volumeNode ("mount | grep " +:+ volumeName)
          (λ _, Errorf ("Failed to get mount response for volume " +:+ volumeName));
  check_mount_options out mountoption.

(** The block size as xfs_info and tune2fs show it *)
Definition xfs_2048 (out : string) : bool := Contains out "bsize=2048".
Definition ext4_2048 (out : string) : bool :=
  existsb (λ b, Contains b "Block size" && Contains b "2048") (Split out newline).

Definition check_block_size (volumeName FStype : string) (volumeNode : option Node) (cmd : string)
    (ok : string → bool) : M W unit :=
  info ← run_on volumeNode cmd
           (λ err, Errorf ("Failed to get bsize for create option for pvc " +:+ volumeName +:+
              ", Err: " +:+ Error err));
  if ok info then mret tt
  else throw (Errorf ("Failed to get " +:+ info +:+ " proper block size in the " +:+ FStype +:+
         " file system, Err: <nil>")).

Definition ValidatePureFaCreateOptions (volumeName FStype : string) (volumeNode : option Node) : M W unit :=
  FSout ← run_on volumeNode ("mount | grep " +:+ volumeName)
            (λ err, Errorf ("Failed to get mount response for volume " +:+ volumeName +:+ ", Err: " +:+
               Error err));
  if negb (Contains FSout FStype)
  then throw (Errorf ("Failed to get " +:+ FStype +:+ " File system, Err: <nil>"))
  else
    mapperOut ← run_on volumeNode ("mount | grep " +:+ volumeName +:+ " | awk '{print $1}'")
      (λ err, Errorf ("Failed to get attached volume for create option for pvc " +:+ volumeName +:+
         ", Err: " +:+ Error err));
    let mapper := remove_char newline mapperOut in
    if decide (FStype = "xfs")
    then check_block_size volumeName FStype volumeNode ("xfs_info " +:+ mapper +:+ " ") xfs_2048
    else if decide (FStype = "ext4")
    then check_block_size volumeName FStype volumeNode ("tune2fs -l " +:+ mapper +:+ " ") ext4_2048
    else mret tt.

Definition UpdateSharedv4FailoverStrategyUsingPxctl (volumeName : string)
    (strategy : Sharedv4FailoverStrategy) : M W unit :=
  nodes ← registry_GetStorageDriverNodes;
  strategyStr ← (match strategy with
                 | Sharedv4_NORMAL => mret "normal"
                 | Sharedv4_AGGRESSIVE => mret "aggressive"
                 | _ => throw (Errorf ("invalid failover strategy: " +:+
                          Sharedv4FailoverStrategy_String strategy))
                 end);
  n ← lift (index nodes 0);
  _ ← wrap_err (λ err, Errorf ("failed to create local snapshot using PXCTL, Err: " +:+ Error err))
        (RunCommandWithNoRetry n (pxctlVolumeUpdate +:+ " " +:+ volumeName +:+
           " --sharedv4_failover_strategy " +:+ strategyStr) crash_opts);
  mret tt.

Definition ValidateCreateGroupSnapshotUsingPxctl : M W unit :=
  _ ← on_first_node "pxctl volume snapshot group"
        (λ err, Errorf ("failed to create groupsnapshot using PXCTL, Err: " +:+ Error err));
  mret tt.

Definition UpdateFBDANFSEndpoint (volumeName newEndpoint : string) : M W unit :=
  nodes ← registry_GetStorageDriverNodes;
  n ← lift (index nodes 0);
  _ ← wrap_err (λ err, Errorf ("failed setting FBDA NFS endpoint for volume [" +:+ volumeName +:+
         "] to [" +:+ newEndpoint +:+ "] from node [" +:+ show_node n +:+ "], Err: " +:+ Error err))
        (RunCommandWithNoRetry n (pxctlVolumeUpdate +:+ " --pure_nfs_endpoint " +:+ newEndpoint +:+ " " +:+
           volumeName) crash_opts);
  mret tt.

(** ** Cloud snapshots *)

Definition GetCloudsnaps (params : gmap string string) : M W (list string) :=
  tok ← getTokenForVolume params;
  _ ← apply_refresh_param params;
  wrap_err (λ err, Errorf ("failed to get cloudsnap, Err: " +:+ Error err)) (cs_EnumerateAs tok "").

Definition GetCloudsnapsOfGivenVolume (sourceVolumeID : string) (params : gmap string string)
    : M W (list string) :=
  tok ← getTokenForVolume params;
  _ ← apply_refresh_param params;
  wrap_err (λ err, Errorf ("failed to get cloudsnap, Err: " +:+ Error err))
    (cs_EnumerateAs tok sourceVolumeID).

Definition DeleteAllCloudsnaps (sourceVolumeID : string) (params : gmap string string) : M W unit :=
  tok ← getTokenForVolume params;
  _ ← apply_refresh_param params;
  wrap_err (λ err, Errorf ("failed to delete cloudsnap, Err: " +:+ Error err))
    (cs_DeleteAllAs tok sourceVolumeID).

Definition ValidateCreateCloudsnap (volumeName : string) (params : gmap string string) : M W unit :=
  tok ← getTokenForVolume params;
  _ ← apply_refresh_param params;
  wrap_err (λ err, Errorf ("failed to create cloudsnap, Err: " +:+ Error err)) (cs_CreateAs tok volumeName).

Definition ValidateGetByteUsedForVolume (volumeName : string) (params : gmap string string) : M W Z :=
  tok ← getTokenForVolume params;
  _ ← apply_refresh_param params;
  statistic ← wrap_err (λ err, Errorf ("failed to retrieve volume statistic, Err: " +:+ Error err))
                (vol_StatsAs tok volumeName);
  lift (deref statistic).

(** The node registry is read before the statuses; the status of a backup
    carries its id and the id of its node.  An unknown node is the empty one. *)
Definition GetNodeForBackup (backupID : string) : M W Node :=
  all ← range_nodes;
  let nodeMap := Registry.index_by VolDriverNodeID all in
  statuses ← cs_Status;
  l ← range_map (string * string) statuses;
  match find_first (λ kv, bool_decide (kv.2.1 = backupID)) l with
  | Some (_, (_, nodeId)) => mret (default emptyNode (nodeMap !! nodeId))
  | None => throw (Errorf ("node where backup with id [" +:+ backupID +:+ "] running, not found"))
  end.

(** ** Other endpoints *)

Definition getNodeManagerByAddress (addr : string) : M W string :=
  pxPort ← getSDKContainerPort;
  let pxEndpoint := JoinHostPort addr (Itoa pxPort) in
  _ ← grpc_Dial pxEndpoint;
  _ ← node_EnumerateAt pxEndpoint;
  mret pxEndpoint.

Fixpoint pick_address (addrs : list string) : M W (option string) :=
  match addrs with
  | [] => mret None
  | addr :: addrs' =>
      nodeManager ← getNodeManagerByAddress addr;
      attempt (node_EnumerateAt nodeManager) (λ r,
        match r with
        | inr _ => pick_address addrs'
        | inl [] => pick_address addrs'
        | inl (_ :: _) => mret (Some nodeManager)
        end)
  end.

Fixpoint pick_node (n : Node) (nodes : list Node) : M W string :=
  match nodes with
  | [] => throw (Errorf ("failed to get an alternate cluster manager for node [" +:+ Name n +:+ "]"))
  | alternateNode :: nodes' =>
      if decide (Name alternateNode = Name n) then pick_node n nodes'
      else
        found ← pick_address (Addresses alternateNode);
        match found with
        | Some nodeManager => mret nodeManager
        | None => pick_node n nodes'
        end
  end.

Definition pickAlternateClusterManager (n : Node) : M W string :=
  workers ← registry_GetWorkerNodes;
  pick_node n workers.

(** Without a token of its own the call carries the driver's. *)
Definition getClusterPairManagerByAddress (addr tok : string) : M W string :=
  pxPort ← getSDKContainerPort;
  let pxEndpoint := JoinHostPort addr (Itoa pxPort) in
  _ ← grpc_Dial pxEndpoint;
  s ← get_px;
  _ ← pair_EnumerateAt pxEndpoint (if decide (tok = "") then token s else tok);
  mret pxEndpoint.

(** The error of [GetToken] is dropped and its nil response read. *)
Definition GetClusterPairingInfo (kubeConfigPath tok : string) (isPxLBService reversePair : bool)
    : M W (gmap string string) :=
  pxNodes ← wrap_err (λ err, Errorf ("failed retrieving remote PX nodes, Err: " +:+ Error err))
              (GetRemotePXNodes kubeConfigPath);
  match pxNodes with
  | [] => throw (Errorf "No PX Nodes were found")
  | n :: _ =>
      nodeIP ← lift (index (Addresses n) 0);
      ends ← (if isPxLBService then
                endpoint ← wrap_err (λ err, Errorf ("failed to get px service endpoint: " +:+ Error err))
                             GetServiceEndpoint;
                mret (if reversePair then pxServiceLocalEndpoint else endpoint, endpoint)
              else mret (nodeIP, nodeIP));
      manager ← getClusterPairManagerByAddress ends.1 tok;
      s ← get_px;
      attempt (pair_GetTokenAt manager (if decide (tok = "") then token s else tok)) (λ r,
        match r with
        | inl (Some pairToken) =>
            pwxServicePort ← getRestContainerPort;
            mret (<["port" := Itoa pwxServicePort]> (<["token" := pairToken]> {["ip" := ends.2]}))
        | _ => panic "invalid memory address or nil pointer dereference"
        end)
  end.

(** ** Alerts *)

(** [timestamp.Timestamp{Nanos: int32(t.UnixNano()), Seconds: t.Unix()}] *)
Definition stamp (t : Z) : Timestamp := {| Seconds := t / Second; Nanos := int32 t |}.

(** [timestamppb.New] *)
Definition timestamppb_New (t : Z) : Timestamp := {| Seconds := t / Second; Nanos := t mod Second |}.

Definition receive_alerts (q : AlertQuery) : M W (list string) :=
  alerts ← alerts_EnumerateWithFilters q; alerts_Recv alerts.

Definition GetAlertsUsingResourceTypeBySeverity (resourceType severity : Z) : M W (list string) :=
  receive_alerts {| ResourceType := resourceType; Query_Opt := MinSeverityType severity |}.

Definition GetAlertsUsingResourceTypeByTime (resourceType startTime endTime : Z) : M W (list string) :=
  receive_alerts {| ResourceType := resourceType;
    Query_Opt := TimeSpan (timestamppb_New startTime) (timestamppb_New endTime) |}.

Definition read_clock : M W Z := λ w, (Ok (now w), w).

(** The message of the alert that a restore leaves *)
Definition restore_message (pvcVol : option ApiVolume) (snap : string) (snapVol : option (option ApiVolume))
    : string :=
  "Volume " +:+ from_option Locator_Name "" pvcVol +:+ " (" +:+ from_option Vol_Id "" pvcVol +:+
  ") restored from snapshot " +:+
  match snapVol with
  | None => snap
  | Some v => from_option Locator_Name "" v +:+ " (" +:+ snap +:+ ")"
  end.

Definition ValidateVolumeSnapshotRestore (vol : string) (snapshot : option PortworxSnapshot) (timeStart : Z)
    : M W unit :=
  sn ← lift (deref snapshot);
  let snap := if decide (SnapshotType sn = PortworxSnapshotTypeCloud) then "in-place-restore-" +:+ vol
              else SnapshotID sn in
  currentTime ← read_clock;
  alerts ← alerts_EnumerateWithFilters {| ResourceType := RESOURCE_TYPE_VOLUME;
             Query_Opt := TimeSpan (stamp timeStart) (stamp currentTime) |};
  _ ← refresh_client;
  pvcVol ← wrap_err (λ err, Errorf ("inspect failed for " +:+ vol +:+ ": " +:+ Error err)) (vol_Inspect vol);
  snapVol ← attempt (vol_Inspect snap) (λ r,
              mret (match r with inl v => Some v | inr _ => None end));
  let grepMsg := restore_message pvcVol snap snapVol in
  messages ← alerts_Recv alerts;
  if existsb (λ m, Contains m grepMsg) messages then mret tt
  else throw (Errorf ("restore failed, expected alert to be present : " +:+ grepMsg)).

(** ** Diagnostics *)

Definition sudo_opts : ConnectionOpts :=
  {| Timeout := defaultTimeout; TimeBeforeRetry := defaultRetryInterval; IgnoreError := false; Sudo := true |}.

Definition put_DiagsFile (f : string) : M W unit := λ w, (Ok tt, set_DiagsFile f w).

Definition read_DiagsFile : M W string := λ w, (Ok (DiagsFile w), w).

(** A command that fails leaves no output: [%v] of it is empty in the messages. *)
Definition GetClusterUUID (n : Node) (opts : ConnectionOpts) (pxDir : string) : M W string :=
  wrap_err (λ err, Errorf ("failed to get pxctl status, Err: " +:+ Error err))
    (RunCommand n ("cat " +:+ path_Join pxDir clusterUUIDFile) opts).

(** pkg/s3utils: [expect] of gomega ends the test when it does not hold. *)
Definition expect_env (v msg : string) : M W unit := if decide (v = "") then panic msg else mret tt.

Definition env (name : string) : M W string := λ w, (Ok (Getenv name w), w).

Definition env_or (name other : string) : M W string :=
  v ← env name; if decide (v = "") then env other else mret v.

(** [strconv.ParseBool]: the value, when there is one *)
Definition parse_bool (s : string) : option bool :=
  if ParseBool s then Some true
  else if existsb (λ t, bool_decide (s = t)) ["0"; "f"; "F"; "FALSE"; "false"; "False"] then Some false
  else None.

Definition GetAWSDetailsFromEnv : M W (string * string * string * string * bool) :=
  id ← env_or "S3_AWS_ACCESS_KEY_ID" "AWS_ACCESS_KEY_ID";
  _ ← expect_env id "S3_AWS_ACCESS_KEY_ID Environment variable should not be empty";
  secret ← env_or "S3_AWS_SECRET_ACCESS_KEY" "AWS_SECRET_ACCESS_KEY";
  _ ← expect_env secret "S3_AWS_SECRET_ACCESS_KEY Environment variable should not be empty";
  endpoint ← env "S3_ENDPOINT";
  _ ← expect_env endpoint "S3_ENDPOINT Environment variable should not be empty";
  s3Region ← env "S3_REGION";
  _ ← expect_env s3Region "S3_REGION Environment variable should not be empty";
  disableSSL ← env "S3_DISABLE_SSL";
  _ ← expect_env disableSSL "S3_DISABLE_SSL Environment variable should not be empty";
  match parse_bool disableSSL with
  | Some b => mret (id, secret, endpoint, s3Region, b)
  | None => panic ("S3_DISABLE_SSL=" +:+ disableSSL +:+ " is not a valid boolean value")
  end.

(** The folder of an hour *)
Definition s3_GetTimeStamp (getPreviousFolder : bool) (t : Z) : string :=
  let '(year, month, day, hour) := local_hour (if getPreviousFolder then t - Hour else t) in
  Itoa year +:+ "_" +:+ two_digits month +:+ "_" +:+ two_digits day +:+ "/" +:+ two_digits hour.

Definition GetS3Objects (clusterID nodeName : string) (getPreviousFolder : bool) : M W (list S3Object) :=
  aws ← GetAWSDetailsFromEnv;
  let '(id, secret, endpoint, s3Region, disableSSL) := aws in
  bucket ← env "DIAGS_BUCKET";
  t ← read_clock;
  wrap_err (λ err, Errorf ("error in getting details from S3 " +:+ Error err))
    (s3_ListObjects id secret endpoint s3Region disableSSL bucket
       (clusterID +:+ "/" +:+ nodeName +:+ "/" +:+ s3_GetTimeStamp getPreviousFolder t)).

(** One round of the polling loop: does a listed object carry the file name? *)
Definition diags_uploaded (n : Node) (clusterUUID : string) : M W bool :=
  latestObjects ← wrap_err (λ err, Errorf ("Failed to get g3 objects from latest folder, Err: " +:+ Error err))
                    (GetS3Objects clusterUUID (Name n) false);
  previousObjects ← wrap_err (λ err, Errorf ("Failed to get g3 objects from previous folder, Err: " +:+
                      Error err)) (GetS3Objects clusterUUID (Name n) true);
  file ← read_DiagsFile;
  mret (existsb (λ obj, Contains (S3_Key obj) file) (latestObjects ++ previousObjects)).

(** The loops that poll until a deadline: [timed_out] when it has passed,
    otherwise a look, and a pause when the look is not the last. *)
Fixpoint poll_until (fuel : nat) (deadline interval : Z) (timed_out : M W unit) (look : M W bool) : M W unit :=
  match fuel with
  | O => λ w, (Diverge, w)
  | S fuel' => λ w,
      if decide (deadline <= now w) then timed_out w
      else (found ← look;
            if (found : bool) then mret tt
            else _ ← pause interval; poll_until fuel' deadline interval timed_out look) w
  end.

Definition poll_for (timeout interval : Z) (timed_out : M W unit) (look : M W bool) : M W unit :=
  start ← read_clock;
  poll_until (retry_fuel timeout interval) (start + timeout) interval timed_out look.

Definition ValidateDiagsOnS3 (n : Node) (diagsFile pxDir : string) : M W unit :=
  if decide (diagsFile = "")
  then throw (Errorf "Empty diag file was passed, cannot continue with validation")
  else
    _ ← put_DiagsFile diagsFile;
    clusterUUID ← wrap_err (λ err, Errorf ("Failed to get cluster UUID, Err: " +:+ Error err))
                    (GetClusterUUID n sudo_opts pxDir);
    poll_for validateDiagsOnS3RetryTimeout validateDiagsOnS3RetryInterval
      (file ← read_DiagsFile;
       throw (Errorf ("waiting for diags job timed out after [1h0m0s], failed to find diag file [" +:+ file +:+
         "] on s3 bucket")))
      (diags_uploaded n clusterUUID).

(** The variables of px_env, the later lines over the earlier ones *)
Definition px_env_vars (out : string) : gmap string string :=
  fold_left (λ m line,
    match Split line "=" with
    | k :: v :: _ => <[k := v]> m
    | _ => m
    end) (Split out newline) ∅.

(** The port of the diagnostics server *)
Definition diags_port (px_env : option string) : Z :=
  match px_env with
  | None => 9014
  | Some out =>
      match Atoi (default "" (px_env_vars out !! "PWX_MGMT_PORT")) with
      | Ok pxMgmntPort => if decide (pxMgmntPort ≠ 9001) then pxMgmntPort + 10 else 9014
      | _ => 9014
      end
  end.

(** The last step of both collections: is the file there? *)
Definition locate_diags (n : Node) (hostname : string) (config : DiagRequestConfig) (diagOps : DiagOps)
    : M W unit :=
  if Diag_Validate diagOps && negb (Profile config) then
    _ ← wrap_err (λ err, Errorf ("failed to locate diags on node [" +:+ hostname +:+ "], Err: " +:+
           Error err +:+ " ")) (RunCommand n ("test -f " +:+ OutputFile config) sudo_opts);
    put_DiagsFile (base_name (OutputFile config))
  else mret tt.

Definition set_Diag_Token (t : string) (c : DiagRequestConfig) : DiagRequestConfig :=
  {| OutputFile := OutputFile c; Profile := Profile c; Live := Live c; Diag_Token := t |}.

(** The configuration is behind a pointer: the token of the driver is stored in
    the caller's. *)
Definition collectDiags (n : Node) (diagOps : DiagOps) : M (W * DiagRequestConfig) unit :=
  look ← up (if PxStopped diagOps then mret (Name n, STATUS_OFFLINE, n)
             else r ← with_local n (GetDriverNode depth);
                  mret (Hostname r.1, NodeStatus r.1, r.2));
  let '(hostname, status, n') := look in
  config ← get_local;
  _ ← (if decide (status = STATUS_OFFLINE) then
         _ ← up (wrap_err (λ err, Errorf ("failed to collect diags on node [" +:+ hostname +:+ "], Err: " +:+
                Error err +:+ " "))
              (GetPxctlCmdOutputConnectionOpts n' ("sv diags -a -f --output " +:+ OutputFile config)
                 sudo_opts true));
         mret tt
       else
         px_env ← up (attempt (RunCommand n' ("cat " +:+ path_Join (PxDir diagOps) "px_env") sudo_opts)
                    (λ r, mret (match r with inl out => Some out | inr _ => None end)));
         s ← up get_px;
         _ ← (if decide (token s = "") then mret tt else put_local (set_Diag_Token (token s) config));
         addr ← up (lift (index (Addresses n') 0));
         let url := MakeURL "http://" addr (diags_port px_env) in
         _ ← up (lift (NewClient url));
         config' ← get_local;
         up (wrap_err (λ err, Errorf ("failed to collect diags on node [" +:+ hostname +:+ "], Err: " +:+
               Error err)) (diags_Post (url +:+ pxDiagPath) config')));
  up (locate_diags n' hostname config diagOps).

(** The error of [GetStatus] is dropped: its nil response has the state zero. *)
Definition job_finished (job : string) : M W bool :=
  attempt (job_GetStatus job) (λ r,
    let state := match r with inl st => st | inr _ => Job_UNSPECIFIED_STATE end in
    mret (bool_decide (state = Job_DONE ∨ state = Job_FAILED ∨ state = Job_CANCELLED))).

Definition collectDiagsSdk (n : Node) (config : DiagRequestConfig) (diagOps : DiagOps) : M W unit :=
  _ ← refresh_client;
  _ ← refresh_client;
  r ← with_local n (GetDriverNode depth);
  let '(pxNode, n') := r in
  resp ← wrap_err (λ err, Errorf ("failed to collect diags, Err: " +:+ Error err))
           (diags_Collect (Id pxNode) (Profile config) (Live config) (OutputFile config));
  match resp with
  | None => throw (Errorf "diags collection SDK request submitted, but did not get a Job ID in response")
  | Some job =>
      _ ← poll_for sdkDiagCollectionTimeout sdkDiagCollectionRetryInterval
            (throw (Errorf "waiting for diags job timed out after [30m0s]")) (job_finished job);
      locate_diags n' (Hostname pxNode) config diagOps
  end.

Definition CollectDiags (n : Node) (diagOps : DiagOps) : M (W * DiagRequestConfig) unit :=
  if Async diagOps then config ← get_local; up (collectDiagsSdk n config diagOps)
  else collectDiags n diagOps.

(** ** Licences and cluster options *)

(** The summary is returned with the error of the features as well. *)
Definition GetLicenseSummary : M W (LicenseSummary * option error) :=
  _ ← refresh_client;
  _ ← refresh_client;
  attempt license_Status (λ r,
    match r with
    | inr err => mret ({| SKU := ""; Features := []; LicenesConditionMsg := "" |}, Some err)
    | inl lic =>
        let sku := from_option Sku "" lic in
        let msg := default "" (head (from_option Conditions [] lic)) in
        attempt feature_Enumerate (λ r1,
          match r1 with
          | inr err => mret ({| SKU := sku; Features := []; LicenesConditionMsg := msg |}, Some err)
          | inl fs => mret ({| SKU := sku; Features := fs; LicenesConditionMsg := msg |}, None)
          end)
    end).

(** [k=v] and the separator after each pair, without the last separator *)
Definition option_list (sep : string) (opts : gmap string string) : M W string :=
  l ← range_map string opts;
  mret (Join ((λ kv, kv.1 +:+ "=" +:+ kv.2) <$> l) sep).

Definition SetClusterRunTimeOpts (n : Node) (rtOpts : gmap string string) : M W unit :=
  rtopts ← option_list "," rtOpts;
  pxctl ← getPxctlPath n;
  _ ← wrap_err (λ err, Errorf ("failed to set rt_opts, Err: " +:+ Error err +:+ " "))
        (RunCommand n (pxctl +:+ " cluster options update --runtime-options " +:+ rtopts) sudo_opts);
  mret tt.

Definition SetClusterOpts (n : Node) (clusterOpts : gmap string string) : M W unit :=
  clusteropts ← option_list " " clusterOpts;
  _ ← wrap_err (λ err, Errorf ("failed to set cluster options, Err: " +:+ Error err +:+ " "))
        (GetPxctlCmdOutputConnectionOpts n (" cluster options update " +:+ clusteropts) sudo_opts true);
  mret tt.

Definition SetClusterOptsWithConfirmation (n : Node) (clusterOpts : gmap string string) : M W unit :=
  clusteropts ← option_list " " clusterOpts;
  pxctl ← getPxctlPath n;
  _ ← wrap_err (λ err, Errorf ("failed to set cluster options on node [" +:+ Name n +:+ "], Err: " +:+
         Error err +:+ " "))
        (RunCommand n ("yes Y | " +:+ pxctl +:+ " cluster options update " +:+ clusteropts) sudo_opts);
  mret tt.

(** [json.Unmarshal] into a [map[string]interface{}]: null leaves it empty. *)
Definition unmarshal_object (out : string) : outcome (list (string * json)) :=
  let kind_error kind :=
    Err (Errorf ("json: cannot unmarshal " +:+ kind +:+ " into Go value of type map[string]interface {}")) in
  data ← Unmarshal out;
  match data with
  | JObject m => Ok m
  | JNull => Ok []
  | JBool _ => kind_error "bool"
  | JNumber _ => kind_error "number"
  | JString _ => kind_error "string"
  | JArray _ => kind_error "array"
  end.

(** The options of the output that were asked for, with the text of their values *)
Definition pick_options (options : list string) (data : list (string * json)) : gmap string string :=
  fold_left (λ m kv, if wanted options kv.1 then <[kv.1 := sprint_json show_json kv.2]> m else m) data ∅.

(** The slice of options is sorted in place, so the first missing one is the
    least; the caller's slice stays sorted. *)
Definition GetClusterOpts (n : Node) (options : list string) : M W (gmap string string) :=
  pxctl ← getPxctlPath n;
  out ← wrap_err (λ err, Errorf ("failed to get pxctl cluster options on node [" +:+ Name n +:+ "], Err: " +:+
           Error err))
         (RunCommand n (pxctl +:+ " cluster options list -j json")
            (conn_opts defaultTimeout defaultRetryInterval));
  data ← wrap_err (λ err, Errorf ("failed to unmarshal pxctl cluster option on node [" +:+ Name n +:+
            "], Err: " +:+ Error err)) (lift (unmarshal_object out));
  let sorted := sort_Strings options in
  let options_map := pick_options sorted data in
  match find_first (λ option, negb (bool_decide (is_Some (options_map !! option)))) sorted with
  | Some option => throw (Errorf ("Failed to find option: " +:+ option))
  | None => mret options_map
  end.

Definition ToggleCallHome (n : Node) (enabled : bool) : M W unit :=
  pxctl ← getPxctlPath n;
  cmd ← (if enabled then mret (pxctl +:+ " sv call-home enable")
         else pxctl' ← getPxctlPath n; mret (pxctl' +:+ " sv call-home disable"));
  _ ← wrap_err (λ err, Errorf ("failed to toggle call-home on node [" +:+ Name n +:+ "], Err: " +:+
         Error err +:+ " ")) (RunCommand n cmd sudo_opts);
  mret tt.

Definition IsOperatorBasedInstall : M W bool :=
  _ ← GetCRD "storageclusters.core.libopenstorage.org"; mret true.

Definition RunSecretsLogin (n : Node) (secretType : string) : M W unit :=
  pxctl ← getPxctlPath n;
  _ ← wrap_err (λ err, Errorf ("failed to run secrets login for " +:+ secretType +:+ ". cause: " +:+
         Error err))
        (RunCommand n (pxctl +:+ " secrets " +:+ secretType +:+ " login")
           (conn_opts defaultTimeout defaultRetryInterval));
  mret tt.

(** The loop over [node.GetNodes()] is left after its first round: without
    nodes nothing is done and nothing reported. *)
Definition on_some_node (cmd : string) (h : error → error) : M W unit :=
  nodes ← range_nodes;
  match nodes with
  | [] => mret tt
  | n :: _ =>
      _ ← wrap_err h (RunCommandWithNoRetry n cmd (conn_opts skinnySnapRetryInterval defaultRetryInterval));
      mret tt
  end.

Definition EnableSkinnySnap : M W unit :=
  on_some_node "echo Y | pxctl cluster options update --skinnysnap on"
    (λ err, Errorf ("Failed to enable skinny Snap on Cluster, Err: " +:+ Error err)).

Definition UpdateSkinnySnapReplNum (repl : string) : M W unit :=
  on_some_node ("echo Y | pxctl cluster options update --skinnysnap-num-repls " +:+ repl)
    (λ err, Errorf ("failed to Update SkinnySnap Repl Factor, Err: " +:+ Error err)).

(** ** Defragmentation *)

Definition CreateDefragSchedule (startTime : string) (defragJob : DefragJob) : M W string :=
  _ ← refresh_client; defrag_CreateSchedule startTime defragJob.

(** [n.Id] is a field of the embedded pointer. *)
Definition GetDefragNodeStatus (n : Node) : M W DefragNodeResponse :=
  sn ← lift (deref (storageNode n));
  _ ← refresh_client;
  defrag_GetNodeStatus (Id sn).

Definition GetDefragClusterStatus : M W (gmap string DefragNodeResponse) :=
  _ ← refresh_client; defrag_EnumerateNodeStatus.

Definition CleanUpDefragSchedules : M W unit :=
  _ ← refresh_client; defrag_CleanUpSchedules.

Definition DeleteDefragSchedule (defragSchedId : string) : M W unit :=
  _ ← refresh_client; schedule_Delete defragSchedId DefragJobType.

Definition GetAllDefragSchedules : M W (list DefragSchedule) :=
  _ ← refresh_client; schedule_Enumerate DefragJobType.

Definition InspectDefragSchedules (defragSchedId : string) : M W DefragSchedule :=
  _ ← refresh_client; schedule_Inspect defragSchedId DefragJobType.

Definition ValidateDefragScheduleInfo (sched : DefragSchedule) (startTime : string) (defragJob : DefragJob)
    : outcome unit :=
  if decide (StartTime sched ≠ startTime) then
    Err (Errorf ("defrag schedule id: [" +:+ Schedule_Id sched +:+ "] start time [" +:+ StartTime sched +:+
      "] not matching with time for which schedule is created"))
  else if decide (MaxDurationMinutes sched ≠ Job_MaxDurationMinutes defragJob) then
    Err (Errorf ("defrag schedule max duration: [" +:+ Itoa (MaxDurationMinutes sched) +:+
      "] not matching with set max duration [" +:+ Itoa (Job_MaxDurationMinutes defragJob) +:+ "]"))
  else Ok tt.

Definition ValidateDefragScheduleIdDeleted (scheduleId : string) : M W unit :=
  schedules ← wrap_err (λ err, Errorf ("failed to get all defrag schedules. Err: " +:+ Error err))
                GetAllDefragSchedules;
  match find_first (λ s, bool_decide (Schedule_Id s = scheduleId)) schedules with
  | Some s => throw (Errorf ("schedule ID: [" +:+ Schedule_Id s +:+
                "] still present in a cluster after deletion"))
  | None => mret tt
  end.

(** The loop over the nodes: a node without a status is a nil pointer. *)
Fixpoint schedule_runs (status : gmap string DefragNodeResponse) (scheduleId : string) (ids : list string)
    : outcome bool :=
  match ids with
  | [] => Ok false
  | nodeId :: ids' =>
      resp ← deref (status !! nodeId);
      if decide (from_option RunningSchedule "" (Resp_NodeStatus resp) = scheduleId) then Ok true
      else schedule_runs status scheduleId ids'
  end.

(** Both ends of the loop return a nil error, which the engine takes for the
    end of the wait. *)
Definition defrag_trigger_task (scheduleId : string) (nodeIDList : list string) : M W (task_result unit) :=
  attempt GetDefragClusterStatus (λ r,
    match r with
    | inr err => mret (Retry (Errorf ("failed to get defrag schedule cluster status. Err: " +:+ Error err)))
    | inl status =>
        found ← lift (schedule_runs status scheduleId nodeIDList);
        if (found : bool) then mret (Done tt) else mret (Done tt)
    end).

Definition ValidatesDefragSchedulesTrigger (scheduleId : string) (nodeIDList : list string) : M W unit :=
  DoRetryWithTimeout (defrag_trigger_task scheduleId nodeIDList) defaulDefragTriggerInterval
    defaultRetryInterval.

Definition defrag_status_task : M W (task_result (gmap string DefragNodeResponse)) :=
  attempt GetDefragClusterStatus (λ r,
    match r with
    | inr err => mret (Retry (Errorf ("failed to get defrag schedule cluster status. Err: " +:+ Error err)))
    | inl status => mret (Done status)
    end).

Definition pool_incomplete (pool : DefragPoolStatus) : bool := negb (Pool_Running pool) && negb (LastSuccess pool).

(** The id of a node is appended once for each of its incomplete pools. *)
Fixpoint incomplete_nodes (status : gmap string DefragNodeResponse) (acc ids : list string)
    : outcome (list string) :=
  match ids with
  | [] => Ok acc
  | nodeId :: ids' =>
      resp ← deref (status !! nodeId);
      st ← deref (Resp_NodeStatus resp);
      let pools := keep pool_incomplete (map_to_list (PoolStatus st)).*2 in
      incomplete_nodes status (acc ++ replicate (length pools) nodeId) ids'
  end.

(** The list is returned with the error. *)
Definition ValidateLastDefragScheduleStatus (scheduleId : string) (nodeIDList : list string)
    : M W (list string * option error) :=
  attempt (DoRetryWithTimeout defrag_status_task defaulDefragTriggerInterval defaultRetryInterval) (λ r,
    match r with
    | inr err => mret ([], Some err)
    | inl status =>
        incompletedNodeList ← lift (incomplete_nodes status [] nodeIDList);
        if decide (0 < length incompletedNodeList)%nat
        then mret (incompletedNodeList, Some (Errorf "defrag schedule not completed in all nodes"))
        else mret (incompletedNodeList, None)
    end).
End cluster.

(** ** Searching the sorted options *)

Lemma string_leb_refl s : string_leb s s = true.
Proof. induction s as [|a s IH]; [done|]. simpl. by rewrite Ascii.eqb_refl. Qed.

Lemma string_leb_total s t : string_leb s t = true ∨ string_leb t s = true.
Proof.
  revert t. induction s as [|a s IH]; intros [|b t]; simpl; [auto..|].
  rewrite (Ascii.eqb_sym b a). destruct (Ascii.eqb_spec a b) as [->|Hne]; [apply IH|].
  rewrite !Nat.ltb_lt. assert (nat_of_ascii a ≠ nat_of_ascii b); [|lia].
  intros E. apply Hne. by rewrite <- (ascii_nat_embedding a), E, ascii_nat_embedding.
Qed.

Lemma string_leb_trans s t u : string_leb s t = true → string_leb t u = true → string_leb s u = true.
Proof.
  revert t u. induction s as [|a s IH]; intros [|b t] [|c u]; simpl; try done.
  destruct (Ascii.eqb_spec a b) as [<-|Hab].
  { destruct (Ascii.eqb_spec a c) as [<-|]; [apply IH|done]. }
  destruct (Ascii.eqb_spec b c) as [<-|Hbc].
  { by destruct (Ascii.eqb_spec a b). }
  rewrite !Nat.ltb_lt. intros H1 H2. destruct (Ascii.eqb_spec a c) as [->|Hac]; [lia|].
  apply Nat.ltb_lt. lia.
Qed.

Lemma string_leb_antisym s t : string_leb s t = true → string_leb t s = true → s = t.
Proof.
  revert t. induction s as [|a s IH]; intros [|b t]; simpl; try done.
  rewrite (Ascii.eqb_sym b a). destruct (Ascii.eqb_spec a b) as [->|Hne].
  - intros H1 H2. f_equal. by apply IH.
  - rewrite !Nat.ltb_lt. lia.
Qed.

#[export] Instance string_le_total : Total string_le.
Proof. intros s t. apply string_leb_total. Qed.
#[export] Instance string_le_trans : Transitive string_le.
Proof. intros s t u. apply string_leb_trans. Qed.

(** The search finds the boundary of a predicate that stays true. *)
Lemma sort_Search_spec fuel f i j :
  (∀ a b, (a <= b)%nat → f a = true → f b = true) → (j - i <= fuel)%nat → (i <= j)%nat →
  let r := sort_Search fuel f i j in
  (i <= r <= j)%nat ∧ (∀ a, (i <= a < r)%nat → f a = false) ∧ ((r < j)%nat → f r = true).
Proof.
  intros Hf. revert i j. induction fuel as [|fuel IH]; intros i j Hd Hij; simpl.
  { split; [lia|]. split; intros; lia. }
  destruct (Nat.ltb_spec i j) as [Hlt|]; [|split; [lia|]; split; intros; lia].
  pose proof (Nat.div2_odd (i + j)) as Hh. set (h := Nat.div2 (i + j)) in *.
  assert (i <= h < j)%nat as Hhb by (destruct (Nat.odd (i + j)); simpl in Hh; lia).
  destruct (f h) eqn:Hfh.
  - destruct (IH i h) as (Hr & Hlo & Hhi); [lia..|]. split; [lia|]. split; [done|].
    intros _. destruct (decide (sort_Search fuel f i h < h)%nat) as [?|?]; [by apply Hhi|].
    replace (sort_Search fuel f i h) with h by lia. done.
  - destruct (IH (S h) j) as (Hr & Hlo & Hhi); [lia..|]. split; [lia|]. split; [|done].
    intros a Ha. destruct (decide (a <= h)%nat) as [Hah|]; [|apply Hlo; lia].
    destruct (f a) eqn:Hfa; [|done]. by rewrite (Hf a h Hah Hfa) in Hfh.
Qed.

Lemma StronglySorted_lookup_le (a : list string) i j x y :
  StronglySorted string_le a → (i <= j)%nat → a !! i = Some x → a !! j = Some y → string_le x y.
Proof.
  intros Hs. revert i j. induction Hs as [|z a Hs IH Hall]; intros i j Hij Hx Hy; [done|].
  destruct i as [|i], j as [|j]; simplify_eq/=; [apply string_leb_refl| |lia|].
  - rewrite Forall_forall in Hall. apply Hall. by eapply list_elem_of_lookup_2.
  - apply (IH i j); [lia|done..].
Qed.

Lemma wanted_spec options key :
  wanted (sort_Strings options) key = true ↔ key ∈ options.
Proof.
  unfold wanted. assert (StronglySorted string_le (sort_Strings options)) as Hs.
  { apply (StronglySorted_merge_sort string_le). }
  assert (sort_Strings options ≡ₚ options) as Hp by apply merge_sort_Permutation.
  transitivity (key ∈ sort_Strings options); [|by rewrite Hp].
  set (a := sort_Strings options) in *. clearbody a. clear Hp options.
  pose proof (sort_Search_spec (length a) (λ i, match a !! i with Some s => string_leb key s | None => true end)
    0 (length a)) as Hsp.
  destruct Hsp as (Hr & Hlo & Hhi); [|lia..|].
  { intros i j Hij. destruct (a !! j) as [t|] eqn:Hj; [|done]. destruct (a !! i) as [s|] eqn:Hi.
    - intros Hk. eapply string_leb_trans; [exact Hk|]. by eapply (StronglySorted_lookup_le a i j).
    - apply lookup_lt_Some in Hj. apply lookup_ge_None in Hi. lia. }
  fold (SearchStrings a key) in *. split.
  - destruct (a !! SearchStrings a key) as [s|] eqn:Hl; [|done].
    rewrite bool_decide_eq_true. intros ->. by eapply list_elem_of_lookup_2.
  - intros (i & Hi)%list_elem_of_lookup_1. pose proof (lookup_lt_Some _ _ _ Hi) as Hil.
    assert (SearchStrings a key <= i)%nat as Hle.
    { destruct (decide (SearchStrings a key <= i)%nat) as [|Hn]; [done|].
      specialize (Hlo i). rewrite Hi, string_leb_refl in Hlo. discriminate Hlo. lia. }
    destruct (a !! SearchStrings a key) as [s|] eqn:Hl; [|apply lookup_ge_None in Hl; lia].
    apply bool_decide_eq_true, string_leb_antisym.
    + by eapply (StronglySorted_lookup_le a _ i).
    + apply Hhi. lia.
Qed.

(** ** Properties *)

Section cluster_theorems.
Context {W : Type} `{PxWorldLaws W} `{NodeDriver W} `{SchedOps W} `{K8sCore W} `{PxSdk W}.
Context `{VolumeSdk W} `{VolumeEnv W} `{MapOrder W} `{DriveServices W} `{ClusterServices W}.
Context (depth : nat).

(** *** Cluster options *)

Lemma pick_options_lookup options data (m0 : gmap string string) k v :
  fold_left (λ m kv, if wanted options kv.1 then <[kv.1 := sprint_json show_json kv.2]> m else m) data m0 !! k
    = Some v →
  m0 !! k = Some v ∨ wanted options k = true ∧ ∃ j, (k, j) ∈ data ∧ v = sprint_json show_json j.
Proof.
  revert m0. induction data as [|[k' j] data IH]; intros m0; simpl; [by left|].
  intros [Hm|(Hw & j' & Hin & ->)]%IH; [|right; split; [done|]; exists j'; split; [by right|done]].
  destruct (wanted options k') eqn:Hw; [|by left]. destruct (decide (k' = k)) as [->|Hne].
  - rewrite lookup_insert_eq in Hm. simplify_eq. right. split; [done|]. exists j. split; [by left|done].
  - rewrite lookup_insert_ne in Hm by done. by left.
Qed.

(** GetClusterOpts answers for the options it was asked for and for no
    others: a successful result has an entry for exactly the requested options,
    and each value is the text of what pxctl printed for that option.  (The
    membership test is a binary search of the options, sorted in place.) *)
Theorem GetClusterOpts_exact n options w m w' :
  GetClusterOpts n options w = (Ok m, w') →
  ∃ out data, (∃ cmd opts w1 w2, RunCommand n cmd opts w1 = (Ok out, w2)) ∧
    unmarshal_object out = Ok data ∧
    (∀ k, is_Some (m !! k) ↔ k ∈ options) ∧
    ∀ k v, m !! k = Some v → ∃ j, (k, j) ∈ data ∧ v = sprint_json show_json j.
Proof.
  intros Hg. inv_ok Hg. inv_ok Hk. apply wrap_err_Ok_inv in Hm0. inv_ok Hk0.
  apply wrap_err_Ok_inv in Hm1. exists a0, a1. unfold lift in Hm1. simplify_eq.
  cbv zeta in Hk. destruct (find_first _ _) as [o|] eqn:Hf; [done|]. unfold mret, M_ret in Hk. simplify_eq.
  assert (∀ k v, pick_options (sort_Strings options) a1 !! k = Some v →
    wanted (sort_Strings options) k = true ∧ ∃ j, (k, j) ∈ a1 ∧ v = sprint_json show_json j) as Hp.
  { intros k v Hl. apply pick_options_lookup in Hl as [Hl|]; [|done]. by rewrite lookup_empty in Hl. }
  split; [by eauto|]. split; [done|]. split; [|by intros k v [_ Hv]%Hp].
  intros k. split.
  - intros [v [Hw _]%Hp]. by apply wanted_spec in Hw.
  - intros Hk'. assert (k ∈ sort_Strings options) as Hs by (unfold sort_Strings; by rewrite merge_sort_Permutation).
    pose proof (proj1 (find_first_None _ _) Hf k Hs) as Hn. by apply negb_false_iff, bool_decide_eq_true in Hn.
Qed.

(** *** Polling *)

Lemma poll_until_Ok fuel d i timed_out look w w' :
  (∀ w0 w1, timed_out w0 ≠ (Ok tt, w1)) →
  poll_until fuel d i timed_out look w = (Ok tt, w') → ∃ w1, look w1 = (Ok true, w').
Proof.
  intros Hto. revert w. induction fuel as [|fuel IH]; intros w; [done|]. simpl.
  case_decide; [intros Hw; by apply Hto in Hw|]. intros Hw. inv_ok Hw.
  destruct a; [|inv_ok Hk; by eapply IH]. unfold mret, M_ret in Hk. simplify_eq. by exists w.
Qed.

Lemma poll_until_answers fuel d i timed_out look w :
  0 <= i → (∀ w0, ∃ b w1, look w0 = (Ok b, w1) ∧ now w0 <= now w1) →
  (0 < fuel)%nat → d - now w <= (Z.of_nat fuel - 1) * i →
  (∃ w1, poll_until fuel d i timed_out look w = (Ok tt, w1)) ∨
  ∃ w1, poll_until fuel d i timed_out look w = timed_out w1 ∧ d <= now w1.
Proof.
  intros Hi Hl. revert w. induction fuel as [|fuel IH]; intros w Hf Hd; [lia|]. simpl.
  case_decide as Hdl; [right; by exists w|].
  destruct (Hl w) as (b & w1 & Hb & Hle). rewrite (bind_Ok _ _ _ _ _ Hb).
  destruct b; [left; by exists w1|]. unfold mbind, M_bind, pause. apply IH; [lia|].
  pose proof (now_sleep i w1). lia.
Qed.

(** [ValidateDiagsOnS3] succeeds only when an object whose key contains the
    name of the file was listed in the folder of the hour or of the hour before. *)
Theorem ValidateDiagsOnS3_success n diagsFile pxDir w w' :
  ValidateDiagsOnS3 n diagsFile pxDir w = (Ok tt, w') →
  ∃ uuid previous objects obj file w1 w2, GetS3Objects uuid (Name n) previous w1 = (Ok objects, w2) ∧
    obj ∈ objects ∧ file = DiagsFile w' ∧ Contains (S3_Key obj) file = true.
Proof.
  unfold ValidateDiagsOnS3. case_decide; [done|]. intros Hw. inv_ok Hw. inv_ok Hk. inv_ok Hk0.
  apply poll_until_Ok in Hk as (w3 & Hl); [|done]. unfold diags_uploaded in Hl.
  inv_ok Hl. apply wrap_err_Ok_inv in Hm2. inv_ok Hk. apply wrap_err_Ok_inv in Hm3.
  unfold read_DiagsFile, mbind, M_bind, mret, M_ret in Hk0.
  assert (existsb (λ obj, Contains (S3_Key obj) (DiagsFile w5)) (a2 ++ a3) = true ∧ w5 = w') as [He ->]
    by (by simplify_eq).
  apply existsb_exists in He as (obj & Hin & Hc). apply list_elem_of_In, elem_of_app in Hin as [Hin|Hin];
    do 7 eexists; eauto.
Qed.

(** The wait for a diagnostics job does not look at how the job ended: a job
    that failed, or was cancelled, lets [collectDiagsSdk] go on like one that is
    done, and without the check of the file it reports success. *)
Theorem collectDiagsSdk_failed_job n config diagOps w pxNode n' w1 job w2 st w3 :
  (_ ← refresh_client; _ ← refresh_client; with_local n (GetDriverNode depth)) w = (Ok (pxNode, n'), w1) →
  diags_Collect (Id pxNode) (Profile config) (Live config) (OutputFile config) w1 = (Ok (Some job), w2) →
  job_GetStatus job w2 = (Ok st, w3) → st = Job_FAILED ∨ st = Job_CANCELLED →
  Diag_Validate diagOps = false →
  collectDiagsSdk depth n config diagOps w = (Ok tt, w3).
Proof.
  intros Hr Hc Hj Hst Hv. inv_ok Hr. inv_ok Hk. unfold collectDiagsSdk.
  rewrite (bind_Ok _ _ _ _ _ Hm), (bind_Ok _ _ _ _ _ Hm0), (bind_Ok _ _ _ _ _ Hk0).
  rewrite (bind_Ok _ _ _ _ _ (wrap_err_Ok _ _ _ _ _ Hc)).
  erewrite bind_Ok; [unfold locate_diags; rewrite Hv; reflexivity|].
  unfold poll_for, read_clock, mbind at 1, M_bind at 1. unfold retry_fuel. simpl.
  rewrite decide_False by (unfold sdkDiagCollectionTimeout, Minute, Second; lia).
  unfold mbind, M_bind, job_finished, attempt. rewrite Hj. simpl.
  rewrite bool_decide_true by (destruct Hst as [->| ->]; auto). done.
Qed.

(** *** Alerts of a restore *)

(** [ValidateVolumeSnapshotRestore] succeeds only when an alert was received
    that says the volume was restored from the snapshot. *)
Theorem ValidateVolumeSnapshotRestore_success vol snapshot timeStart w w' :
  ValidateVolumeSnapshotRestore vol snapshot timeStart w = (Ok tt, w') →
  ∃ sn pvcVol snapVol messages m, snapshot = Some sn ∧
    (∃ w1 w2, vol_Inspect vol w1 = (Ok pvcVol, w2)) ∧
    (∃ id w1, alerts_Recv id w1 = (Ok messages, w')) ∧ m ∈ messages ∧
    Contains m (restore_message pvcVol
      (if decide (SnapshotType sn = PortworxSnapshotTypeCloud) then "in-place-restore-" +:+ vol
       else SnapshotID sn) snapVol) = true.
Proof.
  intros Hv. inv_ok Hv. inv_ok Hk. inv_ok Hk0. inv_ok Hk. inv_ok Hk0. apply wrap_err_Ok_inv in Hm3.
  inv_ok Hk. inv_ok Hk0. destruct (existsb _ _) eqn:He; [|done].
  unfold mret, M_ret in Hk. apply existsb_exists in He as (m & Hin%list_elem_of_In & Hc).
  destruct snapshot as [sn|]; [|done]. unfold lift, deref in Hm. simplify_eq.
  exists a, a3, a4, a5, m. eauto 10.
Qed.

(** *** Defragmentation *)

(** [ValidatesDefragSchedulesTrigger] does not check what it is named after:
    as soon as the status of the cluster is read, and whatever schedule is
    running on the nodes, it returns without error. *)
Theorem ValidatesDefragSchedulesTrigger_any_status scheduleId ids status w w' :
  GetDefragClusterStatus w = (Ok status, w') → (∀ id, id ∈ ids → is_Some (status !! id)) →
  ValidatesDefragSchedulesTrigger scheduleId ids w = (Ok tt, w').
Proof.
  intros Hs Hids. apply DoRetryWithTimeout_first; [done|]. unfold defrag_trigger_task, attempt. rewrite Hs.
  assert (∃ b, schedule_runs status scheduleId ids = Ok b) as [b Hb].
  { clear -Hids. induction ids as [|id ids IH]; [by exists false|]. simpl.
    destruct (Hids id ltac:(by left)) as [r ->]. simpl. case_decide; [by exists true|].
    apply IH. intros id' Hin. apply Hids. by right. }
  unfold lift, mbind, M_bind. rewrite Hb. by destruct b.
Qed.

Lemma incomplete_nodes_spec status acc ids l :
  incomplete_nodes status acc ids = Ok l →
  ∃ l', l = acc ++ l' ∧ ∀ id, id ∈ l' ↔ id ∈ ids ∧ ∃ r st pool uuid, status !! id = Some r ∧
    Resp_NodeStatus r = Some st ∧ PoolStatus st !! uuid = Some pool ∧ pool_incomplete pool = true.
Proof.
  revert acc. induction ids as [|id ids IH]; intros acc Hl; simpl in Hl.
  { simplify_eq. exists []. split; [by rewrite app_nil_r|]. intros id. set_solver. }
  destruct (status !! id) as [r|] eqn:Hr; [|done]. simpl in Hl.
  destruct (Resp_NodeStatus r) as [st|] eqn:Hst; [|done]. simpl in Hl.
  apply IH in Hl as (l' & -> & Hl'). rewrite <- app_assoc. eexists. split; [done|].
  intros id'. rewrite elem_of_app, elem_of_replicate, Hl', elem_of_cons. split.
  - intros [[-> Hn]|(? & ?)]; [|by auto]. split; [by left|].
    destruct (keep pool_incomplete (map_to_list (PoolStatus st)).*2) as [|p ps] eqn:Hk; [done|].
    assert (p ∈ keep pool_incomplete (map_to_list (PoolStatus st)).*2) as Hp by (rewrite Hk; by left).
    apply elem_of_keep in Hp as [Hin Hp]. apply list_elem_of_fmap in Hin as ([u p'] & -> & Hin%elem_of_map_to_list).
    by eauto 10.
  - intros [[->|Hin] Hex]; [|by auto]. left. split; [done|].
    destruct Hex as (r' & st' & pool & u & ? & ? & Hu & Hp). simplify_eq.
    assert (pool ∈ keep pool_incomplete (map_to_list (PoolStatus st)).*2) as Hk.
    { apply elem_of_keep. split; [|done]. apply list_elem_of_fmap. exists (u, pool).
      by rewrite elem_of_map_to_list. }
    destruct (keep _ _); [by apply elem_of_nil in Hk|]. done.
Qed.

(** [ValidateLastDefragScheduleStatus] lists a node exactly when it was asked
    about and has a pool whose defragmentation is neither running nor was
    successful last, and returns without error exactly when there is no such
    node. *)
Theorem ValidateLastDefragScheduleStatus_spec scheduleId ids status w w1 l err w' :
  defrag_status_task w = (Ok (Done status), w1) →
  ValidateLastDefragScheduleStatus scheduleId ids w = (Ok (l, err), w') →
  (∀ id, id ∈ l ↔ id ∈ ids ∧ ∃ r st pool uuid, status !! id = Some r ∧
    Resp_NodeStatus r = Some st ∧ PoolStatus st !! uuid = Some pool ∧ pool_incomplete pool = true) ∧
  (err = None ↔ l = []).
Proof.
  intros Hs. unfold ValidateLastDefragScheduleStatus, attempt.
  rewrite (DoRetryWithTimeout_first _ defaulDefragTriggerInterval _ _ _ _ eq_refl Hs). intros Hv.
  inv_ok Hv. unfold lift in Hm. injection Hm as Hm <-.
  destruct (incomplete_nodes_spec _ _ _ _ Hm) as (l' & -> & Hl).
  unfold mret, M_ret in Hk. case_decide as Hlen; simplify_eq/=.
  - split; [done|]. split; [done|]. intros ->. simpl in Hlen. lia.
  - split; [done|]. destruct l; [done|simpl in Hlen; lia].
Qed.

(** *** Alternate nodes *)

(** [pickAlternateClusterManager] gives up at the first address that does
    not answer, although another node may: the error of the client for that
    address is returned. *)
Theorem pickAlternateClusterManager_gives_up n w alternate rest addr addrs w1 e w2 :
  registry_GetWorkerNodes w = (Ok (alternate :: rest), w1) → Name alternate ≠ Name n →
  Addresses alternate = addr :: addrs → getNodeManagerByAddress addr w1 = (Err e, w2) →
  pickAlternateClusterManager n w = (Err e, w2).
Proof.
  intros Hw Hn Ha He. unfold pickAlternateClusterManager. rewrite (bind_Ok _ _ _ _ _ Hw).
  cbn [pick_node]. rewrite decide_False by done. rewrite Ha.
  assert (pick_address (addr :: addrs) w1 = (Err e, w2)) as Hp.
  { cbn [pick_address]. by rewrite (bind_Err _ _ _ _ _ He). }
  by rewrite (bind_Err _ _ _ _ _ Hp).
Qed.
End cluster_theorems.
