(* ===== verification/K8sVolumes.v ===== *)
(** drivers/scheduler/k8s/k8s.go: the volumes of an application - the claims behind its
    specs and the volumes the storage driver has for them, their parameters, their
    validation, resizing and deletion, and snapshots of the external-storage API. *)

From Stdlib Require Import Ascii.
From S2P Require Import Prelude GoStrings Errors Effects Float64 Strconv Task OpenStorageApi NodeRegistry AutopilotRules SpecFactory PxDriver PxNodeOps PxVolume PureDevices PxDrives PxCluster K8sObjects VolumeDrivers K8sSpecs K8sNodes K8sHelm K8sCreate K8sApps PxExpansion K8sAutopilot K8sDestroy.

(** ** Interfaces *)

(** [VolumeSnapshotData]: its metadata and the Portworx source, a pointer *)
Record SnapshotData := {
  sd_Name : string;
  sd_Namespace : string;
  sd_Portworx : option PortworxSnapshot;
}.

(** [scheduler.VolumeOptions] *)
Record VolumeOptions := { SkipClusterScopedObjects : bool; ExpectError : bool }.

(** [volume.Snapshot] *)
Record Snapshot := { Snapshot_ID : string; Snapshot_Name : string; Snapshot_Namespace : string }.

(** Calls of the clients that only volumes need.  A list of claims is a pointer; the
    snapshot data and a data volume are read whether or not an error came with them;
    of a data volume only its owners matter. *)
Class K8sVolumeApi (W : Type) := {
  IsNotFound : error → bool;
  GetStorageClassForPVC : Object → M W Object;
  GetPersistentVolumeClaimParams : Object → M W (gmap string string);
  GetPVCsForStatefulSet : Object → M W (option (list Object));
  GetPersistentVolumeClaims : string → M W (list Object);
  ValidatePersistentVolumeClaim : Object → Z → Z → M W unit;
  ValidatePVCsForStatefulSet : Object → Z → Z → M W unit;
  ext_ValidateSnapshot : string → string → bool → Z → Z → M W unit;
  ValidateGroupSnapshot : string → string → bool → Z → Z → M W unit;
  stork_ValidateVolumeSnapshotRestore : string → string → Z → Z → M W unit;
  ValidateSnapshotData : string → bool → Z → Z → M W unit;
  GetSnapshotData : string → M W (option SnapshotData * option error);
  GetSnapshotsForGroupSnapshot : string → string → M W (list Object);
  ListSnapshots : string → M W (list Object);
  DeleteCsiVolumeSnapshot : string → string → M W unit;
  GetDataVolume : string → string → M W (option (list (string * string)) * option error);
  pod_owners : Pod → list (string * string);
  restored_volumes : Object → list (string * string);
  NodeCount : Object → option Z;
  pds_ClusterResourceName : Object → option string;
  show_pds_Namespace : Object → string;
  show_proxy : ProxyProtocol → string;
}.

Definition PureFile : string := "pure_file".
Definition PureBlock : string := "pure_block".
Definition PureDAVolumeLabel : string := "pure_direct_access".
Definition PureDAVolumeLabelValueFA : string := "fada".
Definition PureDAVolumeLabelValueFB : string := "fbda".
Definition FADAVolumeSerialLabel : string := "fada_volume_serial".
Definition PvcNameKey : string := "pvc_name".
Definition PvcNamespaceKey : string := "pvc_namespace".
Definition SnapshotParent : string := "snapshot_parent".
Definition resizeSupportedAnnotationKey : string := "torpedo.io/resize-supported".
Definition ReadOnlyMany : string := "ReadOnlyMany".
Definition ReadWriteMany : string := "ReadWriteMany".
Definition PersistentVolumeBlock : string := "Block".

Definition isPVCShared (pvc : Object) : bool :=
  existsb (λ mode, bool_decide (mode = ReadOnlyMany) || bool_decide (mode = ReadWriteMany)) (AccessModes pvc).

(** [Quantity.AsInt64] with its flag dropped: zero when the quantity does not fit *)
Definition AsInt64 (q : Z) : Z := if decide (- two63 <= q < two63) then q else 0.

(** A volume with an identifier, and the name, namespace and sharing of a claim *)
Definition claim_volume (id : string) (pvc : Object) : Volume :=
  {| ID := id; Volume_Name := obj_Name pvc; Namespace := obj_Namespace pvc; PxVolume.Annotations := ∅;
     PxVolume.Labels := ∅; Size := 0; RequestedSize := 0; Shared := isPVCShared pvc; Raw := false |}.

(** [%v] of an error that may be nil *)
Definition nil_error : error := Errorf "<nil>".

Section volumes.
Context `{ExpansionEnv}.
Context {W : Type} `{SchedWorld W} `{K8sClient W} `{SpecFiles} `{HelmLib W} `{K8sCreateApi W} `{K8sAppsApi W}.
Context `{AutopilotApi W} `{K8sAutopilotApi W} `{K8sDelete W} `{K8sVolumeApi W}.
Context `{NodeDriver W} `{SchedOps W} `{K8sCore W} `{PxSdk W} `{VolumeSdk W} `{VolumeEnv W}.
Context `{MapOrder W} `{DriveServices W} `{ClusterServices W}.
Context (volumes : VolumePackage) (fuel : nat) (range_events : list (string * Z) → list (string * Z)).

(** ** Claims of Pure volumes *)

Definition filterPureTypeVolumeIfEnabled (claim : Object) (volTypes : list string) : M W bool :=
  k ← get_k8s;
  if PureVolumes k then
    scForPvc ← GetStorageClassForPVC claim;
    match default ∅ (Parameters (sc (Spec scForPvc))) !! "backend" with
    | Some backend => mret (existsb (λ t, bool_decide (backend = t)) volTypes)
    | None => mret false
    end
  else mret true.

Definition filterPureVolumesIfEnabled (claim : Object) : M W bool :=
  filterPureTypeVolumeIfEnabled claim [PureFile; PureBlock].

Definition filterPureVolumesIfEnabledByPureVolBackend (claim : Object) (pureVolBackend : string) : M W bool :=
  filterPureTypeVolumeIfEnabled claim [pureVolBackend].

(** ** Parameters *)

Definition GetVolumeDriverVolumeName (name namespace : string) : M W string :=
  pvc ← wrap_err (λ err, Errorf ("failed to get PVC: " +:+ name +:+ " in namespace " +:+ namespace +:+ ". Err: " +:+
            Error err)) (get_object KPersistentVolumeClaim name namespace);
  mret (VolumeName pvc).

(** The claims of a stateful set; an error, or a nil list *)
Definition set_claims (failed : error → error) (ss : Object) : M W (list Object) :=
  attempt (GetPVCsForStatefulSet ss) (λ r,
    match r with
    | inl (Some l) => mret l
    | inl None => throw (failed nil_error)
    | inr err => throw (failed err)
    end).

(** The parameters of a claim with its annotations, its name and its namespace *)
Definition claim_params (params : gmap string string) (pvc : Object) : gmap string string :=
  <[PvcNamespaceKey := obj_Namespace pvc]> (<[PvcNameKey := obj_Name pvc]> (K8sObjects.Annotations pvc ∪ params)).

Fixpoint set_params (ctx : Context) (labels : gmap string string) (pvcs : list Object)
    (result : gmap string (gmap string string)) : M W (gmap string (gmap string string)) :=
  match pvcs with
  | [] => mret result
  | pvc :: pvcs' =>
      params ← wrap_err (app_failed AppErrFailedToGetVolumeParameters ctx
                   ("Failed to get params for volume: " +:+ obj_Name pvc +:+ ", namespace: " +:+ obj_Namespace pvc +:+
                    ". Err: ")) (GetPersistentVolumeClaimParams pvc);
      let params1 := claim_params params pvc in
      let params2 :=
        if decide (VolumeName pvc ≠ "" ∧ TopologyLabels (ScheduleOpts ctx) ≠ []) then labels ∪ params1 else params1 in
      set_params ctx labels pvcs' (<[VolumeName pvc := params2]> result)
  end.

(** The claims of a stateful set that was found by name *)
Definition params_of_set (ctx : Context) (name ns : string) (result : gmap string (gmap string string))
    : M W (gmap string (gmap string string)) :=
  let failed := app_failed AppErrFailedToGetVolumeParameters ctx in
  ss ← wrap_err (failed ("Failed to get StatefulSet: " +:+ name +:+ ", Namespace : " +:+ ns +:+ ". Err: "))
         (get_object KStatefulSet name ns);
  pvcs ← set_claims (failed ("Failed to get PVCs for StatefulSet: " +:+ obj_Name ss +:+ ", Namespace: " +:+
           obj_Namespace ss +:+ ". Err: ")) ss;
  labels ← (if decide (TopologyLabels (ScheduleOpts ctx) ≠ []) then
              nodeAff ← lift (deref (Affinity ss)); lift (getLabelsFromNodeAffinity nodeAff)
            else mret ∅);
  set_params ctx labels pvcs result.

Definition params_of (ctx : Context) (obj : Object) (result : gmap string (gmap string string))
    : M W (gmap string (gmap string string)) :=
  let failed := app_failed AppErrFailedToGetVolumeParameters ctx in
  let fail_with (msg : string) : error := AppErr AppErrFailedToGetVolumeParameters (Key (App ctx)) msg in
  match obj_kind obj with
  | KPersistentVolumeClaim =>
      params ← wrap_err (failed ("failed to get params for volume: " +:+ at_ns (obj_Name obj) (obj_Namespace obj)))
                 (GetPersistentVolumeClaimParams obj);
      pvc ← wrap_err (failed ("failed to get PVC: " +:+ at_ns (obj_Name obj) (obj_Namespace obj)))
              (get_object KPersistentVolumeClaim (obj_Name obj) (obj_Namespace obj));
      mret (<[VolumeName pvc := claim_params params pvc]> result)
  | KVolumeSnapshot =>
      snap ← wrap_err (failed ("failed to get Snapshot: " +:+ at_ns (obj_Name obj) (obj_Namespace obj)))
               (get_object KVolumeSnapshot (obj_Name obj) (obj_Namespace obj));
      let snapDataName := SnapshotDataName (snapshot (Spec snap)) in
      if decide (snapDataName = "") then
        throw (fail_with ("snapshot: [" +:+ obj_Namespace snap +:+ "] " +:+ obj_Name snap +:+
                          " does not have snapshotdata set"))
      else
        '(data, err) ← GetSnapshotData snapDataName;
        d ← lift (deref data);
        match err with
        | Some e => throw (fail_with ("failed to get volumesnapshotdata: [" +:+ sd_Namespace d +:+ "] " +:+ snapDataName +:+
                                      " due to: " +:+ Error e))
        | None =>
            let id := default "" (SnapshotID <$> sd_Portworx d) in
            if decide (id = "") then
              throw (fail_with ("volumesnapshotdata: [" +:+ sd_Namespace d +:+ "] " +:+ snapDataName +:+
                                " does not have portworx volume source set"))
            else mret (<[id := {[SnapshotParent := default "" (SnapshotSource (snapshot (Spec snap)))]}]> result)
        end
  | KModelsDeployment =>
      ns ← lift (deref (pds_Namespace obj));
      params_of_set ctx (ClusterResourceName obj) ns result
  | KStatefulSet => params_of_set ctx (obj_Name obj) (obj_Namespace obj) result
  | _ => mret result
  end.

Fixpoint params_of_specs (ctx : Context) (specs : list Object) (result : gmap string (gmap string string))
    : M W (gmap string (gmap string string)) :=
  match specs with
  | [] => mret result
  | o :: specs' => result' ← params_of ctx o result; params_of_specs ctx specs' result'
  end.

Definition GetVolumeParameters (ctx : Context) : M W (gmap string (gmap string string)) :=
  params_of_specs ctx (SpecList (App ctx)) ∅.

(** ** Validation *)

Definition rule_resizes (rule : AutopilotRule) (pvc : Object) : list AutopilotRule :=
  omap (λ a, if decide (Action_Name a = VolumeSpecAction ∧
                        isAutopilotMatchPvcLabels PxExpansion.range_labels rule pvc = true)
             then Some rule else None) (Actions rule).

(** The sizes of a claim whose annotation asks for autopilot *)
Definition validate_autopilot_sizes (ctx : Context) (obj : Object) (timeout retryInterval : Z) : M W unit :=
  enabled ← IsAutopilotEnabled;
  if (enabled : bool) then
    rules ← ListAutopilotRules;
    for_each (λ rule, validatePVCSize volumes fuel ctx obj rule (i64 (5 * timeout)) retryInterval)
      (mjoin ((λ r, rule_resizes r obj) <$> rules))
  else throw (Errorf "Autopilot is not enabled").

(** The claims of a set: the timeout is multiplied by a number of replicas *)
Definition validate_set_claims (ctx : Context) (ss : Object) (scalingFactor timeout retryInterval : Z) : M W unit :=
  wrap_err (app_failed AppErrFailedToValidateStorage ctx
      ("Failed to validate PVCs for statefulset: " +:+ at_ns (obj_Name ss) (obj_Namespace ss)))
    (ValidatePVCsForStatefulSet ss (i64 (timeout * scalingFactor)) retryInterval).

Definition validate_volume (ctx : Context) (timeout retryInterval : Z) (options : option VolumeOptions) (obj : Object)
    : M W unit :=
  let failed := app_failed AppErrFailedToValidateStorage ctx in
  let flag f := default false (f <$> options) in
  let name := obj_Name obj in
  let ns := obj_Namespace obj in
  match obj_kind obj with
  | KStorageClass =>
      if SkipClusterScopedObject ctx then mret tt
      else
        '(_, err) ← client_Get KStorageClass name "";
        match err with
        | Some e => if flag SkipClusterScopedObjects then mret tt
                    else throw (failed ("Failed to validate StorageClass: " +:+ name +:+ ". Err: ") e)
        | None => mret tt
        end
  | KPersistentVolumeClaim =>
      _ ← attempt (ValidatePersistentVolumeClaim obj timeout retryInterval) (λ r,
            match r with
            | inl _ => mret tt
            | inr err => if flag ExpectError then mret tt
                         else throw (failed ("Failed to validate PVC: " +:+ name +:+ ", Namespace: " +:+ ns +:+ ". Err: ") err)
            end);
      autopilotEnabledOnPvc ← match K8sObjects.Annotations obj !! autopilotEnabledAnnotationKey with
                              | Some v => lift (parse_annotation v)
                              | None => mret false
                              end;
      if (autopilotEnabledOnPvc : bool) then validate_autopilot_sizes ctx obj timeout retryInterval else mret tt
  | KVolumeSnapshot =>
      wrap_err (failed ("Failed to validate snapshot: " +:+ name +:+ ", Namespace: " +:+ ns +:+ ". Err: "))
        (ext_ValidateSnapshot name ns true timeout retryInterval)
  | KGroupVolumeSnapshot =>
      wrap_err (failed ("Failed to validate group snapshot: " +:+ name +:+ ", Namespace: " +:+ ns +:+ ". Err: "))
        (ValidateGroupSnapshot name ns true timeout retryInterval)
  | KModelsDeployment =>
      pdsNs ← lift (deref (pds_Namespace obj));
      ss ← wrap_err (failed ("Failed to get StatefulSet: " +:+ show_pds_Name obj +:+ " , Namespace: " +:+
             show_pds_Namespace obj +:+ ". Err: "))
             (get_object KStatefulSet (ClusterResourceName obj) pdsNs);
      replicas ← lift (deref (Replicas ss));
      nodes ← lift (deref (NodeCount obj));
      let scalingFactor := if decide (nodes < replicas) then i32 (replicas - replicas) else replicas in
      validate_set_claims ctx ss scalingFactor timeout retryInterval
  | KStatefulSet =>
      ss ← wrap_err (failed ("Failed to get StatefulSet: " +:+ name +:+ ", Namespace: " +:+ ns +:+ ". Err: "))
             (get_object KStatefulSet name ns);
      wanted ← lift (deref (Replicas obj));
      replicas ← lift (deref (Replicas ss));
      let scalingFactor := if decide (wanted < replicas) then i32 (replicas - wanted) else wanted in
      validate_set_claims ctx ss scalingFactor timeout retryInterval
  | _ => mret tt
  end.

Definition ValidateVolumes (ctx : Context) (timeout retryInterval : Z) (options : option VolumeOptions) : M W unit :=
  for_each (validate_volume ctx timeout retryInterval options) (SpecList (App ctx)).

Definition GetSnapShotData (ctx : Context) (snapshotName snapshotNameSpace : string) : M W (option SnapshotData) :=
  snap ← wrap_err (app_failed AppErrFailedToGetSnapShot ctx ("failed to get Snapshot: " +:+ snapshotName +:+ ". Err: "))
           (get_object KVolumeSnapshot snapshotName snapshotNameSpace);
  let snapDataName := SnapshotDataName (snapshot (Spec snap)) in
  if decide (snapDataName = "") then
    throw (AppErr AppErrFailedToGetSnapShotDataName (Key (App ctx))
      ("snapshot: [" +:+ obj_Namespace snap +:+ "] " +:+ obj_Name snap +:+ " does not have snapshotdata set"))
  else
    '(data, err) ← GetSnapshotData snapDataName;
    match err with
    | Some e => throw (app_failed AppErrFailedToGetSnapShotData ctx
                  ("failed to get volumesnapshotdata: " +:+ snapDataName +:+ " due to: ") e)
    | None => mret data
    end.

(** ** Deletion *)

(** Delete; [false] when there was nothing to delete *)
Definition delete_found (failed : error → error) (m : M W unit) : M W bool :=
  attempt m (λ r,
    match r with
    | inl _ => mret true
    | inr err => if IsNotFound err then mret false else throw (failed err)
    end).

(** Get an object that may be missing *)
Definition get_found (failed : error → error) (k : Kind) (name ns : string) : M W (option Object) :=
  attempt (get_object k name ns) (λ r,
    match r with
    | inl o => mret (Some o)
    | inr err => if IsNotFound err then mret None else throw (failed err)
    end).

(** A claim is read for the identifier of its volume and then deleted. *)
Definition delete_claim (get_failed delete_failed : error → error) (pvc : Object) : M W (list Volume) :=
  found ← get_found get_failed KPersistentVolumeClaim (obj_Name pvc) (obj_Namespace pvc);
  match found with
  | None => mret []
  | Some pvcObj =>
      _ ← delete_found delete_failed (client_Delete KPersistentVolumeClaim (obj_Name pvc) (obj_Namespace pvc));
      mret [claim_volume (VolumeName pvcObj) pvc]
  end.

Fixpoint delete_set_claims (failed : string → error → error) (pvcs : list Object) : M W (list Volume) :=
  match pvcs with
  | [] => mret []
  | pvc :: pvcs' =>
      vols ← delete_claim (failed ("Failed to get PVC: " +:+ obj_Name pvc +:+ ". Err: "))
               (failed ("Failed to destroy PVC: " +:+ obj_Name pvc +:+ ". Err: ")) pvc;
      rest ← delete_set_claims failed pvcs';
      mret (vols ++ rest)
  end.

(** What one spec adds to the volumes *)
Definition delete_volume (ctx : Context) (options : option VolumeOptions) (obj : Object) : M W (list Volume) :=
  let failed := app_failed AppErrFailedToDestroyStorage ctx in
  let key := "[" +:+ Key (App ctx) +:+ "] " in
  let name := obj_Name obj in
  let ns := obj_Namespace obj in
  match obj_kind obj with
  | KStorageClass =>
      match options with
      | Some o =>
          if SkipClusterScopedObjects o then mret [] else
          _ ← delete_found (failed ("Failed to destroy storage class: " +:+ name +:+ ". Err: "))
                (client_Delete KStorageClass name "");
          mret []
      | None => mret []
      end
  | KPersistentVolumeClaim =>
      delete_claim (failed (key +:+ "Failed to get PVC: " +:+ name +:+ ". Err: "))
        (failed (key +:+ "Failed to destroy PVC: " +:+ name +:+ ". Err: ")) obj
  | KVolumeSnapshot =>
      _ ← delete_found (failed ("Failed to destroy snapshot: " +:+ name +:+ ". Err: "))
            (client_Delete KVolumeSnapshot name ns);
      mret []
  | KGroupVolumeSnapshot =>
      _ ← delete_found (failed ("Failed to destroy group snapshot: " +:+ name +:+ ". Err: "))
            (client_Delete KGroupVolumeSnapshot name ns);
      mret []
  | KStatefulSet =>
      attempt (GetPVCsForStatefulSet obj) (λ r,
        let get_failed := failed ("Failed to get PVCs for StatefulSet: " +:+ name +:+ ". Err: ") in
        match r with
        | inl (Some pvcs) => delete_set_claims failed pvcs
        | inl None => throw (get_failed nil_error)
        | inr err => if IsNotFound err then mret [] else throw (get_failed err)
        end)
  | KPersistentVolume =>
      found ← get_found (failed (key +:+ "Failed to get PV: " +:+ name +:+ ". Err: ")) KPersistentVolume name "";
      match found with
      | None => mret []
      | Some pv =>
          _ ← delete_found (failed (key +:+ "Failed to destroy PV: " +:+ name +:+ ". Err: "))
                (client_Delete KPersistentVolume (obj_Name pv) "");
          mret []
      end
  | _ => mret []
  end.

Fixpoint delete_volumes (ctx : Context) (options : option VolumeOptions) (specs : list Object) : M W (list Volume) :=
  match specs with
  | [] => mret []
  | o :: specs' =>
      vols ← delete_volume ctx options o;
      rest ← delete_volumes ctx options specs';
      mret (vols ++ rest)
  end.

Definition DeleteVolumes (ctx : Context) (options : option VolumeOptions) : M W (list Volume) :=
  delete_volumes ctx options (SpecList (App ctx)).

(** ** The volumes behind the specs *)

(** [volume.Get(k.VolDriverName)]: the Portworx driver, or one of the registered others *)
Definition get_driver (name : string) : M W (option VolumeDriver) :=
  if decide (name = pxd_DriverName) then mret None
  else d ← lift (VolumeDrivers.Get name volumes); mret (Some d).

(** [driver.InspectVolume] *)
Definition driver_InspectVolume (driver : option VolumeDriver) (name : string) : M W (option ApiVolume) :=
  match driver with
  | None => InspectVolume name
  | Some d =>
      match dispatch d "InspectVolume" with
      | Some a => _ ← lift (answer_outcome a); mret None
      | None => mret None
      end
  end.

(** The error is one of a method the driver does not have. *)
Definition is_not_supported (err : error) : bool := match err with ErrNotSupported _ _ => true | _ => false end.

(** The labels a Pure volume gets; a volume that is not one keeps its own *)
Definition pure_labels (inspectedVol : ApiVolume) (labels : gmap string string) : outcome (gmap string string) :=
  match Spec_ProxySpec (Vol_Spec inspectedVol) with
  | None => Ok labels
  | Some ps =>
      if bool_decide (Proxy_Protocol ps = PROXY_PROTOCOL_PURE_BLOCK) || bool_decide (Proxy_Protocol ps = PROXY_PROTOCOL_PURE_FILE)
      then
        match Proxy_Protocol ps with
        | PROXY_PROTOCOL_PURE_BLOCK =>
            sn ← deref (PureBlock_SerialNum ps);
            Ok (<[FADAVolumeSerialLabel := sn]> (<[PureDAVolumeLabel := PureDAVolumeLabelValueFA]> labels))
        | PROXY_PROTOCOL_PURE_FILE => Ok (<[PureDAVolumeLabel := PureDAVolumeLabelValueFB]> labels)
        | p => Err (Errorf ("unknown proxy type " +:+ show_proxy p +:+ " for Pure volume"))
        end
      else Ok labels
  end.

Definition volume_labels (pvc : Object) : M W (gmap string string) :=
  let labels := default ∅ (K8sObjects.Labels pvc) in
  if decide (VolumeName pvc = "") then mret labels else
  k ← get_k8s;
  driver ← get_driver (VolDriverName k);
  attempt (driver_InspectVolume driver (VolumeName pvc)) (λ r,
    match r with
    | inl v => inspectedVol ← lift (deref v); lift (pure_labels inspectedVol labels)
    | inr err => if is_not_supported err then mret labels
                 else throw (Errorf ("failed to inspect volume " +:+ obj_Name pvc +:+ ": " +:+ Error err))
    end).

(** What [appendVolForPVC] appends *)
Definition appendVolForPVC (pvc : Object) : M W (list Volume) :=
  shouldAdd ← filterPureVolumesIfEnabled pvc;
  if (shouldAdd : bool) then
    labels ← volume_labels pvc;
    mret [{| ID := VolumeName pvc; Volume_Name := obj_Name pvc; Namespace := obj_Namespace pvc;
             PxVolume.Annotations := K8sObjects.Annotations pvc; PxVolume.Labels := labels;
             Size := u64 (AsInt64 (StorageRequest pvc)); RequestedSize := 0; Shared := isPVCShared pvc;
             Raw := bool_decide (VolumeMode (claim_spec (Spec pvc)) = Some PersistentVolumeBlock) |}]
  else mret [].

Fixpoint volumes_of_claims (pvcs : list Object) : M W (list Volume) :=
  match pvcs with
  | [] => mret []
  | pvc :: pvcs' => vols ← appendVolForPVC pvc; rest ← volumes_of_claims pvcs'; mret (vols ++ rest)
  end.

(** The claims of a virtual machine: [want] after the owners of a claim *)
Fixpoint owned_by_vm (vm : Object) (owners : list (string * string)) (want : bool) : M W bool :=
  match owners with
  | [] => mret want
  | (kind, name) :: owners' =>
      let want1 := want || (bool_decide (kind = TypeMeta_Kind vm) && bool_decide (name = obj_Name vm)) in
      want2 ← (if negb want1 && bool_decide (kind = "DataVolume") then
                 '(dataVol, err) ← GetDataVolume (obj_Namespace vm) name;
                 match err with
                 | Some e =>
                     if IsNotFound e then mret (existsb (λ o, bool_decide (o.2 = obj_Name vm)) (default [] dataVol))
                     else throw (Errorf ("error getting datavolume for vm: " +:+ obj_Name vm +:+ " in namespace: " +:+
                            obj_Namespace vm +:+ ". error: " +:+ Error e))
                 | None => mret (existsb (λ o, bool_decide (o.2 = obj_Name vm)) (default [] dataVol))
                 end
               else mret want1);
      owned_by_vm vm owners' want2
  end.

Definition launched_by (vm : Object) (pods : list Pod) : bool :=
  existsb (λ p, existsb (λ o, bool_decide (o.1 = "VirtualMachineInstance") && bool_decide (o.2 = obj_Name vm))
             (pod_owners p)) pods.

Definition vm_claim (vm pvc : Object) : M W (list Volume) :=
  if bool_decide (is_Some (K8sObjects.Annotations pvc !! "stork.libopenstorage.org/skip-resource")) then mret [] else
  want ← owned_by_vm vm (OwnerReferences (Spec pvc)) false;
  want' ← (if (want : bool) then mret true
           else pods ← wrap_err (λ err, Errorf ("failed to get pods in namespace: " +:+ obj_Namespace vm +:+ ": " +:+
                           Error err)) (GetPods (obj_Namespace vm));
                mret (launched_by vm pods));
  if (want' : bool) then appendVolForPVC pvc else mret [].

Fixpoint vm_claims (vm : Object) (pvcs : list Object) : M W (list Volume) :=
  match pvcs with
  | [] => mret []
  | pvc :: pvcs' => vols ← vm_claim vm pvc; rest ← vm_claims vm pvcs'; mret (vols ++ rest)
  end.

Definition claims_in (ns : string) : M W (list Object) :=
  wrap_err (λ err, Errorf ("failed to get PVCs in namespace " +:+ ns +:+ ": " +:+ Error err)) (GetPersistentVolumeClaims ns).

Definition labelled (key value : string) (o : Object) : bool := bool_decide (default ∅ (K8sObjects.Labels o) !! key = Some value).

Definition volumes_of_set (ctx : Context) (name shown ns : string) : M W (list Volume) :=
  ss ← wrap_err (app_failed AppErrFailedToGetStorage ctx
           ("Failed to get StatefulSet: " +:+ shown +:+ " , Namespace: " +:+ ns +:+ ". Err: "))
         (get_object KStatefulSet name ns);
  pvcs ← set_claims (app_failed AppErrFailedToGetStorage ctx
           ("Failed to get PVC from StatefulSet: " +:+ obj_Name ss +:+ ", Namespace: " +:+ obj_Namespace ss +:+ ". Err: ")) ss;
  volumes_of_claims pvcs.

(** What one spec adds to the volumes; the answer to the get of a claim is read for
    its name before the error is looked at *)
Definition volumes_of (ctx : Context) (obj : Object) : M W (list Volume) :=
  match obj_kind obj with
  | KPersistentVolumeClaim =>
      if labelled "portworx.io/kubevirt" "true" obj || labelled "app" "containerized-data-importer" obj then mret [] else
      '(pvcObj, err) ← client_Get KPersistentVolumeClaim (obj_Name obj) (obj_Namespace obj);
      pvc ← lift (deref pvcObj);
      match err with
      | Some e => throw (Errorf ("error getting pvc: " +:+ obj_Name obj +:+ ", namespace: " +:+ obj_Namespace obj +:+
                    ". Err: " +:+ Error e))
      | None => appendVolForPVC pvc
      end
  | KModelsDeployment =>
      name ← lift (deref (pds_ClusterResourceName obj));
      ns ← lift (deref (pds_Namespace obj));
      volumes_of_set ctx name (ClusterResourceName obj) ns
  | KStatefulSet => volumes_of_set ctx (obj_Name obj) (obj_Name obj) (obj_Namespace obj)
  | KVirtualMachine => pvcs ← claims_in (obj_Namespace obj); vm_claims obj pvcs
  | KPipelineRun =>
      pvcs ← claims_in (obj_Namespace obj);
      volumes_of_claims (keep (λ pvc, existsb (λ o, bool_decide (o.1 = TypeMeta_Kind obj) && bool_decide (o.2 = obj_Name obj))
                                        (OwnerReferences (Spec pvc))) pvcs)
  | _ => mret []
  end.

Fixpoint volumes_of_specs (ctx : Context) (specs : list Object) : M W (list Volume) :=
  match specs with
  | [] => mret []
  | o :: specs' => vols ← volumes_of ctx o; rest ← volumes_of_specs ctx specs'; mret (vols ++ rest)
  end.

Definition GetVolumes (ctx : Context) : M W (list Volume) := volumes_of_specs ctx (SpecList (App ctx)).

(** [GetPureVolumes]: the claims of a set are taken whatever their backend is *)
Definition pure_volumes_of (ctx : Context) (pureVolType : string) (obj : Object) : M W (list Volume) :=
  match obj_kind obj with
  | KPersistentVolumeClaim =>
      pvcObj ← get_object KPersistentVolumeClaim (obj_Name obj) (obj_Namespace obj);
      shouldAdd ← filterPureVolumesIfEnabledByPureVolBackend pvcObj pureVolType;
      if (shouldAdd : bool) then
        mode ← lift (deref (VolumeMode (claim_spec (Spec pvcObj))));
        mret [{| ID := VolumeName pvcObj; Volume_Name := obj_Name obj; Namespace := obj_Namespace obj;
                 PxVolume.Annotations := K8sObjects.Annotations obj;
                 PxVolume.Labels := default ∅ (K8sObjects.Labels pvcObj);
                 Size := u64 (AsInt64 (StorageRequest pvcObj)); RequestedSize := 0; Shared := isPVCShared obj;
                 Raw := bool_decide (mode = PersistentVolumeBlock) |}]
      else mret []
  | KStatefulSet =>
      ss ← wrap_err (app_failed AppErrFailedToGetStorage ctx ("Failed to get StatefulSet: " +:+ obj_Name obj +:+ ". Err: "))
             (get_object KStatefulSet (obj_Name obj) (obj_Namespace obj));
      pvcs ← set_claims (app_failed AppErrFailedToGetStorage ctx
               ("Failed to get PVC from StatefulSet: " +:+ obj_Name ss +:+ ". Err: ")) ss;
      mret ((λ pvc, claim_volume (VolumeName pvc) pvc) <$> pvcs)
  | _ => mret []
  end.

Fixpoint pure_volumes_of_specs (ctx : Context) (pureVolType : string) (specs : list Object) : M W (list Volume) :=
  match specs with
  | [] => mret []
  | o :: specs' =>
      vols ← pure_volumes_of ctx pureVolType o;
      rest ← pure_volumes_of_specs ctx pureVolType specs';
      mret (vols ++ rest)
  end.

Definition GetPureVolumes (ctx : Context) (pureVolType : string) : M W (list Volume) :=
  pure_volumes_of_specs ctx pureVolType (SpecList (App ctx)).

(** ** Resizing *)

Definition write_request (q : Z) (pvc : Object) : outcome Object :=
  if Requests_set (claim_spec (Spec pvc)) then Ok (set_StorageRequest q pvc) else Panic "assignment to entry in nil map".

(** The annotation that turns resizing off *)
Definition resizeSupported (pvc : Object) : bool :=
  match K8sObjects.Annotations pvc !! resizeSupportedAnnotationKey with
  | Some v => ParseBool v
  | None => true
  end.

(** [ResizePVC]; nil when the claim is filtered out *)
Definition ResizePVC (ctx : Context) (pvc : Object) (sizeInGb : Z) : M W (option Volume) :=
  shouldResize ← filterPureVolumesIfEnabled pvc;
  if (shouldResize : bool) then
    '(pvc', storageSize) ←
      (if resizeSupported pvc then
         let extraAmount := match PxExpansion.ParseQuantity (Itoa sizeInGb +:+ "Gi") with Ok q => q | _ => 0 end in
         let storageSize := StorageRequest pvc + extraAmount in
         pvc' ← lift (write_request storageSize pvc);
         _ ← wrap_err (λ err, AppErr AppErrFailedToResizeStorage (Key (App ctx)) (Error err)) (client_Update pvc');
         mret (pvc', storageSize)
       else mret (pvc, StorageRequest pvc));
    mret (Some {| ID := VolumeName pvc'; Volume_Name := obj_Name pvc'; Namespace := obj_Namespace pvc';
                  PxVolume.Annotations := ∅; PxVolume.Labels := ∅; Size := 0;
                  RequestedSize := u64 (AsInt64 storageSize); Shared := isPVCShared pvc'; Raw := false |})
  else mret None.

Definition resize_claim (ctx : Context) (pvc : Object) : M W (list (option Volume)) :=
  shouldResize ← filterPureVolumesIfEnabled pvc;
  if (shouldResize : bool) then vol ← ResizePVC ctx pvc 1; mret [vol] else mret [].

Fixpoint resize_claims (ctx : Context) (pvcs : list Object) : M W (list (option Volume)) :=
  match pvcs with
  | [] => mret []
  | pvc :: pvcs' => vols ← resize_claim ctx pvc; rest ← resize_claims ctx pvcs'; mret (vols ++ rest)
  end.

Definition resize_set (ctx : Context) (name ns shown : string) : M W (list (option Volume)) :=
  ss ← wrap_err (app_failed AppErrFailedToResizeStorage ctx ("Failed to get StatefulSet: " +:+ shown +:+ ". Err: "))
         (get_object KStatefulSet name ns);
  pvcs ← set_claims (app_failed AppErrFailedToResizeStorage ctx
           ("Failed to get PVC from StatefulSet: " +:+ obj_Name ss +:+ ". Err: ")) ss;
  resize_claims ctx pvcs.

(** One spec: the error of the get of a claim is dropped, and the claim is read *)
Definition resize_spec (ctx : Context) (obj : Object) : M W (list (option Volume)) :=
  match obj_kind obj with
  | KPersistentVolumeClaim =>
      '(updatedPVC, _) ← client_Get KPersistentVolumeClaim (obj_Name obj) (obj_Namespace obj);
      pvc ← lift (deref updatedPVC);
      resize_claim ctx pvc
  | KStatefulSet => resize_set ctx (obj_Name obj) (obj_Namespace obj) (obj_Name obj)
  | KModelsDeployment =>
      pdsNs ← lift (deref (pds_Namespace obj));
      resize_set ctx (ClusterResourceName obj) pdsNs (ClusterResourceName obj +:+ " , Namespace: " +:+ pdsNs)
  | _ => mret []
  end.

(** The annotations of a secret are written into the specs of the context one by one,
    before the claims of the spec are resized. *)
Definition secured_spec (ctx : Context) (configMapName : string) (obj : Object) : M W Object :=
  if decide (configMapName = "") then mret obj else
  k ← get_k8s;
  configMap ← wrap_err (λ err, SchedErr (ErrFailedToGetConfigMap configMapName)
                  ("Failed to get config map: Err: " +:+ Error err))
                (get_object KConfigMap configMapName "default");
  mret (addSecurityAnnotation (config k) (GetStorageProvisioner volumes) configMap (App ctx) obj).

Definition with_specs (l : list Object) (ctx : Context) : Context :=
  {| UID := UID ctx; App := set_SpecList l (App ctx); ScheduleOpts := ScheduleOpts ctx;
     SkipClusterScopedObject := SkipClusterScopedObject ctx |}.

Fixpoint resize_specs (configMapName : string) (before specs : list Object) : M (W * Context) (list (option Volume)) :=
  match specs with
  | [] => mret []
  | obj :: specs' =>
      ctx ← get_local;
      obj' ← up (secured_spec ctx configMapName obj);
      let ctx' := with_specs (before ++ obj' :: specs') ctx in
      _ ← put_local ctx';
      vols ← up (resize_spec ctx' obj');
      rest ← resize_specs configMapName (before ++ [obj']) specs';
      mret (vols ++ rest)
  end.

(** [ResizeVolume] on the world and the context behind the pointer *)
Definition ResizeVolume (configMapName : string) : M (W * Context) (list (option Volume)) :=
  ctx ← get_local;
  resize_specs configMapName [] (SpecList (App ctx)).

(** ** Snapshots *)

Definition as_snapshot (o : Object) : Snapshot :=
  {| Snapshot_ID := obj_UID o; Snapshot_Name := obj_Name o; Snapshot_Namespace := obj_Namespace o |}.

Fixpoint snapshots_of_specs (specs : list Object) : M W (list Snapshot) :=
  match specs with
  | [] => mret []
  | o :: specs' =>
      snaps ← match obj_kind o with
              | KVolumeSnapshot => mret [as_snapshot o]
              | KGroupVolumeSnapshot =>
                  l ← GetSnapshotsForGroupSnapshot (obj_Name o) (obj_Namespace o); mret (as_snapshot <$> l)
              | _ => mret []
              end;
      rest ← snapshots_of_specs specs';
      mret (snaps ++ rest)
  end.

Definition GetSnapshots (ctx : Context) : M W (list Snapshot) := snapshots_of_specs (SpecList (App ctx)).

(** A snapshot that is not found is logged as skipped and reported as an error. *)
Definition DeleteSnapShot (ctx : Context) (snapshotName snapshotNameSpace : string) : M W unit :=
  wrap_err (app_failed AppErrFailedToDestroyStorage ctx ("Failed to destroy snapshot: " +:+ snapshotName +:+ ". Err: "))
    (client_Delete KVolumeSnapshot snapshotName snapshotNameSpace).

Definition DeleteCsiSnapshot (ctx : Context) (snapshotName snapshotNameSpace : string) : M W unit :=
  wrap_err (app_failed AppErrFailedToDestroyStorage ctx ("Failed to delete snapshot: " +:+ snapshotName +:+ ". Err: "))
    (DeleteCsiVolumeSnapshot snapshotName snapshotNameSpace).

Definition GetSnapshotsInNameSpace (snapshotNameSpace : string) : M W (list Object) :=
  _ ← pause (10 * Second);
  ListSnapshots snapshotNameSpace.

Definition IsCsiSnapshotExists (snapshotName namespace : string) : M W bool :=
  snaplist ← GetSnapshotsInNameSpace namespace;
  mret (existsb (λ s, bool_decide (obj_Name s = snapshotName)) snaplist).

Definition DeleteCsiSnapshotsFromNamespace (ctx : Context) (namespace : string) : M W unit :=
  snaplist ← GetSnapshotsInNameSpace namespace;
  for_each (λ s, DeleteCsiSnapshot ctx (obj_Name s) namespace) snaplist.

(** *** Restores *)

(** [driver.ValidateVolumeSnapshotRestore] *)
Definition driver_ValidateVolumeSnapshotRestore (driver : option VolumeDriver) (vol : string) (data : SnapshotData)
    (timeStart : Z) : M W unit :=
  match driver with
  | None => ValidateVolumeSnapshotRestore vol (sd_Portworx data) timeStart
  | Some d =>
      match dispatch d "ValidateVolumeSnapshotRestore" with
      | Some a => lift (answer_outcome a)
      | None => mret tt
      end
  end.

(** The restores of the specs; the last one is kept *)
Fixpoint last_restore (specs : list Object) (snapRestore : option Object) : M W (option Object) :=
  match specs with
  | [] => mret snapRestore
  | o :: specs' =>
      match obj_kind o with
      | KVolumeSnapshotRestore =>
          r ← wrap_err (λ err, Errorf ("unable to restore volumesnapshotrestore details " +:+ Error err))
                (get_object KVolumeSnapshotRestore (obj_Name o) (obj_Namespace o));
          _ ← stork_ValidateVolumeSnapshotRestore (obj_Name r) (obj_Namespace r) DefaultTimeout DefaultRetryInterval;
          last_restore specs' (Some r)
      | _ => last_restore specs' snapRestore
      end
  end.

Definition validate_restored (driver : option VolumeDriver) (timeStart : Z) (vol : string * string) : M W unit :=
  '(data, err) ← GetSnapshotData vol.2;
  match err with
  | Some e => throw (Errorf ("failed to retrieve VolumeSnapshotData " +:+ vol.2 +:+ ": " +:+ Error e))
  | None =>
      d ← lift (deref data);
      _ ← wrap_err (λ err, Errorf ("snapshot: " +:+ sd_Name d +:+ " is not complete. " +:+ Error err))
            (ValidateSnapshotData (sd_Name d) false DefaultTimeout DefaultRetryInterval);
      driver_ValidateVolumeSnapshotRestore driver vol.1 d timeStart
  end.

Definition K8s_ValidateVolumeSnapshotRestore (ctx : option Context) (timeStart : Z) : M W unit :=
  match ctx with
  | None => throw (Errorf "no context provided")
  | Some ctx =>
      k ← get_k8s;
      driver ← get_driver (VolDriverName k);
      snapRestore ← last_restore (SpecList (App ctx)) None;
      match snapRestore with
      | None => throw (Errorf "no valid volumesnapshotrestore specs found")
      | Some r => for_each (validate_restored driver timeStart) (restored_volumes r)
      end
  end.

End volumes.

(** ** What is deleted *)

(** The types [DeleteVolumes] deletes, and where *)
Definition deleted_storage (options : option VolumeOptions) (o : Object) : option string :=
  match obj_kind o with
  | KPersistentVolumeClaim | KVolumeSnapshot | KGroupVolumeSnapshot => Some (obj_Namespace o)
  | KPersistentVolume => Some ""
  | KStorageClass => match options with
                     | Some v => if SkipClusterScopedObjects v then None else Some ""
                     | None => None
                     end
  | _ => None
  end.

Section deletion.
Context {W : Type} `{SchedWorld W} `{K8sClient W} `{K8sCreateApi W} `{K8sAppsApi W} `{K8sDelete W}.
Context `{K8sVolumeApi W}.

(** One call of [DeleteVolumes].  None of them creates. *)
Inductive removing : W → W → Prop :=
  | removing_get k n ns w : removing w (client_Get k n ns w).2
  | removing_delete k n ns w : removing w (client_Delete k n ns w).2
  | removing_claims o w : removing w (GetPVCsForStatefulSet o w).2.

(** The cluster said that it has no such object, or will not have it: its delete was
    answered without an error, or the delete or a get with "not found". *)
Definition given_up (k : Kind) (n ns : string) (wa wb : W) : Prop :=
  client_Delete k n ns wa = (Ok tt, wb) ∨
  (∃ e, client_Delete k n ns wa = (Err e, wb) ∧ IsNotFound e = true) ∨
  ∃ e, get_object k n ns wa = (Err e, wb) ∧ IsNotFound e = true.

(** From there the run went on to the world. *)
Definition gone (k : Kind) (n ns : string) (w : W) : Prop :=
  ∃ wa wb, given_up k n ns wa wb ∧ rtc removing wb w.

(** A persistent volume is read, and deleted under the name in the answer. *)
Definition volume_gone (n : string) (w : W) : Prop :=
  gone KPersistentVolume n "" w ∨
  ∃ pv wr wa wb, get_object KPersistentVolume n "" wr = (Ok pv, wa) ∧
    given_up KPersistentVolume (obj_Name pv) "" wa wb ∧ rtc removing wb w.

Definition storage_gone (k : Kind) (n ns : string) (w : W) : Prop :=
  if decide (k = KPersistentVolume) then volume_gone n w else gone k n ns w.

(** What later calls do not take away *)
Class OnlyRemoves {A} (m : M W A) : Prop := goes_on : ∀ w, rtc removing w (m w).2.

#[local] Instance removing_client_Get k n ns : OnlyRemoves (client_Get k n ns).
Proof. intros w. apply rtc_once. constructor. Qed.
#[local] Instance removing_client_Delete k n ns : OnlyRemoves (client_Delete k n ns).
Proof. intros w. apply rtc_once. constructor. Qed.
#[local] Instance removing_set_claims o : OnlyRemoves (GetPVCsForStatefulSet o).
Proof. intros w. apply rtc_once. constructor. Qed.

Definition after (w0 w : W) : Prop := rtc removing w0 w.

Lemma only_removes_of {A} (m : M W A) w0 : OnlyRemoves m → preserves (after w0) m.
Proof. intros Hm w Hw. unfold after in *. by etrans; [|apply Hm]. Qed.

Hint Extern 1 (preserves (after _) _) => apply only_removes_of; apply _ : torpedo.

Lemma goes_on_of {A} (m : M W A) : (∀ w0, preserves (after w0) m) → OnlyRemoves m.
Proof. intros Hm w. apply (Hm w w). apply rtc_refl. Qed.

#[local] Instance get_object_keeps k n ns : OnlyRemoves (get_object k n ns : M W Object).
Proof.
  apply goes_on_of. intros w0. unfold get_object. apply preserves_bind; [auto with torpedo|]. intros [o [e|]]; preserve.
Qed.

#[local] Instance delete_claim_keeps f g pvc : OnlyRemoves (delete_claim f g pvc : M W (list Volume)).
Proof. apply goes_on_of. intros w0. unfold delete_claim, get_found, delete_found. preserve. Qed.

#[local] Instance delete_set_claims_keeps failed pvcs : OnlyRemoves (delete_set_claims failed pvcs : M W (list Volume)).
Proof.
  apply goes_on_of. intros w0. induction pvcs as [|pvc pvcs IH]; simpl; [preserve|].
  apply preserves_bind; [auto with torpedo|]. intros l. apply preserves_bind; [done|]. intros. preserve.
Qed.

#[local] Instance delete_volume_keeps ctx options o : OnlyRemoves (delete_volume ctx options o : M W (list Volume)).
Proof.
  apply goes_on_of. intros w0. unfold delete_volume, get_found, delete_found. cbv zeta.
  destruct (obj_kind o); preserve.
Qed.

#[local] Instance delete_volumes_keeps ctx options l : OnlyRemoves (delete_volumes ctx options l : M W (list Volume)).
Proof.
  apply goes_on_of. intros w0. induction l as [|y l IH]; simpl; [preserve|].
  apply preserves_bind; [auto with torpedo|]. intros u. apply preserves_bind; [done|]. intros. preserve.
Qed.

Lemma storage_gone_later k n ns w w' : storage_gone k n ns w → rtc removing w w' → storage_gone k n ns w'.
Proof.
  assert (∀ k n ns, gone k n ns w → rtc removing w w' → gone k n ns w') as Hg.
  { intros k0 n0 ns0 (wa & wb & Hd & Hr) Hs. exists wa, wb. split; [done|]. by etrans. }
  unfold storage_gone, volume_gone. case_decide; [|by apply Hg].
  intros [Hd|(pv & wr & wa & wb & Hr & Hd & Ha)] Hs; [left; by apply Hg|right].
  exists pv, wr, wa, wb. split_and!; [done..|]. by etrans.
Qed.

Lemma delete_found_gone failed k n ns (w : W) b w' :
  delete_found failed (client_Delete k n ns) w = (Ok b, w') → given_up k n ns w w'.
Proof.
  unfold delete_found, attempt, given_up. destruct (client_Delete k n ns w) as [[[]|e|s|] w1] eqn:E; try done.
  - unfold mret, M_ret. intros [= <- <-]. by left.
  - destruct (IsNotFound e) eqn:Hn; [|done]. unfold mret, M_ret. intros [= <- <-]. right. left. by exists e.
Qed.

Lemma get_found_inv failed k n ns (w : W) x w' :
  get_found failed k n ns w = (Ok x, w') →
  match x with Some o => get_object k n ns w = (Ok o, w') | None => given_up k n ns w w' end.
Proof.
  unfold get_found, attempt, given_up. destruct (get_object k n ns w) as [[o|e|s|] w1] eqn:E; try done.
  - unfold mret, M_ret. by intros [= <- <-].
  - destruct (IsNotFound e) eqn:Hn; [|done]. unfold mret, M_ret. intros [= <- <-]. right. right. by exists e.
Qed.

Lemma gone_here k n ns (wa w : W) : given_up k n ns wa w → gone k n ns w.
Proof. intros Hd. by exists wa, w. Qed.

(** The last delete of a chain that succeeded *)
Ltac by_delete Hm :=
  let Hdel := fresh in
  apply bind_Ok_inv in Hm as (? & ? & Hdel & Hm); apply delete_found_gone in Hdel;
  unfold mret, M_ret in Hm; simplify_eq; by eapply gone_here.

Lemma delete_volume_gone ctx options o (w : W) vols w' ns :
  deleted_storage options o = Some ns →
  delete_volume ctx options o w = (Ok vols, w') → storage_gone (obj_kind o) (obj_Name o) ns w'.
Proof.
  unfold deleted_storage, delete_volume, storage_gone. cbv zeta.
  destruct (obj_kind o) eqn:E; intros Hd; simplify_eq; intros Hm; try done;
    first [rewrite decide_False by done|rewrite decide_True by done].
  - apply bind_Ok_inv in Hm as (x & w1 & Hg & Hm). apply get_found_inv in Hg as Hx.
    destruct x as [pvc|]; [by_delete Hm|]. unfold mret, M_ret in Hm. simplify_eq. by eapply gone_here.
  - destruct options as [v|]; [|done]. destruct (SkipClusterScopedObjects v); [done|]. simplify_eq. by_delete Hm.
  - by_delete Hm.
  - by_delete Hm.
  - apply bind_Ok_inv in Hm as (x & w1 & Hg & Hm). apply get_found_inv in Hg as Hx.
    destruct x as [pv|]; [right|left; unfold mret, M_ret in Hm; simplify_eq; by eapply gone_here].
    apply bind_Ok_inv in Hm as (? & ? & Hdel & Hm). apply delete_found_gone in Hdel.
    unfold mret, M_ret in Hm. simplify_eq. by exists pv, w, w1, w'.
Qed.

(** C25. When [DeleteVolumes] succeeds, the claims, snapshots and persistent volumes of the
    specs, and the storage classes when options were given that do not skip them, were
    each given up by the cluster: it accepted the delete of the object or answered that
    there is none, and from there on only gets, listings and deletes followed. *)
Theorem DeleteVolumes_deletes ctx options (w : W) vols w' o ns :
  DeleteVolumes ctx options w = (Ok vols, w') →
  o ∈ SpecList (App ctx) → deleted_storage options o = Some ns →
  storage_gone (obj_kind o) (obj_Name o) ns w'.
Proof.
  unfold DeleteVolumes. generalize (SpecList (App ctx)). intros l. revert w vols.
  induction l as [|x l IH]; intros w vols; simpl; [intros _ Ho; by apply elem_of_nil in Ho|].
  intros (v & w1 & Hx & (rest & w2 & Hr & Hm)%bind_Ok_inv)%bind_Ok_inv Ho Hd.
  unfold mret, M_ret in Hm. injection Hm as _ ->. apply elem_of_cons in Ho as [->|Ho]; [|by eapply IH].
  eapply storage_gone_later; [by eapply delete_volume_gone|].
  pose proof (delete_volumes_keeps ctx options l w1) as Hk. by rewrite Hr in Hk.
Qed.
End deletion.

(** ** Filters, timeouts and sizes *)

Section volume_results.
Context `{ExpansionEnv}.
Context {W : Type} `{SchedWorld W} `{K8sClient W} `{SpecFiles} `{HelmLib W} `{K8sCreateApi W} `{K8sAppsApi W}.
Context `{AutopilotApi W} `{K8sAutopilotApi W} `{K8sDelete W} `{K8sVolumeApi W}.
Context `{NodeDriver W} `{SchedOps W} `{K8sCore W} `{PxSdk W} `{VolumeSdk W} `{VolumeEnv W}.
Context `{MapOrder W} `{DriveServices W} `{ClusterServices W}.
Context (volumes : VolumePackage) (fuel : nat).

(** A data service whose stateful set has more replicas than nodes were asked for is
    validated with no time at all: the number of replicas is subtracted from itself,
    and the timeout multiplied by the difference. *)
Theorem ValidateVolumes_no_time ctx timeout retryInterval options obj ns ss replicas nodes (w w1 : W) :
  SpecList (App ctx) = [obj] → obj_kind obj = KModelsDeployment → pds_Namespace obj = Some ns →
  get_object KStatefulSet (ClusterResourceName obj) ns w = (Ok ss, w1) →
  Replicas ss = Some replicas → NodeCount obj = Some nodes → nodes < replicas →
  ValidateVolumes volumes fuel ctx timeout retryInterval options w =
    (_ ← wrap_err (app_failed AppErrFailedToValidateStorage ctx
             ("Failed to validate PVCs for statefulset: " +:+ at_ns (obj_Name ss) (obj_Namespace ss)))
           (ValidatePVCsForStatefulSet ss 0 retryInterval);
     mret tt) w1.
Proof.
  intros Hs Hk Hns Hg Hr Hn Hlt. unfold ValidateVolumes. rewrite Hs. simpl. unfold validate_volume. rewrite Hk, Hns. simpl.
  unfold mbind at 1, M_bind at 1. rewrite bind_Ok with (a := ns) (w1 := w) by done.
  rewrite bind_Ok with (a := ss) (w1 := w1) by (by apply wrap_err_Ok). rewrite Hr, Hn. simpl.
  rewrite bind_Ok with (a := replicas) (w1 := w1) by done. rewrite bind_Ok with (a := nodes) (w1 := w1) by done.
  cbv zeta. rewrite decide_True by done. unfold validate_set_claims.
  replace (i32 (replicas - replicas)) with 0 by (by rewrite Z.sub_diag). by rewrite Z.mul_0_r.
Qed.

(** Without Pure volumes every claim passes the filter and no call is made; with them,
    exactly the claims of a class whose backend is one of the types. *)
Lemma filterPure_spec claim volTypes (w : W) :
  filterPureTypeVolumeIfEnabled claim volTypes w =
    if PureVolumes (k8s w) then
      (scForPvc ← GetStorageClassForPVC claim;
       mret (from_option (λ t, bool_decide (t ∈ volTypes)) false
               (default ∅ (Parameters (sc (Spec scForPvc))) !! "backend"))) w
    else (Ok true, w).
Proof.
  unfold filterPureTypeVolumeIfEnabled, get_k8s, mbind at 1, M_bind at 1. simpl.
  destruct (PureVolumes (k8s w)); [|done]. unfold mbind, M_bind.
  destruct (GetStorageClassForPVC claim w) as [[c|e|s|] w1]; try done.
  destruct (default ∅ (Parameters (sc (Spec c))) !! "backend") as [b|]; [|done]. unfold mret, M_ret. do 2 f_equal.
  apply eq_true_iff_eq. rewrite existsb_exists. simpl. setoid_rewrite bool_decide_eq_true.
  setoid_rewrite <- list_elem_of_In. naive_solver.
Qed.

(** [ResizePVC] with the filter off asks the cluster for the old size plus the given
    number of GiB, as the quantity parser reads it, and reports that as the requested
    size of the volume while it fits 63 bits; a claim whose annotation denies resizing
    is left alone and reported with its own size. *)
Theorem ResizePVC_spec ctx pvc n q (w : W) :
  PureVolumes (k8s w) = false → Requests_set (claim_spec (Spec pvc)) = true →
  PxExpansion.ParseQuantity (Itoa n +:+ "Gi") = Ok q → 0 <= q → 0 <= StorageRequest pvc → StorageRequest pvc + q < two63 →
  let resized := set_StorageRequest (StorageRequest pvc + q) pvc in
  let requested z := {| ID := VolumeName pvc; Volume_Name := obj_Name pvc; Namespace := obj_Namespace pvc;
                        PxVolume.Annotations := ∅; PxVolume.Labels := ∅; Size := 0; RequestedSize := z;
                        Shared := isPVCShared pvc; Raw := false |} in
  ResizePVC ctx pvc n w =
    if resizeSupported pvc then
      (_ ← wrap_err (λ err, AppErr AppErrFailedToResizeStorage (Key (App ctx)) (Error err)) (client_Update resized);
       mret (Some (requested (StorageRequest pvc + q)))) w
    else (Ok (Some (requested (StorageRequest pvc))), w).
Proof.
  intros Hp Hr Hq Hq0 Hs0 Hlt. cbv zeta. unfold ResizePVC, filterPureVolumesIfEnabled.
  rewrite bind_Ok with (a := true) (w1 := w) by (rewrite filterPure_spec; by rewrite Hp).
  assert (∀ z, 0 <= z < two63 → u64 (AsInt64 z) = z) as Hz.
  { intros z Hz. unfold AsInt64, u64. rewrite decide_True by lia. apply Z.mod_small. unfold two63, two64 in *. lia. }
  destruct (resizeSupported pvc).
  - rewrite Hq. unfold write_request. rewrite Hr. unfold mbind, M_bind, lift.
    destruct (wrap_err _ _ w) as [[u|e|s|] w1]; try done. unfold mret, M_ret. by rewrite Hz by lia.
  - unfold mbind, M_bind, mret, M_ret. by rewrite Hz by lia.
Qed.
End volume_results.
