(* ===== verification/K8sCsi.v ===== *)
(** drivers/scheduler/k8s/k8s.go: CSI snapshots and clones of the claims of an
    application - taking them, restoring them to new claims, mounting those in a pod
    and comparing what it reads, and deleting them again. *)

From Stdlib Require Import Ascii.
From S2P Require Import Prelude GoStrings Errors Effects Float64 Strconv Task OpenStorageApi NodeRegistry AutopilotRules SpecFactory PxDriver PxNodeOps PxVolume PureDevices PxDrives PxCluster K8sObjects VolumeDrivers K8sSpecs K8sNodes K8sHelm K8sCreate K8sApps PxExpansion K8sAutopilot K8sDestroy K8sVolumes.

(** ** Data *)

(** [scheduler.CSISnapshotRequest] and [scheduler.CSICloneRequest]; a clone has no names
    of a snapshot and a class *)
Record CSISnapshotRequest := {
  csi_Namespace : string;
  OriginalPVCName : string;
  SnapName : string;
  RestoredPVCName : string;
  SnapshotclassName : string;
}.

(** [volsnapv1.VolumeSnapshotClass] *)
Record SnapshotClass := {
  class_Name : string;
  class_Annotations : gmap string string;
  Driver : string;
  DeletionPolicy : string;
  class_Parameters : option (gmap string string);
}.

(** The pod that [MakePod] describes: one container, its mounts and devices by name and
    path, and the volumes by name and claim *)
Record TestPod := {
  GenerateName : string;
  tp_Namespace : string;
  tp_Image : string;
  tp_Command : list string;
  tp_Args : list string;
  tp_Privileged : bool;
  VolumeMounts : list (string * string);
  VolumeDevices : list (string * string);
  tp_Volumes : list (string * string);
}.

(** The clients of snapshots and pods, [kubectl], random numbers, and [%v] of an
    application.  A command answers with its output next to its error. *)
Class K8sCsiApi (W : Type) := {
  BuildConfigFromFlags : string → M W unit;
  InClusterConfig : M W unit;
  NewForConfig : M W unit;
  CreateSnapshot : Object → M W Object;
  GetCsiSnapshot : string → string → M W Object;
  CreateSnapshotClass : SnapshotClass → M W SnapshotClass;
  DeleteSnapshotClass : string → M W unit;
  ListSnapshotClasses : M W (list SnapshotClass);
  GetPodsUsingPVC : string → string → M W (list Pod);
  RunCommandInPod : list string → string → string → string → M W (string * option error);
  exec_kubectl : list string → M W (string * option error);
  kube_CreatePod : TestPod → M W Pod;
  kube_GetPod : string → string → M W Pod;
  kube_ListPods : string → M W (list Pod);
  kube_DeletePod : string → string → M W unit;
  pod_Phase : Pod → string;
  random_Intn : Z → M W Z;
  show_app : AppSpec Object → string;
}.

Definition VolumeSnapshotKind : string := "VolumeSnapshot".
Definition ClaimBound : string := "Bound".
Definition ClaimPending : string := "Pending".
Definition PodRunning : string := "Running".
Definition ReadWriteOnce : string := "ReadWriteOnce".
Definition PersistentVolumeFilesystem : string := "Filesystem".
Definition VolumeBindingImmediate : string := "Immediate".
Definition SnapshotReadyTimeout : Z := 5 * Minute.
Definition k8sPodCreateTimeout : Z := 4 * Minute.
Definition numOfRestoredPVCForCloneManyTest : nat := 500.

(** pkg/pureutils/purefa.go: where an application keeps its data, and how much of it *)
Definition GetAppDataDir (namespace : string) : string * Z :=
  if HasPrefix namespace "nginx-without-enc" then ("/usr/share/nginx/html", GiB / 2)
  else if HasPrefix namespace "wordpress" then ("/var/www/html", GiB / 2)
  else if HasPrefix namespace "elasticsearch" then ("/usr/share/elasticsearch/data", GiB * 2)
  else if HasPrefix namespace "mysql-without-enc" then ("/var/lib/mysql", GiB)
  else if HasPrefix namespace "nginx-fa-davol" then ("/data", GiB)
  else if HasPrefix namespace "fio-fa-davol" then ("/scratch", GiB)
  else if HasPrefix namespace "nginx-fa-darawvol" then ("/dev/xvda", GiB)
  else ("", 0).

(** ** Specs *)

Definition is_filesystem (pvc : Object) : bool :=
  match VolumeMode (claim_spec (Spec pvc)) with
  | None => true
  | Some m => bool_decide (m = PersistentVolumeFilesystem)
  end.

Definition volume_name (i : nat) : string := "volume" +:+ Itoa (Z.of_nat i).

(** The loop of [MakePod] over the claims, counted from [i] *)
Fixpoint mount_claims (i : nat) (pvclaims : list Object)
    : list (string * string) * list (string * string) * list (string * string) :=
  match pvclaims with
  | [] => ([], [], [])
  | pvc :: pvclaims' =>
      let '(mounts, devices, vols) := mount_claims (S i) pvclaims' in
      let name := volume_name (S i) in
      let vols' := (name, obj_Name pvc) :: vols in
      if is_filesystem pvc then ((name, "/mnt/" +:+ name) :: mounts, devices, vols')
      else (mounts, (name, "/dev/xvda") :: devices, vols')
  end.

Definition MakePod (ns : string) (pvclaims : list Object) (command : string) (privileged : bool) : TestPod :=
  let loop := "while true; do sleep 1; done" in
  let cmd := if decide (command = "") then loop else command +:+ " && " +:+ loop in
  let '(mounts, devices, vols) := mount_claims 0 pvclaims in
  {| GenerateName := "testpod-"; tp_Namespace := ns; tp_Image := "alpine:3.10"; tp_Command := ["/bin/sh"; "-c"];
     tp_Args := [cmd]; tp_Privileged := privileged; VolumeMounts := mounts; VolumeDevices := devices;
     tp_Volumes := vols |}.

Definition claim_of (class : option string) (source : option (string * string)) : ClaimSpec :=
  {| VolumeMode := None; StorageClassName := class; DataSource := source; Requests_set := true; Phase := "" |}.

(** A claim with the fields that are written, all else zero *)
Definition new_claim (name ns : string) (modes : list string) (size : Z) (spec : ClaimSpec) : Object :=
  {| obj_kind := KPersistentVolumeClaim; TypeMeta_Kind := ""; obj_Name := name; obj_Namespace := ns; obj_UID := "";
     K8sObjects.Labels := None; K8sObjects.Annotations := ∅; Replicas := None; Affinity := None; PodVolumes := [];
     ContainerEnv := []; AccessModes := modes; VolumeName := ""; StorageRequest := size; Data := ∅; Status_text := "";
     Spec := Spec (set_claim_spec spec (new_object KPersistentVolumeClaim "" "" None)) |}.

Definition MakePVC (size : Z) (ns name storageClass : string) : Object :=
  new_claim name ns [ReadWriteOnce] size (claim_of (Some storageClass) None).

Definition set_source (kind name : string) (pvc : Object) : Object :=
  let c := claim_spec (Spec pvc) in
  set_claim_spec {| VolumeMode := VolumeMode c; StorageClassName := StorageClassName c; DataSource := Some (kind, name);
                    Requests_set := Requests_set c; Phase := Phase c |} pvc.

Definition set_mode (mode : option string) (pvc : Object) : Object :=
  let c := claim_spec (Spec pvc) in
  set_claim_spec {| VolumeMode := mode; StorageClassName := StorageClassName c; DataSource := DataSource c;
                    Requests_set := Requests_set c; Phase := Phase c |} pvc.

Definition GeneratePVCRestoreSpec (size : Z) (ns name sourceSnapshotName storageClass : string) : outcome Object :=
  if decide (sourceSnapshotName = "") then Err (Errorf "source snapshot name is empty for PVC restoring request")
  else Ok (set_source "VolumeSnapshot" sourceSnapshotName (MakePVC size ns name storageClass)).

Section csi.
Context `{ExpansionEnv}.
Context {W : Type} `{SchedWorld W} `{K8sClient W} `{SpecFiles} `{HelmLib W} `{K8sCreateApi W} `{K8sAppsApi W}.
Context `{AutopilotApi W} `{K8sAutopilotApi W} `{K8sDelete W} `{K8sVolumeApi W} `{K8sCsiApi W}.
Context `{NodeDriver W} `{SchedOps W} `{K8sCore W} `{PxSdk W} `{VolumeSdk W} `{VolumeEnv W}.
Context `{MapOrder W} `{DriveServices W} `{ClusterServices W}.

Definition GeneratePVCCloneSpec (size : Z) (ns name sourcePVCName storageClass : string) : M W Object :=
  pvcObj ← wrap_err (λ _, Errorf ("error getting PVC: " +:+ name)) (get_object KPersistentVolumeClaim sourcePVCName ns);
  let spec := set_mode (VolumeMode (claim_spec (Spec pvcObj))) (MakePVC size ns name storageClass) in
  if decide (sourcePVCName = "") then throw (Errorf "source PVC name is empty for PVC cloning request")
  else mret (set_source "PersistentVolumeClaim" sourcePVCName spec).

(** ** Waiting *)

Definition getKubeClient (kubeconfig : string) : M W unit :=
  kubeconfig' ← (if decide (kubeconfig = "") then env "KUBECONFIG" else mret kubeconfig);
  _ ← (if decide (kubeconfig' = "") then InClusterConfig else BuildConfigFromFlags kubeconfig');
  NewForConfig.

Definition snap_ready_task (snapName namespace : string) : M W (task_result unit) :=
  attempt (GetCsiSnapshot snapName namespace) (λ r,
    match r with
    | inr err => mret (Retry err)
    | inl snap =>
        let s := snapshot (Spec snap) in
        ready ← (if HasStatus s then lift (deref (ReadyToUse s)) else mret false);
        if (ready : bool) then mret (Done tt)
        else mret (Retry (SchedErr (ErrFailedToValidateSnapshot snapName) ("snapshot [" +:+ snapName +:+ "] is not ready")))
    end).

Definition waitForCsiSnapToBeReady (snapName namespace : string) : M W unit :=
  DoRetryWithTimeout (snap_ready_task snapName namespace) SnapshotReadyTimeout DefaultRetryInterval.

Definition pod_ready_task (podname namespace : string) : M W (task_result unit) :=
  attempt (kube_GetPod podname namespace) (λ r,
    match r with
    | inr err => mret (Retry err)
    | inl pod => if decide (pod_Phase pod = PodRunning) then mret (Done tt)
                 else mret (Retry (Errorf ("Pod " +:+ podname +:+ " not up yet")))
    end).

Definition waitForPodToBeReady (podname namespace : string) : M W unit :=
  _ ← getKubeClient "";
  DoRetryWithTimeout (pod_ready_task podname namespace) k8sPodCreateTimeout DefaultRetryInterval.

(** The claim is bound; [shown] is the name in the message *)
Definition claim_bound (name shown namespace : string) : M W (task_result unit) :=
  attempt (get_object KPersistentVolumeClaim name namespace) (λ r,
    match r with
    | inr err => mret (Retry err)
    | inl pvc => if decide (Phase (claim_spec (Spec pvc)) = ClaimBound) then mret (Done tt)
                 else mret (Retry (Errorf ("PVC " +:+ shown +:+ " not bound yet")))
    end).

(** The minutes to wait: thirty, or what was asked for when that is below an hour *)
Definition bound_limit (timeout : Z) : Z := if decide (timeout ≠ 0 ∧ timeout < 60) then timeout else 30.

Definition WaitForSinglePVCToBound (pvcName namespace : string) (timeout : Z) : M W unit :=
  _ ← getKubeClient "";
  DoRetryWithTimeout (claim_bound pvcName pvcName namespace) (i64 (bound_limit timeout * Minute)) (30 * Second).

(** The closure of [waitForRestoredPVCsToBound]: claims from [j] on *)
Fixpoint claims_bound (pvcNamePrefix namespace : string) (n j : nat) : M W (task_result unit) :=
  match n with
  | O => mret (Done tt)
  | S n' =>
      r ← claim_bound (pvcNamePrefix +:+ Itoa (Z.of_nat j)) pvcNamePrefix namespace;
      match r with
      | Done _ => claims_bound pvcNamePrefix namespace n' (S j)
      | _ => mret r
      end
  end.

Definition waitForRestoredPVCsToBound (pvcNamePrefix namespace : string) (numPVCs : nat) : M W unit :=
  _ ← getKubeClient "";
  DoRetryWithTimeout (claims_bound pvcNamePrefix namespace numPVCs 0) (30 * Minute) (30 * Second).

Definition restore_task (pvcName namespace : string) : M W (task_result unit) :=
  attempt (get_object KPersistentVolumeClaim pvcName namespace) (λ r,
    match r with
    | inr err => mret (Retry (SchedErr (ErrFailedToValidatePvc pvcName)
                   ("failed to get persistent volume claim.Err: " +:+ Error err)))
    | inl pvc =>
        if decide (Phase (claim_spec (Spec pvc)) = ClaimPending)
        then mret (Retry (SchedErr (ErrFailedToValidatePvc pvcName) ("PVC [" +:+ pvcName +:+ "] is not bound")))
        else mret (Done tt)
    end).

Definition ValidateCsiRestore (pvcName namespace : string) (timeout : Z) : M W unit :=
  DoRetryWithTimeout (restore_task pvcName namespace) timeout DefaultRetryInterval.

(** ** Snapshots and their classes *)

Definition new_snapshot (name namespace class pvc : string) : Object :=
  set_snapshot {| SnapshotSource := Some pvc; SnapshotClassName := Some class; HasStatus := false; RestoreSize := None;
                  ReadyToUse := None; SnapshotDataName := "" |} (new_object (KOther "*v1.VolumeSnapshot") name namespace None).

Definition CreateCsiSnapshot (name namespace class pvc : string) : M W Object :=
  snap ← wrap_err (λ err, SchedErr (ErrFailedToCreateSnapshot pvc) (Error err))
           (CreateSnapshot (new_snapshot name namespace class pvc));
  _ ← wrap_err (λ err, SchedErr (ErrFailedToCreateSnapshot pvc) ("snapshot is not ready. Error: " +:+ Error err))
        (waitForCsiSnapToBeReady (obj_Name snap) namespace);
  mret snap.

Definition default_class : gmap string string := {["snapshot.storage.kubernetes.io/is-default-class" := "true"]}.

Definition create_class (c : SnapshotClass) : M W SnapshotClass :=
  wrap_err (λ err, SchedErr (ErrFailedToCreateSnapshotClass (class_Name c)) (Error err)) (CreateSnapshotClass c).

Definition CreateCsiSnapshotClass (snapClassName deletionPolicy : string) : M W SnapshotClass :=
  create_class {| class_Name := snapClassName; class_Annotations := default_class; Driver := CsiProvisioner;
                  DeletionPolicy := deletionPolicy; class_Parameters := None |}.

Definition policy_or_delete (deletePolicy : string) : string := if decide (deletePolicy = "") then "Delete" else deletePolicy.

Definition CreateVolumeSnapshotClasses (snapClassName provisioner : string) (isDefault : bool) (deletePolicy : string)
    : M W SnapshotClass :=
  create_class {| class_Name := snapClassName; class_Annotations := if isDefault then default_class else ∅;
                  Driver := provisioner; DeletionPolicy := policy_or_delete deletePolicy; class_Parameters := None |}.

Definition CreateVolumeSnapshotClassesWithParameters (snapClassName provisioner : string) (isDefault : bool)
    (deletePolicy : string) (parameters : option (gmap string string)) : M W SnapshotClass :=
  create_class {| class_Name := snapClassName; class_Annotations := if isDefault then default_class else ∅;
                  Driver := provisioner; DeletionPolicy := policy_or_delete deletePolicy;
                  class_Parameters := parameters |}.

Definition DeleteCsiSnapshotClass (snapClassName : string) : M W unit := DeleteSnapshotClass snapClassName.

Definition GetAllSnapshotClasses : M W (list SnapshotClass) := ListSnapshotClasses.

(** The snapshots of a claim among those listed; one that cannot be read is skipped *)
Fixpoint snapshots_of_claim (namespace pvcName : string) (items : list Object) : M W (list Object) :=
  match items with
  | [] => mret []
  | item :: items' =>
      found ← attempt (GetCsiSnapshot (obj_Name item) namespace) (λ r,
                match r with
                | inr _ => mret []
                | inl snap =>
                    source ← lift (deref (SnapshotSource (snapshot (Spec snap))));
                    mret (if decide (source = pvcName) then [snap] else [])
                end);
      rest ← snapshots_of_claim namespace pvcName items';
      mret (found ++ rest)
  end.

Definition GetCsiSnapshots (namespace pvcName : string) : M W (list Object) :=
  items ← wrap_err (λ err, SchedErr (ErrFailedToGetSnapshotList namespace) (Error err)) (ListSnapshots namespace);
  snapshots_of_claim namespace pvcName items.

(** ** The claims of an application *)

(** A claim of the specs as the cluster has it: the error of the get is dropped *)
Definition read_claim (obj : Object) : M W Object :=
  '(pvc, _) ← client_Get KPersistentVolumeClaim (obj_Name obj) (obj_Namespace obj);
  lift (deref pvc).

(** The claims of one spec: itself, or those of the stateful set; [failed] makes the
    error of a set that cannot be read *)
Definition spec_claims (failed : string → error → error) (obj : Object) : M W (list Object) :=
  match obj_kind obj with
  | KPersistentVolumeClaim => pvc ← read_claim obj; mret [pvc]
  | KStatefulSet =>
      ss ← wrap_err (failed ("get StatefulSet: " +:+ obj_Name obj +:+ ". Err: "))
             (get_object KStatefulSet (obj_Name obj) (obj_Namespace obj));
      set_claims (failed ("get PVC from StatefulSet: " +:+ obj_Name ss +:+ ". Err: ")) ss
  | _ => mret []
  end.

(** Errors of a whole application, printed with [%v], and of one by its key *)
Definition whole_app (k : app_error) (ctx : Context) (msg : string) (err : error) : error :=
  AppErr k (show_app (App ctx)) ("Failed to " +:+ msg +:+ Error err).
Definition app_by_key (k : app_error) (ctx : Context) (msg : string) (err : error) : error :=
  AppErr k (Key (App ctx)) ("Failed to " +:+ msg +:+ Error err).

(** Only volumes of a FlashArray are snapshotted when Pure volumes are filtered. *)
Definition is_pure_block (pvc : Object) : M W bool := filterPureTypeVolumeIfEnabled pvc [PureBlock].

(** *** Taking snapshots *)

Fixpoint snap_claims (ns snapClass : string) (pvcs : list Object) (volSnapMap : gmap string Object)
    : M W (gmap string Object) :=
  match pvcs with
  | [] => mret volSnapMap
  | pvc :: pvcs' =>
      ok ← is_pure_block pvc;
      m ← (if (ok : bool) then
             t ← now_unix;
             snap ← CreateCsiSnapshot ("snap-" +:+ obj_Name pvc +:+ "-" +:+ Itoa t) ns snapClass (obj_Name pvc);
             mret (<[VolumeName pvc := snap]> volSnapMap)
           else mret volSnapMap);
      snap_claims ns snapClass pvcs' m
  end.

Fixpoint snap_specs (ctx : Context) (snapClass : string) (specs : list Object) (volSnapMap : gmap string Object)
    : M W (gmap string Object) :=
  match specs with
  | [] => mret volSnapMap
  | obj :: specs' =>
      pvcs ← spec_claims (whole_app AppErrFailedToCreateCsiSnapshots ctx) obj;
      m ← snap_claims (obj_Namespace obj) snapClass pvcs volSnapMap;
      snap_specs ctx snapClass specs' m
  end.

Definition CreateCsiSnapsForVolumes (ctx : Context) (snapClass : string) : M W (gmap string Object) :=
  snap_specs ctx snapClass (SpecList (App ctx)) ∅.

(** *** Validating them *)

Definition validateCsiSnap (pvcName namespace : string) (csiSnapshot : Object) : M W unit :=
  let failed (msg : string) : error := SchedErr (ErrFailedToValidateSnapshot pvcName) msg in
  if decide (obj_Name csiSnapshot = "") then
    throw (failed ("failed to validate snaps.Valid snapshot not provided for volume: " +:+ pvcName))
  else
    snap ← wrap_err (λ _, failed ("failed to get snapshot: " +:+ obj_Name csiSnapshot))
             (GetCsiSnapshot (obj_Name csiSnapshot) namespace);
    class ← lift (deref (SnapshotClassName (snapshot (Spec snap))));
    class' ← lift (deref (SnapshotClassName (snapshot (Spec csiSnapshot))));
    if decide (class ≠ class') then
      throw (failed ("failed to validate snap: [" +:+ obj_Name snap +:+ "].Snapshot class is not maching"))
    else
      source ← lift (deref (SnapshotSource (snapshot (Spec snap))));
      if decide (source ≠ pvcName) then
        throw (failed ("failed to validate source pvc name in snapshot: " +:+ obj_Name snap))
      else mret tt.

Definition validate_claim_snap (ctx : Context) (ns : string) (volSnapMap : gmap string Object) (pvc : Object) : M W unit :=
  ok ← is_pure_block pvc;
  if (ok : bool) then
    match volSnapMap !! VolumeName pvc with
    | None => throw (AppErr AppErrFailedToValidateCsiSnapshots (Key (App ctx))
                ("Snapshot is empty for a pvc: " +:+ obj_Name pvc))
    | Some snap => validateCsiSnap (obj_Name pvc) ns snap
    end
  else mret tt.

Definition ValidateCsiSnapshots (ctx : Context) (volSnapMap : gmap string Object) : M W unit :=
  for_each (λ obj,
    pvcs ← spec_claims (app_by_key AppErrFailedToValidateCsiSnapshots ctx) obj;
    for_each (validate_claim_snap ctx (obj_Namespace obj) volSnapMap) pvcs) (SpecList (App ctx)).

(** *** Deleting them *)

(** [random.Intn]: no number below a bound that is not positive *)
Definition rand_Intn (n : Z) : M W Z := if decide (n <= 0) then panic "invalid argument to Intn" else random_Intn n.

(** A snapshot of the claim at random, when there are more than are to be kept *)
Definition delete_one_snap (ctx : Context) (ns : string) (retainCount : Z) (pvc : Object) : M W unit :=
  ok ← is_pure_block pvc;
  if (ok : bool) then
    l ← wrap_err (λ err, SchedErr (ErrFailedToGetSnapshotList ns)
            ("failed to list csi snapshot in namespace: " +:+ ns +:+ ". Err: " +:+ Error err))
          (GetCsiSnapshots ns (obj_Name pvc));
    if decide (retainCount < Z.of_nat (length l)) then
      i ← rand_Intn (Z.of_nat (length l));
      snap ← lift (index l i);
      DeleteCsiSnapshot ctx (obj_Name snap) ns
    else mret tt
  else mret tt.

Definition delete_failed (ns : string) (msg : string) (err : error) : error :=
  SchedErr (ErrFailedToDeleteSnapshot ns) ("failed to " +:+ msg +:+ Error err).

Definition DeleteCsiSnapsForVolumes (ctx : Context) (retainCount : Z) : M W unit :=
  for_each (λ obj,
    pvcs ← spec_claims (delete_failed (obj_Namespace obj)) obj;
    for_each (delete_one_snap ctx (obj_Namespace obj) retainCount) pvcs) (SpecList (App ctx)).

(** *** Restoring them *)

Definition restoreCsiSnapshot (restorePvcName : string) (pvc snap : Object) (sc : option Object) : M W Object :=
  let s := snapshot (Spec snap) in
  size ← lift (if HasStatus s then deref (RestoreSize s) else deref None);
  class ← lift (deref sc);
  create_object (new_claim restorePvcName (obj_Namespace pvc) (AccessModes pvc) size
    (claim_of (Some (obj_Name class)) (Some (VolumeSnapshotKind, obj_Name snap)))).

Definition restoreAndValidate (ctx : Context) (pvc : Object) (namespace : string) (sc : option Object) : M W Object :=
  snaplist ← GetCsiSnapshots namespace (obj_Name pvc);
  if decide (snaplist = []) then throw (Errorf ("no snapshot found for a PVC: [" +:+ obj_Name pvc +:+ "]")) else
  i ← rand_Intn (Z.of_nat (length snaplist));
  snap ← lift (index snaplist i);
  resPvc ← wrap_err (λ _, AppErr AppErrFailedToRestore (show_app (App ctx))
               ("Failed to restore snapshot: [" +:+ obj_Name snap +:+ "]"))
             (restoreCsiSnapshot (obj_Name pvc +:+ "-" +:+ "restore") pvc snap sc);
  _ ← wrap_err (λ _, AppErr AppErrFailedToValidatePvcAfterRestore (show_app (App ctx))
          ("Failed to validate after snapshot: [" +:+ obj_Name snap +:+ "] restore"))
        (ValidateCsiRestore (obj_Name resPvc) namespace DefaultTimeout);
  mret resPvc.

(** The claims of one spec: [resPvc] is one variable for all of them, and it is read
    whether or not the claim passed the filter *)
Fixpoint restore_claims (ctx : Context) (ns : string) (sc : option Object) (pvcs : list Object) (resPvc : option Object)
    (result : gmap string Object) : M W (gmap string Object) :=
  match pvcs with
  | [] => mret result
  | pvc :: pvcs' =>
      ok ← is_pure_block pvc;
      resPvc' ← (if (ok : bool) then r ← restoreAndValidate ctx pvc ns sc; mret (Some r) else mret resPvc);
      r ← lift (deref resPvc');
      restore_claims ctx ns sc pvcs' resPvc' (<[obj_Name pvc := r]> result)
  end.

Fixpoint restore_specs (ctx : Context) (sc : option Object) (specs : list Object) (result : gmap string Object)
    : M W (gmap string Object) :=
  match specs with
  | [] => mret result
  | obj :: specs' =>
      pvcs ← spec_claims (whole_app AppErrFailedToRestore ctx) obj;
      result' ← restore_claims ctx (obj_Namespace obj) sc pvcs None result;
      restore_specs ctx sc specs' result'
  end.

Definition RestoreCsiSnapAndValidate (ctx : Context) (scMap : gmap string Object) : M W (gmap string Object) :=
  restore_specs ctx (scMap !! PureBlock) (SpecList (App ctx)) ∅.

(** ** Comparing the content *)

(** Closures in strings: what [kubectl exec] is given *)
Definition kubectl_exec (podName podNamespace : string) (cmd : list string) : list string :=
  ["exec"; "-it"; podName; "-n"; podNamespace; "--"] ++ cmd.

Definition readRawBlockDataFromPod (podName podNamespace devicePath : string) : M W (string * option error) :=
  RunCommandInPod ["/bin/sh"; "-c"; "dd if=" +:+ devicePath +:+ " status=none bs=38 count=1 skip=0"] podName "" podNamespace.

Definition readDataFromPod (podName podNamespace mountFilePath : string) : M W (string * option error) :=
  exec_kubectl (kubectl_exec podName podNamespace ["bin/cat"; mountFilePath]).

(** A command whose output is dropped *)
Definition run_in_pod (cmd podName podNamespace : string) : M W unit :=
  '(_, err) ← RunCommandInPod ["/bin/bash"; "-c"; cmd] podName "" podNamespace;
  match err with
  | Some e => throw (Errorf ("failed to execute command to Pod: " +:+ Error e))
  | None => mret tt
  end.

Definition kubectl_or (what : string) (args : list string) : M W unit :=
  '(out, err) ← exec_kubectl args;
  match err with
  | Some e => throw (Errorf ("failed to " +:+ what +:+ ": " +:+ Error e +:+ ". Output: " +:+ out))
  | None => mret tt
  end.

Definition sync_pod (podName podNamespace : string) : M W unit :=
  _ ← kubectl_or "run 'sync' in pod" (kubectl_exec podName podNamespace ["/bin/sync"]);
  pause (20 * Second).

Definition writeRawBlockDataToPod (data podName podNamespace devicePath : string) : M W unit :=
  _ ← run_in_pod ("echo -n " +:+ quoted data +:+ " >> /tmp/test.txt") podName podNamespace;
  _ ← run_in_pod ("dd if=/tmp/test.txt of=" +:+ devicePath +:+ " bs=38 count=1 seek=0") podName podNamespace;
  sync_pod podName podNamespace.

Definition writeDataToPod (data podName podNamespace mountPath : string) : M W unit :=
  _ ← kubectl_or "write data to pod" (kubectl_exec podName podNamespace
        ["/bin/sh"; "-c"; "echo -n " +:+ data +:+ " >>  " +:+ mountPath +:+ "/aaaa.txt"]);
  sync_pod podName podNamespace.

Definition clone_class (originalStorageClass : Object) : Object :=
  let o := set_Name (obj_Name originalStorageClass +:+ "-clone") originalStorageClass in
  let s := sc (Spec o) in
  {| obj_kind := obj_kind o; TypeMeta_Kind := TypeMeta_Kind o; obj_Name := obj_Name o; obj_Namespace := obj_Namespace o;
     obj_UID := ""; K8sObjects.Labels := K8sObjects.Labels o; K8sObjects.Annotations := K8sObjects.Annotations o;
     Replicas := Replicas o; Affinity := Affinity o; PodVolumes := PodVolumes o; ContainerEnv := ContainerEnv o;
     AccessModes := AccessModes o; VolumeName := VolumeName o; StorageRequest := StorageRequest o; Data := Data o;
     Status_text := Status_text o;
     Spec := Spec (set_sc {| Provisioner := Provisioner s; Parameters := Parameters s;
                             VolumeBindingMode := Some VolumeBindingImmediate |} o) |}.

(** The closure sets [clonedSCNotFound], which outlives it. *)
Definition cloned_class_task (name : string) : M (W * bool) (task_result unit) :=
  attempt (up (client_Get KStorageClass name "")) (λ r,
    match r with
    | inl (_, None) => mret (Done tt)
    | inl (_, Some err) | inr err =>
        if IsNotFound err then _ ← put_local true; mret (Stop err) else mret (Retry err)
    end).

Definition createClonedStorageClassIfRequired (originalStorageClass : Object) : M W string :=
  let clone := clone_class originalStorageClass in
  run_local false (
    attempt (DoRetryWithTimeout (cloned_class_task (obj_Name clone)) (2 * Minute) (10 * Second)) (λ r,
      match r with
      | inl _ => mret (obj_Name clone)
      | inr err =>
          notFound ← get_local;
          if (notFound : bool) then up (created ← create_object clone; mret (obj_Name created))
          else throw err
      end)).

(** The error that says a pod is not ready has no application, and its [Error] method
    reads the key of one: this is what printing it leaves. *)
Definition pod_not_ready : error :=
  Errorf "%!s(PANIC=Error method: runtime error: invalid memory address or nil pointer dereference)".

(** Mount a claim in a new pod and wait until it runs *)
Definition run_test_pod (namespace : string) (pvc : Object) : M W Pod :=
  pod ← wrap_err (λ err, Errorf ("error creating restored pod: " +:+ Error err))
          (kube_CreatePod (MakePod namespace [pvc] "ls" false));
  _ ← wrap_err (λ _, pod_not_ready) (waitForPodToBeReady (pod_Name pod) namespace);
  mret pod.

(** Compare what the pod reads with the data; [what] names the claim in the messages *)
Definition verify_content (data namespace what shown : string) (pod : Pod) (pvc : Object) : M W unit :=
  let mountPath := (GetAppDataDir (pod_Namespace pod)).1 in
  mode ← lift (deref (VolumeMode (claim_spec (Spec pvc))));
  if decide (mode = PersistentVolumeBlock) then
    '(fileContent, err) ← readRawBlockDataFromPod (pod_Name pod) (pod_Namespace pod) mountPath;
    match err with
    | Some e => throw (Errorf ("error checking content of cloned PVC: " +:+ Error e +:+ ". Output: " +:+ fileContent))
    | None => if decide (data = fileContent) then mret tt
              else throw (Errorf "compared data of text file & data copied to device path is not same")
    end
  else
    '(fileContent, err) ← readDataFromPod (pod_Name pod) namespace "/mnt/volume1/aaaa.txt";
    match err with
    | Some e => throw (Errorf ("error checking content of " +:+ what +:+ " PVC: " +:+ Error e +:+ ". Output: " +:+ fileContent))
    | None =>
        if Contains fileContent data then mret tt
        else throw (Errorf (shown +:+ " volume does NOT contain data from original volume: expected to contain '" +:+ data +:+
               "', got '" +:+ fileContent +:+ "'"))
    end.

(** Delete the pod; [gone] is the task that waits for it *)
Definition delete_test_pod (pod : Pod) (namespace : string) (gone : M W (task_result unit)) : M W unit :=
  _ ← attempt (kube_DeletePod (pod_Name pod) namespace) (λ r,
        match r with
        | inl _ => mret tt
        | inr err => if IsNotFound err then mret tt else throw (Errorf ("error deleting restored pod: " +:+ Error err))
        end);
  DoRetryWithTimeout gone (2 * Minute) DefaultRetryInterval.

Definition still_exists (pod : Pod) : error :=
  Errorf ("pod " +:+ pod_Name pod +:+ " in ns " +:+ pod_Namespace pod +:+ " still exists").

(** By the identifier of the pod, among the pods of the namespace *)
Definition pod_gone_task (pod : Pod) (namespace : string) : M W (task_result unit) :=
  attempt (kube_ListPods namespace) (λ r,
    match r with
    | inr err => mret (Retry (Errorf ("failed to list pods in ns " +:+ namespace +:+ ". Error: " +:+ Error err)))
    | inl pods => if existsb (λ p, bool_decide (pod_UID p = pod_UID pod)) pods then mret (Retry (still_exists pod))
                  else mret (Done tt)
    end).

(** By its name *)
Definition pod_missing_task (pod : Pod) (namespace : string) : M W (task_result unit) :=
  attempt (kube_GetPod (pod_Name pod) namespace) (λ r,
    match r with
    | inl _ => mret (Retry (still_exists pod))
    | inr err =>
        if IsNotFound err then mret (Done tt)
        else mret (Retry (Errorf ("failed to check that pod " +:+ pod_Name pod +:+ " in ns " +:+ pod_Namespace pod +:+
               " is gone. Err: " +:+ Error err)))
    end).

(** A block claim is restored as one; with no name of a snapshot there is no claim to
    write the mode to, and the error is looked at later *)
Definition restored_spec (original : Object) (spec : outcome Object) : M W Object :=
  mode ← lift (deref (VolumeMode (claim_spec (Spec original))));
  if decide (mode = PersistentVolumeBlock) then
    s ← lift (match spec with Ok s => Ok s | _ => deref None end);
    mret (set_mode (Some mode) s)
  else wrap_err (λ err, Errorf ("failed to build restored PVC Spec: " +:+ Error err)) (lift spec).

Definition snapshotAndVerify (size : Z) (data snapName namespace storageClass snapClass restoredPVCName originalPVC : string)
    : M W unit :=
  _ ← wrap_err (λ err, Errorf ("failed to get kube client: " +:+ Error err)) (getKubeClient "");
  originalPVCObj ← wrap_err (λ _, Errorf ("error getting original PVC: " +:+ originalPVC))
                     (get_object KPersistentVolumeClaim originalPVC namespace);
  volSnapshot ← wrap_err (λ _, Errorf ("failed to create snapshot " +:+ snapName +:+ " for volume " +:+ originalPVC))
                  (CreateCsiSnapshot snapName namespace snapClass originalPVC);
  spec ← restored_spec originalPVCObj
           (GeneratePVCRestoreSpec size namespace restoredPVCName (obj_Name volSnapshot) storageClass);
  restoredPVC ← wrap_err (λ err, Errorf ("failed to restore PVC from snapshot " +:+ obj_Name volSnapshot +:+ ": " +:+
                    Error err)) (create_object spec);
  _ ← wrap_err (λ err, Errorf ("failed to wait for cloned PVC " +:+ restoredPVCName +:+ " to bind: " +:+ Error err))
        (WaitForSinglePVCToBound restoredPVCName (obj_Namespace restoredPVC) 0);
  pod ← run_test_pod namespace restoredPVC;
  _ ← verify_content data namespace "restored" "restored" pod restoredPVC;
  delete_test_pod pod namespace (pod_gone_task pod namespace).

Definition cloneAndVerify (size : Z) (data namespace storageClass clonedPVCName originalPVC : string) : M W unit :=
  _ ← wrap_err (λ err, Errorf ("failed to get kube client: " +:+ Error err)) (getKubeClient "");
  spec ← wrap_err (λ err, Errorf ("failed to build cloned PVC Spec: " +:+ Error err))
           (GeneratePVCCloneSpec size namespace clonedPVCName originalPVC storageClass);
  clonedPVC ← wrap_err (λ err, Errorf ("failed to clone PVC from source PVC " +:+ originalPVC +:+ ": " +:+ Error err))
                (create_object spec);
  _ ← wrap_err (λ err, Errorf ("failed to wait for cloned PVC " +:+ clonedPVCName +:+ " to bind: " +:+ Error err))
        (WaitForSinglePVCToBound clonedPVCName (obj_Namespace clonedPVC) 0);
  pod ← run_test_pod namespace clonedPVC;
  _ ← verify_content data namespace "cloned" "cloned" pod clonedPVC;
  delete_test_pod pod namespace (pod_missing_task pod namespace).

(** ** The tests *)

Definition no_claim (request : CSISnapshotRequest) (what : string) (err : error) : error :=
  Errorf ("failed to retrieve " +:+ what +:+ OriginalPVCName request +:+ " in namespace: " +:+ csi_Namespace request +:+
          " : " +:+ Error err).

(** The pod that uses the claim, the first of them *)
Definition pod_of_claim (pvc : Object) : M W Pod :=
  pods ← wrap_err (λ _, Errorf ("failed to retrieve pods using PVC " +:+ obj_Name pvc +:+ "/" +:+ obj_Namespace pvc))
           (GetPodsUsingPVC (obj_Name pvc) (obj_Namespace pvc));
  lift (index pods 0).

(** The class of a claim, and the clone of it that binds at once *)
Definition cloned_class_of (request : CSISnapshotRequest) (pvc : Object) : M W string :=
  original ← wrap_err (no_claim request "storage class for PVC ") (GetStorageClassForPVC pvc);
  wrap_err (λ err, Errorf ("failed to create cloned storage class with the name " +:+ obj_Name original +:+ "-clone : " +:+
              Error err)) (createClonedStorageClassIfRequired original).

Definition raw_test_data : string := "this is pure volume rawblock test data".

(** The data of one round; [prepare] is what the clone test does before it writes *)
Definition write_round (pvc : Object) (pod : Pod) (mountPath what : string) (prepare : M W unit) : M W string :=
  mode ← lift (deref (VolumeMode (claim_spec (Spec pvc))));
  let failed err := Errorf ("failed to write data to " +:+ what +:+ " PVC: " +:+ Error err) in
  if decide (mode = PersistentVolumeBlock) then
    _ ← wrap_err failed (writeRawBlockDataToPod raw_test_data (pod_Name pod) (pod_Namespace pod) mountPath);
    mret raw_test_data
  else
    t ← now_unix;
    let data := "thisIsJustSomeRandomText" +:+ Itoa t in
    _ ← prepare;
    _ ← wrap_err failed (writeDataToPod data (pod_Name pod) (pod_Namespace pod) mountPath);
    mret data.

Definition rounds : list Z := [0; 1; 2].

(** The claim is read before the error of its get is looked at. *)
Definition CSISnapshotTest (request : CSISnapshotRequest) : M W unit :=
  '(p, err) ← client_Get KPersistentVolumeClaim (OriginalPVCName request) (csi_Namespace request);
  pvc ← lift (deref p);
  _ ← match err with Some e => throw (no_claim request "PVC " e) | None => mret tt end;
  class ← cloned_class_of request pvc;
  pod ← pod_of_claim pvc;
  let mountPath := (GetAppDataDir (pod_Namespace pod)).1 in
  for_each (λ i,
    data ← write_round pvc pod mountPath "restored" (mret tt);
    wrap_err (λ err, Errorf ("failed to validate restored PVC content: " +:+ Error err +:+ " "))
      (snapshotAndVerify (StorageRequest pvc) data (SnapName request +:+ Itoa i) (pod_Namespace pod) class
         (SnapshotclassName request) (RestoredPVCName request +:+ Itoa i) (OriginalPVCName request))) rounds.

Definition CSICloneTest (request : CSISnapshotRequest) : M W unit :=
  pvc ← wrap_err (no_claim request "PVC ")
          (get_object KPersistentVolumeClaim (OriginalPVCName request) (csi_Namespace request));
  class ← cloned_class_of request pvc;
  pod ← pod_of_claim pvc;
  let mountPath := (GetAppDataDir (pod_Namespace pod)).1 in
  for_each (λ i,
    data ← write_round pvc pod mountPath "cloned"
             (run_in_pod ("touch " +:+ mountPath +:+ "/aaaa.txt") (pod_Name pod) (pod_Namespace pod));
    wrap_err (λ err, Errorf ("failed to validate cloned PVC content: " +:+ Error err +:+ " "))
      (cloneAndVerify (StorageRequest pvc) data (pod_Namespace pod) class (RestoredPVCName request +:+ Itoa i)
         (OriginalPVCName request))) rounds.

Definition restore_one (request : CSISnapshotRequest) (pvc snap : Object) (class : string) (i : nat) : M W unit :=
  spec ← wrap_err (λ err, Errorf ("failed to build restored PVC Spec: " +:+ Error err))
           (lift (GeneratePVCRestoreSpec (StorageRequest pvc) (obj_Namespace pvc)
              (RestoredPVCName request +:+ Itoa (Z.of_nat i)) (obj_Name snap) class));
  _ ← wrap_err (λ err, Errorf ("failed to restore PVC from snapshot " +:+ obj_Name snap +:+ ": " +:+ Error err))
        (create_object spec);
  mret tt.

Definition CSISnapshotAndRestoreMany (request : CSISnapshotRequest) : M W unit :=
  k ← get_k8s;
  if RunCSISnapshotAndRestoreManyTest (config k) then
    '(p, err) ← client_Get KPersistentVolumeClaim (OriginalPVCName request) (csi_Namespace request);
    pvc ← lift (deref p);
    _ ← match err with Some e => throw (no_claim request "PVC " e) | None => mret tt end;
    original ← wrap_err (no_claim request "storage class for PVC ") (GetStorageClassForPVC pvc);
    snap ← wrap_err (λ _, Errorf ("failed to create snapshot " +:+ SnapName request +:+ " for volume " +:+ obj_Name pvc))
             (CreateCsiSnapshot (SnapName request) (obj_Namespace pvc) (SnapshotclassName request) (obj_Name pvc));
    _ ← for_each (restore_one request pvc snap (obj_Name original)) (seq 0 numOfRestoredPVCForCloneManyTest);
    wrap_err (λ err, Errorf (Itoa (Z.of_nat numOfRestoredPVCForCloneManyTest) +:+
                 " PVCs did not go into bound after 30 mins: " +:+ Error err))
      (waitForRestoredPVCsToBound (RestoredPVCName request) (obj_Namespace pvc) numOfRestoredPVCForCloneManyTest)
  else mret tt.

End csi.

(** ** Theorems *)

Lemma mount_claims_volumes i pvcs :
  (mount_claims i pvcs).2 = imap (λ j pvc, (volume_name (S (i + j)), obj_Name pvc)) pvcs.
Proof.
  revert i. induction pvcs as [|pvc pvcs IH]; intros i; [done|]. simpl.
  specialize (IH (S i)). destruct (mount_claims (S i) pvcs) as [[mounts devices] vols]. simpl in IH. subst vols.
  replace (i + 0)%nat with i by lia.
  destruct (is_filesystem pvc); simpl; f_equal; apply imap_ext; intros j x _; simpl; by rewrite Nat.add_succ_r.
Qed.

Lemma mount_claims_names i pvcs :
  ((mount_claims i pvcs).1.1).*1 ++ ((mount_claims i pvcs).1.2).*1 ≡ₚ ((mount_claims i pvcs).2).*1.
Proof.
  revert i. induction pvcs as [|pvc pvcs IH]; intros i; [done|]. simpl.
  specialize (IH (S i)). destruct (mount_claims (S i) pvcs) as [[mounts devices] vols]. simpl in *.
  destruct (is_filesystem pvc); simpl; [by rewrite IH|]. by rewrite <- Permutation_middle, IH.
Qed.

Lemma volume_name_inj i j : volume_name i = volume_name j → i = j.
Proof. unfold volume_name. simpl. intros E. injection E as E. apply Itoa_inj in E. lia. Qed.

(** The pod of [MakePod] has one volume for each claim, in order, under names that are
    distinct, and its container sees each of them exactly once: as a mount, or as a
    device when the claim is a raw block one. *)
Theorem MakePod_volumes ns pvcs command privileged :
  let pod := MakePod ns pvcs command privileged in
  (tp_Volumes pod).*2 = obj_Name <$> pvcs ∧ NoDup (tp_Volumes pod).*1 ∧
  (VolumeMounts pod).*1 ++ (VolumeDevices pod).*1 ≡ₚ (tp_Volumes pod).*1.
Proof.
  cbv zeta. unfold MakePod. pose proof (mount_claims_volumes 0 pvcs) as Hv. pose proof (mount_claims_names 0 pvcs) as Hn.
  destruct (mount_claims 0 pvcs) as [[mounts devices] vols]. simpl in *. split_and!; [| |done].
  - subst vols. rewrite fmap_imap. clear Hn. apply list_eq. intros j. rewrite list_lookup_imap, list_lookup_fmap.
    by destruct (pvcs !! j).
  - subst vols. rewrite fmap_imap. apply NoDup_alt. intros a b x. rewrite !list_lookup_imap.
    destruct (pvcs !! a), (pvcs !! b); simpl; intros [=] [=]; subst.
    match goal with E : volume_name _ = volume_name _ |- _ => apply volume_name_inj in E end. lia.
Qed.

Section csi_theorems.
Context `{ExpansionEnv}.
Context {W : Type} `{SchedWorld W} `{K8sClient W} `{SpecFiles} `{HelmLib W} `{K8sCreateApi W} `{K8sAppsApi W}.
Context `{AutopilotApi W} `{K8sAutopilotApi W} `{K8sDelete W} `{K8sVolumeApi W} `{K8sCsiApi W}.
Context `{NodeDriver W} `{SchedOps W} `{K8sCore W} `{PxSdk W} `{VolumeSdk W} `{VolumeEnv W}.
Context `{MapOrder W} `{DriveServices W} `{ClusterServices W}.

(** *** What the content checks establish *)

(** The pod read the data back: exactly, from the device, or somewhere in the file *)
Definition read_back (data namespace : string) (pod : Pod) (pvc : Object) : Prop :=
  ∃ w1 w2 : W,
    (VolumeMode (claim_spec (Spec pvc)) = Some PersistentVolumeBlock ∧
     readRawBlockDataFromPod (pod_Name pod) (pod_Namespace pod) (GetAppDataDir (pod_Namespace pod)).1 w1
       = (Ok (data, None), w2)) ∨
    (∃ content, readDataFromPod (pod_Name pod) namespace "/mnt/volume1/aaaa.txt" w1 = (Ok (content, None), w2) ∧
       Contains content data = true).

Lemma verify_content_Ok data namespace what shown pod pvc (w w' : W) :
  verify_content data namespace what shown pod pvc w = (Ok tt, w') → read_back data namespace pod pvc.
Proof.
  unfold verify_content. cbv zeta. intros (mode & w1 & Hm & Hc)%bind_Ok_inv.
  unfold lift, deref in Hm. destruct (VolumeMode (claim_spec (Spec pvc))) as [m|] eqn:Em; [|done]. injection Hm as -> <-.
  case_decide as Hb; apply bind_Ok_inv in Hc as ([content err] & w2 & Hr & Hc); (destruct err; [done|]).
  - case_decide; [|done]. subst content mode. exists w, w2. by left.
  - destruct (Contains content data) eqn:Hcon; [|done]. exists w, w2. right. by exists content.
Qed.

(** The pod ran with the claim mounted and was deleted at the end. *)
Definition tested (data namespace : string) (pvc : Object) : Prop :=
  ∃ pod : Pod, (∃ w1 w2 : W, kube_CreatePod (MakePod namespace [pvc] "ls" false) w1 = (Ok pod, w2)) ∧
    (∃ w1 w2 : W, pod_ready_task (pod_Name pod) namespace w1 = (Ok (Done tt), w2)) ∧
    read_back data namespace pod pvc.

Lemma run_test_pod_Ok namespace pvc (w : W) pod w' :
  run_test_pod namespace pvc w = (Ok pod, w') →
  (∃ w1 w2 : W, kube_CreatePod (MakePod namespace [pvc] "ls" false) w1 = (Ok pod, w2)) ∧
  (∃ w1 w2 : W, pod_ready_task (pod_Name pod) namespace w1 = (Ok (Done tt), w2)).
Proof.
  intros (p & w1 & Hc%wrap_err_Ok_inv & ([] & w2 & Hw & Hm)%bind_Ok_inv)%bind_Ok_inv.
  unfold mret, M_ret in Hm. injection Hm as <- <-. split; [by exists w, w1|].
  apply wrap_err_Ok_inv in Hw. apply bind_Ok_inv in Hw as ([] & w3 & _ & (w4 & Hd)%DoRetryWithTimeout_Ok_inv).
  by exists w4, w2.
Qed.

Lemma restored_spec_source original size ns name snap class (w : W) spec w' :
  restored_spec original (GeneratePVCRestoreSpec size ns name snap class) w = (Ok spec, w') →
  snap ≠ "" ∧ obj_Name spec = name ∧ DataSource (claim_spec (Spec spec)) = Some (VolumeSnapshotKind, snap).
Proof.
  unfold restored_spec, GeneratePVCRestoreSpec. intros (mode & w1 & _ & Hs)%bind_Ok_inv.
  case_decide as Hb; case_decide as He; try done.
  - unfold mbind, M_bind, lift, mret, M_ret in Hs. by simplify_eq.
  - apply wrap_err_Ok_inv in Hs. unfold lift in Hs. by simplify_eq.
Qed.

(** C9. When [snapshotAndVerify] succeeds, a snapshot of the claim was created, a claim with
    that snapshot as its source was made from it, a pod ran with this claim mounted,
    and what the pod read from the volume held the data. *)
Theorem snapshotAndVerify_sound size data snapName namespace storageClass snapClass restoredPVCName originalPVC (w w' : W) :
  snapshotAndVerify size data snapName namespace storageClass snapClass restoredPVCName originalPVC w = (Ok tt, w') →
  ∃ snap spec restored,
    (∃ w1 w2 : W, CreateSnapshot (new_snapshot snapName namespace snapClass originalPVC) w1 = (Ok snap, w2)) ∧
    obj_Name spec = restoredPVCName ∧ DataSource (claim_spec (Spec spec)) = Some (VolumeSnapshotKind, obj_Name snap) ∧
    (∃ w1 w2 : W, create_object spec w1 = (Ok restored, w2)) ∧ tested data namespace restored.
Proof.
  unfold snapshotAndVerify. intros Hs.
  apply bind_Ok_inv in Hs as ([] & w1 & _ & Hs). apply bind_Ok_inv in Hs as (original & w2 & _ & Hs).
  apply bind_Ok_inv in Hs as (snap & w3 & Hsnap%wrap_err_Ok_inv & Hs).
  apply bind_Ok_inv in Hs as (spec & w4 & Hspec & Hs).
  apply bind_Ok_inv in Hs as (restored & w5 & Hc%wrap_err_Ok_inv & Hs).
  apply bind_Ok_inv in Hs as ([] & w6 & _ & Hs). apply bind_Ok_inv in Hs as (pod & w7 & Hp & Hs).
  apply bind_Ok_inv in Hs as ([] & w8 & Hv & _).
  apply bind_Ok_inv in Hsnap as (sn & w9 & Hcr%wrap_err_Ok_inv & ([] & w10 & _ & Hm)%bind_Ok_inv).
  unfold mret, M_ret in Hm. injection Hm as -> <-.
  apply restored_spec_source in Hspec as (_ & Hname & Hds). apply run_test_pod_Ok in Hp as [Hpod Hready].
  exists snap, spec, restored. split_and!; [by exists w2, w9|done|done|by exists w4, w5|].
  exists pod. split_and!; [done|done|]. by eapply verify_content_Ok.
Qed.

(** *** Snapshots of a claim *)

(** What [GetCsiSnapshots] lists are snapshots of the claim. *)
Theorem GetCsiSnapshots_source namespace pvcName (w : W) l w' :
  GetCsiSnapshots namespace pvcName w = (Ok l, w') →
  Forall (λ s, SnapshotSource (snapshot (Spec s)) = Some pvcName) l.
Proof.
  intros (items & w1 & _ & Hs)%bind_Ok_inv. revert w1 l Hs.
  induction items as [|item items IH]; intros w1 l; simpl; [unfold mret, M_ret; intros; simplify_eq; constructor|].
  intros (found & w2 & Hf & (rest & w3 & Hr & Hm)%bind_Ok_inv)%bind_Ok_inv.
  unfold mret, M_ret in Hm. injection Hm as <- <-. apply Forall_app. split; [|by eapply IH].
  unfold attempt in Hf. destruct (GetCsiSnapshot (obj_Name item) namespace w1) as [[snap|e|s|] w4]; try done.
  - apply bind_Ok_inv in Hf as (source & w5 & Hd & Hm). unfold lift, deref in Hd.
    destruct (SnapshotSource (snapshot (Spec snap))) as [src|] eqn:E; [|done]. injection Hd as -> <-.
    unfold mret, M_ret in Hm. injection Hm as <- _. case_decide; [|constructor]. subst. by repeat constructor.
  - unfold mret, M_ret in Hf. injection Hf as <- _. constructor.
Qed.

(** [validateCsiSnap] accepts a snapshot only when the cluster has one of its name, of
    the same class, whose source is the claim. *)
Theorem validateCsiSnap_sound pvcName namespace csiSnapshot (w w' : W) :
  validateCsiSnap pvcName namespace csiSnapshot w = (Ok tt, w') →
  obj_Name csiSnapshot ≠ "" ∧
  ∃ snap, GetCsiSnapshot (obj_Name csiSnapshot) namespace w = (Ok snap, w') ∧
    SnapshotClassName (snapshot (Spec snap)) = SnapshotClassName (snapshot (Spec csiSnapshot)) ∧
    SnapshotSource (snapshot (Spec snap)) = Some pvcName.
Proof.
  unfold validateCsiSnap. cbv zeta. case_decide as Hn; [done|]. intros (snap & w1 & Hg%wrap_err_Ok_inv & Hs)%bind_Ok_inv.
  split; [done|]. exists snap.
  apply bind_Ok_inv in Hs as (c & w2 & Hc & Hs). apply bind_Ok_inv in Hs as (c' & w3 & Hc' & Hs).
  unfold lift, deref in Hc, Hc'. destruct (SnapshotClassName (snapshot (Spec snap))); [|done]. injection Hc as -> <-.
  destruct (SnapshotClassName (snapshot (Spec csiSnapshot))); [|done]. injection Hc' as -> <-.
  case_decide as Hd; [done|]. apply bind_Ok_inv in Hs as (src & w4 & Hsrc & Hs). unfold lift, deref in Hsrc.
  destruct (SnapshotSource (snapshot (Spec snap))); [|done]. injection Hsrc as -> <-.
  case_decide as Hp; [done|]. unfold mret, M_ret in Hs. injection Hs as <-.
  by subst.
Qed.

(** *** Waiting for a claim *)

(** An hour or more is not waited for: the limit falls back to half an hour. *)
Lemma bound_limit_spec timeout :
  (60 <= timeout → bound_limit timeout = 30) ∧ (0 < timeout < 60 → bound_limit timeout = timeout) ∧ bound_limit 0 = 30.
Proof.
  unfold bound_limit. split_and!; intros; [rewrite decide_False; [done|lia]|rewrite decide_True; [done|lia]|done].
Qed.

(** *** Restored claims *)

(** A claim that the filter leaves out has no restored claim of its own: the first one
    of a spec ends the program, and a later one is mapped to the claim that was
    restored for the claim before it. *)
Theorem restore_claims_filtered ctx ns sc pvc pvcs resPvc result (w w1 : W) :
  is_pure_block pvc w = (Ok false, w1) →
  restore_claims ctx ns sc (pvc :: pvcs) resPvc result w =
    match resPvc with
    | None => (Panic "invalid memory address or nil pointer dereference", w1)
    | Some r => restore_claims ctx ns sc pvcs (Some r) (<[obj_Name pvc := r]> result) w1
    end.
Proof. intros Hf. simpl. rewrite (bind_Ok _ _ _ _ _ Hf). by destruct resPvc. Qed.
End csi_theorems.
