(* ===== verification/K8sDescribe.v ===== *)
(** drivers/scheduler/k8s/k8s.go: setting the driver up and pointing its clients at a
    cluster, describing an application, secrets, and the operations the driver does
    not have. *)

From Stdlib Require Import Ascii.
From S2P Require Import Prelude GoStrings Errors Effects Float64 Strconv Task OpenStorageApi NodeRegistry AutopilotRules SpecFactory PxDriver PxNodeOps PxVolume PureDevices PxDrives PxCluster K8sObjects VolumeDrivers K8sSpecs K8sNodes K8sHelm K8sCreate K8sApps PxExpansion K8sAutopilot K8sDestroy K8sVolumes K8sCsi.

(** ** Data *)

(** [rest.Config]: where it was read from, and its authentication provider, a pointer to
    a struct with a map *)
Record KubeConfig := {
  cfg_Path : string;
  AuthProvider : option (option (gmap string string));
}.

(** [scheduler.InitOptions], the fields [Init] reads *)
Record InitOptions := {
  init_SpecDir : string;
  init_VolDriverName : string;
  init_NodeDriverName : string;
  init_PureVolumes : bool;
  init_Config : K8sConfig;
}.

(** The clients of the package, by the name of their variable *)
Inductive Client : Type :=
  | k8sCore | k8sApps | k8sStork | k8sStorage | k8sExternalStorage | k8sAutopilot | k8sRbac | k8sNetworking | k8sBatch
  | k8sMonitoring | k8sPolicy | k8sAdmissionRegistration | k8sApiExtensions | k8sOperator | k8sKubevirt | k8stektoncd
  | k8sExternalsnap.

#[export] Instance Client_eq_dec : EqDecision Client.
Proof. solve_decision. Defined.

(** Configurations, the statuses [Describe] prints (nil, or the text of [%+v]), events as
    text, and how the other values are printed *)
Class K8sDescribeApi (W : Type) := {
  config_from_file : string → M W KubeConfig;
  client_SetConfig : Client → option KubeConfig → M W unit;
  client_Status : Kind → string → string → M W (option string * option error);
  GetStorageClassParams : Object → M W (option (gmap string string) * option error);
  core_ListEvents : string → string → M W (string * option error);
  core_GetVersion : M W string;
  core_GetPods : string → gmap string string → M W (list Pod);
  pod_containers : Pod → list (string * string);
  show_pointer : option Object → string;
  show_params : option (gmap string string) → string;
  show_pod_list : option (list Pod) → string;
}.

Definition SchedName : string := "k8s".

Definition nl : string := String "010" "".

Definition insertLineBreak (note : string) : string :=
  "------------------------------" +:+ nl +:+ note +:+ nl +:+ "------------------------------" +:+ nl.

Section describe.
Context {W : Type} `{SchedWorld W} `{K8sClient W} `{SpecFiles} `{HelmLib W} `{K8sCreateApi W} `{K8sAppsApi W}.
Context `{K8sAutopilotApi W} `{K8sDelete W} `{K8sVolumeApi W} `{K8sCsiApi W} `{K8sDescribeApi W}.
Context `{K8sNodeApi W} `{NodeDriver W} `{K8sCore W}.

(** ** Setting up *)

Definition write_options (o : InitOptions) : M W unit := λ w,
  (Ok tt, set_k8s {| NodeDriverName := init_NodeDriverName o; VolDriverName := init_VolDriverName o;
     PureVolumes := init_PureVolumes o; eventsStorage := ∅; defaultTorpedoLabel := defaultTorpedoLabel (k8s w);
     config := init_Config o |} w).

(** [RescanSpecs]: the parser hands out pointers to the specs it makes *)
Definition RescanSpecs `{!SpecSource (O := nat)} (specDir storageDriver : string) : M W unit :=
  _ ← with_factory (NewFactory specDir storageDriver);
  mret tt.

(** [Init]; the collection of events it starts is [collectEvents] *)
Definition Init `{!SpecSource (O := nat)} (schedOpts : InitOptions) : M W unit :=
  _ ← write_options schedOpts;
  nodes ← core_GetNodes;
  _ ← for_each AddNewNode nodes;
  RescanSpecs (init_SpecDir schedOpts) (init_VolDriverName schedOpts).

(** The clients [SetConfig] and [SetGkeConfig] point at a cluster, in order *)
Definition gke_clients : list Client :=
  [k8sCore; k8sApps; k8sApps; k8sStork; k8sStorage; k8sExternalStorage; k8sAutopilot; k8sRbac; k8sMonitoring; k8sPolicy;
   k8sBatch; k8sMonitoring; k8sAdmissionRegistration; k8sExternalsnap; k8sApiExtensions; k8sOperator].
Definition config_clients : list Client := gke_clients ++ [k8sKubevirt; k8stektoncd].

(** Without a path the configuration is nil: that of the cluster the program runs in *)
Definition read_config (kubeconfigPath : string) : M W (option KubeConfig) :=
  if decide (kubeconfigPath = "") then mret None
  else cfg ← config_from_file kubeconfigPath; mret (Some cfg).

Definition SetConfig (kubeconfigPath : string) : M W unit :=
  cfg ← read_config kubeconfigPath;
  for_each (λ c, client_SetConfig c cfg) config_clients.

(** The key is written through the pointers of the configuration. *)
Definition SetGkeConfig (kubeconfigPath jsonKey : string) : M W unit :=
  cfg ← read_config kubeconfigPath;
  c ← lift (deref cfg);
  auth ← lift (deref (AuthProvider c));
  m ← lift (match auth with Some m => Ok m | None => Panic "assignment to entry in nil map" end);
  let c' := {| cfg_Path := cfg_Path c; AuthProvider := Some (Some (<["cred-json" := jsonKey]> m)) |} in
  for_each (λ client, client_SetConfig client (Some c')) gke_clients.

Definition ClusterVersion : M W string :=
  v ← core_GetVersion;
  mret (TrimLeft v "v").

(** ** Describing *)

(** [dumpEvents]: an error is a part of the text *)
Definition dumpEvents (namespace resourceType name : string) : M W string :=
  '(events, err) ← core_ListEvents namespace
      ("involvedObject.kind=" +:+ resourceType +:+ ",involvedObject.name=" +:+ name);
  let failure := match err with
                 | Some e => Error (SchedErr (ErrFailedToGetEvents resourceType name) (Error e))
                 | None => ""
                 end in
  mret (failure +:+ insertLineBreak "Events:" +:+ events +:+ nl).

Definition dumpPodStatusRecursively (pod : Pod) : M W string :=
  events ← dumpEvents (pod_Namespace pod) "Pod" (pod_Name pod);
  mret (insertLineBreak ("Pod: [" +:+ pod_Namespace pod +:+ "] " +:+ pod_Name pod) +:+ pod_Status pod +:+ nl +:+
        foldr (λ c s, insertLineBreak ("container: " +:+ c.1) +:+ c.2 +:+ nl +:+ insertLineBreak "END container" +:+ s) ""
          (pod_containers pod) +:+
        events +:+ insertLineBreak "END pod").

Fixpoint dump_pods (pods : list Pod) : M W string :=
  match pods with
  | [] => mret ""
  | p :: pods' => s ← dumpPodStatusRecursively p; rest ← dump_pods pods'; mret (s +:+ rest)
  end.

(** The text of an error that is there *)
Definition told (failed : error → error) (err : option error) : string :=
  match err with Some e => Error (failed e) | None => "" end.

(** The pods of a workload; the error is dropped *)
Definition pods_or_none (m : M W (list Pod)) : M W (list Pod) :=
  attempt m (λ r, mret (match r with inl l => l | inr _ => [] end)).

(** A type whose status is a pointer: [what] names it in messages, [tag] in headings *)
Definition describe_status (ctx : Context) (k : app_error) (tag what header name ns shown : string) (kind : Kind)
    (pods : M W string) : M W string :=
  '(status, err) ← client_Status kind name ns;
  events ← dumpEvents ns tag name;
  rest ← pods;
  mret (insertLineBreak header +:+
        told (λ e, AppErr k (Key (App ctx)) ("Failed to get status of " +:+ what +:+ ": " +:+ shown +:+ ". Err: " +:+ Error e)) err +:+
        "Status: " +:+ default "nil" status +:+ nl +:+ events +:+ rest +:+ insertLineBreak ("END " +:+ tag)).

Definition heading (tag : string) (o : Object) : string :=
  tag +:+ ": [" +:+ obj_Namespace o +:+ "] " +:+ obj_Name o.

(** A type that is read and printed whole; [ns] is the namespace of its events *)
Definition describe_custom (tag what ns : string) (o : Object) : M W string :=
  '(x, err) ← client_Get (obj_kind o) (obj_Name o) (if decide (obj_kind o = KAutopilotRule) then "" else obj_Namespace o);
  events ← dumpEvents ns tag (obj_Name o);
  mret (insertLineBreak (heading tag o) +:+
        told (λ e, SchedErr (ErrFailedToGetCustomSpec (obj_Name o))
                     ("Failed to get " +:+ what +:+ ": " +:+ obj_Name o +:+ ". Err: " +:+ Error e)) err +:+
        show_pointer x +:+ nl +:+ events +:+ insertLineBreak ("END " +:+ tag)).

(** The tags of these types, which are in the messages as well but for one *)
Definition custom_tag (k : Kind) : option (string * string) :=
  match k with
  | KClusterPair => Some ("ClusterPair", "cluster Pair")
  | KMigration => Some ("Migration", "Migration")
  | KMigrationSchedule => Some ("MigrationSchedule", "MigrationSchedule")
  | KBackupLocation => Some ("BackupLocation", "BackupLocation")
  | KApplicationBackup => Some ("ApplicationBackup", "ApplicationBackup")
  | KApplicationRestore => Some ("ApplicationRestore", "ApplicationRestore")
  | KApplicationClone => Some ("ApplicationClone", "ApplicationClone")
  | KVolumeSnapshotRestore => Some ("VolumeSnapshotRestore", "VolumeSnapshotRestore")
  | KAutopilotRule => Some ("AutopilotRule", "AutopilotRule")
  | KVirtualMachine => Some ("VirtualMachine", "VirtualMachine")
  | KPipeline => Some ("Pipeline", "Pipeline")
  | KTask => Some ("Task", "Task")
  | KPipelineRun => Some ("PipelineRun", "PipelineRun")
  | KTaskRun => Some ("TaskRun", "TaskRun")
  | _ => None
  end.

(** The status of a snapshot; its events are looked for in a namespace of its name *)
Definition describe_snapshot (o : Object) : M W string :=
  '(status, err) ← client_Status KVolumeSnapshot (obj_Name o) (obj_Namespace o);
  events ← dumpEvents (obj_Name o) "VolumeSnapshot" (obj_Name o);
  mret (insertLineBreak (heading "VolumeSnapshot" o) +:+
        told (λ e, SchedErr (ErrFailedToGetCustomSpec (obj_Name o))
                     ("Failed to get VolumeSnapshot: " +:+ obj_Name o +:+ ". Err: " +:+ Error e)) err +:+
        default "<nil>" status +:+ nl +:+ events +:+ insertLineBreak "END VolumeSnapshot").

(** A pod: the pods of a namespace of its name are listed *)
Definition describe_pod (ctx : Context) (o : Object) : M W string :=
  r ← attempt (GetPods (obj_Name o)) (λ r, mret r);
  events ← dumpEvents (obj_Namespace o) "Pod" (obj_Name o);
  mret (insertLineBreak (heading "Pod" o) +:+
        told (λ e, AppErr AppErrFailedToGetPodStatus (Key (App ctx))
                     ("Failed to get status of pod: " +:+ obj_Name o +:+ ". Err: " +:+ Error e))
          (match r with inr e => Some e | inl _ => None end) +:+
        show_pod_list (match r with inl l => Some l | inr _ => None end) +:+ nl +:+ events +:+ insertLineBreak "END Pod").

Definition describe_class (ctx : Context) (o : Object) : M W string :=
  '(scParams, err) ← GetStorageClassParams o;
  events ← dumpEvents (obj_Namespace o) "StorageClass" (obj_Name o);
  mret (insertLineBreak ("StorageClass: " +:+ obj_Name o) +:+
        told (λ e, AppErr AppErrFailedToGetVolumeParameters (Key (App ctx))
                     ("Failed to get parameters of storage class: " +:+ obj_Name o +:+ ". Err: " +:+ Error e)) err +:+
        show_params scParams +:+ nl +:+ events +:+ insertLineBreak "END StorageClass").

Definition describe_secret (ctx : Context) (o : Object) : M W string :=
  '(secret, err) ← client_Get KSecret (obj_Name o) (obj_Namespace o);
  mret (insertLineBreak (heading "Secret" o) +:+
        told (λ e, AppErr AppErrFailedToGetSecret (Key (App ctx))
                     ("Failed to get secret : " +:+ obj_Name o +:+ ". Error is : " +:+ Error e)) err +:+
        show_pointer secret +:+ nl +:+ insertLineBreak "END Secret").

(** The pods of a data service: its set is read, and its pods are asked for whether or
    not that failed *)
Definition pds_pods (ctx : Context) (o : Object) (ns : string) : M W string :=
  '(ss, err) ← client_Get KStatefulSet (ClusterResourceName o) ns;
  set ← lift (deref ss);
  pods ← pods_or_none (GetStatefulSetPods set);
  s ← dump_pods pods;
  mret (told (λ e, AppErr AppErrFailedToGetPodStatus (Key (App ctx))
                     ("Failed to get statefulsets: " +:+ ClusterResourceName o +:+ ". Err: " +:+ Error e)) err +:+ s).

Definition describe_object (ctx : Context) (o : Object) : M W string :=
  let name := obj_Name o in
  let ns := obj_Namespace o in
  match obj_kind o with
  | KDeployment =>
      describe_status ctx AppErrFailedToGetAppStatus "Deployment" "deployment" (heading "Deployment" o) name ns name
        KDeployment (l ← pods_or_none (GetDeploymentPods o); dump_pods l)
  | KModelsDeployment =>
      pdsNs ← lift (deref (pds_Namespace o));
      describe_status ctx AppErrFailedToGetAppStatus "StatefulSet" "statefulset"
        ("StatefulSet: [" +:+ ClusterResourceName o +:+ "] ") (ClusterResourceName o) pdsNs (show_pds_Name o)
        KStatefulSet (pds_pods ctx o pdsNs)
  | KStatefulSet =>
      describe_status ctx AppErrFailedToGetAppStatus "StatefulSet" "statefulset" (heading "StatefulSet" o) name ns name
        KStatefulSet (l ← pods_or_none (GetStatefulSetPods o); dump_pods l)
  | KService =>
      describe_status ctx AppErrFailedToGetAppStatus "Service" "service" (heading "Service" o) name ns name KService (mret "")
  | KPersistentVolumeClaim =>
      describe_status ctx AppErrFailedToGetStorageStatus "PersistentVolumeClaim" "persistent volume claim"
        (heading "PersistentVolumeClaim" o) name ns name KPersistentVolumeClaim (mret "")
  | KStorageClass => describe_class ctx o
  | KPod => describe_pod ctx o
  | KVolumeSnapshot => describe_snapshot o
  | KSecret => describe_secret ctx o
  | k => match custom_tag k with
         | Some (tag, what) => describe_custom tag what ns o
         | None => mret ""
         end
  end.

Fixpoint describe_specs (ctx : Context) (specs : list Object) : M W string :=
  match specs with
  | [] => mret ""
  | o :: specs' => s ← describe_object ctx o; rest ← describe_specs ctx specs'; mret (s +:+ rest)
  end.

Definition Describe (ctx : Context) : M W string := describe_specs ctx (SpecList (App ctx)).

(** ** Secrets, rules and the rest *)

(** [GetTokenFromConfigMap]: the error of the secret is a variable of its own *)
Definition GetTokenFromConfigMap (configMapName : string) : M W string :=
  configMap ← get_object KConfigMap configMapName "default";
  attempt (get_object KSecret (default "" (Data configMap !! secretNameKey)) (default "" (Data configMap !! secretNamespaceKey)))
    (λ r, match r with
          | inl secret => mret (default "" (Data secret !! "auth-token"))
          | inr _ => mret ""
          end).

Definition K8s_DeleteSecret (namespace name : string) : M W unit := client_Delete KSecret name namespace.

Definition GetSecretData (namespace name dataField : string) : M W string :=
  secret ← get_object KSecret name namespace;
  mret (default "" (Data secret !! dataField)).

Definition new_secret (namespace name dataField data : string) : Object :=
  let o := new_object KSecret name namespace None in
  {| obj_kind := obj_kind o; TypeMeta_Kind := TypeMeta_Kind o; obj_Name := obj_Name o; obj_Namespace := obj_Namespace o;
     obj_UID := obj_UID o; K8sObjects.Labels := K8sObjects.Labels o; K8sObjects.Annotations := K8sObjects.Annotations o;
     Replicas := Replicas o; Affinity := Affinity o; PodVolumes := PodVolumes o; ContainerEnv := ContainerEnv o;
     AccessModes := AccessModes o; VolumeName := VolumeName o; StorageRequest := StorageRequest o;
     Data := {[dataField := data]}; Status_text := Status_text o; Spec := Spec o |}.

Definition CreateSecret (namespace name dataField secretDataString : string) : M W unit :=
  '(_, err) ← client_Create (new_secret namespace name dataField secretDataString);
  match err with Some e => throw e | None => mret tt end.

Definition K8s_DeleteAutopilotRule (name : string) : M W unit := client_Delete KAutopilotRule name "".

Definition GetPodsForPVC (pvcname namespace : string) : M W (list Pod) := GetPodsUsingPVC pvcname namespace.

(** The pods of a namespace with what their containers were restarted, by pod *)
Fixpoint restart_counts (pods : list Pod) : M W (list (Pod * Z)) :=
  match pods with
  | [] => mret []
  | p :: pods' =>
      actualPod ← GetPodByName (pod_Name p) (pod_Namespace p);
      rest ← restart_counts pods';
      mret (match pod_RestartCounts actualPod with
            | [] => rest
            | counts => (actualPod, i32 (foldr Z.add 0 counts)) :: rest
            end)
  end.

Definition GetPodsRestartCount (namespace : string) (podLabelMap : gmap string string) : M W (list (Pod * Z)) :=
  pods ← core_GetPods namespace podLabelMap;
  restart_counts pods.

(** The operations that are not there *)
Definition unsupported (op : string) {A} : M W A := throw (ErrNotSupported "Function" op).
Definition UpgradeScheduler (version : string) : M W unit := unsupported "UpgradeScheduler()".
Definition K8s_DeleteNode (n : Node) : M W unit := unsupported "DeleteNode()".
Definition ScaleCluster (replicas : Z) : M W unit := unsupported "ScaleCluster()".
Definition GetZones : M W (list string) := unsupported "GetZones()".
Definition GetASGClusterSize : M W Z := unsupported "GetASGClusterSize()".
Definition SetASGClusterSize (perZoneCount timeout : Z) : M W unit := unsupported "SetASGClusterSize()".

End describe.

(** ** Theorems *)

(** [SetConfig] points every client at the cluster but the one for networking, and
    [SetGkeConfig] leaves out those for virtual machines and pipelines as well: after
    a change of the cluster, ingresses are still made in the old one. *)
Theorem SetConfig_clients c :
  (c ∈ config_clients ↔ c ≠ k8sNetworking) ∧
  (c ∈ gke_clients ↔ c ≠ k8sNetworking ∧ c ≠ k8sKubevirt ∧ c ≠ k8stektoncd).
Proof. destruct c; split; split; try (by intros _; apply (bool_decide_unpack _); vm_compute); by intros Hc%(bool_decide_pack _). Qed.

Section describe_theorems.
Context {W : Type} `{SchedWorld W} `{K8sClient W} `{SpecFiles} `{HelmLib W} `{K8sCreateApi W} `{K8sAppsApi W}.
Context `{K8sAutopilotApi W} `{K8sDelete W} `{K8sVolumeApi W} `{K8sCsiApi W} `{K8sDescribeApi W}.

(** A call that does not return an error *)
Definition no_error {A} (m : M W A) : Prop := ∀ w e, (m w).1 ≠ Err e.

(** The calls that answer with a pointer and an error have no other way to fail. *)
Class AnswersInPairs : Prop := {
  Get_answers : ∀ k n ns, no_error (client_Get k n ns : M W _);
  Status_answers : ∀ k n ns, no_error (client_Status k n ns : M W _);
  Params_answer : ∀ o, no_error (GetStorageClassParams o : M W _);
  Events_answer : ∀ ns f, no_error (core_ListEvents ns f : M W _);
}.

Lemma no_error_bind {A B} (m : M W A) (f : A → M W B) : no_error m → (∀ a, no_error (f a)) → no_error (m ≫= f).
Proof.
  intros Hm Hf w e. unfold mbind, M_bind. specialize (Hm w). destruct (m w) as [[a|e'|s|] w1]; simpl in *; try done.
  - apply Hf.
  - by intros [= <-]; apply (Hm e').
Qed.

Lemma no_error_ret {A} (a : A) : no_error (mret a : M W A).
Proof. by intros w e. Qed.

Lemma no_error_deref {A} (p : option A) : no_error (lift (deref p) : M W A).
Proof. intros w e. by destruct p. Qed.

Lemma no_error_attempt {A B} (m : M W A) (k : A + error → M W B) : (∀ r, no_error (k r)) → no_error (attempt m k).
Proof. intros Hk w e. unfold attempt. destruct (m w) as [[a|e'|s|] w1]; try done; apply Hk. Qed.

Context `{!AnswersInPairs}.

Ltac no_error_tac :=
  repeat first [ apply no_error_bind; [|intros ?] | apply no_error_ret | apply no_error_deref | apply no_error_attempt; intros ?
               | apply Get_answers | apply Status_answers | apply Params_answer | apply Events_answer
               | match goal with |- no_error (let '(_, _) := ?x in _) => destruct x end
               | done ].

Lemma dumpEvents_answers ns t n : no_error (dumpEvents ns t n : M W string).
Proof. unfold dumpEvents. no_error_tac. Qed.

Lemma dump_pods_answers l : no_error (dump_pods l : M W string).
Proof.
  induction l as [|p l IH]; simpl; [no_error_tac|]. apply no_error_bind; [|intros s; no_error_tac].
  unfold dumpPodStatusRecursively. apply no_error_bind; [apply dumpEvents_answers|]. no_error_tac.
Qed.

Lemma describe_status_answers ctx k tag what header name ns shown kind pods :
  no_error pods → no_error (describe_status ctx k tag what header name ns shown kind pods : M W string).
Proof.
  intros Hp. unfold describe_status. apply no_error_bind; [apply Status_answers|]. intros [st err].
  apply no_error_bind; [apply dumpEvents_answers|]. intros ev. no_error_tac.
Qed.

Lemma describe_object_answers ctx o : no_error (describe_object ctx o : M W string).
Proof.
  pose proof dumpEvents_answers. pose proof dump_pods_answers.
  assert (∀ t v ns, no_error (describe_custom t v ns o : M W string)).
  { intros. unfold describe_custom. no_error_tac; auto. all: no_error_tac. }
  unfold describe_object. cbv zeta.
  destruct (obj_kind o); try (apply describe_status_answers; no_error_tac; auto); simpl; try done; try apply no_error_ret.
  all: try (unfold describe_class, describe_snapshot, describe_secret; no_error_tac; auto; no_error_tac).
Qed.

(** [Describe] has an error result and never uses it: whatever fails on the way is
    written into the description. *)
Theorem Describe_no_error ctx (w : W) e : (Describe ctx w).1 ≠ Err e.
Proof.
  revert w e. change (no_error (Describe ctx : M W string)). unfold Describe.
  induction (SpecList (App ctx)) as [|o l IH]; simpl; [apply no_error_ret|].
  apply no_error_bind; [apply describe_object_answers|]. intros s. apply no_error_bind; [done|]. intros. apply no_error_ret.
Qed.

(** A secret that cannot be read gives an empty token and no error. *)
Theorem GetTokenFromConfigMap_lost name configMap (w w1 w2 : W) e :
  get_object KConfigMap name "default" w = (Ok configMap, w1) →
  get_object KSecret (default "" (Data configMap !! secretNameKey)) (default "" (Data configMap !! secretNamespaceKey)) w1
    = (Err e, w2) →
  GetTokenFromConfigMap name w = (Ok "", w2).
Proof. intros Hc Hs. unfold GetTokenFromConfigMap. rewrite (bind_Ok _ _ _ _ _ Hc). unfold attempt. by rewrite Hs. Qed.

(** Without a path [SetGkeConfig] writes through a nil configuration. *)
Theorem SetGkeConfig_no_path jsonKey (w : W) :
  SetGkeConfig "" jsonKey w = (Panic "invalid memory address or nil pointer dereference", w).
Proof. done. Qed.
End describe_theorems.
