(* ===== verification/SchedOpsK8s.v ===== *)
(** drivers/volume/portworx/schedops: what the volume driver asks of the scheduler - the
    labels and mounts of a volume, the pods and the namespace of Portworx, readiness
    and upgrades - on Kubernetes.  The operations implement the interface [SchedOps] of
    the driver, and are shown to keep its laws in SchedOpsProps. *)

From Stdlib Require Import Ascii.
From S2P Require Import Prelude GoStrings Errors Effects Regexp Strconv Task OpenStorageApi NodeRegistry AutopilotRules SpecFactory PxDriver K8sObjects VolumeDrivers K8sSpecs K8sNodes K8sHelm K8sCreate K8sApps PxExpansion K8sAutopilot K8sDestroy PxVolume PxCluster K8sVolumes K8sCsi K8sDescribe.

(** A node of Kubernetes, its labels and taints included *)
Record KubeNode := {
  kn_Name : string;
  kn_Labels : gmap string string;
  kn_Taints : list string;
  kn_Addresses : list (string * string);
}.

(** A container of a pod: the names and paths of its mounts and of its raw devices *)
Record PodContainer := {
  ctr_Name : string;
  ctr_Mounts : list (string * string);
  ctr_Devices : list (string * string);
}.

(** [node.FindType] and [node.FindOpts] *)
Definition File : string := "f".
Definition Directory : string := "d".

Record FindOpts := {
  find_Conn : ConnectionOpts;
  find_Name : string;
  find_MinDepth : Z;
  find_MaxDepth : Z;
  find_Type : string;
  find_Empty : bool;
}.

(** The job that upgrades Portworx *)
Record TalismanJob := { job_Namespace : string; job_Account : string; job_Image : string; job_Args : list string }.

(** Calls of the clients only these operations make; a node is looked for with a
    pointer and an error.  The volumes of a pod have a name and, when they are claims,
    the name of the claim. *)
Class K8sOpsApi (W : Type) := {
  core_GetNodeByName : string → M W (option KubeNode * option error);
  SearchNodeByAddresses : list string → M W (option KubeNode * option error);
  GetPodsUsingPV : string → M W (list Pod);
  IsPodReady : Pod → bool;
  pod_Labels : Pod → gmap string string;
  pod_claims : Pod → list (string * option string);
  pod_Containers : Pod → list PodContainer;
  GetReplicaSet : string → string → M W (option Z);
  driver_FindFiles : string → Node → FindOpts → M W (string * option error);
  core_GetServiceEndpoint : string → string → M W string;
  CreateJob : TalismanJob → M W (string * string);
  ListStorageClusters : string → M W (list (string * string));
  GetStorageCluster : string → string → M W (gmap string string);
  dest_Instance : string → M W unit;
  dest_GetNodes : string → M W (list KubeNode);
  dest_IsNodeMaster : KubeNode → bool;
  list_AutopilotRules : M W (list RuleObject);
  range_paths : gmap string (list string) → list (string * list string);
}.

Definition PXDaemonSet : string := "portworx".
Definition PXPodlabelKey : string := "name".
Definition PXPodLabelValue : string := "portworx".
Definition k8sServiceOperationStart : string := "start".
Definition k8sServiceOperationStop : string := "stop".
Definition k8sServiceOperationRestart : string := "restart".
Definition snapshotAnnotation : string := "px/snapshot-source-pvc".
Definition storkSnapshotAnnotation : string := "snapshot.alpha.kubernetes.io/snapshot".
Definition storkSnapshotNameKey : string := "stork-snap".
Definition pvcLabel : string := "pvc".
Definition k8sRoleNodeInfraLabelKey : string := "node-role.kubernetes.io/infra".
Definition k8sRoleNodeComputeLabelKey : string := "node-role.kubernetes.io/compute".
Definition dcosNodeType : string := "kubernetes.dcos.io/node-type".
Definition talismanServiceAccount : string := "talisman-account".
Definition talismanImage : string := "portworx/talisman:latest".
Definition rancherControlPlaneLabelKey : string := "node-role.kubernetes.io/controlplane".
Definition PureMapperRegex : string := "/dev/mapper/.*" +:+ "24a937" +:+ ".*".
Definition pxDisabledConditions : list (string * string) :=
  [(PXEnabledLabelKey, "false"); (rancherControlPlaneLabelKey, "true")].

Definition defaultRetryInterval : Z := 5 * Second.
Definition defaultTimeout : Z := 10 * Minute.

Module K8sOps.

(** ** Paths and regular expressions *)

Definition separateFilePaths (volDirList : string) : list string :=
  let trimmedList := TrimSpace volDirList in
  if decide (trimmedList = "") then [] else Split trimmedList "010".

Definition podUIDRegexp : string :=
  k8sPodsRootDir +:+ "/([0-9a-f]{8}-[0-9a-f]{4}-[0-9a-f]{4}-[0-9a-f]{4}-[0-9a-f]{12})/.*".

(** The leftmost match; its group is the 36 characters after the directory. *)
Definition extractPodUID (volDirPath : string) : outcome string :=
  re ← Regexp.MustCompile podUIDRegexp;
  let text := Regexp.chars volDirPath in
  Ok (match find_first (λ i, negb (bool_decide (Regexp.ends text re i = []))) (seq 0 (S (length text))) with
      | Some i => String.substring (i + S (String.length k8sPodsRootDir)) 36 volDirPath
      | None => ""
      end).

Definition isMountReadOnly (mount : string) : outcome bool :=
  re ← Regexp.MustCompile "ro,|,ro";
  Ok (Regexp.MatchString re mount).

(** The source of a mount and the path it is mounted at *)
Definition pxMountCheckRegex (path : string) : string :=
  "^(/dev/pxd.+|pxfs.+|/dev/mapper/pxd-enc.+|" +:+ PureMapperRegex +:+
  ".+|/dev/loop.+|\d+\.\d+\.\d+\.\d+:/var/lib/osd/pxns.+|(.[A-Fa-f0-9]{1,4}::?){1,7}[A-Fa-f0-9]{1,4}]:/var/lib/osd/pxns.+|" +:+
  "\d+.\d+.\d+.\d+:/px_[0-9A-Za-z]{8}-pvc.+) " +:+ path.

Definition pxMountNvmeRegex : string := "\/dev\/mapper\/eui\.00.*24a937.*".

(** The loop over the mounts for one path: whether a line shows the mount of Portworx,
    whether that line is read-only, and whether an NVMe device was seen up to it *)
Fixpoint scan_mounts (re nvme : Regexp.regexp) (lines : list string) (isNvme : bool) : outcome (option bool * bool) :=
  match lines with
  | [] => Ok (None, isNvme)
  | line :: lines' =>
      let isNvme' := isNvme || Regexp.MatchString nvme line in
      if Regexp.MatchString re line then ro ← isMountReadOnly line; Ok (Some ro, isNvme')
      else scan_mounts re nvme lines' isNvme'
  end.

(** ** The claims of the containers of a pod *)

(** [containerPaths[c] = append(containerPaths[c], path)] for a volume that is a claim *)
Definition add_path (claims : gmap string string) (c : string) (m : gmap string (list string)) (np : string * string)
    : gmap string (list string) :=
  match claims !! np.1 with
  | Some _ => <[c := default [] (m !! c) ++ [np.2]]> m
  | None => m
  end.

Section k8s_ops.
Context {W : Type} `{SchedWorld W} `{K8sClient W} `{SpecFiles} `{HelmLib W} `{K8sCreateApi W} `{K8sAppsApi W}.
Context `{K8sAutopilotApi W} `{K8sDelete W} `{K8sVolumeApi W} `{K8sCsiApi W} `{K8sDescribeApi W}.
Context `{K8sNodeApi W} `{NodeDriver W} `{K8sCore W} `{K8sOpsApi W}.

Definition pvcNamesInSpec (pod : Pod) : gmap string string :=
  foldl (λ m v, match v.2 with Some claim => <[v.1 := claim]> m | None => m end) ∅ (pod_claims pod).

Definition GetContainerPVCMountMap (pod : Pod) : gmap string (list string) :=
  let claims := pvcNamesInSpec pod in
  foldl (λ m c, foldl (add_path claims (ctr_Name c)) m (ctr_Mounts c ++ ctr_Devices c)) ∅ (pod_Containers pod).

Fixpoint classes_of_paths (ns : string) (claims : gmap string string) (l : list (string * string)) (m : gmap string Object)
    : M W (gmap string Object) :=
  match l with
  | [] => mret m
  | (name, path) :: l' =>
      match claims !! name with
      | Some pvcName =>
          pvc ← get_object KPersistentVolumeClaim pvcName ns;
          storageClass ← GetStorageClassForPVC pvc;
          classes_of_paths ns claims l' (<[path := storageClass]> m)
      | None => classes_of_paths ns claims l' m
      end
  end.

Definition GetContainerPVCMountMapWithSC (pod : Pod) : M W (gmap string Object) :=
  classes_of_paths (pod_Namespace pod) (pvcNamesInSpec pod)
    (flat_map (λ c, ctr_Mounts c ++ ctr_Devices c) (pod_Containers pod)) ∅.

(** ** The Portworx service *)

Definition GetKubernetesVersion : M W string := core_GetVersion.

Definition StopPxOnNode (n : Node) : M W unit := AddLabelOnNode (Name n) PXServiceLabelKey k8sServiceOperationStop.
Definition StartPxOnNode (n : Node) : M W unit := AddLabelOnNode (Name n) PXServiceLabelKey k8sServiceOperationStart.
Definition RestartPxOnNode (n : Node) : M W unit := AddLabelOnNode (Name n) PXServiceLabelKey k8sServiceOperationRestart.
Definition ValidateOnNode (n : Node) : M W unit := throw (ErrNotSupported "Function" "ValidateOnNode").

Definition GetPortworxNamespace : M W string :=
  pods ← ListPods PXPodlabelKey PXPodLabelValue;
  let ns := match pods with p :: _ => pod_Namespace p | [] => "" end in
  if decide (ns = "")
  then throw (Errorf ("error: can't find portworx namespace using pods with label [" +:+ PXPodlabelKey +:+ "=" +:+
         PXPodLabelValue +:+ "]"))
  else mret ns.

(** The external address is preferred, in [core.GetServiceEndpoint] *)
Definition GetServiceEndpoint : M W string :=
  namespace ← GetPortworxNamespace;
  core_GetServiceEndpoint PXServiceName namespace.

(** The same code as the scheduler's *)
Definition GetTokenFromConfigMap (configMapName : string) : M W string := K8sDescribe.GetTokenFromConfigMap configMapName.

(** The pods of the node up to the first one of Portworx; the registry entry of the
    node is written from the copy the caller passed. *)
Fixpoint px_pod_ready (n : Node) (pods : list Pod) : M W bool :=
  match pods with
  | [] => mret false
  | pod :: pods' =>
      if decide (default "" (pod_Labels pod !! "name") = PXDaemonSet) then
        if IsPodReady pod then
          attempt (registry_UpdateNode (set_PxPodRestartCount (foldl (λ a b, i32 (a + b)) 0 (pod_RestartCounts pod)) n)) (λ r,
            match r with inl _ => mret true | inr _ => mret false end)
        else mret false
      else px_pod_ready n pods'
  end.

Definition IsPXReadyOnNode (n : Node) : M W bool :=
  attempt GetPortworxNamespace (λ r,
    match r with
    | inr _ => mret false
    | inl namespace =>
        attempt (GetPodsByNode (Name n) namespace) (λ r',
          match r' with
          | inr _ => mret false
          | inl pxPods => px_pod_ready n pxPods
          end)
    end).

Definition get_node_task (n : Node) : M W (task_result KubeNode) :=
  '(node, err) ← core_GetNodeByName (Name n);
  match err with
  | Some e => mret (Retry e)
  | None => kubeNode ← lift (deref node); mret (Done kubeNode)
  end.

Definition label (n : KubeNode) (key : string) : string := default "" (kn_Labels n !! key).

(** Whether the storage cluster runs on masters; without clusters the list is indexed
    out of range *)
Definition runs_on_master (namespace : string) : M W bool :=
  attempt (ListStorageClusters namespace) (λ r,
    match r with
    | inr _ => mret false
    | inl stcList =>
        '(name, ns) ← lift (index stcList 0);
        annotations ← wrap_err (λ err, Errorf ("failed to get StorageCluster [" +:+ name +:+ "] from namespace [" +:+ ns +:+
                         "], Err: " +:+ Error err)) (GetStorageCluster name ns);
        mret (ParseBool (default "" (annotations !! "portworx.io/run-on-master")))
    end).

Definition IsPXEnabled (n : Node) : M W bool :=
  kubeNode ← DoRetryWithTimeout (get_node_task n) (1 * Minute) (10 * Second);
  if decide (label kubeNode PXEnabledLabelKey = "false" ∨ label kubeNode dcosNodeType = "public") then mret false else
  attempt GetPortworxNamespace (λ r,
    match r with
    | inr _ => mret false
    | inl namespace =>
        isPXOnControlplane ← runs_on_master namespace;
        if negb isPXOnControlplane && negb (bool_decide (kn_Taints kubeNode = [])) then mret false
        else if decide (label kubeNode k8sRoleNodeInfraLabelKey = "true" ∧
                        kn_Labels kubeNode !! k8sRoleNodeComputeLabelKey = None) then mret false
        else mret true
    end).

(** ** Labels of volumes *)

(** A pointer and an error that both say the node was found *)
Definition found_node (r : option KubeNode * option error) : option KubeNode :=
  match r with (Some n, None) => Some n | _ => None end.

Definition add_label_task (pvc : string) (rs : StorageNode) : M W (task_result unit) :=
  r ← core_GetNodeByName (Id rs);
  let addrs := [DataIp rs; MgmtIp rs] in
  n ← (match found_node r with
       | Some n => mret (Some n)
       | None => r' ← SearchNodeByAddresses addrs; mret (found_node r')
       end);
  match n with
  | None => mret (Retry (Errorf ("failed to locate node using id: " +:+ Id rs +:+ " and addresses: " +:+ show_strings addrs)))
  | Some n =>
      match kn_Labels n !! pvc with
      | None => mret (Retry (SchedOpsErr (errLabelAbsent pvc (kn_Name n))))
      | Some _ => mret (Done tt)
      end
  end.

Fixpoint missing_labels (pvc : string) (replicaNodes : list StorageNode) (missingLabelNodes : list string) : M W (list string) :=
  match replicaNodes with
  | [] => mret missingLabelNodes
  | rs :: replicaNodes' =>
      missing ← attempt (DoRetryWithTimeout (add_label_task pvc rs) (2 * Minute) (10 * Second)) (λ r,
        match r with
        | inl _ => mret missingLabelNodes
        | inr (SchedOpsErr (errLabelAbsent _ _)) => mret (missingLabelNodes ++ [Id rs])
        | inr err => throw err
        end);
      missing_labels pvc replicaNodes' missing
  end.

Definition ValidateAddLabels (replicaNodes : list StorageNode) (vol : ApiVolume) : M W unit :=
  match VolumeLabels vol !! pvcLabel with
  | None => mret tt
  | Some pvc =>
      missingLabelNodes ← missing_labels pvc replicaNodes [];
      if decide (missingLabelNodes = []) then mret tt
      else throw (SchedOpsErr (ErrLabelMissingOnNode pvc missingLabelNodes))
  end.

Definition remove_label_task (pvc : string) (n : Node) : M W (task_result unit) :=
  attempt (GetLabelsOnNode (Name n)) (λ r,
    match r with
    | inr err => mret (Retry err)
    | inl nodeLabels =>
        match nodeLabels !! pvc with
        | Some _ => mret (Retry (SchedOpsErr (errLabelPresent pvc (Name n))))
        | None => mret (Done tt)
        end
    end).

Fixpoint stale_labels (pvc : string) (nodes : list Node) (staleLabelNodes : list string) : M W (list string) :=
  match nodes with
  | [] => mret staleLabelNodes
  | n :: nodes' =>
      stale ← attempt (DoRetryWithTimeout (remove_label_task pvc n) (5 * Minute) (10 * Second)) (λ r,
        match r with
        | inl _ => mret staleLabelNodes
        | inr (SchedOpsErr (errLabelPresent _ _)) => mret (staleLabelNodes ++ [Name n])
        | inr err => throw err
        end);
      stale_labels pvc nodes' stale
  end.

Definition ValidateRemoveLabels (vol : Volume) : M W unit :=
  let pvc := Volume_Name vol in
  nodes ← registry_GetWorkerNodes;
  staleLabelNodes ← stale_labels pvc nodes [];
  if decide (staleLabelNodes = []) then mret tt
  else throw (SchedOpsErr (ErrLabelNotRemovedFromNode pvc staleLabelNodes)).

(** ** Mounts of volumes *)

Definition conn_ignoring : ConnectionOpts :=
  {| Timeout := defaultTimeout; TimeBeforeRetry := defaultRetryInterval; IgnoreError := true; Sudo := false |}.

(** [out, _ := d.RunCommand(n, cmd, connOpts)] *)
Definition run_ignoring (n : Node) (cmd : string) : M W string :=
  attempt (RunCommand n cmd conn_ignoring) (λ r, match r with inl out => mret out | inr _ => mret "" end).

(** The pod as the cluster has it now, when its mounts can be looked at: it was found,
    is not being terminated and is ready.  Another error comes with a nil pod. *)
Definition ready_pod (p : Pod) : M W (option Pod) :=
  attempt (GetPodByName (pod_Name p) (pod_Namespace p)) (λ r,
    match r with
    | inr err => if decide (err = ErrPodsNotFound) then mret None
                 else panic "invalid memory address or nil pointer dereference"
    | inl pod => mret (if pod_Terminating pod then None else if IsPodReady pod then Some pod else None)
    end).

Definition pod_tag (p : Pod) : string := "[" +:+ pod_Namespace p +:+ "/" +:+ pod_Name p +:+ "]".

(** [node.GetNodesByName()] *)
Definition nodes_by_name : M W (gmap string Node) :=
  l ← range_nodes; mret (Registry.index_by Name l).

Definition node_of_pod (nodes : gmap string Node) (p : Pod) (tag : string) : M W Node :=
  match nodes !! pod_NodeName p with
  | Some n => mret n
  | None => throw (Errorf ("node [" +:+ pod_NodeName p +:+ "] for pod " +:+ tag +:+ " not found"))
  end.

Fixpoint validate_devices (vol : Volume) (pvName : string) (nodes : gmap string Node) (pods : list Pod) : M W (list string) :=
  match pods with
  | [] => mret []
  | p :: pods' =>
      r ← ready_pod p;
      here ← (match r with
        | None => mret []
        | Some pod =>
            if decide (GetContainerPVCMountMap pod = ∅)
            then throw (Errorf ("pod " +:+ pod_tag pod +:+ " does not have raw block devices."))
            else
              currentNode ← node_of_pod nodes p ("[" +:+ pod_Namespace p +:+ "] " +:+ pod_Name p);
              volDevice ← run_ignoring currentNode ("findmnt | grep \\[ | grep " +:+ pvName);
              if decide (volDevice = "")
              then throw (Errorf ("volume [" +:+ Volume_Name vol +:+ "] not bind mounted on node [" +:+ Name currentNode +:+ "]"))
              else mret [pod_Name pod]
        end);
      rest ← validate_devices vol pvName nodes pods';
      mret (here ++ rest)
  end.

Definition validateDevicesInPods (vol : Volume) (pvName : string) (pods : list Pod) : M W (list string) :=
  nodes ← nodes_by_name;
  validate_devices vol pvName nodes pods.

(** Each path is replaced by what it links to. *)
Fixpoint resolve_links (p pod : Pod) (containerName : string) (paths : list string) : M W (list string) :=
  match paths with
  | [] => mret []
  | path :: paths' =>
      '(out, err) ← RunCommandInPod ["readlink"; "-f"; path] (pod_Name pod) containerName (pod_Namespace pod);
      match err with
      | Some e => throw (Errorf ("failed to execute command [readlink -f " +:+ path +:+ "] in pod " +:+ pod_tag p +:+
                    " container [" +:+ containerName +:+ "]. Err: " +:+ out +:+ " " +:+ Error e))
      | None =>
          let symlinkPath := TrimSpace out in
          let path' := if decide (symlinkPath = "" ∨ symlinkPath = path) then path else symlinkPath in
          rest ← resolve_links p pod containerName paths';
          mret (path' :: rest)
      end
  end.

(** The paths of a container against its mounts: whether the mount on the host is not
    to be looked for, and whether an NVMe device was seen *)
Fixpoint check_paths (pod : Pod) (containerName : string) (mounts paths : list string) (skip isNvme : bool) : M W (bool * bool) :=
  match paths with
  | [] => mret (skip, isNvme)
  | path :: paths' =>
      re ← lift (Regexp.MustCompile (pxMountCheckRegex path));
      nvme ← lift (Regexp.MustCompile pxMountNvmeRegex);
      '(found, isNvme') ← lift (scan_mounts re nvme mounts isNvme);
      match found with
      | None => throw (Errorf ("pod " +:+ pod_tag pod +:+ " container [" +:+ containerName +:+
                  "] does not have PX mount. Mounts are: [" +:+ show_strings mounts +:+ "]"))
      | Some ro => check_paths pod containerName mounts paths' (skip || ro) isNvme'
      end
  end.

(** The containers of a pod; the answer is nil when the pod is left for later. *)
Fixpoint check_containers (p pod : Pod) (containers : list (string * list string)) (skip isNvme : bool)
    : M W (option bool * bool) :=
  match containers with
  | [] => mret (Some skip, isNvme)
  | (containerName, paths) :: containers' =>
      '(output, err) ← RunCommandInPod ["cat"; "/proc/mounts"] (pod_Name pod) containerName (pod_Namespace pod);
      match err with
      | Some e =>
          if bool_decide (e = ErrPodsNotFound) || Contains (Error e) "container not found" then mret (None, isNvme)
          else throw (Errorf ("failed to execute command [cat /proc/mounts] in pod " +:+ pod_tag pod +:+ " container [" +:+
                 containerName +:+ "]. Err: " +:+ output +:+ " " +:+ Error e))
      | None =>
          let mounts := Split output "010" in
          paths' ← resolve_links p pod containerName paths;
          '(skip', isNvme') ← check_paths pod containerName mounts paths' skip isNvme;
          check_containers p pod containers' skip' isNvme'
      end
  end.

(** [s[:14]] and [s[14:]] *)
Definition split_serial (s : string) : outcome (string * string) :=
  if decide (String.length s < 14)%nat then Panic "slice bounds out of range"
  else Ok (String.substring 0 14 s, String.substring 14 (String.length s - 14) s).

Definition grep_pattern (vol : Volume) (pvName : string) (isNvme : bool) : outcome string :=
  if decide (PxVolume.Labels vol !! PureDAVolumeLabel = Some PureDAVolumeLabelValueFA) then
    let serial := ToLower (default "" (PxVolume.Labels vol !! FADAVolumeSerialLabel)) in
    if (isNvme : bool) then '(a, b) ← split_serial serial; Ok (a +:+ " | grep " +:+ b) else Ok serial
  else Ok pvName.

Definition mounts_command (pattern : string) : string :=
  "cat /proc/mounts | grep -E '(pxd|pxfs|pxns|pxd-enc|loop|px_|/dev/mapper)' | grep " +:+ pattern.

Fixpoint validate_mounts (vol : Volume) (pvName : string) (nodes : gmap string Node) (pods : list Pod) (isNvme : bool)
    : M W (list string) :=
  match pods with
  | [] => mret []
  | p :: pods' =>
      r ← ready_pod p;
      match r with
      | None => validate_mounts vol pvName nodes pods' isNvme
      | Some pod =>
          '(checked, isNvme') ← check_containers p pod (range_paths (GetContainerPVCMountMap pod)) false isNvme;
          here ← (match checked with
            | None => mret []
            | Some true => mret [pod_Name pod]
            | Some false =>
                currentNode ← node_of_pod nodes p (pod_tag p);
                pattern ← lift (grep_pattern vol pvName isNvme');
                volMount ← run_ignoring currentNode (mounts_command pattern);
                if decide (volMount = "")
                then throw (Errorf ("volume [" +:+ Volume_Name vol +:+ "] not mounted on node [" +:+ Name currentNode +:+ "]"))
                else mret [pod_Name pod]
            end);
          rest ← validate_mounts vol pvName nodes pods' isNvme';
          mret (here ++ rest)
      end
  end.

Definition validateMountsInPods (vol : Volume) (pvName : string) (pods : list Pod) : M W (list string) :=
  nodes ← nodes_by_name;
  validate_mounts vol pvName nodes pods false.

(** The replicas of the owners of the first pod; the last owner counts *)
Fixpoint owner_replicas (ns : string) (owners : list (string * string)) (expected : Z) : M W (Z + error) :=
  match owners with
  | [] => mret (inl expected)
  | (kind, name) :: owners' =>
      if decide (kind = "ReplicaSet") then
        attempt (GetReplicaSet name ns) (λ r,
          match r with
          | inr err => mret (inr err)
          | inl replicas => n ← lift (deref replicas); owner_replicas ns owners' n
          end)
      else if decide (kind = "StatefulSet") then
        attempt (get_object KStatefulSet name ns) (λ r,
          match r with
          | inr err => mret (inr err)
          | inl st => n ← lift (deref (Replicas st)); owner_replicas ns owners' n
          end)
      else owner_replicas ns owners' expected
  end.

(** How many pods are expected to have the volume *)
Definition expected_pods (vol : Volume) (pods : list Pod) : M W (Z + error) :=
  match pods with
  | [] => mret (inl 0)
  | p :: _ =>
      r ← owner_replicas (pod_Namespace p) (pod_owners p) (Z.of_nat (length pods));
      mret (match r with
            | inl n => inl (if Shared vol then n else 1)
            | inr e => inr e
            end)
  end.

(** [GetVolumeName] of a volume that is not nil *)
Definition GetVolumeName (vol : Volume) : string := ID vol.

Definition volume_setup_task (vol : Volume) (pvName : string) : M W (task_result unit) :=
  attempt (GetPodsUsingPV pvName) (λ r,
    match r with
    | inr err => mret (Retry err)
    | inl pods =>
        attempt (if Raw vol then validateDevicesInPods vol pvName pods else validateMountsInPods vol pvName pods) (λ r',
          match r' with
          | inr err => mret (Retry (Errorf ((if Raw vol then "failed to validate devices in pod. Err: "
                                             else "failed to validate mount in pod. Err: ") +:+ Error err)))
          | inl resp =>
              expected ← expected_pods vol pods;
              match expected with
              | inr err => mret (Retry err)
              | inl n =>
                  if decide (Z.of_nat (length resp) = n) then mret (Done tt)
                  else mret (Retry (Errorf ("pods pending validation current: " +:+ Itoa (Z.of_nat (length resp)) +:+
                         ". Expected: " +:+ Itoa n)))
              end
          end)
    end).

Definition ValidateVolumeSetup (vol : Volume) (shown : string) : M W unit :=
  let pvName := GetVolumeName vol in
  if decide (pvName = "") then throw (Errorf ("failed to get PV name for volume [" +:+ shown +:+ "]"))
  else DoRetryWithTimeout (volume_setup_task vol pvName) (30 * Minute) defaultRetryInterval.

(** ** Snapshots *)

Definition no_pvc_label : error := Errorf "Parent volume does not have a PVC label".

Definition validateVolumeClone (parent : ApiVolume) (parentAnnotation : string) : M W unit :=
  match VolumeLabels parent !! pvcLabel with
  | None => throw no_pvc_label
  | Some parentPVCName =>
      if decide (parentPVCName = parentAnnotation) then mret tt
      else throw (Errorf ("Parent name [" +:+ parentPVCName +:+ "] does not match the source PVC annotation [" +:+
             parentAnnotation +:+ "] on the clone/snapshot"))
  end.

Definition validateStorkClone (parent : ApiVolume) (snapshotName : string) (show_labels : gmap string string → string) : M W unit :=
  if decide (VolumeLabels parent !! storkSnapshotNameKey = Some snapshotName ∨ Locator_Name parent = snapshotName) then mret tt
  else throw (Errorf ("snapshot annotation: " +:+ snapshotName +:+ " on the clone PVC matches neither parent volume name: " +:+
         Locator_Name parent +:+ " nor parent volume labels: " +:+ show_labels (VolumeLabels parent))).

Definition validateStorkSnapshot (parent : ApiVolume) (params : gmap string string) : M W unit :=
  match VolumeLabels parent !! pvcLabel with
  | None => throw no_pvc_label
  | Some parentName =>
      let source := default "" (params !! SnapshotParent) in
      if decide (parentName = source) then mret tt
      else throw (Errorf ("Parent PVC name [" +:+ parentName +:+ "] does not match the snapshot's source PVC [" +:+ source +:+ "]"))
  end.

(** The parent is a pointer: without one its labels cannot be read. *)
Definition ValidateSnapshot (show_labels : gmap string string → string) (params : gmap string string) (parent : option ApiVolume)
    : M W unit :=
  p ← lift (deref parent);
  match params !! snapshotAnnotation, params !! storkSnapshotAnnotation with
  | Some parentPVCAnnotation, _ => validateVolumeClone p parentPVCAnnotation
  | None, Some snapshotName => validateStorkClone p snapshotName show_labels
  | None, None => validateStorkSnapshot p params
  end.

(** ** Volume directories of pods that are gone *)

Definition conn_cleanup : ConnectionOpts := conn_opts (1 * Minute) (10 * Second).

Definition listVolOpts : FindOpts :=
  {| find_Conn := conn_cleanup; find_Name := "*portworx-volume"; find_MinDepth := 0; find_MaxDepth := 0;
     find_Type := ""; find_Empty := false |}.
Definition dirFindOpts : FindOpts :=
  {| find_Conn := conn_cleanup; find_Name := ""; find_MinDepth := 1; find_MaxDepth := 1; find_Type := Directory;
     find_Empty := false |}.
Definition emptyDirsFindOpts : FindOpts :=
  {| find_Conn := conn_cleanup; find_Name := ""; find_MinDepth := 0; find_MaxDepth := 0; find_Type := Directory;
     find_Empty := true |}.

Definition find_dirs (path : string) (n : Node) (opts : FindOpts) : M W string :=
  '(out, _) ← driver_FindFiles path n opts; mret out.

Definition isDirEmpty (path : string) (n : Node) : M W bool :=
  emptyDir ← find_dirs path n emptyDirsFindOpts;
  mret (negb (bool_decide (emptyDir = ""))).

(** The first loop: the volume directories of each node, and the node itself *)
Fixpoint list_volume_dirs (nodes : list Node) (dirs : gmap string (list string)) (nodeMap : gmap string Node)
    : M W (gmap string (list string) * gmap string Node) :=
  match nodes with
  | [] => mret (dirs, nodeMap)
  | n :: nodes' =>
      volDirList ← find_dirs k8sPodsRootDir n listVolOpts;
      list_volume_dirs nodes' (<[Name n := separateFilePaths volDirList]> dirs) (<[Name n := n]> nodeMap)
  end.

(** The directories of claims below a volume directory *)
Fixpoint sort_claims (podUID : string) (n : Node) (pvcDirs : list string) (orphan dirty : list string)
    : M W (list string * list string) :=
  match pvcDirs with
  | [] => mret (orphan, dirty)
  | pvcDir :: pvcDirs' =>
      empty ← isDirEmpty pvcDir n;
      if (empty : bool) then sort_claims podUID n pvcDirs' (orphan ++ [podUID]) dirty
      else sort_claims podUID n pvcDirs' orphan (dirty ++ [podUID])
  end.

(** [existingPods] is nil when the pods could not be listed. *)
Fixpoint sort_dirs (existingPods : option (list Pod)) (n : Node) (volDirPaths : list string) (orphan dirty : list string)
    : M W (list string * list string) :=
  match volDirPaths with
  | [] => mret (orphan, dirty)
  | path :: volDirPaths' =>
      podUID ← lift (extractPodUID path);
      pods ← lift (deref existingPods);
      if existsb (λ p, bool_decide (podUID = pod_UID p)) pods then sort_dirs existingPods n volDirPaths' orphan dirty
      else
        empty ← isDirEmpty path n;
        '(orphan', dirty') ←
          (if (empty : bool) then mret (orphan, dirty)
           else pvcDirsFind ← find_dirs path n dirFindOpts;
                sort_claims podUID n (separateFilePaths pvcDirsFind) orphan dirty);
        sort_dirs existingPods n volDirPaths' orphan' dirty'
  end.

Fixpoint sort_nodes (existingPods : option (list Pod)) (nodeMap : gmap string Node) (dirs : list (string * list string))
    : M W (list (string * list string) * list (string * list string)) :=
  match dirs with
  | [] => mret ([], [])
  | (nodeName, volDirPaths) :: dirs' =>
      n ← lift (deref (nodeMap !! nodeName));
      '(orphan, dirty) ← sort_dirs existingPods n volDirPaths [] [];
      '(orphans, dirties) ← sort_nodes existingPods nodeMap dirs';
      mret (if decide (orphan = []) then orphans else (nodeName, orphan) :: orphans,
            if decide (dirty = []) then dirties else (nodeName, dirty) :: dirties)
  end.

Definition ValidateVolumeCleanup : M W unit :=
  nodes ← registry_GetStorageDriverNodes;
  '(nodeToPodsMap, nodeMap) ← list_volume_dirs nodes ∅ ∅;
  existingPods ← attempt (core_GetPods "" ∅) (λ r, match r with inl l => mret (Some l) | inr _ => mret None end);
  '(orphanPodsMap, dirtyVolPodsMap) ← sort_nodes existingPods nodeMap (range_paths nodeToPodsMap);
  if decide (dirtyVolPodsMap = []) then mret tt
  else throw (SchedOpsErr (ErrFailedToCleanupVolume orphanPodsMap dirtyVolPodsMap)).

(** ** Upgrading *)

Definition talisman_args (ociImage ociTag pxImage pxTag : string) : list string :=
  ["-operation"; "upgrade"; "-ocimonimage"; ociImage; "-ocimontag"; ociTag] ++
  (if decide (pxImage ≠ "" ∧ pxTag ≠ "") then ["-pximage"; pxImage; "-pxtag"; pxTag] else []).

Definition UpgradePortworx (ociImage ociTag pxImage pxTag : string) : M W unit :=
  namespace ← GetPortworxNamespace;
  binding ← create_object (set_Subjects [("ServiceAccount", namespace)] (new_object KClusterRoleBinding "talisman" "" None));
  account ← create_object (new_object KServiceAccount talismanServiceAccount namespace None);
  '(job_Name, jobNamespace) ← CreateJob {| job_Namespace := namespace; job_Account := talismanServiceAccount;
     job_Image := talismanImage; job_Args := talisman_args ociImage ociTag pxImage pxTag |};
  numNodes ← core_GetNodes;
  _ ← ValidateJob job_Name jobNamespace (i64 (Z.of_nat (length numNodes) * 10 * Minute));
  _ ← client_Delete KJob job_Name jobNamespace;
  _ ← client_Delete KClusterRoleBinding (obj_Name binding) "";
  client_Delete KServiceAccount (obj_Name account) (obj_Namespace account).

(** ** Nodes of another cluster *)

Definition px_disabled (n : KubeNode) : bool :=
  existsb (λ kv, bool_decide (label n kv.1 = kv.2)) pxDisabledConditions.

Definition getPXNodes (destKubeConfig : string) : M W (list KubeNode) :=
  _ ← dest_Instance destKubeConfig;
  nodes ← dest_GetNodes destKubeConfig;
  mret (keep (λ n, negb (dest_IsNodeMaster n) && negb (px_disabled n)) nodes).

Definition ip_addresses (n : KubeNode) : list string :=
  (keep (λ a : string * string, bool_decide (a.1 = "ExternalIP") || bool_decide (a.1 = "InternalIP")) (kn_Addresses n)).*2.

(** [addrs] is declared outside of the loop and keeps growing. *)
Fixpoint remote_nodes (addrs : list string) (pxNodes : list KubeNode) : list Node :=
  match pxNodes with
  | [] => []
  | pxNode :: pxNodes' =>
      let addrs' := addrs ++ ip_addresses pxNode in
      {| storageNode := None; uuid := ""; VolDriverNodeID := ""; Name := kn_Name pxNode; Addresses := addrs';
         UsableAddr := ""; Type_ := TypeWorker; Zone := ""; Region := ""; TopologyZone := ""; TopologyRegion := "";
         IsStorageDriverInstalled := false; IsMetadataNode := false; StoragePools := []; PxPodRestartCount := 0 |}
      :: remote_nodes addrs' pxNodes'
  end.

Definition GetRemotePXNodes (destKubeConfig : string) : M W (list Node) :=
  pxNodes ← getPXNodes destKubeConfig;
  mret (remote_nodes [] pxNodes).

(** ** Autopilot rules *)

Definition CreateAutopilotRule (apRule : RuleObject) : M W RuleObject :=
  let r := {| rule := rule apRule; rule_Labels := {["creator" := "torpedo"]};
              rule_NamespaceSelector := rule_NamespaceSelector apRule |} in
  let failed (err : error) : error :=
    Errorf ("Failed to create autopilot rule: " +:+ Rule_Name (rule apRule) +:+ ". Err: " +:+ Error err) in
  '(autopilotRule, err) ← api_CreateAutopilotRule r;
  match err with
  | None => lift (deref autopilotRule)
  | Some e =>
      if IsAlreadyExists e then
        attempt (api_GetAutopilotRule (Rule_Name (rule apRule))) (λ g,
          match g with inl existing => mret existing | inr _ => throw (failed e) end)
      else throw (failed e)
  end.

Definition ListAutopilotRules : M W (list RuleObject) :=
  wrap_err (λ err, Errorf ("Failed to get list of autopilotrules. Err: " +:+ Error err)) list_AutopilotRules.
End k8s_ops.
End K8sOps.
