(* ===== verification/SchedOpsProps.v ===== *)
(** Properties of the scheduler operations of the Portworx driver (SchedOpsK8s): they
    implement the interface of the driver, and what their validations establish. *)

From Stdlib Require Import Ascii.
From S2P Require Import Prelude GoStrings Errors Effects Regexp Strconv Task OpenStorageApi NodeRegistry AutopilotRules SpecFactory PxDriver K8sObjects VolumeDrivers K8sSpecs K8sNodes K8sHelm K8sCreate K8sApps PxExpansion K8sAutopilot K8sDestroy PxVolume PxCluster K8sVolumes K8sCsi K8sDescribe SchedOpsK8s.

(** ** The interface of the driver *)

(** The calls behind the operations of the interface do not write the driver's memory. *)
Class K8sOpsFrame (W : Type) `{PxWorld W} `{K8sClient W} `{K8sAutopilotApi W} `{K8sNodeApi W} `{K8sCore W}
    `{K8sOpsApi W} : Prop := {
  ops_Get :: ∀ k n ns, External (client_Get k n ns);
  ops_ListPods :: ∀ k v, External (ListPods k v);
  ops_GetPodsByNode :: ∀ n ns, External (GetPodsByNode n ns);
  ops_AddLabelOnNode :: ∀ n k v, External (AddLabelOnNode n k v);
  ops_GetNodeByName :: ∀ n, External (core_GetNodeByName n);
  ops_ServiceEndpoint :: ∀ s ns, External (core_GetServiceEndpoint s ns);
  ops_ListStorageClusters :: ∀ ns, External (ListStorageClusters ns);
  ops_GetStorageCluster :: ∀ n ns, External (GetStorageCluster n ns);
}.

#[export] Instance DoRetry_external {W} `{PxWorldLaws W} {A} (t : M W (task_result A)) timeout i :
  External t → External (DoRetryWithTimeout t timeout i).
Proof.
  intros Ht w. split.
  - apply (preserves_DoRetry (λ w', px w' = px w) t timeout i); [| |done].
    + intros w1 Hw1. by rewrite (proj1 (external (m := t) w1)).
    + intros d w1 Hw1. by rewrite px_sleep.
  - apply monotone_DoRetry. intros w1. apply (external (m := t) w1).
Qed.

Section interface.
Context {W : Type} `{SchedWorld W} `{!PxWorldLaws W} `{K8sClient W} `{SpecFiles} `{HelmLib W} `{K8sCreateApi W}.
Context `{K8sAppsApi W} `{K8sAutopilotApi W} `{K8sDelete W} `{K8sVolumeApi W} `{K8sCsiApi W} `{K8sDescribeApi W}.
Context `{K8sNodeApi W} `{NodeDriver W} `{K8sCore W} `{K8sOpsApi W} `{!K8sOpsFrame W}.

Definition k8s_schedops : SchedOps W := {|
  IsPXEnabled := K8sOps.IsPXEnabled;
  IsPXReadyOnNode := K8sOps.IsPXReadyOnNode;
  GetServiceEndpoint := K8sOps.GetServiceEndpoint;
  PxDriver.GetTokenFromConfigMap := K8sOps.GetTokenFromConfigMap;
  PxDriver.GetPortworxNamespace := K8sOps.GetPortworxNamespace;
  StartPxOnNode := K8sOps.StartPxOnNode;
  StopPxOnNode := K8sOps.StopPxOnNode;
  RestartPxOnNode := K8sOps.RestartPxOnNode;
|}.

Instance namespace_external : External (K8sOps.GetPortworxNamespace (W := W)).
Proof. unfold K8sOps.GetPortworxNamespace. external_calls. Qed.

Instance get_object_external k n ns : External (get_object k n ns : M W Object).
Proof. unfold get_object. external_calls. Qed.

Lemma px_pod_ready_recounts n pods : Recounts n (K8sOps.px_pod_ready n pods : M W bool).
Proof.
  induction pods as [|pod pods IH]; intros w; simpl; [split; [lia|by left]|].
  case_decide; [|apply IH]. destruct (IsPodReady pod); [|split; [simpl; lia|by left]].
  unfold attempt, registry_UpdateNode. remember (set_PxPodRestartCount _ n) as n' eqn:En.
  destruct (Registry.UpdateNode n' (nodeRegistry (px w))) as [o reg] eqn:Eu.
  assert (∀ x : PxState, now (set_px x w) = now w) as Hnow by (intros; apply now_set_px).
  destruct o; simpl; (split; [rewrite Hnow; lia|]); right; eexists; rewrite px_set_px; unfold with_registry;
    subst n'; by rewrite Eu.
Qed.

(** A call that leaves the memory alone, and one that may store restarts after it *)
Lemma Recounts_attempt {A B} n (m : M W A) (k : A + error → M W B) :
  External m → (∀ r, Recounts n (k r)) → Recounts n (attempt m k).
Proof.
  intros Hm Hk w. unfold attempt. destruct (Hm w) as [Hpx Hnow].
  destruct (m w) as [[a|e|s|] w1]; simpl in *; try (split; [lia|by left]).
  - destruct (Hk (inl a) w1) as [Hn Hr]. rewrite <- Hpx. split; [lia|done].
  - destruct (Hk (inr e) w1) as [Hn Hr]. rewrite <- Hpx. split; [lia|done].
Qed.

(** The operations of Kubernetes are the scheduler operations the driver counts on: they
    do not write its memory, but for [IsPXReadyOnNode], which stores the caller's copy of
    the node, with the restarts of the Portworx pod, under its uuid in the registry. *)
Theorem k8s_schedops_laws : SchedOpsFrame W (H0 := k8s_schedops).
Proof.
  constructor; simpl.
  - intros n. unfold K8sOps.IsPXEnabled, K8sOps.runs_on_master.
    apply bind_external; [apply DoRetry_external; unfold K8sOps.get_node_task; external_calls|].
    external_calls.
  - intros n. unfold K8sOps.IsPXReadyOnNode. apply Recounts_attempt; [apply _|].
    intros [ns|e]; [|intros w; split; [simpl; lia|by left]].
    apply Recounts_attempt; [apply _|]. intros [pods|e]; [apply px_pod_ready_recounts|].
    intros w; split; [simpl; lia|by left].
  - unfold K8sOps.GetServiceEndpoint. external_calls.
  - intros c. unfold K8sOps.GetTokenFromConfigMap, K8sDescribe.GetTokenFromConfigMap. external_calls.
  - apply _.
  - intros n. unfold K8sOps.StartPxOnNode. apply _.
  - intros n. unfold K8sOps.StopPxOnNode. apply _.
  - intros n. unfold K8sOps.RestartPxOnNode. apply _.
Qed.
End interface.

(** ** The paths of the claims of a pod *)

Section mount_map.
Context {W : Type} `{K8sOpsApi W}.

Lemma pvcNamesInSpec_spec (pod : Pod) v :
  is_Some (K8sOps.pvcNamesInSpec pod !! v) ↔ ∃ claim, (v, Some claim) ∈ pod_claims pod.
Proof.
  unfold K8sOps.pvcNamesInSpec.
  assert (∀ l (m : gmap string string),
    is_Some (foldl (λ m v, match v.2 with Some claim => <[v.1 := claim]> m | None => m end) m l !! v) ↔
    is_Some (m !! v) ∨ ∃ claim, (v, Some claim) ∈ l) as Hl.
  { induction l as [|[x [c|]] l IH]; intros m; simpl.
    - split; [by left|]. by intros [?|[? ?%elem_of_nil]].
    - rewrite IH. setoid_rewrite elem_of_cons. destruct (decide (x = v)) as [->|Hne].
      + rewrite lookup_insert_eq. split; [right; exists c; by left|by left].
      + rewrite lookup_insert_ne by done. split; [naive_solver|]. intros [?|[y [Hy|?]]]; [by left|by simplify_eq|naive_solver].
    - rewrite IH. setoid_rewrite elem_of_cons. split; [naive_solver|].
      intros [?|[y [Hy|?]]]; [by left|by simplify_eq|naive_solver]. }
  rewrite Hl, lookup_empty. split; [|by right]. by intros [[? ?]|?].
Qed.

(** The reference: the claimed paths of the containers of a name, in order *)
Definition claimed_paths (pod : Pod) (c : PodContainer) : list string :=
  (keep (λ np : string * string, bool_decide (is_Some (K8sOps.pvcNamesInSpec pod !! np.1))) (ctr_Mounts c ++ ctr_Devices c)).*2.

Definition paths_of (pod : Pod) (name : string) : list string :=
  concat (claimed_paths pod <$> keep (λ c, bool_decide (ctr_Name c = name)) (pod_Containers pod)).

Lemma add_paths_lookup claims c name l m :
  foldl (K8sOps.add_path claims c) m l !! name =
  let ps := (keep (λ np : string * string, bool_decide (is_Some (claims !! np.1))) l).*2 in
  if decide (c = name) then (if decide (ps = []) then m !! name else Some (default [] (m !! name) ++ ps)) else m !! name.
Proof.
  revert m. induction l as [|[v p] l IH]; intros m; cbv zeta; simpl; [by case_decide|].
  rewrite IH. cbv zeta. unfold K8sOps.add_path. simpl. destruct (claims !! v) as [x|] eqn:E.
  - rewrite bool_decide_eq_true_2 by (by eexists). simpl. destruct (decide (c = name)) as [->|Hne].
    + rewrite lookup_insert_eq. simpl. change (list_fmap _ _ snd ?x) with (x.*2). generalize ((keep (λ np : string * string, bool_decide (is_Some (claims !! np.1))) l).*2).
      intros ps. by destruct ps; simpl; rewrite <- ?app_assoc.
    + by rewrite lookup_insert_ne.
  - rewrite bool_decide_eq_false_2; [done|]. by intros [? ?].
Qed.

(** C38. [GetContainerPVCMountMap] maps the name of a container to the paths of its mounts and
    devices that are claims, in order, and has no entry for a container without any. *)
Theorem GetContainerPVCMountMap_spec (pod : Pod) name :
  K8sOps.GetContainerPVCMountMap pod !! name =
    (if decide (paths_of pod name = []) then None else Some (paths_of pod name)) ∧
  ∀ path, path ∈ paths_of pod name ↔
    ∃ c v claim, c ∈ pod_Containers pod ∧ ctr_Name c = name ∧ (v, path) ∈ ctr_Mounts c ++ ctr_Devices c ∧
      (v, Some claim) ∈ pod_claims pod.
Proof.
  split.
  - unfold K8sOps.GetContainerPVCMountMap, paths_of, claimed_paths. cbv zeta.
    assert (∀ cs (m : gmap string (list string)),
      foldl (λ m c, foldl (K8sOps.add_path (K8sOps.pvcNamesInSpec pod) (ctr_Name c)) m (ctr_Mounts c ++ ctr_Devices c)) m cs !! name =
      let ps := concat (claimed_paths pod <$> keep (λ c, bool_decide (ctr_Name c = name)) cs) in
      if decide (ps = []) then m !! name else Some (default [] (m !! name) ++ ps)) as Hg.
    { induction cs as [|c cs IH]; intros m; cbv zeta; simpl; [done|]. rewrite IH. cbv zeta.
      rewrite add_paths_lookup. cbv zeta. fold (claimed_paths pod c).
      destruct (decide (ctr_Name c = name)) as [Hc|Hc];
        [rewrite bool_decide_eq_true_2 by done|by rewrite bool_decide_eq_false_2].
      simpl. destruct (decide (claimed_paths pod c = [])) as [E|E]; [by rewrite E|].
      rewrite (decide_False (P := _ ++ _ = [])) by (by destruct (claimed_paths pod c)).
      destruct (concat _); simpl; [by rewrite app_nil_r|by rewrite <- app_assoc]. }
    rewrite Hg. cbv zeta. by rewrite lookup_empty.
  - intros path. unfold paths_of, claimed_paths. rewrite <- flat_map_concat_map, list_elem_of_In, in_flat_map.
    setoid_rewrite <- list_elem_of_In. setoid_rewrite elem_of_keep. setoid_rewrite list_elem_of_fmap.
    setoid_rewrite elem_of_keep. setoid_rewrite bool_decide_eq_true. setoid_rewrite pvcNamesInSpec_spec. split.
    + intros (c & [Hc Hn] & [v p] & -> & Hvp & claim & Hcl). by exists c, v, claim.
    + intros (c & v & claim & Hc & Hn & Hvp & Hcl). exists c. split; [done|]. exists (v, path). naive_solver.
Qed.
End mount_map.

(** ** What the validations establish *)

Section validations.
Context {W : Type} `{SchedWorld W} `{K8sClient W} `{SpecFiles} `{HelmLib W} `{K8sCreateApi W} `{K8sAppsApi W}.
Context `{K8sAutopilotApi W} `{K8sDelete W} `{K8sVolumeApi W} `{K8sCsiApi W} `{K8sDescribeApi W}.
Context `{K8sNodeApi W} `{NodeDriver W} `{K8sCore W} `{K8sOpsApi W}.

(** *** Labels *)

(** A lookup of a node answers with a pointer and an error, and has no other error. *)
Definition lookups_answer : Prop :=
  ∀ (w : W) e, (∀ n, (core_GetNodeByName n w).1 ≠ Err e) ∧ (∀ l, (SearchNodeByAddresses l w).1 ≠ Err e).

Lemma add_label_task_no_error pvc rs (w : W) e w' :
  lookups_answer → K8sOps.add_label_task pvc rs w ≠ (Err e, w') ∧ K8sOps.add_label_task pvc rs w ≠ (Ok (Stop e), w').
Proof.
  intros Hl. unfold K8sOps.add_label_task, mbind, M_bind. cbv zeta.
  destruct (core_GetNodeByName (Id rs) w) as [[r|e1|s|] w1] eqn:E1; try done.
  - destruct (K8sOps.found_node r) as [n|].
    + unfold mret, M_ret. by destruct (kn_Labels n !! pvc).
    + destruct (SearchNodeByAddresses _ w1) as [[r'|e2|s|] w2] eqn:E2; try done.
      * unfold mret, M_ret. destruct (K8sOps.found_node r') as [n|]; [by destruct (kn_Labels n !! pvc)|done].
      * destruct (Hl w1 e2) as [_ Hs]. specialize (Hs [DataIp rs; MgmtIp rs]). by rewrite E2 in Hs.
  - destruct (Hl w e1) as [Hn _]. specialize (Hn (Id rs)). by rewrite E1 in Hn.
Qed.

(** When the labels of a volume are accepted, every replica node was seen with the label
    of the claim; when they are not, the error is a time-out: the list of the nodes
    without the label, which [ErrLabelMissingOnNode] is for, is never reported, since
    the retries end with an error of their own. *)
Theorem ValidateAddLabels_result replicaNodes vol pvc (w w' : W) r :
  lookups_answer → VolumeLabels vol !! pvcLabel = Some pvc →
  K8sOps.ValidateAddLabels replicaNodes vol w = (r, w') →
  match r with
  | Ok _ => ∀ rs, rs ∈ replicaNodes → ∃ w1 w2 : W, K8sOps.add_label_task pvc rs w1 = (Ok (Done tt), w2)
  | Err e => ∃ reason, e = ErrTimedOut reason
  | _ => True
  end.
Proof.
  intros Hl Hpvc. unfold K8sOps.ValidateAddLabels. rewrite Hpvc.
  assert (∀ l (w : W), match K8sOps.missing_labels pvc l [] w with
    | (Ok missing, _) => missing = [] ∧
        ∀ rs, rs ∈ l → ∃ w1 w2 : W, K8sOps.add_label_task pvc rs w1 = (Ok (Done tt), w2)
    | (Err e, _) => ∃ reason, e = ErrTimedOut reason
    | _ => True
    end) as Hm.
  { induction l as [|rs l IH]; intros w0; simpl; [by split; [|intros ? ?%elem_of_nil]|].
    unfold mbind, M_bind, attempt.
    destruct (DoRetryWithTimeout _ _ _ w0) as [[[]|e|s|] w1] eqn:E; try done; simpl.
    - specialize (IH w1). destruct (K8sOps.missing_labels pvc l [] w1) as [[missing|e|s|] w2]; try done.
      destruct IH as [-> Hall]. split; [done|]. intros x [->|Hx]%elem_of_cons; [|by apply Hall].
      apply DoRetryWithTimeout_Ok_inv in E as [w3 Hd]. by exists w3, w1.
    - apply DoRetryWithTimeout_Err_inv in E as [[reason ->]|[w2 [Hs|Hs]]]; [by exists reason| |];
        destruct (add_label_task_no_error pvc rs w2 e w1 Hl) as [? ?]; done. }
  intros Hv. specialize (Hm replicaNodes w). unfold mbind, M_bind in Hv.
  destruct (K8sOps.missing_labels pvc replicaNodes [] w) as [[missing|e|s|] w1]; try (by injection Hv as <- <-).
  destruct Hm as [-> Hall]. rewrite decide_True in Hv by done. unfold mret, M_ret in Hv. by injection Hv as <- <-.
Qed.

(** *** Whether Portworx is enabled *)

(** [IsPXEnabled] answers yes only for a node that is neither disabled by its label nor
    public, that has no taints unless Portworx runs on masters, and that is not an
    infrastructure node without the compute role. *)
Theorem IsPXEnabled_true n (w w' : W) :
  K8sOps.IsPXEnabled n w = (Ok true, w') →
  ∃ kubeNode w1 w2 (w3 : W) ns onMaster,
    core_GetNodeByName (Name n) w1 = (Ok (Some kubeNode, None), w2) ∧
    K8sOps.label kubeNode PXEnabledLabelKey ≠ "false" ∧ K8sOps.label kubeNode dcosNodeType ≠ "public" ∧
    K8sOps.runs_on_master ns w3 = (Ok onMaster, w') ∧ (onMaster = true ∨ kn_Taints kubeNode = []) ∧
    (K8sOps.label kubeNode k8sRoleNodeInfraLabelKey = "true" → is_Some (kn_Labels kubeNode !! k8sRoleNodeComputeLabelKey)).
Proof.
  unfold K8sOps.IsPXEnabled. intros (kn & w1 & Hd & Hs)%bind_Ok_inv.
  apply DoRetryWithTimeout_Ok_inv in Hd as [w0 Hg].
  apply bind_Ok_inv in Hg as ([node err] & w2 & Hn & Hk). destruct err as [e|]; [done|].
  apply bind_Ok_inv in Hk as (kn' & w3 & Hd & Hm). unfold lift, deref in Hd. destruct node as [node|]; [|done].
  injection Hd as -> <-. unfold mret, M_ret in Hm. injection Hm as -> ->.
  case_decide as Hl; [done|]. unfold attempt in Hs.
  destruct (K8sOps.GetPortworxNamespace w1) as [[ns|e|s|] w4]; try done.
  apply bind_Ok_inv in Hs as (onMaster & w5 & Hr & Hs).
  destruct (negb onMaster && negb (bool_decide (kn_Taints kn = []))) eqn:Et; [done|].
  case_decide as Hi; [done|]. unfold mret, M_ret in Hs. injection Hs as <-.
  exists kn, w0, w1, w4, ns, onMaster. split_and!; try done; [tauto|tauto| |].
  - destruct onMaster; [by left|right]. simpl in Et. apply negb_false_iff, bool_decide_eq_true in Et. done.
  - intros Htrue. destruct (kn_Labels kn !! k8sRoleNodeComputeLabelKey) eqn:E; [done|tauto].
Qed.

(** *** Nodes of another cluster *)

(** The addresses of a remote node include those of all nodes before it. *)
Theorem remote_nodes_addresses pxNodes i n :
  K8sOps.remote_nodes [] pxNodes !! i = Some n →
  ∃ pxNode, pxNodes !! i = Some pxNode ∧ Name n = kn_Name pxNode ∧
    Addresses n = concat (K8sOps.ip_addresses <$> take (S i) pxNodes).
Proof.
  enough (∀ addrs, K8sOps.remote_nodes addrs pxNodes !! i = Some n →
    ∃ pxNode, pxNodes !! i = Some pxNode ∧ Name n = kn_Name pxNode ∧
      Addresses n = addrs ++ concat (K8sOps.ip_addresses <$> take (S i) pxNodes)) as Hg by apply Hg.
  revert i. induction pxNodes as [|p l IH]; intros i addrs; [done|]. destruct i as [|i]; simpl.
  - intros [= <-]. exists p. simpl. by rewrite app_nil_r.
  - intros (q & Hq & Hn & Ha)%IH. exists q. split_and!; [done..|]. rewrite Ha, <- app_assoc. done.
Qed.

(** *** Mounts *)

(** The line shows a mount of Portworx at the path. *)
Definition mount_line (path line : string) : Prop :=
  ∃ re, Regexp.MustCompile (K8sOps.pxMountCheckRegex path) = Ok re ∧ Regexp.MatchString re line = true.

Lemma scan_mounts_found re nvme lines isNvme ro isNvme' :
  K8sOps.scan_mounts re nvme lines isNvme = Ok (Some ro, isNvme') →
  ∃ line, line ∈ lines ∧ Regexp.MatchString re line = true ∧ K8sOps.isMountReadOnly line = Ok ro.
Proof.
  revert isNvme. induction lines as [|line lines IH]; intros isNvme; simpl; [done|].
  destruct (Regexp.MatchString re line) eqn:E.
  - intros Hs. exists line. split_and!; [by left|done|]. by simplify_eq/=.
  - intros (l & Hl & Hm & Hr)%IH. exists l. split_and!; [by right|done..].
Qed.

(** One of the lines is a mount of Portworx that cannot be written. *)
Definition shows_read_only (lines : list string) : Prop :=
  ∃ path line, line ∈ lines ∧ mount_line path line ∧ K8sOps.isMountReadOnly line = Ok true.

Lemma check_paths_Ok pod c mounts paths skip isNvme (w : W) b isNvme' w' :
  K8sOps.check_paths pod c mounts paths skip isNvme w = (Ok (b, isNvme'), w') →
  w' = w ∧ (∀ path, path ∈ paths → ∃ line, line ∈ mounts ∧ mount_line path line) ∧
  (b = true → skip = true ∨ shows_read_only mounts).
Proof.
  revert skip isNvme w. induction paths as [|path paths IH]; intros skip isNvme w; simpl.
  - unfold mret, M_ret. intros [= <- <- <-]. split_and!; [done|by intros ? ?%elem_of_nil|by left].
  - intros (re & w1 & Hre & Hs)%bind_Ok_inv. apply bind_Ok_inv in Hs as (nvme & w2 & Hnv & Hs).
    apply bind_Ok_inv in Hs as ([found isNvme1] & w3 & Hf & Hs). unfold lift in Hre, Hnv, Hf.
    injection Hre as Hre <-. injection Hnv as Hnv <-. injection Hf as Hf <-.
    destruct found as [ro|]; [|done]. apply IH in Hs as (-> & Hall & Hb). split; [done|].
    apply scan_mounts_found in Hf as (line & Hl & Hm & Hro). assert (mount_line path line) as Hline by (by exists re). split.
    + intros x [->|Hx]%elem_of_cons; [|by apply Hall]. by exists line.
    + intros Ht. destruct (Hb Ht) as [Hor|]; [|by right]. apply orb_true_iff in Hor as [-> | ->]; [by left|].
      right. by exists path, line.
Qed.

(** The mounts that a container of the pod showed *)
Definition mounts_shown (pod : Pod) (container : string) (lines : list string) (w w' : W) : Prop :=
  ∃ output, RunCommandInPod ["cat"; "/proc/mounts"] (pod_Name pod) container (pod_Namespace pod) w = (Ok (output, None), w') ∧
    lines = Split output "010".

(** The paths of a container, links followed, were all seen mounted. *)
Definition container_mounted (p pod : Pod) (cp : string * list string) : Prop :=
  ∃ (w1 w2 w3 : W) lines paths, mounts_shown pod cp.1 lines w1 w2 ∧
    K8sOps.resolve_links p pod cp.1 cp.2 w2 = (Ok paths, w3) ∧
    ∀ path, path ∈ paths → ∃ line, line ∈ lines ∧ mount_line path line.

(** Some mount of Portworx in the pod cannot be written. *)
Definition mounted_read_only (pod : Pod) : Prop :=
  ∃ container lines w1 w2, mounts_shown pod container lines w1 w2 ∧ shows_read_only lines.

(** A container could not be asked: the pod or the container was not found. *)
Definition container_missing (pod : Pod) (w' : W) : Prop :=
  ∃ container output e w1,
    RunCommandInPod ["cat"; "/proc/mounts"] (pod_Name pod) container (pod_Namespace pod) w1 = (Ok (output, Some e), w') ∧
    (e = ErrPodsNotFound ∨ Contains (Error e) "container not found" = true).

Lemma check_containers_Ok p pod containers skip isNvme (w : W) r isNvme' w' :
  K8sOps.check_containers p pod containers skip isNvme w = (Ok (r, isNvme'), w') →
  match r with
  | Some b => (∀ cp, cp ∈ containers → container_mounted p pod cp) ∧ (b = true → skip = true ∨ mounted_read_only pod)
  | None => container_missing pod w'
  end.
Proof.
  revert skip isNvme w. induction containers as [|[c paths] l IH]; intros skip isNvme w; simpl.
  - unfold mret, M_ret. intros [= <- <- <-]. split; [by intros ? ?%elem_of_nil|by left].
  - intros ([output err] & w1 & Hr & Hs)%bind_Ok_inv. destruct err as [e|].
    { destruct (bool_decide _ || _) eqn:Eb; [|done]. unfold mret, M_ret in Hs. simplify_eq.
      exists c, output, e, w. split; [done|]. by apply orb_true_iff in Eb as [?%bool_decide_eq_true|]; [left|right]. }
    apply bind_Ok_inv in Hs as (paths' & w2 & Hl & Hs). apply bind_Ok_inv in Hs as ([skip' nv] & w3 & Hc & Hs).
    apply check_paths_Ok in Hc as (-> & Hall & Hro). apply IH in Hs. destruct r as [b|]; [|done].
    assert (mounts_shown pod c (Split output "010") w w1) as Hshown by (by exists output).
    destruct Hs as [Hin Hb]. split.
    + intros cp [->|Hcp]%elem_of_cons; [|by apply Hin]. by exists w, w1, w2, (Split output "010"), paths'.
    + intros Ht. destruct (Hb Ht) as [Hskip|]; [|by right]. destruct (Hro Hskip) as [|Hline]; [by left|right].
      by exists c, (Split output "010"), w, w1.
Qed.

(** The pod was found, is not being terminated and is ready. *)
Definition found_ready (p pod : Pod) (w w' : W) : Prop :=
  GetPodByName (pod_Name p) (pod_Namespace p) w = (Ok pod, w') ∧ pod_Terminating pod = false ∧ IsPodReady pod = true.

(** A pod that was ready when it was looked at, with every claim mounted in its containers;
    unless a mount is read-only, its node showed the volume among its mounts. *)
Definition pod_validated (vol : Volume) (nodes : gmap string Node) (p pod : Pod) (w w' : W) : Prop :=
  (∃ w1, found_ready p pod w w1) ∧
  (∀ cp, cp ∈ range_paths (K8sOps.GetContainerPVCMountMap pod) → container_mounted p pod cp) ∧
  (mounted_read_only pod ∨
   ∃ n isNvme pattern out w1, nodes !! pod_NodeName p = Some n ∧ K8sOps.grep_pattern vol (ID vol) isNvme = Ok pattern ∧
     K8sOps.run_ignoring n (K8sOps.mounts_command pattern) w1 = (Ok out, w') ∧ out ≠ "").

(** A pod that is left for later: it is not found, being terminated or not ready, or one of
    its containers could not be asked. *)
Definition pod_skipped (p : Pod) (w w' : W) : Prop :=
  GetPodByName (pod_Name p) (pod_Namespace p) w = (Err ErrPodsNotFound, w') ∨
  (∃ pod, GetPodByName (pod_Name p) (pod_Namespace p) w = (Ok pod, w') ∧ (pod_Terminating pod = true ∨ IsPodReady pod = false)) ∨
  ∃ pod w1, found_ready p pod w w1 ∧ container_missing pod w'.

(** One pod after the other, with the pods that were validated *)
Inductive surveyed (vol : Volume) (nodes : gmap string Node) : list Pod → list Pod → W → W → Prop :=
  | surveyed_nil w : surveyed vol nodes [] [] w w
  | surveyed_skip p pods valid w w1 w' :
      pod_skipped p w w1 → surveyed vol nodes pods valid w1 w' → surveyed vol nodes (p :: pods) valid w w'
  | surveyed_valid p pod pods valid w w1 w' :
      pod_validated vol nodes p pod w w1 → surveyed vol nodes pods valid w1 w' →
      surveyed vol nodes (p :: pods) (pod :: valid) w w'.

Lemma ready_pod_Ok p (w : W) r w' :
  K8sOps.ready_pod p w = (Ok r, w') →
  match r with Some pod => found_ready p pod w w' | None => pod_skipped p w w' end.
Proof.
  unfold K8sOps.ready_pod, attempt, found_ready, pod_skipped.
  destruct (GetPodByName _ _ w) as [[q|e|s|] w1]; try done.
  - unfold mret, M_ret. intros Hr. destruct (pod_Terminating q) eqn:Et; [|destruct (IsPodReady q) eqn:Er]; simplify_eq; [|done|];
      right; left; exists q; (split; [done|]); auto.
  - case_decide; [|done]. unfold mret, M_ret. intros Hr. simplify_eq. by left.
Qed.

Lemma validate_mounts_Ok vol nodes pods isNvme (w : W) l w' :
  K8sOps.validate_mounts vol (ID vol) nodes pods isNvme w = (Ok l, w') →
  ∃ valid, l = pod_Name <$> valid ∧ surveyed vol nodes pods valid w w'.
Proof.
  revert isNvme w l. induction pods as [|p pods IH]; intros isNvme w l; simpl.
  - unfold mret, M_ret. intros [= <- <-]. exists []. split; [done|constructor].
  - intros (r & w1 & Hr%ready_pod_Ok & Hs)%bind_Ok_inv. destruct r as [pod|].
    2: { destruct (IH _ _ _ Hs) as (valid & -> & Hv). exists valid. split; [done|]. by econstructor. }
    apply bind_Ok_inv in Hs as ([checked nv] & w2 & Hc%check_containers_Ok & Hs).
    apply bind_Ok_inv in Hs as (here & w3 & Hh & Hs).
    apply bind_Ok_inv in Hs as (rest & w4 & Hrest & Hm). unfold mret, M_ret in Hm. injection Hm as <- <-.
    destruct (IH _ _ _ Hrest) as (valid & -> & Hv).
    destruct checked as [b|].
    2: { unfold mret, M_ret in Hh. injection Hh as <- <-. exists valid. split; [done|].
         eapply surveyed_skip; [|done]. right. right. by exists pod, w1. }
    destruct Hc as [Hall Hro]. exists (pod :: valid).
    assert (here = [pod_Name pod] ∧ pod_validated vol nodes p pod w w3) as [-> Hp]; [|split; [done|by econstructor]].
    unfold pod_validated. destruct b.
    + unfold mret, M_ret in Hh. injection Hh as <- <-. split_and!; [done|by exists w1|done|]. left.
      by destruct (Hro eq_refl).
    + apply bind_Ok_inv in Hh as (node & w5 & Hn & Hh). apply bind_Ok_inv in Hh as (pat & w6 & [Hpat ->]%lift_Ok_inv & Hh).
      apply bind_Ok_inv in Hh as (out & w7 & Hout & Hh). case_decide; [done|].
      unfold mret, M_ret in Hh. injection Hh as <- <-. split_and!; [done|by exists w1|done|]. right.
      unfold K8sOps.node_of_pod in Hn. destruct (nodes !! pod_NodeName p) as [n|] eqn:En; [|done].
      unfold mret, M_ret in Hn. simplify_eq. by exists node, nv, pat, out, w5.
Qed.

(** The replicas a replica set or stateful set was read to ask for *)
Definition replicas_of (kind name ns : string) (n : Z) (w w' : W) : Prop :=
  (kind = "ReplicaSet" ∧ GetReplicaSet name ns w = (Ok (Some n), w')) ∨
  (kind = "StatefulSet" ∧ ∃ st, get_object KStatefulSet name ns w = (Ok st, w') ∧ Replicas st = Some n).

(** Reading the owners in order, the last that is such a set counts; [n] is asked for
    without any. *)
Inductive owners_ask (ns : string) : Z → list (string * string) → Z → W → W → Prop :=
  | owners_ask_nil n w : owners_ask ns n [] n w w
  | owners_ask_set n kind name owners k m w w1 w' :
      replicas_of kind name ns k w w1 → owners_ask ns k owners m w1 w' →
      owners_ask ns n ((kind, name) :: owners) m w w'
  | owners_ask_other n kind name owners m w w' :
      kind ≠ "ReplicaSet" → kind ≠ "StatefulSet" → owners_ask ns n owners m w w' →
      owners_ask ns n ((kind, name) :: owners) m w w'.

(** How many pods are to have the volume: of a shared one as many as the owners of the
    first pod ask for, or all that were listed; else one; none without pods *)
Definition asked_for (vol : Volume) (pods : list Pod) (n : Z) (w w' : W) : Prop :=
  match pods with
  | [] => n = 0 ∧ w' = w
  | p :: _ => ∃ k, owners_ask (pod_Namespace p) (Z.of_nat (length pods)) (pod_owners p) k w w' ∧
      n = if Shared vol then k else 1
  end.

Lemma owner_replicas_Ok ns owners n (w : W) m w' :
  K8sOps.owner_replicas ns owners n w = (Ok (inl m), w') → owners_ask ns n owners m w w'.
Proof.
  revert n w. induction owners as [|[kind name] owners IH]; intros n w; simpl.
  - unfold mret, M_ret. intros [= <- <-]. constructor.
  - case_decide as Hr; [|case_decide as Hs; [|intros Ho; apply owners_ask_other; auto]]; unfold attempt.
    + destruct (GetReplicaSet name ns w) as [[r|e|s|] w1] eqn:E; try done.
      intros (k & w2 & [-> ->]%deref_Ok_inv & Ho)%bind_Ok_inv.
      eapply owners_ask_set; [|by apply IH]. by left.
    + destruct (get_object KStatefulSet name ns w) as [[r|e|s|] w1] eqn:E; try done.
      intros (k & w2 & [Hk ->]%deref_Ok_inv & Ho)%bind_Ok_inv.
      eapply owners_ask_set; [|by apply IH]. right. eauto.
Qed.

Lemma expected_pods_Ok vol pods (w : W) n w' :
  K8sOps.expected_pods vol pods w = (Ok (inl n), w') → asked_for vol pods n w w'.
Proof.
  unfold K8sOps.expected_pods, asked_for. destruct pods as [|p pods]; [by unfold mret, M_ret; intros [= <- <-]|].
  intros ([k|e] & w1 & Ho & Hr)%bind_Ok_inv; unfold mret, M_ret in Hr; [|done].
  injection Hr as <- <-. exists k. split; [by apply owner_replicas_Ok|done].
Qed.

(** C24. When [ValidateVolumeSetup] accepts a mounted volume, the last survey of the pods that
    use it, one look at each in the order of their listing, left out the pods that were
    not ready, and validated exactly as many of the others as were asked for after it -
    one, when the volume is not shared, else the replicas of the last replica set or
    stateful set that owns the first pod, or all pods without such an owner: every path of
    a claim was seen mounted from Portworx in the containers, and the volume among the
    mounts of the node, unless a mount is read-only. *)
Theorem ValidateVolumeSetup_success vol shown (w w' : W) :
  Raw vol = false → K8sOps.ValidateVolumeSetup vol shown w = (Ok tt, w') →
  ∃ (w1 w2 w3 w4 : W) pods nodes valid,
    GetPodsUsingPV (ID vol) w1 = (Ok pods, w2) ∧ K8sOps.nodes_by_name w2 = (Ok nodes, w3) ∧
    surveyed vol nodes pods valid w3 w4 ∧
    asked_for vol pods (Z.of_nat (length valid)) w4 w'.
Proof.
  intros Hraw. unfold K8sOps.ValidateVolumeSetup, K8sOps.GetVolumeName. cbv zeta. case_decide; [done|].
  intros (w1 & Ht)%DoRetryWithTimeout_Ok_inv. unfold K8sOps.volume_setup_task, attempt in Ht. rewrite Hraw in Ht.
  destruct (GetPodsUsingPV (ID vol) w1) as [[pods|e|s|] w2] eqn:Hp; try done.
  destruct (K8sOps.validateMountsInPods vol (ID vol) pods w2) as [[l|e|s|] w3] eqn:Hv; try done.
  apply bind_Ok_inv in Ht as ([n|e] & w4 & He & Ht); [|done]. case_decide as Hlen; [|done].
  unfold mret, M_ret in Ht. injection Ht as <-. unfold K8sOps.validateMountsInPods in Hv.
  apply bind_Ok_inv in Hv as (nodes & w5 & Hn & (valid & -> & Hs)%validate_mounts_Ok).
  exists w1, w2, w5, w3, pods, nodes, valid. split_and!; [done..|]. rewrite length_fmap in Hlen. rewrite Hlen. by apply expected_pods_Ok.
Qed.

(** *** Directories *)

(** The volume directory of a pod that is gone holds no data: it is empty, or the
    directories of claims below it are. *)
Definition dir_clean (pods : list Pod) (n : Node) (path : string) : Prop :=
  ∃ uid, K8sOps.extractPodUID path = Ok uid ∧
    ((∃ p, p ∈ pods ∧ pod_UID p = uid) ∨
     (∃ w1 w2 : W, K8sOps.isDirEmpty path n w1 = (Ok true, w2)) ∨
     ∃ (w1 w2 : W) out, K8sOps.find_dirs path n K8sOps.dirFindOpts w1 = (Ok out, w2) ∧
       ∀ d, d ∈ K8sOps.separateFilePaths out → ∃ w3 w4 : W, K8sOps.isDirEmpty d n w3 = (Ok true, w4)).

Lemma sort_claims_clean uid n dirs orphan dirty (w : W) orphan' w' :
  K8sOps.sort_claims uid n dirs orphan dirty w = (Ok (orphan', []), w') →
  dirty = [] ∧ ∀ d, d ∈ dirs → ∃ w1 w2 : W, K8sOps.isDirEmpty d n w1 = (Ok true, w2).
Proof.
  revert orphan dirty w. induction dirs as [|d dirs IH]; intros orphan dirty w; simpl.
  - unfold mret, M_ret. intros ?; simplify_eq. split; [done|]. by intros ? ?%elem_of_nil.
  - intros (empty & w1 & He & Hs)%bind_Ok_inv. destruct empty.
    + apply IH in Hs as [-> Hall]. split; [done|]. intros x [->|Hx]%elem_of_cons; [by exists w, w1|by apply Hall].
    + apply IH in Hs as [Hd _]. by destruct dirty.
Qed.

Lemma sort_dirs_clean pods n paths orphan dirty (w : W) orphan' w' :
  K8sOps.sort_dirs (Some pods) n paths orphan dirty w = (Ok (orphan', []), w') →
  dirty = [] ∧ ∀ path, path ∈ paths → dir_clean pods n path.
Proof.
  revert orphan dirty w. induction paths as [|path paths IH]; intros orphan dirty w; simpl.
  - unfold mret, M_ret. intros ?; simplify_eq. split; [done|]. by intros ? ?%elem_of_nil.
  - intros (uid & w1 & [Hu ->]%lift_Ok_inv & Hs)%bind_Ok_inv.
    apply bind_Ok_inv in Hs as (pods' & w2 & Hp & Hs). injection Hp as <- <-.
    destruct (existsb _ pods) eqn:Ex.
    + apply IH in Hs as [-> Hall]. split; [done|]. intros x [->|Hx]%elem_of_cons; [|by apply Hall].
      exists uid. split; [done|]. left. apply existsb_exists in Ex as (q & Hq & Heq%bool_decide_eq_true).
      exists q. by rewrite list_elem_of_In.
    + apply bind_Ok_inv in Hs as (empty & w3 & He & Hs). apply bind_Ok_inv in Hs as ([o d] & w4 & Hm & Hs).
      apply IH in Hs as [-> Hall]. destruct empty.
      * unfold mret, M_ret in Hm. simplify_eq. split; [done|]. intros x [->|Hx]%elem_of_cons; [|by apply Hall].
        exists uid. split; [done|]. right. left. by exists w, w4.
      * apply bind_Ok_inv in Hm as (out & w5 & Hf & Hm). apply sort_claims_clean in Hm as [-> Hd].
        split; [done|]. intros x [->|Hx]%elem_of_cons; [|by apply Hall].
        exists uid. split; [done|]. right. right. by exists w3, w5, out.
Qed.

(** When [ValidateVolumeCleanup] succeeds on nodes with different names, every volume
    directory found on a node with the driver belongs to a pod that exists, or holds no
    data. *)
Theorem ValidateVolumeCleanup_success (w w' : W) :
  (∀ m, range_paths m ≡ₚ map_to_list m) →
  K8sOps.ValidateVolumeCleanup w = (Ok tt, w') →
  ∃ (w1 w2 w3 : W) nodes dirs nodeMap,
    registry_GetStorageDriverNodes w = (Ok nodes, w1) ∧ K8sOps.list_volume_dirs nodes ∅ ∅ w1 = (Ok (dirs, nodeMap), w2) ∧
    ∀ pods, core_GetPods "" ∅ w2 = (Ok pods, w3) →
    ∀ name paths n path, dirs !! name = Some paths → nodeMap !! name = Some n → path ∈ paths → dir_clean pods n path.
Proof.
  intros Hperm. unfold K8sOps.ValidateVolumeCleanup. intros (nodes & w1 & Hn & Hs)%bind_Ok_inv.
  apply bind_Ok_inv in Hs as ([dirs nodeMap] & w2 & Hd & Hs). apply bind_Ok_inv in Hs as (existing & w3 & He & Hs).
  apply bind_Ok_inv in Hs as ([orphans dirties] & w4 & Hsort & Hs). case_decide as Hnil; [|done]. subst dirties.
  exists w1, w2, w3, nodes, dirs, nodeMap. split_and!; [done..|].
  intros pods Hpods name paths n path Hname Hnode Hpath.
  unfold attempt in He. rewrite Hpods in He. unfold mret, M_ret in He. injection He as <-.
  assert ((name, paths) ∈ range_paths dirs) as Hin by (rewrite Hperm; by apply elem_of_map_to_list).
  revert Hsort Hin. clear - Hnode Hpath. generalize (range_paths dirs). intros l. revert w3 orphans.
  induction l as [|[x ps] l IH]; intros w3 orphans; simpl; [by intros _ ?%elem_of_nil|].
  intros (n1 & w5 & Hn1 & Hs)%bind_Ok_inv. unfold lift, deref in Hn1. destruct (nodeMap !! x) as [n2|] eqn:En; [|done].
  injection Hn1 as -> <-. apply bind_Ok_inv in Hs as ([o d] & w6 & Hsd & Hs).
  apply bind_Ok_inv in Hs as ([os ds] & w7 & Hrest & Hm). unfold mret, M_ret in Hm.
  destruct (decide (d = [])) as [->|Hd]; [|by simplify_eq].
  injection Hm as _ -> <-. intros [Heq|Hin]%elem_of_cons; [|by eapply IH].
  injection Heq as -> ->. apply sort_dirs_clean in Hsd as [_ Hall]. rewrite Hnode in En. injection En as <-.
  by apply Hall.
Qed.
End validations.
