(* ===== verification/SchedOpsDcos.v ===== *)
(** drivers/volume/portworx/schedops: the operations the volume driver asks of DC/OS, and
    the registry of the operations by scheduler. *)

From S2P Require Import Prelude GoStrings Errors Effects OpenStorageApi NodeRegistry PxDriver K8sCreate PxVolume.

(** ** drivers/volume/portworx/schedops/dcos-schedops.go *)

Module DcosOps.
Section dcos_ops.
Context {W : Type}.

Definition GetTokenFromConfigMap (configMapName : string) : M W string := mret "".
Definition GetKubernetesVersion : M W (option string) := mret None.
Definition StartPxOnNode (n : Node) : M W unit := mret tt.
Definition StopPxOnNode (n : Node) : M W unit := mret tt.
Definition RestartPxOnNode (n : Node) : M W unit := throw (ErrNotSupported "Portworx DCOS operation" "RestartPxOnNode").
Definition ValidateOnNode (n : Node) : M W unit := throw (ErrNotSupported "Function" "ValidateOnNode").
Definition ValidateAddLabels (replicaNodes : list StorageNode) (vol : ApiVolume) : M W unit := mret tt.
Definition ValidateRemoveLabels (vol : Volume) : M W unit := mret tt.
Definition GetVolumeName (vol : Volume) : string := Volume_Name vol.
Definition ValidateVolumeCleanup : M W unit := mret tt.
Definition ValidateVolumeSetup (vol : Volume) : M W unit := mret tt.
Definition ValidateSnapshot (volParams : gmap string string) (parent : option ApiVolume) : M W unit := mret tt.
Definition GetPortworxNamespace : M W string := mret "".
Definition GetServiceEndpoint : M W string := mret "".
Definition UpgradePortworx (ociImage ociTag pxImage pxTag : string) : M W unit := mret tt.
Definition IsPXReadyOnNode (n : Node) : M W bool := mret true.
Definition IsPXEnabled (n : Node) : M W bool := mret true.
Definition GetRemotePXNodes (destKubeConfig : string) : M W (list Node) := mret [].
Definition CreateAutopilotRule (apRule : RuleObject) : M W (option RuleObject) := mret None.
Definition ListAutopilotRules : M W (option (list RuleObject)) := mret None.
End dcos_ops.
End DcosOps.

(** ** drivers/volume/portworx/schedops/schedops.go: the registry *)

Module OpsRegistry.

(** The operations of Kubernetes are embedded in those of its distributions. *)
Inductive Driver := k8sSchedOps | dcosSchedOps.

Notation registry := (gmap string Driver).

Definition Register (name : string) (d : Driver) : M registry unit := λ r,
  match r !! name with
  | None => (Ok tt, <[name := d]> r)
  | Some _ => (Err (Errorf ("portworx scheduler ops driver: " +:+ name +:+ " is already registered")), r)
  end.

Definition Get (name : string) : M registry Driver := λ r,
  match r !! name with
  | Some d => (Ok d, r)
  | None => (Err (ErrNotFound name "Portworx Scheduler Operator"), r)
  end.

(** What the files of the package register when it is loaded, in the order of the files *)
Definition package_init : M registry unit :=
  for_each (λ nd : string * Driver, attempt (Register nd.1 nd.2) (λ _, mret tt))
    [("aks", k8sSchedOps); ("anthos", k8sSchedOps); ("dcos", dcosSchedOps); ("eks", k8sSchedOps); ("gke", k8sSchedOps);
     ("iks", k8sSchedOps); ("k8s", k8sSchedOps); ("openshift", k8sSchedOps); ("oke", k8sSchedOps); ("rke", k8sSchedOps)].
End OpsRegistry.

(** After the package is loaded every scheduler with operations has them, and no other
    name is answered. *)
Theorem package_init_Get name :
  (OpsRegistry.Get name (OpsRegistry.package_init ∅).2).1 =
    if decide (name = "dcos") then Ok OpsRegistry.dcosSchedOps
    else if decide (name ∈ ["aks"; "anthos"; "eks"; "gke"; "iks"; "k8s"; "openshift"; "oke"; "rke"]) then Ok OpsRegistry.k8sSchedOps
    else Err (ErrNotFound name "Portworx Scheduler Operator").
Proof.
  set (k8s := ["aks"; "anthos"; "eks"; "gke"; "iks"; "k8s"; "openshift"; "oke"; "rke"]).
  assert ((OpsRegistry.package_init ∅).2 =
    <["dcos" := OpsRegistry.dcosSchedOps]> (list_to_map ((λ n, (n, OpsRegistry.k8sSchedOps)) <$> k8s))) as -> by (by vm_compute).
  unfold OpsRegistry.Get. rewrite lookup_insert. case_decide as Hd; [subst; by rewrite decide_True|].
  rewrite decide_False by done. case_decide as Hk.
  - rewrite (elem_of_list_to_map_1 _ _ OpsRegistry.k8sSchedOps); [done| |].
    + apply (bool_decide_unpack _). by vm_compute.
    + apply list_elem_of_fmap. by exists name.
  - rewrite not_elem_of_list_to_map_1; [done|]. done.
Qed.
