(* ===== verification/NodeSSH.v ===== *)
(** drivers/node/ssh/ssh.go: the node driver that runs commands on the nodes of the
    cluster, over ssh or in a debug pod of the node, and what it makes of their output.
    Its operations implement the interface [NodeDriver] of the volume driver; that they
    keep its laws is shown in NodeSSHProps.

    The ssh library, the key files and the clients of Kubernetes are parameters; the
    fields of the driver are [SSHState]. *)

From Stdlib Require Import Ascii.
From S2P Require Import Prelude GoStrings Errors Effects Regexp Strconv Task OpenStorageApi NodeRegistry AutopilotRules SpecFactory PxDriver K8sObjects VolumeDrivers K8sSpecs K8sNodes K8sHelm K8sCreate K8sApps PxExpansion K8sAutopilot K8sCsi SchedOpsK8s.

(** ** State and interfaces *)

(** [ssh.ClientConfig]: the user, a password or a parsed key, and the timeout *)
Inductive AuthMethod := Password (p : string) | PublicKeys (signer : string).

Record ClientConfig := { cfg_User : string; cfg_Auth : AuthMethod; cfg_Timeout : Z }.

(** [SSH], less the driver for what is not supported *)
Record SSHState := {
  ssh_username : string;
  ssh_password : string;
  ssh_keyPath : string;
  sshConfig : option ClientConfig;
  ssh_specDir : string;
  execPodNamespace : string;
}.

Class SshWorld (W : Type) `{PxWorld W} := {
  ssh : W → SSHState;
  set_ssh : SSHState → W → W;
}.

Class SshWorldLaws (W : Type) `{SshWorld W} : Prop := {
  ssh_set_ssh : ∀ s w, ssh (set_ssh s w) = s;
  px_set_ssh : ∀ s w, px (set_ssh s w) = px w;
  now_set_ssh : ∀ s w, now (set_ssh s w) = now w;
}.

(** The ssh library, with numbers for connections, sessions and pipes; reading and
    parsing a key; [ValidateDaemonSet]; and the text of the error [time.Parse] has for a value. *)
Class SshApi (W : Type) := {
  ssh_Dial : string → option ClientConfig → M W nat;
  NewSession : nat → M W nat;
  RequestPty : nat → M W unit;
  StderrPipe : nat → M W nat;
  StdoutPipe : nat → M W nat;
  session_Start : nat → string → M W unit;
  session_Wait : nat → M W unit;
  session_Close : nat → M W unit;
  ReadAll : nat → M W string;
  read_key_file : string → M W string;
  ParsePrivateKey : string → outcome string;
  ValidateDaemonSet : string → string → Z → M W unit;
  time_Parse_error : string → string;
}.

Definition DefaultUsername : string := "root".
Definition DefaultSSHPort : Z := 22.
Definition DefaultSSHKey : string := "/home/torpedo/key4torpedo.pem".
Definition execPodTimeout : Z := 5 * Minute.
Definition execPodDaemonSetLabel : string := "debug".
Definition pxctl : string := "sudo /opt/pwx/bin/pxctl".

(** [node.BlockDrive] with all its fields *)
Record Drive := {
  drv_Path : string;
  drv_Labels : gmap string string;
  drv_Size : string;
  drv_MountPoint : string;
  drv_FSType : string;
  drv_Type : string;
}.

Module SSH.

(** ** Strings *)

(** [s[a:b]] *)
Definition slice (s : string) (a b : Z) : outcome string :=
  if decide (0 <= a <= b ∧ b <= Z.of_nat (String.length s))
  then Ok (String.substring (Z.to_nat a) (Z.to_nat (b - a)) s)
  else Panic "slice bounds out of range".

(** [strings.Index] and [strings.LastIndex], -1 when there is none *)
Fixpoint Index (s sub : string) : Z :=
  if HasPrefix s sub then 0 else
  match s with
  | "" => -1
  | String _ s' => let i := Index s' sub in if decide (i = -1) then -1 else i + 1
  end.

Fixpoint LastIndex (s sub : string) : Z :=
  match s with
  | "" => if HasPrefix s sub then 0 else -1
  | String _ s' =>
      let i := LastIndex s' sub in
      if decide (i = -1) then (if HasPrefix s sub then 0 else -1) else i + 1
  end.

(** ** Times: [time.Parse(time.RFC3339, value)] *)

(** A number of exactly two digits, or of one or two when it is not fixed *)
Definition getnum (fixed : bool) (s : string) : option (Z * string) :=
  match s with
  | String a (String b s') =>
      match digit_value a, digit_value b with
      | Some x, Some y => Some (10 * x + y, s')
      | Some x, None => if fixed then None else Some (x, String b s')
      | None, _ => None
      end
  | String a "" => if fixed then None else match digit_value a with Some x => Some (x, "") | None => None end
  | "" => None
  end.

Definition in_bounds (lo hi : Z) (r : option (Z * string)) : option (Z * string) :=
  match r with
  | Some (v, s) => if decide (lo <= v <= hi) then Some (v, s) else None
  | None => None
  end.

Definition literal (c : ascii) (s : string) : option string :=
  match s with
  | String d s' => if Ascii.eqb c d then Some s' else None
  | "" => None
  end.

Definition long_year (s : string) : option (Z * string) :=
  match s with
  | String a (String b (String c (String d s'))) =>
      y ← digits_loop 0 (String a (String b (String c (String d ""))));
      Some (y, s')
  | _ => None
  end.

(** A fraction of the second is read over: only whole seconds are used. *)
Fixpoint skip_digits (s : string) : string :=
  match s with
  | String c s' => if is_digit c then skip_digits s' else s
  | "" => ""
  end.

Definition skip_fraction (s : string) : string :=
  match s with
  | String c (String d s') =>
      if (Ascii.eqb c "." || Ascii.eqb c ",") && is_digit d then skip_digits s' else s
  | _ => s
  end.

(** [Z07:00]: the offset in seconds *)
Definition zone_offset (s : string) : option (Z * string) :=
  match s with
  | String "Z" s' => Some (0, s')
  | String sign s' =>
      sg ← (if Ascii.eqb sign "+" then Some 1 else if Ascii.eqb sign "-" then Some (-1) else None);
      '(hh, s1) ← in_bounds 0 24 (getnum true s');
      s2 ← literal ":" s1;
      '(mm, s3) ← in_bounds 0 60 (getnum true s2);
      Some (sg * (hh * 60 + mm) * 60, s3)
  | "" => None
  end.

Definition is_leap (y : Z) : bool :=
  bool_decide (y mod 4 = 0) && (negb (bool_decide (y mod 100 = 0)) || bool_decide (y mod 400 = 0)).

Definition days_in (y m : Z) : Z :=
  if decide (m = 2) then (if is_leap y then 29 else 28)
  else if decide (m = 4 ∨ m = 6 ∨ m = 9 ∨ m = 11) then 30 else 31.

(** The days from the first of January 1970 to a date: the years begin in March, so
    that the leap day is their last. *)
Definition days_from_civil (y m d : Z) : Z :=
  let y' := if decide (m <= 2) then y - 1 else y in
  let era := y' / 400 in
  let yoe := y' - era * 400 in
  let doy := (153 * (if decide (m > 2) then m - 3 else m + 9) + 2) / 5 + d - 1 in
  let doe := yoe * 365 + yoe / 4 - yoe / 100 + doy in
  era * 146097 + doe - 719468.

(** The seconds since the epoch, when the value is a time *)
Definition parse_rfc3339 (value : string) : option Z :=
  '(y, s1) ← long_year value;
  s2 ← literal "-" s1;
  '(m, s3) ← in_bounds 1 12 (getnum true s2);
  s4 ← literal "-" s3;
  '(d, s5) ← getnum true s4;
  s6 ← literal "T" s5;
  '(hh, s7) ← in_bounds 0 23 (getnum false s6);
  s8 ← literal ":" s7;
  '(mm, s9) ← in_bounds 0 59 (getnum true s8);
  s10 ← literal ":" s9;
  '(ss, s11) ← in_bounds 0 59 (getnum true s10);
  '(offset, rest) ← zone_offset (skip_fraction s11);
  if decide (rest = "" ∧ 1 <= d <= days_in y m)
  then Some (days_from_civil y m d * 86400 + hh * 3600 + mm * 60 + ss - offset)
  else None.

(** ** Block drives *)

(** The value of a column [KEY="value"] *)
Definition column_value (index : Z) (col : string) : outcome string :=
  slice col (index + 2) (Z.of_nat (String.length col) - 1).

(** One label of a drive: a pair, the pool of a DMthin label, or a flag *)
Definition add_label (labels : gmap string string) (label : string) : outcome (gmap string string) :=
  if decide (LastIndex label "=" ≠ -1) then
    let kv := Split label "=" in
    k ← index kv 0;
    v ← index kv 1;
    Ok (<[k := v]> labels)
  else if decide (label = "") then Ok labels
  else
    let val := "any:pwx" in
    if Contains label val then
      pool ← slice label (LastIndex label val + Z.of_nat (String.length val)) (Z.of_nat (String.length label));
      Ok (<["pxpool" := pool]> labels)
    else Ok (<[label := "true"]> labels).

Fixpoint add_labels (labels : gmap string string) (l : list string) : outcome (gmap string string) :=
  match l with
  | [] => Ok labels
  | label :: l' => labels' ← add_label labels label; add_labels labels' l'
  end.

(** The anchored patterns of the six columns are prefixes *)
Definition read_column (drive : Drive) (col : string) : outcome Drive :=
  let last := LastIndex col "=" in
  let 'Build_Drive path labels size mount fs ty := drive in
  path' ← (if HasPrefix col "NAME" then column_value last col else Ok path);
  labels' ← (if HasPrefix col "LABEL"
             then list ← column_value (Index col "=") col; add_labels ∅ (Split list ",")
             else Ok labels);
  mount' ← (if HasPrefix col "MOUNTPOINT" then column_value last col else Ok mount);
  size' ← (if HasPrefix col "SIZE" then column_value last col else Ok size);
  fs' ← (if HasPrefix col "FSTYPE" then column_value last col else Ok fs);
  ty' ← (if HasPrefix col "TYPE" then column_value last col else Ok ty);
  Ok (Build_Drive path' labels' size' mount' fs' ty').

Fixpoint read_columns (drive : Drive) (cols : list string) : outcome Drive :=
  match cols with
  | [] => Ok drive
  | col :: cols' => drive' ← read_column drive col; read_columns drive' cols'
  end.

Definition no_drive : Drive := Build_Drive "" ∅ "" "" "" "".

Fixpoint read_drives (lines : list string) (drives : gmap string Drive) : outcome (gmap string Drive) :=
  match lines with
  | [] => Ok drives
  | line :: lines' =>
      drive ← read_columns no_drive (Split line " ");
      read_drives lines' (<[drv_Path drive := drive]> drives)
  end.

(** ** Commands *)

(** The [Addr] field is what the error prints: it is empty where only [Node] is set. *)
Definition ErrFailedToRunCommand (addr cause : string) : error := NodeErr NdErrFailedToRunCommand addr cause.

Definition find_command (path : string) (options : FindOpts) : string :=
  "sudo find " +:+ path
  +:+ (if decide (find_Name options ≠ "") then " -name " +:+ find_Name options else "")
  +:+ (if decide (find_MinDepth options > 0) then " -mindepth " +:+ Itoa (find_MinDepth options) else "")
  +:+ (if decide (find_MaxDepth options > 0) then " -maxdepth " +:+ Itoa (find_MaxDepth options) else "")
  +:+ (if decide (find_Type options ≠ "") then " -type " +:+ find_Type options else "")
  +:+ (if find_Empty options then " -empty" else "").

Definition network_command (errorInjectionType operationType : string) (dropPercentage delayInMilliseconds : Z)
    : outcome string :=
  if decide (errorInjectionType = "delay") then
    Ok ("sudo tc qdisc " +:+ operationType +:+ " dev eth0 root netem delay " +:+ Itoa delayInMilliseconds +:+ "ms")
  else if decide (errorInjectionType = "drop") then
    Ok ("sudo tc qdisc " +:+ operationType +:+ " dev eth0 root netem loss " +:+ Itoa dropPercentage +:+ "%")
  else Err (Errorf ("invalid network error injection type " +:+ errorInjectionType)).

Section ssh_driver.
Context {W : Type} `{SchedWorld W} `{!SshWorld W} `{K8sClient W} `{SpecFiles} `{K8sCreateApi W} `{K8sCsiApi W}.
Context `{K8sNodeApi W} `{K8sOpsApi W} `{SshApi W}.

Definition get_ssh : M W SSHState := λ w, (Ok (ssh w), w).

Definition modify_ssh (f : SSHState → SSHState) : M W unit := λ w, (Ok tt, set_ssh (f (ssh w)) w).

(** [defer cleanup()] *)
Definition deferring {A} (cleanup : M W unit) (m : M W A) : M W A := λ w,
  match m w with
  | (Diverge, w') => (Diverge, w')
  | (o, w') =>
      match cleanup w' with
      | (Panic s, w2) => (Panic s, w2)
      | (Diverge, w2) => (Diverge, w2)
      | (_, w2) => (o, w2)
      end
  end.

(** A call whose error is dropped, and one whose error is kept for later *)
Definition ignoring {A} (m : M W A) : M W unit := attempt m (λ _, mret tt).

Definition catching (m : M W unit) : M W (option error) :=
  attempt m (λ r, mret (match r with inl _ => None | inr e => Some e end)).

Definition IsUsingSSH : bool :=
  bool_decide (Getenv "TORPEDO_SSH_KEY" ≠ "") || bool_decide (Getenv "TORPEDO_SSH_PASSWORD" ≠ "").

(** *** Over ssh *)

Fixpoint getConnectionOnUsableAddr (addrs : list string) (shown : list string) (options : ConnectionOpts) (sshErr : string)
    : M W nat :=
  match addrs with
  | [] => throw (Errorf ("no usable address found. Tried: " +:+ show_strings shown +:+ ". Error: " +:+ sshErr +:+
                   "Ensure you have setup the nodes for ssh access as per the README"))
  | addr :: addrs' =>
      s ← get_ssh;
      attempt (DoRetryWithTimeout
          (attempt (ssh_Dial (JoinHostPort addr (Itoa DefaultSSHPort)) (sshConfig s)) (λ r,
             mret (match r with inl conn => Done conn | inr err => Retry err end)))
          (Timeout options) (TimeBeforeRetry options)) (λ r,
        match r with
        | inl cli => mret cli
        | inr err => getConnectionOnUsableAddr addrs' shown options (Error err)
        end)
  end.

Definition getConnection (n : Node) (options : ConnectionOpts) : M W nat :=
  match Addresses n with
  | [] => throw (Errorf "no address available to connect")
  | addrs => getConnectionOnUsableAddr addrs addrs options "<nil>"
  end.

(** The command as it is sent: with the token of pxctl, and in a root shell *)
Definition ssh_command (options : ConnectionOpts) (cmd : string) : string :=
  let token := Getenv "PXCTL_AUTH_TOKEN" in
  let cmd1 := if Contains cmd "pxctl" && bool_decide (token ≠ "")
              then "PXCTL_AUTH_TOKEN=" +:+ token +:+ " " +:+ cmd else cmd in
  if Sudo options then "sudo su -c '" +:+ cmd1 +:+ "' -" else cmd1.

Definition run_session (n : Node) (options : ConnectionOpts) (cmd : string) (ignoreErr : bool) (session : nat) : M W string :=
  _ ← (if Contains cmd "runc exec" then ignoring (RequestPty session) else mret tt);
  stderr ← wrap_err (λ err, Errorf ("fail to setup stderr, err: " +:+ Error err)) (StderrPipe session);
  stdout ← wrap_err (λ err, Errorf ("fail to setup stdout, err: " +:+ Error err)) (StdoutPipe session);
  let cmd' := ssh_command options cmd in
  _ ← ignoring (session_Start session cmd');
  err ← catching (session_Wait session);
  out ← wrap_err (λ _, Errorf "fail to read stdout") (ReadAll stdout);
  sterr ← wrap_err (λ _, Errorf "fail to read stderr") (ReadAll stderr);
  match err with
  | Some e =>
      if (ignoreErr : bool) then mret out
      else throw (ErrFailedToRunCommand (Name n)
             ("failed to run command [" +:+ cmd' +:+ "] . sterr: " +:+ sterr +:+ ", err: " +:+ Error e))
  | None => mret out
  end.

(** The output that comes with an error is not used by the callers. *)
Definition doCmdSSH (n : Node) (options : ConnectionOpts) (cmd : string) (ignoreErr : bool) : M W string :=
  connection ← wrap_err (λ err, ErrFailedToRunCommand (UsableAddr n) ("failed to dial: " +:+ Error err))
                 (getConnection n options);
  session ← wrap_err (λ err, ErrFailedToRunCommand (UsableAddr n) ("failed to create session: " +:+ Error err))
              (NewSession connection);
  deferring (session_Close session) (run_session n options cmd ignoreErr session).

(** *** In the debug pod of the node *)

Definition debug_pod (pods : list Pod) : option Pod :=
  find_first (λ p, bool_decide (default "" (pod_Labels p !! "name") = execPodDaemonSetLabel) && IsPodReady p) pods.

Definition nsenter (cmd : string) : list string := ["nsenter"; "--mount=/hostproc/1/ns/mnt"; "/bin/bash"; "-c"; cmd].

Definition no_debug_pod (n : Node) : error :=
  ErrFailedToRunCommand "" ("debug pod not found in node " +:+ show_node n).

Definition doCmdUsingPodWithoutRetry (n : Node) (cmd : string) : M W (string * option error) :=
  s ← get_ssh;
  attempt (GetPodsByNode (Name n) (execPodNamespace s)) (λ r,
    match r with
    | inr err => mret ("", Some err)
    | inl pods =>
        match debug_pod pods with
        | None => mret ("", Some (no_debug_pod n))
        | Some pod => RunCommandInPod (nsenter cmd) (pod_Name pod) "" (pod_Namespace pod)
        end
    end).

(** One attempt: the pod found by an earlier one is kept. *)
Definition run_in_debug_pod (n : Node) (cmd : string) (ignoreErr : bool) (pod : Pod) : M W (task_result string) :=
  '(output, err) ← RunCommandInPod (nsenter cmd) (pod_Name pod) "" (pod_Namespace pod);
  match err with
  | Some e =>
      if (ignoreErr : bool) then mret (Done output)
      else mret (Retry (ErrFailedToRunCommand ""
             ("failed to run command in pod. command: " +:+ show_strings (nsenter cmd) +:+ " , err: " +:+ Error e +:+
              ", pod: " +:+ pod_Name pod)))
  | None => mret (Done output)
  end.

Definition pod_task (n : Node) (cmd : string) (ignoreErr : bool) : M (W * option Pod) (task_result string) :=
  debugPod ← get_local;
  match debugPod with
  | Some pod => up (run_in_debug_pod n cmd ignoreErr pod)
  | None =>
      s ← up get_ssh;
      attempt (up (GetPodsByNode (Name n) (execPodNamespace s))) (λ r,
        match r with
        | inr err => mret (Retry err)
        | inl pods =>
            match debug_pod pods with
            | None => mret (Retry (no_debug_pod n))
            | Some pod => _ ← put_local (Some pod); up (run_in_debug_pod n cmd ignoreErr pod)
            end
        end)
  end.

Definition doCmdUsingPod (n : Node) (options : ConnectionOpts) (cmd : string) (ignoreErr : bool) : M W string :=
  run_local None (DoRetryWithTimeout (pod_task n cmd ignoreErr) (Timeout options) (TimeBeforeRetry options)).

(** *** Either way *)

Definition create_context (token : string) : string := pxctl +:+ " context create admin --token=" +:+ token.
Definition delete_context : string := pxctl +:+ " context delete admin".

Definition needs_context (token cmd : string) : bool :=
  bool_decide (token ≠ "") && Contains cmd "pxctl" && negb (Contains cmd "which") && negb (Contains cmd "context").

Definition doCmd (n : Node) (options : ConnectionOpts) (cmd : string) (ignoreErr : bool) : M W string :=
  if IsUsingSSH then doCmdSSH n options cmd ignoreErr else
  let token := Getenv "PXCTL_AUTH_TOKEN" in
  _ ← (if needs_context token cmd
       then _ ← doCmdUsingPod n options (create_context token) ignoreErr; mret tt else mret tt);
  out ← doCmdUsingPod n options cmd ignoreErr;
  _ ← (if needs_context token cmd
       then _ ← doCmdUsingPod n options delete_context ignoreErr; mret tt else mret tt);
  mret out.

(** The tasks of the retries: [return out, true, err] *)
Definition cmd_task (n : Node) (options : ConnectionOpts) (cmd : string) (ignoreErr : bool) : M W (task_result string) :=
  attempt (doCmd n options cmd ignoreErr) (λ r, mret (match r with inl out => Done out | inr err => Retry err end)).

(** [NodeErr] of a kind for the node and the error that is wrapped *)
Definition node_failure (k : node_error) (n : Node) (err : error) : error := NodeErr k (Name n) (Error err).

Definition TestConnection (n : Node) (options : ConnectionOpts) : M W unit :=
  let cmd := if IsUsingSSH then "hostname" else "date" in
  wrap_err (node_failure NdErrFailedToTestConnection n) (_ ← doCmd n options cmd false; mret tt).

Definition run_command_task (n : Node) (command : string) (options : ConnectionOpts) : M W (task_result string) :=
  attempt (doCmd n options command (IgnoreError options)) (λ r,
    mret (match r with
          | inl output => Done output
          | inr err => Retry (ErrFailedToRunCommand (Name n) ("unable to run cmd (" +:+ command +:+ "): " +:+ Error err))
          end)).

Definition RunCommand (n : Node) (command : string) (options : ConnectionOpts) : M W string :=
  DoRetryWithTimeout (run_command_task n command options) (Timeout options) (TimeBeforeRetry options).

Definition RunCommandWithNoRetry (n : Node) (command : string) (options : ConnectionOpts) : M W string :=
  if IsUsingSSH then doCmdSSH n options command (IgnoreError options) else
  let token := Getenv "PXCTL_AUTH_TOKEN" in
  let context := bool_decide (token ≠ "") && Contains command "pxctl" && negb (Contains command "which") in
  _ ← (if context then _ ← doCmdUsingPod n options (create_context token) false; mret tt else mret tt);
  '(out, cmdErr) ← doCmdUsingPodWithoutRetry n command;
  _ ← (if context then _ ← doCmdUsingPod n options delete_context false; mret tt else mret tt);
  match cmdErr with
  | Some err => throw err
  | None => mret out
  end.

Definition FindFiles (path : string) (n : Node) (options : FindOpts) : M W string :=
  let conn := find_Conn options in
  wrap_err (node_failure NdErrFailedToFindFileOnNode n)
    (DoRetryWithTimeout (cmd_task n conn (find_command path options) true) (Timeout conn) (TimeBeforeRetry conn)).

Definition Systemctl (n : Node) (service action : string) (conn : ConnectionOpts) : M W unit :=
  wrap_err (node_failure NdErrFailedToRunSystemctlOnNode n)
    (_ ← DoRetryWithTimeout (cmd_task n conn ("sudo systemctl " +:+ action +:+ " " +:+ service) false)
           (Timeout conn) (TimeBeforeRetry conn); mret tt).

Definition SystemctlUnitExist (n : Node) (service : string) (conn : ConnectionOpts) : M W bool :=
  let cmd := "sudo systemctl list-units --full --all | grep " +:+ quoted (service +:+ ".service") +:+ " || true" in
  out ← wrap_err (node_failure NdErrFailedToRunSystemctlOnNode n)
          (DoRetryWithTimeout (cmd_task n conn cmd false) (Timeout conn) (TimeBeforeRetry conn));
  mret (bool_decide (out ≠ "")).

Definition SystemCheck (n : Node) (options : ConnectionOpts) : M W string :=
  wrap_err (λ err, NodeErr NdErrFailedToSystemCheck (Name n) ("failed to check for core files due to: " +:+ Error err))
    (FindFiles "/var/cores/" n
      {| find_Conn := options; find_Name := "core-px*"; find_MinDepth := 0; find_MaxDepth := 0; find_Type := File;
         find_Empty := false |}).

(** ** Disruptions *)

Definition RebootNode (n : Node) (force : bool) (conn : ConnectionOpts) : M W unit :=
  let rebootCmd := "sudo reboot" +:+ (if force then " -f" else "") in
  wrap_err (node_failure NdErrFailedToRebootNode n)
    (_ ← DoRetryWithTimeout (cmd_task n conn rebootCmd true) (Timeout conn) (TimeBeforeRetry conn); mret tt).

(** The scheduler "k8s" is registered when the program starts. *)
Definition RebootNodeAndWait (n : Node) : M W unit :=
  _ ← RebootNode n true (conn_opts (15 * Minute) (5 * Second));
  _ ← TestConnection n (conn_opts (15 * Minute) (10 * Second));
  K8sNodes.IsNodeReady n.

Definition connectionOps : ConnectionOpts := conn_opts (10 * Minute) (10 * Second).

Definition inject_on (cmd : string) (n : Node) : M W unit :=
  wrap_err (node_failure NdErrFailedToSetNetworkErrorOnNode n)
    (_ ← DoRetryWithTimeout (cmd_task n connectionOps cmd true) (Timeout connectionOps) (TimeBeforeRetry connectionOps);
     mret tt).

Definition InjectNetworkError (nodes : list Node) (errorInjectionType operationType : string) (drop delay : Z) : M W unit :=
  cmd ← lift (network_command errorInjectionType operationType drop delay);
  for_each (inject_on cmd) nodes.

Definition inject_or_reboot (ty op : string) (drop delay : Z) (n : Node) : M W unit :=
  attempt (InjectNetworkError [n] ty op drop delay) (λ r,
    match r with
    | inl _ => mret tt
    | inr err =>
        if Contains (Error err) "no usable address found" then
          _ ← wrap_err (λ rebootErr, Errorf ("failed to reboot node " +:+ Name n +:+ ": " +:+ Error rebootErr))
                (RebootNodeAndWait n);
          wrap_err (λ err', Errorf ("failed to inject network error on node [" +:+ Name n +:+ "] after reboot. Err: [" +:+
                                    Error err' +:+ "]"))
            (InjectNetworkError [n] ty op drop delay)
        else throw err
    end).

Definition InjectNetworkErrorWithRebootFallback (nodes : list Node) (ty op : string) (drop delay : Z) : M W unit :=
  for_each (inject_or_reboot ty op drop delay) nodes.

Definition CrashNode (n : Node) (conn : ConnectionOpts) : M W unit :=
  wrap_err (node_failure NdErrFailedToCrashNode n)
    (_ ← DoRetryWithTimeout (cmd_task n conn "echo c > /proc/sysrq-trigger" true) (1 * Minute) (10 * Second); mret tt).

Definition ShutdownNode (n : Node) (force : bool) (conn : ConnectionOpts) : M W unit :=
  let shutdownCmd := if force then "halt" else "sudo shutdown" in
  wrap_err (node_failure NdErrFailedToShutdownNode n)
    (_ ← DoRetryWithTimeout (cmd_task n conn shutdownCmd true) (1 * Minute) (10 * Second); mret tt).

Definition bus_id_command (drive : string) : string :=
  "lsscsi | grep " +:+ drive +:+ " | awk -F" +:+ quoted ":" +:+ " '{print $1}'| awk -F" +:+ quoted "[" +:+ " '{print $2}'".

(** [devices[len(devices)-1]]: the slice is never empty *)
Definition yank_command (drive : string) : string :=
  "echo 1 > /sys/block/" +:+ List.last (Split drive "/") "" +:+ "/device/delete".

Definition YankDrive (n : Node) (driveNameToFail : string) (options : ConnectionOpts) : M W string :=
  busID ← wrap_err (λ err, NodeErr NdErrFailedToYankDrive (Name n)
              ("unable to find host bus attribute of the drive " +:+ driveNameToFail +:+ " due to: " +:+ Error err))
            (doCmd n options (bus_id_command driveNameToFail) false);
  let drive := Trim driveNameToFail "/" in
  let bus := TrimRight busID (String "010" "") in
  _ ← wrap_err (λ err, NodeErr NdErrFailedToYankDrive (Name n)
        ("failed to yank drive " +:+ drive +:+ " due to: " +:+ Error err)) (doCmd n options (yank_command drive) false);
  mret bus.

Definition recover_command (uuid : string) : string :=
  "echo " +:+ quoted " - - -" +:+ " > /sys/class/scsi_host/host" +:+ uuid +:+ quoted "/" +:+ "scan".

Definition RecoverDrive (n : Node) (driveNameToRecover driveUUIDToRecover : string) (options : ConnectionOpts) : M W unit :=
  wrap_err (λ err, NodeErr NdErrFailedToRecoverDrive (Name n)
      ("Unable to rescan the drive (" +:+ driveNameToRecover +:+ "): " +:+ Error err))
    (_ ← doCmd n options (recover_command driveUUIDToRecover) false; mret tt).

(** ** Reading the nodes *)

Definition uptime_task (n : Node) : M W (task_result string) :=
  attempt (doCmd n (conn_opts (1 * Minute) (10 * Second)) "sudo uptime -s" true) (λ r,
    mret (match r with
          | inr err => Retry (Errorf ("Error while getting uptime " +:+ Error err +:+ " "))
          | inl out => if decide (out = "") then Retry (Errorf "No uptime available") else Done out
          end)).

(** [time.Now().Unix()] *)
Definition unix_now : M W Z := λ w, (Ok (now w / Second), w).

Definition IsNodeRebootedInGivenTimeRange (n : Node) (timerange : Z) : M W bool :=
  out ← wrap_err (λ _, ErrFailedToRunCommand "" ("Failed to run uptime command in node " +:+ show_node n))
          (DoRetryWithTimeout (uptime_task n) (5 * Minute) (5 * Second));
  let upTime := Fields (TrimSpace out) in
  date ← lift (index upTime 0);
  clock ← lift (index upTime 1);
  let value := date +:+ "T" +:+ clock +:+ "+00:00" in
  match parse_rfc3339 value with
  | None => throw (Errorf ("Unable to parse uptime command output. Err: " +:+ time_Parse_error value))
  | Some uptimeEpoch =>
      curEpoch ← unix_now;
      mret (negb (bool_decide (Z.quot timerange Second < curEpoch - uptimeEpoch)))
  end.

Definition GetDeviceMapperCount (n : Node) : M W Z :=
  out ← wrap_err (λ _, ErrFailedToRunCommand "" ("Failed to run multipath command in node " +:+ show_node n))
          (DoRetryWithTimeout (cmd_task n (conn_opts (1 * Minute) (10 * Second))
             "sudo multipath -ll 2>&1|grep dm-|wc -l" true) (1 * Minute) (10 * Second));
  first ← lift (index (Fields (TrimSpace out)) 0);
  lift (Atoi first).

Definition lsblk_command : string := "sudo /bin/lsblk -f -P -s -p -o NAME,LABEL,SIZE,MOUNTPOINT,FSTYPE,TYPE".

Definition GetBlockDrives (n : Node) (conn : ConnectionOpts) : M W (gmap string Drive) :=
  out ← wrap_err (λ err, ErrFailedToRunCommand "" (Error err))
          (DoRetryWithTimeout (cmd_task n conn lsblk_command false) (Timeout conn) (TimeBeforeRetry conn));
  lift (read_drives (Split (TrimSpace out) "010") ∅).

(** ** Setting the driver up *)

Definition getKeyFile (keypath : string) : M W string :=
  buf ← read_key_file keypath;
  lift (ParsePrivateKey buf).

Definition non_empty (s default : string) : string := if decide (s = "") then default else s.

Definition set_login (keyPath username password : string) (s : SSHState) : SSHState :=
  {| ssh_username := username; ssh_password := password; ssh_keyPath := keyPath; sshConfig := sshConfig s;
     ssh_specDir := ssh_specDir s; execPodNamespace := execPodNamespace s |}.

Definition set_sshConfig (auth : AuthMethod) (s : SSHState) : SSHState :=
  {| ssh_username := ssh_username s; ssh_password := ssh_password s; ssh_keyPath := ssh_keyPath s;
     sshConfig := Some {| cfg_User := ssh_username s; cfg_Auth := auth; cfg_Timeout := 5 * Second |};
     ssh_specDir := ssh_specDir s; execPodNamespace := execPodNamespace s |}.

(** A password set before is kept when the variable is empty; the key is only used
    without one, and its path is never empty. *)
Definition initSSH : M W unit :=
  _ ← modify_ssh (λ s, set_login (non_empty (Getenv "TORPEDO_SSH_KEY") DefaultSSHKey)
                         (non_empty (Getenv "TORPEDO_SSH_USER") DefaultUsername)
                         (non_empty (Getenv "TORPEDO_SSH_PASSWORD") (ssh_password s)) s);
  s ← get_ssh;
  if decide (ssh_password s ≠ "") then modify_ssh (set_sshConfig (Password (ssh_password s)))
  else if decide (ssh_keyPath s ≠ "") then
    pubkey ← wrap_err (λ _, Errorf "Error getting public keyPath from keyfile") (getKeyFile (ssh_keyPath s));
    modify_ssh (set_sshConfig (PublicKeys pubkey))
  else throw (Errorf "Unknown auth type").

Definition registry_secret (name ns config : string) : Object :=
  {| obj_kind := KSecret; TypeMeta_Kind := ""; obj_Name := name; obj_Namespace := ns; obj_UID := ""; Labels := None;
     Annotations := ∅; Replicas := None; Affinity := None; PodVolumes := []; ContainerEnv := []; AccessModes := [];
     VolumeName := ""; StorageRequest := 0; Data := {[".dockerconfigjson" := config]}; Status_text := ""; Spec := no_spec |}.

Definition createDockerRegistrySecret (secretName secretNamespace : string) : M W (option Object) :=
  let dockerServer := Getenv "IMAGE_PULL_SERVER" in
  let dockerUsername := Getenv "IMAGE_PULL_USERNAME" in
  let dockerPassword := Getenv "IMAGE_PULL_PASSWORD" in
  let failed err := Errorf ("failed to create Docker registry secret: " +:+ secretName +:+ ". Err: " +:+ Error err) in
  if decide (dockerServer = "" ∨ dockerUsername = "" ∨ dockerPassword = "") then mret None else
  '(secret, err) ← client_Create (registry_secret secretName secretNamespace
                                    (docker_config dockerServer dockerUsername dockerPassword));
  match err with
  | None => s ← lift (deref secret); mret (Some s)
  | Some e =>
      if IsAlreadyExists e then
        '(existing, err') ← client_Get KSecret secretName secretNamespace;
        match err' with
        | None => s ← lift (deref existing); mret (Some s)
        | Some e' => throw (failed e')
        end
      else throw (failed e)
  end.

Context (volumes : VolumePackage) `{!SpecSource (O := nat)} `{K8sAutopilotApi W}.

(** The first spec, which has to be a daemon set; the spec is shared with the factory. *)
Definition daemon_set_spec (app : AppSpec nat) : M W nat :=
  p ← lift (index (SpecList app) 0);
  o ← read_spec p;
  if decide (obj_kind o = KDaemonSet) then mret p else panic "interface conversion".

Definition create_debug_pods : M W (option Object) :=
  s ← get_ssh;
  _ ← wrap_err (λ err, Errorf ("Error while loading debug daemonset spec file. Err: " +:+ Error err))
        (with_factory (NewFactory (ssh_specDir s +:+ "/" +:+ execPodDaemonSetLabel) (GetStorageProvisioner volumes)));
  dsSpec ← wrap_err (λ err, Errorf ("Error while getting debug daemonset spec. Err: " +:+ Error err))
             (with_factory (SpecFactory.Get execPodDaemonSetLabel));
  p ← daemon_set_spec dsSpec;
  _ ← update_spec p (set_Namespace (execPodNamespace s));
  secret ← wrap_err (λ err, Errorf ("Error while creating docker registry secret [" +:+ execPodDaemonSetLabel +:+ "] in [" +:+
                                    execPodNamespace s +:+ "] namespace. Err: " +:+ Error err))
             (createDockerRegistrySecret execPodDaemonSetLabel (execPodNamespace s));
  ds ← update_spec p (set_pod_template (set_pull_secret secret));
  '(created, err) ← client_Create ds;
  match err with
  | Some e => throw (Errorf ("Error while creating debug daemonset. Err: " +:+ Error e))
  | None => mret created
  end.

Definition initExecPod : M W unit :=
  s ← get_ssh;
  '(found, _) ← client_Get KDaemonSet execPodDaemonSetLabel (execPodNamespace s);
  ds ← (match found with Some ds => mret (Some ds) | None => create_debug_pods end);
  ds' ← lift (deref ds);
  wrap_err (λ err, Errorf ("Error while validating debug daemonset. Err: " +:+ Error err))
    (ValidateDaemonSet (obj_Name ds') (obj_Namespace ds') execPodTimeout).

Definition GetExecPodNamespace : M W string :=
  allServices ← ListServices;
  match find_first (λ svc, bool_decide (svc.1 = PXServiceName)) allServices with
  | Some svc => mret svc.2
  | None => mret ""
  end.

Definition set_execPodNamespace (ns : string) (s : SSHState) : SSHState :=
  {| ssh_username := ssh_username s; ssh_password := ssh_password s; ssh_keyPath := ssh_keyPath s;
     sshConfig := sshConfig s; ssh_specDir := ssh_specDir s; execPodNamespace := ns |}.

Definition test_node (n : Node) : M W unit :=
  if IsStorageDriverInstalled n then
    wrap_err (node_failure NdErrFailedToTestConnection n) (TestConnection n (conn_opts (1 * Minute) (10 * Second)))
  else mret tt.

Definition updateDriver : M W unit :=
  ns ← GetExecPodNamespace;
  _ ← modify_ssh (set_execPodNamespace (non_empty ns "kube-system"));
  nodes ← registry_GetWorkerNodes;
  _ ← (if IsUsingSSH then initSSH else initExecPod);
  for_each test_node nodes.

Definition set_specDir (dir : string) (s : SSHState) : SSHState :=
  {| ssh_username := ssh_username s; ssh_password := ssh_password s; ssh_keyPath := ssh_keyPath s;
     sshConfig := sshConfig s; ssh_specDir := dir; execPodNamespace := execPodNamespace s |}.

Definition Init (specDir : string) : M W unit :=
  _ ← modify_ssh (set_specDir specDir);
  updateDriver.

Definition RefreshDriver : M W unit := updateDriver.
End ssh_driver.

(** The driver the package registers when the program starts *)
Definition New : SSHState :=
  {| ssh_username := DefaultUsername; ssh_password := ""; ssh_keyPath := DefaultSSHKey; sshConfig := None;
     ssh_specDir := ""; execPodNamespace := "" |}.

End SSH.
