(* ===== verification/NodeSSHProps.v ===== *)
(** Properties of the ssh node driver (NodeSSH): it implements the interface of the volume
    driver, pxctl commands in a debug pod are bracketed by an admin context, and the block
    drives it reports are those lsblk lists. *)

From Stdlib Require Import Ascii.
From S2P Require Import Prelude GoStrings Errors Effects Regexp Strconv Task OpenStorageApi NodeRegistry AutopilotRules SpecFactory PxDriver K8sObjects VolumeDrivers K8sSpecs K8sNodes K8sHelm K8sCreate K8sApps PxNodeOps K8sCsi SchedOpsK8s SchedOpsProps NodeSSH.

(** ** The interface of the volume driver *)

(** The calls behind a command do not write the memory of the volume driver. *)
Class SshFrame (W : Type) `{PxWorld W} `{K8sCsiApi W} `{K8sNodeApi W} `{SshApi W} : Prop := {
  ssh_GetPodsByNode :: ∀ n ns, External (GetPodsByNode n ns);
  ssh_RunCommandInPod :: ∀ c p ctr ns, External (RunCommandInPod c p ctr ns);
  ssh_Dial_external :: ∀ a c, External (ssh_Dial a c);
  ssh_NewSession :: ∀ c, External (NewSession c);
  ssh_RequestPty :: ∀ s, External (RequestPty s);
  ssh_StderrPipe :: ∀ s, External (StderrPipe s);
  ssh_StdoutPipe :: ∀ s, External (StdoutPipe s);
  ssh_Start :: ∀ s c, External (session_Start s c);
  ssh_Wait :: ∀ s, External (session_Wait s);
  ssh_Close :: ∀ s, External (session_Close s);
  ssh_ReadAll :: ∀ p, External (ReadAll p);
}.

(** Calls with a variable of their own *)
Section local_external.
Context {W L : Type} `{PxWorldLaws W}.

Definition ExternalL {A} (m : M (W * L) A) : Prop :=
  ∀ wl, px (m wl).2.1 = px wl.1 ∧ now wl.1 <= now (m wl).2.1.

Lemma up_externalL {A} (m : M W A) : External m → ExternalL (up m).
Proof. intros Hm [w l]. rewrite up_eq. apply (external (m := m) w). Qed.

Lemma bind_externalL {A B} (m : M (W * L) A) (k : A → M (W * L) B) :
  ExternalL m → (∀ a, ExternalL (k a)) → ExternalL (m ≫= k).
Proof.
  intros Hm Hk wl. unfold mbind, M_bind. specialize (Hm wl).
  destruct (m wl) as [[a|e|s|] wl1]; [|done..]. specialize (Hk a wl1). simpl in *.
  destruct Hm, Hk. split; [congruence|lia].
Qed.

Lemma attempt_externalL {A B} (m : M (W * L) A) (k : A + error → M (W * L) B) :
  ExternalL m → (∀ r, ExternalL (k r)) → ExternalL (attempt m k).
Proof.
  intros Hm Hk wl. unfold attempt. specialize (Hm wl).
  destruct (m wl) as [[a|e|s|] wl1]; [specialize (Hk (inl a) wl1)|specialize (Hk (inr e) wl1)|done..];
    simpl in *; destruct Hm, Hk; (split; [congruence|lia]).
Qed.

Lemma ret_externalL {A} (a : A) : ExternalL (mret a).
Proof. intros wl. split; [done|simpl; lia]. Qed.

Lemma get_local_externalL : ExternalL get_local.
Proof. intros wl. split; [done|simpl; lia]. Qed.

Lemma put_local_externalL l : ExternalL (put_local l).
Proof. intros wl. split; [done|simpl; lia]. Qed.

#[export] Instance run_retries_external {A} l (t : M (W * L) (task_result A)) timeout i :
  ExternalL t → External (run_local l (DoRetryWithTimeout t timeout i)).
Proof.
  intros Ht w. unfold run_local.
  pose proof (preserves_DoRetry (λ wl : W * L, px wl.1 = px w) t timeout i) as Hp.
  pose proof (monotone_DoRetry t timeout i (λ wl, proj2 (Ht wl)) (w, l)) as Hm.
  specialize (Hp (λ wl Hwl, eq_trans (proj1 (Ht wl)) Hwl) (λ d wl Hwl, eq_trans (px_sleep d wl.1) Hwl) (w, l) eq_refl).
  by destruct (DoRetryWithTimeout t timeout i (w, l)) as [o wl].
Qed.
End local_external.

Section interface.
Context {W : Type} `{SchedWorld W} `{!PxWorldLaws W} `{!SshWorld W} `{K8sClient W} `{SpecFiles} `{K8sCreateApi W}.
Context `{K8sCsiApi W} `{K8sNodeApi W} `{K8sOpsApi W} `{SshApi W} `{!SshFrame W}.

Definition ssh_node_driver : NodeDriver W := {|
  RunCommand := SSH.RunCommand;
  RunCommandWithNoRetry := SSH.RunCommandWithNoRetry;
  Systemctl := SSH.Systemctl;
|}.

Instance get_ssh_external : External (SSH.get_ssh (W := W)).
Proof. intros w. split; [done|simpl; lia]. Qed.

Instance deferring_external {A} c (m : M W A) : External c → External m → External (SSH.deferring c m).
Proof.
  intros Hc Hm w. unfold SSH.deferring. destruct (Hm w) as [Hp Hn].
  destruct (m w) as [[a|e|s|] w1]; simpl in *; try done;
    destruct (Hc w1) as [Hp1 Hn1]; destruct (c w1) as [[]]; simpl in *; (split; [congruence|lia]).
Qed.

Instance wrap_err_external {A} h (m : M W A) : External m → External (wrap_err h m).
Proof. intros Hm. unfold wrap_err. external_calls. Qed.

Instance ssh_connection_external addrs shown o e : External (SSH.getConnectionOnUsableAddr (W := W) addrs shown o e).
Proof. revert e. induction addrs as [|a addrs IH]; intros e; simpl; external_calls. Qed.

Instance run_session_external n o c ign s : External (SSH.run_session (W := W) n o c ign s).
Proof. unfold SSH.run_session, SSH.ignoring, SSH.catching. external_calls. Qed.

Instance doCmdSSH_external n o c ign : External (SSH.doCmdSSH (W := W) n o c ign).
Proof. unfold SSH.doCmdSSH, SSH.getConnection. external_calls. Qed.

Instance run_in_debug_pod_external n c ign p : External (SSH.run_in_debug_pod (W := W) n c ign p).
Proof. unfold SSH.run_in_debug_pod. external_calls. Qed.

Lemma pod_task_externalL n c ign : ExternalL (SSH.pod_task (W := W) n c ign).
Proof.
  unfold SSH.pod_task. apply bind_externalL; [apply get_local_externalL|]. intros [p|]; [apply up_externalL, _|].
  apply bind_externalL; [apply up_externalL, _|]. intros s. apply attempt_externalL; [apply up_externalL, _|].
  intros [pods|e]; [|apply ret_externalL]. case_match; [|apply ret_externalL].
  apply bind_externalL; [apply put_local_externalL|]. intros _. apply up_externalL, _.
Qed.

Instance doCmdUsingPod_external n o c ign : External (SSH.doCmdUsingPod (W := W) n o c ign).
Proof. apply run_retries_external, pod_task_externalL. Qed.

Instance doCmd_external n o c ign : External (SSH.doCmd (W := W) n o c ign).
Proof. unfold SSH.doCmd. external_calls. Qed.

(** The ssh driver is the node driver the volume driver counts on: running a command or
    a service action, over ssh or in the debug pod, with all their retries, neither
    writes the memory of the volume driver nor goes back in time. *)
Theorem ssh_driver_laws : NodeDriverFrame W (H0 := ssh_node_driver).
Proof.
  constructor; simpl; intros.
  - unfold SSH.RunCommand, SSH.run_command_task. external_calls.
  - unfold SSH.RunCommandWithNoRetry, SSH.doCmdUsingPodWithoutRetry. external_calls.
  - unfold SSH.Systemctl, SSH.cmd_task. external_calls.
Qed.
End interface.

(** ** Commands in the debug pod *)

Section debug_pods.
Context {W : Type} `{SchedWorld W} `{!SshWorld W} `{K8sClient W} `{SpecFiles} `{K8sCreateApi W}.
Context `{K8sCsiApi W} `{K8sNodeApi W} `{K8sOpsApi W} `{SshApi W}.

(** The pod was listed on the node, labelled as a debug pod and ready. *)
Definition found_on (n : Node) (pod : Pod) : Prop :=
  ∃ (w0 w1 : W) pods, GetPodsByNode (Name n) (execPodNamespace (ssh w0)) w0 = (Ok pods, w1) ∧ pod ∈ pods ∧
    pod_Labels pod !! "name" = Some execPodDaemonSetLabel ∧ IsPodReady pod = true.

(** The command ran in such a pod, without an error and as the last thing done. *)
Definition ran_in_pod (n : Node) (cmd out : string) (w' : W) : Prop :=
  ∃ pod (w1 : W), found_on n pod ∧
    RunCommandInPod (SSH.nsenter cmd) (pod_Name pod) "" (pod_Namespace pod) w1 = (Ok (out, None), w').

Definition knows_pod (n : Node) (wl : W * option Pod) : Prop :=
  match wl.2 with Some pod => found_on n pod | None => True end.

Lemma debug_pod_found (n : Node) (w w1 : W) pods pod :
  GetPodsByNode (Name n) (execPodNamespace (ssh w)) w = (Ok pods, w1) → SSH.debug_pod pods = Some pod → found_on n pod.
Proof.
  intros Hg (Hin & [Hl%bool_decide_eq_true Hr]%andb_true_iff)%find_first_Some. exists w, w1, pods. split_and!; try done.
  by destruct (pod_Labels pod !! "name"); simpl in Hl; [subst|].
Qed.

Lemma run_in_debug_pod_Ok n cmd pod (w : W) out w' :
  SSH.run_in_debug_pod n cmd false pod w = (Ok (Done out), w') →
  RunCommandInPod (SSH.nsenter cmd) (pod_Name pod) "" (pod_Namespace pod) w = (Ok (out, None), w').
Proof.
  unfold SSH.run_in_debug_pod. intros ([o [e|]] & w1 & Hr & Hd)%bind_Ok_inv; [done|].
  unfold mret, M_ret in Hd. by simplify_eq.
Qed.

Lemma pod_task_knows n cmd ign wl : knows_pod n wl → knows_pod n (SSH.pod_task n cmd ign wl).2.
Proof.
  destruct wl as [w [pod|]]; intros Hk; unfold SSH.pod_task; rewrite bind_get_local; [by rewrite up_eq|].
  unfold mbind at 1, M_bind at 1. rewrite up_eq. simpl. unfold attempt. rewrite up_eq.
  destruct (GetPodsByNode _ _ w) as [[pods|e|s|] w1] eqn:Eg; simpl; try done.
  destruct (SSH.debug_pod pods) as [pod|] eqn:Ed; [|done]. rewrite bind_put_local, up_eq. simpl.
  by eapply debug_pod_found.
Qed.

Lemma pod_task_Done n cmd wl out wl' :
  knows_pod n wl → SSH.pod_task n cmd false wl = (Ok (Done out), wl') → ran_in_pod n cmd out wl'.1.
Proof.
  destruct wl as [w [pod|]], wl' as [w' l']; intros Hk; unfold SSH.pod_task; rewrite bind_get_local.
  - intros [Hr _]%up_Ok_inv. exists pod, w. split; [done|]. by eapply run_in_debug_pod_Ok.
  - unfold mbind at 1, M_bind at 1. rewrite up_eq. simpl. unfold attempt. rewrite up_eq.
    destruct (GetPodsByNode _ _ w) as [[pods|e|s|] w1] eqn:Eg; simpl; try done.
    destruct (SSH.debug_pod pods) as [pod|] eqn:Ed; [|done]. rewrite bind_put_local.
    intros [Hr _]%up_Ok_inv. exists pod, w1. split; [by eapply debug_pod_found|]. by eapply run_in_debug_pod_Ok.
Qed.

Lemma doCmdUsingPod_Ok n o cmd (w : W) out w' :
  SSH.doCmdUsingPod n o cmd false w = (Ok out, w') → ran_in_pod n cmd out w'.
Proof.
  unfold SSH.doCmdUsingPod. intros [l' Hd]%run_local_inv.
  apply (DoRetryWithTimeout_Ok_keeps (knows_pod n)) in Hd as (wl1 & Hk & Hd).
  - by apply (pod_task_Done _ _ _ _ _ Hk) in Hd.
  - intros wl. apply pod_task_knows.
  - by intros d [].
  - done.
Qed.

(** C23. With a token and without ssh, a successful pxctl command was run between the creation
    and the deletion of the admin context, each in a ready debug pod of the node and each
    without an error. *)
Theorem doCmd_context n o cmd (w : W) out w' :
  SSH.IsUsingSSH = false → SSH.needs_context (Getenv "PXCTL_AUTH_TOKEN") cmd = true →
  SSH.doCmd n o cmd false w = (Ok out, w') →
  ∃ (w1 w2 : W) created deleted,
    SSH.doCmdUsingPod n o (SSH.create_context (Getenv "PXCTL_AUTH_TOKEN")) false w = (Ok created, w1) ∧
    SSH.doCmdUsingPod n o cmd false w1 = (Ok out, w2) ∧
    SSH.doCmdUsingPod n o SSH.delete_context false w2 = (Ok deleted, w') ∧
    ran_in_pod n (SSH.create_context (Getenv "PXCTL_AUTH_TOKEN")) created w1 ∧
    ran_in_pod n cmd out w2 ∧ ran_in_pod n SSH.delete_context deleted w'.
Proof.
  intros Hs Hc. unfold SSH.doCmd. rewrite Hs, Hc. cbv zeta.
  intros ([] & w1 & (created & wc & Hcr & Hr)%bind_Ok_inv & Hd)%bind_Ok_inv. unfold mret, M_ret in Hr. simplify_eq.
  apply bind_Ok_inv in Hd as (o1 & w2 & Hcmd & Hd).
  apply bind_Ok_inv in Hd as ([] & w3 & (deleted & wd & Hdel & Hr)%bind_Ok_inv & Hd).
  unfold mret, M_ret in *. simplify_eq. exists w1, w2, created, deleted.
  split_and!; try done; by eapply doCmdUsingPod_Ok.
Qed.

(** When the command fails, its error is returned and the admin context stays. *)
Lemma doCmd_leaves_context n o cmd (w : W) created w1 e w2 :
  SSH.IsUsingSSH = false → SSH.needs_context (Getenv "PXCTL_AUTH_TOKEN") cmd = true →
  SSH.doCmdUsingPod n o (SSH.create_context (Getenv "PXCTL_AUTH_TOKEN")) false w = (Ok created, w1) →
  SSH.doCmdUsingPod n o cmd false w1 = (Err e, w2) →
  SSH.doCmd n o cmd false w = (Err e, w2).
Proof.
  intros Hs Hc Hcr Hcmd. unfold SSH.doCmd. rewrite Hs, Hc. cbv zeta.
  rewrite bind_assoc, (bind_Ok _ _ _ _ _ Hcr). by rewrite (bind_Ok _ _ _ w1 tt eq_refl), (bind_Err _ _ _ _ _ Hcmd).
Qed.
End debug_pods.

(** ** Block drives *)

(** A label as lsblk prints it: a pair or a flag *)
Inductive drive_label := Pair (k v : string) | Flag (f : string).

Definition label_text (l : drive_label) : string :=
  match l with Pair k v => k +:+ "=" +:+ v | Flag f => f end.

(** What lsblk knows of a device *)
Record device := {
  dev_path : string;
  dev_labels : list drive_label;
  dev_size : string;
  dev_mount : string;
  dev_fs : string;
  dev_type : string;
}.

Definition column (key value : string) : string := key +:+ "=" +:+ quoted value.

Definition lsblk_columns (d : device) : list string :=
  [ column "NAME" (dev_path d); column "LABEL" (Join (label_text <$> dev_labels d) ",");
    column "SIZE" (dev_size d); column "MOUNTPOINT" (dev_mount d); column "FSTYPE" (dev_fs d);
    column "TYPE" (dev_type d) ].

Definition lsblk_line (d : device) : string := Join (lsblk_columns d) " ".

Definition lsblk_output (ds : list device) : string := Join (lsblk_line <$> ds) (String "010" "") +:+ String "010" "".

(** A value without white space, equals signs and commas *)
Definition plain_char (c : ascii) : bool := negb (is_space c) && negb (Ascii.eqb c "=").
Definition plain_value (s : string) : Prop := string_forall plain_char s = true.

Definition plain_label (l : drive_label) : Prop :=
  match l with
  | Pair k v => plain_value k ∧ plain_value v ∧ free_of "," k = true ∧ free_of "," v = true
  | Flag f => plain_value f ∧ free_of "," f = true ∧ f ≠ "" ∧ Contains f "any:pwx" = false
  end.

Definition plain_device (d : device) : Prop :=
  plain_value (dev_path d) ∧ Forall plain_label (dev_labels d) ∧ plain_value (dev_size d) ∧
  plain_value (dev_mount d) ∧ plain_value (dev_fs d) ∧ plain_value (dev_type d).

(** What the driver is to make of it *)
Definition set_label (m : gmap string string) (l : drive_label) : gmap string string :=
  match l with Pair k v => <[k := v]> m | Flag f => <[f := "true"]> m end.

Definition drive_of (d : device) : Drive :=
  Build_Drive (dev_path d) (foldl set_label ∅ (dev_labels d)) (dev_size d) (dev_mount d) (dev_fs d) (dev_type d).

Lemma string_forall_impl (p q : ascii → bool) s :
  (∀ c, p c = true → q c = true) → string_forall p s = true → string_forall q s = true.
Proof.
  intros Hpq. induction s as [|c s IH]; simpl; [done|]. intros [Hc Hs]%andb_true_iff. by rewrite Hpq, IH.
Qed.

Lemma plain_free sep s : is_space sep = true ∨ sep = "="%char → plain_value s → free_of sep s = true.
Proof.
  intros Hsep. apply string_forall_impl. intros c [Hc He]%andb_true_iff. destruct Hsep as [Hsp| ->]; [|done].
  apply negb_true_iff in Hc. apply negb_true_iff, Ascii.eqb_neq. by intros ->; rewrite Hsp in Hc.
Qed.

Lemma HasPrefix_char c s : HasPrefix s (String c "") = match s with String d _ => Ascii.eqb c d | "" => false end.
Proof. destruct s as [|d s]; [done|]. unfold HasPrefix. simpl. destruct (ascii_dec c d) as [->|Hne]; [by destruct s; rewrite Ascii.eqb_refl|]. symmetry. by apply Ascii.eqb_neq. Qed.

Lemma LastIndex_free c s : free_of c s = true → SSH.LastIndex s (String c "") = -1.
Proof.
  induction s as [|d s IH]; [done|]. simpl. intros [Hd Hs]%andb_true_iff. rewrite (IH Hs), decide_True by done.
  rewrite HasPrefix_char, Ascii.eqb_sym. apply negb_true_iff in Hd. by rewrite Hd.
Qed.

Lemma LastIndex_app a c b :
  free_of c b = true → SSH.LastIndex (a +:+ String c b) (String c "") = Z.of_nat (String.length a).
Proof.
  intros Hb. induction a as [|d a IH].
  - simpl. rewrite LastIndex_free, decide_True by done. by rewrite HasPrefix_char, Ascii.eqb_refl.
  - simpl (String d a +:+ _). cbn [SSH.LastIndex]. rewrite IH, decide_False by lia. simpl String.length. lia.
Qed.

Lemma Index_app a c b :
  free_of c a = true → SSH.Index (a +:+ String c b) (String c "") = Z.of_nat (String.length a).
Proof.
  induction a as [|d a IH]; simpl (_ +:+ _).
  - intros _. cbn [SSH.Index]. by rewrite HasPrefix_char, Ascii.eqb_refl.
  - simpl. intros [Hd Ha]%andb_true_iff. rewrite HasPrefix_char, Ascii.eqb_sym. apply negb_true_iff in Hd.
    rewrite Hd, (IH Ha), decide_False by lia. lia.
Qed.

Lemma column_value_at key v : SSH.column_value (Z.of_nat (String.length key)) (column key v) = Ok v.
Proof.
  unfold SSH.column_value, SSH.slice, column, quoted.
  assert (key +:+ "=" +:+ String "034" (v +:+ String "034" "") =
          (key +:+ String "=" (String "034" "")) +:+ v +:+ String "034" "") as -> by (by rewrite app_assoc_s).
  rewrite !length_append. simpl String.length. rewrite decide_True by lia. f_equal.
  replace (Z.to_nat (Z.of_nat (String.length key) + 2)) with (String.length (key +:+ String "=" (String "034" "")))
    by (rewrite length_append; simpl; lia).
  match goal with |- String.substring _ ?l _ = _ => replace l with (String.length v) by lia end.
  apply substring_middle.
Qed.

Lemma column_value_last key v :
  plain_value v → SSH.column_value (SSH.LastIndex (column key v) "=") (column key v) = Ok v.
Proof.
  intros Hv. unfold column at 1. simpl (_ +:+ quoted v). rewrite LastIndex_app; [apply column_value_at|].
  unfold quoted, free_of. simpl. rewrite string_forall_app. simpl. apply andb_true_iff. split; [|done].
  by apply plain_free; [right|].
Qed.

Lemma add_label_text m l : plain_label l → SSH.add_label m (label_text l) = Ok (set_label m l).
Proof.
  destruct l as [k v|f]; simpl.
  - intros (Hk & Hv & _). unfold SSH.add_label. rewrite LastIndex_app by (by apply plain_free; [right|]).
    rewrite decide_True by lia. unfold Split. rewrite split_loop_app by (by apply plain_free; [right|]).
    unfold Split. by rewrite split_loop_free by (by apply plain_free; [right|]).
  - intros (Hf & _ & Hne & Hp). unfold SSH.add_label. rewrite LastIndex_free by (by apply plain_free; [right|]).
    rewrite decide_False by (intros []; done). rewrite decide_False by done. by rewrite Hp.
Qed.

Lemma label_text_free l : plain_label l → free_of "," (label_text l) = true.
Proof. destruct l; simpl; [|naive_solver]. intros (_ & _ & Hk & Hv). rewrite free_of_app. simpl. by rewrite Hk. Qed.

Lemma add_labels_text m ls :
  Forall plain_label ls → SSH.add_labels m (label_text <$> ls) = Ok (foldl set_label m ls).
Proof.
  intros Hls. revert m. induction Hls as [|l ls Hl Hls IH]; intros m; simpl; [done|].
  rewrite (add_label_text _ _ Hl). apply IH.
Qed.

Lemma read_labels ls :
  Forall plain_label ls → SSH.add_labels ∅ (Split (Join (label_text <$> ls) ",") ",") = Ok (foldl set_label ∅ ls).
Proof.
  intros Hls. destruct ls as [|l ls]; [done|]. rewrite Split_Join; [by apply add_labels_text|done|].
  apply Forall_fmap. eapply Forall_impl; [done|]. apply label_text_free.
Qed.

(** The columns one by one *)
Ltac read_one d Hv := destruct d; unfold SSH.read_column; cbv zeta; rewrite (column_value_last _ _ Hv); reflexivity.

Lemma read_NAME d v : plain_value v → SSH.read_column d (column "NAME" v) =
  Ok (Build_Drive v (drv_Labels d) (drv_Size d) (drv_MountPoint d) (drv_FSType d) (drv_Type d)).
Proof. intros Hv. read_one d Hv. Qed.

Lemma read_SIZE d v : plain_value v → SSH.read_column d (column "SIZE" v) =
  Ok (Build_Drive (drv_Path d) (drv_Labels d) v (drv_MountPoint d) (drv_FSType d) (drv_Type d)).
Proof. intros Hv. read_one d Hv. Qed.

Lemma read_MOUNTPOINT d v : plain_value v → SSH.read_column d (column "MOUNTPOINT" v) =
  Ok (Build_Drive (drv_Path d) (drv_Labels d) (drv_Size d) v (drv_FSType d) (drv_Type d)).
Proof. intros Hv. read_one d Hv. Qed.

Lemma read_FSTYPE d v : plain_value v → SSH.read_column d (column "FSTYPE" v) =
  Ok (Build_Drive (drv_Path d) (drv_Labels d) (drv_Size d) (drv_MountPoint d) v (drv_Type d)).
Proof. intros Hv. read_one d Hv. Qed.

Lemma read_TYPE d v : plain_value v → SSH.read_column d (column "TYPE" v) =
  Ok (Build_Drive (drv_Path d) (drv_Labels d) (drv_Size d) (drv_MountPoint d) (drv_FSType d) v).
Proof. intros Hv. read_one d Hv. Qed.

Lemma read_LABEL d ls : Forall plain_label ls →
  SSH.read_column d (column "LABEL" (Join (label_text <$> ls) ",")) =
  Ok (Build_Drive (drv_Path d) (foldl set_label ∅ ls) (drv_Size d) (drv_MountPoint d) (drv_FSType d) (drv_Type d)).
Proof.
  intros Hl. pose proof (read_labels _ Hl) as Hr. remember (Join (label_text <$> ls) ",") as v eqn:Ev.
  destruct d. unfold SSH.read_column. cbv zeta.
  assert (SSH.Index (column "LABEL" v) "=" = Z.of_nat (String.length "LABEL")) as ->
    by (apply (Index_app "LABEL" "=" (quoted _)); done).
  rewrite column_value_at.
  change (Ok v ≫= λ list, SSH.add_labels ∅ (Split list ",")) with (SSH.add_labels ∅ (Split v ",")).
  rewrite Hr. reflexivity.
Qed.

Lemma read_columns_device d : plain_device d → SSH.read_columns SSH.no_drive (lsblk_columns d) = Ok (drive_of d).
Proof.
  intros (Hp & Hl & Hs & Hm & Hf & Ht). unfold lsblk_columns. cbn [SSH.read_columns].
  rewrite read_NAME by done. unfold mbind, outcome_bind. rewrite read_LABEL by done. rewrite read_SIZE by done.
  rewrite read_MOUNTPOINT by done. rewrite read_FSTYPE by done. by rewrite read_TYPE.
Qed.

Lemma plain_label_text l : plain_label l → string_forall (λ c, negb (is_space c)) (label_text l) = true.
Proof.
  assert (∀ s, plain_value s → string_forall (λ c, negb (is_space c)) s = true) as Hs.
  { intros s. apply string_forall_impl. by intros c [? _]%andb_true_iff. }
  destruct l as [k v|f]; simpl; [|naive_solver]. intros (Hk & Hv & _). rewrite string_forall_app. simpl.
  by rewrite !Hs.
Qed.

Lemma Join_words ls sep :
  string_forall (λ c, negb (is_space c)) sep = true →
  Forall (λ l, string_forall (λ c, negb (is_space c)) l = true) ls →
  string_forall (λ c, negb (is_space c)) (Join ls sep) = true.
Proof.
  intros Hsep Hls. induction Hls as [|l ls Hl Hls IH]; [done|]. destruct ls as [|l' ls]; [done|].
  change (Join (l :: l' :: ls) sep) with (l +:+ sep +:+ Join (l' :: ls) sep).
  by rewrite !string_forall_app, Hl, Hsep, IH.
Qed.

(** A column has no white space. *)
Lemma columns_words d : plain_device d → Forall (λ c, string_forall (λ c, negb (is_space c)) c = true) (lsblk_columns d).
Proof.
  intros (Hp & Hl & Hs & Hm & Hf & Ht).
  assert (∀ k v, string_forall (λ c, negb (is_space c)) k = true → string_forall (λ c, negb (is_space c)) v = true →
    string_forall (λ c, negb (is_space c)) (column k v) = true) as Hcol.
  { intros k v Hk Hv. unfold column, quoted. rewrite string_forall_app, Hk. simpl. by rewrite string_forall_app, Hv. }
  assert (∀ v, plain_value v → string_forall (λ c, negb (is_space c)) v = true) as Hplain.
  { intros v. apply string_forall_impl. by intros c [? _]%andb_true_iff. }
  unfold lsblk_columns. repeat constructor; apply Hcol; auto. apply Join_words; [done|].
  apply Forall_fmap. eapply Forall_impl; [done|]. apply plain_label_text.
Qed.

Lemma words_free sep s : is_space sep = true → string_forall (λ c, negb (is_space c)) s = true → free_of sep s = true.
Proof.
  intros Hsep. apply string_forall_impl. intros c Hc%negb_true_iff. apply negb_true_iff, Ascii.eqb_neq.
  by intros ->; rewrite Hsep in Hc.
Qed.

Lemma line_columns d : plain_device d → Split (lsblk_line d) " " = lsblk_columns d.
Proof.
  intros Hd. apply Split_Join; [done|]. eapply Forall_impl; [by apply columns_words|]. intros c. by apply words_free.
Qed.

Lemma line_free d : plain_device d → free_of "010" (lsblk_line d) = true.
Proof.
  intros Hd. unfold lsblk_line. pose proof (columns_words d Hd) as Hc. revert Hc. generalize (lsblk_columns d).
  induction 1 as [|l ls Hl Hls IH]; [done|]. destruct ls as [|l' ls]; [by apply words_free|].
  change (Join (l :: l' :: ls) " ") with (l +:+ " " +:+ Join (l' :: ls) " ").
  by rewrite !free_of_app, IH, (words_free _ l).
Qed.

Lemma read_drives_lines ds m :
  Forall plain_device ds →
  SSH.read_drives (lsblk_line <$> ds) m = Ok (foldl (λ m d, <[dev_path d := drive_of d]> m) m ds).
Proof.
  intros Hds. revert m. induction Hds as [|d ds Hd Hds IH]; intros m; simpl; [done|].
  rewrite line_columns, read_columns_device by done. apply IH.
Qed.

Lemma Join_ends ls sep q : ls ≠ [] → Forall (λ l, ∃ a, l = a +:+ q) ls → ∃ a, Join ls sep = a +:+ q.
Proof.
  intros Hne Hls. induction Hls as [|l ls Hl Hls IH]; [done|]. destruct ls as [|l' ls]; [done|].
  destruct IH as [a Ha]; [done|]. exists (l +:+ sep +:+ a).
  change (Join (l :: l' :: ls) sep) with (l +:+ sep +:+ Join (l' :: ls) sep). by rewrite Ha, !app_assoc_s.
Qed.

Lemma TrimRight_onto a e q cs : TrimRight e cs = q → q ≠ "" → TrimRight (a +:+ e) cs = a +:+ q.
Proof.
  intros He Hq. induction a as [|c a IH]; simpl; [done|]. rewrite IH.
  destruct (a +:+ q) eqn:E; [|done]. by apply app_eq_empty in E as [_ ?].
Qed.

Lemma column_ends k v : ∃ a, column k v = a +:+ dquote.
Proof. exists (k +:+ "=" +:+ dquote +:+ v). unfold column, quoted, dquote. by rewrite !app_assoc_s. Qed.

(** The output starts with a letter, ends with a quote and a line end. *)
Lemma trim_output ds :
  ds ≠ [] → TrimSpace (lsblk_output ds) = Join (lsblk_line <$> ds) (String "010" "").
Proof.
  intros Hne. unfold lsblk_output, TrimSpace, Trim.
  assert (∃ s, Join (lsblk_line <$> ds) (String "010" "") = String "N" s) as [s Hs].
  { destruct ds as [|d ds]; [done|]. destruct ds as [|d' ds]; by eexists. }
  assert (∃ a, Join (lsblk_line <$> ds) (String "010" "") = a +:+ dquote) as [a Ha].
  { apply Join_ends; [by destruct ds|]. apply Forall_fmap, Forall_true. intros d. apply Join_ends; [done|].
    repeat constructor; apply column_ends. }
  rewrite Hs at 1. simpl TrimLeft. change (String "N" (s +:+ String "010" "")) with (String "N" s +:+ String "010" "").
  rewrite <- Hs, Ha. rewrite app_assoc_s. by apply TrimRight_onto.
Qed.

(** The last line of a path counts. *)
Definition last_of (path : string) (ds : list device) (d : device) : Prop :=
  ∃ before after, ds = before ++ d :: after ∧ dev_path d = path ∧ path ∉ dev_path <$> after.

Lemma insert_all ds (m : gmap string Drive) path dr :
  foldl (λ m d, <[dev_path d := drive_of d]> m) m ds !! path = Some dr ↔
  (∃ d, last_of path ds d ∧ dr = drive_of d) ∨ path ∉ dev_path <$> ds ∧ m !! path = Some dr.
Proof.
  revert m. induction ds as [|d ds IH] using rev_ind; intros m; simpl.
  - split; [intros Hm; right; split; [apply not_elem_of_nil|done]|].
    intros [(d & (before & after & Hn & _) & _)|[_ ?]]; [|done]. by destruct before.
  - rewrite foldl_app. simpl. rewrite fmap_app, not_elem_of_app, lookup_insert_Some, IH. simpl.
    rewrite list_elem_of_singleton. split.
    + intros [[Hp <-]|[Hp [(x & (before & after & -> & Hx & Ha) & ->)|[Hn Hm]]]].
      * left. exists d. split; [|done]. exists ds, []. by split_and!; [..|apply not_elem_of_nil].
      * left. exists x. split; [|done]. exists before, (after ++ [d]). rewrite <- app_assoc. split_and!; [done..|].
        rewrite fmap_app, not_elem_of_app. simpl. by rewrite list_elem_of_singleton.
      * by right.
    + intros [(x & (before & after & He & Hx & Ha) & ->)|[[Hn Hne] Hm]]; [|right; split; [done|by right]].
      destruct after as [|y after _] using rev_ind.
      * apply app_inj_tail in He as [-> ->]. left. done.
      * rewrite app_comm_cons, app_assoc in He. apply app_inj_tail in He as [-> ->].
        rewrite fmap_app, not_elem_of_app in Ha. simpl in Ha. rewrite list_elem_of_singleton in Ha.
        destruct Ha as [Ha Hne]. right. split; [done|]. left. exists x. split; [|done]. by exists before, after.
Qed.

Section drives.
Context {W : Type} `{SchedWorld W} `{!SshWorld W} `{K8sClient W} `{SpecFiles} `{K8sCreateApi W}.
Context `{K8sCsiApi W} `{K8sNodeApi W} `{K8sOpsApi W} `{SshApi W}.

(** C21. When lsblk lists at least one device, no value has white space or an equals sign in
    it, and no label has a comma or is one of Portworx pools ("any:pwx"), the block drives
    that are read from its output are exactly the listed devices, each under its path and
    with its labels, size, mount point, file system and type; of a path that is listed
    several times, as lsblk does for a device below several others, the last line
    counts. *)
Theorem GetBlockDrives_reads n conn ds (w w' : W) :
  0 < Timeout conn → ds ≠ [] → Forall plain_device ds →
  SSH.doCmd n conn SSH.lsblk_command false w = (Ok (lsblk_output ds), w') →
  ∃ drives, SSH.GetBlockDrives n conn w = (Ok drives, w') ∧
    ∀ path dr, drives !! path = Some dr ↔ ∃ d, last_of path ds d ∧ dr = drive_of d.
Proof.
  intros Ht Hne Hds Hc. unfold SSH.GetBlockDrives.
  assert (SSH.cmd_task n conn SSH.lsblk_command false w = (Ok (Done (lsblk_output ds)), w')) as Htask.
  { unfold SSH.cmd_task, attempt. by rewrite Hc. }
  rewrite (bind_Ok _ _ _ w' (lsblk_output ds)).
  - unfold lift. rewrite trim_output by done. rewrite Split_Join; [|by destruct ds|].
    + rewrite read_drives_lines by done. eexists. split; [done|]. intros path dr. rewrite insert_all, lookup_empty.
      naive_solver.
    + apply Forall_fmap. eapply Forall_impl; [done|]. apply line_free.
  - apply wrap_err_Ok. by apply DoRetryWithTimeout_first.
Qed.
End drives.
