(* ===== verification/NodeVsphere.v ===== *)
(** drivers/node/vsphere/vsphere.go: the node driver for virtual machines of vSphere - the
    map from node names to machines, power operations, moving disks between machines and
    disks between datastores.  Commands on a node are those of the ssh driver it embeds.

    The govmomi library is the class [VsphereApi]; the driver's fields and the package's
    map of machines are [VsphereState]. *)

From Stdlib Require Import Ascii.
From S2P Require Import Prelude GoStrings Errors Effects Regexp Strconv Task OpenStorageApi NodeRegistry AutopilotRules SpecFactory PxDriver K8sObjects VolumeDrivers K8sSpecs K8sNodes K8sHelm K8sCreate K8sApps PxExpansion K8sAutopilot K8sCsi SchedOpsK8s NodeSSH.

(** ** Data *)

(** Machines and datastores are known by their references. *)
Record VirtualMachine := { vm_Ref : string; vm_Name : string }.
Record Datastore := { ds_Ref : string; ds_Name : string }.

(** The backing of a disk that is a flat file; the datastore is a pointer *)
Record FlatBacking := { FileName : string; b_Datastore : option string; b_Uuid : string }.

(** A disk: the unit number and the description are pointers; the backing may be of
    another type. *)
Record VirtualDisk := {
  disk_Key : Z;
  UnitNumber : option Z;
  CapacityInKB : Z;
  disk_Label : option string;
  disk_Backing : option FlatBacking;
}.

(** A device of a machine is a disk or something else. *)
Definition Device : Type := option VirtualDisk.

(** [VirtualMachineRelocateSpecDiskLocator] *)
Record DiskLocator := { DiskId : Z; loc_Datastore : string }.

(** [node.DriveConfig] and [node.DriveSet], the fields that are read *)
Record DriveConfig := { PXType : string; cfg_Labels : gmap string string }.
Record DriveSet := { Configs : gmap string DriveConfig; set_SchedulerNodeName : string; InstanceID : string }.

Inductive disk_operation := OpAdd | OpRemove.

(** A finder is made for a client and then bound to a datacenter, which may be nil. *)
Record Finder := { f_client : nat; f_dc : option string }.

Record VsphereState := {
  vsphereUsername : string;
  vspherePassword : string;
  vsphereHostIP : string;
  vmMap : gmap string VirtualMachine;
}.

Class VsphereWorld (W : Type) := {
  vs : W → VsphereState;
  set_vs : VsphereState → W → W;
}.

Class VsphereWorldLaws (W : Type) `{VsphereWorld W} : Prop := {
  vs_set_vs : ∀ s w, vs (set_vs s w) = s;
}.

(** The calls of the library.  The properties of a machine are the host name of its guest,
    the addresses of its networks and its devices, each behind a pointer; those of a
    datastore its capacity and free space, and the type and reference of its parent.
    [sort_Slice] is [sort.Slice] with the function that compares, which need not be stable;
    [range_sets] and [range_configs] are Go's orders of the maps. *)
Class VsphereApi (W : Type) := {
  url_Parse : string → outcome string;
  govmomi_NewClient : string → M W nat;
  DefaultDatacenter : nat → M W (option string * option error);
  DatacenterList : nat → M W (list string);
  VirtualMachineList : Finder → M W (list VirtualMachine);
  finder_VirtualMachine : Finder → string → M W VirtualMachine;
  finder_Datastore : Finder → string → M W Datastore;
  DatastoreList : Finder → M W (list Datastore);
  guest_HostName : VirtualMachine → M W (option string);
  guest_Net : VirtualMachine → M W (option (list (list string)));
  config_hardware : VirtualMachine → M W (option (list Device));
  vm_UUID : VirtualMachine → M W string;
  vm_Device : VirtualMachine → M W (list Device);
  PowerState : VirtualMachine → M W string;
  PowerOn : VirtualMachine → M W nat;
  PowerOff : VirtualMachine → M W nat;
  vm_Destroy : VirtualMachine → M W nat;
  WaitForResult : nat → M W unit;
  RebootGuest : VirtualMachine → M W unit;
  ShutdownGuest : VirtualMachine → M W unit;
  RemoveDevice : VirtualMachine → bool → VirtualDisk → M W unit;
  Reconfigure : VirtualMachine → disk_operation → VirtualDisk → M W nat;
  Relocate : VirtualMachine → list DiskLocator → M W nat;
  task_Wait : nat → M W unit;
  ds_summary : Datastore → M W (Z * Z);
  ds_parent : Datastore → M W (option (string * string));
  sort_Slice : (VirtualDisk → VirtualDisk → bool) → list VirtualDisk → list VirtualDisk;
  range_sets : gmap string DriveSet → list DriveSet;
  range_configs : gmap string DriveConfig → list (string * DriveConfig);
  show_vm : VirtualMachine → string;
}.

Definition vsphereUname : string := "VSPHERE_USER".
Definition vspherePwd : string := "VSPHERE_PWD".
Definition vsphereIP : string := "VSPHERE_HOST_IP".
Definition vsphereDatacenter : string := "VSPHERE_DATACENTER".
Definition VMReadyTimeout : Z := 3 * Minute.
Definition VMReadyRetryInterval : Z := 5 * Second.

Module Vsphere.

(** ** Paths and identifiers *)

(** [filepath.Ext]: from the last dot of the last element *)
Definition ext_loop : string → option string := fix loop s :=
  match s with
  | "" => None
  | String c s' =>
      match loop s' with
      | Some e => Some e
      | None => if Ascii.eqb c "." && negb (Contains s' "/") then Some s else None
      end
  end.

Definition Ext (path : string) : string := default "" (ext_loop path).

(** [strings.TrimSuffix(path, filepath.Ext(path))] *)
Definition without_ext (path : string) : string :=
  String.substring 0 (String.length path - String.length (Ext path)) path.

Definition matchVirtualDiskAndVolPath (diskPath volPath : string) : bool :=
  bool_decide (without_ext diskPath = without_ext volPath).

Definition GetDatastore (configs : DriveConfig) : string := default "" (cfg_Labels configs !! "datastore").

(** The datastore in the brackets of a path is replaced by the one of the labels. *)
Definition disk_path (vmdkPath : string) (configs : DriveConfig) : outcome string :=
  substring ← SSH.slice vmdkPath (SSH.Index vmdkPath "[" + 1) (SSH.Index vmdkPath "]");
  Ok (replace_first vmdkPath substring (GetDatastore configs)).

Fixpoint disk_paths (l : list (string * DriveConfig)) : outcome (list string) :=
  match l with
  | [] => Ok []
  | (vmdkPath, configs) :: l' =>
      if decide (PXType configs = "data") then
        p ← disk_path vmdkPath configs;
        rest ← disk_paths l';
        Ok (p :: rest)
      else disk_paths l'
  end.

(** The standard form of the identifier of a disk *)
Definition format_uuid (diskUUID : string) : outcome string :=
  let u := ReplaceAll (ReplaceAll diskUUID " " "") "-" "" in
  if decide (String.length u ≠ 32%nat)
  then Err (Errorf ("invalid UUID length.Expected UUID to be of length 32bytes, got " +:+
                    Itoa (Z.of_nat (String.length u)) +:+ ": " +:+ u))
  else Ok (ToLower (String.substring 0 8 u +:+ "-" +:+ String.substring 8 4 u +:+ "-" +:+ String.substring 12 4 u +:+
                    "-" +:+ String.substring 16 4 u +:+ "-" +:+ String.substring 20 12 u)).

(** ** Disks *)

(** The disks of the devices of a machine *)
Definition disks_of (devices : list Device) : list VirtualDisk := omap id devices.

(** The disks that are not the root disk: the unit number is read through its pointer. *)
Definition is_root (d : VirtualDisk) : outcome bool := u ← deref (UnitNumber d); Ok (bool_decide (u = 0)).

(** The locators of the disks on one of the datastores, the largest disk first; the
    datastore of a flat backing is read through its pointer. *)
Fixpoint on_datastores (refs : list string) (devices : list Device) : outcome (list VirtualDisk) :=
  match devices with
  | [] => Ok []
  | Some disk :: devices' =>
      match disk_Backing disk with
      | Some backing =>
          ref ← deref (b_Datastore backing);
          rest ← on_datastores refs devices';
          Ok (if decide (ref ∈ refs) then disk :: rest else rest)
      | None => on_datastores refs devices'
      end
  | None :: devices' => on_datastores refs devices'
  end.

Definition locator (disk : VirtualDisk) : option DiskLocator :=
  backing ← disk_Backing disk;
  ref ← b_Datastore backing;
  Some {| DiskId := disk_Key disk; loc_Datastore := ref |}.

(** A machine may hold more than 90 per cent of a datastore neither before nor after. *)
Definition int64_div (a b : Z) : Z := Z.quot a b.

Definition total_size (devices : list Device) : Z := foldl (λ t d, t + CapacityInKB d) 0 (disks_of devices).

Definition has_space (capacity free total : Z) : bool :=
  let availableSpace := int64_div free 1024 in
  let spaceAfterMove := availableSpace - total in
  let maxAllowedUsage := int64_div (int64_div capacity 1024 * 90) 100 in
  let usedSpace := int64_div capacity 1024 - availableSpace in
  negb (bool_decide (spaceAfterMove < 0) || bool_decide (usedSpace + total > maxAllowedUsage)).

(** Clusters are nil or the reference of a storage pod. *)
Definition other_cluster (source target : option string) : bool :=
  match source, target with
  | Some s, Some t => negb (bool_decide (s = t))
  | _, _ => true
  end.

Section vsphere.
Context {W : Type} `{SchedWorld W} `{!SshWorld W} `{K8sClient W} `{SpecFiles} `{K8sCreateApi W} `{K8sCsiApi W}.
Context `{K8sNodeApi W} `{K8sOpsApi W} `{SshApi W} `{VsphereWorld W} `{VsphereApi W}.

Definition get_vs : M W VsphereState := λ w, (Ok (vs w), w).

Definition modify_vs (f : VsphereState → VsphereState) : M W unit := λ w, (Ok tt, set_vs (f (vs w)) w).

Definition set_vmMap (m : gmap string VirtualMachine) (s : VsphereState) : VsphereState :=
  {| vsphereUsername := vsphereUsername s; vspherePassword := vspherePassword s; vsphereHostIP := vsphereHostIP s;
     vmMap := m |}.

(** ** Connecting *)

Definition pick_datacenter (client : nat) : M W (option string) :=
  '(dc, err) ← DefaultDatacenter client;
  _ ← (match err with
       | Some e =>
           if Contains (Error e) "default datacenter resolves to multiple instances" then mret tt
           else throw (Errorf ("Failed to find data center: " +:+ Error e))
       | None => mret tt
       end);
  match dc with
  | Some _ => mret dc
  | None =>
      let vcDatacenter := Getenv vsphereDatacenter in
      if decide (vcDatacenter = "")
      then throw (Errorf "default datacenter resolves to multiple instances. please pass env variable VSPHERE_DATACENTER")
      else dcList ← DatacenterList client; mret (find_first (λ dc, bool_decide (dc = vcDatacenter)) dcList)
  end.

Definition getVMFinder : M W Finder :=
  v ← get_vs;
  let login := "https://" +:+ vsphereUsername v +:+ ":" +:+ vspherePassword v +:+ "@" +:+ vsphereHostIP v +:+ "/sdk" in
  u ← wrap_err (λ _, Errorf ("error parsing url " +:+ login)) (lift (url_Parse login));
  c ← wrap_err (λ err, Errorf ("logging in error: " +:+ Error err)) (govmomi_NewClient u);
  dc ← pick_datacenter c;
  mret {| f_client := c; f_dc := dc |}.

(** A machine that is being deleted or created is passed over. *)
Definition half_created : string := "has already been deleted or has not been completely created".

Definition add_vm (names : list string) (vm : VirtualMachine) (hostname : string) : M W unit :=
  if decide (hostname ∈ names)
  then modify_vs (λ s, match vmMap s !! hostname with
                       | Some _ => s
                       | None => set_vmMap (<[hostname := vm]> (vmMap s)) s
                       end)
  else mret tt.

Fixpoint fill_vmMap (names : list string) (vms : list VirtualMachine) : M W unit :=
  match vms with
  | [] => mret tt
  | vm :: vms' =>
      attempt (guest_HostName vm) (λ r,
        match r with
        | inr err => if Contains (Error err) half_created then fill_vmMap names vms' else throw err
        | inl guest =>
            hostname ← lift (deref guest);
            _ ← (if decide (hostname = "") then mret tt else add_vm names vm hostname);
            fill_vmMap names vms'
        end)
  end.

Definition no_machines (err : error) : M W unit :=
  v ← get_vs; throw (Errorf ("failed to find any virtual machines on " +:+ vsphereHostIP v +:+ ": " +:+ Error err)).

Definition connect : M W unit :=
  f ← getVMFinder;
  _ ← modify_vs (set_vmMap ∅);
  attempt (VirtualMachineList f) (λ r,
    match r with
    | inr err => no_machines err
    | inl vms =>
        nodes ← range_nodes;
        if decide (nodes = []) then throw (Errorf "nodes not found")
        else fill_vmMap (Name <$> nodes) vms
    end).

Context (volumes : VolumePackage) `{!SpecSource (O := nat)} `{K8sAutopilotApi W}.

Definition Init (specDir : string) : M W unit :=
  let username := Getenv vsphereUname in
  let password := Getenv vspherePwd in
  let ip := Getenv vsphereIP in
  _ ← modify_vs (λ s, {| vsphereUsername := SSH.non_empty username DefaultUsername; vspherePassword := password;
                         vsphereHostIP := vsphereHostIP s; vmMap := vmMap s |});
  if decide (password = "") then throw (Errorf ("Vsphere password not provided as env var: " +:+ vspherePwd)) else
  _ ← modify_vs (λ s, {| vsphereUsername := vsphereUsername s; vspherePassword := vspherePassword s;
                         vsphereHostIP := ip; vmMap := vmMap s |});
  if decide (ip = "") then throw (Errorf ("Vsphere host IP not provided as env var: " +:+ vsphereIP)) else
  _ ← connect;
  SSH.Init volumes specDir.

(** The machine of a name after connecting *)
Definition lookup_vm (name : string) : M W (option VirtualMachine) := v ← get_vs; mret (vmMap v !! name).

Definition vm_of (name msg : string) : M W VirtualMachine :=
  vm ← lookup_vm name;
  match vm with
  | Some vm => mret vm
  | None => throw (Errorf msg)
  end.

Definition poweredOn : string := "poweredOn".

Definition powered_task (n : Node) (vm : VirtualMachine) : M W (task_result unit) :=
  let failed state err := NodeErr NdErrFailedToTestConnection (Name n)
    ("Failed to test connection to VM: " +:+ vm_Name vm +:+ " Current Status: " +:+ state +:+ ", error: " +:+ err) in
  attempt (PowerState vm) (λ r,
    mret (match r with
          | inr err => Retry (failed "" (Error err))
          | inl state => if decide (state = poweredOn) then Done tt else Retry (failed state "<nil>")
          end)).

Definition TestConnection (n : Node) : M W unit :=
  _ ← connect;
  first ← lookup_vm (Name n);
  _ ← (match first with
       | Some _ => mret tt
       | None => _ ← pause (2 * Minute); connect
       end);
  vm ← vm_of (Name n) ("Failed to get VM: " +:+ Name n);
  _ ← DoRetryWithTimeout (powered_task n vm) VMReadyTimeout VMReadyRetryInterval;
  _ ← SSH.RunCommand n "hostname" (conn_opts VMReadyTimeout VMReadyRetryInterval);
  mret tt.

(** [AddMachine] *)
Definition AddMachine (vmName : string) : M W unit :=
  f ← getVMFinder;
  vm ← finder_VirtualMachine f vmName;
  guest ← guest_HostName vm;
  match guest with
  | None => throw (Errorf ("failed to find guest info for virtual machine " +:+ vmName))
  | Some hostname =>
      if decide (hostname = "")
      then throw (Errorf ("Failed to find hostname for  virtual machine on " +:+ vm_Name vm +:+ ": <nil>"))
      else modify_vs (λ s, set_vmMap (<[hostname := vm]> (vmMap s)) s)
  end.

(** ** Power *)

Definition could_not_fetch (name what : string) : string := "could not fetch VM for node: " +:+ name +:+ what.

Definition RebootNode (n : Node) : M W unit :=
  _ ← connect;
  vm ← vm_of (Name n) (could_not_fetch (Name n) "");
  wrap_err (λ err, NodeErr NdErrFailedToRebootNode (Name n)
      ("failed to reboot VM " +:+ vm_Name vm +:+ ". cause " +:+ Error err)) (RebootGuest vm).

Definition powerOnVM (vm : VirtualMachine) : M W unit :=
  powerState ← PowerState vm;
  if decide (powerState = poweredOn) then mret tt else
  tsk ← wrap_err (λ err, Errorf ("failed to power on " +:+ vm_Name vm +:+ ": " +:+ Error err)) (PowerOn vm);
  wrap_err (λ err, Errorf ("failed to power on VM " +:+ vm_Name vm +:+ ". cause " +:+ Error err)) (WaitForResult tsk).

Definition PowerOnVM (n : Node) : M W unit :=
  _ ← connect;
  vm ← vm_of (Name n) (could_not_fetch (Name n) " to power on");
  wrap_err (λ err, NodeErr NdErrFailedToRebootNode (Name n)
      ("failed to power on VM " +:+ vm_Name vm +:+ ". cause " +:+ Error err)) (powerOnVM vm).

Definition PowerOnVMByName (vmName : string) : M W unit :=
  _ ← connect;
  found ← lookup_vm vmName;
  _ ← (match found with Some _ => mret tt | None => AddMachine vmName end);
  vm ← vm_of vmName (could_not_fetch vmName " to power on");
  powerOnVM vm.

Definition PowerOffVM (n : Node) : M W unit :=
  _ ← connect;
  vm ← vm_of (Name n) (could_not_fetch (Name n) " to power off");
  tsk ← wrap_err (λ err, Errorf ("Failed to power off " +:+ vm_Name vm +:+ ": " +:+ Error err)) (PowerOff vm);
  wrap_err (λ err, NodeErr NdErrFailedToShutdownNode (Name n)
      ("failed to power off  VM " +:+ vm_Name vm +:+ ". cause " +:+ Error err)) (WaitForResult tsk).

Definition DestroyVM (n : Node) : M W unit :=
  _ ← connect;
  vm ← vm_of (Name n) (could_not_fetch (Name n) " to destroy");
  tsk ← wrap_err (λ err, Errorf ("Failed to destroy " +:+ vm_Name vm +:+ ": " +:+ Error err)) (vm_Destroy vm);
  wrap_err (λ err, NodeErr NdErrFailedToDeleteNode (Name n)
      ("failed to destroy VM " +:+ vm_Name vm +:+ ". cause " +:+ Error err)) (WaitForResult tsk).

(** The second test of the map cannot fail after the first. *)
Definition ShutdownNode (n : Node) : M W unit :=
  _ ← connect;
  vm ← vm_of (Name n) ("Could not fetch VM for node: " +:+ Name n);
  wrap_err (λ err, NodeErr NdErrFailedToShutdownNode (Name n)
      ("failed to shutdown VM " +:+ vm_Name vm +:+ ". cause " +:+ Error err)) (ShutdownGuest vm).

Definition GetSupportedDriveTypes : list string := ["thin"; "zeroedthick"; "eagerzeroedthick"; "lazyzeroedthick"].

(** ** Disks of a machine *)

(** [Reconfigure] with one change of a device, and waiting for it; the label of the disk
    is logged through the pointer to its description. *)
Definition change_disk (op : disk_operation) (vm : VirtualMachine) (disk : VirtualDisk) : M W unit :=
  _ ← lift (deref (disk_Label disk));
  event ← Reconfigure vm op disk;
  task_Wait event.

(** The first loop of [MoveDisks] detaches the disks as it meets them. *)
Fixpoint detach_disks (vm : VirtualMachine) (devices : list Device) : M W (list VirtualDisk) :=
  match devices with
  | [] => mret []
  | None :: devices' => detach_disks vm devices'
  | Some disk :: devices' =>
      root ← lift (is_root disk);
      if (root : bool) then detach_disks vm devices'
      else _ ← change_disk OpRemove vm disk;
           rest ← detach_disks vm devices';
           mret (disk :: rest)
  end.

Definition MoveDisks (sourceNode targetNode : Node) : M W unit :=
  _ ← connect;
  sourceVM ← vm_of (Name sourceNode) (could_not_fetch (Name sourceNode) "");
  targetVM ← vm_of (Name targetNode) (could_not_fetch (Name targetNode) "");
  devices ← vm_Device sourceVM;
  disks ← detach_disks sourceVM devices;
  for_each (change_disk OpAdd targetVM) disks.

Fixpoint remove_disks (vm : VirtualMachine) (devices : list Device) : M W unit :=
  match devices with
  | [] => mret tt
  | None :: devices' => remove_disks vm devices'
  | Some disk :: devices' =>
      root ← lift (is_root disk);
      _ ← (if (root : bool) then mret tt else _ ← lift (deref (disk_Label disk)); RemoveDevice vm false disk);
      remove_disks vm devices'
  end.

Definition RemoveNonRootDisks (n : Node) : M W unit :=
  _ ← connect;
  vm ← vm_of (Name n) (could_not_fetch (Name n) "");
  devices ← vm_Device vm;
  remove_disks vm devices.

Fixpoint vm_with_uuid (uuid : string) (vms : list VirtualMachine) : M W (option VirtualMachine) :=
  match vms with
  | [] => mret None
  | vm :: vms' =>
      u ← vm_UUID vm;
      if decide (u = uuid) then mret (Some vm) else vm_with_uuid uuid vms'
  end.

(** The last device whose file has the path is taken. *)
Definition device_at (path : string) (devices : list Device) : option VirtualDisk :=
  foldl (λ sel d, match disk_Backing d with
                  | Some b => if matchVirtualDiskAndVolPath (FileName b) path then Some d else sel
                  | None => sel
                  end) None (disks_of devices).

Definition DetachDisk (vmUuid path : string) : M W unit :=
  f ← getVMFinder;
  _ ← modify_vs (set_vmMap ∅);
  attempt (VirtualMachineList f) (λ r,
    match r with
    | inr err => no_machines err
    | inl vms =>
        found ← vm_with_uuid vmUuid vms;
        match found with
        | None => throw (Errorf "Virtual machine not found")
        | Some vmMo =>
            deviceList ← wrap_err (λ err, Errorf ("Failed to get the devices for VM: " +:+ quoted (show_vm vmMo) +:+
                                                  ". err: " +:+ Error err)) (vm_Device vmMo);
            match device_at path deviceList with
            | Some selected => RemoveDevice vmMo true selected
            | None => throw (Errorf ("No device selected for VM: " +:+ quoted (show_vm vmMo)))
            end
        end
    end).

Definition GetDiskPaths (driveset : DriveSet) : outcome (list string) := disk_paths (range_configs (Configs driveset)).

Definition detach_set (nodeName : string) (s : DriveSet) : M W unit :=
  if decide (nodeName = set_SchedulerNodeName s) then
    allDiskPaths ← lift (GetDiskPaths s);
    for_each (λ p, wrap_err (λ err, Errorf ("Detaching disk: " +:+ p +:+ " on node " +:+ nodeName +:+ " failed: " +:+
                                            Error err)) (DetachDisk (InstanceID s) p)) allDiskPaths
  else mret tt.

Definition DetachDrivesFromVM (nodeName : string) (configData : gmap string DriveSet) : M W unit :=
  for_each (detach_set nodeName) (range_sets configData).

(** ** Datastores *)

Definition GetDatastoresFromDatacenter : M W (list Datastore) :=
  finder ← wrap_err (λ err, Errorf ("Failed to find  getVMFinder err:: " +:+ Error err)) getVMFinder;
  wrap_err (λ err, Errorf ("Failed to get all the datastores. err: " +:+ Error err)) (DatastoreList finder).

Definition GetCompatibleDatastores (prefixName : string) (datastoreNames : list string) : M W (list Datastore) :=
  datastores ← GetDatastoresFromDatacenter;
  if decide (prefixName = "") then throw (Errorf "Failed to find VSPHERE_DATASTORE_PREFIX  prefix ") else
  match keep (λ ds, HasPrefix (ds_Name ds) prefixName) datastores with
  | [] => throw (Errorf ("All datastores are not available, available are  [] , but expected are : " +:+
                         show_strings datastoreNames))
  | selected => mret selected
  end.

Definition getDatastoreCluster (ds : Datastore) : M W (option string) :=
  parent ← wrap_err (λ err, Errorf ("failed to get properties for datastore: " +:+ Error err)) (ds_parent ds);
  mret (match parent with
        | Some (ty, ref) => if decide (ty = "StoragePod") then Some ref else None
        | None => None
        end).

(** One datastore: whether it can take the disks.  Errors pass it over. *)
Definition suitable (sourceCluster : option string) (source : string) (total : Z) (ds : Datastore) : M W bool :=
  if decide (ds_Ref ds = source) then mret false else
  attempt (getDatastoreCluster ds) (λ r,
    match r with
    | inr _ => mret false
    | inl targetCluster =>
        attempt (ds_summary ds) (λ r',
          mret (match r' with
                | inr _ => false
                | inl (capacity, free) => has_space capacity free total && other_cluster sourceCluster targetCluster
                end))
    end).

Fixpoint filter_datastores (keep_one : Datastore → M W bool) (l : list Datastore) : M W (list Datastore) :=
  match l with
  | [] => mret []
  | ds :: l' =>
      b ← keep_one ds;
      rest ← filter_datastores keep_one l';
      mret (if (b : bool) then ds :: rest else rest)
  end.

Definition filterTargetDatastores (source : Datastore) (allDatastores : list Datastore) (devices : list Device)
    : M W (list Datastore) :=
  sourceCluster ← getDatastoreCluster source;
  filtered ← filter_datastores (suitable sourceCluster (ds_Ref source) (total_size devices)) allDatastores;
  match filtered with
  | [] => throw (Errorf "no suitable datastores found that meet the space requirements")
  | _ => mret filtered
  end.

(** The function that compares: the largest first *)
Definition larger_first (a b : VirtualDisk) : bool := bool_decide (CapacityInKB a > CapacityInKB b).

Definition findLargestDisksOnDatastores (devices : list Device) (datastores : list Datastore) : outcome (list DiskLocator) :=
  disks ← on_datastores (ds_Ref <$> datastores) devices;
  Ok (omap locator (sort_Slice larger_first disks)).

(** The datastore with the most free space among several; one that cannot be read is
    passed over. *)
Fixpoint most_space (l : list Datastore) (best : option Datastore) (maxAvailableSpace : Z) : M W (option Datastore) :=
  match l with
  | [] => mret best
  | ds :: l' =>
      attempt (ds_summary ds) (λ r,
        match r with
        | inl (_, available) =>
            if decide (available > maxAvailableSpace) then most_space l' (Some ds) available
            else most_space l' best maxAvailableSpace
        | inr _ => most_space l' best maxAvailableSpace
        end)
  end.

Definition initiateStorageVmotion (vm : VirtualMachine) (diskLocators : list DiskLocator) (target : Datastore) : M W unit :=
  vcTask ← wrap_err (λ err, Errorf ("error initiating VM relocate: " +:+ Error err))
             (Relocate vm ((λ l, {| DiskId := DiskId l; loc_Datastore := ds_Ref target |}) <$> diskLocators));
  task_Wait vcTask.

Fixpoint vm_with_ip (addrs : list string) (vms : list VirtualMachine) : M W (option VirtualMachine) :=
  match vms with
  | [] => mret None
  | vm :: vms' =>
      attempt (guest_Net vm) (λ r,
        match r with
        | inr _ => vm_with_ip addrs vms'
        | inl guest =>
            nets ← lift (deref guest);
            if existsb (λ ip, bool_decide (ip ∈ addrs)) (concat nets) then mret (Some vm) else vm_with_ip addrs vms'
        end)
  end.

Definition FindVMByIP (n : Node) : M W VirtualMachine :=
  finder ← wrap_err (λ err, Errorf ("failed to get VM finder: " +:+ Error err)) getVMFinder;
  vms ← wrap_err (λ err, Errorf ("failed to retrieve VM list: " +:+ Error err)) (VirtualMachineList finder);
  found ← vm_with_ip (Addresses n) vms;
  match found with
  | Some vm => mret vm
  | None => throw (Errorf ("no VM found with the given IP addresses: " +:+ show_strings (Addresses n)))
  end.

(** The devices are read through the pointer to the configuration after the datastores
    were listed; the labels and datastores of the disks are read, and not used. *)
Definition read_original (disk : VirtualDisk) : outcome unit :=
  match disk_Label disk, disk_Backing disk with
  | Some _, Some backing => _ ← deref (b_Datastore backing); Ok tt
  | _, _ => Ok tt
  end.

Fixpoint read_originals (l : list VirtualDisk) : outcome unit :=
  match l with
  | [] => Ok tt
  | d :: l' => _ ← read_original d; read_originals l'
  end.

Definition target_of (targetDatastores : list Datastore) : M W Datastore :=
  target ← (match targetDatastores with
            | [ds] => mret (Some ds)
            | _ => most_space targetDatastores None (-1)
            end);
  match target with
  | Some ds => mret ds
  | None => throw (Errorf "failed to select a target datastore")
  end.

Definition StorageVmotion (n : Node) (datastorePrefix : string) (moveAllDisks : bool) : M W Datastore :=
  vm ← wrap_err (λ err, Errorf ("error retrieving VM: " +:+ Error err)) (FindVMByIP n);
  hw ← wrap_err (λ err, Errorf ("error retrieving VM properties: " +:+ Error err)) (config_hardware vm);
  compatible ← wrap_err (λ err, Errorf ("error retrieving compatible datastores: " +:+ Error err))
                 (GetCompatibleDatastores datastorePrefix []);
  devices ← lift (deref hw);
  _ ← lift (read_originals (disks_of devices));
  largestDisks ← lift (findLargestDisksOnDatastores devices compatible);
  match largestDisks with
  | [] => throw (Errorf "no large disks found on specified prefix datastores")
  | largest :: _ =>
      let source := {| ds_Ref := loc_Datastore largest; ds_Name := "" |} in
      targets ← wrap_err (λ err, Errorf ("error filtering target datastores: " +:+ Error err))
                  (filterTargetDatastores source compatible devices);
      target ← target_of targets;
      let failed err := Errorf ("error during storage vMotion: " +:+ Error err) in
      if (moveAllDisks : bool) then
        match disks_of devices with
        | [] => throw (Errorf "no disks found on the VM")
        | disks =>
            _ ← wrap_err failed (initiateStorageVmotion vm
                  ((λ d, {| DiskId := disk_Key d; loc_Datastore := default "" (ds_Ref <$> head targets) |}) <$> disks) target);
            _ ← pause (1 * Minute);
            mret target
        end
      else _ ← wrap_err failed (initiateStorageVmotion vm [largest] target); mret target
  end.

Definition uuid_of_path (vmdkPath : string) (devices : list Device) : string :=
  default "" (find_first (λ _, true)
    (omap (λ d, match disk_Backing d with
                | Some b => if decide (FileName b = vmdkPath) then Some (b_Uuid b) else None
                | None => None
                end) (disks_of devices))).

Definition GetUUIDFromVMDKPath (n : Node) (vmdkPath : string) : M W string :=
  vm ← wrap_err (λ err, Errorf ("error retrieving VM: " +:+ Error err)) (FindVMByIP n);
  hw ← wrap_err (λ err, Errorf ("error retrieving VM properties: " +:+ Error err)) (config_hardware vm);
  devices ← lift (deref hw);
  let diskUUID := uuid_of_path vmdkPath devices in
  if decide (diskUUID = "")
  then throw (Errorf ("failed to find UUID for disk " +:+ vmdkPath +:+ " on node " +:+ VolDriverNodeID n))
  else lift (format_uuid diskUUID).

Definition FindVMByName (vmName : string) : M W VirtualMachine :=
  finder ← getVMFinder;
  wrap_err (λ err, Errorf ("failed to find VM: " +:+ Error err)) (finder_VirtualMachine finder vmName).

Definition FindDatastoreByName (dsName : string) : M W Datastore :=
  finder ← getVMFinder;
  wrap_err (λ err, Errorf ("failed to find datastore: " +:+ Error err)) (finder_Datastore finder dsName).
End vsphere.
End Vsphere.
