(* ===== verification/NodeVsphereProps.v ===== *)
(** Properties of the vSphere node driver (NodeVsphere): what the map of machines holds, that
    moving disks moves them all and none else, and where a disk goes that is moved to another
    datastore. *)

From Stdlib Require Import Ascii Sorting.Sorted.
From S2P Require Import Prelude GoStrings Errors Effects Regexp Strconv Task OpenStorageApi NodeRegistry AutopilotRules SpecFactory PxDriver K8sObjects VolumeDrivers K8sSpecs K8sNodes K8sHelm K8sCreate K8sApps K8sCsi SchedOpsK8s NodeSSH NodeVsphere.

(** A function that [sort.Slice] can sort by: a strict weak ordering *)
Definition strict_weak {A} (less : A → A → bool) : Prop :=
  (∀ a b, less a b = true → less b a = false) ∧
  (∀ a b c, less b a = false → less c b = false → less c a = false).

(** [sort.Slice] permutes the disks, and leaves none before one that is less. *)
Class DiskSortLaws (W : Type) `{VsphereApi W} : Prop := {
  sort_Slice_perm : ∀ less l, sort_Slice less l ≡ₚ l;
  sort_Slice_sorted : ∀ less l, strict_weak less → StronglySorted (λ a b, less b a = false) (sort_Slice less l);
}.

Section machines.
Context {W : Type} `{SchedWorld W} `{!SshWorld W} `{K8sClient W} `{SpecFiles} `{K8sCreateApi W} `{K8sCsiApi W}.
Context `{K8sNodeApi W} `{K8sOpsApi W} `{SshApi W} `{VsphereWorld W} `{VsphereApi W}.

(** *** The map of machines *)

(** A machine that showed the name as the host name of its guest *)
Definition answers_to (name : string) (vm : VirtualMachine) : Prop :=
  ∃ w1 w2 : W, guest_HostName vm w1 = (Ok (Some name), w2).

Definition known_machines (names : list string) (w : W) : Prop :=
  ∀ name vm, vmMap (vs w) !! name = Some vm → name ∈ names ∧ name ≠ "" ∧ answers_to name vm.

(** The calls of the library leave the map alone. *)
Definition keeps_map {A} (m : M W A) : Prop := ∀ w, vs (m w).2 = vs w.

Context `{!VsphereWorldLaws W}.
Hypothesis guest_keeps : ∀ vm, keeps_map (guest_HostName vm).
Hypothesis list_keeps : ∀ f, keeps_map (VirtualMachineList f).
Hypothesis nodes_keep : keeps_map (range_nodes (W := W)).

Lemma add_vm_known names vm host (w : W) :
  known_machines names w → host ≠ "" → answers_to host vm → known_machines names (Vsphere.add_vm names vm host w).2.
Proof.
  intros Hk Hne Ha. unfold Vsphere.add_vm. case_decide as Hin; [|done]. unfold Vsphere.modify_vs, known_machines. simpl.
  rewrite vs_set_vs. destruct (vmMap (vs w) !! host) eqn:E; [done|]. simpl. intros name vm'.
  destruct (decide (name = host)) as [->|Hn]; [rewrite lookup_insert_eq; by intros [= <-]|].
  rewrite lookup_insert_ne by done. apply Hk.
Qed.

Lemma fill_vmMap_known names vms (w : W) :
  known_machines names w → known_machines names (Vsphere.fill_vmMap names vms w).2.
Proof.
  revert w. induction vms as [|vm vms IH]; intros w Hk; simpl; [done|]. unfold attempt.
  pose proof (guest_keeps vm w) as Hg. destruct (guest_HostName vm w) as [[[host|]|e|s|] w1] eqn:E; simpl in Hg.
  - assert (known_machines names w1) as Hk1 by (unfold known_machines; by rewrite Hg).
    unfold mbind, M_bind. simpl. case_decide as Hne; simpl; [by apply IH|].
    pose proof (add_vm_known names vm host w1 Hk1 Hne ltac:(by exists w, w1)) as Ha.
    destruct (Vsphere.add_vm names vm host w1) as [[[]|e|s|] w2]; simpl in *; [by apply IH|done..].
  - unfold known_machines. simpl. by rewrite Hg.
  - assert (known_machines names w1) as Hk1 by (unfold known_machines; by rewrite Hg).
    case_match; [by apply IH|done].
  - unfold known_machines. simpl. by rewrite Hg.
  - unfold known_machines. simpl. by rewrite Hg.
Qed.

(** After connecting, successfully or not once the machines were listed, every machine in
    the map is filed under the name of a registered node, and showed that name as the host
    name of its guest: nothing is left of the map from before. *)
Theorem connect_known (w w' : W) :
  Vsphere.connect w = (Ok tt, w') →
  ∃ (nodes : list Node) (w1 w2 : W), range_nodes w1 = (Ok nodes, w2) ∧ nodes ≠ [] ∧ known_machines (Name <$> nodes) w'.
Proof.
  unfold Vsphere.connect. intros (f & w1 & _ & Hc)%bind_Ok_inv. apply bind_Ok_inv in Hc as ([] & w2 & Hm & Hc).
  unfold Vsphere.modify_vs in Hm. injection Hm as <-. unfold attempt in Hc.
  set (w3 := set_vs (Vsphere.set_vmMap ∅ (vs w1)) w1) in *.
  pose proof (list_keeps f w3) as Hl. destruct (VirtualMachineList f w3) as [[vms|e|s|] w4]; simpl in Hl; try done.
  apply bind_Ok_inv in Hc as (nodes & w5 & Hn & Hc). case_decide as Hne; [done|].
  exists nodes, w4, w5. split_and!; try done. pose proof (nodes_keep w4) as Hn'. rewrite Hn in Hn'. simpl in Hn'.
  pose proof (fill_vmMap_known (Name <$> nodes) vms w5) as Hf. rewrite Hc in Hf. apply Hf.
  intros name vm. rewrite Hn', Hl. unfold w3. by rewrite vs_set_vs.
Qed.
End machines.

Section moving.
Context {W : Type} `{SchedWorld W} `{!SshWorld W} `{K8sClient W} `{SpecFiles} `{K8sCreateApi W} `{K8sCsiApi W}.
Context `{K8sNodeApi W} `{K8sOpsApi W} `{SshApi W} `{VsphereWorld W} `{VsphereApi W}.

(** *** Moving disks between machines *)

(** The disks of a machine but for those with unit number zero *)
Definition data_disks (devices : list Device) : list VirtualDisk :=
  keep (λ d, negb (bool_decide (UnitNumber d = Some 0))) (Vsphere.disks_of devices).

Lemma detach_disks_Ok vm devices (w w' : W) disks :
  Vsphere.detach_disks vm devices w = (Ok disks, w') →
  disks = data_disks devices ∧ steps (Vsphere.change_disk OpRemove vm) disks w w'.
Proof.
  revert w disks. induction devices as [|[d|] devices IH]; intros w disks; simpl.
  - unfold mret, M_ret. intros [= <- <-]. split; [done|constructor].
  - unfold Vsphere.is_root. intros (root & w1 & Hr & Hd)%bind_Ok_inv. apply lift_Ok_inv in Hr as [Hr ->].
    unfold data_disks, Vsphere.disks_of. simpl. destruct (UnitNumber d) as [u|]; [|done]. simpl in Hr.
    injection Hr as <-. case_bool_decide as Hu.
    + subst u. by apply IH.
    + rewrite bool_decide_eq_false_2 by congruence. simpl.
      apply bind_Ok_inv in Hd as ([] & w2 & Hc & Hd). apply bind_Ok_inv in Hd as (rest & w3 & Hrest & Hd).
      unfold mret, M_ret in Hd. injection Hd as <- <-. apply IH in Hrest as [-> Hs].
      split; [done|]. by econstructor.
  - apply IH.
Qed.

(** A successful MoveDisks has detached every disk of the source machine but its root disk,
    one after the other, and only then attached the same disks, in the same order, to the
    target machine; each change was waited for. *)
Theorem MoveDisks_success sourceNode targetNode (w w' : W) :
  Vsphere.MoveDisks sourceNode targetNode w = (Ok tt, w') →
  ∃ sourceVM targetVM devices (w1 w2 w3 w4 : W),
    Vsphere.connect w = (Ok tt, w1) ∧
    vmMap (vs w1) !! Name sourceNode = Some sourceVM ∧ vmMap (vs w1) !! Name targetNode = Some targetVM ∧
    vm_Device sourceVM w1 = (Ok devices, w2) ∧
    steps (Vsphere.change_disk OpRemove sourceVM) (data_disks devices) w2 w3 ∧
    steps (Vsphere.change_disk OpAdd targetVM) (data_disks devices) w3 w4 ∧ w' = w4.
Proof.
  assert (∀ name msg vm (v v' : W), Vsphere.vm_of name msg v = (Ok vm, v') → v' = v ∧ vmMap (vs v) !! name = Some vm) as Hof.
  { intros name msg vm v v'. unfold Vsphere.vm_of, Vsphere.lookup_vm. unfold_m. destruct (vmMap (vs v) !! name); naive_solver. }
  unfold Vsphere.MoveDisks. intros ([] & w1 & Hc & Hm)%bind_Ok_inv.
  apply bind_Ok_inv in Hm as (src & w2 & [-> Hs]%Hof & Hm). apply bind_Ok_inv in Hm as (tgt & w3 & [-> Ht]%Hof & Hm).
  apply bind_Ok_inv in Hm as (devices & w4 & Hd & Hm). apply bind_Ok_inv in Hm as (disks & w5 & Hdet & Hm).
  apply detach_disks_Ok in Hdet as [-> Hdet]. apply for_each_Ok in Hm.
  by exists src, tgt, devices, w1, w4, w5, w'.
Qed.

(** *** Moving a disk to another datastore *)

Lemma filter_datastores_elem keep_one l (w w' : W) r ds :
  Vsphere.filter_datastores keep_one l w = (Ok r, w') → ds ∈ r →
  ds ∈ l ∧ ∃ w1 w2 : W, keep_one ds w1 = (Ok true, w2).
Proof.
  revert w r. induction l as [|x l IH]; intros w r; simpl; [unfold mret, M_ret; intros [= <- <-] ?%elem_of_nil; done|].
  intros (b & w1 & Hb & Hr)%bind_Ok_inv. apply bind_Ok_inv in Hr as (rest & w2 & Hrest & Hr).
  unfold mret, M_ret in Hr. injection Hr as <- <-. destruct b.
  - intros [->|Hin]%elem_of_cons; [split; [by left|by eauto]|]. destruct (IH _ _ Hrest Hin). split; [by right|done].
  - intros Hin. destruct (IH _ _ Hrest Hin). split; [by right|done].
Qed.

(** The datastore was read, and has the space and the cluster asked for. *)
Definition can_take (sourceCluster : option string) (total : Z) (ds : Datastore) : Prop :=
  ∃ (w1 w2 w3 w4 : W) cluster capacity free,
    Vsphere.getDatastoreCluster ds w1 = (Ok cluster, w2) ∧ ds_summary ds w3 = (Ok (capacity, free), w4) ∧
    total <= Z.quot free 1024 ∧
    Z.quot capacity 1024 - Z.quot free 1024 + total <= Z.quot (Z.quot capacity 1024 * 90) 100 ∧
    (sourceCluster = None ∨ cluster ≠ sourceCluster).

Lemma suitable_true sourceCluster source total ds (w w' : W) :
  Vsphere.suitable sourceCluster source total ds w = (Ok true, w') → ds_Ref ds ≠ source ∧ can_take sourceCluster total ds.
Proof.
  unfold Vsphere.suitable. case_decide as Hne; [done|]. unfold attempt.
  destruct (Vsphere.getDatastoreCluster ds w) as [[cl|e|s|] w1] eqn:Ec; try done.
  destruct (ds_summary ds w1) as [[[cap free]|e|s|] w2] eqn:Es; try done.
  unfold mret, M_ret. intros [= Hb <-]. apply andb_true_iff in Hb as [Hsp Hoc]. split; [done|].
  unfold Vsphere.has_space, Vsphere.int64_div in Hsp. apply negb_true_iff, orb_false_iff in Hsp as [Hs1 Hs2].
  apply bool_decide_eq_false in Hs1. apply bool_decide_eq_false in Hs2.
  exists w, w1, w1, w2, cl, cap, free. split_and!; try done; try lia.
  destruct sourceCluster as [s|]; [right|by left]. unfold Vsphere.other_cluster in Hoc. destruct cl as [c|]; [|done].
  apply negb_true_iff, bool_decide_eq_false in Hoc. congruence.
Qed.

Lemma most_space_elem l best m (w w' : W) ds :
  Vsphere.most_space l best m w = (Ok (Some ds), w') → ds ∈ l ∨ best = Some ds.
Proof.
  revert best m w. induction l as [|x l IH]; intros best m w; simpl; [unfold mret, M_ret; naive_solver|].
  unfold attempt. destruct (ds_summary x w) as [[[c a]|e|s|] w1]; try done.
  - case_decide; intros [?|?]%IH; simplify_eq; try (left; by right); [left; by left|by right].
  - intros [?|?]%IH; [left; by right|by right].
Qed.

Lemma target_of_elem targets (w w' : W) ds : Vsphere.target_of targets w = (Ok ds, w') → ds ∈ targets.
Proof.
  unfold Vsphere.target_of. intros (t & w1 & Ht & Hr)%bind_Ok_inv. destruct t as [t|]; [|done].
  unfold mret, M_ret in Hr. injection Hr as -> <-.
  assert (∀ l, Vsphere.most_space l None (-1) w = (Ok (Some ds), w1) → ds ∈ l) as Hm.
  { intros l [?|?]%most_space_elem; done. }
  destruct targets as [|x [|y l]]; [by apply Hm| |by apply Hm]. unfold mret, M_ret in Ht. injection Ht as -> <-. by left.
Qed.

Lemma on_datastores_spec refs devices disks d :
  Vsphere.on_datastores refs devices = Ok disks →
  d ∈ disks ↔ d ∈ Vsphere.disks_of devices ∧ ∃ l, Vsphere.locator d = Some l ∧ loc_Datastore l ∈ refs.
Proof.
  revert disks. induction devices as [|[x|] devices IH]; intros disks; simpl.
  - intros [= <-]. rewrite !elem_of_nil. naive_solver.
  - unfold Vsphere.disks_of, Vsphere.locator in *. simpl. destruct (disk_Backing x) as [b|] eqn:Eb; simpl.
    + destruct (b_Datastore b) as [ref|] eqn:Er; [|done]. simpl.
      destruct (Vsphere.on_datastores refs devices) as [rest|?|?|]; try done. unfold mbind, outcome_bind.
      intros [= <-]. specialize (IH rest eq_refl). rewrite elem_of_cons. case_decide as Hin.
      * rewrite elem_of_cons, IH. split; [|naive_solver]. intros [->|[? ?]]; [|naive_solver].
        split; [by left|]. rewrite Eb. simpl. rewrite Er. simpl. by eexists.
      * rewrite IH. split; [naive_solver|]. intros [[->|?] [l [Hl ?]]]; [|naive_solver].
        rewrite Eb in Hl. simpl in Hl. rewrite Er in Hl. simpl in Hl. by simplify_eq.
    + intros Hr. rewrite (IH _ Hr), elem_of_cons. split; [naive_solver|]. intros [[->|?] [l [Hl ?]]]; [|naive_solver].
      by rewrite Eb in Hl.
  - unfold Vsphere.disks_of in *. simpl. apply IH.
Qed.

Context `{!DiskSortLaws W}.

Lemma larger_first_weak : strict_weak Vsphere.larger_first.
Proof. unfold Vsphere.larger_first. split; intros *; rewrite ?bool_decide_eq_true, ?bool_decide_eq_false; lia. Qed.

(** The first locator is that of a largest disk on the datastores. *)
Lemma findLargest_first devices datastores l ls :
  Vsphere.findLargestDisksOnDatastores devices datastores = Ok (l :: ls) →
  ∃ d, d ∈ Vsphere.disks_of devices ∧ Vsphere.locator d = Some l ∧ loc_Datastore l ∈ ds_Ref <$> datastores ∧
    ∀ d' l', d' ∈ Vsphere.disks_of devices → Vsphere.locator d' = Some l' → loc_Datastore l' ∈ ds_Ref <$> datastores →
      CapacityInKB d' <= CapacityInKB d.
Proof.
  unfold Vsphere.findLargestDisksOnDatastores.
  destruct (Vsphere.on_datastores _ devices) as [disks|?|?|] eqn:Eo; try done. unfold mbind, outcome_bind. intros [= Hl].
  pose proof (sort_Slice_perm Vsphere.larger_first disks) as Hp.
  pose proof (sort_Slice_sorted Vsphere.larger_first disks larger_first_weak) as Hs.
  destruct (sort_Slice Vsphere.larger_first disks) as [|d rest]; [done|].
  assert (d ∈ disks) as Hd by (rewrite <- Hp; by left).
  apply (on_datastores_spec _ _ _ _ Eo) in Hd as [Hd (ld & Hld & Hin)].
  cbn [omap list_omap] in Hl. rewrite Hld in Hl. injection Hl as -> _.
  exists d. split_and!; try done. intros d' l' Hd' Hl' Hin'.
  assert (d' ∈ d :: rest) as Hr by (rewrite Hp; apply (on_datastores_spec _ _ _ _ Eo); naive_solver).
  apply elem_of_cons in Hr as [->|Hr]; [done|]. apply StronglySorted_inv in Hs as [_ Hall].
  apply (proj1 (Forall_forall _ _) Hall) in Hr. apply bool_decide_eq_false in Hr. lia.
Qed.

Lemma vm_with_ip_Some addrs vms (w : W) vm w' :
  Vsphere.vm_with_ip addrs vms w = (Ok (Some vm), w') →
  vm ∈ vms ∧ ∃ w1 nets ip, guest_Net vm w1 = (Ok (Some nets), w') ∧ ip ∈ concat nets ∧ ip ∈ addrs.
Proof.
  revert w. induction vms as [|x vms IH]; intros w; simpl; [by unfold mret, M_ret|].
  unfold attempt. destruct (guest_Net x w) as [[guest|e|s|] w1] eqn:Eg; try done.
  - intros (nets & w2 & [Hn ->]%deref_Ok_inv & Hm)%bind_Ok_inv. subst guest.
    destruct (existsb _ _) eqn:Ex; [|destruct (IH _ Hm); split; [by right|done]].
    unfold mret, M_ret in Hm. simplify_eq. split; [by left|].
    apply existsb_exists in Ex as (ip & Hip & Hb%bool_decide_eq_true). exists w, nets, ip. by rewrite list_elem_of_In.
  - intros Hm. destruct (IH _ Hm). split; [by right|done].
Qed.

Lemma FindVMByIP_Ok n (w : W) vm w' :
  Vsphere.FindVMByIP n w = (Ok vm, w') →
  ∃ w1 nets ip, guest_Net vm w1 = (Ok (Some nets), w') ∧ ip ∈ concat nets ∧ ip ∈ Addresses n.
Proof.
  unfold Vsphere.FindVMByIP. intros (f & w1 & _ & Hm)%bind_Ok_inv. apply bind_Ok_inv in Hm as (vms & w2 & _ & Hm).
  apply bind_Ok_inv in Hm as (found & w3 & Hv & Hm). destruct found as [x|]; [|done].
  unfold mret, M_ret in Hm. simplify_eq. by apply vm_with_ip_Some in Hv as [_ ?].
Qed.

Lemma locator_key d l : Vsphere.locator d = Some l → DiskId l = disk_Key d.
Proof.
  unfold Vsphere.locator. destruct (disk_Backing d) as [b|]; [|done]. simpl.
  destruct (b_Datastore b); [|done]. simpl. by intros [= <-].
Qed.

Lemma compatible_prefix prefix names (w : W) compat w' ds :
  Vsphere.GetCompatibleDatastores prefix names w = (Ok compat, w') → ds ∈ compat → HasPrefix (ds_Name ds) prefix = true.
Proof.
  unfold Vsphere.GetCompatibleDatastores. intros (all & w1 & _ & Hcomp)%bind_Ok_inv. case_decide; [done|].
  assert (compat = keep (λ ds, HasPrefix (ds_Name ds) prefix) all) as ->
    by (destruct (keep _ all); [done|]; unfold mret, M_ret in Hcomp; by simplify_eq).
  by intros [_ ?]%elem_of_keep.
Qed.

(** The disks of a machine need than the sum of their capacities. *)
Lemma total_size_sum devices :
  Vsphere.total_size devices = foldr Z.add 0 (CapacityInKB <$> Vsphere.disks_of devices).
Proof.
  unfold Vsphere.total_size. enough (∀ l t, foldl (λ t d, t + CapacityInKB d) t l = t + foldr Z.add 0 (CapacityInKB <$> l)) as Hg.
  { rewrite Hg. lia. }
  intros l. induction l as [|d l IH]; intros t; [cbn; lia|]. cbn [foldl]. rewrite IH, fmap_cons. cbn [foldr]. lia.
Qed.

End moving.
