(* ===== verification/NodeCloud.v ===== *)
(** drivers/node/aws, ibm and oracle: the node drivers of the clouds, each the ssh driver with
    some operations of its own, and the answers of the driver that supports nothing
    (drivers/node/node.go).

    The cloud libraries and the shell are parameters. *)

From Stdlib Require Import Ascii.
From S2P Require Import Prelude GoStrings Errors Effects Regexp Strconv Task OpenStorageApi NodeRegistry AutopilotRules SpecFactory PxDriver K8sObjects VolumeDrivers K8sSpecs K8sNodes K8sHelm K8sCreate K8sApps PxExpansion K8sAutopilot K8sCsi SchedOpsK8s NodeSSH.

(** ** The driver that supports nothing *)

(** Every method of [notSupportedDriver] that returns an error, with the operation that
    error names *)
Definition notSupportedDriver_1 : list (string * string) :=
  [ ("Init", "Init()"); ("RebootNode", "RebootNode()"); ("DetachDrivesFromVM", "DetachDrivesFromVM()");
    ("GetDatastoresFromDatacenter", "GetDatastoresFromDatacenter()");
    ("GetCompatibleDatastores", "GetDatastoresFromDatacenter()"); ("RebootNodeAndWait", "RebootNodeAndWait()");
    ("CrashNode", "CrashNode()"); ("RunCommand", "RunCommand()"); ("RunCommandWithNoRetry", "RunCommandWithNoRetry()");
    ("ShutdownNode", "ShutdownNode()"); ("FindFiles", "FindFiles()"); ("Systemctl", "Systemctl()");
    ("GetBlockDrives", "GetBlockDrives()"); ("YankDrive", "YankDrive()"); ("RecoverDrive", "RecoverDrive()");
    ("TestConnection", "TestConnection()"); ("SystemCheck", "SystemCheck()") ].

Definition notSupportedDriver_2 : list (string * string) :=
  [ ("SetASGClusterSize", "SetASGClusterSize()"); ("GetASGClusterSize", "GetASGClusterSize()");
    ("DeleteNode", "DeleteNode()"); ("SetClusterVersion", "SetClusterVersion()");
    ("GetClusterVersion", "GetClusterVersion()"); ("GetZones", "GetZones()"); ("PowerOnVM", "PowerOnVM()");
    ("PowerOffVM", "PowerOffVM()"); ("DestroyVM", "DestroyVM()"); ("RebootVM", "RebootVM()");
    ("SystemctlUnitExist", "SystemctlUnitExist()"); ("AddMachine", "AddMachine()");
    ("PowerOnVMByName", "PowerOnVmByName()") ].

Definition notSupportedDriver_3 : list (string * string) :=
  [ ("IsNodeRebootedInGivenTimeRange", "IsNodeRebootedInGivenTimeRange()");
    ("GetDeviceMapperCount", "GetDeviceMapperCount()"); ("InjectNetworkError", "InjectNetworkError()");
    ("InjectNetworkErrorWithRebootFallback", "InjectNetworkErrorWithRebootFallback()");
    ("RebalanceWorkerPool", "RebalanceWorkerPool()"); ("GetNodeState", "GetNodeState()");
    ("GetSupportedDriveTypes", "GetSupportedDriveTypes()"); ("MoveDisks", "MoveDisks()");
    ("RemoveNonRootDisks", "RemoveNonRootDisks()"); ("StorageVmotion", "StorageVmotion()");
    ("GetUUIDFromVMDKPath", "GetUUIDFromVMDKPath()"); ("FindVMByName", "FindVMByName()");
    ("FindDatastoreByName", "FindDatastoreByName()") ].

Definition notSupportedDriver : list (string * string) :=
  notSupportedDriver_1 ++ notSupportedDriver_2 ++ notSupportedDriver_3.

(** The error of a method *)
Definition not_supported (method : string) : option error :=
  (λ mo, ErrNotSupported "Function" mo.2) <$> find_first (λ mo, bool_decide (mo.1 = method)) notSupportedDriver.

(** Only the method for datastores with a prefix, and the one that powers a machine on by
    its name, name another operation in their error. *)
Lemma notSupportedDriver_misnamed method operation :
  (method, operation) ∈ notSupportedDriver → operation ≠ method +:+ "()" →
  (method, operation) = ("GetCompatibleDatastores", "GetDatastoresFromDatacenter()") ∨
  (method, operation) = ("PowerOnVMByName", "PowerOnVmByName()").
Proof.
  revert method operation.
  assert (Forall (λ mo, mo.2 = mo.1 +:+ "()" ∨ mo = ("GetCompatibleDatastores", "GetDatastoresFromDatacenter()") ∨
                        mo = ("PowerOnVMByName", "PowerOnVmByName()")) notSupportedDriver) as Hall.
  { apply (bool_decide_unpack _). by vm_compute. }
  intros m o Hin Hne. rewrite Forall_forall in Hall. destruct (Hall _ Hin) as [?|?]; done.
Qed.

(** ** Data *)

(** [ec2.Instance]: the private address and the identifier, empty when nil *)
Record Instance := { PrivateIpAddress : string; InstanceId : string }.

Record AwsState := { aws_region : string; instances : list Instance }.

(** [Worker] of the ibm driver, the fields that are read *)
Record Worker := {
  WorkerID : string;
  ActualState : string;
  Health_State : string;
  Health_Message : string;
  PoolName : string;
  Location : string;
  SubnetIDs : list string;
}.

(** [Cluster] and [ClusterConfig] *)
Record Cluster := { ClusterID : string; cluster_Name : string; MasterKubeVersion : string; cluster_State : string; cluster_Status : string }.
Record ClusterConfig := { config_ClusterID : string; ClusterName : string }.

(** The group of instances of the ibm and oracle drivers, and whether the client for the
    cloud was made *)
Record CloudState := { instanceGroup : string; has_ops : bool; clusterConfig : ClusterConfig }.

Class CloudWorld (W : Type) := {
  aws : W → AwsState;
  set_aws : AwsState → W → W;
  cloud : W → CloudState;
  set_cloud : CloudState → W → W;
}.

(** The libraries: EC2 and SSM, with nil for a command that was not returned; the cloud
    operations; running a shell command, with what it prints and its error; decoding
    JSON; Go's order of a map of zones. *)
Class CloudApi (W : Type) := {
  aws_NewSession : M W unit;
  DescribeInstances : M W (list (list Instance));
  SendCommand : string → string → M W (option string);
  ListCommandInvocations : string → M W (list (option string) * option error);
  RebootInstances : string → M W unit;
  StopInstances : string → M W unit;
  TerminateInstances : string → M W unit;
  cloud_NewClient : M W unit;
  SetInstanceGroupSize : string → Z → Z → M W unit;
  GetInstanceGroupSize : string → M W Z;
  InspectInstanceGroup : M W (list string);
  ops_SetClusterVersion : string → Z → M W unit;
  SetInstanceGroupVersion : string → string → Z → M W unit;
  GetInstance : string → M W (option (option string));
  DeleteInstance : string → Z → M W unit;
  ExecShell : string → M W (string * string * option error);
  Unmarshal_Worker : string → outcome Worker;
  Unmarshal_Workers : string → outcome (list Worker);
  Unmarshal_Clusters : string → outcome (list Cluster);
  Unmarshal_ClusterConfig : string → outcome ClusterConfig;
  range_zones : gmap string string → list (string * string);
}.

Section clouds.
Context {W : Type} `{SchedWorld W} `{!SshWorld W} `{K8sClient W} `{SpecFiles} `{K8sCreateApi W} `{K8sCsiApi W}.
Context `{K8sNodeApi W} `{K8sOpsApi W} `{SshApi W} `{CloudWorld W} `{CloudApi W}.
Context (volumes : VolumePackage) `{!SpecSource (O := nat)} `{K8sAutopilotApi W}.

(** ** aws *)

Definition get_aws : M W AwsState := λ w, (Ok (aws w), w).
Definition modify_aws (f : AwsState → AwsState) : M W unit := λ w, (Ok tt, set_aws (f (aws w)) w).

Definition getAllInstances : M W (list Instance) :=
  a ← get_aws;
  reservations ← wrap_err (λ err, Errorf ("there was an error listing instances in " +:+ aws_region a +:+ ". Error: " +:+
                                          quoted (Error err))) DescribeInstances;
  mret (concat reservations).

Definition instance_of (n : Node) (l : list Instance) : option Instance :=
  find_first (λ i, existsb (λ addr, bool_decide (PrivateIpAddress i = addr)) (Addresses n)) l.

Definition getNodeIDByPrivAddr (n : Node) : M W string :=
  a ← get_aws;
  match instance_of n (instances a) with
  | Some i => mret (InstanceId i)
  | None => throw (Errorf ("Failed to get instanceID of " +:+ Name n +:+ " by privateIP"))
  end.

(** The loop over the invocations of the command: the status of the last one that was
    looked at, or success.  The error of the listing is dropped; the library answers with
    an empty list beside it. *)
Fixpoint invocation_status (status : string) (l : list (option string)) : outcome (option string) :=
  match l with
  | [] => Ok (Some status)
  | details :: l' =>
      d ← deref details;
      let status' := TrimSpace d in
      if decide (status' = "Success") then Ok None else invocation_status status' l'
  end.

Definition aws_connect (n : Node) (command : string) : M W unit :=
  '(listed, _) ← ListCommandInvocations command;
  status ← lift (invocation_status "" listed);
  match status with
  | None => mret tt
  | Some s => throw (NodeErr NdErrFailedToTestConnection (Name n) ("Failed to connect. Command status is " +:+ s))
  end.

Definition aws_TestConnection (n : Node) (options : ConnectionOpts) : M W unit :=
  instanceID ← wrap_err (λ err, NodeErr NdErrFailedToTestConnection (Name n)
                   ("failed to get instance ID for connection due to: " +:+ Error err)) (getNodeIDByPrivAddr n);
  sent ← wrap_err (λ err, NodeErr NdErrFailedToTestConnection (Name n)
             ("failed to send command to instance " +:+ instanceID +:+ ": " +:+ Error err)) (SendCommand "uptime" instanceID);
  match sent with
  | None => throw (Errorf ("No command returned after sending command to " +:+ instanceID))
  | Some command =>
      wrap_err (SSH.node_failure NdErrFailedToTestConnection n)
        (_ ← DoRetryWithTimeout (attempt (aws_connect n command) (λ r,
               mret (match r with inl _ => Done tt | inr err => Retry err end)))
               (Timeout options) (TimeBeforeRetry options); mret tt)
  end.

(** [Init]: the error of the ssh driver is dropped. *)
Definition aws_Init (specDir : string) : M W unit :=
  _ ← SSH.ignoring (SSH.Init volumes specDir);
  _ ← attempt aws_NewSession (λ r, match r with inl _ => mret tt | inr e => panic (Error e) end);
  let region := Getenv "AWS_REGION" in
  _ ← modify_aws (λ a, {| aws_region := region; instances := instances a |});
  if decide (region = "") then throw (Errorf "Env AWS_REGION not found") else
  all ← getAllInstances;
  _ ← modify_aws (λ a, {| aws_region := aws_region a; instances := all |});
  nodes ← registry_GetWorkerNodes;
  for_each (λ n, wrap_err (SSH.node_failure NdErrFailedToTestConnection n)
                   (aws_TestConnection n (conn_opts (1 * Minute) (10 * Second)))) nodes.

(** [RebootNode], [ShutdownNode] and [DeleteNode] differ in the call, the error and its
    words. *)
Definition on_instance (k : node_error) (what : string) (call : string → M W unit) (n : Node) : M W unit :=
  instanceID ← wrap_err (λ err, NodeErr k (Name n) ("failed to get instance ID due to: " +:+ Error err))
                 (getNodeIDByPrivAddr n);
  wrap_err (λ err, NodeErr k (Name n) ("failed to " +:+ what +:+ " instance due to: " +:+ Error err)) (call instanceID).

Definition aws_RebootNode : Node → M W unit := on_instance NdErrFailedToRebootNode "reboot" RebootInstances.
Definition aws_ShutdownNode : Node → M W unit := on_instance NdErrFailedToShutdownNode "stop" StopInstances.
Definition aws_DeleteNode : Node → M W unit := on_instance NdErrFailedToDeleteNode "terminate" TerminateInstances.

(** Not implemented, and successful *)
Definition aws_FindFiles (path : string) (n : Node) (options : FindOpts) : M W string := mret "".
Definition aws_Systemctl (n : Node) (service action : string) (conn : ConnectionOpts) : M W unit := mret tt.

(** ** oracle *)

Definition get_cloud : M W CloudState := λ w, (Ok (cloud w), w).
Definition modify_cloud (f : CloudState → CloudState) : M W unit := λ w, (Ok tt, set_cloud (f (cloud w)) w).

(** Calling through the interface of the cloud operations, nil before [Init] *)
Definition need_ops : M W CloudState :=
  c ← get_cloud;
  if has_ops c then mret c else panic "invalid memory address or nil pointer dereference".

Definition oracle_Init (specDir : string) : M W unit :=
  _ ← SSH.ignoring (SSH.Init volumes specDir);
  _ ← modify_cloud (λ c, {| instanceGroup := SSH.non_empty (Getenv "INSTANCE_GROUP") "default"; has_ops := has_ops c;
                            clusterConfig := clusterConfig c |});
  _ ← cloud_NewClient;
  modify_cloud (λ c, {| instanceGroup := instanceGroup c; has_ops := true; clusterConfig := clusterConfig c |}).

Definition SetASGClusterSize (perZoneCount timeout : Z) : M W unit :=
  c ← need_ops; SetInstanceGroupSize (instanceGroup c) perZoneCount timeout.

Definition GetASGClusterSize : M W Z := c ← need_ops; GetInstanceGroupSize (instanceGroup c).

Definition GetZones : M W (list string) := _ ← need_ops; InspectInstanceGroup.

Definition oracle_SetClusterVersion (version : string) (timeout : Z) : M W unit :=
  c ← need_ops;
  _ ← ops_SetClusterVersion version timeout;
  _ ← pause (2 * Minute);
  SetInstanceGroupVersion (instanceGroup c) version timeout.

(** [GetInstance] answers with a value of some type; [None] is another type, and the
    identifier of an instance is a pointer.  The host name is that of the storage node. *)
Definition hostname_of (n : Node) : outcome string := sn ← deref (storageNode n); Ok (Hostname sn).

Definition oracle_DeleteNode (n : Node) (timeout : Z) : M W unit :=
  _ ← need_ops;
  hostname ← lift (hostname_of n);
  details ← GetInstance hostname;
  match details with
  | None => throw (Errorf ("could not retrive oracle instance details for " +:+ hostname))
  | Some id => i ← lift (deref id); DeleteInstance i timeout
  end.

(** ** ibm *)

Definition ibmAPIKey : string := "IBMCLOUD_API_KEY".
Definition ibmRegion : string := "us-south".
Definition ibmResourceGroup : string := "Portworx-RG".
Definition iksClusterInfoConfigMapName : string := "cluster-info".
Definition clusterIDconfigMapField : string := "cluster-config.json".
Definition IksPXWorkerpool : string := "default".
Definition clusterStateRetryTimeout : Z := 180 * Minute.
Definition clusterStateRetryInterval : Z := 2 * Minute.

(** A shell command whose failure is reported with all it printed *)
Definition exec (cmd msg : string) : M W string :=
  '(out, err) ← ExecShell cmd;
  let '(stdout, stderr) := out in
  match err with
  | Some e => throw (Errorf (msg +:+ " Error: " +:+ stderr +:+ " " +:+ Error e +:+ " " +:+ stdout))
  | None => mret stdout
  end.

(** The error names the key, which is empty, not the variable. *)
Definition loginToIBMCloud : M W unit :=
  let apiKey := Getenv ibmAPIKey in
  if decide (apiKey = "") then throw (Errorf ("IKS API key not provided as env var: " +:+ apiKey)) else
  _ ← exec ("ibmcloud login --apikey " +:+ apiKey +:+ " -g " +:+ ibmResourceGroup +:+ " -r " +:+ ibmRegion)
        "failed to login to IBM cloud.";
  _ ← exec "ibmcloud is target --gen 2" "failed to set gen2 as default generation.";
  mret tt.

Definition read_cluster_config : M W ClusterConfig :=
  cm ← get_object KConfigMap iksClusterInfoConfigMapName "kube-system";
  lift (Unmarshal_ClusterConfig (default "" (Data cm !! clusterIDconfigMapField))).

Definition ibm_Init (specDir : string) : M W unit :=
  _ ← oracle_Init specDir;
  clusterInfo ← read_cluster_config;
  modify_cloud (λ c, {| instanceGroup := instanceGroup c; has_ops := has_ops c; clusterConfig := clusterInfo |}).

(** A command about the cluster of the driver *)
Definition ibm_exec (cmd : string → string) (msg : string → string) : M W string :=
  _ ← loginToIBMCloud;
  c ← get_cloud;
  let name := ClusterName (clusterConfig c) in
  exec (cmd name) (msg name).

Definition ibm_DeleteNode (n : Node) : M W unit :=
  _ ← loginToIBMCloud;
  c ← get_cloud;
  hostname ← lift (hostname_of n);
  _ ← exec ("ibmcloud ks worker rm -c " +:+ ClusterName (clusterConfig c) +:+ " -w " +:+ hostname +:+ " -f")
        ("failed to delete node [" +:+ hostname +:+ "].");
  mret tt.

Definition ibm_SetClusterVersion (version : string) : M W unit :=
  _ ← ibm_exec (λ name, "ibmcloud ks cluster master update -c " +:+ name +:+ " --version " +:+ version +:+ " -f")
        (λ name, "failed to set cluser " +:+ name +:+ " master version to " +:+ version +:+ ".");
  mret tt.

Definition RebalanceWorkerPool : M W unit :=
  _ ← ibm_exec (λ name, "ibmcloud ks worker-pool rebalance -c " +:+ name +:+ " -p " +:+ IksPXWorkerpool)
        (λ _, "failed to rebalance worker pool " +:+ IksPXWorkerpool +:+ ".");
  mret tt.

Definition GetNodeState (n : Node) : M W string :=
  _ ← loginToIBMCloud;
  c ← get_cloud;
  hostname ← lift (hostname_of n);
  stdout ← exec ("ibmcloud ks worker get -w " +:+ hostname +:+ " -c " +:+ ClusterName (clusterConfig c) +:+ " --output json")
             ("failed node [" +:+ hostname +:+ "] info.");
  worker ← lift (Unmarshal_Worker stdout);
  mret (ActualState worker).

(** The functions of the package read the name of the cluster themselves. *)
Definition login_and_name : M W string :=
  _ ← loginToIBMCloud;
  info ← read_cluster_config;
  mret (ClusterName info).

Definition GetWorkers : M W (list Worker) :=
  clusterName ← login_and_name;
  stdout ← exec ("ibmcloud ks worker ls -c " +:+ clusterName +:+ " --output json") "failed to get workers list info.";
  lift (Unmarshal_Workers stdout).

Definition ReplaceWorkerNodeWithUpdate (n : Node) : M W unit :=
  clusterName ← login_and_name;
  hostname ← lift (hostname_of n);
  _ ← exec ("ibmcloud ks worker replace -c " +:+ clusterName +:+ " -w " +:+ hostname +:+ " --update -f")
        ("failed to replace node [" +:+ hostname +:+ "].");
  mret tt.

Definition RemoveWorkerNode (n : Node) : M W unit :=
  clusterName ← login_and_name;
  hostname ← lift (hostname_of n);
  _ ← exec ("ibmcloud ks worker rm -c " +:+ clusterName +:+ " -w " +:+ hostname +:+ " -f")
        ("failed to remove node [" +:+ hostname +:+ "].");
  mret tt.

Definition GetCluster : M W Cluster :=
  clusterName ← login_and_name;
  stdout ← exec "ibmcloud ks cluster ls  --provider vpc-gen2 --output json" "failed to get workers list info.";
  clusters ← lift (Unmarshal_Clusters stdout);
  match find_first (λ c, bool_decide (cluster_Name c = clusterName)) clusters with
  | Some c => mret c
  | None => throw (Errorf ("IKS Cluster " +:+ clusterName +:+ " not found"))
  end.

(** The subnet of the first worker of the default pool in each zone *)
Fixpoint zone_subnets (m : gmap string string) (workers : list Worker) : outcome (gmap string string) :=
  match workers with
  | [] => Ok m
  | w :: workers' =>
      if decide (PoolName w = IksPXWorkerpool ∧ m !! Location w = None) then
        subnet ← index (SubnetIDs w) 0;
        zone_subnets (<[Location w := subnet]> m) workers'
      else zone_subnets m workers'
  end.

Definition add_zone (clusterName workerPoolName : string) (zs : string * string) : M W unit :=
  _ ← exec ("ibmcloud ks zone add vpc-gen2 --zone " +:+ zs.1 +:+ " --cluster " +:+ clusterName +:+ " --worker-pool " +:+
            workerPoolName +:+ " --subnet-id " +:+ zs.2) "failed to add zone.";
  mret tt.

Definition addZones (clusterName workerPoolName : string) : M W unit :=
  workers ← GetWorkers;
  zoneSubnetMap ← lift (zone_subnets ∅ workers);
  for_each (add_zone clusterName workerPoolName) (range_zones zoneSubnetMap).

Definition cluster_ready_task (clusterName : string) : M W (task_result unit) :=
  attempt (exec ("ibmcloud ks cluster get -c " +:+ clusterName +:+ " --output json | jq -r .state")
                "failed to get cluster state.") (λ r,
    mret (match r with
          | inr err => Stop err
          | inl stdout =>
              let clusterState := TrimSpace stdout in
              if decide (clusterState = "deploying")
              then Retry (Errorf ("cluster " +:+ clusterName +:+ " is still [" +:+ clusterState +:+ "]"))
              else if decide (clusterState = "normal" ∨ clusterState = "warning") then Done tt
              else Retry (Errorf "cluster state does not match [normal] or [deploying]")
          end)).

Definition waitForClusterReady (clusterName : string) : M W unit :=
  DoRetryWithTimeout (cluster_ready_task clusterName) clusterStateRetryTimeout clusterStateRetryInterval.

Definition getWorkerDetails (clusterName workerName : string) : M W Worker :=
  stdout ← exec ("ibmcloud ks worker get -c " +:+ clusterName +:+ " -w " +:+ workerName +:+ " --output json")
             ("failed to get state of worker [" +:+ workerName +:+ "].");
  wrap_err (λ err, Errorf ("failed to unmarshal worker details. Error: [" +:+ Error err +:+ "]"))
    (lift (Unmarshal_Worker stdout)).

(** One look at the workers of the first listing: a worker is waited for only while its
    state is not normal and its message is not Ready. *)
Fixpoint workers_ready (clusterName : string) (workers : list Worker) : M W (task_result unit) :=
  match workers with
  | [] => mret (Done tt)
  | worker :: workers' =>
      attempt (getWorkerDetails clusterName (WorkerID worker)) (λ r,
        match r with
        | inr err => mret (Stop (Errorf ("failed to get state of worker [" +:+ WorkerID worker +:+ "]. Error: " +:+ Error err)))
        | inl details =>
            if decide (Health_State details ≠ "normal" ∧ Health_Message details ≠ "Ready")
            then mret (Retry (Errorf ("worker " +:+ WorkerID worker +:+ " is still in actual state [" +:+ ActualState worker +:+
                        "], health [" +:+ Health_State details +:+ "] and status [" +:+ Health_Message details +:+ "]")))
            else workers_ready clusterName workers'
        end)
  end.

Definition waitForWorkersToBeReady (clusterName : string) : M W unit :=
  workers ← GetWorkers;
  DoRetryWithTimeout (workers_ready clusterName workers) clusterStateRetryTimeout clusterStateRetryInterval.

Definition AddWorkerPool (poolName : string) (size : Z) : M W unit :=
  clusterName ← login_and_name;
  _ ← exec ("ibmcloud ks worker-pool create vpc-gen2 --name " +:+ poolName +:+ " --cluster " +:+ clusterName +:+
            " --flavor bx2.4x16 --size-per-zone " +:+ Itoa size) ("failed to add worker pool [" +:+ poolName +:+ "].");
  _ ← addZones clusterName poolName;
  _ ← waitForClusterReady clusterName;
  waitForWorkersToBeReady clusterName.

(** ** Properties *)

(** The worker was shown with its state normal or its message Ready. *)
Definition seen_ready (clusterName : string) (worker : Worker) : Prop :=
  ∃ (w1 w2 : W) details, getWorkerDetails clusterName (WorkerID worker) w1 = (Ok details, w2) ∧
    (Health_State details = "normal" ∨ Health_Message details = "Ready").

Lemma workers_ready_Done clusterName workers (w w' : W) :
  workers_ready clusterName workers w = (Ok (Done tt), w') → ∀ worker, worker ∈ workers → seen_ready clusterName worker.
Proof.
  revert w. induction workers as [|x l IH]; intros w; simpl; [by intros _ ? ?%elem_of_nil|]. unfold attempt.
  destruct (getWorkerDetails clusterName (WorkerID x) w) as [[d|e|s|] w1] eqn:Ed; try done. case_decide as Hh; [done|].
  intros Hl worker [->|Hin]%elem_of_cons; [|by eapply IH]. exists w, w1, d. split; [done|].
  destruct (decide (Health_State d = "normal")); [by left|]. right.
  destruct (decide (Health_Message d = "Ready")); [done|]. tauto.
Qed.

(** A worker pool that was added was created, got a zone for every zone the default pool has a worker
    in, the cluster was seen normal or with a warning, and every worker listed after that was
    seen normal or ready. *)
Theorem AddWorkerPool_success poolName size (w w' : W) :
  (∀ m, range_zones m ≡ₚ map_to_list m) →
  AddWorkerPool poolName size w = (Ok tt, w') →
  ∃ clusterName workers zones later (w1 w2 w3 w4 w5 : W),
    GetWorkers w1 = (Ok workers, w2) ∧ zone_subnets ∅ workers = Ok zones ∧
    (∀ zone subnet, zones !! zone = Some subnet →
       ∃ u1 u2 : W, add_zone clusterName poolName (zone, subnet) u1 = (Ok tt, u2)) ∧
    cluster_ready_task clusterName w3 = (Ok (Done tt), w4) ∧
    GetWorkers w4 = (Ok later, w5) ∧ ∀ worker, worker ∈ later → seen_ready clusterName worker.
Proof.
  intros Hperm. unfold AddWorkerPool. intros (name & w1 & _ & Hm)%bind_Ok_inv. apply bind_Ok_inv in Hm as (out & w2 & _ & Hm).
  apply bind_Ok_inv in Hm as ([] & w3 & Hz & Hm). apply bind_Ok_inv in Hm as ([] & w4 & Hc & Hm).
  unfold addZones in Hz. apply bind_Ok_inv in Hz as (workers & w5 & Hw & Hz).
  apply bind_Ok_inv in Hz as (zones & w6 & Hzs & Hz). apply lift_Ok_inv in Hzs as [Hzs ->].
  apply for_each_Ok in Hz. apply DoRetryWithTimeout_Ok_inv in Hc as [w7 Hc].
  unfold waitForWorkersToBeReady in Hm. apply bind_Ok_inv in Hm as (later & w8 & Hlater & Hm).
  apply DoRetryWithTimeout_Ok_inv in Hm as [w9 Hm].
  exists name, workers, zones, later, w2, w5, w7, w4, w8. split_and!; try done.
  - intros zone subnet Hzone. eapply steps_elem; [done|]. rewrite Hperm. by apply elem_of_map_to_list.
  - by eapply workers_ready_Done.
Qed.
End clouds.
