(* ===== verification/SchedCloud.v ===== *)
(** What the schedulers of the clouds share (drivers/scheduler/aks, gke, eks, iks, oke): a
    shell that runs the cloud's command line, the environment, and the operations of the
    cloudops library. *)

From Stdlib Require Import Ascii.
From S2P Require Import Prelude GoStrings Errors Effects Strconv GoJson Task OpenStorageApi NodeRegistry PxDriver PureDevices.

(** The shell ([osutils.ExecShell]: output, error output, error), the environment
    variables, and [cloudops.Ops] *)
Class Shell (W : Type) := {
  Getenv : string → string;
  ExecShell : string → M W (string * string * option error);
}.

Class CloudOps (W : Type) := {
  ops_New : M W unit;
  GetInstanceGroupSize : string → M W Z;
  SetInstanceGroupSize : string → Z → Z → M W unit;
  SetClusterVersion : string → Z → M W unit;
  SetInstanceGroupVersion : string → string → Z → M W unit;
  SetInstanceUpgradeStrategy : string → string → Z → string → M W unit;
  DeleteInstance : string → string → Z → M W unit;
}.

Section shell.
Context {W : Type} `{Shell W}.

(** A command whose failure is an error made of its outputs and the cause *)
Definition shell (cmd : string) (failed : string → string → error → error) : M W string :=
  '(stdout, stderr, err) ← ExecShell cmd;
  match err with
  | Some e => throw (failed stdout stderr e)
  | None => mret stdout
  end.

(** [stderr err stdout], as most messages print them *)
Definition outputs (msg : string) : string → string → error → error := λ stdout stderr err,
  Errorf (msg +:+ stderr +:+ " " +:+ Error err +:+ " " +:+ stdout).
End shell.

(** A method of a nil [ops] panics. *)
Definition need_ops {W A} (has_ops : bool) (m : M W A) : M W A :=
  if has_ops then m else panic "invalid memory address or nil pointer dereference".

(** [n.Hostname], a field of the embedded pointer *)
Definition node_Hostname (n : Node) : outcome string := s ← deref (storageNode n); Ok (Hostname s).

(** A field of a driver *)
Definition set {W L} (f : L → L) : M (W * L) unit := i ← get_local; put_local (f i).

Definition nil_pointer : string := "invalid memory address or nil pointer dereference".

(** ** The group of nodes of Portworx

    The clusters of eks.go and iks.go have two groups of nodes: torpedo runs in one of
    them, Portworx in the other.  The errors of GetPods and GetNodes are only logged, so
    that only the lists, which can be nil, are kept. *)

Record CloudPod := { cp_Name : string; cp_NodeName : string }.
Record CloudNode := { cn_Name : string; cn_Labels : gmap string string; cn_ProviderID : string }.

Class CloudCore (W : Type) := {
  core_GetPods : string → M W (option (list CloudPod));
  core_GetNodes : M W (option (list CloudNode));
}.

Definition nodeRegionLabel : string := "topology.kubernetes.io/region".

Definition node_label (key : string) (n : CloudNode) : string := default "" (cn_Labels n !! key).

(** The node of the last pod that is called torpedo, and the group of that node *)
Definition torpedo_node (pods : option (list CloudPod)) : string :=
  foldl (λ name p, if decide (cp_Name p = "torpedo") then cp_NodeName p else name) "" (default [] pods).

Definition torpedo_group (groupLabel node : string) (nodes : option (list CloudNode)) : string :=
  match find_first (λ n, bool_decide (cn_Name n = node)) (default [] nodes) with
  | Some n => node_label groupLabel n
  | None => ""
  end.

(** The label of the first node in another group than torpedo's *)
Definition other_label (key groupLabel torpedoGroup : string) (nodes : option (list CloudNode)) : string :=
  if decide (torpedoGroup = "") then ""
  else match find_first (λ n, negb (bool_decide (node_label groupLabel n = torpedoGroup))) (default [] nodes) with
       | Some n => node_label key n
       | None => ""
       end.

(** A field from the environment or, while that is empty, from the label of a node *)
Definition from_env {W L} `{Shell W} (var label groupLabel torpedoGroup : string) (nodes : option (list CloudNode))
    (field : string → L → L) : M (W * L) unit :=
  _ ← set (field (Getenv var));
  if decide (Getenv var = "") then
    let found := other_label label groupLabel torpedoGroup nodes in
    _ ← set (field found);
    if decide (found = "") then throw (Errorf ("env " +:+ var +:+ " or node label [" +:+ label +:+ "] not set")) else mret tt
  else mret tt.
