(* ===== verification/SchedAks.v ===== *)
(** drivers/scheduler/aks/aks.go: the Kubernetes scheduler on Azure - logging in, upgrading
    the cluster, scaling its node pools, deleting nodes.

    The state of the driver is the local component of the world; the cloud is a shell
    that runs az, and the operations of the cloudops library.  [Init] of the embedded
    Kubernetes driver ([K8sDescribe.Init]) is an argument. *)

From Stdlib Require Import Ascii.
From S2P Require Import Prelude GoStrings Errors Effects Strconv GoJson Task OpenStorageApi NodeRegistry PxDriver PureDevices SchedCloud.

Module Aks.

Definition azCli : string := "az".
Definition defaultAksInstanceGroupName : string := "nodepool1".
Definition defaultAksUpgradeTimeout : Z := 90 * Minute.
Definition defaultAksUpgradeInterval : Z := 5 * Minute.
Definition defaultGetAksClusterTimeout : Z := 5 * Minute.
Definition defaultGetAksClusterInterval : Z := 20 * Second.
Definition defaultAksNodePoolUpdateTimeout : Z := 60 * Minute.
Definition defaultAksNodePoolUpdateInterval : Z := 2 * Minute.
Definition expectedProvisioningState : string := "Succeeded".
Definition updatingProvisioningState : string := "Updating".
Definition failedProvisioningState : string := "Failed".

Record aks := { has_ops : bool; instanceGroup : string; clusterName : string }.

(** The fields of the cluster object that are read *)
Record AgentPoolProfile := {
  AvailabilityZones : list string;
  Count : Z;
  prof_Name : string;
  ProvisioningState : string;
  MaxSurge : json;
}.

Record AKSCluster := {
  AgentPoolProfiles : list AgentPoolProfile;
  CurrentKubernetesVersion : string;
  cl_Name : string;
  cl_ProvisioningState : string;
}.

Definition code_shape : shape := SStruct [("code", SString)].
Definition enabled_shape : shape := SStruct [("enabled", SBool)].
Definition tags_shape : shape := SStruct
  [("CreatedBy", SString); ("CreatedOnUTC", SString); ("ExpiresOnUTC", SString); ("LeaseDays", SString); ("Owner", SString)].

Definition profile_shape : shape := SStruct
  [("availabilityZones", SSlice SString); ("count", SInt 64); ("creationData", SAny);
   ("currentOrchestratorVersion", SString); ("enableAutoScaling", SBool); ("enableEncryptionAtHost", SBool);
   ("enableFips", SBool); ("enableNodePublicIp", SBool); ("enableUltraSsd", SBool); ("gpuInstanceProfile", SAny);
   ("hostGroupId", SAny); ("kubeletConfig", SAny); ("kubeletDiskType", SString); ("linuxOsConfig", SAny);
   ("maxCount", SAny); ("maxPods", SInt 64); ("minCount", SAny); ("mode", SString); ("name", SString);
   ("nodeImageVersion", SString); ("nodeLabels", SAny); ("nodePublicIpPrefixId", SAny); ("nodeTaints", SAny);
   ("orchestratorVersion", SString); ("osDiskSizeGb", SInt 64); ("osDiskType", SString); ("osSku", SString);
   ("osType", SString); ("podSubnetId", SAny); ("powerState", code_shape); ("provisioningState", SString);
   ("proximityPlacementGroupId", SAny); ("scaleDownMode", SAny); ("scaleSetEvictionPolicy", SAny);
   ("scaleSetPriority", SAny); ("spotMaxPrice", SAny); ("tags", tags_shape); ("type", SString);
   ("upgradeSettings", SStruct [("maxSurge", SAny)]); ("vmSize", SString); ("workloadRuntime", SString)].

Definition network_shape : shape := SStruct
  [("dnsServiceIp", SString); ("dockerBridgeCidr", SString); ("ipFamilies", SSlice SString);
   ("loadBalancerProfile", SStruct
     [("allocatedOutboundPorts", SAny);
      ("effectiveOutboundIPs", SSlice (SStruct [("id", SString); ("resourceGroup", SString)]));
      ("enableMultipleStandardLoadBalancers", SAny); ("idleTimeoutInMinutes", SAny);
      ("managedOutboundIPs", SStruct [("count", SInt 64); ("countIpv6", SAny)]);
      ("outboundIPs", SAny); ("outboundIpPrefixes", SAny)]);
   ("loadBalancerSku", SString); ("natGatewayProfile", SAny); ("networkMode", SAny); ("networkPlugin", SString);
   ("networkPolicy", SAny); ("outboundType", SString); ("podCidr", SString); ("podCidrs", SSlice SString);
   ("serviceCidr", SString); ("serviceCidrs", SSlice SString)].

Definition cluster_shape : shape := SStruct
  [("aadProfile", SAny);
   ("addonProfiles", SStruct [("azurepolicy", SStruct [("config", SAny); ("enabled", SBool); ("identity", SAny)])]);
   ("agentPoolProfiles", SSlice profile_shape); ("apiServerAccessProfile", SAny); ("autoScalerProfile", SAny);
   ("autoUpgradeProfile", SAny); ("azureMonitorProfile", SAny); ("azurePortalFqdn", SString);
   ("currentKubernetesVersion", SString); ("disableLocalAccounts", SBool); ("diskEncryptionSetId", SAny);
   ("dnsPrefix", SString); ("enablePodSecurityPolicy", SBool); ("enableRbac", SBool); ("extendedLocation", SAny);
   ("fqdn", SString); ("fqdnSubdomain", SAny); ("httpProxyConfig", SAny); ("id", SString); ("identity", SAny);
   ("identityProfile", SAny); ("kubernetesVersion", SString);
   ("linuxProfile", SStruct [("adminUsername", SString);
      ("ssh", SStruct [("publicKeys", SSlice (SStruct [("keyData", SString)]))])]);
   ("location", SString); ("maxAgentPools", SInt 64); ("name", SString); ("networkProfile", network_shape);
   ("nodeResourceGroup", SString); ("oidcIssuerProfile", SStruct [("enabled", SBool); ("issuerUrl", SAny)]);
   ("podIdentityProfile", SAny); ("powerState", code_shape); ("privateFqdn", SAny); ("privateLinkResources", SAny);
   ("provisioningState", SString); ("publicNetworkAccess", SAny); ("resourceGroup", SString);
   ("securityProfile", SStruct [("azureKeyVaultKms", SAny);
      ("defender", SStruct [("logAnalyticsWorkspaceResourceId", SString); ("securityMonitoring", enabled_shape)])]);
   ("servicePrincipalProfile", SStruct [("clientId", SString)]);
   ("sku", SStruct [("name", SString); ("tier", SString)]);
   ("storageProfile", SStruct [("blobCsiDriver", SAny); ("diskCsiDriver", enabled_shape);
      ("fileCsiDriver", enabled_shape); ("snapshotController", enabled_shape)]);
   ("systemData", SAny); ("tags", tags_shape); ("type", SString); ("windowsProfile", SAny);
   ("workloadAutoScalerProfile", SStruct [("keda", SAny)])].

Definition no_profile : AgentPoolProfile := Build_AgentPoolProfile [] 0 "" "" JNull.
Definition dec_any : decoder json := λ j _, Some (any j).
Definition dec_profile : decoder AgentPoolProfile := dec_struct
  [("availabilityZones", into AvailabilityZones (λ x '(Build_AgentPoolProfile _ b c d e), Build_AgentPoolProfile x b c d e) (dec_slice "" dec_string));
   ("count", into Count (λ x '(Build_AgentPoolProfile a _ c d e), Build_AgentPoolProfile a x c d e) (dec_int 64));
   ("name", into prof_Name (λ x '(Build_AgentPoolProfile a b _ d e), Build_AgentPoolProfile a b x d e) dec_string);
   ("provisioningState", into ProvisioningState (λ x '(Build_AgentPoolProfile a b c _ e), Build_AgentPoolProfile a b c x e) dec_string);
   ("upgradeSettings", dec_struct [("maxSurge", into MaxSurge (λ x '(Build_AgentPoolProfile a b c d _), Build_AgentPoolProfile a b c d x) dec_any)])].

Definition no_cluster : AKSCluster := Build_AKSCluster [] "" "" "".
Definition dec_cluster : decoder AKSCluster := dec_struct
  [("agentPoolProfiles", into AgentPoolProfiles (λ x '(Build_AKSCluster _ b c d), Build_AKSCluster x b c d) (dec_slice no_profile dec_profile));
   ("currentKubernetesVersion", into CurrentKubernetesVersion (λ x '(Build_AKSCluster a _ c d), Build_AKSCluster a x c d) dec_string);
   ("name", into cl_Name (λ x '(Build_AKSCluster a b _ d), Build_AKSCluster a b x d) dec_string);
   ("provisioningState", into cl_ProvisioningState (λ x '(Build_AKSCluster a b c _), Build_AKSCluster a b c x) dec_string)].

Section aks.
Context {W : Type} `{Clock W} `{Shell W} `{CloudOps W} (K8s_Init : M W unit).

Definition AzureLogin : M W unit :=
  let envAzureClientId := Getenv "AZURE_CLIENT_ID" in
  let envAzureClientSecret := Getenv "AZURE_CLIENT_SECRET" in
  let envAzureTenantId := Getenv "AZURE_TENANT_ID" in
  let undefined v := throw (Errorf ("environment variable " +:+ v +:+ " is not defined")) in
  if decide (envAzureClientId = "") then undefined "AZURE_CLIENT_ID"
  else if decide (envAzureClientSecret = "") then undefined "AZURE_CLIENT_SECRET"
  else if decide (envAzureTenantId = "") then undefined "AZURE_TENANT_ID"
  else _ ← shell (azCli +:+ " login --service-principal --username " +:+ envAzureClientId +:+ " --password " +:+
                  envAzureClientSecret +:+ " --tenant " +:+ envAzureTenantId)
             (λ _ stderr err, Errorf ("failed performing `az login`, Err: " +:+ Error err +:+ " " +:+ stderr));
       mret tt.

Definition Init : M (W * aks) unit :=
  _ ← up ops_New;
  a ← get_local;
  _ ← put_local {| has_ops := true; instanceGroup := instanceGroup a; clusterName := clusterName a |};
  _ ← up AzureLogin;
  up K8s_Init.

(** ** The cluster object

    Every attempt decodes into a new cluster.  (The source's variable lives for one call
    of [GetAKSCluster]; a text with a value of the wrong type, which is retried, can
    leave some of its fields in it, and the next text overwrites those it names.) *)
Definition show_task (clusterName : string) : M (W * aks) (task_result AKSCluster) :=
  up (attempt (shell (azCli +:+ " aks show -g " +:+ clusterName +:+ " -n " +:+ clusterName +:+ " --output json")
                     (outputs "failed to get AKS cluster info, Err: ")) (λ r,
    mret (match r with
          | inr err => Retry err
          | inl stdout =>
              match Unmarshal_shaped cluster_shape dec_cluster no_cluster stdout with
              | Ok c => Done c
              | Err err => Retry (Errorf ("failed to unmarshal AKS cluster object to json struct, Err: " +:+ Error err))
              | _ => Retry (Errorf "")
              end
          end))).

Definition GetAKSCluster : M (W * aks) AKSCluster :=
  a ← get_local;
  let group := Getenv "INSTANCE_GROUP" in
  let group' := if decide (group = "") then defaultAksInstanceGroupName else group in
  _ ← put_local {| has_ops := has_ops a; instanceGroup := group'; clusterName := clusterName a |};
  let envAzureClusterName := Getenv "AZURE_CLUSTER_NAME" in
  if decide (envAzureClusterName = "") then throw (Errorf "environment variable AZURE_CLUSTER_NAME is not defined")
  else
    _ ← put_local {| has_ops := has_ops a; instanceGroup := group'; clusterName := envAzureClusterName |};
    wrap_err (λ err, Errorf ("failed to get AKS cluster object, Err: " +:+ Error err))
      (DoRetryWithTimeout (show_task envAzureClusterName) defaultGetAksClusterTimeout defaultGetAksClusterInterval).

(** [aksCluster, err := a.GetAKSCluster(); if err != nil { return nil, false, err }] *)
Definition with_cluster {A} (f : AKSCluster → task_result A) : M (W * aks) (task_result A) :=
  attempt GetAKSCluster (λ r, mret (match r with inl c => f c | inr err => Stop err end)).

(** ** Scaling *)

Definition bracketed (s : string) : string := "[" +:+ s +:+ "]".

Definition states (actual : string) : string :=
  ", expected status [" +:+ expectedProvisioningState +:+ "], actual status [" +:+ actual +:+ "]".

(** The loops of waitForNodePoolToScale and waitForNodePoolToSetMaxSurge: a profile of
    the group that failed or is being updated decides, one that is [reached] too *)
Fixpoint scan_profiles (group : string) (reached : AgentPoolProfile → bool) (failed waiting not_yet : string)
    (l : list AgentPoolProfile) : task_result unit :=
  match l with
  | [] => Retry (Errorf not_yet)
  | p :: l' =>
      if decide (prof_Name p = group) then
        if decide (ProvisioningState p = failedProvisioningState) then Stop (Errorf (failed +:+ states (ProvisioningState p)))
        else if decide (ProvisioningState p = updatingProvisioningState) then Retry (Errorf (waiting +:+ states (ProvisioningState p)))
        else if reached p && bool_decide (ProvisioningState p = expectedProvisioningState) then Done tt
        else scan_profiles group reached failed waiting not_yet l'
      else scan_profiles group reached failed waiting not_yet l'
  end.

(** The group is read from the driver when the cluster was got, which sets it. *)
Definition wait_profiles (reached : AgentPoolProfile → bool) (failed waiting not_yet : string → string) :
    M (W * aks) (task_result unit) :=
  attempt GetAKSCluster (λ r,
    match r with
    | inr err => mret (Stop err)
    | inl c =>
        a ← get_local;
        let g := bracketed (instanceGroup a) in
        mret (scan_profiles (instanceGroup a) reached (failed g) (waiting g) (not_yet g) (AgentPoolProfiles c))
    end).

Definition scale_task (nodeCount : Z) : M (W * aks) (task_result unit) :=
  wait_profiles (λ p, bool_decide (Count p = nodeCount))
    (λ g, " AKS Node Pool " +:+ g +:+ " to scale to [" +:+ Itoa nodeCount +:+ "] failed")
    (λ g, "waiting for AKS Node Pool " +:+ g +:+ " to scale to [" +:+ Itoa nodeCount +:+ "]")
    (λ g, "AKS Node Pool " +:+ g +:+ " count to [" +:+ Itoa nodeCount +:+ "] not yet updated").

Definition waitForNodePoolToScale (nodeCount : Z) : M (W * aks) unit :=
  DoRetryWithTimeout (scale_task nodeCount) (60 * Minute) (2 * Minute).

Definition SetASGClusterSize (totalClusterSize timeout : Z) : M (W * aks) unit :=
  _ ← GetAKSCluster;
  a ← get_local;
  let n := clusterName a in
  let size := Itoa totalClusterSize in
  _ ← up (shell (azCli +:+ " aks nodepool update --resource-group " +:+ n +:+ " --cluster-name " +:+ n +:+
             " --nodepool-name " +:+ instanceGroup a +:+ "  --update-cluster-autoscaler --min-count " +:+ size +:+
             " --max-count " +:+ size +:+ " --no-wait")
           (outputs ("failed to scale cluser [" +:+ n +:+ "]  to [" +:+ size +:+ "], Err: ")));
  wrap_err (λ err, Errorf ("failed to scale AKS Node Pool [" +:+ instanceGroup a +:+ "] to [" +:+ size +:+ "], Err: " +:+
                           Error err))
    (waitForNodePoolToScale totalClusterSize).

Definition GetASGClusterSize : M (W * aks) Z :=
  a ← get_local;
  _ ← (if decide (instanceGroup a = "") then _ ← GetAKSCluster; mret tt else mret tt);
  a ← get_local;
  wrap_err (λ err, Errorf ("failed to get size of node pool " +:+ instanceGroup a +:+ ". Error: " +:+ Error err))
    (need_ops (has_ops a) (up (GetInstanceGroupSize (instanceGroup a)))).

Definition GetZones : M (W * aks) (list string) :=
  c ← GetAKSCluster;
  a ← get_local;
  match find_first (λ p, bool_decide (prof_Name p = instanceGroup a)) (AgentPoolProfiles c) with
  | Some p => mret (AvailabilityZones p)
  | None => throw (Errorf ("profile with name " +:+ instanceGroup a +:+ " not found"))
  end.

(** ** Upgrading *)

Definition UpgradeControlPlane (version : string) : M (W * aks) unit :=
  a ← get_local;
  let n := clusterName a in
  _ ← up (shell (azCli +:+ " aks upgrade --resource-group " +:+ n +:+ " --name " +:+ n +:+ "  --kubernetes-version " +:+
             version +:+ " --control-plane-only --no-wait --yes")
           (outputs ("failed to set cluser [" +:+ n +:+ "] version to [" +:+ version +:+ "], Err: ")));
  mret tt.

Definition surge_task (maxSurge : string) : M (W * aks) (task_result unit) :=
  wait_profiles (λ p, match MaxSurge p with JString s => bool_decide (s = maxSurge) | _ => false end)
    (λ g, "AKS Node Pool " +:+ g +:+ " failed to set MaxSurge to [" +:+ maxSurge +:+ "]")
    (λ g, "waiting for AKS Node Pool " +:+ g +:+ " to set MaxSurge to [" +:+ maxSurge +:+ "]")
    (λ g, "AKS Node Pool " +:+ g +:+ " MaxSurge is not yet updated to [" +:+ maxSurge +:+ "]").

Definition waitForNodePoolToSetMaxSurge (maxSurge : string) : M (W * aks) unit :=
  DoRetryWithTimeout (surge_task maxSurge) defaultAksNodePoolUpdateTimeout defaultAksNodePoolUpdateInterval.

Definition SetMaxSurgeForNodePool (maxSurge : string) : M (W * aks) unit :=
  _ ← GetAKSCluster;
  a ← get_local;
  let n := clusterName a in
  let msg := "failed to set MaxSurge for AKS Node Pool [" +:+ instanceGroup a +:+ "] to [" +:+ maxSurge +:+ "], Err: " in
  _ ← up (shell (azCli +:+ " aks nodepool update --resource-group " +:+ n +:+ " --cluster-name " +:+ n +:+
             " --nodepool-name " +:+ instanceGroup a +:+ " --max-surge " +:+ maxSurge +:+ " --no-wait") (outputs msg));
  wrap_err (λ err, Errorf (msg +:+ Error err)) (waitForNodePoolToSetMaxSurge maxSurge).

Definition UpgradeNodePool (nodePoolName version : string) : M (W * aks) unit :=
  let maxSurgeUpgradeValue := Getenv "AKS_SURGE_UPGRADE_VALUE" in
  _ ← (if decide (maxSurgeUpgradeValue = "") then mret tt
       else wrap_err (λ err, Errorf ("failed to set MaxSurge for Node Pool [" +:+ nodePoolName +:+ "], Err: " +:+
                                     Error err +:+ " "))
              (SetMaxSurgeForNodePool maxSurgeUpgradeValue));
  a ← get_local;
  let n := clusterName a in
  _ ← up (shell (azCli +:+ " aks nodepool upgrade --resource-group " +:+ n +:+ " --cluster-name " +:+ n +:+
             " --nodepool-name " +:+ nodePoolName +:+ " --kubernetes-version " +:+ version +:+ " --no-wait --yes")
           (outputs ("failed to set cluser [" +:+ n +:+ "] version to [" +:+ version +:+ "], Err: ")));
  mret tt.

(** The first profile of the pool that has not succeeded is waited for. *)
Definition upgraded_profiles (nodePoolName version : string) (c : AKSCluster) : task_result unit :=
  let mine := keep (λ p, bool_decide (prof_Name p = nodePoolName)) (AgentPoolProfiles c) in
  match find_first (λ p, negb (bool_decide (ProvisioningState p = expectedProvisioningState))) mine with
  | Some p => Retry (Errorf ("waiting for AKS Node Pool [" +:+ nodePoolName +:+ "] upgrade to [" +:+ version +:+
                             "] to complete" +:+ states (ProvisioningState p)))
  | None => match mine with
            | [] => Stop (Errorf ("failed to find AKS Node Pool [" +:+ nodePoolName +:+ "]"))
            | _ => Done tt
            end
  end.

Definition WaitForAKSNodePoolToUpgrade (nodePoolName version : string) : M (W * aks) unit :=
  wrap_err (λ err, Errorf ("failed to upgrade AKS Node Pool [" +:+ nodePoolName +:+ "] version to [" +:+ version +:+
                           "], Err: " +:+ Error err))
    (DoRetryWithTimeout (with_cluster (upgraded_profiles nodePoolName version))
       defaultAksUpgradeTimeout defaultAksUpgradeInterval).

Definition control_plane_state (version : string) (c : AKSCluster) : task_result unit :=
  if decide (cl_ProvisioningState c = "Succeeded") then Done tt
  else Retry (Errorf ("waiting for AKS Control Plane upgrade to [" +:+ version +:+
                      "] to complete, expected status [Succeeded], actual status [" +:+ cl_ProvisioningState c +:+ "]")).

Definition WaitForControlPlaneToUpgrade (version : string) : M (W * aks) unit :=
  wrap_err (λ err, Errorf ("failed to upgrade AKS Control Plane version to [" +:+ version +:+ "], Err: " +:+ Error err))
    (DoRetryWithTimeout (with_cluster (control_plane_state version)) defaultAksUpgradeTimeout defaultAksUpgradeInterval).

Definition UpgradeScheduler (version : string) : M (W * aks) unit :=
  _ ← wrap_err (λ err, Errorf ("failed to get AKS cluster, Err: " +:+ Error err)) GetAKSCluster;
  _ ← wrap_err (λ err, Errorf ("failed to set AKS cluster version, Err: " +:+ Error err)) (UpgradeControlPlane version);
  _ ← wrap_err (λ err, Errorf ("failed to wait for AKS Control Plane to be upgraded to [" +:+ version +:+ "], Err: " +:+
                               Error err)) (WaitForControlPlaneToUpgrade version);
  a ← get_local;
  let g := instanceGroup a in
  _ ← wrap_err (λ err, Errorf ("failed to upgrade AKS Node Pool [" +:+ g +:+ "] to [" +:+ version +:+ "], Err: " +:+
                               Error err)) (UpgradeNodePool g version);
  a ← get_local;
  let g := instanceGroup a in
  wrap_err (λ err, Errorf ("failed to wait for AKS Node Pool [" +:+ g +:+ "] to be upgraded to [" +:+ version +:+
                           "], Err: " +:+ Error err)) (WaitForAKSNodePoolToUpgrade g version).

Definition DeleteNode (n : Node) : M (W * aks) unit :=
  c ← wrap_err (λ err, Errorf ("failed to get AKS cluster, Err: " +:+ Error err)) GetAKSCluster;
  a ← get_local;
  hostname ← lift (node_Hostname n);
  _ ← up (shell (azCli +:+ " aks nodepool delete-machines --resource-group " +:+ cl_Name c +:+ " --cluster-name " +:+
             cl_Name c +:+ " --nodepool-name " +:+ instanceGroup a +:+ "  --machine-names " +:+ hostname +:+ " --no-wait")
           (outputs ("failed to delete node [" +:+ hostname +:+ "] , Err: ")));
  mret tt.
End aks.
End Aks.
