(* ===== verification/SchedAksProps.v ===== *)
(** What a successful upgrade or scaling on Azure has seen. *)

From Stdlib Require Import Ascii.
From S2P Require Import Prelude GoStrings Errors Effects Strconv GoJson Task OpenStorageApi NodeRegistry PxDriver PureDevices SchedCloud SchedAks.

Section aks.
Import Aks.
Context {W : Type} `{Clock W} `{Shell W} `{CloudOps W}.

(** The names the environment gives *)
Definition env_group : string :=
  if decide (Getenv "INSTANCE_GROUP" = "") then defaultAksInstanceGroupName else Getenv "INSTANCE_GROUP".

Definition named (wl : W * aks) : Prop :=
  instanceGroup wl.2 = env_group ∧ clusterName wl.2 = Getenv "AZURE_CLUSTER_NAME".

(** A command ran without an error. *)
Definition ran (cmd : string) : Prop :=
  ∃ (w w' : W) stdout stderr, ExecShell cmd w = (Ok (stdout, stderr, None), w').

(** A cluster object that az showed *)
Definition shown (c : AKSCluster) : Prop :=
  ∃ (w w' : W) stdout stderr,
    ExecShell (azCli +:+ " aks show -g " +:+ Getenv "AZURE_CLUSTER_NAME" +:+ " -n " +:+ Getenv "AZURE_CLUSTER_NAME" +:+
               " --output json") w = (Ok (stdout, stderr, None), w') ∧
    Unmarshal_shaped cluster_shape dec_cluster no_cluster stdout = Ok c.

Lemma shell_Ok cmd failed (w : W) out w' : shell cmd failed w = (Ok out, w') → ran cmd.
Proof.
  unfold shell. intros ([[stdout stderr] [e|]] & w1 & He & Hk)%bind_Ok_inv; unfold_m; simplify_eq.
  by exists w, w', out, stderr.
Qed.

Lemma show_task_Done name (w : W) a c w' a' :
  show_task name (w, a) = (Ok (Done c), (w', a')) →
  a' = a ∧ ∃ stdout stderr w1,
    ExecShell (azCli +:+ " aks show -g " +:+ name +:+ " -n " +:+ name +:+ " --output json") w =
      (Ok (stdout, stderr, None), w1) ∧
    Unmarshal_shaped cluster_shape dec_cluster no_cluster stdout = Ok c.
Proof.
  unfold show_task. intros [Ht ->]%up_Ok_inv. split; [done|]. unfold attempt, shell, mbind, M_bind in Ht.
  destruct (ExecShell _ w) as [[[[stdout stderr] [e|]]|e|s|] w1] eqn:E; unfold_m; simplify_eq.
  exists stdout, stderr, w'. split; [done|]. by repeat case_match; simplify_eq.
Qed.

Lemma show_task_keeps name I : preserves (λ wl : W * aks, I wl.2) (show_task name).
Proof. intros [w a] Ha. unfold show_task. by rewrite up_eq. Qed.

Lemma GetAKSCluster_Ok wl c wl' : GetAKSCluster wl = (Ok c, wl') → named wl' ∧ shown c.
Proof.
  destruct wl as [w a]. unfold GetAKSCluster. rewrite bind_get_local. cbv zeta. rewrite bind_put_local.
  case_decide as Hn; [done|]. rewrite bind_put_local. intros Hr%wrap_err_Ok_inv.
  set (a' := {| has_ops := _; instanceGroup := _; clusterName := _ |}) in Hr.
  apply (DoRetryWithTimeout_Ok_keeps (λ wl : W * aks, wl.2 = a')) in Hr as ([w1 a1] & Ha & Ht); [|apply (show_task_keeps _ (λ a, a = a'))|done|done].
  simpl in Ha. subst a1. destruct wl' as [w2 a2]. apply show_task_Done in Ht as (-> & stdout & stderr & w3 & He & Hu).
  split; [done|]. by exists w1, w3, stdout, stderr.
Qed.

Lemma with_cluster_Done {A} (f : AKSCluster → task_result A) wl x wl' :
  with_cluster f wl = (Ok (Done x), wl') → ∃ c, shown c ∧ named wl' ∧ f c = Done x.
Proof.
  unfold with_cluster, attempt. destruct (GetAKSCluster wl) as [[c|e|s|] wl1] eqn:E; unfold_m; intros Hf; simplify_eq.
  apply GetAKSCluster_Ok in E as [Hn Hs]. eauto.
Qed.

Lemma wait_cluster_Ok {A} (f : AKSCluster → task_result A) h timeout i wl x wl' :
  wrap_err h (DoRetryWithTimeout (with_cluster f) timeout i) wl = (Ok x, wl') →
  ∃ c, shown c ∧ named wl' ∧ f c = Done x.
Proof. intros (wl1 & Ht)%wrap_err_Ok_inv%DoRetryWithTimeout_Ok_inv. by eapply with_cluster_Done. Qed.

Lemma local_command cmd failed (w : W) a r w' a' :
  (_ ← up (shell cmd failed); mret r : M (W * aks) unit) (w, a) = (Ok tt, (w', a')) → ran cmd ∧ a' = a.
Proof.
  intros (out & [w1 a1] & [Hs ->]%up_Ok_inv & Hr)%bind_Ok_inv. unfold_m. simplify_eq.
  split; [by eapply shell_Ok|done].
Qed.

Lemma scan_profiles_Done group reached f1 f2 f3 l :
  scan_profiles group reached f1 f2 f3 l = Done tt →
  ∃ p, p ∈ l ∧ prof_Name p = group ∧ reached p = true ∧ ProvisioningState p = expectedProvisioningState.
Proof.
  induction l as [|p l IH]; simpl; [done|]. intros Hs.
  assert (scan_profiles group reached f1 f2 f3 l = Done tt ∨ prof_Name p = group ∧ reached p = true ∧
    ProvisioningState p = expectedProvisioningState) as [Hl|Hp].
  { destruct (decide (prof_Name p = group)), (decide (ProvisioningState p = failedProvisioningState)),
      (decide (ProvisioningState p = updatingProvisioningState)); try done; try by left.
    destruct (reached p), (bool_decide (ProvisioningState p = _)) eqn:Hb; simpl in Hs; try by left.
    right. by apply bool_decide_eq_true in Hb. }
  - destruct (IH Hl) as (q & Hq & ?). exists q. split; [by right|done].
  - exists p. split; [left|done].
Qed.

Lemma wait_profiles_Done reached f1 f2 f3 wl wl' :
  wait_profiles reached f1 f2 f3 wl = (Ok (Done tt), wl') →
  ∃ c p, shown c ∧ p ∈ AgentPoolProfiles c ∧ prof_Name p = env_group ∧ reached p = true ∧
    ProvisioningState p = expectedProvisioningState.
Proof.
  unfold wait_profiles, attempt. destruct (GetAKSCluster wl) as [[c|e|s|] [w1 a1]] eqn:E; [|by unfold_m..].
  rewrite bind_get_local. unfold_m. intros [= Hs <-].
  apply GetAKSCluster_Ok in E as [[Hg _] Hc]. simpl in Hg. apply scan_profiles_Done in Hs as (p & Hp & Hn & Hr).
  exists c, p. by rewrite <- Hg.
Qed.

(** After a successful SetASGClusterSize az showed a pool of the group with the size
    that was asked for and in state Succeeded. *)
Theorem SetASGClusterSize_success size timeout wl wl' :
  SetASGClusterSize size timeout wl = (Ok tt, wl') →
  ∃ c p, shown c ∧ p ∈ AgentPoolProfiles c ∧ prof_Name p = env_group ∧ Count p = size ∧
    ProvisioningState p = expectedProvisioningState.
Proof.
  unfold SetASGClusterSize. intros (c & [w1 a] & Hc & Hr)%bind_Ok_inv. rewrite bind_get_local in Hr. cbv zeta in Hr.
  apply bind_Ok_inv in Hr as (out & wl2 & Hu & Hr). apply wrap_err_Ok_inv in Hr.
  apply DoRetryWithTimeout_Ok_inv in Hr as (wl3 & Ht). apply wait_profiles_Done in Ht as (c' & p & ? & ? & ? & Hp & ?).
  exists c', p. by apply bool_decide_eq_true in Hp.
Qed.

(** Raising the surge leaves the names of the environment. *)
Lemma SetMaxSurgeForNodePool_named maxSurge wl wl' :
  SetMaxSurgeForNodePool maxSurge wl = (Ok tt, wl') → named wl'.
Proof.
  unfold SetMaxSurgeForNodePool. intros (c & [w1 a] & _ & Hm)%bind_Ok_inv. rewrite bind_get_local in Hm. cbv zeta in Hm.
  apply bind_Ok_inv in Hm as (out & wl7 & _ & Hm). apply wrap_err_Ok_inv, DoRetryWithTimeout_Ok_inv in Hm as (wl8 & Ht).
  unfold surge_task, wait_profiles, attempt in Ht. destruct (GetAKSCluster wl8) as [[c'|e|s|] [w9 a9]] eqn:E; [|by unfold_m..].
  rewrite bind_get_local in Ht. unfold_m. simplify_eq. by apply GetAKSCluster_Ok in E as [? _].
Qed.

(** The pools of the group have all succeeded, and there is one. *)
Lemma upgraded_profiles_Done group version c :
  upgraded_profiles group version c = Done tt →
  (∃ p, p ∈ AgentPoolProfiles c ∧ prof_Name p = group) ∧
  ∀ p, p ∈ AgentPoolProfiles c → prof_Name p = group → ProvisioningState p = expectedProvisioningState.
Proof.
  unfold upgraded_profiles. cbv zeta. destruct (find_first _ _) eqn:Hf; [done|]. rewrite find_first_None in Hf. intros Hk.
  split.
  - destruct (keep _ _) as [|p l] eqn:Hl; [done|]. exists p.
    assert (p ∈ keep (λ p, bool_decide (prof_Name p = group)) (AgentPoolProfiles c)) as Hin by (rewrite Hl; left).
    by apply elem_of_keep in Hin as [? Hb%bool_decide_eq_true].
  - intros p Hin Hname. specialize (Hf p). rewrite elem_of_keep in Hf.
    destruct (bool_decide (ProvisioningState p = _)) eqn:Hb; [by apply bool_decide_eq_true in Hb|].
    exfalso. enough (negb false = false) by done. apply Hf. split; [done|]. by apply bool_decide_eq_true.
Qed.

(** After a successful UpgradeScheduler the control plane and then the node pool of
    the group were asked to upgrade; in between az showed the cluster in state
    Succeeded, and at the end every pool of the group, at least one.  The version that
    is shown is not compared with the one asked for. *)
Theorem UpgradeScheduler_success version wl wl' :
  UpgradeScheduler version wl = (Ok tt, wl') →
  let n := Getenv "AZURE_CLUSTER_NAME" in
  ∃ c1 c2,
    ran (azCli +:+ " aks upgrade --resource-group " +:+ n +:+ " --name " +:+ n +:+ "  --kubernetes-version " +:+
         version +:+ " --control-plane-only --no-wait --yes") ∧
    shown c1 ∧ cl_ProvisioningState c1 = "Succeeded" ∧
    ran (azCli +:+ " aks nodepool upgrade --resource-group " +:+ n +:+ " --cluster-name " +:+ n +:+
         " --nodepool-name " +:+ env_group +:+ " --kubernetes-version " +:+ version +:+ " --no-wait --yes") ∧
    shown c2 ∧ (∃ p, p ∈ AgentPoolProfiles c2 ∧ prof_Name p = env_group) ∧
    ∀ p, p ∈ AgentPoolProfiles c2 → prof_Name p = env_group → ProvisioningState p = expectedProvisioningState.
Proof.
  intros Hu n. unfold UpgradeScheduler in Hu.
  apply bind_Ok_inv in Hu as (c & [w1 a1] & Hc%wrap_err_Ok_inv & Hu). apply GetAKSCluster_Ok in Hc as [[_ Hn1] _].
  apply bind_Ok_inv in Hu as ([] & [w2 a2] & Hp%wrap_err_Ok_inv & Hu).
  unfold UpgradeControlPlane in Hp. rewrite bind_get_local in Hp. apply local_command in Hp as [Hp ->].
  apply bind_Ok_inv in Hu as ([] & [w3 a3] & Hw%wrap_err_Ok_inv & Hu).
  apply wait_cluster_Ok in Hw as (c1 & Hc1 & [Hg3 Hn3] & Hs1). unfold control_plane_state in Hs1. case_decide as Hst; [|done].
  rewrite bind_get_local in Hu. cbv zeta in Hu.
  apply bind_Ok_inv in Hu as ([] & [w4 a4] & Hn%wrap_err_Ok_inv & Hu).
  unfold UpgradeNodePool in Hn. cbv zeta in Hn. apply bind_Ok_inv in Hn as ([] & [w5 a5] & Hm & Hn).
  assert (named (w5, a5)) as [Hg5 Hn5].
  { case_decide; [by unfold_m; simplify_eq|]. by eapply SetMaxSurgeForNodePool_named, wrap_err_Ok_inv. }
  rewrite bind_get_local in Hn. apply local_command in Hn as [Hn ->].
  rewrite bind_get_local in Hu. cbv zeta in Hu.
  apply wrap_err_Ok_inv, wait_cluster_Ok in Hu as (c2 & Hc2 & _ & [Hone Hall]%upgraded_profiles_Done).
  simpl in *. rewrite Hn1 in Hp. rewrite Hn5 in Hn. rewrite Hg3 in Hn. rewrite Hg5 in Hone, Hall.
  by exists c1, c2.
Qed.
End aks.
