(* ===== verification/SchedGke.v ===== *)
(** drivers/scheduler/gke/gke.go: the Kubernetes scheduler on Google's cloud.  The state of
    the driver is the local component of the world, and [Init] of the embedded
    Kubernetes driver an argument. *)

From Stdlib Require Import Ascii.
From S2P Require Import Prelude GoStrings Errors Effects Strconv GoJson Task OpenStorageApi NodeRegistry PxDriver PureDevices SchedCloud.

Module Gke.

Definition defaultGkeUpgradeTimeout : Z := 90 * Minute.

Record Gke := { has_ops : bool; instanceGroup : string }.

Section gke.
Context {W : Type} `{PxWorld W} `{Shell W} `{CloudOps W} `{MapOrder W} (K8s_Init : M W unit).

Definition Init : M (W * Gke) unit :=
  _ ← up ops_New;
  g ← get_local;
  _ ← put_local {| has_ops := true; instanceGroup := instanceGroup g |};
  up K8s_Init.

(** The node group of the environment, or the default one *)
Definition set_group : M (W * Gke) Gke :=
  g ← get_local;
  let group := Getenv "INSTANCE_GROUP" in
  let g' := {| has_ops := has_ops g; instanceGroup := if decide (group = "") then "default-pool" else group |} in
  _ ← put_local g'; mret g'.

(** An operation of [ops], with its error wrapped *)
Definition with_ops {A} (msg : string) (m : M W A) : M (W * Gke) A :=
  g ← get_local;
  wrap_err (λ err, Errorf (msg +:+ Error err)) (need_ops (has_ops g) (up m)).

Definition upgradeGkeControlPlaneVersion (version : string) (timeout : Z) : M (W * Gke) unit :=
  with_ops ("failed to set version for GKE Control Plane to [" +:+ version +:+ "], Err: ")
    (SetClusterVersion version timeout).

Definition upgradeGkeNodeGroupVersion (nodeGroup version : string) (timeout : Z) : M (W * Gke) unit :=
  with_ops ("failed to set version for GKE Node Group [" +:+ nodeGroup +:+ "] to [" +:+ version +:+ "], Err: ")
    (SetInstanceGroupVersion nodeGroup version timeout).

Definition updateGkeNodeGroupUpgradeStrategy (nodeGroup upgradeStrategy : string) (timeout : Z) (surgeSetting : string) :
    M (W * Gke) unit :=
  with_ops ("failed to set upgrade strategy for GKE Node Group [" +:+ nodeGroup +:+ "] to [" +:+ upgradeStrategy +:+
            "], Err: ") (SetInstanceUpgradeStrategy nodeGroup upgradeStrategy timeout surgeSetting).

Definition UpgradeScheduler (version : string) : M (W * Gke) unit :=
  g ← set_group;
  _ ← upgradeGkeControlPlaneVersion version defaultGkeUpgradeTimeout;
  let strategy := Getenv "GKE_UPGRADE_STRATEGY" in
  let surge := Getenv "GKE_SURGE_VALUE" in
  let upgradeStrategy := if decide (strategy = "") then "surge" else strategy in
  let surgeSetting := if decide (surge = "") then "default" else surge in
  _ ← updateGkeNodeGroupUpgradeStrategy (instanceGroup g) upgradeStrategy defaultGkeUpgradeTimeout surgeSetting;
  upgradeGkeNodeGroupVersion (instanceGroup g) version defaultGkeUpgradeTimeout.

Definition SetASGClusterSize (perZoneCount timeout : Z) : M (W * Gke) unit :=
  g ← set_group;
  with_ops ("failed to set size of node pool " +:+ instanceGroup g +:+ ". Error: ")
    (SetInstanceGroupSize (instanceGroup g) perZoneCount timeout).

Definition GetASGClusterSize : M (W * Gke) Z :=
  g ← set_group;
  with_ops ("failed to get size of GKE Node Pool [" +:+ instanceGroup g +:+ "] Err: ")
    (GetInstanceGroupSize (instanceGroup g)).

Definition DeleteNode (n : Node) : M (W * Gke) unit :=
  g ← get_local;
  need_ops (has_ops g) (up (DeleteInstance (Name n) (Zone n) (10 * Minute))).

(** The zones of the nodes with the storage driver, each once, in the order of a map *)
Definition GetZones : M W (list string) :=
  storageDriverNodes ← registry_GetStorageDriverNodes;
  let nZones : gmap string bool := foldl (λ m n, <[Zone n := true]> m) ∅ storageDriverNodes in
  zones ← range_map bool nZones;
  mret (map fst zones).
End gke.
End Gke.

(** The zones that were put into the map *)
Lemma zones_of_spec l (m : gmap string bool) z :
  is_Some (foldl (λ m n, <[Zone n := true]> m) m l !! z) ↔ is_Some (m !! z) ∨ ∃ n, n ∈ l ∧ Zone n = z.
Proof.
  revert m. induction l as [|n l IH]; intros m; simpl; [set_solver|]. rewrite IH.
  destruct (decide (Zone n = z)) as [Hz|Hne].
  - rewrite Hz, lookup_insert_eq. split; [intros _|intros _; left; by eexists]. right. exists n. split; [left|done].
  - rewrite lookup_insert_ne by done. set_solver.
Qed.

(** On Google's cloud the zones are those of the nodes with the storage driver, each
    once. *)
Theorem Gke_GetZones_spec {W} `{PxWorldLaws W} `{MapOrderLaws W} (w : W) zones w' :
  Gke.GetZones w = (Ok zones, w') →
  NoDup zones ∧
  ∀ z, z ∈ zones ↔ ∃ n, n ∈ (map_to_list (nodeRegistry (px w))).*2 ∧ IsStorageDriverInstalled n = true ∧ Zone n = z.
Proof.
  unfold Gke.GetZones, registry_GetStorageDriverNodes. intros (ns & w1 & Hn & Hr)%bind_Ok_inv.
  apply bind_Ok_inv in Hn as (l & w2 & Hl & Hn). unfold_m. simplify_eq.
  destruct (range_nodes_spec w) as (l' & w3 & Hl' & Hp & _). rewrite Hl in Hl'. simplify_eq.
  cbv zeta in Hr. apply bind_Ok_inv in Hr as (zs & w4 & Hz & Hr). unfold_m. simplify_eq.
  match type of Hz with range_map bool ?m ?v = _ => set (nZones := m) in *; set (wz := v) in * end.
  destruct (range_map_spec bool nZones wz) as (zs' & w5 & Hz' & Hzp). rewrite Hz in Hz'. simplify_eq.
  change (map fst zs') with (zs'.*1). split.
  - rewrite Hzp. apply NoDup_fst_map_to_list.
  - intros z. rewrite Hzp. rewrite list_elem_of_fmap.
    transitivity (is_Some (nZones !! z)).
    + split.
      * intros ([k b] & -> & Hk%elem_of_map_to_list). by exists b.
      * intros [b Hb]. exists (z, b). split; [done|]. by apply elem_of_map_to_list.
    + unfold nZones. rewrite zones_of_spec. setoid_rewrite elem_of_keep. setoid_rewrite Hp.
      split; [intros [[? Hem]|(n & [? ?] & ?)]; [by rewrite lookup_empty in Hem|eauto]|intros (n & ? & ? & ?); right; eauto].
Qed.
