(* ===== verification/SchedIks.v ===== *)
(** drivers/scheduler/iks/iks.go: the Kubernetes scheduler on IBM's cloud.

    The driver's fields are the local component of the world.  A client is there or nil;
    calling a nil one panics.  [UpgradeWorkerPool] replaces the workers of each location
    in a goroutine of its own, and the goroutines share the variable [err] of the
    function: a list of choices says which of them makes the next step.  The
    replacement of one worker, with its waiting, is one step. *)

From Stdlib Require Import Ascii.
From S2P Require Import Prelude GoStrings Errors Effects Strconv GoJson Concur Task OpenStorageApi NodeRegistry PxDriver PureDevices SchedCloud.

Module Iks.

Definition defaultIKSUpgradeTimeout : Z := 90 * Minute.
Definition defaultIKSUpgradeRetryInterval : Z := 5 * Minute.

Record IKS := {
  has_ops : bool;
  clusterName : string;
  region : string;
  k8sClient : bool;
  containerClient : bool;
  resourceGroupID : string;
  pxWorkerPoolName : string;
}.

Definition with_clusterName x '(Build_IKS a _ c d e f g) := Build_IKS a x c d e f g.
Definition with_region x '(Build_IKS a b _ d e f g) := Build_IKS a b x d e f g.
Definition with_k8sClient x '(Build_IKS a b c _ e f g) := Build_IKS a b c x e f g.
Definition with_containerClient x '(Build_IKS a b c d _ f g) := Build_IKS a b c d x f g.
Definition with_resourceGroupID x '(Build_IKS a b c d e _ g) := Build_IKS a b c d e x g.
Definition with_pxWorkerPoolName x '(Build_IKS a b c d e f _) := Build_IKS a b c d e f x.

(** *** The clients of IBM's SDK *)

Record ClusterTargetHeader := { ResourceGroup : string; Provider : string; AccountID : string }.

Record ClusterResponse := {
  cr_State : option string;
  MasterKubeVersion : option string;
  cr_ResourceGroup : option string;
}.

Record Worker := {
  ID : string;
  Location : string;
  ActualState : string;
  DesiredState : string;
  ReasonForDelete : string;
  KubeVersion_Actual : string;
  KubeVersion_Desired : string;
  Health_State : string;
}.

Record WorkerPool := { WorkerCount : Z; Zones : list string }.

(** Responses are kept as the text they are printed as. *)
Class IksApi (W : Type) := {
  ibm_NewClient : M W unit;
  session_New : string → string → M W unit;
  containerv2_New : M W (bool * option error);
  NewKubernetesServiceApiV1 : string → string → M W (bool * option error);
  GetCluster : string → M W (option ClusterResponse * string * option error);
  UpdateCluster : string → string → string → M W (string * option error);
  ReplaceWokerNode : string → string → ClusterTargetHeader → M W (string * option error);
  Workers_Get : string → string → ClusterTargetHeader → M W Worker;
  ListByWorkerPool : string → string → bool → ClusterTargetHeader → M W (list Worker);
  GetWorkerPool : string → string → ClusterTargetHeader → M W WorkerPool;
  ResizeWorkerPool : string → Z → string → ClusterTargetHeader → M W unit;
  Clusters_List : ClusterTargetHeader → M W (list (string * string));
  ErrEmptyResponseBody : error;
}.

(** [core.StringNilMapper] *)
Definition StringNilMapper (s : option string) : string := default "" s.

Section iks.
Context {W : Type} `{Clock W} `{Shell W} `{CloudCore W} `{IksApi W} `{MapOrder W} (K8s_Init : M W unit).

(** A call of the one and of the other client *)
Definition by_k8s {A} (f : IKS → M W A) : M (W * IKS) A :=
  i ← get_local; if k8sClient i then up (f i) else panic nil_pointer.

Definition by_container {A} (f : IKS → M W A) : M (W * IKS) A :=
  i ← get_local; if containerClient i then up (f i) else panic nil_pointer.

Definition in_group (i : IKS) : ClusterTargetHeader := {| ResourceGroup := resourceGroupID i; Provider := ""; AccountID := "" |}.

Definition Init : M (W * IKS) unit :=
  _ ← up K8s_Init;
  _ ← up ibm_NewClient;
  set (λ '(Build_IKS _ b c d e f g), Build_IKS true b c d e f g).

(** *** Asking the cluster *)

(** [clusterResponse, detailedResponse, err := i.k8sClient.GetCluster(...)] *)
Definition cluster_details : M (W * IKS) ClusterResponse :=
  i ← get_local;
  '(cluster, resp, err) ← by_k8s (λ i, GetCluster (clusterName i));
  match err with
  | Some e => throw (Errorf ("failed to get IKS cluster [" +:+ clusterName i +:+ "] details. Resp: [" +:+ resp +:+
                             "], Err: [" +:+ Error e +:+ "]"))
  | None => lift (deref cluster)
  end.

Definition GetCurrentVersion : M (W * IKS) string := c ← cluster_details; mret (StringNilMapper (MasterKubeVersion c)).

Definition GetResourceGroupID : M (W * IKS) string := c ← cluster_details; mret (StringNilMapper (cr_ResourceGroup c)).

(** *** Configuring the clients *)

Definition workerPoolLabel : string := "ibm-cloud.kubernetes.io/worker-pool-name".
(** The loop [ClusterSearch] *)
Fixpoint ClusterSearch (nodes : list CloudNode) : M (W * IKS) unit :=
  match nodes with
  | [] => mret tt
  | n :: nodes' =>
      let splitID := Split (cn_ProviderID n) "/" in
      if decide (length splitID < 7)%nat then
        throw (Errorf ("unexpected format of provider ID [" +:+ cn_ProviderID n +:+ "]"))
      else
        accountID ← lift (index splitID 2);
        clusterID ← lift (index splitID 5);
        clusters ← wrap_err (λ e, Errorf ("failed to list clusters for account ID [" +:+ accountID +:+ "], Err: [" +:+
                                          Error e +:+ "]"))
                     (by_container (λ _, Clusters_List {| ResourceGroup := ""; Provider := ""; AccountID := accountID |}));
        match find_first (λ c, bool_decide (c.1 = clusterID)) clusters with
        | Some c => set (with_clusterName c.2)
        | None => ClusterSearch nodes'
        end
  end.

(** [i.containerClient, err = containerv2.New(sess)]: the client is assigned, nil with an
    error or not, before the error is looked at; the same for the other client. *)
Definition assigned (field : bool → IKS → IKS) (new : M W (bool * option error)) (what : string) : M (W * IKS) unit :=
  '(client, err) ← up new;
  _ ← set (field client);
  match err with
  | Some e => throw (Errorf ("failed to create IKS " +:+ what +:+ " client. Err: [" +:+ Error e +:+ "]"))
  | None => mret tt
  end.

Definition configure (ibmCloudAPIKey : string) : M (W * IKS) unit :=
  pods ← up (core_GetPods "default");
  nodes ← up core_GetNodes;
  let torpedoWorkerPoolName := torpedo_group workerPoolLabel (torpedo_node pods) nodes in
  _ ← from_env "IKS_PX_WORKERPOOL_NAME" workerPoolLabel workerPoolLabel torpedoWorkerPoolName nodes with_pxWorkerPoolName;
  _ ← from_env "IKS_CLUSTER_REGION" nodeRegionLabel workerPoolLabel torpedoWorkerPoolName nodes with_region;
  i ← get_local;
  _ ← wrap_err (λ e, Errorf ("failed to create IKS session. Err: [" +:+ Error e +:+ "]"))
        (up (session_New (region i) ibmCloudAPIKey));
  _ ← assigned with_containerClient containerv2_New "container";
  _ ← assigned with_k8sClient
        (NewKubernetesServiceApiV1 ("https://" +:+ region i +:+ ".containers.cloud.ibm.com") ibmCloudAPIKey)
        "Kubernetes Service";
  _ ← set (with_clusterName (Getenv "IKS_CLUSTER_NAME"));
  _ ← (if decide (Getenv "IKS_CLUSTER_NAME" = "") then ClusterSearch (default [] nodes) else mret tt);
  i ← get_local;
  attempt GetResourceGroupID (λ r, match r with
    | inl g => set (with_resourceGroupID g)
    | inr e =>
        _ ← set (with_resourceGroupID "");
        throw (Errorf ("failed to get resource group ID for IKS cluster [" +:+ clusterName i +:+ "], Err: [" +:+ Error e +:+ "]"))
    end).

Definition configureIKSClient : M (W * IKS) unit :=
  i ← get_local;
  if negb (k8sClient i) || containerClient i then
    let ibmCloudAPIKey := Getenv "IBMCLOUD_API_KEY" in
    if decide (ibmCloudAPIKey = "") then throw (Errorf "env IBMCLOUD_API_KEY not set") else configure ibmCloudAPIKey
  else mret tt.

(** *** Upgrading the control plane *)

Definition UpgradeControlPlane (version : string) : M (W * IKS) unit :=
  i ← get_local;
  '(resp, err) ← by_k8s (λ i, UpdateCluster (clusterName i) "update" version);
  match err with
  | Some e => throw (Errorf ("failed to upgrade IKS cluster [" +:+ clusterName i +:+ "] control plane version to [" +:+
                             version +:+ "]. Resp: [" +:+ resp +:+ "], Err: [" +:+ Error e +:+ "]"))
  | None => mret tt
  end.

Definition control_plane_task (version : string) : M (W * IKS) (task_result unit) :=
  i ← get_local;
  attempt cluster_details (λ r, mret (match r with
    | inr e => Stop e
    | inl c =>
        let status := StringNilMapper (cr_State c) in
        let masterKubeVersion := StringNilMapper (MasterKubeVersion c) in
        if bool_decide (status = "normal") && HasPrefix masterKubeVersion version then Done tt
        else Retry (Errorf ("waiting for IKS cluster [" +:+ clusterName i +:+ "] control plane upgrade to [" +:+ version +:+
                            "] to complete, expected status [normal], actual status [" +:+ status +:+
                            "], current version [" +:+ masterKubeVersion +:+ "]"))
    end)).

Definition WaitForControlPlaneToUpgrade (version : string) : M (W * IKS) unit :=
  i ← get_local;
  wrap_err (λ e, Errorf ("failed to upgrade IKS cluster [" +:+ clusterName i +:+ "] control plane to [" +:+ version +:+
                         "]. Err: [" +:+ Error e +:+ "]"))
    (DoRetryWithTimeout (control_plane_task version) defaultIKSUpgradeTimeout defaultIKSUpgradeRetryInterval).

(** *** Replacing workers *)

Definition replaced (w : Worker) : bool :=
  bool_decide (ActualState w = "deleted") && bool_decide (ReasonForDelete w = "worker_replaced").

Definition waitForWorkerToReplace (workerID : string) : M (W * IKS) (task_result unit) :=
  attempt (by_container (λ i, Workers_Get (clusterName i) workerID (in_group i))) (λ r, mret (match r with
    | inr e => Stop (Errorf ("failed to get worker [" +:+ workerID +:+ "] while waiting for it to be replaced. Err: [" +:+
                             Error e +:+ "]"))
    | inl w =>
        if replaced w then Done tt
        else Retry (Errorf ("waiting for worker [" +:+ workerID +:+ "] to be replaced, desired state [" +:+ DesiredState w +:+
                            "], actual state [" +:+ ActualState w +:+ "]"))
    end)).

Definition ReplaceWorker (workerID : string) : M (W * IKS) unit :=
  i ← get_local;
  '(resp, err) ← by_container (λ i, ReplaceWokerNode (clusterName i) workerID (in_group i));
  let failed := match err with Some e => negb (bool_decide (Error e = Error ErrEmptyResponseBody)) | None => false end in
  if failed then
    throw (Errorf ("failed to replace cluster [" +:+ clusterName i +:+ "] worker [" +:+ workerID +:+ "]. Resp: [" +:+ resp +:+
                   "], Err: [" +:+ default "" (Error <$> err) +:+ "]"))
  else DoRetryWithTimeout (waitForWorkerToReplace workerID) defaultIKSUpgradeTimeout defaultIKSUpgradeRetryInterval.

(** The variable [err] and the channel of one call of [UpgradeWorkerPool].  What is
    sent is what the variable holds then, an error or nil. *)
Record Shared := { shared_err : option error; errChan : list (option error) }.

(** [err = i.ReplaceWorker(worker.ID); if err != nil { errChan <- err }]: a call, a
    store, a load, and another load to send *)
Fixpoint replace_all (workers : list Worker) : R ((W * IKS) * Shared) unit :=
  match workers with
  | [] => mret tt
  | worker :: workers' =>
      result ← act (attempt (up (ReplaceWorker (ID worker))) (λ r, mret (match r with inl _ => None | inr e => Some e end)));
      _ ← act (s ← get_local; put_local {| shared_err := result; errChan := errChan s |});
      seen ← act (s ← get_local; mret (shared_err s));
      _ ← (match seen with
           | Some _ => act (s ← get_local; put_local {| shared_err := shared_err s; errChan := errChan s ++ [shared_err s] |})
           | None => mret tt
           end);
      replace_all workers'
  end.

(** The workers of each location *)
Definition by_location (workers : list Worker) : gmap string (list Worker) :=
  foldl (λ m w, <[Location w := default [] (m !! Location w) ++ [w]]> m) ∅ workers.

(** A goroutine that panics ends the program. *)
Definition crashed {A} (g : Group (W := (W * IKS) * Shared) (A := A)) : option string :=
  head (omap (λ m, match m.2 with Ended (Panic s) => Some s | _ => None end) (members g)).

(** The errors of the channel, [e.Error()] of each: nil has none *)
Fixpoint texts (l : list (option error)) : outcome (list string) :=
  match l with
  | [] => Ok []
  | None :: _ => Panic nil_pointer
  | Some e :: l' => ts ← texts l'; Ok (Error e :: ts)
  end.

(** The goroutines of the locations: their own result is never an error. *)
Definition no_message (_ : string * list Worker) (e : error) : string := Error e.
Definition pool_group (locations : list (string * list Worker)) (w : W * IKS) : Group :=
  start (λ l, replace_all l.2) locations (w, {| shared_err := None; errChan := [] |}).
Definition run_group (choices : list nat) (g : Group) : option (Group (W := (W * IKS) * Shared)) :=
  schedule no_message choices g.

(** [choices] lets the goroutines step until all have ended. *)
Definition UpgradeWorkerPool (choices : list nat) (workerPoolName version : string) : M (W * IKS) unit :=
  i ← get_local;
  workers ← wrap_err (λ e, Errorf ("failed to list workers for pool [" +:+ workerPoolName +:+ "] in cluster [" +:+
                                   clusterName i +:+ "]. Err: " +:+ Error e))
              (by_container (λ i, ListByWorkerPool (clusterName i) workerPoolName false (in_group i)));
  locations ← up (range_map (list Worker) (by_location workers));
  errs ← (λ w, match run_group choices (pool_group locations w) with
               | Some g =>
                   (match crashed g with
                    | Some s => Panic s
                    | None => if finished g then Ok (errChan (g_world g).2) else Diverge
                    end, (g_world g).1)
               | None => (Diverge, w)
               end);
  errors ← lift (texts errs);
  if decide (errors = []) then mret tt
  else throw (Errorf ("failed to upgrade IKS cluster [" +:+ clusterName i +:+ "] worker pool [" +:+ workerPoolName +:+
                      "] to version [" +:+ version +:+ "]. Errs: [" +:+ show_strings errors +:+ "]")).

(** The first worker that is not at the version or not normal is waited for. *)
Definition pool_state (workerPoolName version : string) (workers : list Worker) : task_result unit :=
  match find_first (λ w, negb (HasPrefix (KubeVersion_Actual w) version) || negb (bool_decide (Health_State w = "normal"))) workers with
  | Some w =>
      Retry (Errorf (if HasPrefix (KubeVersion_Actual w) version
                     then "waiting for worker [" +:+ ID w +:+ "] in pool [" +:+ workerPoolName +:+
                          "] to be normal, current state [" +:+ Health_State w +:+ "]"
                     else "waiting for worker [" +:+ ID w +:+ "] in pool [" +:+ workerPoolName +:+
                          "] to be upgraded to version [" +:+ KubeVersion_Desired w +:+ "], current version [" +:+
                          KubeVersion_Actual w +:+ "]"))
  | None => Done tt
  end.

Definition waitForWorkerPoolToUpgrade (workerPoolName version : string) : M (W * IKS) (task_result unit) :=
  i ← get_local;
  attempt (by_container (λ i, ListByWorkerPool (clusterName i) workerPoolName false (in_group i))) (λ r, mret (match r with
    | inr e => Stop (Errorf ("failed to list workers for pool [" +:+ workerPoolName +:+ "] in cluster [" +:+ clusterName i +:+
                             "]. Err: " +:+ Error e))
    | inl workers => pool_state workerPoolName version workers
    end)).

Definition WaitForWorkerPoolToUpgrade (workerPoolName version : string) : M (W * IKS) unit :=
  i ← get_local;
  wrap_err (λ e, Errorf ("failed to upgrade IKS cluster [" +:+ clusterName i +:+ "] worker pool [" +:+ workerPoolName +:+
                         "] to [" +:+ version +:+ "]. Err: [" +:+ Error e +:+ "]"))
    (DoRetryWithTimeout (waitForWorkerPoolToUpgrade workerPoolName version)
       defaultIKSUpgradeTimeout defaultIKSUpgradeRetryInterval).

(** [fmt.Errorf("failed to <do> IKS cluster [%s] <what> [%s], Err: [%v]", i.clusterName, version, err)] *)
Definition step_failed {A} (does what version : string) (m : M (W * IKS) A) : M (W * IKS) A :=
  i ← get_local;
  wrap_err (λ e, Errorf ("failed to " +:+ does +:+ " IKS cluster [" +:+ clusterName i +:+ "] " +:+ what +:+ " [" +:+ version +:+
                         "], Err: [" +:+ Error e +:+ "]")) m.

Definition UpgradeScheduler (choices : list nat) (version : string) : M (W * IKS) unit :=
  _ ← configureIKSClient;
  i ← get_local;
  currentVersion ← wrap_err (λ e, Errorf ("failed to get IKS cluster [" +:+ clusterName i +:+ "] current version, Err: [" +:+
                                          Error e +:+ "]")) GetCurrentVersion;
  _ ← step_failed "set" "control plane version to" version (UpgradeControlPlane version);
  _ ← step_failed "upgrade" "control plane to" version (WaitForControlPlaneToUpgrade version);
  i ← get_local;
  _ ← step_failed "upgrade" "worker pool to" version (UpgradeWorkerPool choices (pxWorkerPoolName i) version);
  i ← get_local;
  step_failed "wait for" "worker pool upgrade to" version (WaitForWorkerPoolToUpgrade (pxWorkerPoolName i) version).

(** *** Scaling, zones, deleting nodes *)

Definition vpc_gen2 (group : string) : ClusterTargetHeader :=
  {| ResourceGroup := group; Provider := "vpc-gen2"; AccountID := "" |}.

Definition GetZones : M (W * IKS) (list string) :=
  _ ← configureIKSClient;
  pool ← by_container (λ i, GetWorkerPool (clusterName i) (pxWorkerPoolName i) (vpc_gen2 ""));
  mret (Zones pool).

Definition DeleteNode (n : Node) : M (W * IKS) unit :=
  _ ← configureIKSClient;
  hostname ← lift (node_Hostname n);
  ReplaceWorker hostname.

Definition GetASGClusterSize : M (W * IKS) Z :=
  _ ← configureIKSClient;
  pool ← by_container (λ i, GetWorkerPool (clusterName i) (pxWorkerPoolName i) (vpc_gen2 (resourceGroupID i)));
  mret (i64 (WorkerCount pool * Z.of_nat (length (Zones pool)))).

Definition resize_task (workerPoolName : string) (expectedWorkerCount : Z) : M (W * IKS) (task_result unit) :=
  attempt (by_container (λ i, ListByWorkerPool (clusterName i) workerPoolName false (in_group i))) (λ r, mret (match r with
    | inr e => Retry e
    | inl currentWorkers =>
        let n := Z.of_nat (length currentWorkers) in
        if decide (n = expectedWorkerCount) then Done tt
        else Retry (Errorf ("number of current worker nodes [" +:+ Itoa n +:+ "]. Waiting for [" +:+ Itoa expectedWorkerCount +:+
                            "] nodes to become HEALTHY"))
    end)).

Definition waitForInstanceGroupResize (workerPoolName : string) (count timeout : Z) : M (W * IKS) unit :=
  pool ← by_container (λ i, GetWorkerPool (clusterName i) workerPoolName (vpc_gen2 ""));
  let expectedWorkerCount := i64 (Z.of_nat (length (Zones pool)) * count) in
  if decide (timeout > 1) then DoRetryWithTimeout (resize_task workerPoolName expectedWorkerCount) timeout (15 * Second)
  else mret tt.

Definition SetASGClusterSize (perZoneCount timeout : Z) : M (W * IKS) unit :=
  _ ← configureIKSClient;
  _ ← by_container (λ i, ResizeWorkerPool (clusterName i) perZoneCount (pxWorkerPoolName i) (vpc_gen2 (resourceGroupID i)));
  i ← get_local;
  waitForInstanceGroupResize (pxWorkerPoolName i) perZoneCount timeout.
End iks.
End Iks.
