(* ===== verification/SchedIksProps.v ===== *)
(** What a successful upgrade on IBM's cloud has seen, which errors its goroutines can
    report, and a client that stays nil. *)

From Stdlib Require Import Ascii.
From S2P Require Import Prelude GoStrings Errors Effects Strconv GoJson Concur Task OpenStorageApi NodeRegistry PxDriver PureDevices SchedCloud SchedIks.

Section iks.
Import Iks.
Context {W : Type} `{Clock W} `{Shell W} `{CloudCore W} `{IksApi W} `{MapOrder W}.

(** *** Calls that leave the driver as it is *)

Definition unchanged (i : IKS) : W * IKS → Prop := λ wl, wl.2 = i.

Lemma unchanged_up {A} i (m : M W A) : preserves (unchanged i) (up m).
Proof. intros [w l] Hl. by rewrite up_eq. Qed.

Lemma unchanged_get i : preserves (unchanged i) (get_local : M (W * IKS) IKS).
Proof. by intros wl Hl. Qed.

Lemma unchanged_sleep i d (wl : W * IKS) : unchanged i wl → unchanged i (sleep d wl).
Proof. done. Qed.
#[local] Hint Resolve unchanged_up unchanged_get unchanged_sleep preserves_ret preserves_throw preserves_panic preserves_lift : iks.

Ltac unchanged := repeat first [ solve [eauto 2 with iks] | apply preserves_DoRetry | preserve_step ].

Lemma by_k8s_unchanged {A} i (f : IKS → M W A) : preserves (unchanged i) (by_k8s f).
Proof. unfold by_k8s. unchanged. Qed.
Lemma by_container_unchanged {A} i (f : IKS → M W A) : preserves (unchanged i) (by_container f).
Proof. unfold by_container. unchanged. Qed.
#[local] Hint Resolve by_k8s_unchanged by_container_unchanged : iks.

Lemma cluster_details_unchanged i : preserves (unchanged i) cluster_details.
Proof. unfold cluster_details. unchanged. Qed.
#[local] Hint Resolve cluster_details_unchanged : iks.

Lemma ReplaceWorker_unchanged i id : preserves (unchanged i) (ReplaceWorker id).
Proof. unfold ReplaceWorker, waitForWorkerToReplace. unchanged. Qed.

Lemma control_plane_unchanged i version : preserves (unchanged i) (WaitForControlPlaneToUpgrade version).
Proof. unfold WaitForControlPlaneToUpgrade, control_plane_task. unchanged. Qed.

(** *** What was seen *)

Lemma by_container_Ok {A} (f : IKS → M W A) w i a wl' :
  by_container f (w, i) = (Ok a, wl') → containerClient i = true ∧ ∃ w', f i w = (Ok a, w') ∧ wl' = (w', i).
Proof.
  unfold by_container. rewrite bind_get_local. destruct (containerClient i); [|done].
  destruct wl' as [w' i']. intros [Hf ->]%up_Ok_inv. eauto.
Qed.

Lemma cluster_details_Ok w i c wl' :
  cluster_details (w, i) = (Ok c, wl') → ∃ w' resp, GetCluster (clusterName i) w = (Ok (Some c, resp, None), w').
Proof.
  unfold cluster_details. rewrite bind_get_local. intros ([[cl resp] err] & [w1 i1] & Hb & Hr)%bind_Ok_inv.
  unfold by_k8s in Hb. rewrite bind_get_local in Hb. destruct (k8sClient i); [|done]. apply up_Ok_inv in Hb as [Hb ->].
  destruct err; [done|]. apply lift_Ok_inv in Hr as [Hd _]. destruct cl; simplify_eq/=. eauto.
Qed.

(** The cluster was seen normal and at the version. *)
Definition control_plane_at (i : IKS) (version : string) : Prop := ∃ (w w' : W) c resp,
  GetCluster (clusterName i) w = (Ok (Some c, resp, None), w') ∧ StringNilMapper (cr_State c) = "normal" ∧
  HasPrefix (StringNilMapper (MasterKubeVersion c)) version = true.

(** So were all workers of the pool. *)
Definition workers_at (i : IKS) (pool version : string) : Prop := ∃ (w w' : W) workers,
  ListByWorkerPool (clusterName i) pool false (in_group i) w = (Ok workers, w') ∧
  ∀ k, k ∈ workers → HasPrefix (KubeVersion_Actual k) version = true ∧ Health_State k = "normal".

Lemma WaitForControlPlaneToUpgrade_Ok version w i wl' :
  WaitForControlPlaneToUpgrade version (w, i) = (Ok tt, wl') → control_plane_at i version ∧ wl'.2 = i.
Proof.
  intros Hr. split; [|replace wl' with (WaitForControlPlaneToUpgrade version (w, i)).2 by (by rewrite Hr); by apply (control_plane_unchanged i)].
  unfold WaitForControlPlaneToUpgrade in Hr. rewrite bind_get_local in Hr. apply wrap_err_Ok_inv in Hr.
  apply (DoRetryWithTimeout_Ok_keeps (unchanged i)) in Hr as ([w1 i1] & Hi & Ht); [|unfold control_plane_task; unchanged|by apply unchanged_sleep|done].
  unfold unchanged in Hi. simpl in Hi. subst i1. unfold control_plane_task in Ht. rewrite bind_get_local in Ht.
  unfold attempt in Ht. destruct (cluster_details (w1, i)) as [[c|e|s|] wl2] eqn:Hc; unfold_m; simplify_eq.
  apply cluster_details_Ok in Hc as (w2 & resp & Hc). case_match eqn:Hb; [|done].
  apply andb_prop in Hb as [Hb%bool_decide_eq_true Hp]. by exists w1, w2, c, resp.
Qed.

Lemma WaitForWorkerPoolToUpgrade_Ok pool version w i wl' :
  WaitForWorkerPoolToUpgrade pool version (w, i) = (Ok tt, wl') → workers_at i pool version ∧ wl'.2 = i.
Proof.
  unfold WaitForWorkerPoolToUpgrade. rewrite bind_get_local. intros Hr%wrap_err_Ok_inv.
  apply (DoRetryWithTimeout_Ok_keeps (unchanged i)) in Hr as ([w1 i1] & Hi & Ht);
    [|unfold waitForWorkerPoolToUpgrade; unchanged|by apply unchanged_sleep|done].
  unfold unchanged in Hi. simpl in Hi. subst i1. unfold waitForWorkerPoolToUpgrade in Ht. rewrite bind_get_local in Ht.
  unfold attempt in Ht. destruct (by_container _ (w1, i)) as [[ws|e|s|] wl2] eqn:Hc; unfold_m; simplify_eq.
  apply by_container_Ok in Hc as (_ & w2 & Hc & ->). split; [|done]. exists w1, w2, ws. split; [done|]. intros k Hk.
  unfold pool_state in *. destruct (find_first _ _) eqn:Hf; [done|]. rewrite find_first_None in Hf. specialize (Hf k Hk).
  apply orb_false_iff in Hf as [Hp%negb_false_iff Hn%negb_false_iff]. by apply bool_decide_eq_true in Hn.
Qed.

Lemma ReplaceWorker_Ok id w i wl' :
  ReplaceWorker id (w, i) = (Ok tt, wl') →
  ∃ w1 w2 k, Workers_Get (clusterName i) id (in_group i) w1 = (Ok k, w2) ∧ replaced k = true.
Proof.
  unfold ReplaceWorker. rewrite bind_get_local. intros ([resp err] & wl1 & Hb & Hr)%bind_Ok_inv.
  apply by_container_Ok in Hb as (_ & w1 & _ & ->). cbv zeta in Hr. case_match; [done|].
  apply (DoRetryWithTimeout_Ok_keeps (unchanged i)) in Hr as ([w2 i2] & Hi & Ht);
    [|unfold waitForWorkerToReplace; unchanged|by apply unchanged_sleep|done].
  unfold unchanged in Hi. simpl in Hi. subst i2. unfold waitForWorkerToReplace, attempt in Ht.
  destruct (by_container _ (w2, i)) as [[k|e|s|] wl2] eqn:Hc; unfold_m; simplify_eq.
  apply by_container_Ok in Hc as (_ & w3 & Hc & ->). exists w2, w3, k. split; [done|]. by case_match.
Qed.

(** *** The goroutines of UpgradeWorkerPool *)

(** An error that the replacement of one of the workers returned *)
Definition genuine (workers : list Worker) (i : IKS) (e : error) : Prop :=
  ∃ k (w w' : W), k ∈ workers ∧ ReplaceWorker (ID k) (w, i) = (Err e, (w', i)).

Record shared_inv (workers : list Worker) (i : IKS) (s : (W * IKS) * Shared) : Prop := {
  inv_driver : unchanged i s.1;
  inv_err : ∀ e, shared_err s.2 = Some e → genuine workers i e;
  inv_chan : ∀ e, Some e ∈ errChan s.2 → genuine workers i e;
}.

Lemma replace_all_inv workers i l :
  (∀ k, k ∈ l → k ∈ workers) → R_ensures (shared_inv workers i) (replace_all l) (λ _, True).
Proof.
  induction l as [|k l IH]; intros Hl; [done|]. cbn [replace_all].
  eapply (R_ensures_bind _ _ _ (λ r, ∀ e, r = Some e → genuine workers i e)).
  { apply R_ensures_act. intros [[w i'] s] [Hi He Hc]. unfold unchanged in Hi. simpl in Hi. subst i'.
    pose proof (ReplaceWorker_unchanged i (ID k) (w, i) eq_refl) as Hu. unfold attempt. rewrite up_eq.
    destruct (ReplaceWorker (ID k) (w, i)) as [o [w1 i1]] eqn:Hr. unfold unchanged in Hu. simpl in Hu. subst i1.
    destruct o; unfold_m; split; try (by constructor); intros r Hr'; simplify_eq/=; try done.
    intros e' [= <-]. exists k, w, w1. split; [apply Hl; by left|done]. }
  intros r Hr. eapply (R_ensures_bind _ _ _ (λ _, True)).
  { apply R_ensures_act. intros [wl s] [Hi He Hc]. split; [by constructor|done]. }
  intros _ _. eapply (R_ensures_bind _ _ _ (λ _, True)).
  { apply R_ensures_act. intros [wl s] Hs. by split. }
  intros seen _. eapply (R_ensures_bind _ _ _ (λ _, True)); [|intros; apply IH; intros; apply Hl; by right].
  destruct seen; [|done]. apply R_ensures_act. intros [wl s] [Hi He Hc]. split; [|done].
  constructor; [done..|]. intros e' [?|Hs%list_elem_of_singleton]%elem_of_app; [by apply Hc|by apply He].
Qed.

Lemma by_location_elem workers loc ws k :
  by_location workers !! loc = Some ws → k ∈ ws → k ∈ workers.
Proof.
  unfold by_location. cut (∀ l (m : gmap string (list Worker)), (∀ loc ws k, m !! loc = Some ws → k ∈ ws → k ∈ workers) →
    (∀ k, k ∈ l → k ∈ workers) →
    ∀ loc ws k, foldl (λ m w, <[Location w := default [] (m !! Location w) ++ [w]]> m) m l !! loc = Some ws → k ∈ ws → k ∈ workers).
  { intros Hall. apply Hall; [|done]. intros ? ? ? Hm. by rewrite lookup_empty in Hm. }
  clear. induction l as [|x l IH]; intros m Hm Hl; simpl; [done|]. apply IH; [|set_solver]. intros loc ws k.
  destruct (decide (Location x = loc)) as [<-|Hne]; [rewrite lookup_insert_eq|by rewrite lookup_insert_ne; [apply Hm|]].
  intros [= <-]. rewrite elem_of_app, list_elem_of_singleton. intros [Hk|Hk]; [|subst k; apply Hl; by left].
  destruct (m !! Location x) eqn:Hx; simpl in Hk; [by eapply Hm|by apply not_elem_of_nil in Hk].
Qed.

Lemma run_group_inv choices locations workers w i g :
  (∀ loc ws k, (loc, ws) ∈ locations → k ∈ ws → k ∈ workers) →
  run_group choices (pool_group locations (w, i)) = Some g → shared_inv workers i (g_world g).
Proof.
  intros Hl Hg. eapply schedule_keeps; [exact Hg| |constructor; [done..|intros e []%not_elem_of_nil]].
  apply Forall_fmap, Forall_forall. intros [loc ws] Hin. unfold compose, keeps_inv. simpl. apply replace_all_inv.
  intros k Hk. by eapply Hl.
Qed.

Lemma texts_genuine l errors :
  texts l = Ok errors → ∀ t, t ∈ errors → ∃ e, Some e ∈ l ∧ t = Error e.
Proof.
  revert errors. induction l as [|[e|] l IH]; intros errors Ht t Hin; simpl in Ht; [|destruct (texts l) as [ts|e'|m|] eqn:Hl|done];
    simplify_eq/=; [by apply not_elem_of_nil in Hin|].
  apply elem_of_cons in Hin as [->|Hin]; [exists e; split; [left|done]|].
  destruct (IH ts eq_refl t Hin) as (e' & ? & ->). exists e'. split; [by right|done].
Qed.

(** The steps of a call of UpgradeWorkerPool that did not diverge or panic *)
Lemma UpgradeWorkerPool_inv `{!MapOrderLaws W} choices pool version w i o w' i' :
  UpgradeWorkerPool choices pool version (w, i) = (o, (w', i')) → (∃ e, o = Err e) ∨ o = Ok tt →
  i' = i ∧ ((∃ w1 e, ListByWorkerPool (clusterName i) pool false (in_group i) w = (Err e, w1)) ∨
  ∃ workers locations w1 w2 g errors,
    ListByWorkerPool (clusterName i) pool false (in_group i) w = (Ok workers, w1) ∧
    locations ≡ₚ map_to_list (by_location workers) ∧
    run_group choices (pool_group locations (w2, i)) = Some g ∧ finished g = true ∧ crashed g = None ∧
    texts (errChan (g_world g).2) = Ok errors ∧
    o = (if decide (errors = []) then Ok tt
         else Err (Errorf ("failed to upgrade IKS cluster [" +:+ clusterName i +:+ "] worker pool [" +:+ pool +:+
                      "] to version [" +:+ version +:+ "]. Errs: [" +:+ show_strings errors +:+ "]")))).
Proof.
  unfold UpgradeWorkerPool. rewrite bind_get_local. intros Hu Ho. unfold mbind at 1, M_bind in Hu.
  unfold wrap_err, attempt in Hu.
  destruct (by_container _ (w, i)) as [[workers|e|s|] [w1 i1]] eqn:Hl; unfold_m.
  4, 3: by destruct Ho as [[? ->]| ->].
  2: { unfold by_container in Hl. rewrite bind_get_local in Hl. destruct (containerClient i); [|done].
       rewrite up_eq in Hl. destruct (ListByWorkerPool _ _ _ _ w) as [ow w2] eqn:Hw. simpl in Hl.
       injection Hl as -> -> ->. injection Hu as _ _ <-. split; [done|]. left. eauto. }
  apply by_container_Ok in Hl as (_ & w2 & Hl & [= -> ->]). rewrite up_eq in Hu.
  destruct (range_map_spec (list Worker) (by_location workers) w2) as (locations & w3 & Hr & Hperm). rewrite Hr in Hu. simpl in Hu.
  destruct (run_group choices (pool_group locations (w3, i))) as [g|] eqn:Hg; [|simplify_eq; by destruct Ho as [[? ?]|?]].
  destruct (crashed g) eqn:Hcr; [simplify_eq; by destruct Ho as [[? ?]|?]|].
  destruct (finished g) eqn:Hf; [|simplify_eq; by destruct Ho as [[? ?]|?]].
  destruct (texts _) as [errors|e|s|] eqn:Ht; [|simplify_eq..]; [|exfalso|by destruct Ho as [[? ?]|?]..].
  2: { clear -Ht. revert e Ht. induction (errChan _) as [|[]]; intros e' Ht; simpl in Ht; [done| |done]. destruct (texts _); by eauto. }
  assert (unchanged i (g_world g).1) as Hi.
  { apply (run_group_inv choices locations workers w3 i); [|done]. intros loc ws k Hin Hk. rewrite Hperm in Hin.
    apply elem_of_map_to_list in Hin. by eapply by_location_elem. }
  unfold unchanged in Hi. destruct (g_world g) as [[wg ig] sg] eqn:Hgw. simpl in *. subst ig.
  assert (i' = i ∧ o = if decide (errors = []) then Ok tt else
    Err (Errorf ("failed to upgrade IKS cluster [" +:+ clusterName i +:+ "] worker pool [" +:+ pool +:+
      "] to version [" +:+ version +:+ "]. Errs: [" +:+ show_strings errors +:+ "]"))) as [-> ->]
    by (case_decide; by simplify_eq).
  split; [done|]. right. exists workers, locations, w2, w3, g, errors. by rewrite Hgw.
Qed.

Lemma locations_elem workers locations loc ws k :
  locations ≡ₚ map_to_list (by_location workers) → (loc, ws) ∈ locations → k ∈ ws → k ∈ workers.
Proof. intros Hp Hin Hk. rewrite Hp in Hin. apply elem_of_map_to_list in Hin. by eapply by_location_elem. Qed.

(** However the goroutines interleave, the errors that UpgradeWorkerPool reports are
    errors that replacing one of the workers of the pool returned. *)
Theorem Iks_reported_errors `{!MapOrderLaws W} choices pool version w i e w' i' :
  UpgradeWorkerPool choices pool version (w, i) = (Err e, (w', i')) →
  (∃ w1 e', ListByWorkerPool (clusterName i) pool false (in_group i) w = (Err e', w1)) ∨
  ∃ workers w1 errors,
    ListByWorkerPool (clusterName i) pool false (in_group i) w = (Ok workers, w1) ∧
    e = Errorf ("failed to upgrade IKS cluster [" +:+ clusterName i +:+ "] worker pool [" +:+ pool +:+
                "] to version [" +:+ version +:+ "]. Errs: [" +:+ show_strings errors +:+ "]") ∧
    ∀ t, t ∈ errors → ∃ e', t = Error e' ∧ genuine workers i e'.
Proof.
  intros Hu. destruct (UpgradeWorkerPool_inv _ _ _ _ _ _ _ _ Hu) as [_ [Hl|Hl]]; [by left; eexists|by left|right].
  destruct Hl as (workers & locations & w1 & w2 & g & errors & Hl & Hp & Hg & _ & _ & Ht & He).
  case_decide; [done|]. injection He as ->. exists workers, w1, errors. split_and!; [done..|].
  intros t (e & Hin & ->)%(texts_genuine _ _ Ht). exists e. split; [done|].
  eapply inv_chan; [|exact Hin]. eapply run_group_inv; [|done]. intros loc ws k. by apply locations_elem.
Qed.

(** *** Workers in one location *)

Lemma by_location_one loc workers :
  workers ≠ [] → (∀ k, k ∈ workers → Location k = loc) → by_location workers = {[loc := workers]}.
Proof.
  intros Hne Hloc. assert (∀ l l0, (∀ k, k ∈ l → Location k = loc) →
    foldl (λ m w, <[Location w := default [] (m !! Location w) ++ [w]]> m) ({[loc := l0]} : gmap string (list Worker)) l = {[loc := l0 ++ l]}) as Hall.
  { clear. induction l as [|k l IH]; intros l0 Hl; simpl; [by rewrite app_nil_r|].
    rewrite (Hl k) by left. rewrite lookup_singleton_eq, insert_singleton_eq. simpl.
    rewrite IH by (intros; apply Hl; by right). by rewrite <- (assoc_L _). }
  destruct workers as [|k l]; [done|]. unfold by_location. simpl. rewrite (Hloc k) by left.
  rewrite lookup_empty, insert_empty. simpl. rewrite Hall; [done|]. intros; apply Hloc; by right.
Qed.

(** A goroutine on its own sends the error of each replacement that failed. *)
Lemma run_replace_step k l (wl : W * IKS) s :
  run (replace_all (k :: l)) (wl, s) =
  match ReplaceWorker (ID k) wl with
  | (Ok _, wl1) => run (replace_all l) (wl1, {| shared_err := None; errChan := errChan s |})
  | (Err e, wl1) => run (replace_all l) (wl1, {| shared_err := Some e; errChan := errChan s ++ [Some e] |})
  | (Panic m, wl1) => (Panic m, (wl1, s))
  | (Diverge, wl1) => (Diverge, (wl1, s))
  end.
Proof.
  cbn [replace_all]. rewrite run_bind_act. unfold mbind at 1, M_bind, attempt. rewrite up_eq.
  by destruct (ReplaceWorker (ID k) wl) as [[[]|e|m|] wl1].
Qed.

Lemma run_replace_all l (wl : W * IKS) s wl' s' :
  run (replace_all l) (wl, s) = (Ok tt, (wl', s')) → errChan s' = [] →
  errChan s = [] ∧ ∀ k, k ∈ l → ∃ wl1 wl2, ReplaceWorker (ID k) wl1 = (Ok tt, wl2) ∧ (unchanged wl.2 wl1 : Prop).
Proof.
  revert wl s. induction l as [|k l IH]; intros wl s Hr Hc.
  { simpl in Hr. unfold lift in Hr. simplify_eq. split; [done|]. by intros k Hk%not_elem_of_nil. }
  rewrite run_replace_step in Hr. pose proof (ReplaceWorker_unchanged wl.2 (ID k) wl eq_refl) as Hu.
  destruct (ReplaceWorker (ID k) wl) as [[[]|e|m|] wl1] eqn:Hk; [| |done..]; destruct (IH _ _ Hr Hc) as [Hs Hl].
  - split; [done|]. intros k' [->|Hk']%elem_of_cons; [by exists wl, wl1|].
    destruct (Hl k' Hk') as (wl2 & wl3 & ? & Hi). exists wl2, wl3. split; [done|]. unfold unchanged in *. simpl in *. by rewrite Hi.
  - by apply app_nil in Hs as [_ ?].
Qed.

Lemma run_replace_no_err l (wl : W * IKS) s e wl' : run (replace_all l) (wl, s) ≠ (Err e, wl').
Proof.
  revert wl s. induction l as [|k l IH]; intros wl s; [done|]. rewrite run_replace_step.
  by destruct (ReplaceWorker (ID k) wl) as [[[]|e'|m|] wl1].
Qed.

(** C20. With all workers in one location, UpgradeWorkerPool succeeds only when every
    worker was seen deleted because it was replaced. *)
Theorem Iks_UpgradeWorkerPool_success `{!MapOrderLaws W} choices pool version w i w' i' workers w1 loc :
  UpgradeWorkerPool choices pool version (w, i) = (Ok tt, (w', i')) →
  ListByWorkerPool (clusterName i) pool false (in_group i) w = (Ok workers, w1) →
  (∀ k, k ∈ workers → Location k = loc) →
  ∀ k, k ∈ workers → ∃ w2 w3 k', Workers_Get (clusterName i) (ID k) (in_group i) w2 = (Ok k', w3) ∧ replaced k' = true.
Proof.
  intros Hu Hw Hloc k Hk. destruct (UpgradeWorkerPool_inv _ _ _ _ _ _ _ _ Hu) as [_ Hl]; [by right|].
  rewrite Hw in Hl. destruct Hl as [(? & ? & ?)|(workers' & locations & w2 & w3 & g & errors & [= <- <-] & Hp & Hg & Hf & Hcr & Ht & He)]; [done|].
  rewrite (by_location_one loc) in Hp by (done || by intros ->; apply not_elem_of_nil in Hk).
  rewrite map_to_list_singleton in Hp. apply Permutation_singleton_r in Hp as ->.
  destruct (schedule_one _ _ _ _ _ _ _ Hg Hf) as (o & Hr & Hm & Hd). unfold crashed in Hcr. rewrite Hm in Hcr.
  case_decide as Herr; [|done]. subst errors.
  assert (errChan (g_world g).2 = []) as Hc.
  { destruct (errChan _) as [|[e|] l]; [done| |done]. simpl in Ht. by destruct (texts l). }
  destruct (g_world g) as [wl' s']. simpl in Hc, Hr.
  destruct o as [[]|e|m|]; [|exfalso|done..].
  - destruct (run_replace_all _ _ _ _ _ Hr Hc) as [_ Hall]. destruct (Hall k Hk) as ([w4 i4] & wl5 & Hrk & Hi).
    unfold unchanged in Hi. simpl in Hi. subst i4. by apply ReplaceWorker_Ok in Hrk.
  - by eapply run_replace_no_err.
Qed.

(** *** The upgrade *)

(** C19. However the goroutines interleave, after a successful upgrade the control plane was
    seen normal at the version, and then all workers of the pool were. *)
Theorem Iks_UpgradeScheduler_success `{!MapOrderLaws W} choices version wl w' i :
  UpgradeScheduler choices version wl = (Ok tt, (w', i)) →
  control_plane_at i version ∧ workers_at i (pxWorkerPoolName i) version.
Proof.
  unfold UpgradeScheduler. intros ([] & [w1 i1] & _ & Hr)%bind_Ok_inv. rewrite bind_get_local in Hr.
  apply bind_Ok_inv in Hr as (cur & [w2 i2] & _ & Hr). apply bind_Ok_inv in Hr as ([] & [w3 i3] & _ & Hr).
  apply bind_Ok_inv in Hr as ([] & [w4 i4] & Hc & Hr). unfold step_failed in Hc. rewrite bind_get_local in Hc.
  apply wrap_err_Ok_inv, WaitForControlPlaneToUpgrade_Ok in Hc as [Hc Hi]. simpl in Hi. subst i4.
  rewrite bind_get_local in Hr. apply bind_Ok_inv in Hr as ([] & [w5 i5] & Hp & Hr).
  unfold step_failed in Hp. rewrite bind_get_local in Hp. apply wrap_err_Ok_inv in Hp.
  destruct (UpgradeWorkerPool_inv _ _ _ _ _ _ _ _ Hp) as [-> _]; [by right|].
  rewrite bind_get_local in Hr. unfold step_failed in Hr. rewrite bind_get_local in Hr.
  apply wrap_err_Ok_inv, WaitForWorkerPoolToUpgrade_Ok in Hr as [Hw Hi]. simpl in Hi. by subst i3.
Qed.

(** *** A lost client

    When a later configuration fails to make the container client, the driver keeps the
    other client, and the next call takes it for configured and panics. *)
Theorem Iks_configure_lost_client (w : W) i n :
  k8sClient i = true → containerClient i = false → is_Some (storageNode n) →
  configureIKSClient (w, i) = (Ok tt, (w, i)) ∧
  GetZones (w, i) = (Panic nil_pointer, (w, i)) ∧ DeleteNode n (w, i) = (Panic nil_pointer, (w, i)).
Proof.
  intros Hk Hc [sn Hn]. assert (configureIKSClient (w, i) = (Ok tt, (w, i))) as Hcf.
  { unfold configureIKSClient. rewrite bind_get_local. by rewrite Hk, Hc. }
  split; [done|]. unfold GetZones, DeleteNode, ReplaceWorker, node_Hostname.
  rewrite !(bind_Ok _ _ _ _ _ Hcf). unfold by_container, mbind, M_bind, get_local, deref. simpl. rewrite Hn, Hc. done.
Qed.
End iks.
