(* ===== verification/SchedEks.v ===== *)
(** drivers/scheduler/eks/eks.go: the Kubernetes scheduler on Amazon's cloud.

    The driver's fields are the local component of the world: whether the clients were
    made, the cluster, its region and its node group.  A pointer of the SDK's answers is an
    option. *)

From Stdlib Require Import Ascii.
From S2P Require Import Prelude GoStrings Errors Effects Strconv GoJson Task OpenStorageApi NodeRegistry AutopilotRules PxDriver PureDevices K8sAutopilot SchedCloud.

Module Eks.

Definition defaultEKSUpgradeTimeout : Z := 90 * Minute.
Definition defaultEKSUpgradeRetryInterval : Z := 5 * Minute.

(** The three clients that are made of the configuration are made together. *)
Record EKS := {
  clusterName : string;
  region : string;
  clients : bool;
  svcSsm : bool;
  pxNodeGroupName : string;
  isConfigured : bool;
}.

Definition with_clusterName x '(Build_EKS _ b c d e f) := Build_EKS x b c d e f.
Definition with_region x '(Build_EKS a _ c d e f) := Build_EKS a x c d e f.
Definition with_clients x '(Build_EKS a b _ d e f) := Build_EKS a b x d e f.
Definition with_svcSsm x '(Build_EKS a b c _ e f) := Build_EKS a b c x e f.
Definition with_pxNodeGroupName x '(Build_EKS a b c d _ f) := Build_EKS a b c d x f.
Definition with_isConfigured x '(Build_EKS a b c d e _) := Build_EKS a b c d e x.

Record Cluster := { cl_Status : string; cl_Version : option string }.

(** The names of the scaling groups, of the resources of the group *)
Record Nodegroup := {
  ng_Status : string;
  ReleaseVersion : option string;
  AutoScalingGroups : option (list (option string));
}.

Record Instance := {
  InstanceId : option string;
  PrivateIpAddress : option string;
  AvailabilityZone : option string;   (* of the placement *)
  Tags : list (option string);        (* their keys *)
}.

Definition StatusActive : string := "ACTIVE".

(** [aws.ToString], [aws.ToInt32] *)
Definition ToString (s : option string) : string := default "" s.
Definition ToInt32 (z : option Z) : Z := default 0 z.

(** [DescribeInstances] answers with reservations, [pages] with the pages of a paginator
    that is read to the end. *)
Class EksApi (W : Type) := {
  LoadDefaultConfig : string → M W unit;
  NewSession : M W unit;
  DescribeCluster : string → M W (option Cluster);
  UpdateClusterVersion : string → string → M W unit;
  UpdateNodegroupVersion : string → string → string → M W unit;
  UpdateNodegroupConfig : string → string → option Z → option Z → M W unit;
  DescribeNodegroup : string → string → M W (option Nodegroup);
  DescribeInstances : list string → M W (list (list Instance));
  pages : list (string * list string) → M W (list (list (list Instance)));
  TerminateInstances : list string → M W unit;
  DescribeAutoScalingGroups : list string → M W (list (option Z));
  UpdateAutoScalingGroup : string → Z → Z → Z → M W unit;
  SendCommand : string → string → string → M W (option (option string));
  ListCommandInvocations : option string → M W (list (option string) * option error);
}.

Section eks.
Context {W : Type} `{Clock W} `{Shell W} `{CloudCore W} `{EksApi W} `{MapOrder W} (K8s_Init : M W unit).

Definition Init : M (W * EKS) unit := up K8s_Init.

(** A call of one of the clients *)
Definition by_client {A} (f : EKS → M W A) : M (W * EKS) A :=
  e ← get_local; if clients e then up (f e) else panic nil_pointer.

Definition by_ssm {A} (m : M W A) : M (W * EKS) A :=
  e ← get_local; if svcSsm e then up m else panic nil_pointer.

(** *** Configuring the clients *)

Definition nodeGroupLabel : string := "eks.amazonaws.com/nodegroup".
Definition ec2InstanceLabel : string := "kubernetes.io/cluster/".

(** The name of the cluster in the first of an instance's tags that has one *)
Definition tagged_cluster (i : Instance) : option string :=
  key ← find_first (λ k, HasPrefix k ec2InstanceLabel) (ToString <$> Tags i);
  Some (TrimPrefix key ec2InstanceLabel).

(** The loop over the nodes: the last instance with a tag names the cluster. *)
Fixpoint find_cluster (nodes : list CloudNode) : M (W * EKS) unit :=
  match nodes with
  | [] => mret tt
  | n :: nodes' =>
      let splitID := Split (cn_ProviderID n) "/" in
      if decide (length splitID < 5)%nat then
        throw (Errorf ("unexpected format of provider ID [" +:+ cn_ProviderID n +:+ "]"))
      else
        instanceID ← lift (index splitID 4);
        reservations ← wrap_err (λ err, Errorf ("failed to describe EC2 instance [" +:+ instanceID +:+ "]. Err: [" +:+
                                                Error err +:+ "]")) (by_client (λ _, DescribeInstances [instanceID]));
        _ ← for_each (λ i, match tagged_cluster i with Some c => set (with_clusterName c) | None => mret tt end)
              (concat reservations);
        find_cluster nodes'
  end.

Definition configure : M (W * EKS) unit :=
  pods ← up (core_GetPods "default");
  nodes ← up core_GetNodes;
  let torpedoNodeGroupName := torpedo_group nodeGroupLabel (torpedo_node pods) nodes in
  _ ← from_env "EKS_PX_NODEGROUP_NAME" nodeGroupLabel nodeGroupLabel torpedoNodeGroupName nodes with_pxNodeGroupName;
  _ ← from_env "EKS_CLUSTER_REGION" nodeRegionLabel nodeGroupLabel torpedoNodeGroupName nodes with_region;
  e ← get_local;
  _ ← wrap_err (λ err, Errorf ("unable to load config for region [" +:+ region e +:+ "]. Err: [" +:+ Error err +:+ "]"))
        (up (LoadDefaultConfig (region e)));
  _ ← set (with_clients true);
  _ ← set (with_clusterName (Getenv "EKS_CLUSTER_NAME"));
  _ ← (if decide (Getenv "EKS_CLUSTER_NAME" = "") then
         _ ← find_cluster (default [] nodes);
         e ← get_local;
         if decide (clusterName e = "")
         then throw (Errorf ("env EKS_CLUSTER_NAME or EC2 instance label [" +:+ ec2InstanceLabel +:+ "] not set"))
         else set (with_isConfigured true)
       else mret tt);
  _ ← attempt (up NewSession) (λ r, match r with inl _ => mret tt | inr err => panic (Error err) end);
  set (with_svcSsm true).

Definition configureEKSClient : M (W * EKS) unit :=
  e ← get_local; if isConfigured e then mret tt else configure.

(** [if err != nil { return fmt.Errorf("failed to configure EKS client. Err: [%v]", err) }] *)
Definition configured : M (W * EKS) unit :=
  wrap_err (λ err, Errorf ("failed to configure EKS client. Err: [" +:+ Error err +:+ "]")) configureEKSClient.

(** *** Upgrading *)

Definition no_cluster (name : string) : error := Errorf ("failed to describe EKS cluster [" +:+ name +:+ "], cluster not found").

Definition GetCurrentVersion : M (W * EKS) string :=
  e ← get_local;
  c ← wrap_err (λ err, Errorf ("failed to describe EKS cluster [" +:+ clusterName e +:+ "], Err: [" +:+ Error err +:+ "]"))
        (by_client (λ e, DescribeCluster (clusterName e)));
  match c with
  | None => throw (no_cluster (clusterName e))
  | Some c => mret (ToString (cl_Version c))
  end.

Definition UpgradeControlPlane (version : string) : M (W * EKS) unit :=
  e ← get_local;
  wrap_err (λ err, Errorf ("failed to set EKS cluster [" +:+ clusterName e +:+ "] control plane version to [" +:+ version +:+
                           "], Err: [" +:+ Error err +:+ "]"))
    (by_client (λ e, UpdateClusterVersion (clusterName e) version)).

Definition control_plane_state (name version : string) (c : option Cluster) : task_result unit :=
  match c with
  | None => Stop (no_cluster name)
  | Some c =>
      let currentVersion := ToString (cl_Version c) in
      if bool_decide (cl_Status c = StatusActive) && bool_decide (currentVersion = version) then Done tt
      else Retry (Errorf ("waiting for EKS cluster [" +:+ name +:+ "] control plane upgrade to [" +:+ version +:+
                          "] to complete, expected status [" +:+ StatusActive +:+ "], actual status [" +:+ cl_Status c +:+
                          "], current version [" +:+ currentVersion +:+ "]"))
  end.

(** An attempt that asks once, and stops with the error of that *)
Definition asking {A} (ask : EKS → M W A) (judge : string → A → task_result unit) : M (W * EKS) (task_result unit) :=
  e ← get_local;
  attempt (by_client ask) (λ r, mret (match r with inl a => judge (clusterName e) a | inr err => Stop err end)).

Definition control_plane_task (version : string) : M (W * EKS) (task_result unit) :=
  asking (λ e, DescribeCluster (clusterName e)) (λ name, control_plane_state name version).

Definition WaitForControlPlaneToUpgrade (version : string) : M (W * EKS) unit :=
  e ← get_local;
  wrap_err (λ err, Errorf ("failed to upgrade EKS cluster [" +:+ clusterName e +:+ "] control plane to [" +:+ version +:+
                           "], Err: [" +:+ Error err +:+ "]"))
    (DoRetryWithTimeout (control_plane_task version) defaultEKSUpgradeTimeout defaultEKSUpgradeRetryInterval).

Definition UpgradeNodeGroup (nodeGroupName version : string) : M (W * EKS) unit :=
  e ← get_local;
  wrap_err (λ err, Errorf ("failed to upgrade EKS cluster [" +:+ clusterName e +:+ "] node group [" +:+ nodeGroupName +:+
                           "] version to [" +:+ version +:+ "], Err: [" +:+ Error err +:+ "]"))
    (by_client (λ e, UpdateNodegroupVersion (clusterName e) nodeGroupName version)).

Definition update_state (nodeGroupName name : string) (g : option Nodegroup) : task_result unit :=
  match g with
  | None => Stop (Errorf ("failed to describe EKS cluster [" +:+ name +:+ "] Node Group [" +:+ nodeGroupName +:+
                          "], node group not found"))
  | Some g =>
      if decide (ng_Status g = StatusActive) then Done tt
      else Retry (Errorf ("waiting for EKS cluster [" +:+ name +:+ "] Node Group [" +:+ nodeGroupName +:+
                          "] update to complete, expected status [" +:+ StatusActive +:+ "], actual status [" +:+
                          ng_Status g +:+ "]"))
  end.

Definition WaitForNodeGroupUpdate (nodeGroupName : string) : M (W * EKS) unit :=
  e ← get_local;
  wrap_err (λ err, Errorf ("failed to update EKS cluster [" +:+ clusterName e +:+ "] Node Group [" +:+ nodeGroupName +:+
                           "], Err: [" +:+ Error err +:+ "]"))
    (DoRetryWithTimeout (asking (λ e, DescribeNodegroup (clusterName e) nodeGroupName) (update_state nodeGroupName))
       defaultEKSUpgradeTimeout defaultEKSUpgradeRetryInterval).

(** A value of the environment as an [*int32]: nil when there is none *)
Definition max_unavailable (var what : string) : outcome (option Z) :=
  let v := Getenv var in
  if decide (v = "") then Ok None
  else match Atoi v with
       | Ok z => Ok (Some (i32 z))
       | Err err => Err (Errorf ("failed to convert " +:+ what +:+ " string [" +:+ v +:+ "] to int, Err: " +:+ Error err))
       | Panic m => Panic m
       | Diverge => Diverge
       end.

Definition SetMaxUnavailableForUpgradeInNodeGroup (nodeGroupName : string) : M (W * EKS) unit :=
  e ← get_local;
  nodes ← lift (max_unavailable "EKS_MAX_UNAVAILABLE_NODES_VALUE" "maxUnavailableNode");
  percentage ← lift (max_unavailable "EKS_MAX_UNAVAILABLE_PERCENTAGE_VALUE" "maxUnavailablePercentage");
  match nodes, percentage with
  | None, None => mret tt
  | _, _ =>
      _ ← wrap_err (λ err, Errorf ("failed to configure Max Unavailable for EKS cluster [" +:+ clusterName e +:+
                                   "] node group [" +:+ nodeGroupName +:+ "], Err: [" +:+ Error err +:+ "]"))
            (by_client (λ e, UpdateNodegroupConfig (clusterName e) nodeGroupName nodes percentage));
      WaitForNodeGroupUpdate nodeGroupName
  end.

Definition group_state (nodeGroupName version name : string) (g : option Nodegroup) : task_result unit :=
  match g with
  | None => Stop (Errorf ("failed to describe EKS cluster [" +:+ name +:+ "] node group [" +:+ nodeGroupName +:+
                          "], node group not found"))
  | Some g =>
      let releaseVersion := ToString (ReleaseVersion g) in
      if bool_decide (ng_Status g = StatusActive) && HasPrefix releaseVersion version then Done tt
      else Retry (Errorf ("waiting for EKS cluster [" +:+ name +:+ "] node group [" +:+ nodeGroupName +:+ "] upgrade to [" +:+
                          version +:+ "] to complete, expected status [" +:+ StatusActive +:+ "], actual status [" +:+
                          ng_Status g +:+ "], current release version [" +:+ releaseVersion +:+ "]"))
  end.

Definition WaitForNodeGroupToUpgrade (nodeGroupName version : string) : M (W * EKS) unit :=
  e ← get_local;
  wrap_err (λ err, Errorf ("failed to upgrade EKS cluster [" +:+ clusterName e +:+ "] node group [" +:+ nodeGroupName +:+
                           "] to version [" +:+ version +:+ "], Err: [" +:+ Error err +:+ "]"))
    (DoRetryWithTimeout (asking (λ e, DescribeNodegroup (clusterName e) nodeGroupName) (group_state nodeGroupName version))
       defaultEKSUpgradeTimeout defaultEKSUpgradeRetryInterval).

(** A step of the upgrade; its message names the cluster and what was to be done. *)
Definition upgrade_step (does : string) (rest : EKS → string) (m : EKS → M (W * EKS) unit) : M (W * EKS) unit :=
  e ← get_local;
  wrap_err (λ err, Errorf ("failed to " +:+ does +:+ " EKS cluster [" +:+ clusterName e +:+ "] " +:+ rest e +:+
                           " Err: [" +:+ Error err +:+ "]")) (m e).

Definition UpgradeScheduler (version : string) : M (W * EKS) unit :=
  _ ← configured;
  _ ← upgrade_step "get" (λ _, "current version,") (λ _, _ ← GetCurrentVersion; mret tt);
  _ ← upgrade_step "set" (λ _, "control plane version to [" +:+ version +:+ "],") (λ _, UpgradeControlPlane version);
  _ ← upgrade_step "wait for" (λ _, "control plane to be upgraded to [" +:+ version +:+ "],")
        (λ _, WaitForControlPlaneToUpgrade version);
  _ ← upgrade_step "configure" (λ e, "node group [" +:+ pxNodeGroupName e +:+ "] Max Unavailable values,")
        (λ e, SetMaxUnavailableForUpgradeInNodeGroup (pxNodeGroupName e));
  _ ← upgrade_step "upgrade" (λ e, "node group [" +:+ pxNodeGroupName e +:+ "] to [" +:+ version +:+ "].")
        (λ e, UpgradeNodeGroup (pxNodeGroupName e) version);
  upgrade_step "wait for" (λ e, "node group [" +:+ pxNodeGroupName e +:+ "] to be upgraded to [" +:+ version +:+ "].")
    (λ e, WaitForNodeGroupToUpgrade (pxNodeGroupName e) version).

(** *** Instances *)

Definition instance_filters (e : EKS) : list (string * list string) :=
  [("tag:kubernetes.io/cluster/" +:+ clusterName e, ["owned"]); ("tag:eks:nodegroup-name", [pxNodeGroupName e])].

Definition getAllInstances : M (W * EKS) (list Instance) :=
  _ ← configured;
  e ← get_local;
  resps ← wrap_err (λ err, Errorf ("failed to list instances in [" +:+ region e +:+ "]. Err: [" +:+ Error err +:+ "]"))
            (by_client (λ e, pages (instance_filters e)));
  mret (concat (concat resps)).

(** The instances, with the error of getting them wrapped *)
Definition instances_of_cluster : M (W * EKS) (list Instance) :=
  _ ← configured;
  attempt getAllInstances (λ r, e ← get_local;
    match r with
    | inl l => mret l
    | inr err => throw (Errorf ("failed to get instances in EKS cluster [" +:+ clusterName e +:+ "]. Err: [" +:+ Error err +:+ "]"))
    end).

Definition GetZones : M (W * EKS) (list string) :=
  instances ← instances_of_cluster;
  let zoneMap : gmap string bool := foldl (λ m z, <[z := true]> m) ∅ (omap AvailabilityZone instances) in
  zones ← up (range_map bool zoneMap);
  mret (map fst zones).

Definition has_address (n : Node) (i : Instance) : bool :=
  existsb (λ addr, bool_decide (ToString (PrivateIpAddress i) = addr)) (Addresses n).

Definition getInstanceIDByPrivateIpAddress (n : Node) : M (W * EKS) string :=
  instances ← instances_of_cluster;
  match find_first (has_address n) instances with
  | Some i => mret (ToString (InstanceId i))
  | None => throw (Errorf ("failed to get node [" +:+ Name n +:+ "] instanceID by privateIP address"))
  end.

Definition DeleteNode (n : Node) : M (W * EKS) unit :=
  _ ← configured;
  let failed what := λ err, NodeErr NdErrFailedToDeleteNode (Name n) ("failed to " +:+ what +:+ " due to: " +:+ Error err) in
  instanceID ← wrap_err (failed "get instance ID") (getInstanceIDByPrivateIpAddress n);
  wrap_err (failed "terminate instance") (by_client (λ _, TerminateInstances [instanceID])).

(** *** The scaling group *)

Definition GetASGName : M (W * EKS) string :=
  _ ← configured;
  e ← get_local;
  g ← wrap_err (λ err, Errorf ("failed to describe node group [" +:+ pxNodeGroupName e +:+ "]. Err: [" +:+ Error err +:+ "]"))
        (by_client (λ e, DescribeNodegroup (clusterName e) (pxNodeGroupName e)));
  g ← lift (deref g);
  groups ← lift (deref (AutoScalingGroups g));
  match groups with
  | [] => throw (Errorf ("no auto scaling groups found for node group [" +:+ pxNodeGroupName e +:+ "]"))
  | name :: _ => mret (ToString name)
  end.

Definition describe_asg (asgName : string) : M (W * EKS) (list (option Z)) :=
  wrap_err (λ err, Errorf ("failed to describe ASG [" +:+ asgName +:+ "]. Err: [" +:+ Error err +:+ "]"))
    (by_client (λ _, DescribeAutoScalingGroups [asgName])).

Definition GetASGClusterSize : M (W * EKS) Z :=
  _ ← configured;
  asgName ← GetASGName;
  asg ← describe_asg asgName;
  match asg with
  | capacity :: _ => mret (ToInt32 capacity)
  | [] => throw (Errorf ("no information found for ASG [" +:+ asgName +:+ "]"))
  end.

Definition scale_task (asgName : string) (desiredCapacity : Z) : M (W * EKS) (task_result unit) :=
  attempt (describe_asg asgName) (λ r, mret (match r with
    | inr err => Stop err
    | inl [] => Stop (Errorf ("ASG [" +:+ asgName +:+ "] not found"))
    | inl (capacity :: _) =>
        let currentCapacity := ToInt32 capacity in
        if decide (currentCapacity = i32 desiredCapacity) then Done tt
        else Retry (Errorf ("waiting for ASG [" +:+ asgName +:+ "] to scale. Current desired capacity: [" +:+
                            Itoa currentCapacity +:+ "], expected: [" +:+ Itoa desiredCapacity +:+ "]"))
    end)).

Definition SetASGClusterSize (perZoneCount timeout : Z) : M (W * EKS) unit :=
  _ ← configured;
  asgName ← GetASGName;
  let size := Itoa perZoneCount in
  _ ← wrap_err (λ err, Errorf ("failed to update auto scaling group [" +:+ asgName +:+ "] settings. Min: [" +:+ size +:+
                               "], Max: [" +:+ size +:+ "], Desired: [" +:+ size +:+ "], Err: [" +:+ Error err +:+ "]"))
        (by_client (λ _, UpdateAutoScalingGroup asgName (i32 perZoneCount) (i32 perZoneCount) (i32 perZoneCount)));
  wrap_err (λ err, Errorf ("timeout waiting for ASG [" +:+ asgName +:+ "] to reach desired capacity [" +:+ size +:+
                           "]. Err: [" +:+ Error err +:+ "]"))
    (DoRetryWithTimeout (scale_task asgName perZoneCount) timeout defaultEKSUpgradeRetryInterval).

(** *** The kubelet *)

(** The status of the last invocation that was looked at, or success *)
Fixpoint invocation_status (status : string) (l : list (option string)) : outcome (option string) :=
  match l with
  | [] => Ok (Some status)
  | details :: l' =>
      d ← deref details;
      let status' := TrimSpace d in
      if decide (status' = "Success") then Ok None else invocation_status status' l'
  end.

(** The error of the listing is dropped; the library answers with an empty list beside it. *)
Definition connect (n : Node) (commandId : option string) : M (W * EKS) unit :=
  '(listed, _) ← by_ssm (ListCommandInvocations commandId);
  status ← lift (invocation_status "" listed);
  match status with
  | None => mret tt
  | Some s => throw (NodeErr NdErrFailedToTestConnection (Name n) ("Failed to connect. Command status is " +:+ s))
  end.

(** StopKubelet and StartKubelet differ in the command. *)
Definition on_kubelet (command : string) (n : Node) (options : ConnectionOpts) : M (W * EKS) unit :=
  instanceID ← getInstanceIDByPrivateIpAddress n;
  let failed := NodeErr NdErrFailedToRunCommand (Name n) in
  sent ← wrap_err (λ err, failed ("failed to send command to instance " +:+ instanceID +:+ ": " +:+ Error err))
           (by_ssm (SendCommand command "AWS-RunShellScript" instanceID));
  match sent with
  | Some (Some commandId) =>
      wrap_err (λ err, failed (Error err))
        (DoRetryWithTimeout (attempt (connect n (Some commandId)) (λ r,
           mret (match r with inl _ => Done tt | inr err => Retry err end))) (Timeout options) (TimeBeforeRetry options))
  | _ => throw (Errorf ("no command returned after sending command to " +:+ instanceID))
  end.

Definition StopKubelet : Node → ConnectionOpts → M (W * EKS) unit := on_kubelet "sudo systemctl stop kubelet".
Definition StartKubelet : Node → ConnectionOpts → M (W * EKS) unit := on_kubelet "sudo systemctl start kubelet".
End eks.
End Eks.
