(* ===== verification/SchedEksProps.v ===== *)
(** What a successful upgrade or scaling on Amazon's cloud has seen, and a driver that is
    configured at every call. *)

From Stdlib Require Import Ascii.
From S2P Require Import Prelude GoStrings Errors Effects Strconv GoJson Task OpenStorageApi NodeRegistry AutopilotRules PxDriver PureDevices K8sAutopilot SchedCloud SchedEks.

Section eks.
Import Eks.
Context {W : Type} `{Clock W} `{Shell W} `{CloudCore W} `{EksApi W} `{MapOrder W}.

(** *** Calls that leave the driver as it is *)

Definition eks_is (e : EKS) : W * EKS → Prop := λ wl, wl.2 = e.

Lemma eks_is_up {A} e (m : M W A) : preserves (eks_is e) (up m).
Proof. intros [w l] Hl. by rewrite up_eq. Qed.

Lemma eks_is_get e : preserves (eks_is e) (get_local : M (W * EKS) EKS).
Proof. by intros wl Hl. Qed.

Lemma eks_is_sleep e d (wl : W * EKS) : eks_is e wl → eks_is e (sleep d wl).
Proof. done. Qed.
#[local] Hint Resolve eks_is_up eks_is_get eks_is_sleep preserves_ret preserves_throw preserves_panic preserves_lift : eks.

Ltac eks_keep := repeat first [ solve [eauto 2 with eks] | apply preserves_DoRetry | preserve_step ].

Lemma by_client_keeps {A} e (f : EKS → M W A) : preserves (eks_is e) (by_client f).
Proof. unfold by_client. eks_keep. Qed.
#[local] Hint Resolve by_client_keeps : eks.

Lemma asking_keeps {A} e (ask : EKS → M W A) judge : preserves (eks_is e) (asking ask judge).
Proof. unfold asking. eks_keep. Qed.
#[local] Hint Resolve asking_keeps : eks.

(** The result of a call that leaves the driver as it is *)
Lemma kept {A} e (m : M (W * EKS) A) w o wl' : preserves (eks_is e) m → m (w, e) = (o, wl') → wl'.2 = e.
Proof. intros Hm Hr. specialize (Hm (w, e) eq_refl). by rewrite Hr in Hm. Qed.

Lemma by_client_Ok {A} (f : EKS → M W A) w e a wl' :
  by_client f (w, e) = (Ok a, wl') → ∃ w', f e w = (Ok a, w') ∧ wl' = (w', e).
Proof.
  unfold by_client. rewrite bind_get_local. destruct (clients e); [|done].
  destruct wl' as [w' e']. intros [Hf ->]%up_Ok_inv. eauto.
Qed.

(** A wait that ended: an answer that the judge accepted *)
Lemma asking_wait {A} h (ask : EKS → M W A) judge timeout i w e wl' :
  wrap_err h (DoRetryWithTimeout (asking ask judge) timeout i) (w, e) = (Ok tt, wl') →
  wl'.2 = e ∧ ∃ w1 w2 a, ask e w1 = (Ok a, w2) ∧ judge (clusterName e) a = Done tt.
Proof.
  intros Hr%wrap_err_Ok_inv.
  apply (DoRetryWithTimeout_Ok_keeps (eks_is e)) in Hr as ([w1 e1] & He & Ht); [|eks_keep|by apply eks_is_sleep|done].
  unfold eks_is in He. simpl in He. subst e1. unfold asking in Ht. rewrite bind_get_local in Ht. unfold attempt in Ht.
  destruct (by_client ask (w1, e)) as [[a|err|s|] wl2] eqn:Hc; unfold_m; simplify_eq.
  apply by_client_Ok in Hc as (w2 & Hc & ->). split; [done|]. exists w1, w2, a. by split.
Qed.

(** *** The upgrade *)

Lemma upgrade_step_Ok does rest (m : EKS → M (W * EKS) unit) w e wl' :
  upgrade_step does rest m (w, e) = (Ok tt, wl') → m e (w, e) = (Ok tt, wl').
Proof. unfold upgrade_step. rewrite bind_get_local. apply wrap_err_Ok_inv. Qed.

Lemma SetMaxUnavailable_keeps e group : preserves (eks_is e) (SetMaxUnavailableForUpgradeInNodeGroup group).
Proof. unfold SetMaxUnavailableForUpgradeInNodeGroup, WaitForNodeGroupUpdate. eks_keep. Qed.

Lemma UpgradeNodeGroup_keeps e group version : preserves (eks_is e) (UpgradeNodeGroup group version).
Proof. unfold UpgradeNodeGroup. eks_keep. Qed.

(** After a successful upgrade the control plane was seen active at exactly the version,
    and then the node group was seen active at a release of it. *)
Theorem Eks_UpgradeScheduler_success version wl w' e :
  UpgradeScheduler version wl = (Ok tt, (w', e)) →
  (∃ w1 w2 c, DescribeCluster (clusterName e) w1 = (Ok (Some c), w2) ∧ cl_Status c = StatusActive ∧
     ToString (cl_Version c) = version) ∧
  ∃ w1 w2 g, DescribeNodegroup (clusterName e) (pxNodeGroupName e) w1 = (Ok (Some g), w2) ∧ ng_Status g = StatusActive ∧
     HasPrefix (ToString (ReleaseVersion g)) version = true.
Proof.
  unfold UpgradeScheduler. intros ([] & wl1 & _ & Hr)%bind_Ok_inv. do 2 apply bind_Ok_inv in Hr as ([] & ? & _ & Hr).
  apply bind_Ok_inv in Hr as ([] & [w2 e2] & Hc & Hr). match type of Hc with _ ?x = _ => destruct x as [w1 e1] end.
  apply upgrade_step_Ok in Hc. unfold WaitForControlPlaneToUpgrade in Hc. rewrite bind_get_local in Hc.
  apply asking_wait in Hc as (Hk & w3 & w4 & c & Hc & Hj). simpl in Hk. subst e2.
  apply bind_Ok_inv in Hr as ([] & [w5 e5] & Hm%upgrade_step_Ok & Hr). apply (kept e1) in Hm; [|apply SetMaxUnavailable_keeps].
  simpl in Hm. subst e5. apply bind_Ok_inv in Hr as ([] & [w6 e6] & Hu%upgrade_step_Ok & Hr).
  apply (kept e1) in Hu; [|apply UpgradeNodeGroup_keeps]. simpl in Hu. subst e6.
  apply upgrade_step_Ok in Hr. unfold WaitForNodeGroupToUpgrade in Hr. rewrite bind_get_local in Hr.
  apply asking_wait in Hr as (Hk & w7 & w8 & g & Hg & Hj'). simpl in Hk. subst e.
  unfold control_plane_state in Hj. unfold group_state in Hj'.
  destruct c as [c|]; [|done]. destruct g as [g|]; [|done]. 
  destruct (bool_decide (cl_Status c = _) && _) eqn:Hb; [|done]. destruct (bool_decide (ng_Status g = _) && _) eqn:Hb'; [|done].
  apply andb_prop in Hb as [Hb%bool_decide_eq_true Hv%bool_decide_eq_true].
  apply andb_prop in Hb' as [Hb'%bool_decide_eq_true Hv']. split; [by exists w3, w4, c|by exists w7, w8, g].
Qed.

(** *** Scaling *)

Lemma i32_small z : - 2147483648 <= z < 2147483648 → i32 z = z.
Proof. intros Hz. unfold i32. rewrite Z.mod_small; lia. Qed.

(** After a successful scaling to a size of 32 bits the first group of the name was seen
    with that size. *)
Theorem Eks_SetASGClusterSize_success size timeout wl wl' :
  - 2147483648 <= size < 2147483648 →
  SetASGClusterSize size timeout wl = (Ok tt, wl') →
  ∃ asgName w1 w2 capacity rest, DescribeAutoScalingGroups [asgName] w1 = (Ok (capacity :: rest), w2) ∧
    ToInt32 capacity = size.
Proof.
  intros Hsize. unfold SetASGClusterSize. intros ([] & wl1 & _ & Hr)%bind_Ok_inv.
  apply bind_Ok_inv in Hr as (asgName & wl2 & _ & Hr). cbv zeta in Hr. apply bind_Ok_inv in Hr as ([] & wl3 & _ & Hr).
  apply wrap_err_Ok_inv, DoRetryWithTimeout_Ok_inv in Hr as ([w4 e4] & Ht). unfold scale_task, attempt in Ht.
  destruct (describe_asg asgName (w4, e4)) as [[asg|err|s|] wl5] eqn:Hd; unfold_m; simplify_eq.
  unfold describe_asg in Hd. apply wrap_err_Ok_inv, by_client_Ok in Hd as (w5 & Hd & ->).
  destruct asg as [|capacity rest]; [done|]. case_decide as Hc; [|done].
  exists asgName, w4, w5, capacity, rest. split; [done|]. by rewrite Hc, i32_small.
Qed.

(** *** Configuring

    With the name of the cluster in the environment the driver never counts as
    configured, and every call configures it again. *)
Definition unconfigured : W * EKS → Prop := λ wl, isConfigured wl.2 = false.

Lemma unconfigured_set f : (∀ e, isConfigured (f e) = isConfigured e) → preserves unconfigured (set f).
Proof. intros Hf [w e] He. unfold unconfigured in *. simpl in *. by rewrite Hf. Qed.

Lemma unconfigured_up {A} (m : M W A) : preserves unconfigured (up m).
Proof. intros [w e] He. by rewrite up_eq. Qed.

Lemma unconfigured_from_env var label group torpedo nodes field :
  (∀ x e, isConfigured (field x e) = isConfigured e) → preserves unconfigured (from_env var label group torpedo nodes field).
Proof.
  intros Hf. unfold from_env. preserve; try by apply unconfigured_set.
Qed.

Theorem Eks_never_configured w e :
  Getenv (W := W) "EKS_CLUSTER_NAME" ≠ "" → isConfigured e = false →
  isConfigured (configureEKSClient (w, e)).2.2 = false.
Proof.
  intros Hn He. cut (preserves unconfigured configure).
  { intros Hp. unfold configureEKSClient. rewrite bind_get_local, He. by apply Hp. }
  unfold configure. case_decide; [done|].
  repeat first [ apply unconfigured_up | apply unconfigured_from_env; by intros ? [] | apply unconfigured_set; by intros []
               | preserve_step | intros ? ?; done ].
Qed.
End eks.
