(* ===== verification/SchedOpenshift.v ===== *)
(** drivers/scheduler/openshift/openshift.go: the Kubernetes scheduler on OpenShift -
    applications with their security context, upgrading the cluster, machines and
    recycling a node.

    The embedded Kubernetes driver is that of K8sCreate and K8sNodes.  Commands, the
    clients of OpenShift and of the operator and the version library are parameters; the
    volume driver and the node driver are the interfaces [RecycleDriver] and
    [MachineDriver]. *)

From Stdlib Require Import Ascii.
From S2P Require Import Prelude GoStrings Errors Effects Regexp Strconv Concur Task ConcurTask OpenStorageApi NodeRegistry AutopilotRules SpecFactory PxDriver PxNodeOps K8sObjects VolumeDrivers K8sSpecs K8sNodes K8sHelm K8sCreate K8sCsi K8sVolumes SchedCloud.

Module Openshift.

(** ** Constants *)

Definition SystemdSchedServiceName : string := "atomic-openshift-node".
Definition OpenshiftMirror : string := "https://mirror.openshift.com/pub/openshift-v4/clients/ocp".
Definition releaseFileName : string := "release.txt".
Definition defaultCmdTimeout : Z := 5 * Minute.
Definition driverUpTimeout : Z := 10 * Minute.
Definition generationNumberWaitTime : Z := 10 * Minute.
Definition defaultCmdRetry : Z := 15 * Second.
Definition defaultUpgradeTimeout : Z := 4 * Hour.
Definition defaultUpgradeRetryInterval : Z := 5 * Minute.
Definition OpenshiftMachineNamespace : string := "openshift-machine-api".
Definition defaultTorpedoSecurityContextContaintsName : string := "torpedo-privileged".
Definition vsphere_DriverName : string := "vsphere".

(** [regexp.MustCompile(...)], which compiles *)
Definition versionReg : outcome Regexp.regexp := Regexp.MustCompile "^(stable|candidate|fast)-(\d\.\d+)?$".
Definition matches_channel (v : string) : bool :=
  match versionReg with Ok re => Regexp.MatchString re v | _ => false end.

(** ** Data *)

(** The driver's own field *)
Record openshift := { openshiftVersion : string }.

(** The fields of the objects that are read or written; [scc_Rest] is the remainder *)
Record SecurityContextConstraints := {
  scc_Name : string;
  ResourceVersion : string;
  Users : list string;
  scc_Rest : string;
}.

Record ClusterVersion := {
  Channel : string;
  ObservedGeneration : Z;
  Desired_Version : string;
  (** type, status, message *)
  cv_Conditions : list (string * string * string);
  (** version, state *)
  History : list (string * string);
}.

Definition OperatorProgressing : string := "Progressing".
Definition ConditionTrue : string := "True".
Definition ConditionFalse : string := "False".
Definition CompletedUpdate : string := "Completed".

Record NodeStatus := { ns_Name : string; ns_Conditions : list (string * string); KubeletVersion : string }.

(** A provider of autopilot; its map may be nil. *)
Record DataProviderSpec := { dp_Type : string; dp_Params : option (gmap string string) }.

(** [Spec.Monitoring.Prometheus.Enabled] and [Spec.Autopilot], behind pointers that may be
    nil; [stc_Rest] is the remainder *)
Record StorageCluster := {
  stc_Name : string;
  stc_Namespace : string;
  PrometheusEnabled : option bool;
  Autopilot : option (bool * list DataProviderSpec);
  stc_Rest : string;
}.

(** ** Interfaces *)

(** [github.com/hashicorp/go-version] *)
Class VersionLib := {
  version : Type;
  NewVersion : string → outcome version;
  Segments : version → list Z;
  GreaterThanOrEqual : version → version → bool;
  LessThan : version → version → bool;
}.

(** Commands ([exec.Command(...).CombinedOutput()], [osutils.ExecTorpedoShell]), HTTP, and
    the clients of OpenShift, of Kubernetes and of the operator *)
Class OpenshiftApi (W : Type) `{VersionLib} := {
  CombinedOutput : string → list string → M W (string * option error);
  ExecTorpedoShell : string → list string → M W (string * string * option error);
  DoRequest : string → M W string;
  http_Get_body : string → M W string;
  GetClusterVersion : M W ClusterVersion;
  GetSecurityContextConstraints : string → M W SecurityContextConstraints;
  CreateSecurityContextConstraints : SecurityContextConstraints → M W SecurityContextConstraints;
  UpdateSecurityContextConstraints : SecurityContextConstraints → M W unit;
  optest_GetOpenshiftVersion : M W string;
  optest_GetPxOperatorVersion : M W version;
  GetNodes_status : M W (list NodeStatus);
  GetNodeByName_core : string → M W CoreNode;
  GetConfigMap : string → string → M W (gmap string string);
  CreateConfigMap : string → string → gmap string string → M W unit;
  UpdateConfigMap : string → string → gmap string string → M W unit;
  ListStorageClusters : M W (list StorageCluster);
  UpdateStorageCluster : StorageCluster → M W unit;
  IsNotFound_k8s : error → bool;
}.

(** The operations of a volume driver that recycling a node asks for; [GetDriverNode] may
    write the node it is given *)
Class RecycleDriver (W : Type) := {
  rdriver : Type;
  volume_Get : string → outcome rdriver;
  GetDriverNode : rdriver → M (W * Node) StorageNode;
  GetStoragelessNodes : rdriver → M W (list StorageNode);
  vol_Contains : rdriver → list StorageNode → StorageNode → bool;
  WaitForPxPodsToBeUp : rdriver → Node → M W unit;
  WaitForNodeIDToBePickedByAnotherNode : rdriver → StorageNode → M W StorageNode;
  ValidateNodeAfterPickingUpNodeID : rdriver → StorageNode → StorageNode → list StorageNode → M W unit;
  UpdateNodeWithStorageInfo : rdriver → Node → string → M W unit;
  WaitDriverUpOnNode : rdriver → Node → Z → M W unit;
}.

(** The operations of the node driver on machines, and on the units of a node *)
Class MachineDriver (W : Type) := {
  AddMachine : string → M W unit;
  PowerOnVMByName : string → M W unit;
  PowerOffVM : Node → M W unit;
  DestroyVM : Node → M W unit;
  SystemctlUnitExist : Node → string → ConnectionOpts → M W bool;
}.

(** The driver of Portworx implements the interface. *)
Section portworx.
Context {W : Type} `{PxWorld W} `{NodeDriver W} `{SchedOps W} `{K8sCore W} `{PxSdk W} (depth : nat).

Definition px_recycle : RecycleDriver W := {|
  rdriver := unit;
  volume_Get := λ name, if decide (name = "pxd") then Ok tt else Err (Errorf ("Volume driver: " +:+ name +:+ " not found"));
  GetDriverNode := λ _, PxNodeOps.GetDriverNode depth;
  GetStoragelessNodes := λ _, PxDriver.GetStoragelessNodes;
  vol_Contains := λ _, px_Contains;
  WaitForPxPodsToBeUp := λ _, PxNodeOps.WaitForPxPodsToBeUp;
  WaitForNodeIDToBePickedByAnotherNode := λ _, PxNodeOps.WaitForNodeIDToBePickedByAnotherNode;
  ValidateNodeAfterPickingUpNodeID := λ _ d n l, lift (PxNodeOps.ValidateNodeAfterPickingUpNodeID d n l);
  UpdateNodeWithStorageInfo := λ _, PxDriver.UpdateNodeWithStorageInfo;
  WaitDriverUpOnNode := λ _ n timeout, PxNodeOps.WaitDriverUpOnNode n timeout "10m0s";
|}.
End portworx.

(** ** Versions *)

Section versions.
Context {W : Type} `{PxWorld W} `{Shell W} `{OpenshiftApi W}.

(** A version of the package variables, whose error is ignored *)
Definition known (v : string) : outcome version :=
  match NewVersion v with Ok x => Ok x | _ => Panic nil_pointer end.

Definition at_least (v : version) (min : string) : outcome bool := m ← known min; Ok (GreaterThanOrEqual v m).
Definition below (v : version) (max : string) : outcome bool := m ← known max; Ok (LessThan v m).

(** [%d.%d] of the first two segments *)
Definition major_minor (ver : version) : outcome string :=
  a ← index (Segments ver) 0; b ← index (Segments ver) 1; Ok (Itoa a +:+ "." +:+ Itoa b).

Definition channels : list string := ["stable"; "candidate"; "fast"].

(** The map has no entry for another channel. *)
Definition getChannel (ocpVer : string) : outcome string :=
  if matches_channel ocpVer then Ok ocpVer else
  let '(channel, ocpVersion) :=
    match Split ocpVer "-" with channel :: v :: _ => (channel, v) | _ => ("stable", "") end in
  match NewVersion ocpVersion with
  | Err err => Err (Errorf ("failed to parse version [" +:+ ocpVersion +:+ "], Err: " +:+ Error err))
  | Panic m => Panic m
  | Diverge => Diverge
  | Ok ver =>
      mm ← major_minor ver;
      Ok (if decide (channel ∈ channels) then channel +:+ "-" +:+ mm else "")
  end.

(** The first match of (?m)Name:\s+([\d.]+): the blanks behind [Name:], then the digits
    and dots *)
Definition is_blank (c : ascii) : bool := Regexp.in_class false Regexp.blanks c.
Definition version_char (c : ascii) : bool := is_digit c || Ascii.eqb c ".".

Fixpoint skip_blanks (s : string) : string :=
  match s with String c s' => if is_blank c then skip_blanks s' else s | EmptyString => "" end.

Fixpoint take_version (s : string) : string :=
  match s with String c s' => if version_char c then String c (take_version s') else "" | EmptyString => "" end.

Definition name_here (s : string) : string :=
  if HasPrefix s "Name:" then
    match String.substring 5 (String.length s) s with
    | String c s' => if is_blank c then take_version (skip_blanks s') else ""
    | EmptyString => ""
    end
  else "".

Fixpoint find_name (s : string) : string :=
  match s with
  | EmptyString => ""
  | String c s' => if decide (name_here s = "") then find_name s' else name_here s
  end.

Definition getParsedVersion (ocpVer : string) : M W version :=
  v ← (if matches_channel ocpVer then
         output ← http_Get_body ("https://mirror.openshift.com/pub/openshift-v4/clients/ocp/" +:+ ocpVer +:+ "/release.txt");
         let found := find_name output in
         mret (if decide (found = "") then ocpVer else found)
       else mret ocpVer);
  lift (NewVersion v).

(** ** Commands *)

(** A command whose error is reported with a message made of its output and the cause *)
Definition command (name : string) (args : list string) (failed : string → error → error) : M W string :=
  '(output, err) ← CombinedOutput name args;
  match err with Some e => throw (failed output e) | None => mret output end.

Definition sh (cmd : string) (failed : string → error → error) : M W string := command "sh" ["-c"; cmd] failed.

(** A step of a task: its error is retried *)
Definition or_retry {A B} (m : M W A) (k : A → M W (task_result B)) : M W (task_result B) :=
  attempt m (λ r, match r with inl a => k a | inr err => mret (Retry err) end).

Definition with_output (msg : string) : string → error → error := λ output err,
  Errorf (msg +:+ output +:+ " " +:+ Error err).

Definition mcp_task (maxUnavailable : string) : M W (task_result unit) :=
  or_retry (command "oc" ["patch"; "mcp"; "worker"; "--type=merge"; "--patch";
                          "{" +:+ quoted "spec" +:+ ":{" +:+ quoted "maxUnavailable" +:+ ":" +:+ maxUnavailable +:+ "}}"]
              (with_output "failed to update machine config pool - worker, Err: ")) (λ _,
  or_retry (command "oc" ["get"; "mcp"; "worker"; "-o"; "jsonpath={.spec.maxUnavailable}"]
              (with_output "failed to get maxUnavailable for worker MCP, Err: ")) (λ output,
  mret (if decide (output = maxUnavailable) then Done tt
        else Retry (Errorf ("maxUnavailable for worker MCP does not match, expected: " +:+ maxUnavailable +:+ ", got: " +:+ output))))).

Definition updateMaxUnavailableWorkerMCP : M W unit :=
  let maxUnavailable := Getenv "OCP_SURGE_UPGRADE_VALUE" in
  if decide (maxUnavailable = "") then mret tt
  else DoRetryWithTimeout (mcp_task maxUnavailable) (1 * Minute) (5 * Second).

Definition getClientVersion : M W string :=
  DoRetryWithTimeout
    (or_retry (sh "oc version --client -o json|jq -r .releaseClientVersion"
                 (λ _ err, Errorf ("failed to get client version, Err: " +:+ Error err)))
       (λ output, mret (Done (Trim (Trim (TrimSpace output) dquote) "'"))))
    (1 * Minute) (5 * Second).

(** ** The channel *)

Definition cluster_version {A} (f : ClusterVersion → A) : M W A :=
  cv ← wrap_err (λ err, Errorf ("failed to get ClusterVersion object, Err: " +:+ Error err)) GetClusterVersion;
  mret (f cv).

Definition getGenerationNumber : M W Z := cluster_version ObservedGeneration.
Definition getCurrentChannel : M W string := cluster_version Channel.

(** The number that has not changed is not asked for again. *)
Definition generation_task (currentGenNumber : Z) : M W (task_result unit) :=
  attempt getGenerationNumber (λ r,
    match r with
    | inr err => mret (Retry (Errorf ("Failed to convert generator number from string to int, Err: " +:+ Error err)))
    | inl n => mret (if decide (n = currentGenNumber)
                     then Stop (Errorf ("Generation number has not changed yet: New [" +:+ Itoa n +:+ "], Current [" +:+
                                        Itoa currentGenNumber +:+ "]"))
                     else Done tt)
    end).

Definition waitForNewGenertionNumber (currentGenNumber : Z) : M W unit :=
  DoRetryWithTimeout (generation_task currentGenNumber) generationNumberWaitTime (5 * Second).

Definition newline : string := String "010" "".

Definition channel_task (channel : string) (beforeGenNumInt : Z) : M W (task_result unit) :=
  let failed := "failed to select channel [" +:+ channel +:+ "], Err: " in
  or_retry (command "oc" ["patch"; "clusterversion"; "version"; "--type=merge"; "--patch";
                          newline +:+ "spec:" +:+ newline +:+ "  channel: " +:+ channel +:+ newline] (with_output failed)) (λ _,
  or_retry (wrap_err (λ err, Errorf (failed +:+ Error err)) (waitForNewGenertionNumber beforeGenNumInt)) (λ _, mret (Done tt))).

Definition selectChannel (ocpVer : string) : M W unit :=
  channel ← wrap_err (λ err, Errorf ("failed to select channel for OCP version [" +:+ ocpVer +:+ "], Err: " +:+ Error err))
              (lift (getChannel ocpVer));
  currentChannel ← wrap_err (λ err, Errorf ("failed to get current channel, Err: " +:+ Error err)) getCurrentChannel;
  if decide (channel = currentChannel) then mret tt else
  beforeGenNumInt ← wrap_err (λ err, Errorf ("failed to get current ObservedGeneration number from ClusterVersion object, Err: " +:+
                                             Error err)) getGenerationNumber;
  DoRetryWithTimeout (channel_task channel beforeGenNumInt) (5 * Minute) (5 * Second).

(** ** Starting an upgrade *)

Definition digest_line (a : string) : bool := Contains a "Digest:".

Definition getImageSha (ocpVersion : string) : M W string :=
  let downloadURL := OpenshiftMirror +:+ "/" +:+ ocpVersion +:+ "/" +:+ releaseFileName in
  content ← wrap_err (λ err, Errorf ("Failed to get Get content from [" +:+ downloadURL +:+ "], Err: " +:+ Error err))
              (DoRequest downloadURL);
  match find_first digest_line (Split content "010") with
  | Some a => part ← lift (index (Split_text a ": ") 1); mret (TrimSpace part)
  | None => throw (Errorf ("failed to find image sha from [" +:+ downloadURL +:+ "]"))
  end.

(** [oc] with some arguments, which stay those of the next attempt *)
Definition oc (args : list string) : M (W * list string) (string * string * option error) :=
  _ ← put_local args; up (ExecTorpedoShell "oc" args).

Definition start_failed (stdErr : string) (err : error) : error :=
  Errorf ("failed to start upgrade, Err: " +:+ stdErr +:+ " " +:+ Error err).

Definition upgrade_again (args : list string) : M (W * list string) (task_result unit) :=
  '(_, stdErr, err) ← oc args;
  mret (match err with Some e => Retry (start_failed stdErr e) | None => Done tt end).

Definition start_task (upgradeVersion : string) : M (W * list string) (task_result unit) :=
  args ← get_local;
  '(_, stdErr, err) ← oc args;
  match err with
  | None => mret (Done tt)
  | Some err =>
      if Contains stdErr "is not one of the recommended updates, but is available" then
        upgrade_again ["adm"; "upgrade"; "--to=" +:+ upgradeVersion; "--allow-not-recommended"]
      else if Contains stdErr "specify --to-image" then
        attempt (up (getImageSha upgradeVersion)) (λ r,
          match r with
          | inr err => mret (Stop err)
          | inl shaName =>
              upgrade_again ["adm"; "upgrade"; "--to-image=quay.io/openshift-release-dev/ocp-release@" +:+ shaName; "--force";
                             "--allow-explicit-upgrade"; "--allow-upgrade-with-warnings"]
          end)
      else mret (Retry (start_failed stdErr err))
  end.

Definition cluster_task (check : ClusterVersion → option error) : M W (task_result unit) :=
  attempt GetClusterVersion (λ r,
    mret (match r with
          | inr err => Retry (Errorf ("failed to get cluster version. cause: " +:+ Error err))
          | inl cv => match check cv with Some e => Retry e | None => Done tt end
          end)).

Definition desired (upgradeVersion : string) (cv : ClusterVersion) : option error :=
  if decide (Desired_Version cv = upgradeVersion) then None
  else Some (Errorf ("version mismatch. expected: " +:+ upgradeVersion +:+ " but got " +:+ Desired_Version cv)).

Definition startUpgrade (upgradeVersion : string) : M W unit :=
  _ ← run_local ["adm"; "upgrade"; "--to=" +:+ upgradeVersion]
        (DoRetryWithTimeout (start_task upgradeVersion) defaultCmdRetry defaultCmdRetry);
  DoRetryWithTimeout (cluster_task (desired upgradeVersion)) defaultCmdTimeout defaultCmdRetry.

(** ** Waiting for the upgrade *)

(** The first condition that says whether the operator is progressing *)
Fixpoint progressing (l : list (string * string * string)) : option error :=
  match l with
  | [] => None
  | (type, status, message) :: l' =>
      if decide (type = OperatorProgressing ∧ status = ConditionTrue)
      then Some (Errorf ("cluster not upgraded yet. cause: " +:+ message))
      else if decide (type = OperatorProgressing ∧ status = ConditionFalse) then None
      else progressing l'
  end.

(** The first entry of the version *)
Fixpoint not_completed (upgradeVersion : string) (l : list (string * string)) : option error :=
  match l with
  | [] => None
  | (v, state) :: l' =>
      if decide (v = upgradeVersion) then
        if decide (state = CompletedUpdate) then None
        else Some (Errorf ("cluster not upgraded yet. expected: " +:+ CompletedUpdate +:+ " got: " +:+ state))
      else not_completed upgradeVersion l'
  end.

Definition upgraded (upgradeVersion : string) (cv : ClusterVersion) : option error :=
  match progressing (cv_Conditions cv) with
  | Some e => Some e
  | None => not_completed upgradeVersion (History cv)
  end.

Definition waitUpgradeCompletion (upgradeVersion : string) : M W unit :=
  DoRetryWithTimeout (cluster_task (upgraded upgradeVersion)) defaultUpgradeTimeout defaultUpgradeRetryInterval.

Definition node_ready (n : NodeStatus) : bool :=
  existsb (λ c, bool_decide (c.1 = "Ready" ∧ c.2 = ConditionTrue)) (ns_Conditions n).

(** [%v] of a map lists the keys in order. *)
Definition show_map (m : gmap string string) : string :=
  "map[" +:+ Join ((λ k, k +:+ ":" +:+ default "" (m !! k)) <$> sort_Strings (map_to_list m).*1) " " +:+ "]".

Definition nodes_task : M W (task_result unit) :=
  attempt GetNodes_status (λ r,
    mret (match r with
          | inr err => Retry (Errorf ("failed to get nodes, Err:" +:+ Error err))
          | inl items =>
              let ready := keep node_ready items in
              let k8sVersions : gmap string string := foldl (λ m n, <[ns_Name n := KubeletVersion n]> m) ∅ ready in
              let versionSet : gset string := list_to_set (KubeletVersion <$> ready) in
              if decide (length ready < length items)%nat then
                Retry (Errorf ("nodes not ready, expected [" +:+ Itoa (Z.of_nat (length items)) +:+ "] actual [" +:+ Itoa (Z.of_nat (length ready)) +:+ "]"))
              else if decide (1 < size versionSet)%nat then
                Retry (Errorf ("nodes are not the same version:" +:+ newline +:+ show_map k8sVersions))
              else Done tt
          end)).

Definition waitNodesToBeReady : M W unit := DoRetryWithTimeout nodes_task (30 * Minute) (15 * Second).

(** ** The client *)

(** [%v] of bytes *)
Fixpoint bytes_of (s : string) : list string :=
  match s with EmptyString => [] | String c s' => Itoa (Z.of_nat (nat_of_ascii c)) :: bytes_of s' end.

Definition downloadOCP4Client (ocpVersion0 : string) : M W unit :=
  let ocpVersion := if decide (ocpVersion0 = "") then "latest" else ocpVersion0 in
  let channel := matches_channel ocpVersion in
  let clientName := if channel then "openshift-client-linux.tar.gz" else "openshift-client-linux-" +:+ ocpVersion +:+ ".tar.gz" in
  let downloadURL := OpenshiftMirror +:+ "/" +:+ ocpVersion +:+ "/" +:+ clientName in
  let ocBinaryDir := "/usr/local/bin" in
  let after msg := λ stdout err, Errorf (msg +:+ Error err +:+ " " +:+ stdout) in
  _ ← command "curl" ["-o"; clientName; "-L"; downloadURL]
        (λ stdout err, Errorf ("failed to download OpenShift [" +:+ clientName +:+ "] client from [" +:+ downloadURL +:+ "], Err " +:+
                               show_strings (bytes_of stdout) +:+ " " +:+ Error err));
  _ ← command "tar" ["-xvf"; clientName] (after ("failed to extract [" +:+ clientName +:+ "], Err: "));
  _ ← command "cp" ["./oc"; ocBinaryDir] (after ("failed to copy oc binary to [" +:+ ocBinaryDir +:+ "], Err "));
  _ ← command "oc" ["version"] (after "failed to get oc version, Err: ");
  mret tt.

(** ** Acknowledging removed interfaces *)

Definition ack (key : string) : string := "{" +:+ quoted "data" +:+ ":{" +:+ quoted key +:+ ":" +:+ quoted "true" +:+ "}}".

(** The patch for a version; the comparisons stop at the first that decides. *)
Definition ack_patch (v : version) : outcome (option string) :=
  let between min max k (otherwise : outcome (option string)) : outcome (option string) :=
    ge ← at_least v min;
    if (ge : bool) then lt ← below v max; if (lt : bool) then Ok (Some (ack k)) else otherwise else otherwise in
  between "4.9.0" "4.12.0" "ack-4.8-kube-1.22-api-removals-in-4.9" (
  between "4.12.0" "4.13.0" "ack-4.11-kube-1.25-api-removals-in-4.12" (
  between "4.13.0" "4.14.0" "ack-4.12-kube-1.26-api-removals-in-4.13" (
  ge ← at_least v "4.14.0";
  Ok (if (ge : bool) then Some (ack "ack-4.13-kube-1.27-api-removals-in-4.14") else None)))).

Definition ackAPIRemoval (ocpVer : string) : M W unit :=
  v ← getParsedVersion ocpVer;
  patch ← lift (ack_patch v);
  match patch with
  | None => mret tt
  | Some patchData =>
      DoRetryWithTimeout
        (or_retry (command "oc" ["-n"; "openshift-config"; "patch"; "cm"; "admin-acks"; "--type=merge"; "--patch"; patchData]
                     (with_output "failed to provide acknowledgment of API removal, Err: ")) (λ _, mret (Done tt)))
        (1 * Minute) (5 * Second)
  end.

(** ** Prometheus of the cluster *)

Definition needOcpPrereq (ocpVer : string) : M W bool :=
  v ← wrap_err (λ err, Errorf ("failed to parse OCP version [" +:+ ocpVer +:+ "], Err: " +:+ Error err)) (getParsedVersion ocpVer);
  opVersion ← wrap_err (λ err, Errorf ("failed to get PX Operator version, Err: " +:+ Error err)) optest_GetPxOperatorVersion;
  all ← lift (at_least opVersion "23.10.4-");
  if (all : bool) then mret true else
  new ← lift (at_least v "4.14.0");
  if (new : bool) then mret true else
  lift (at_least opVersion "23.10.3-").

Definition workload_line : string := "enableUserWorkload: true".

Definition configureClusterMonitoringConfig : M W unit :=
  let name := "cluster-monitoring-config" in let ns := "openshift-monitoring" in
  let failed what prep := λ err, Errorf ("failed to " +:+ what +:+ " ConfigMap [" +:+ name +:+ "] in " +:+ prep +:+ " [" +:+ ns +:+
                                         "], Err: " +:+ Error err) in
  attempt (GetConfigMap name ns) (λ r,
    match r with
    | inr err =>
        if IsNotFound_k8s err then wrap_err (failed "create" "namesapce") (CreateConfigMap name ns {["config.yaml" := workload_line]})
        else throw (failed "get" "namespace" err)
    | inl data =>
        let existingData := default "" (data !! "config.yaml") in
        if Contains existingData workload_line then mret tt
        else wrap_err (failed "update" "namespace")
               (UpdateConfigMap name ns {["config.yaml" := existingData +:+ workload_line +:+ newline]})
    end).

(** The map of a provider is written in place. *)
Fixpoint set_urls (url : string) (l : list DataProviderSpec) : outcome (list DataProviderSpec) :=
  match l with
  | [] => Ok []
  | p :: l' =>
      p' ← (if decide (dp_Type p = "prometheus") then
              match dp_Params p with
              | Some m => Ok (if decide (m !! "url" = Some url) then p
                              else {| dp_Type := dp_Type p; dp_Params := Some (<["url" := url]> m) |})
              | None => Panic "assignment to entry in nil map"
              end
            else Ok p);
      rest ← set_urls url l';
      Ok (p' :: rest)
  end.

Definition updatePrometheusAndAutopilot : M W unit :=
  items ← wrap_err (λ err, Errorf ("failed to get list of StorageCluster objects, Err: " +:+ Error err)) ListStorageClusters;
  match items with
  | [stc] =>
      _ ← configureClusterMonitoringConfig;
      output ← sh ("kubectl get route thanos-querier -n openshift-monitoring -o json | jq -r '.spec.host'")
                 (λ _ err, Errorf ("failed to get thanos querier host , Err: " +:+ Error err));
      let url := "https://" +:+ TrimSpace output in
      _ ← lift (deref (PrometheusEnabled stc));
      '(enabled, providers) ← lift (deref (Autopilot stc));
      providers' ← lift (if (enabled : bool) then set_urls url providers else Ok providers);
      wrap_err (λ err, Errorf ("failed to update StorageCluster [" +:+ stc_Name stc +:+ "] in [" +:+ stc_Namespace stc +:+
                               "] namespace, Err: " +:+ Error err))
        (UpdateStorageCluster {| stc_Name := stc_Name stc; stc_Namespace := stc_Namespace stc; PrometheusEnabled := Some false;
                                 Autopilot := Some (enabled, providers'); stc_Rest := stc_Rest stc |})
  | _ => throw (Errorf ("invalid number of StorageCluster objects found, expected [1] got [" +:+ Itoa (Z.of_nat (length items)) +:+ "]"))
  end.

Definition setOcpPrometheusPrereq (version : string) : M W unit :=
  doPrereq ← wrap_err (λ err, Errorf ("failed to determine if we need to do OCP prereq or not, Err: " +:+ Error err))
               (needOcpPrereq version);
  if (doPrereq : bool) then updatePrometheusAndAutopilot else mret tt.

(** ** The upgrade *)

Definition UpgradeScheduler (version : string) : M (W * openshift) unit :=
  _ ← up (downloadOCP4Client version);
  ocpVersion ← up (wrap_err (λ err, Errorf ("failed to get Openshift version, Err: " +:+ Error err)) optest_GetOpenshiftVersion);
  _ ← put_local {| openshiftVersion := ocpVersion |};
  up (clientVersion ← getClientVersion;
      let upgradeVersion := if matches_channel version then clientVersion else version in
      _ ← setOcpPrometheusPrereq upgradeVersion;
      _ ← selectChannel version;
      _ ← ackAPIRemoval upgradeVersion;
      _ ← updateMaxUnavailableWorkerMCP;
      _ ← startUpgrade upgradeVersion;
      _ ← waitUpgradeCompletion clientVersion;
      waitNodesToBeReady).
End versions.
(** ** Machines *)

Section machines.
Context {W : Type} `{SchedWorld W} `{K8sClient W} `{K8sNodeApi W} `{NodeDriver W} `{K8sCore W}.
Context `{Shell W} `{OpenshiftApi W} `{RecycleDriver W} `{MachineDriver W}.

Definition GetZones : list string := ["zone-1"].

Definition getMachinesCount : M W Z :=
  let cmd := "kubectl get machines -n openshift-machine-api | awk 'NR > 1 {count++} END {print count}'" in
  output ← sh cmd (λ _ err, Errorf ("failed to run command [" +:+ cmd +:+ "], Err: " +:+ Error err));
  let result := TrimSpace output in
  wrap_err (λ err, Errorf ("error converting [" +:+ result +:+ "] to int, Err: " +:+ Error err)) (lift (Atoi result)).

Definition GetASGClusterSize : M W Z := getMachinesCount.

Definition getMachineSetName : M W string :=
  output ← sh ("kubectl get machineset -n " +:+ OpenshiftMachineNamespace +:+ " -o name") (λ _ err, err);
  mret (TrimSpace output).

Definition delete_machine_task (nodeName : string) : M W (task_result unit) :=
  or_retry (sh ("kubectl delete machines -n openshift-machine-api " +:+ nodeName)
              (λ _ err, Errorf ("failed to delete machine, Err: " +:+ Error err))) (λ _, mret (Done tt)).

(** It runs in a goroutine of [DeleteNode] and on its own. *)
Definition deleteAMachine (nodeName : string) : R W unit :=
  R_DoRetryWithTimeout (delete_machine_task nodeName) (2 * Minute) (60 * Second).

(** [isTriedOnce] is a variable of the function. *)
Definition machine_task (driverName : string) : M (W * bool) (task_result string) :=
  '(output, err) ← up (CombinedOutput "sh" ["-c"; "kubectl get machines -n openshift-machine-api --sort-by='.metadata.creationTimestamp' | tail -1"]);
  let result := Fields output in
  match err with
  | Some err =>
      name ← lift (index result 0);
      mret (Retry (Errorf ("failed to get new OCP VM [" +:+ name +:+ "] status, Err: " +:+ Error err)))
  | None =>
      state ← lift (index result 1);
      name ← lift (index result 0);
      if decide (ToLower state = "running") then mret (Done name) else
      isTriedOnce ← get_local;
      r ← (if decide (state = "Provisioned" ∧ driverName = vsphere_DriverName ∧ isTriedOnce = false) then
             _ ← put_local true;
             attempt (up (_ ← AddMachine name; PowerOnVMByName name)) mret
           else mret (inl tt));
      mret (Retry (match r with
                   | inr err => err
                   | inl _ => SchedErr (ErrFailedToBringUpNode name) "OCP was Unable to bring up the new node"
                   end))
  end.

(** With an error there is no output, so that no name comes with it. *)
Definition getAndWaitMachineToBeReady : M W (string * option error) :=
  k ← get_k8s;
  attempt (run_local false (DoRetryWithTimeout (machine_task (NodeDriverName k)) (20 * Minute) (30 * Second))) (λ r,
    mret (match r with inl name => (name, None) | inr err => ("", Some err) end)).

Definition waitForJoinK8sNode (node : string) : M W unit :=
  DoRetryWithTimeout
    (or_retry (wrap_err (λ err, Errorf ("Waiting for new node [" +:+ node +:+ "] to join k8s cluster, Err: " +:+ Error err))
                 (core_IsNodeReady node)) (λ _, mret (Done tt)))
    (5 * Minute) (10 * Second).

Definition checkAndGetNewNode : M W string :=
  '(name, err) ← getAndWaitMachineToBeReady;
  newNodeName ← (match err with
                 | None => mret name
                 | Some _ =>
                     _ ← (if decide (name = "") then mret tt else attempt (run (deleteAMachine name)) (λ _, mret tt));
                     '(name', err') ← getAndWaitMachineToBeReady;
                     match err' with None => mret name' | Some e => throw e end
                 end);
  _ ← waitForJoinK8sNode newNodeName;
  mret newNodeName.

Definition more_machines_task (initialMachineCount : Z) : M W (task_result unit) :=
  attempt getMachinesCount (λ r,
    mret (match r with
          | inr err => Retry (Errorf ("error getting machine count, Err: " +:+ Error err))
          | inl n => if decide (n <= initialMachineCount) then
                       Retry (Errorf ("waiting for new machine to provision initial count : [" +:+ Itoa initialMachineCount +:+
                                      "], current count: [" +:+ Itoa n +:+ "]"))
                     else Done tt
          end)).

Definition SetASGClusterSize (replicas timeout : Z) : M W unit :=
  initialMachineCount ← getMachinesCount;
  machineSetName ← getMachineSetName;
  output ← sh ("kubectl -n " +:+ OpenshiftMachineNamespace +:+ " scale " +:+ machineSetName +:+ " --replicas " +:+ Itoa replicas) (λ _ err, err);
  if Contains output (machineSetName +:+ " scaled") then
    _ ← DoRetryWithTimeout (more_machines_task initialMachineCount) (5 * Minute) (10 * Second);
    _ ← checkAndGetNewNode;
    mret tt
  else throw (Errorf ("failed to scale [" +:+ machineSetName +:+ "], output: " +:+ output)).

(** ** Recycling a node *)

Definition validateDrivesAfterNewNodePickUptheID (delNode : StorageNode) (volDriver : rdriver)
    (storagelessNodes : list StorageNode) (isStoragelessNode : bool) : M W unit :=
  if isStoragelessNode then mret tt else
  newPXNode ← WaitForNodeIDToBePickedByAnotherNode volDriver delNode;
  ValidateNodeAfterPickingUpNodeID volDriver delNode newPXNode storagelessNodes.

(** The two goroutines: the machine is deleted, and the virtual machine destroyed *)
Definition machine_body (n : Node) : R W unit :=
  R_try (deleteAMachine (Name n)) (λ r,
    match r with
    | inl _ => mret tt
    | inr err => R_throw (Errorf ("Failed to delete OCP node [" +:+ Name n +:+ "], Err: " +:+ Error err))
    end).

Definition vm_body (n : Node) (isStoragelessNode : bool) (driverName : string) : R W unit :=
  if decide (isStoragelessNode = false ∧ driverName = vsphere_DriverName) then act (DestroyVM n) else mret tt.

Definition registry_DeleteNode (n : Node) : M W unit := registry_write (Registry.DeleteNode n).

Definition registry_GetNodeByName (nodeName : string) : M W Node :=
  l ← range_nodes;
  lift (match find_first (λ n, bool_decide (Name n = nodeName)) l with
        | Some n => Ok n
        | None => Err (Errorf ("failed: Node [" +:+ nodeName +:+ "] not found in node registry"))
        end).

(** From the new machine to the driver that runs on its node; [delName] is the name of the
    node that is gone *)
Definition replacement (volDriver : rdriver) (delNode : StorageNode) (delName : string)
    (storagelessNodes : list StorageNode) (isStoragelessNode : bool) : M W unit :=
  newOCPNode ← wrap_err (λ err, SchedErr ErrFailedToGetNode ("failed to get newly created OCP node name. Err: " +:+ Error err))
                 checkAndGetNewNode;
  newNode ← GetNodeByName_core newOCPNode;
  _ ← wrap_err (λ err, SchedErr (ErrFailedToUpdateNodeList newOCPNode)
                         ("failed to update new OCP node [" +:+ newOCPNode +:+ "] in node list, Err: " +:+ Error err))
        (AddNewNode newNode);
  newlyProvNode ← registry_GetNodeByName newOCPNode;
  _ ← WaitForPxPodsToBeUp volDriver newlyProvNode;
  _ ← validateDrivesAfterNewNodePickUptheID delNode volDriver storagelessNodes isStoragelessNode;
  _ ← UpdateNodeWithStorageInfo volDriver newlyProvNode delName;
  newlyProvNode' ← registry_GetNodeByName (Name newlyProvNode);
  WaitDriverUpOnNode volDriver newlyProvNode' driverUpTimeout.

(** [choices] is the schedule of the two goroutines. *)
Definition DeleteNode (choices : list nat) (n0 : Node) : M W unit :=
  worker ← registry_GetWorkerNodes;
  if Registry.Contains worker n0 then
    k ← get_k8s;
    volDriver ← lift (volume_Get (VolDriverName k));
    '(delNode, n) ← with_local n0 (GetDriverNode volDriver);
    storagelessNodes ← GetStoragelessNodes volDriver;
    let isStoragelessNode := vol_Contains volDriver storagelessNodes delNode in
    let driverName := NodeDriverName k in
    _ ← (if decide (driverName = vsphere_DriverName) then
           _ ← PowerOffVM n; PxDriver.pause (5 * Second)
         else mret tt);
    _ ← errgroup choices [machine_body n; vm_body n isStoragelessNode driverName];
    _ ← wrap_err (λ err, SchedErr (ErrFailedToUpdateNodeList (Name n))
                           ("Failed to remove OCP node [" +:+ Name n +:+ "] from node list, Err: " +:+ Error err))
          (registry_DeleteNode n);
    replacement volDriver delNode (Name n) storagelessNodes isStoragelessNode
  else throw (Errorf "Node is not a worker node").

(** ** Services of a node *)

Definition StopSchedOnNode (n : Node) : M W unit :=
  wrap_err (λ err, SchedErr (ErrFailedToStopSchedOnNode SystemdSchedServiceName (show_node n)) (Error err))
    (Systemctl n SystemdSchedServiceName "stop" (conn_opts FindFilesOnWorkerTimeout DefaultRetryInterval)).

Definition StartSchedOnNode (n : Node) : M W unit :=
  wrap_err (λ err, SchedErr (ErrFailedToStartSchedOnNode SystemdSchedServiceName (show_node n)) (Error err))
    (Systemctl n SystemdSchedServiceName "start" (conn_opts DefaultTimeout DefaultRetryInterval)).

Definition getServiceName (n : Node) : M W string :=
  ok ← SystemctlUnitExist n SystemdSchedServiceName (conn_opts DefaultTimeout DefaultRetryInterval);
  mret (if (ok : bool) then SystemdSchedServiceName else K8sNodes.SystemdSchedServiceName).

Definition SaveSchedulerLogsToFile (n : Node) (location : string) : M W unit :=
  usableServiceName ← getServiceName n;
  _ ← RunCommand n ("journalctl -lu " +:+ usableServiceName +:+ "* > " +:+ location +:+ "/kubelet.log")
        {| Timeout := DefaultTimeout; TimeBeforeRetry := DefaultRetryInterval; IgnoreError := false; Sudo := true |};
  mret tt.

(** ** Applications *)

Definition createTorpedoSecurityContextConstraints : M W SecurityContextConstraints :=
  context ← GetSecurityContextConstraints "privileged";
  CreateSecurityContextConstraints {| scc_Name := defaultTorpedoSecurityContextContaintsName; ResourceVersion := "";
                                      Users := Users context; scc_Rest := scc_Rest context |}.

Definition service_account (namespace : string) : string := "system:serviceaccount:" +:+ namespace +:+ ":default".

Definition updateSecurityContextConstraints (namespace : string) : M W unit :=
  torpedoScc ← attempt (GetSecurityContextConstraints defaultTorpedoSecurityContextContaintsName) (λ r,
    match r with
    | inl scc => mret scc
    | inr err => if IsNotFound_k8s err then createTorpedoSecurityContextConstraints else throw err
    end);
  UpdateSecurityContextConstraints {| scc_Name := scc_Name torpedoScc; ResourceVersion := ResourceVersion torpedoScc;
                                      Users := Users torpedoScc ++ [service_account namespace]; scc_Rest := scc_Rest torpedoScc |}.

Context `{SpecFiles} `{HelmLib W} `{K8sCreateApi W} (volumes : VolumePackage) `{!SpecSource (O := nat)}.

Fixpoint schedule_apps (instanceID oldOptionsNamespace : string) (apps : list (AppSpec nat)) (options : ScheduleOptions) :
    M W (list Context) :=
  match apps with
  | [] => mret []
  | app :: apps' =>
      let appNamespace := if decide (opt_Namespace options = "") then GetID app instanceID else opt_Namespace options in
      let options1 := set_opt_Namespace appNamespace options in
      _ ← updateSecurityContextConstraints appNamespace;
      specObjects ← CreateSpecObjects volumes app appNamespace options1;
      helmSpecObjects ← HelmSchedule app appNamespace options1;
      let ctx := context_of instanceID "" app (specObjects ++ helmSpecObjects) options1 in
      rest ← schedule_apps instanceID oldOptionsNamespace apps' (set_opt_Namespace oldOptionsNamespace options1);
      mret (ctx :: rest)
  end.

Definition Schedule (instanceID : string) (options : ScheduleOptions) : M W (list Context) :=
  apps ← (if decide (AppKeys options = []) then with_factory SpecFactory.GetAll else apps_of (AppKeys options));
  schedule_apps instanceID (opt_Namespace options) apps options.

Definition ScheduleWithCustomAppSpecs (apps : list (AppSpec nat)) (instanceID : string) (options : ScheduleOptions) : M W (list Context) :=
  schedule_apps instanceID (opt_Namespace options) apps options.

Definition Init (K8s_Init : M W unit) : M W unit := K8s_Init.
End machines.
End Openshift.
