(* ===== verification/SchedOpenshiftProps.v ===== *)
(** OpenShift: which channel a version selects and what was seen when an upgrade succeeds,
    when the machines were scaled and when a node was recycled, under every schedule of
    the goroutines that delete it; and which accounts were granted the security context
    of the applications. *)

From Stdlib Require Import Ascii.
From S2P Require Import Prelude GoStrings Errors Effects Regexp Strconv Concur Task ConcurTask OpenStorageApi NodeRegistry AutopilotRules SpecFactory PxDriver PxNodeOps K8sObjects VolumeDrivers K8sSpecs K8sNodes K8sHelm K8sCreate K8sCsi K8sVolumes SchedCloud SchedOpenshift.

Import Openshift.

(** ** Channels *)

Lemma chars_free sep s : free_of sep s = true → sep ∉ Regexp.chars s.
Proof.
  induction s as [|c s IH]; simpl; [intros _; apply not_elem_of_nil|]. intros [Hc Hs]%andb_true_iff.
  apply not_elem_of_cons. split; [|by apply IH]. intros ->. by rewrite Ascii.eqb_refl in Hc.
Qed.

(** Only a text with a dash names a channel. *)
Lemma matches_channel_dash v : free_of "-" v = true → matches_channel v = false.
Proof.
  intros Hf%chars_free. unfold matches_channel. destruct versionReg as [re| | |] eqn:Hre; [|done..].
  vm_compute in Hre. injection Hre as <-. apply not_true_iff_false. intros (i & j & _ & Hm)%Regexp.has_match_spec.
  apply Hf. repeat match goal with
    | H : Regexp.matches _ (Regexp.RSeq _ _) _ _ |- _ => inversion H; clear H; subst
    end.
  match goal with H : Regexp.matches _ (Regexp.RClass false [("-"%char, "-"%char)]) _ _ |- _ => inversion H as [|???? Ht Hc| | | | | | |]; subst end.
  apply list_elem_of_lookup. eexists. rewrite Ht. f_equal. clear -Hc.
  destruct c as [[][][][][][][][]]; vm_compute in Hc; done.
Qed.

Section upgrade.
Context {W : Type} `{PxWorld W} `{Shell W} `{OpenshiftApi W}.

Lemma Split_dash c v : free_of "-" c = true → free_of "-" v = true → Split (c +:+ "-" +:+ v) "-" = [c; v].
Proof. intros Hc Hv. unfold Split. change ("-" +:+ v) with (String "-" v). rewrite split_loop_app by done. unfold Split. by rewrite split_loop_free. Qed.

(** A version behind the name of a channel selects that channel for its first two
    segments; a plain version selects none, because only the text behind a dash is
    parsed. *)
Theorem getChannel_spec c v ver a b rest :
  free_of "-" v = true → NewVersion v = Ok ver → Segments ver = a :: b :: rest →
  (c ∈ channels → matches_channel (c +:+ "-" +:+ v) = false →
     getChannel (c +:+ "-" +:+ v) = Ok (c +:+ "-" +:+ Itoa a +:+ "." +:+ Itoa b)) ∧
  (∀ e, NewVersion "" = Err e → getChannel v = Err (Errorf ("failed to parse version [], Err: " +:+ Error e))).
Proof.
  intros Hv Hver Hseg. split.
  - intros Hc Hm. unfold getChannel. rewrite Hm, Split_dash; [|by repeat (apply elem_of_cons in Hc as [->|Hc]; [done|]); apply elem_of_nil in Hc|done].
    rewrite Hver. unfold major_minor. rewrite Hseg. simpl. by rewrite decide_True.
  - intros e He. unfold getChannel. rewrite (matches_channel_dash v Hv). unfold Split. rewrite split_loop_free by done.
    simpl. by rewrite He.
Qed.

(** ** What was seen *)

Lemma or_retry_Done {A B} (m : M W A) (k : A → M W (task_result B)) w b w' :
  or_retry m k w = (Ok (Done b), w') → ∃ a w1, m w = (Ok a, w1) ∧ k a w1 = (Ok (Done b), w').
Proof. unfold or_retry, attempt. destruct (m w) as [[a|e|s|] w1]; [eauto|by unfold_m|done..]. Qed.

Lemma cluster_task_Done check (w : W) w' :
  cluster_task check w = (Ok (Done tt), w') → ∃ cv, GetClusterVersion w = (Ok cv, w') ∧ check cv = None.
Proof.
  unfold cluster_task, attempt. destruct (GetClusterVersion w) as [[cv|e|s|] w1]; unfold mret, M_ret; try done.
  destruct (check cv) eqn:E; intros ?; simplify_eq. eauto.
Qed.

(** The cluster was seen with a version object that satisfies [P]. *)
Definition seen (P : ClusterVersion → Prop) : Prop := ∃ (w w' : W) cv, GetClusterVersion w = (Ok cv, w') ∧ P cv.

(** No condition says that the operator is progressing, unless one before says that it is
    not, and every unfinished entry of the version has a finished one before it. *)
Record settled (v : string) (cv : ClusterVersion) : Prop := {
  not_progressing : ∀ i m, cv_Conditions cv !! i = Some (OperatorProgressing, ConditionTrue, m) →
    ∃ j m', (j < i)%nat ∧ cv_Conditions cv !! j = Some (OperatorProgressing, ConditionFalse, m');
  completed_first : ∀ i st, History cv !! i = Some (v, st) → st ≠ CompletedUpdate →
    ∃ j, (j < i)%nat ∧ History cv !! j = Some (v, CompletedUpdate);
}.

Lemma progressing_None l i m :
  progressing l = None → l !! i = Some (OperatorProgressing, ConditionTrue, m) →
  ∃ j m', (j < i)%nat ∧ l !! j = Some (OperatorProgressing, ConditionFalse, m').
Proof.
  revert i. induction l as [|[[t s] msg] l IH]; intros i Hp Hi; [done|]. cbn [progressing] in Hp.
  case_decide as Ht; [done|]. case_decide as Hfl.
  - destruct Hfl as [-> ->]. destruct i as [|i]; [by simplify_eq/=|]. exists 0%nat, msg. split; [lia|done].
  - destruct i as [|i]; simpl in Hi; [simplify_eq; by destruct Ht|].
    destruct (IH i Hp Hi) as (j & m' & Hj & Hl). exists (S j), m'. split; [lia|done].
Qed.

Lemma not_completed_None v l i st :
  not_completed v l = None → l !! i = Some (v, st) → st ≠ CompletedUpdate →
  ∃ j, (j < i)%nat ∧ l !! j = Some (v, CompletedUpdate).
Proof.
  revert i. induction l as [|[v' st'] l IH]; intros i Hp Hi Hst; [done|]. cbn [not_completed] in Hp.
  case_decide as Hv.
  - case_decide as Hc; [|done]. subst. destruct i as [|i]; [by simplify_eq/=|]. exists 0%nat. split; [lia|done].
  - destruct i as [|i]; simpl in Hi; [by simplify_eq|].
    destruct (IH i Hp Hi Hst) as (j & Hj & Hl). exists (S j). split; [lia|done].
Qed.

Lemma upgraded_settled v cv : upgraded v cv = None → settled v cv.
Proof.
  unfold upgraded. destruct (progressing (cv_Conditions cv)) eqn:Hp; [done|]. intros Hn. constructor; intros.
  - by eapply progressing_None.
  - by eapply not_completed_None.
Qed.

Lemma keep_all {A} (f : A → bool) l : (length l <= length (keep f l))%nat → Forall (λ x, f x = true) l.
Proof.
  assert (∀ l, length (keep f l) <= length l)%nat as Hle by (intros l'; induction l' as [|x l' IH]; simpl; [done|]; destruct (f x); simpl; lia).
  induction l as [|x l IH]; simpl; [constructor|]. destruct (f x) eqn:Hx; simpl.
  - intros Hl. constructor; [done|]. apply IH. lia.
  - specialize (Hle l). lia.
Qed.

Lemma keep_id {A} (f : A → bool) l : Forall (λ x, f x = true) l → keep f l = l.
Proof. induction 1 as [|x l Hx _ IH]; simpl; [done|]. by rewrite Hx, IH. Qed.

(** All nodes were seen ready, with one version of the kubelet. *)
Definition nodes_ready : Prop :=
  ∃ (w w' : W) items, GetNodes_status w = (Ok items, w') ∧ Forall (λ n, node_ready n = true) items ∧
    ∀ n n', n ∈ items → n' ∈ items → KubeletVersion n = KubeletVersion n'.

Lemma small_set (X : gset string) x y : (size X <= 1)%nat → x ∈ X → y ∈ X → x = y.
Proof.
  intros Hs Hx Hy. destruct (decide (x = y)) as [|Hne]; [done|].
  assert (size ({[x; y]} : gset string) <= size X)%nat as Hsub by (apply subseteq_size; set_solver).
  rewrite size_union in Hsub by set_solver. rewrite !size_singleton in Hsub. lia.
Qed.

Lemma waitNodesToBeReady_Ok (w : W) w' : waitNodesToBeReady w = (Ok tt, w') → nodes_ready.
Proof.
  unfold waitNodesToBeReady. intros [w1 Ht]%DoRetryWithTimeout_Ok_inv. unfold nodes_task, attempt in Ht.
  destruct (GetNodes_status w1) as [[items|e|s|] w2] eqn:Hg; unfold mret, M_ret in Ht; try done.
  case_decide as Hl; [done|]. case_decide as Hs; [done|]. exists w1, w2, items.
  assert (Forall (λ n, node_ready n = true) items) as Hall by (apply keep_all; lia). split_and!; [done..|].
  rewrite (keep_id _ _ Hall) in Hs. intros n n' Hn Hn'. eapply small_set; [apply Nat.nlt_ge, Hs|..];
    apply elem_of_list_to_set, list_elem_of_fmap; eauto.
Qed.

(** The channel is the one that was set already, or the generation of the object changed
    after it was set. *)
Definition channel_selected (channel : string) : Prop :=
  seen (λ cv, Channel cv = channel) ∨
  ∃ g, seen (λ cv, ObservedGeneration cv = g) ∧ seen (λ cv, ObservedGeneration cv ≠ g).

Lemma cluster_version_Ok {A} (f : ClusterVersion → A) (w : W) a w' :
  cluster_version f w = (Ok a, w') → ∃ cv, GetClusterVersion w = (Ok cv, w') ∧ f cv = a.
Proof. unfold cluster_version. intros (cv & w1 & Hg%wrap_err_Ok_inv & Hr)%bind_Ok_inv. unfold_m. simplify_eq. eauto. Qed.

Lemma selectChannel_Ok v (w : W) w' :
  selectChannel v w = (Ok tt, w') → ∃ channel, getChannel v = Ok channel ∧ channel_selected channel.
Proof.
  unfold selectChannel. intros (channel & w1 & [Hc ->]%wrap_err_Ok_inv%lift_Ok_inv & Hr)%bind_Ok_inv. exists channel. split; [done|].
  apply bind_Ok_inv in Hr as (cur & w2 & (cv & Hg & Hcv)%wrap_err_Ok_inv%cluster_version_Ok & Hr).
  case_decide as Heq; [left; exists w, w2, cv; split; [done|congruence]|]. right.
  apply bind_Ok_inv in Hr as (g & w3 & (cv0 & Hg0 & Hcv0)%wrap_err_Ok_inv%cluster_version_Ok & Hr).
  exists g. split; [by exists w2, w3, cv0|]. apply DoRetryWithTimeout_Ok_inv in Hr as [w4 Ht]. unfold channel_task in Ht.
  apply or_retry_Done in Ht as (out & w5 & _ & Ht). apply or_retry_Done in Ht as ([] & w6 & Hw%wrap_err_Ok_inv & _).
  unfold waitForNewGenertionNumber in Hw. apply DoRetryWithTimeout_Ok_inv in Hw as [w7 Hw]. unfold generation_task, attempt in Hw.
  destruct (getGenerationNumber w7) as [[n|e|s|] w8] eqn:Hn; unfold mret, M_ret in Hw; try done. case_decide as Hne; [done|].
  apply cluster_version_Ok in Hn as (cv1 & Hg1 & Hcv1). exists w7, w8, cv1. split; [done|congruence].
Qed.

Lemma cluster_retry_Ok check timeout interval (w : W) w' :
  DoRetryWithTimeout (cluster_task check) timeout interval w = (Ok tt, w') → seen (λ cv, check cv = None).
Proof. intros [w1 (cv & Hg & Hc)%cluster_task_Done]%DoRetryWithTimeout_Ok_inv. by exists w1, w', cv. Qed.

Lemma seen_mono (P Q : ClusterVersion → Prop) : (∀ cv, P cv → Q cv) → seen P → seen Q.
Proof. intros HPQ (w & w' & cv & Hg & Hp). exists w, w', cv. auto. Qed.

(** A successful upgrade selected the channel of the version, saw the cluster accept the
    version, then saw it settled, and at last all nodes ready with one kubelet; the
    version waited for is that of the client that was downloaded. *)
Theorem Openshift_UpgradeScheduler_success version (w : W) s w' s' :
  UpgradeScheduler version (w, s) = (Ok tt, (w', s')) →
  ∃ channel clientVersion, getChannel version = Ok channel ∧ channel_selected channel ∧
    seen (λ cv, Desired_Version cv = if matches_channel version then clientVersion else version) ∧
    seen (settled clientVersion) ∧ nodes_ready.
Proof.
  unfold UpgradeScheduler. intros ([] & [w1 s1] & _ & Hr)%bind_Ok_inv. apply bind_Ok_inv in Hr as (ov & [w2 s2] & _ & Hr).
  rewrite bind_put_local in Hr. apply up_Ok_inv in Hr as [Hr _].
  apply bind_Ok_inv in Hr as (client & w3 & _ & Hr). cbv zeta in Hr.
  apply bind_Ok_inv in Hr as ([] & w4 & _ & Hr). apply bind_Ok_inv in Hr as ([] & w5 & (channel & Hc & Hsel)%selectChannel_Ok & Hr).
  apply bind_Ok_inv in Hr as ([] & w6 & _ & Hr). apply bind_Ok_inv in Hr as ([] & w7 & _ & Hr).
  apply bind_Ok_inv in Hr as ([] & w8 & Hst & Hr). apply bind_Ok_inv in Hr as ([] & w9 & Hwait & Hn%waitNodesToBeReady_Ok).
  unfold startUpgrade in Hst. apply bind_Ok_inv in Hst as ([] & w10 & _ & Hst%cluster_retry_Ok).
  apply cluster_retry_Ok in Hwait. exists channel, client. split_and!; [done..| |by eapply seen_mono; [apply upgraded_settled|]|done].
  eapply seen_mono; [|exact Hst]. intros cv Hd. unfold desired in Hd. case_decide as Hv; [exact Hv|discriminate].
Qed.

(** A successful upgrade parsed its version and selected a channel for it. *)
Lemma UpgradeScheduler_channel version (wl wl' : W * openshift) :
  UpgradeScheduler version wl = (Ok tt, wl') →
  (matches_channel version = true ∨ ∃ x, NewVersion version = Ok x) ∧ ∃ channel, getChannel version = Ok channel.
Proof.
  destruct wl as [w s]. unfold UpgradeScheduler. intros ([] & [w1 s1] & _ & Hr)%bind_Ok_inv. apply bind_Ok_inv in Hr as (ov & [w2 s2] & _ & Hr).
  rewrite bind_put_local in Hr. destruct wl' as [w' s']. apply up_Ok_inv in Hr as [Hr _].
  apply bind_Ok_inv in Hr as (client & w3 & _ & Hr). cbv zeta in Hr.
  apply bind_Ok_inv in Hr as ([] & w4 & Hp & Hr). apply bind_Ok_inv in Hr as ([] & w5 & (channel & Hc & _)%selectChannel_Ok & _).
  split; [|by exists channel]. destruct (matches_channel version) eqn:Hm; [by left|right].
  unfold setOcpPrometheusPrereq in Hp. apply bind_Ok_inv in Hp as (need & w6 & Hn%wrap_err_Ok_inv & _).
  unfold needOcpPrereq in Hn. apply bind_Ok_inv in Hn as (x & w7 & Hv%wrap_err_Ok_inv & _). exists x.
  unfold getParsedVersion in Hv. rewrite Hm in Hv. apply bind_Ok_inv in Hv as (v & w8 & Hv0 & [Hx _]%lift_Ok_inv).
  unfold mret, M_ret in Hv0. by simplify_eq.
Qed.

Lemma split_loop_head sep cur s a l : split_loop sep cur s = a :: l → ∃ t, cur +:+ s = a +:+ t.
Proof.
  revert cur. induction s as [|c s IH]; intros cur Hs; simpl in Hs; [simplify_eq; by exists ""|].
  destruct (Ascii.eqb c sep); [simplify_eq; by exists (String c s)|]. destruct (IH _ Hs) as [t Ht]. exists t.
  by rewrite <- Ht, <- app_cons_r.
Qed.

(** The version library parses no empty text and none that begins with the name of a
    channel.  Then an upgrade succeeds only to a channel, such as stable-4.14: to a plain
    version, such as 4.14.2, it never does, and to any other text only after it selected
    the channel with the empty name. *)
Theorem Openshift_only_channels version (wl wl' : W * openshift) :
  (∀ x, NewVersion "" ≠ Ok x) → (∀ c v x, c ∈ channels → HasPrefix v c = true → NewVersion v ≠ Ok x) →
  UpgradeScheduler version wl = (Ok tt, wl') →
  matches_channel version = true ∨ (free_of "-" version = false ∧ getChannel version = Ok "").
Proof.
  intros Hempty Hname ([Hm|[x Hx]] & channel & Hc)%UpgradeScheduler_channel; [by left|].
  destruct (matches_channel version) eqn:Hno; [by left|right].
  unfold getChannel in Hc |- *. rewrite Hno in Hc |- *. split.
  - apply not_true_iff_false. intros Hf. unfold Split in Hc. rewrite split_loop_free in Hc by done.
    by destruct (NewVersion "") as [y|e|m|] eqn:E; [destruct (Hempty y)|..].
  - destruct (Split version "-") as [|ch [|v l]] eqn:Hs; [by destruct (NewVersion "") as [y|e|m|] eqn:E; [destruct (Hempty y)|..]..|].
    destruct (NewVersion v) as [y|e|m|]; [|done..]. simpl in Hc |- *. destruct (major_minor y) as [mm|e|m|]; [|done..]. simpl in Hc |- *.
    rewrite decide_False; [done|]. intros Hin. destruct (split_loop_head _ _ _ _ _ Hs) as [t Ht]. simpl in Ht.
    apply (Hname ch version x Hin); [|done]. apply HasPrefix_spec. by exists t.
Qed.
End upgrade.

(** ** Machines *)

Section machines.
Context {W : Type} `{SchedWorld W} `{K8sClient W} `{K8sNodeApi W} `{NodeDriver W} `{K8sCore W}.
Context `{Shell W} `{OpenshiftApi W} `{RecycleDriver W} `{MachineDriver W}.

(** The shell ran a command without an error. *)
Definition ran (cmd : string) : Prop := ∃ (w w' : W) out, CombinedOutput "sh" ["-c"; cmd] w = (Ok (out, None), w').

Lemma sh_Ok cmd failed (w : W) out w' : sh cmd failed w = (Ok out, w') → ran cmd.
Proof.
  unfold sh, command. intros ([o [e|]] & w1 & Hc & Hr)%bind_Ok_inv; [by unfold_m|]. by exists w, w1, o.
Qed.

Lemma bind_get_k8s {B} (f : K8sState → M W B) (w : W) : (get_k8s ≫= f) w = f (k8s w) w.
Proof. done. Qed.

Lemma getAndWait_no_name (w : W) name e w' : getAndWaitMachineToBeReady w = (Ok (name, Some e), w') → name = "".
Proof.
  unfold getAndWaitMachineToBeReady. rewrite bind_get_k8s. unfold attempt.
  destruct (run_local _ _ w) as [[out|e'|m|] w2]; unfold mret, M_ret; intros ?; by simplify_eq.
Qed.

(** No name comes with an error, so that a machine that stays away is not deleted before
    the second wait. *)
Lemma checkAndGetNewNode_tries (w : W) :
  checkAndGetNewNode w =
  ('(name, err) ← getAndWaitMachineToBeReady;
   newNodeName ← (match err with
                  | None => mret name
                  | Some _ => '(name', err') ← getAndWaitMachineToBeReady; match err' with None => mret name' | Some e => throw e end
                  end);
   _ ← waitForJoinK8sNode newNodeName;
   mret newNodeName) w.
Proof.
  unfold checkAndGetNewNode. unfold mbind at 1, M_bind at 1. symmetry. unfold mbind at 1, M_bind at 1. symmetry.
  destruct (getAndWaitMachineToBeReady w) as [[[name [e|]]|e|m|] w1] eqn:Hg; try reflexivity.
  apply getAndWait_no_name in Hg as ->. rewrite decide_True by reflexivity. reflexivity.
Qed.

(** The newest machine was seen running, and its node ready. *)
Definition joined (name : string) : Prop :=
  (∃ (w w' : W) out state rest, CombinedOutput "sh" ["-c"; "kubectl get machines -n openshift-machine-api --sort-by='.metadata.creationTimestamp' | tail -1"] w
     = (Ok (out, None), w') ∧ Fields out = name :: state :: rest ∧ ToLower state = "running") ∧
  ∃ w w' : W, core_IsNodeReady name w = (Ok tt, w').

Lemma machine_task_Done driverName (wl : W * bool) name wl' :
  machine_task driverName wl = (Ok (Done name), wl') →
  ∃ (w w' : W) out state rest, CombinedOutput "sh" ["-c"; "kubectl get machines -n openshift-machine-api --sort-by='.metadata.creationTimestamp' | tail -1"] w
     = (Ok (out, None), w') ∧ Fields out = name :: state :: rest ∧ ToLower state = "running".
Proof.
  unfold machine_task. intros ([out [e|]] & [w1 b1] & Hc & Hr)%bind_Ok_inv.
  - apply bind_Ok_inv in Hr as (? & ? & _ & Hr). by unfold_m.
  - destruct wl as [w b]. apply up_Ok_inv in Hc as [Hc _]. exists w, w1, out.
    apply bind_Ok_inv in Hr as (state & wl2 & [Hs ->]%lift_Ok_inv & Hr). apply bind_Ok_inv in Hr as (nm & wl3 & [Hn ->]%lift_Ok_inv & Hr).
    destruct (Fields out) as [|f0 [|f1 rest]]; [done..|]. unfold index in Hs, Hn. simpl in Hs, Hn. simplify_eq.
    case_decide as Hd; [unfold_m; simplify_eq; by exists state, rest|].
    apply bind_Ok_inv in Hr as (? & ? & _ & Hr). apply bind_Ok_inv in Hr as (? & ? & _ & Hr). by unfold_m.
Qed.

Lemma getAndWait_Ok (w : W) name w' :
  getAndWaitMachineToBeReady w = (Ok (name, None), w') →
  ∃ (w w' : W) out state rest, CombinedOutput "sh" ["-c"; "kubectl get machines -n openshift-machine-api --sort-by='.metadata.creationTimestamp' | tail -1"] w
     = (Ok (out, None), w') ∧ Fields out = name :: state :: rest ∧ ToLower state = "running".
Proof.
  unfold getAndWaitMachineToBeReady. rewrite bind_get_k8s. unfold attempt, run_local.
  destruct (DoRetryWithTimeout _ _ _ _) as [[out|e|m|] w2] eqn:Hd; unfold mret, M_ret; intros ?; simplify_eq/=.
  apply DoRetryWithTimeout_Ok_inv in Hd as [wl1 Hd]. by apply machine_task_Done in Hd.
Qed.

Lemma checkAndGetNewNode_Ok (w : W) name w' : checkAndGetNewNode w = (Ok name, w') → joined name.
Proof.
  rewrite checkAndGetNewNode_tries. intros ([n1 err] & w1 & Hg & Hr)%bind_Ok_inv.
  apply bind_Ok_inv in Hr as (nm & w2 & Hn & Hr). apply bind_Ok_inv in Hr as ([] & w3 & Hj & Hr). unfold mret, M_ret in Hr. simplify_eq.
  split.
  - destruct err as [e|].
    + apply bind_Ok_inv in Hn as ([n2 [e2|]] & w4 & Hg2 & Hn); [done|]. unfold mret, M_ret in Hn. simplify_eq. by eapply getAndWait_Ok.
    + unfold mret, M_ret in Hn. simplify_eq. by eapply getAndWait_Ok.
  - unfold waitForJoinK8sNode in Hj. apply DoRetryWithTimeout_Ok_inv in Hj as [w4 Ht].
    apply or_retry_Done in Ht as ([] & w5 & Hi%wrap_err_Ok_inv & _). eauto.
Qed.

(** A scaling that succeeds saw more machines than before it, whatever number was asked
    for: scaling down or to the same number never succeeds. *)
Theorem Openshift_SetASGClusterSize_success replicas timeout (w : W) w' :
  SetASGClusterSize replicas timeout w = (Ok tt, w') →
  ∃ name initial count w1 w2 w3, getMachinesCount w = (Ok initial, w1) ∧
    ran ("kubectl -n " +:+ OpenshiftMachineNamespace +:+ " scale " +:+ name +:+ " --replicas " +:+ Itoa replicas) ∧
    getMachinesCount w2 = (Ok count, w3) ∧ initial < count ∧ ∃ machine, joined machine.
Proof.
  unfold SetASGClusterSize. intros (initial & w1 & Hi & Hr)%bind_Ok_inv. apply bind_Ok_inv in Hr as (name & w2 & _ & Hr).
  apply bind_Ok_inv in Hr as (out & w3 & Hs%sh_Ok & Hr). destruct (Contains out _); [|done].
  apply bind_Ok_inv in Hr as ([] & w4 & Hm & Hr). apply bind_Ok_inv in Hr as (machine & w5 & Hj%checkAndGetNewNode_Ok & _).
  apply DoRetryWithTimeout_Ok_inv in Hm as [w6 Hm]. unfold more_machines_task, attempt in Hm.
  destruct (getMachinesCount w6) as [[count|e|m|] w7] eqn:Hc; unfold mret, M_ret in Hm; try done. case_decide; [done|].
  exists name, initial, count, w1, w6, w7. split_and!; [done..|lia|eauto].
Qed.

(** ** Recycling *)

Lemma machine_body_Ok n : interleaved (machine_body n) (Ok tt) → ran ("kubectl delete machines -n openshift-machine-api " +:+ Name n).
Proof.
  unfold machine_body, R_try. intros (o & Hd & Hi)%interleaved_attempt_inv. destruct o as [[]|e|m|]; [|by inversion Hi..].
  apply retry_among_Ok in Hd as (w1 & w2 & (out & w3 & Hs%sh_Ok & _)%or_retry_Done). done.
Qed.

Lemma registry_GetNodeByName_Ok name (w : W) n w' : registry_GetNodeByName name w = (Ok n, w') → Name n = name.
Proof.
  unfold registry_GetNodeByName. intros (l & w1 & _ & [Hl _]%lift_Ok_inv)%bind_Ok_inv.
  destruct (find_first _ l) as [n'|] eqn:Hf; simplify_eq. by apply find_first_Some in Hf as [_ Hf%bool_decide_eq_true].
Qed.

(** C27. Recycling a node succeeds only when it is a worker and, under whatever schedule of
    the two goroutines, its machine was deleted and the virtual machine of a storage node
    was destroyed when the nodes run on vSphere; the node was taken from the registry, and
    after that a new machine ran and its node was ready; another node took over the
    identity of a storage node and was found valid; and at last the driver was up on the
    node of the new machine.  The volume driver, the node driver and the storageless nodes
    are those of this run. *)
Theorem Openshift_DeleteNode_success choices n (w : W) w' :
  DeleteNode choices n w = (Ok tt, w') →
  ∃ worker d delNode n' storageless machine newNode wa wb ws wd we wf wc,
    registry_GetWorkerNodes w = (Ok worker, wa) ∧ Registry.Contains worker n = true ∧
    volume_Get (VolDriverName (k8s wa)) = Ok d ∧ GetDriverNode d (wa, n) = (Ok delNode, (wb, n')) ∧
    GetStoragelessNodes d wb = (Ok storageless, ws) ∧
    ran ("kubectl delete machines -n openshift-machine-api " +:+ Name n') ∧
    (vol_Contains d storageless delNode = false → NodeDriverName (k8s wa) = vsphere_DriverName →
       ∃ w1 w2 : W, DestroyVM n' w1 = (Ok tt, w2)) ∧
    registry_DeleteNode n' wd = (Ok tt, we) ∧ checkAndGetNewNode we = (Ok machine, wf) ∧ joined machine ∧
    (vol_Contains d storageless delNode = false →
       ∃ px w1 w2 w3, WaitForNodeIDToBePickedByAnotherNode d delNode w1 = (Ok px, w2) ∧
         ValidateNodeAfterPickingUpNodeID d delNode px storageless w2 = (Ok tt, w3)) ∧
    Name newNode = machine ∧ WaitDriverUpOnNode d newNode driverUpTimeout wc = (Ok tt, w').
Proof.
  unfold DeleteNode. intros (worker & w1 & Hw & Hr)%bind_Ok_inv. destruct (Registry.Contains worker n) eqn:Hin; [|done].
  rewrite bind_get_k8s in Hr. apply bind_Ok_inv in Hr as (d & w2 & [Hvd ->]%lift_Ok_inv & Hr).
  apply bind_Ok_inv in Hr as ([delNode n'] & w3 & Hd & Hr). unfold with_local in Hd.
  destruct (GetDriverNode d (w1, n)) as [[dn|e|m|] [w4 n4]] eqn:Hg; simplify_eq/=.
  apply bind_Ok_inv in Hr as (storageless & w5 & Hsl & Hr). apply bind_Ok_inv in Hr as ([] & w6 & _ & Hr).
  apply bind_Ok_inv in Hr as ([] & w7 & He%errgroup_Ok & Hr). apply bind_Ok_inv in Hr as ([] & w8 & Hdel%wrap_err_Ok_inv & Hr).
  apply Forall_cons in He as [Hmach%machine_body_Ok [Hvm _]%Forall_cons].
  unfold replacement in Hr. apply bind_Ok_inv in Hr as (machine & w9 & Hj%wrap_err_Ok_inv & Hr).
  apply bind_Ok_inv in Hr as (core & w10 & _ & Hr). apply bind_Ok_inv in Hr as ([] & w11 & _ & Hr).
  apply bind_Ok_inv in Hr as (n1 & w12 & Hn1%registry_GetNodeByName_Ok & Hr). apply bind_Ok_inv in Hr as ([] & w13 & _ & Hr).
  apply bind_Ok_inv in Hr as ([] & w14 & Hval & Hr). apply bind_Ok_inv in Hr as ([] & w15 & _ & Hr).
  apply bind_Ok_inv in Hr as (n2 & w16 & Hn2%registry_GetNodeByName_Ok & Hup).
  exists worker, d, delNode, n', storageless, machine, n2, w1, w3, w5, w7, w8, w9, w16.
  split_and!; [done..| |done|done|by eapply checkAndGetNewNode_Ok| |congruence|done].
  - intros Hc Hdrv. unfold vm_body in Hvm. rewrite Hc, decide_True in Hvm by done.
    apply interleaved_act_inv in Hvm as (? & ? & ?). eauto.
  - intros Hc. rewrite Hc in Hval. unfold validateDrivesAfterNewNodePickUptheID in Hval.
    apply bind_Ok_inv in Hval as (px & w17 & Hp & Hv). eauto 10.
Qed.

(** ** Applications *)

(** The security context was updated, and has the service account of the namespace. *)
Definition granted (namespace : string) : Prop :=
  ∃ scc (w w' : W), UpdateSecurityContextConstraints scc w = (Ok tt, w') ∧ service_account namespace ∈ Users scc.

Lemma updateSCC_Ok namespace (w : W) w' : updateSecurityContextConstraints namespace w = (Ok tt, w') → granted namespace.
Proof.
  unfold updateSecurityContextConstraints. intros (scc & w1 & _ & Hu)%bind_Ok_inv. do 3 eexists. split; [exact Hu|]. simpl.
  apply elem_of_app. right. by left.
Qed.

Context `{SpecFiles} `{HelmLib W} `{K8sCreateApi W} (volumes : VolumePackage) `{!SpecSource (O := nat)}.

(** The namespace of an application: the one asked for, or one of its own *)
Definition namespace_of (options : ScheduleOptions) (instanceID : string) (app : AppSpec nat) : string :=
  if decide (opt_Namespace options = "") then GetID app instanceID else opt_Namespace options.

(** Scheduling makes a context for every application, in order and in its namespace, and
    the service account of the namespace was granted the security context. *)
Theorem Openshift_schedule_granted apps instanceID options (w : W) ctxs w' :
  ScheduleWithCustomAppSpecs volumes apps instanceID options w = (Ok ctxs, w') →
  Forall2 (λ app ctx, UID ctx = instanceID ∧ Key (App ctx) = Key app ∧ Enabled (App ctx) = Enabled app ∧
    opt_Namespace (ScheduleOpts ctx) = namespace_of options instanceID app ∧
    granted (namespace_of options instanceID app)) apps ctxs.
Proof.
  unfold ScheduleWithCustomAppSpecs. assert (∀ opts, opt_Namespace opts = opt_Namespace options →
    ∀ w ctxs, schedule_apps volumes instanceID (opt_Namespace options) apps opts w = (Ok ctxs, w') →
    Forall2 (λ app ctx, UID ctx = instanceID ∧ Key (App ctx) = Key app ∧ Enabled (App ctx) = Enabled app ∧
      opt_Namespace (ScheduleOpts ctx) = namespace_of options instanceID app ∧
      granted (namespace_of options instanceID app)) apps ctxs) as Hall; [|by intros Hs; eapply Hall].
  induction apps as [|app apps IH]; intros opts Ho w0 l Hs; cbn [schedule_apps] in Hs; [unfold mret, M_ret in Hs; by simplify_eq|].
  cbv zeta in Hs. rewrite Ho in Hs. fold (namespace_of options instanceID app) in Hs.
  apply bind_Ok_inv in Hs as ([] & w1 & Hu%updateSCC_Ok & Hs). apply bind_Ok_inv in Hs as (objs & w2 & _ & Hs).
  apply bind_Ok_inv in Hs as (helm & w3 & _ & Hs). apply bind_Ok_inv in Hs as (rest & w4 & Hr & Hs). unfold mret, M_ret in Hs. simplify_eq.
  constructor; [|by eapply IH; [|exact Hr]]. split_and!; done.
Qed.
End machines.
