(* ===== verification/SchedDcos.v ===== *)
(** drivers/scheduler/dcos: the scheduler driver for DC/OS (dcos.go) over Marathon
    (marathon_ops.go) and Mesos (mesos_ops.go).

    The driver's fields, the applications of the spec factory and the clients that were
    made are the local component of the world.  A spec object is a pointer: to what was
    decoded from a file, which the factory hands out again and again, or to what
    Marathon answered; [randomizeVolumeNames] writes through it.  The methods that do
    nothing but answer are tables. *)

From Stdlib Require Import Ascii.
From S2P Require Import Prelude GoStrings Errors Effects Strconv GoJson Task OpenStorageApi NodeRegistry SpecFactory PxDriver VolumeDrivers PureDevices K8sNodes K8sDestroy SchedCloud.

Module Dcos.

(** ** The answers of the methods that are not implemented *)

(** Methods GetEvents to IsCsiSnapshotExists *)
Definition dcos_methods_1 : list (string * answer) :=
  [ ("GetEvents", Nothing);
    ("ValidateAutopilotEvents", Unsupported "ValidateAutopilotEvents()");
    ("ValidateAutopilotRuleObjects", Unsupported "ValidateAutopilotRuleObjects()");
    ("WaitForRebalanceAROToComplete", Unsupported "WaitForRebalanceAROToComplete()");
    ("VerifyPoolResizeARO", Unsupported "VerifyPoolResizeARO()");
    ("GetSnapShotData", Unsupported "ValidateSnapShot()");
    ("DeleteSnapShot", Unsupported "DeleteSnapShot()");
    ("GetSnapshotsInNameSpace", Unsupported "DeleteSnapShot()");
    ("DeleteCsiSnapshotsFromNamespace", Unsupported "DeleteCsiSnapshotsFromNamespace()");
    ("IsCsiSnapshotExists", Unsupported "IsCsiSnapshotExists()") ].

(** Methods ScheduleUninstall to UpdateTasksID *)
Definition dcos_methods_2 : list (string * answer) :=
  [ ("ScheduleUninstall", Unsupported "ScheduleUninstall()");
    ("RemoveAppSpecsByName", Unsupported "RemoveAppSpecsByName()");
    ("UpdateTasksID", Unsupported "UpdateTasksID()") ].

(** Method SelectiveWaitForTermination *)
Definition dcos_methods_3 : list (string * answer) :=
  [ ("SelectiveWaitForTermination", Unsupported "SelectiveWaitForTermination") ].

(** Methods GetVolumeDriverVolumeName to GetSnapshots *)
Definition dcos_methods_4 : list (string * answer) :=
  [ ("GetVolumeDriverVolumeName", Unsupported "GetVolumeDriverVolumeName()");
    ("GetVolumes", Unsupported "GetVolumes()");
    ("GetPureVolumes", Unsupported "GetPureVolumes()");
    ("GetPodsForPVC", Unsupported "GetPodsForPVC()");
    ("GetPodLog", Unsupported "GetPodLog()");
    ("ResizeVolume", Unsupported "ResizeVolume()");
    ("ResizePVC", Unsupported "ResizePVC()");
    ("GetSnapshots", Unsupported "GetSnapshots()") ].

(** Methods SetConfig to IsScalable *)
Definition dcos_methods_5 : list (string * answer) :=
  [ ("SetConfig", Unsupported "SetConfig()");
    ("SetGkeConfig", Unsupported "SetGkeConfig()");
    ("Describe", Unsupported "Describe()");
    ("ScaleApplication", Unsupported "ScaleApplication()");
    ("GetScaleFactorMap", Unsupported "GetScaleFactorMap()");
    ("StopSchedOnNode", Unsupported "StopSchedOnNode()");
    ("StartSchedOnNode", Unsupported "StartSchedOnNode()");
    ("RescanSpecs", Unsupported "RescanSpecs()");
    ("PrepareNodeToDecommission", Unsupported "PrepareNodeToDecommission()");
    ("EnableSchedulingOnNode", Unsupported "EnableSchedulingOnNode()");
    ("DisableSchedulingOnNode", Unsupported "DisableSchedulingOnNode()");
    ("RefreshNodeRegistry", Nothing);
    ("IsScalable", Nothing) ].

(** Methods GetTokenFromConfigMap to DeleteActionApproval *)
Definition dcos_methods_6 : list (string * answer) :=
  [ ("GetTokenFromConfigMap", Unsupported "GetTokenFromConfigMap()");
    ("AddLabelOnNode", Unsupported "AddLabelOnNode()");
    ("RemoveLabelOnNode", Unsupported "RemoveLabelOnNode()");
    ("IsAutopilotEnabledForVolume", Nothing);
    ("GetSpecAppEnvVar", Nothing);
    ("SaveSchedulerLogsToFile", Unsupported "SaveSchedulerLogsToFile()");
    ("GetWorkloadSizeFromAppSpec", Nothing);
    ("GetAutopilotNamespace", Unsupported "GetAutopilotNamespace()");
    ("IsAutopilotEnabled", Unsupported "GetAutopilotNamespace()");
    ("GetPortworxNamespace", Unsupported "GetPortworxNamespace()");
    ("GetIOBandwidth", Unsupported "GetIOBandwidth()");
    ("CreateAutopilotRule", Unsupported "CreateAutopilotRule()");
    ("GetAutopilotRule", Unsupported "GetAutopilotRule()");
    ("UpdateAutopilotRule", Unsupported "UpdateAutopilotRule()");
    ("ListAutopilotRules", Unsupported "ListAutopilotRules()");
    ("DeleteAutopilotRule", Unsupported "DeleteAutopilotRule()");
    ("GetActionApproval", Unsupported "GetActionApproval()");
    ("UpdateActionApproval", Unsupported "UpdateActionApproval()");
    ("DeleteActionApproval", Unsupported "DeleteActionApproval()") ].

(** Methods ListActionApprovals to CSISnapshotTest *)
Definition dcos_methods_7 : list (string * answer) :=
  [ ("ListActionApprovals", Unsupported "ListActionApprovals()");
    ("UpgradeScheduler", Unsupported "UpgradeScheduler()");
    ("GetZones", Unsupported "GetZones()");
    ("GetASGClusterSize", Unsupported "GetASGClusterSize()");
    ("CreateSecret", Unsupported "CreateSecret()");
    ("GetSecretData", Unsupported "GetSecret()");
    ("DeleteSecret", Unsupported "DeleteSecret()");
    ("ParseCharts", Unsupported "ParseCharts()");
    ("ValidateTopologyLabel", Unsupported "ValidateTopologyLabel()");
    ("CreateCsiSnapshotClass", Unsupported "CreateCsiSnapshotClass()");
    ("DeleteCsiSnapshotClass", Unsupported "DeleteCsiSnapshotClass()");
    ("CreateVolumeSnapshotClasses", Unsupported "CreateVolumeSnapshotClasses()");
    ("CreateVolumeSnapshotClassesWithParameters", Unsupported "CreateVolumeSnapshotClassesWithParameters()");
    ("CreateCsiSnapshot", Unsupported "CreateCsiSanpshot()");
    ("CreateCsiSnapsForVolumes", Unsupported "CreateCsiSnapsForVolumes()");
    ("CSICloneTest", Unsupported "CSICloneTest()");
    ("WaitForSinglePVCToBound", Unsupported "WaitForSinglePVCToBound()");
    ("CSISnapshotTest", Unsupported "CSISnapshotTest()") ].

(** Methods CSISnapshotAndRestoreMany to GetPXCloudDriveConfigMap *)
Definition dcos_methods_8 : list (string * answer) :=
  [ ("CSISnapshotAndRestoreMany", Unsupported "CSISnapshotAndRestoreMany()");
    ("GetCsiSnapshots", Unsupported "GetCsiSnapshots()");
    ("ValidateCsiSnapshots", Unsupported "ValidateCsiSnapshots()");
    ("RestoreCsiSnapAndValidate", Unsupported "RestoreCsiSnapAndValidate()");
    ("DeleteCsiSnapsForVolumes", Unsupported "DeleteCsiSnapsForVolumes()");
    ("DeleteCsiSnapshot", Unsupported "DeleteCsiSnapshot()");
    ("GetAllSnapshotClasses", Unsupported "GetAllSnapshotClasses()");
    ("GetPodsRestartCount", Unsupported "GetPodsRestartCoun()");
    ("AddNamespaceLabel", Unsupported "AddNamespaceLabel()");
    ("RemoveNamespaceLabel", Unsupported "RemoveNamespaceLabel()");
    ("GetNamespaceLabel", Unsupported "GetNamespaceLabel()");
    ("DeleteNode", Unsupported "DeleteNode()");
    ("ScaleCluster", Unsupported "ScaleCluster()");
    ("SetASGClusterSize", Unsupported "SetASGClusterSize()");
    ("StopKubelet", Unsupported "StopKubelet()");
    ("StartKubelet", Unsupported "StartKubelet()");
    ("GetPXCloudDriveConfigMap", Unsupported "GetPXCloudDriveConfigMap()") ].

Definition dcos_methods : list (string * answer) :=
  dcos_methods_1 ++ dcos_methods_2 ++ dcos_methods_3 ++ dcos_methods_4 ++ dcos_methods_5 ++ dcos_methods_6 ++ dcos_methods_7 ++ dcos_methods_8.

Definition ValidateVolumeSnapshotRestore : outcome unit := Err (Errorf "not implemenented").

(** ** Randomised volume names

    [RandomizeVolumeName] of the Portworx driver and of the default one: behind every
    [name=] that is followed by a name, the name gets a suffix. *)

Definition name_char (c : ascii) : bool :=
  let n := nat_of_ascii c in
  (Nat.leb 48 n && Nat.leb n 57) || (Nat.leb 65 n && Nat.leb n 90) || (Nat.leb 97 n && Nat.leb n 122) ||
  Ascii.eqb c "_" || Ascii.eqb c "-".

(** Looking for a match, copying [n] more characters of [name=], and inside of a name *)
Inductive scan_mode : Type := Scan | Copy (n : nat) | InName.

Definition starts_match (s : string) : bool :=
  HasPrefix s "name=" && match String.get 5 s with Some c => name_char c | None => false end.

Fixpoint randomize (suffix : string) (m : scan_mode) (s : string) : string :=
  match s with
  | EmptyString => match m with InName => suffix | _ => EmptyString end
  | String c s' =>
      match m with
      | Scan => String c (randomize suffix (if starts_match s then Copy 4 else Scan) s')
      | Copy n => String c (randomize suffix (match n with S (S n') => Copy (S n') | _ => InName end) s')
      | InName => if name_char c then String c (randomize suffix InName s')
                  else suffix +:+ String c (randomize suffix Scan s')
      end
  end.

Definition px_RandomizeVolumeName (uuid params : string) : string := randomize ("_" +:+ uuid) Scan params.

(** ** Data *)

Definition defaultTimeout : Z := 5 * Minute.
Definition defaultMarathonHostname : string := "marathon.mesos".
Definition defaultMarathonPort : string := "8080".
Definition defaultMesosHostname : string := "leader.mesos".
Definition defaultMesosPort : string := "5050".
Definition getSlavesURL : string := "master/slaves".

Record DockerParameter := { p_Key : string; p_Value : string }.

(** [marathon.Application]: its id and [Container.Docker.Parameters], where one of the
    pointers may be nil *)
Record Application := { app_ID : string; DockerParameters : option (list DockerParameter) }.

Record marathon_Task := { task_ID : string; SlaveID : string }.
Record Deployment := { dep_ID : string; AffectedApps : list string }.

(** A spec object: a pointer to the application of a file, one to an application that
    Marathon answered with, or something else *)
Inductive SpecObject : Type := FileObj (path : string) | MadeObj (i : nat) | OtherObj.

Record Context := { UID : string; App : AppSpec SpecObject }.

Record dcos := {
  dockerClient : bool;
  volDriverName : string;
  marathonClient : bool;
  apps : gmap string (AppSpec SpecObject);
  files : gmap string Application;
  made : list Application;
}.

Definition with_dockerClient x '(Build_dcos _ b c d e f) := Build_dcos x b c d e f.
Definition with_volDriverName x '(Build_dcos a _ c d e f) := Build_dcos a x c d e f.
Definition with_marathonClient x '(Build_dcos a b _ d e f) := Build_dcos a b x d e f.
Definition with_apps x '(Build_dcos a b c _ e f) := Build_dcos a b c x e f.
Definition with_files x '(Build_dcos a b c d _ f) := Build_dcos a b c d x f.
Definition with_made x '(Build_dcos a b c d e _) := Build_dcos a b c d e x.

(** Agents of Mesos *)
Record AgentNode := { agent_ID : string; agent_Hostname : string; PublicIP : string }.

Definition no_agent : AgentNode := Build_AgentNode "" "" "".
Definition dec_agent : decoder AgentNode := dec_struct
  [("id", into agent_ID (λ x '(Build_AgentNode _ b c), Build_AgentNode x b c) dec_string);
   ("hostname", into agent_Hostname (λ x '(Build_AgentNode a _ c), Build_AgentNode a x c) dec_string);
   ("attributes", dec_struct [("public_ip", into PublicIP (λ x '(Build_AgentNode a b _), Build_AgentNode a b x) dec_string)])].
Definition dec_agents : decoder (list AgentNode) := dec_struct [("slaves", dec_slice no_agent dec_agent)].

(** The files of a directory tree, with nil for what cannot be looked at, reading a file,
    the decoder of an application, and the listing and map order of the spec factory *)
Class DcosFiles := {
  Walk : string → list (string * option bool);
  read_file : string → outcome string;
  Unmarshal_Application : string → outcome Application;
  read_dir : string → outcome (list (string * bool));
  range_specs : gmap string (AppSpec SpecObject) → list (string * AppSpec SpecObject);
}.

(** The clients of Marathon, Mesos and docker, and the volume driver of a name *)
Class DcosApi (W : Type) := {
  http_Get : string → M W string;
  marathon_NewClient : string → M W unit;
  client_CreateApplication : Application → M W Application;
  client_WaitOnApplication : string → Z → M W unit;
  client_Tasks : string → M W (list marathon_Task);
  client_KillTasks : list string → M W unit;
  client_DeleteApplication : string → bool → M W unit;
  client_Application : string → M W unit;
  client_Deployments : M W (list Deployment);
  client_WaitOnDeployment : string → Z → M W unit;
  client_DeleteDeployment : string → bool → M W unit;
  docker_NewEnvClient : M W unit;
  VolumeInspect : string → M W unit;
  VolumeRemove : string → bool → M W unit;
  node_uuid : M W string;
  driver : Type;
  volume_Get : string → outcome driver;
  RandomizeVolumeName : driver → string → M W string;
  ExtractVolumeInfo : driver → string → outcome (string * gmap string string);
}.

(** ** Spec files *)
Section files.
Context `{DcosFiles}.

(** The walk: an entry that could not be looked at is a nil pointer. *)
Fixpoint walk_files (l : list (string * option bool)) : outcome (list string) :=
  match l with
  | [] => Ok []
  | (path, f) :: l' =>
      isDir ← deref f;
      rest ← walk_files l';
      Ok (if (isDir : bool) then rest else path :: rest)
  end.

Definition parsed (fileName : string) : outcome Application := raw ← read_file fileName; Unmarshal_Application raw.

Fixpoint parse_all (fileList : list string) : outcome (list SpecObject) :=
  match fileList with
  | [] => Ok []
  | fileName :: l => _ ← parsed fileName; specs ← parse_all l; Ok (FileObj fileName :: specs)
  end.

Definition ParseSpecs (specDir storageProvisioner : string) : outcome (list SpecObject) :=
  fileList ← walk_files (Walk specDir); parse_all fileList.

#[export] Instance dcos_source : SpecSource (O := SpecObject) :=
  { SpecFactory.ParseSpecs := ParseSpecs; ReadDir := read_dir; range_apps := range_specs }.

(** What an object is: what was written to it last, or what the file was decoded to *)
Definition object (s : dcos) (o : SpecObject) : option Application :=
  match o with
  | FileObj path =>
      match files s !! path with
      | Some a => Some a
      | None => match parsed path with Ok a => Some a | _ => None end
      end
  | MadeObj i => made s !! i
  | OtherObj => None
  end.

Definition write_object (o : SpecObject) (a : Application) (s : dcos) : dcos :=
  match o with
  | FileObj path => with_files (<[path := a]> (files s)) s
  | MadeObj i => with_made (<[i := a]> (made s)) s
  | OtherObj => s
  end.
End files.

Section dcos.
Context {W : Type} `{PxWorld W} `{Shell W} `{DcosFiles} `{DcosApi W}.

(** ** Mesos *)

Definition env_or (var default : string) : string := if decide (Getenv var = "") then default else Getenv var.

Definition is_private (n : AgentNode) : bool :=
  bool_decide (PublicIP n = "") || negb (bool_decide (PublicIP n = "true")).

Definition GetPrivateAgentNodes : M W (list AgentNode) :=
  body ← http_Get ("http://" +:+ env_or "MESOS_HOSTNAME" defaultMesosHostname +:+ ":" +:+
                   env_or "MESOS_PORT" defaultMesosPort +:+ "/" +:+ getSlavesURL);
  agents ← lift (Unmarshal_into dec_agents [] body);
  mret (keep is_private agents).

(** ** Marathon *)

Definition initMarathonClient : M (W * dcos) unit :=
  d ← get_local;
  if marathonClient d then mret tt else
  _ ← up (marathon_NewClient ("http://" +:+ env_or "MARATHON_HOSTNAME" defaultMarathonHostname +:+ ":" +:+
                              env_or "MARATHON_PORT" defaultMarathonPort));
  set (with_marathonClient true).

(** A call of the client, which is made when there is none *)
Definition marathon {A} (m : M W A) : M (W * dcos) A := _ ← initMarathonClient; up m.

(** The answer is a new object. *)
Definition CreateApplication (app : Application) : M (W * dcos) SpecObject :=
  obj ← marathon (client_CreateApplication app);
  d ← get_local;
  _ ← put_local (with_made (made d ++ [obj]) d);
  mret (MadeObj (length (made d))).

Definition WaitForApplicationStart (name : string) : M (W * dcos) unit := marathon (client_WaitOnApplication name (5 * Minute)).
Definition GetApplicationTasks (name : string) : M (W * dcos) (list marathon_Task) := marathon (client_Tasks name).

Definition KillApplicationTasks (name : string) : M (W * dcos) unit :=
  tasks ← GetApplicationTasks name; up (client_KillTasks (task_ID <$> tasks)).

Definition DeleteApplication (name : string) : M (W * dcos) unit := marathon (client_DeleteApplication name false).

(** A call whose error is dropped *)
Definition dropped (m : M W unit) : M W unit := attempt m (λ _, mret tt).

Definition clear_deployments (name : string) (deps : list Deployment) : M W unit :=
  for_each (λ dep, if existsb (λ a, bool_decide (name = a)) (AffectedApps dep) then
                     _ ← dropped (client_WaitOnDeployment (dep_ID dep) (2 * Minute));
                     dropped (client_DeleteDeployment (dep_ID dep) true)
                   else mret tt) deps.

Definition termination_task (name : string) : M W (task_result unit) :=
  attempt (client_Application name) (λ r,
    match r with
    | inl _ => mret (Retry (Errorf ("Application " +:+ name +:+ " is not yet deleted")))
    | inr err =>
        if Contains (Error err) "does not exist" then
          attempt client_Deployments (λ r,
            match r with
            | inr err => mret (Retry err)
            | inl deps => _ ← clear_deployments name deps; mret (Done tt)
            end)
        else mret (Retry err)
    end).

Definition WaitForApplicationTermination (name : string) : M (W * dcos) unit :=
  _ ← initMarathonClient;
  up (DoRetryWithTimeout (termination_task name) (5 * Minute) (10 * Second)).

(** ** Set-up *)

Definition parseMesosNode (n : AgentNode) : Node :=
  {| storageNode := None; uuid := ""; VolDriverNodeID := ""; Name := agent_ID n; Addresses := [agent_Hostname n];
     UsableAddr := ""; Type_ := TypeWorker; Zone := ""; Region := ""; TopologyZone := ""; TopologyRegion := "";
     IsStorageDriverInstalled := false; IsMetadataNode := false; StoragePools := []; PxPodRestartCount := 0 |}.

Definition IsNodeReady (n : Node) : M W unit := mret tt.

Definition add_node (n : Node) : M W unit := u ← node_uuid; K8sNodes.registry_write (Registry.AddNode u n).

(** An operation of the spec factory; a new factory has new objects. *)
Definition on_factory {A} (m : M (gmap string (AppSpec SpecObject)) A) : M (W * dcos) A := λ wl,
  let '(o, l) := m (apps wl.2) in (o, (wl.1, with_apps l wl.2)).

Definition Init (SpecDir VolDriverName : string) : M (W * dcos) unit :=
  privateAgents ← up GetPrivateAgentNodes;
  _ ← up (for_each (λ n, let newNode := parseMesosNode n in _ ← IsNodeReady newNode; add_node newNode) privateAgents);
  _ ← set (with_files ∅);
  _ ← on_factory (NewFactory SpecDir VolDriverName);
  _ ← up docker_NewEnvClient;
  _ ← set (with_dockerClient true);
  set (with_volDriverName VolDriverName).

(** ** Scheduling *)

Definition is_volume (p : DockerParameter) : bool := bool_decide (p_Key p = "volume").

Definition randomize_parameter (d : driver) (p : DockerParameter) : M W DockerParameter :=
  if is_volume p then v ← RandomizeVolumeName d (p_Value p); mret {| p_Key := p_Key p; p_Value := v |} else mret p.

Fixpoint randomize_parameters (d : driver) (l : list DockerParameter) : M W (list DockerParameter) :=
  match l with
  | [] => mret []
  | p :: l' => q ← randomize_parameter d p; l'' ← randomize_parameters d l'; mret (q :: l'')
  end.

(** The object [o] is the application [a]. *)
Definition randomizeVolumeNames (o : SpecObject) (a : Application) : M (W * dcos) Application :=
  s ← get_local;
  volDriver ← lift (volume_Get (volDriverName s));
  params ← lift (deref (DockerParameters a));
  params' ← up (randomize_parameters volDriver params);
  let a' := {| app_ID := app_ID a; DockerParameters := Some params' |} in
  s ← get_local;
  _ ← put_local (write_object o a' s);
  mret a'.

Definition schedule_spec (app : AppSpec SpecObject) (o : SpecObject) : M (W * dcos) SpecObject :=
  s ← get_local;
  match object s o with
  | Some a =>
      let failed err := AppErr AppErrFailedToScheduleApp (Key app) (Error err) in
      a' ← wrap_err failed (randomizeVolumeNames o a);
      wrap_err failed (CreateApplication a')
  | None => throw (Errorf ("Unsupported object received in app " +:+ Key app +:+ " while scheduling"))
  end.

Fixpoint schedule_specs (app : AppSpec SpecObject) (l : list SpecObject) : M (W * dcos) (list SpecObject) :=
  match l with
  | [] => mret []
  | o :: l' => obj ← schedule_spec app o; rest ← schedule_specs app l'; mret (obj :: rest)
  end.

Definition schedule_app (instanceID : string) (app : AppSpec SpecObject) : M (W * dcos) Context :=
  specObjects ← schedule_specs app (SpecList app);
  mret {| UID := instanceID; App := {| Key := Key app; SpecList := specObjects; Enabled := Enabled app;
                                       IsCSI := false; NameSpace := "" |} |}.

Fixpoint ScheduleWithCustomAppSpecs (l : list (AppSpec SpecObject)) (instanceID : string) : M (W * dcos) (list Context) :=
  match l with
  | [] => mret []
  | app :: l' => ctx ← schedule_app instanceID app; ctxs ← ScheduleWithCustomAppSpecs l' instanceID; mret (ctx :: ctxs)
  end.

Fixpoint get_apps (keys : list string) : M (W * dcos) (list (AppSpec SpecObject)) :=
  match keys with
  | [] => mret []
  | key :: keys' => app ← on_factory (SpecFactory.Get key); l ← get_apps keys'; mret (app :: l)
  end.

Definition Schedule (instanceID : string) (AppKeys : list string) : M (W * dcos) (list Context) :=
  l ← (match AppKeys with [] => on_factory GetAll | _ => get_apps AppKeys end);
  ScheduleWithCustomAppSpecs l instanceID.

(** The context is assigned at the end, after all tasks were created. *)
Definition AddTasks (ctx : option Context) (AppKeys : list string) : M (W * dcos) Context :=
  match ctx with
  | None => throw (Errorf "Context to add tasks to cannot be nil")
  | Some ctx =>
      match AppKeys with
      | [] => throw (Errorf "Need to specify list of applications to add to context")
      | _ =>
          l ← get_apps AppKeys;
          ctxs ← ScheduleWithCustomAppSpecs l (UID ctx);
          mret {| UID := UID ctx;
                  App := {| Key := Key (App ctx);
                            SpecList := SpecList (App ctx) ++ concat ((λ c, SpecList (App c)) <$> ctxs);
                            Enabled := Enabled (App ctx); IsCSI := IsCSI (App ctx); NameSpace := NameSpace (App ctx) |} |}
      end
  end.

(** ** Running applications *)

(** A loop over the applications of a context; other objects are passed over. *)
Definition each_app (ctx : Context) (k : app_error) (what : string) (f : string → M (W * dcos) unit) : M (W * dcos) unit :=
  for_each (λ o, s ← get_local;
                 match object s o with
                 | Some a => wrap_err (λ err, AppErr k (Key (App ctx)) (what +:+ app_ID a +:+ ". Err: " +:+ Error err)) (f (app_ID a))
                 | None => mret tt
                 end) (SpecList (App ctx)).

Definition WaitForRunning (ctx : Context) : M (W * dcos) unit :=
  each_app ctx AppErrFailedToValidateApp "Failed to validate Application: " WaitForApplicationStart.

Definition WaitForDestroy (ctx : Context) (timeout : Z) : M (W * dcos) unit :=
  each_app ctx AppErrFailedToValidateAppDestroy "Failed to destroy Application: " WaitForApplicationTermination.

Definition Destroy (ctx : Context) (opts : gmap string bool) : M (W * dcos) unit :=
  _ ← each_app ctx AppErrFailedToDestroyApp "Failed to destroy Application: " DeleteApplication;
  if option_on opts OptionsWaitForResourceLeakCleanup then WaitForDestroy ctx defaultTimeout
  else if option_on opts OptionsWaitForDestroy then WaitForDestroy ctx defaultTimeout
  else mret tt.

Definition DeleteTasks (ctx : Context) : M (W * dcos) unit :=
  for_each (λ o, s ← get_local;
                 match object s o with
                 | Some a => wrap_err (λ err, AppErr AppErrFailedToDeleteTasks (Key (App ctx))
                                         ("failed to delete tasks for application: " +:+ app_ID a +:+ ". " +:+ Error err))
                               (KillApplicationTasks (app_ID a))
                 | None => mret tt
                 end) (SpecList (App ctx)).

Fixpoint app_tasks (ctx : Context) (l : list SpecObject) : M (W * dcos) (list marathon_Task) :=
  match l with
  | [] => mret []
  | o :: l' =>
      s ← get_local;
      tasks ← (match object s o with
               | Some a => wrap_err (λ err, AppErr AppErrFailedToGetNodesForApp (Key (App ctx))
                                       ("Failed to get tasks for application " +:+ app_ID a +:+ ". " +:+ Error err))
                             (GetApplicationTasks (app_ID a))
               | None => mret []
               end);
      rest ← app_tasks ctx l'; mret (tasks ++ rest)
  end.

Fixpoint nodes_of_tasks (ctx : Context) (nodeMap : gmap string Node) (tasks : list marathon_Task) (result : list Node) :
    outcome (list Node) :=
  match tasks with
  | [] => Ok result
  | t :: tasks' =>
      match nodeMap !! SlaveID t with
      | None => Err (AppErr AppErrFailedToGetNodesForApp (Key (App ctx)) ("node [" +:+ SlaveID t +:+ "] not present in node map"))
      | Some n => nodes_of_tasks ctx nodeMap tasks' (if Registry.Contains result n then result else result ++ [n])
      end
  end.

Definition GetNodesForApp (ctx : Context) : M (W * dcos) (list Node) :=
  tasks ← app_tasks ctx (SpecList (App ctx));
  l ← up range_nodes;
  lift (nodes_of_tasks ctx (Registry.index_by Name l) tasks []).

(** ** Volumes *)

Fixpoint volumes_of_params {A} (ctx : Context) (d : driver) (f : A → string → gmap string string → M (W * dcos) A)
    (params : list DockerParameter) (acc : A) : M (W * dcos) A :=
  match params with
  | [] => mret acc
  | p :: params' =>
      acc' ← (if is_volume p then
                '(volName, volParams) ← wrap_err (λ err, AppErr AppErrFailedToGetVolumeParameters (Key (App ctx))
                     ("Failed to extract volume info: " +:+ p_Value p +:+ ". Err: " +:+ Error err)) (lift (ExtractVolumeInfo d (p_Value p)));
                f acc volName volParams
              else mret acc);
      volumes_of_params ctx d f params' acc'
  end.

Fixpoint volumes_of_specs {A} (ctx : Context) (d : driver) (f : A → string → gmap string string → M (W * dcos) A)
    (l : list SpecObject) (acc : A) : M (W * dcos) A :=
  match l with
  | [] => mret acc
  | o :: l' =>
      s ← get_local;
      acc' ← (match object s o with
              | Some a => params ← lift (deref (DockerParameters a)); volumes_of_params ctx d f params acc
              | None => mret acc
              end);
      volumes_of_specs ctx d f l' acc'
  end.

(** The function acts on a variable of its caller, [acc]. *)
Definition volumeOperation {A} (ctx : Context) (f : A → string → gmap string string → M (W * dcos) A) (acc : A) : M (W * dcos) A :=
  s ← get_local;
  volDriver ← lift (volume_Get (volDriverName s));
  volumes_of_specs ctx volDriver f (SpecList (App ctx)) acc.

Definition GetVolumeParameters (ctx : Context) : M (W * dcos) (gmap string (gmap string string)) :=
  volumeOperation ctx (λ result volName volParams, mret (<[volName := volParams]> result)) ∅.

(** A call of docker that is retried with every error *)
Definition docker (m : M W unit) : M (W * dcos) unit :=
  d ← get_local;
  up (DoRetryWithTimeout (if dockerClient d then attempt m (λ r, mret (match r with inl _ => Done tt | inr err => Retry err end))
                          else panic nil_pointer) (2 * Minute) (10 * Second)).

Definition ValidateVolumes (ctx : Context) : M (W * dcos) unit :=
  volumeOperation ctx (λ _ volName _,
    wrap_err (λ err, AppErr AppErrFailedToValidateStorage (Key (App ctx))
                ("Failed to inspect docker volume: " +:+ volName +:+ ". Err: " +:+ Error err)) (docker (VolumeInspect volName))) tt.

Definition DeleteVolumes (ctx : Context) : M (W * dcos) (list string) :=
  volumeOperation ctx (λ vols volName _,
    _ ← wrap_err (λ err, AppErr AppErrFailedToDestroyStorage (Key (App ctx))
                ("Failed to remove docker volume: " +:+ volName +:+ ". Err: " +:+ Error err)) (docker (VolumeRemove volName false));
    mret (vols ++ [volName])) [].
End dcos.
End Dcos.
