(* ===== verification/SchedDcosProps.v ===== *)
(** Scheduling on DC/OS: the names volumes get, what the contexts of Schedule hold and what
    it leaves in the factory, and what a successful destruction has seen. *)

From Stdlib Require Import Ascii.
From S2P Require Import Prelude GoStrings Errors Effects Strconv GoJson Task OpenStorageApi NodeRegistry SpecFactory PxDriver VolumeDrivers PureDevices K8sNodes K8sDestroy SchedCloud SchedDcos.

Import Dcos.

(** ** Randomised names *)

Fixpoint all_chars (f : ascii → bool) (s : string) : bool :=
  match s with EmptyString => true | String c s' => f c && all_chars f s' end.

(** A text without [name=] is left as it is. *)
Lemma randomize_none suffix s : Contains s "name=" = false → randomize suffix Scan s = s.
Proof.
  induction s as [|c s IH]; [done|]. cbn [Contains]. intros [Hp Hc]%orb_false_iff.
  cbn [randomize]. unfold starts_match. rewrite Hp. simpl. by rewrite IH.
Qed.

Lemma randomize_in_name suffix name c rest :
  all_chars name_char name = true → name_char c = false →
  randomize suffix InName (name +:+ String c rest) = name +:+ suffix +:+ String c (randomize suffix Scan rest).
Proof.
  intros Hn Hc. induction name as [|d name IH]; simpl in *; [by rewrite Hc|].
  apply andb_prop in Hn as [-> Hn]. by rewrite IH.
Qed.

(** The name gets the suffix, and the options behind it stay. *)
Theorem px_RandomizeVolumeName_spec uuid name rest :
  name ≠ "" → all_chars name_char name = true → Contains rest "name=" = false →
  px_RandomizeVolumeName uuid ("name=" +:+ name +:+ "," +:+ rest) = "name=" +:+ name +:+ "_" +:+ uuid +:+ "," +:+ rest.
Proof.
  intros Hne Hn Hr. unfold px_RandomizeVolumeName.
  assert (starts_match ("name=" +:+ name +:+ "," +:+ rest) = true) as Hs.
  { unfold starts_match. rewrite HasPrefix_app. destruct name as [|c name]; [done|]. simpl in *. by apply andb_prop in Hn as [-> _]. }
  change ("name=" +:+ name +:+ "," +:+ rest) with
    (String "n" (String "a" (String "m" (String "e" (String "=" (name +:+ String "," rest)))))) in *.
  cbn [randomize]. rewrite Hs. cbn [randomize]. rewrite randomize_in_name by done. rewrite randomize_none by done.
  by rewrite app_assoc_s.
Qed.

Section dcos.
Context {W : Type} `{PxWorld W} `{Shell W} `{DcosFiles} `{DcosApi W}.

(** ** Scheduling *)

(** The parameters with the volumes renamed *)
Definition renamed (d : driver (W := W)) (p q : DockerParameter) : Prop :=
  p_Key q = p_Key p ∧
  if is_volume p then ∃ w w', RandomizeVolumeName d (p_Value p) w = (Ok (p_Value q), w') else p_Value q = p_Value p.

Lemma randomize_parameters_Ok d l (w : W) l' w' : randomize_parameters d l w = (Ok l', w') → Forall2 (renamed d) l l'.
Proof.
  revert w l' w'. induction l as [|p l IH]; intros w l' w' Hr; simpl in Hr; [by unfold_m; simplify_eq|].
  apply bind_Ok_inv in Hr as (q & w1 & Hp & Hr). apply bind_Ok_inv in Hr as (l1 & w2 & Hl & Hr). unfold_m. simplify_eq.
  constructor; [|by eapply IH]. unfold randomize_parameter in Hp. unfold renamed. destruct (is_volume p) eqn:Hv.
  - apply bind_Ok_inv in Hp as (v & w3 & Hp & Hq). unfold_m. simplify_eq. split; [done|]. eauto.
  - by unfold_m; simplify_eq.
Qed.

(** An application whose volumes got names of the driver of the scheduler *)
Definition randomized (s : dcos) (a a' : Application) : Prop := ∃ (d : driver (W := W)) params params',
  volume_Get (volDriverName s) = Ok d ∧ DockerParameters a = Some params ∧ Forall2 (renamed d) params params' ∧
  a' = {| app_ID := app_ID a; DockerParameters := Some params' |}.

Lemma randomizeVolumeNames_Ok o a (w : W) s a' w' s' :
  randomizeVolumeNames o a (w, s) = (Ok a', (w', s')) → randomized s a a' ∧ s' = write_object o a' s.
Proof.
  unfold randomizeVolumeNames. rewrite bind_get_local. intros (d & wl1 & [Hd ->]%lift_Ok_inv & Hr)%bind_Ok_inv.
  apply bind_Ok_inv in Hr as (params & wl2 & [Hp ->]%lift_Ok_inv & Hr).
  apply bind_Ok_inv in Hr as (params' & [w3 s3] & [Hl ->]%up_Ok_inv & Hr). cbv zeta in Hr.
  rewrite bind_get_local, bind_put_local in Hr. unfold_m. simplify_eq. split; [|done].
  destruct (DockerParameters a) as [l|] eqn:Ha; simplify_eq/=. exists d, params, params'. by apply randomize_parameters_Ok in Hl.
Qed.

Lemma marathon_Ok {A} (m : M W A) w s x wl' :
  marathon m (w, s) = (Ok x, wl') →
  ∃ w1 w2 s', m w1 = (Ok x, w2) ∧ wl' = (w2, s') ∧ (s' = s ∨ s' = with_marathonClient true s).
Proof.
  unfold marathon. intros ([] & [w1 s1] & Hi & Hm)%bind_Ok_inv. destruct wl' as [w2 s2]. apply up_Ok_inv in Hm as [Hm ->].
  exists w1, w2, s1. split_and!; [done..|]. unfold initMarathonClient in Hi. rewrite bind_get_local in Hi.
  destruct (marathonClient s); [unfold_m; simplify_eq; by left|right].
  apply bind_Ok_inv in Hi as ([] & [w3 s3] & [_ ->]%up_Ok_inv & Hs). unfold set in Hs. rewrite bind_get_local in Hs.
  unfold put_local in Hs. by simplify_eq.
Qed.

Lemma schedule_spec_Ok app path (w : W) s obj w' s' :
  schedule_spec app (FileObj path) (w, s) = (Ok obj, (w', s')) →
  ∃ a a' b w1 w2, object s (FileObj path) = Some a ∧ randomized s a a' ∧ client_CreateApplication a' w1 = (Ok b, w2) ∧
    obj = MadeObj (length (made s)) ∧ made s' = made s ++ [b] ∧ files s' = <[path := a']> (files s) ∧
    apps s' = apps s ∧ volDriverName s' = volDriverName s.
Proof.
  unfold schedule_spec. rewrite bind_get_local. destruct (object s (FileObj path)) as [a|] eqn:Ho; [|done]. cbv zeta.
  intros (a' & [w1 s1] & Hr%wrap_err_Ok_inv & Hc%wrap_err_Ok_inv)%bind_Ok_inv.
  apply randomizeVolumeNames_Ok in Hr as [Hr ->]. unfold CreateApplication in Hc.
  apply bind_Ok_inv in Hc as (b & wl2 & Hm & Hc). apply marathon_Ok in Hm as (w3 & w4 & s3 & Hm & -> & Hs3).
  rewrite bind_get_local, bind_put_local in Hc. unfold_m. simplify_eq. exists a, a', b, w3, w'. destruct s.
  by destruct Hs3 as [->| ->].
Qed.

(** Scheduling an application writes the new volume names into the object that the
    factory hands out: the next scheduling starts from them. *)
Theorem Dcos_schedule_shared app path (w : W) s a obj w' s' :
  schedule_spec app (FileObj path) (w, s) = (Ok obj, (w', s')) → object s (FileObj path) = Some a →
  ∃ a' b w1 w2, randomized s a a' ∧ object s' (FileObj path) = Some a' ∧
    client_CreateApplication a' w1 = (Ok b, w2) ∧ object s' obj = Some b.
Proof.
  intros (a0 & a' & b & w1 & w2 & Ho & Hr & Hc & -> & Hm & Hf & _)%schedule_spec_Ok Ha. rewrite Ha in Ho. simplify_eq.
  exists a', b, w1, w2. split_and!; [done| |done|].
  - simpl. by rewrite Hf, lookup_insert_eq.
  - simpl. rewrite Hm, lookup_app_r by done. by rewrite Nat.sub_diag.
Qed.

(** *** Contexts *)

(** The files keep their ids, and created applications stay. *)
Record later (s s' : dcos) : Prop := {
  later_ids : ∀ path, app_ID <$> object s' (FileObj path) = app_ID <$> object s (FileObj path);
  later_made : made s `prefix_of` made s';
  later_apps : apps s' = apps s;
}.

#[export] Instance later_refl : Reflexive later.
Proof. by constructor. Qed.

#[export] Instance later_trans : Transitive later.
Proof. intros s1 s2 s3 [Hi1 Hm1 Ha1] [Hi2 Hm2 Ha2]. constructor; [intros; by rewrite Hi2|by trans (made s2)|by rewrite Ha2]. Qed.

Lemma schedule_spec_later app path (w : W) s obj w' s' :
  schedule_spec app (FileObj path) (w, s) = (Ok obj, (w', s')) → later s s'.
Proof.
  intros (a & a' & b & w1 & w2 & Ho & (d & params & params' & _ & _ & _ & ->) & Hc & -> & Hm & Hf & Ha & _)%schedule_spec_Ok.
  constructor; [|rewrite Hm; by apply prefix_app_r|done]. intros p. destruct (decide (p = path)) as [->|Hne].
  - rewrite Ho. simpl. by rewrite Hf, lookup_insert_eq.
  - simpl. by rewrite Hf, lookup_insert_ne.
Qed.

(** [obj] is what Marathon made of the application of the file [o]. *)
Definition created (s s' : dcos) (o obj : SpecObject) : Prop := ∃ path a a' b (w1 w2 : W),
  o = FileObj path ∧ object s o = Some a ∧ app_ID a' = app_ID a ∧ client_CreateApplication a' w1 = (Ok b, w2) ∧
  object s' obj = Some b.

Lemma created_later s1 s2 s3 s4 o obj :
  later s1 s2 → (∃ i, obj = MadeObj i) → created s2 s3 o obj → later s3 s4 → created s1 s4 o obj.
Proof.
  intros [Hids _ _] [i ->] (path & a & a' & b & w1 & w2 & -> & Ho & Hid & Hc & Hb) [_ Hm _].
  specialize (Hids path). rewrite Ho in Hids. symmetry in Hids. apply fmap_Some in Hids as (a1 & Ho1 & Ha1).
  exists path, a1, a', b, w1, w2. split_and!; [done..|by rewrite Hid|done|]. simpl in *. by eapply prefix_lookup_Some.
Qed.

Definition file_specs (l : list SpecObject) : Prop := Forall (λ o, ∃ path, o = FileObj path) l.

Lemma schedule_specs_Ok app l (w : W) s objs w' s' :
  file_specs l → schedule_specs app l (w, s) = (Ok objs, (w', s')) →
  later s s' ∧ Forall2 (λ o obj, (∃ i, obj = MadeObj i) ∧ created s s' o obj) l objs.
Proof.
  intros Hl. revert w s objs. induction Hl as [|o l [path ->] Hl IH]; intros w s objs Hs; simpl in Hs; [by unfold_m; simplify_eq|].
  apply bind_Ok_inv in Hs as (obj & [w1 s1] & Ho & Hs). apply bind_Ok_inv in Hs as (objs' & [w2 s2] & Hr & Hs).
  unfold_m. simplify_eq. pose proof (schedule_spec_later _ _ _ _ _ _ _ Ho) as Hl1.
  destruct (IH _ _ _ Hr) as [Hl2 Hall]. split; [by trans s1|]. constructor.
  - apply schedule_spec_Ok in Ho as (a & a' & b & w3 & w4 & Hob & (d & params & params' & _ & _ & _ & ->) & Hc & -> & Hm & _).
    split; [by eexists|]. apply (created_later s s s1 s'); [done|by eexists| |done].
    exists path, a, {| app_ID := app_ID a; DockerParameters := Some params' |}, b, w3, w4. split_and!; [done..|]. simpl. rewrite Hm, lookup_app_r by done. by rewrite Nat.sub_diag.
  - eapply Forall2_impl; [exact Hall|]. intros o obj' [Hi Hcr]. split; [done|]. by eapply created_later.
Qed.

(** What a context of the application [app] of the factory holds *)
Definition context_of (instanceID : string) (s s' : dcos) (app : AppSpec SpecObject) (ctx : Context) : Prop :=
  UID ctx = instanceID ∧ Key (App ctx) = Key app ∧ Enabled (App ctx) = Enabled app ∧
  Forall2 (λ o obj, (∃ i, obj = MadeObj i) ∧ created s s' o obj) (SpecList app) (SpecList (App ctx)).

Lemma custom_specs_Ok l instanceID (w : W) s ctxs w' s' :
  Forall (λ app, file_specs (SpecList app)) l →
  ScheduleWithCustomAppSpecs l instanceID (w, s) = (Ok ctxs, (w', s')) →
  later s s' ∧ Forall2 (context_of instanceID s s') l ctxs.
Proof.
  intros Hl. revert w s ctxs. induction Hl as [|app l Ha Hl IH]; intros w s ctxs Hs; simpl in Hs; [by unfold_m; simplify_eq|].
  apply bind_Ok_inv in Hs as (ctx & [w1 s1] & Hc & Hs). apply bind_Ok_inv in Hs as (ctxs' & [w2 s2] & Hr & Hs).
  unfold_m. simplify_eq. destruct (IH _ _ _ Hr) as [Hl2 Hall]. unfold schedule_app in Hc.
  apply bind_Ok_inv in Hc as (objs & [w3 s3] & Ho & Hc). unfold_m. simplify_eq.
  destruct (schedule_specs_Ok _ _ _ _ _ _ _ Ha Ho) as [Hl1 Hspecs]. split; [by trans s1|].
  assert (∀ s2 s3 o obj, later s s2 → later s3 s' → (∃ i, obj = MadeObj i) ∧ created s2 s3 o obj →
    (∃ i, obj = MadeObj i) ∧ created s s' o obj) as Hmove by (intros ? ? ? ? ? ? [? ?]; split; [done|by eapply created_later]).
  constructor.
  - split_and!; [done..|]. simpl. eapply Forall2_impl; [exact Hspecs|]. intros o obj. by apply Hmove.
  - eapply Forall2_impl; [exact Hall|]. intros app' ctx' (? & ? & ? & Hf). split_and!; [done..|].
    eapply Forall2_impl; [exact Hf|]. intros o obj. by apply Hmove.
Qed.

(** The factory holds applications of files only, as [ParseSpecs] makes them. *)
Definition files_only (s : dcos) : Prop := ∀ key app, apps s !! key = Some app → file_specs (SpecList app).

Lemma dcos_get_apps_Ok keys (w : W) s l w' s' :
  get_apps keys (w, s) = (Ok l, (w', s')) →
  s' = s ∧ Forall2 (λ key app, ∃ d, apps s !! key = Some d ∧ Enabled d = true ∧ app = DeepCopy d) keys l.
Proof.
  revert w s l. induction keys as [|key keys IH]; intros w s l Hg; simpl in Hg; [by unfold_m; simplify_eq|].
  apply bind_Ok_inv in Hg as (app & [w1 s1] & Ha & Hg). apply bind_Ok_inv in Hg as (l1 & [w2 s2] & Hr & Hg). unfold_m. simplify_eq.
  unfold on_factory, SpecFactory.Get in Ha. simpl in Ha. destruct (apps s !! key) as [d|] eqn:Hd; [|done].
  destruct (Enabled d) eqn:He; simplify_eq. assert (with_apps (apps s) s = s) as Hs by by destruct s.
  rewrite Hs in Hr. destruct (IH _ _ _ Hr) as [-> Hall]. split; [done|]. constructor; [by exists d|done].
Qed.

(** C30. Schedule of some applications makes a context for each, in order, with one object for
    each file of it: the application that Marathon made of it, under the id of the
    file. *)
Theorem Dcos_Schedule_contexts instanceID keys (w : W) s ctxs w' s' :
  files_only s → keys ≠ [] → Schedule instanceID keys (w, s) = (Ok ctxs, (w', s')) →
  Forall2 (λ key ctx, ∃ d, apps s !! key = Some d ∧ Enabled d = true ∧ context_of instanceID s s' d ctx) keys ctxs.
Proof.
  intros Hf Hne Hs. unfold Schedule in Hs. destruct keys as [|key keys]; [done|].
  apply bind_Ok_inv in Hs as (l & [w1 s1] & Hg & Hs). apply dcos_get_apps_Ok in Hg as [-> Hl].
  assert (Forall (λ app, file_specs (SpecList app)) l) as Hfl.
  { apply Forall_forall. intros app (i & Hi)%list_elem_of_lookup. destruct (Forall2_lookup_r _ _ _ _ _ Hl Hi) as (k & _ & d & Hd & _ & ->).
    by apply (Hf k d). }
  destruct (custom_specs_Ok _ _ _ _ _ _ _ Hfl Hs) as [_ Hc]. clear Hs Hfl Hne. revert Hc. generalize ctxs. clear ctxs.
  induction Hl as [|k app ks l (d & Hd & He & ->) Hl IH]; intros ctxs Hc; inversion_clear Hc; constructor; [by exists d|by apply IH].
Qed.

(** What the factory registers at [Init] are files only. *)
Lemma ParseSpecs_files dir prov l : ParseSpecs dir prov = Ok l → file_specs l.
Proof.
  unfold ParseSpecs. destruct (walk_files _) as [fs|e|m|]; [|done..]. simpl. revert l.
  induction fs as [|f fs IH]; intros l Hp; simpl in Hp; [by simplify_eq; constructor|].
  destruct (parsed f); [|done..]. simpl in Hp. destruct (parse_all fs) as [specs|e|m|] eqn:E; simpl in Hp; simplify_eq.
  constructor; [by eexists|by apply IH].
Qed.

(** ** Destroying *)

Definition same_objects (s : dcos) : W * dcos → Prop := λ wl, files wl.2 = files s ∧ made wl.2 = made s.

Lemma same_object s wl o : same_objects s wl → object wl.2 o = object s o.
Proof. intros [Hf Hm]. unfold object. by rewrite Hf, Hm. Qed.

Lemma init_keeps s : preserves (same_objects s) initMarathonClient.
Proof.
  intros [w d] Hd. unfold initMarathonClient. rewrite bind_get_local. destruct (marathonClient d); [done|].
  unfold mbind, M_bind. rewrite up_eq. destruct (marathon_NewClient _ w) as [[[]|e|m|] w1]; [|done..]. simpl. by destruct d.
Qed.

Lemma up_keeps {A} s (m : M W A) : preserves (same_objects s) (up m).
Proof. intros [w d] Hd. by rewrite up_eq. Qed.

Lemma marathon_keeps {A} s (m : M W A) : preserves (same_objects s) (marathon m).
Proof. unfold marathon. apply preserves_bind; [apply init_keeps|intros []; apply up_keeps]. Qed.

Lemma termination_keeps s name : preserves (same_objects s) (WaitForApplicationTermination name).
Proof. unfold WaitForApplicationTermination. apply preserves_bind; [apply init_keeps|intros []; apply up_keeps]. Qed.

Lemma each_app_keeps s ctx k what f : (∀ id, preserves (same_objects s) (f id)) → preserves (same_objects s) (each_app ctx k what f).
Proof.
  intros Hf. unfold each_app. apply preserves_for_each. intros o [w d] Hd. rewrite bind_get_local.
  destruct (object d o) as [a|]; [|done]. by apply preserves_wrap_err.
Qed.

(** A loop over the applications that succeeded did its work for each. *)
Lemma each_app_Ok s ctx k what f wl wl' o a :
  (∀ id, preserves (same_objects s) (f id)) → same_objects s wl → each_app ctx k what f wl = (Ok tt, wl') →
  o ∈ SpecList (App ctx) → object s o = Some a → ∃ wl1 wl2, f (app_ID a) wl1 = (Ok tt, wl2) ∧ same_objects s wl1.
Proof.
  intros Hf. unfold each_app. revert wl. induction (SpecList (App ctx)) as [|o' l IH]; intros wl Hwl Hr Ho Ha;
    [by apply not_elem_of_nil in Ho|]. simpl in Hr. apply bind_Ok_inv in Hr as ([] & wl1 & Hb & Hr).
  destruct wl as [w d]. rewrite bind_get_local in Hb. pose proof (same_object s (w, d) o' Hwl) as Hso. simpl in Hso. rewrite Hso in Hb.
  apply elem_of_cons in Ho as [<-|Ho].
  - rewrite Ha in Hb. apply wrap_err_Ok_inv in Hb. eauto.
  - apply (IH wl1); [|done..]. destruct (object s o') as [a'|]; [|by unfold_m; simplify_eq].
    apply wrap_err_Ok_inv in Hb. specialize (Hf (app_ID a') (w, d) Hwl). by rewrite Hb in Hf.
Qed.

Lemma WaitForApplicationTermination_Ok name wl wl' :
  WaitForApplicationTermination name wl = (Ok tt, wl') →
  ∃ (w1 w2 : W) e, client_Application name w1 = (Err e, w2) ∧ Contains (Error e) "does not exist" = true.
Proof.
  unfold WaitForApplicationTermination. intros ([] & [w1 s1] & _ & Hr)%bind_Ok_inv. destruct wl' as [w2 s2].
  apply up_Ok_inv in Hr as [Hr _]. apply DoRetryWithTimeout_Ok_inv in Hr as (w3 & Ht). unfold termination_task, attempt in Ht.
  destruct (client_Application name w3) as [[[]|e|m|] w4] eqn:Ha; [by unfold_m| |done..].
  exists w3, w4, e. split; [done|]. destruct (Contains (Error e) _); [done|by unfold_m].
Qed.

(** After Destroy with the option to wait, Marathon was asked to delete every application
    of the context, and was seen not to know any of them. *)
Theorem Dcos_Destroy_success ctx opts (w : W) s wl' o a :
  option_on opts OptionsWaitForDestroy = true → Destroy ctx opts (w, s) = (Ok tt, wl') →
  o ∈ SpecList (App ctx) → object s o = Some a →
  (∃ w1 w2 : W, client_DeleteApplication (app_ID a) false w1 = (Ok tt, w2)) ∧
  ∃ (w1 w2 : W) e, client_Application (app_ID a) w1 = (Err e, w2) ∧ Contains (Error e) "does not exist" = true.
Proof.
  intros Hopt Hd Ho Ha. unfold Destroy in Hd. apply bind_Ok_inv in Hd as ([] & wl1 & Hdel & Hw).
  assert (same_objects s (w, s)) as Hs by done.
  assert (∀ id, preserves (same_objects s) (DeleteApplication id)) as Hk by (intros id; apply marathon_keeps).
  split.
  - destruct (each_app_Ok s _ _ _ _ _ _ o a Hk Hs Hdel Ho Ha) as ([w1 s1] & wl2 & Hf & _).
    apply marathon_Ok in Hf as (w2 & w3 & s2 & Hf & _). eauto.
  - assert (same_objects s wl1) as Hs1.
    { pose proof (each_app_keeps s ctx AppErrFailedToDestroyApp "Failed to destroy Application: " _ Hk (w, s) Hs) as Hp. by rewrite Hdel in Hp. }
    assert (WaitForDestroy ctx defaultTimeout wl1 = (Ok tt, wl')) as Hwait by (rewrite Hopt in Hw; destruct (option_on opts OptionsWaitForResourceLeakCleanup); exact Hw).
    unfold WaitForDestroy in Hwait.
    destruct (each_app_Ok s _ _ _ _ _ _ o a (termination_keeps s) Hs1 Hwait Ho Ha) as (wl2 & wl3 & Hf & _).
    by apply WaitForApplicationTermination_Ok in Hf.
Qed.

(** ** Answers *)

(** The methods that are not supported whose error names another operation *)
Definition misnamed (l : list (string * answer)) : list string :=
  omap (λ '(m, a), match a with Unsupported op => if decide (op = m +:+ "()") then None else Some m | Nothing => None end) l.
End dcos.

Lemma dcos_misnamed : misnamed dcos_methods =
  ["GetSnapShotData"; "GetSnapshotsInNameSpace"; "SelectiveWaitForTermination"; "IsAutopilotEnabled"; "GetSecretData";
   "CreateCsiSnapshot"; "GetPodsRestartCount"].
Proof. vm_compute. reflexivity. Qed.
