(* ===== verification/Ipv6util.v ===== *)
(** pkg/ipv6util/ipv6util.go: collecting the addresses in the output of pxctl
    commands, with the parts of bufio, net and regexp it uses. *)

From Stdlib Require Import Ascii.
From S2P Require Import Prelude GoStrings Errors Effects PxNodeOps.

Definition PxctlStatus : string := "status".
Definition PxctlClusterList : string := "cluster list".
Definition PxctlClusterInspect : string := "cluster inspect".
Definition PxctlServiceKvdbEndpoints : string := "service kvdb endpoints".
Definition PxctlServiceKvdbMembers : string := "service kvdb members".
Definition PxctlVolumeList : string := "volume list".
Definition PxctlVolumeInspect : string := "volume inspect".
Definition Ipv6VolumeName : string := "ipv6-volume".

Definition tab_char : ascii := ascii_of_nat 9.
Definition return_char : ascii := ascii_of_nat 13.

(** ** bufio.Scanner over lines

    A line end is a newline with an optional carriage return before it, an
    empty last line is not delivered, and a line that does not fit into the
    buffer of 64 KiB ends the scan. *)

Definition MaxScanTokenSize : nat := Z.to_nat 65536.

Fixpoint drop_return (s : string) : string :=
  match s with
  | EmptyString => EmptyString
  | String c EmptyString => if Ascii.eqb c return_char then EmptyString else s
  | String c s' => String c (drop_return s')
  end.

Fixpoint scanned (ls : list string) : list string :=
  match ls with
  | [] => []
  | [""] => []
  | l :: ls' => if Nat.ltb (String.length l) MaxScanTokenSize then drop_return l :: scanned ls' else []
  end.

Definition scan_lines (s : string) : list string := scanned (Split s newline).

(** ** The parser *)

Record parserOption := { prefix : string; opt_index : Z; count : Z }.

(** [strings.Fields(line)[index]] *)
Definition field_at (line : string) (i : Z) : outcome string := index (Fields line) i.

(** The inner loop: at most [n] more lines of the scanner *)
Fixpoint take_fields (n : nat) (i : Z) (rest : list string) (ips : list string)
    : outcome (list string * list string) :=
  match n, rest with
  | O, _ => Ok (ips, rest)
  | S _, [] => Ok (ips, [])
  | S n', line :: rest' => a ← field_at line i; take_fields n' i rest' (ips ++ [a])
  end.

(** [parseLine]: every option is compared with the line itself; the lines that
    follow a matching prefix are taken from the scanner. *)
Fixpoint parseLine (options : list parserOption) (line : string) (rest : list string) (ips : list string)
    : outcome (list string * list string) :=
  match options with
  | [] => Ok (ips, rest)
  | o :: options' =>
      if HasPrefix line (prefix o) then
        ips1 ← (if decide (count o = 0) then a ← field_at line (opt_index o); Ok (ips ++ [a]) else Ok ips);
        '(ips2, rest') ← take_fields (Z.to_nat (count o)) (opt_index o) rest ips1;
        parseLine options' line rest' ips2
      else parseLine options' line rest ips
  end.

(** The loop of [parse]; every round takes at least one line off. *)
Fixpoint parse_loop (fuel : nat) (options : list parserOption) (ls ips : list string) : outcome (list string) :=
  match fuel, ls with
  | _, [] => Ok ips
  | O, _ => Diverge
  | S fuel', l :: rest =>
      '(ips', rest') ← parseLine options (TrimLeft l (String " " (String tab_char ""))) rest ips;
      parse_loop fuel' options rest' ips'
  end.

Definition parse (options : list parserOption) (cmdOutput : string) : outcome (list string) :=
  let ls := scan_lines cmdOutput in parse_loop (length ls) options ls [].

Definition tabbed (s : string) : string := s +:+ String tab_char "".

Definition parseIPv6AddressInPxctlStatus (status : string) (nodeCount : Z) : outcome (list string) :=
  parse [ {| prefix := "IP:"; opt_index := 1; count := 0 |};
          {| prefix := tabbed "IP"; opt_index := 0; count := nodeCount |} ] status.

Definition parseIPv6AddressInPxctlClusterList (output : string) (nodeCount : Z) : outcome (list string) :=
  parse [ {| prefix := tabbed "ID"; opt_index := 2; count := nodeCount |} ] output.

Definition parseIPv6AddressInPxctlClusterInspect (output : string) (nodeCount : Z) : outcome (list string) :=
  parse [ {| prefix := "Mgmt IP"; opt_index := 3; count := 0 |};
          {| prefix := "Data IP"; opt_index := 3; count := 0 |} ] output.

(** The text after the first occurrence of [sub] *)
Fixpoint after (s sub : string) : option string :=
  if HasPrefix s sub then Some (TrimPrefix s sub)
  else match s with
       | EmptyString => None
       | String _ s' => after s' sub
       end.

(** The regular expression [ipv6-volume.*attached on.*] within a line *)
Definition attached_line (line : string) : bool :=
  match after line Ipv6VolumeName with
  | Some rest => Contains rest "attached on"
  | None => false
  end.

Fixpoint volume_lines (ls : list string) : outcome (list string) :=
  match ls with
  | [] => Ok []
  | l :: ls' =>
      let line := TrimPrefix l (String tab_char "") in
      if attached_line line then a ← field_at line 13; ips ← volume_lines ls'; Ok (a :: ips)
      else volume_lines ls'
  end.

Definition parseIPv6AddressInPxctlVolumeList (output : string) : outcome (list string) :=
  volume_lines (scan_lines output).

Definition parseIPv6AddressInPxctlVolumeInspect (output : string) : outcome (list string) :=
  ips ← parse [ {| prefix := "State"; opt_index := 4; count := 0 |};
                {| prefix := "Node"; opt_index := 2; count := 0 |} ] output;
  Ok (map (λ out, Trim out "()") ips).

(** ** net.SplitHostPort *)

(** The position of the first, and of the last, occurrence of a byte *)
Fixpoint index_byte (s : string) (c : ascii) : option nat :=
  match s with
  | EmptyString => None
  | String d s' => if Ascii.eqb d c then Some O else S <$> index_byte s' c
  end.

Fixpoint last_byte (s : string) (c : ascii) : option nat :=
  match s with
  | EmptyString => None
  | String d s' =>
      match last_byte s' c with
      | Some i => Some (S i)
      | None => if Ascii.eqb d c then Some O else None
      end
  end.

Definition slice (s : string) (i j : nat) : string := String.substring i (j - i) s.

Definition addrErr (addr why : string) : error :=
  Errorf (if decide (addr = "") then why else "address " +:+ addr +:+ ": " +:+ why).

Definition has_byte (s : string) (c : ascii) : bool :=
  match index_byte s c with Some _ => true | None => false end.

Definition SplitHostPort (hostport : string) : outcome (string * string) :=
  let n := String.length hostport in
  let err := λ why, Err (addrErr hostport why) in
  let finish := λ host j k i,
    if has_byte (slice hostport j n) "[" then err "unexpected '[' in address"
    else if has_byte (slice hostport k n) "]" then err "unexpected ']' in address"
    else Ok (host, slice hostport (S i) n) in
  match last_byte hostport ":" with
  | None => err "missing port in address"
  | Some i =>
      if HasPrefix hostport "[" then
        match index_byte hostport "]" with
        | None => err "missing ']' in address"
        | Some e =>
            if decide (S e = n) then err "missing port in address"
            else if decide (S e = i) then finish (slice hostport 1 e) 1%nat (S e) i
            else if decide (slice hostport (S e) (S (S e)) = ":") then err "too many colons in address"
            else err "missing port in address"
        end
      else
        let host := slice hostport 0 i in
        if has_byte host ":" then err "too many colons in address" else finish host O O i
  end.

(** ** Members and endpoints of the key-value store *)

(** The submatch of the regular expression for URLs in a text without line ends:
    what follows the leftmost occurrence of either scheme *)
Fixpoint url_rest (s : string) : option string :=
  if HasPrefix s "http://" then Some (TrimPrefix s "http://")
  else if HasPrefix s "https://" then Some (TrimPrefix s "https://")
  else match s with
       | EmptyString => None
       | String _ s' => url_rest s'
       end.

Fixpoint endpoint_ips (matches : list string) : outcome (list string) :=
  match matches with
  | [] => Ok []
  | m :: matches' =>
      match SplitHostPort (TrimSpace m) with
      | Ok (ip, _) => ips ← endpoint_ips matches'; Ok (ip :: ips)
      | Err e => Err (Errorf ("Endpoint parse error " +:+ Error e))
      | Panic s => Panic s
      | Diverge => Diverge
      end
  end.

(** A match takes the rest of its line. *)
Definition parseIPAddressInPxctlServiceKvdbEndpoints (kvdbEndpointsOutput : string) : outcome (list string) :=
  endpoint_ips (omap url_rest (Split kvdbEndpointsOutput newline)).

(** The guard asks for two columns, the third is read; a nil match is indexed. *)
Definition member_ip (line : string) : outcome (option string) :=
  if Contains line "http" then
    let cols := Fields (TrimSpace line) in
    if decide (2 <= Z.of_nat (length cols)) then
      col ← index cols 2;
      match url_rest (Trim col "[]") with
      | None => Panic "index out of range"
      | Some endPt =>
          match SplitHostPort (TrimSpace endPt) with
          | Ok (ip, _) => Ok (Some ip)
          | Err e => Err (Errorf ("Member parse error " +:+ Error e))
          | Panic s => Panic s
          | Diverge => Diverge
          end
      end
    else Ok None
  else Ok None.

Fixpoint member_ips (ls : list string) : outcome (list string) :=
  match ls with
  | [] => Ok []
  | l :: ls' =>
      a ← member_ip l; ips ← member_ips ls';
      Ok (match a with Some ip => ip :: ips | None => ips end)
  end.

Definition parseIPAddressInPxctlServiceKvdbMembers (kvdbMembersOutput : string) : outcome (list string) :=
  member_ips (Split kvdbMembersOutput newline).

(** ** The switch over commands *)

Definition ParseIPv6AddressInPxctlCommand (command output : string) (nodeCount : Z) : outcome (list string) :=
  if decide (command = PxctlStatus) then parseIPv6AddressInPxctlStatus output nodeCount
  else if decide (command = PxctlClusterList) then parseIPv6AddressInPxctlClusterList output nodeCount
  else if decide (command = PxctlClusterInspect) then parseIPv6AddressInPxctlClusterInspect output nodeCount
  else if decide (command = PxctlServiceKvdbEndpoints) then parseIPAddressInPxctlServiceKvdbEndpoints output
  else if decide (command = PxctlServiceKvdbMembers) then parseIPAddressInPxctlServiceKvdbMembers output
  else if decide (command = PxctlVolumeList) then parseIPv6AddressInPxctlVolumeList output
  else if decide (command = PxctlVolumeInspect) then parseIPv6AddressInPxctlVolumeInspect output
  else Ok [].

(** [govalidator.IsIPv6] is a parameter. *)
Definition AreAddressesIPv6 (IsAddressIPv6 : string → bool) (addrs : list string) : bool :=
  fold_left (λ isIpv6 addr, isIpv6 && IsAddressIPv6 addr) addrs true.

Example cluster_list :
  let line := λ fs : list string, Join fs (String tab_char "") in
  let out := Join [ "Cluster ID: px-cluster"; "Status: OK"; line ["ID"; "SCHEDULER_NODE_NAME"; "DATA IP"];
                    line ["id1"; "node03"; "fd00::1"; "0.1"]; line ["id2"; "node04"; "fd00::2"; "0.2"]; "" ]
               (String newline "") in
  ParseIPv6AddressInPxctlCommand PxctlClusterList out 2 = Ok ["fd00::1"; "fd00::2"].
Proof. vm_compute. reflexivity. Qed.

Example kvdb_members :
  parseIPAddressInPxctlServiceKvdbMembers
    (Join ["ID PEER CLIENT"; "m1 [http://px-1.internal:9018] [http://[fd00::1]:9019] true"] (String newline "")) =
    Ok ["fd00::1"].
Proof. vm_compute. reflexivity. Qed.

(** A member line of two columns passes the guard and panics. *)
Example members_two_columns :
  parseIPAddressInPxctlServiceKvdbMembers "m1 http://10.0.0.1:9018" = Panic "index out of range".
Proof. vm_compute. reflexivity. Qed.

(** ** Termination *)

Lemma take_fields_rest n i rest ips ips' rest' :
  take_fields n i rest ips = Ok (ips', rest') → (length rest' <= length rest)%nat.
Proof.
  revert rest ips. induction n as [|n IH]; intros rest ips Ht; destruct rest as [|l rest]; simpl in Ht;
    simplify_eq; try done.
  unfold mbind, outcome_bind in Ht. destruct (field_at l i); try done. apply IH in Ht. simpl. lia.
Qed.

Lemma parseLine_rest options line rest ips ips' rest' :
  parseLine options line rest ips = Ok (ips', rest') → (length rest' <= length rest)%nat.
Proof.
  revert rest ips. induction options as [|o options IH]; intros rest ips Hp; simpl in Hp; [by simplify_eq|].
  destruct (HasPrefix line (prefix o)); [|by eapply IH].
  unfold mbind, outcome_bind in Hp. case_match; try done.
  destruct (take_fields _ _ _ _) as [[ips2 rest2]| | |] eqn:Ht; try done.
  apply take_fields_rest in Ht. apply IH in Hp. lia.
Qed.

Lemma take_fields_ends n i rest ips : take_fields n i rest ips ≠ Diverge.
Proof.
  revert rest ips. induction n as [|n IH]; intros [|l rest] ips; simpl; try done.
  unfold mbind, outcome_bind, field_at, index. by repeat case_match.
Qed.

Lemma parseLine_ends options line rest ips : parseLine options line rest ips ≠ Diverge.
Proof.
  revert rest ips. induction options as [|o options IH]; intros rest ips; simpl; [done|].
  destruct (HasPrefix line (prefix o)); [|apply IH]. unfold mbind, outcome_bind.
  destruct (if decide (count o = 0) then _ else Ok ips) as [ips1| | |] eqn:Hf; try done.
  - destruct (take_fields _ _ _ _) as [[ips2 rest2]| | |] eqn:Ht; try done.
    by apply take_fields_ends in Ht.
  - case_decide; [|done]. unfold field_at, index in Hf. by repeat case_match.
Qed.

(** The parser ends on every output: each round of its loop takes a line, and
    the lines that are left become fewer. *)
Theorem parse_ends options cmdOutput : parse options cmdOutput ≠ Diverge.
Proof.
  unfold parse. generalize (@nil string) as ips. generalize (scan_lines cmdOutput) as ls. intros ls.
  assert (∀ fuel ls ips, (length ls <= fuel)%nat → parse_loop fuel options ls ips ≠ Diverge) as Hgen;
    [|intros ips; by apply Hgen].
  intros fuel. clear ls. induction fuel as [|fuel IH]; intros [|l ls] ips Hf; simpl in *; try done; [lia|].
  unfold mbind, outcome_bind. destruct (parseLine _ _ _ _) as [[ips' rest']| | |] eqn:Hp; try done.
  - apply parseLine_rest in Hp. apply IH. lia.
  - by apply parseLine_ends in Hp.
Qed.

(** ** Reading back *)

Definition line_ok (l : string) : Prop :=
  free_of newline l = true ∧ drop_return l = l ∧ (String.length l < MaxScanTokenSize)%nat.

(** Lines, each ended by a newline *)
Definition text (ls : list string) : string := Join (ls ++ [""]) (String newline "").

Lemma scanned_lines ls : Forall line_ok ls → scanned (ls ++ [""]) = ls.
Proof.
  induction 1 as [|l ls (_ & Hr & Hl) _ IH]; [done|]. rewrite <- app_comm_cons.
  assert (scanned (l :: ls ++ [""]) = drop_return l :: scanned (ls ++ [""])) as ->.
  { cbn [scanned]. apply Nat.ltb_lt in Hl. rewrite Hl. destruct l, ls; done. }
  by rewrite Hr, IH.
Qed.

Lemma scan_text ls : Forall line_ok ls → scan_lines (text ls) = ls.
Proof.
  intros Hls. unfold scan_lines, text. rewrite Split_Join; [by apply scanned_lines|by destruct ls|].
  apply Forall_app. split; [|by repeat constructor].
  eapply Forall_impl; [exact Hls|]. by intros l (? & _).
Qed.

Lemma Fields_Join c ws :
  is_space c = true → Forall word ws → Fields (Join ws (String c "")) = ws.
Proof.
  intros Hc Hws. unfold Fields. induction Hws as [|w ws [Hne Hw] Hws IH]; [done|].
  destruct ws as [|w' ws].
  - simpl. rewrite <- (app_empty_r w) at 1. rewrite fields_loop_word by done. simpl.
    by destruct w.
  - change (Join (w :: w' :: ws) (String c "")) with (w +:+ String c (Join (w' :: ws) (String c ""))).
    rewrite fields_loop_word by done. cbn [fields_loop]. rewrite Hc. destruct w; [done|]. by rewrite IH.
Qed.

Lemma parse_skip o pre fuel rest ips :
  Forall (λ l, HasPrefix (TrimLeft l (String " " (String tab_char ""))) (prefix o) = false) pre →
  parse_loop (length pre + fuel) [o] (pre ++ rest) ips = parse_loop fuel [o] rest ips.
Proof.
  induction 1 as [|l pre Hl _ IH]; [done|]. cbn [length Nat.add app parse_loop]. cbn [parseLine].
  rewrite Hl. apply IH.
Qed.

Lemma take_fields_rows i rows fields post ips :
  Forall2 (λ l a, field_at l i = Ok a) rows fields →
  take_fields (length rows) i (rows ++ post) ips = Ok (ips ++ fields, post).
Proof.
  intros Hr. revert ips. induction Hr as [|l a rows fields Hl _ IH]; intros ips; simpl.
  - rewrite app_nil_r. by destruct post.
  - rewrite Hl. unfold mbind, outcome_bind. by rewrite IH, <- app_assoc.
Qed.

(** A node of [pxctl cluster list]: its id, scheduler name and data IP, and the
    other columns *)
Record cluster_row := { row_id : string; row_name : string; row_ip : string; row_more : list string }.

Definition row_words (r : cluster_row) : list string := row_id r :: row_name r :: row_ip r :: row_more r.

Definition row_line (r : cluster_row) : string := Join (row_words r) (String tab_char "").

Definition heads_nodes (l : string) : bool :=
  HasPrefix (TrimLeft l (String " " (String tab_char ""))) (tabbed "ID").

(** [ParseIPv6AddressInPxctlCommand] reads the data IPs back from a cluster
    list: whatever lines come before the heading and after the table, for a
    table of as many nodes as the caller expects it returns the data IP of each
    node, in order. *)
Theorem ParseIPv6_cluster_list pre header rows post :
  Forall line_ok (pre ++ header :: (row_line <$> rows) ++ post) →
  Forall (λ l, heads_nodes l = false) pre → heads_nodes header = true →
  Forall (λ l, heads_nodes l = false) post →
  rows ≠ [] → Forall (λ r, Forall word (row_words r)) rows →
  ParseIPv6AddressInPxctlCommand PxctlClusterList (text (pre ++ header :: (row_line <$> rows) ++ post))
    (Z.of_nat (length rows)) = Ok (row_ip <$> rows).
Proof.
  intros Hok Hpre Hhead Hpost Hne Hrows.
  change (ParseIPv6AddressInPxctlCommand PxctlClusterList ?t ?n) with (parseIPv6AddressInPxctlClusterList t n).
  unfold parseIPv6AddressInPxctlClusterList, parse. rewrite scan_text by done.
  rewrite length_app. rewrite (parse_skip _ pre) by done. cbn [length parse_loop parseLine prefix count opt_index].
  unfold heads_nodes in Hhead. rewrite Hhead, decide_False by (destruct rows; [done|simpl; lia]).
  cbn [mbind outcome_bind]. rewrite Nat2Z.id.
  rewrite <- (length_fmap row_line rows), (take_fields_rows 2 (row_line <$> rows) (row_ip <$> rows)).
  2:{ apply Forall2_fmap. apply Forall_Forall2_diag. eapply Forall_impl; [exact Hrows|].
      intros r Hr. unfold field_at, row_line. by rewrite Fields_Join. }
  cbn [mbind outcome_bind]. rewrite length_app, Nat.add_comm.
  rewrite <- (app_nil_r post) at 2. rewrite parse_skip by done. simpl. by destruct (length _).
Qed.

(** *** Endpoints *)

Lemma index_byte_app a c b : free_of c a = true → index_byte (a +:+ String c b) c = Some (String.length a).
Proof.
  induction a as [|d a IH]; simpl; [by rewrite Ascii.eqb_refl|].
  intros [Hd Ha]%andb_true_iff. apply negb_true_iff in Hd. by rewrite Hd, IH.
Qed.

Lemma index_byte_free a c : free_of c a = true → index_byte a c = None.
Proof.
  induction a as [|d a IH]; simpl; [done|]. intros [Hd Ha]%andb_true_iff. apply negb_true_iff in Hd. by rewrite Hd, IH.
Qed.

Lemma last_byte_free a c : free_of c a = true → last_byte a c = None.
Proof.
  induction a as [|d a IH]; simpl; [done|]. intros [Hd Ha]%andb_true_iff. apply negb_true_iff in Hd. by rewrite IH, Hd.
Qed.

Lemma last_byte_app a c b : free_of c b = true → last_byte (a +:+ String c b) c = Some (String.length a).
Proof.
  intros Hb. induction a as [|d a IH]; simpl; [|by rewrite IH]. by rewrite last_byte_free, Ascii.eqb_refl.
Qed.

Lemma slice_middle a b c i j :
  i = String.length a → j = (String.length a + String.length b)%nat → slice (a +:+ b +:+ c) i j = b.
Proof. intros -> ->. unfold slice. rewrite Nat.add_comm, Nat.add_sub. apply substring_middle. Qed.

Definition plain (s : string) : Prop := free_of ":" s = true ∧ free_of "[" s = true ∧ free_of "]" s = true.

(** An address in brackets with its port is split into the two. *)
Lemma SplitHostPort_brackets host port :
  free_of "[" host = true → free_of "]" host = true → plain port →
  SplitHostPort ("[" +:+ host +:+ "]:" +:+ port) = Ok (host, port).
Proof.
  intros Hl Hr (Hc & Hpl & Hpr). set (hp := "[" +:+ host +:+ "]:" +:+ port).
  assert (String.length hp = (String.length host + String.length port + 3)%nat) as Hn.
  { unfold hp. rewrite !length_append. simpl. lia. }
  assert (last_byte hp ":" = Some (S (S (String.length host)))) as Hlast.
  { assert (hp = ("[" +:+ host +:+ "]") +:+ String ":" port) as ->
      by (unfold hp; by rewrite !app_assoc_s).
    rewrite last_byte_app by done. f_equal. rewrite !length_append. simpl. lia. }
  assert (index_byte hp "]" = Some (S (String.length host))) as Hidx.
  { assert (hp = ("[" +:+ host) +:+ String "]" (":" +:+ port)) as -> by (unfold hp; by rewrite !app_assoc_s).
    by rewrite index_byte_app. }
  unfold SplitHostPort. rewrite Hlast, Hidx. assert (HasPrefix hp "[" = true) as -> by apply HasPrefix_app.
  rewrite decide_False by lia. rewrite decide_True by lia.
  assert (slice hp 1 (String.length hp) = host +:+ "]:" +:+ port) as ->.
  { replace hp with ("[" +:+ (host +:+ "]:" +:+ port) +:+ "") by (unfold hp; by rewrite app_empty_r).
    apply slice_middle; [done|]. rewrite !length_append. simpl. lia. }
  assert (slice hp (S (S (String.length host))) (String.length hp) = ":" +:+ port) as ->.
  { replace hp with (("[" +:+ host +:+ "]") +:+ (":" +:+ port) +:+ "") by (unfold hp; by rewrite app_empty_r, !app_assoc_s).
    apply slice_middle; rewrite !length_append; simpl; lia. }
  assert (slice hp (S (S (S (String.length host)))) (String.length hp) = port) as ->.
  { replace hp with (("[" +:+ host +:+ "]:") +:+ port +:+ "") by (unfold hp; by rewrite app_empty_r, !app_assoc_s).
    apply slice_middle; rewrite !length_append; simpl; lia. }
  assert (slice hp 1 (S (String.length host)) = host) as ->.
  { unfold hp. apply slice_middle; simpl; lia. }
  unfold has_byte. rewrite !index_byte_free; [done|..]; rewrite ?free_of_app; simpl; by rewrite ?Hl, ?Hr, ?Hpl, ?Hpr.
Qed.

(** An endpoint as pxctl prints it: a URL with an address in brackets *)
Record endpoint := { ep_host : string; ep_port : string }.

Definition ep_ok (e : endpoint) : Prop :=
  free_of "[" (ep_host e) = true ∧ free_of "]" (ep_host e) = true ∧ plain (ep_port e) ∧
  string_forall (λ c, negb (is_space c)) (ep_host e) = true ∧ word (ep_port e).

Definition ep_line (e : endpoint) : string := "http://[" +:+ ep_host e +:+ "]:" +:+ ep_port e.

Lemma TrimSpace_word w : string_forall (λ c, negb (is_space c)) w = true → TrimSpace w = w.
Proof.
  intros Hw. unfold TrimSpace, Trim. rewrite <- (TrimRight_word w Hw) at 2. f_equal.
  destruct w as [|c w]; [done|]. apply andb_true_iff in Hw as [Hc _]. apply negb_true_iff in Hc.
  cbn [TrimLeft]. by rewrite in_spaces, Hc.
Qed.

Lemma free_of_word w : string_forall (λ c, negb (is_space c)) w = true → free_of newline w = true.
Proof.
  induction w as [|c w IH]; [done|]. intros [Hc Hw]%andb_true_iff. unfold free_of. cbn [string_forall].
  apply andb_true_iff. split; [|by apply IH]. apply negb_true_iff. apply negb_true_iff in Hc.
  destruct (Ascii.eqb_spec c newline) as [->|]; done.
Qed.

Lemma ep_rest e : ep_ok e → url_rest (ep_line e) = Some ("[" +:+ ep_host e +:+ "]:" +:+ ep_port e).
Proof.
  intros _. change (ep_line e) with ("http://" +:+ ("[" +:+ ep_host e +:+ "]:" +:+ ep_port e)).
  generalize ("[" +:+ ep_host e +:+ "]:" +:+ ep_port e). intros s.
  assert (TrimPrefix ("http://" +:+ s) "http://" = s) as Ht.
  { unfold TrimPrefix. rewrite HasPrefix_app, length_append. rewrite Nat.add_comm, Nat.add_sub.
    pose proof (substring_middle "http://" s "") as Hs. by rewrite app_empty_r in Hs. }
  change ("http://" +:+ s) with (String "h" ("ttp://" +:+ s)) in *. cbn [url_rest].
  change (String "h" ("ttp://" +:+ s)) with ("http://" +:+ s) in *. by rewrite HasPrefix_app, Ht.
Qed.

(** The addresses of the key-value store are read back from the list of its
    endpoints: a list of IPv6 addresses, each in brackets and with its port, is
    parsed to those addresses. *)
Theorem ParseIPv6_kvdb_endpoints eps nodeCount :
  eps ≠ [] → Forall ep_ok eps →
  ParseIPv6AddressInPxctlCommand PxctlServiceKvdbEndpoints (Join (ep_line <$> eps) (String newline "")) nodeCount =
    Ok (ep_host <$> eps).
Proof.
  intros Hne Hok.
  change (ParseIPv6AddressInPxctlCommand PxctlServiceKvdbEndpoints ?t ?n)
    with (parseIPAddressInPxctlServiceKvdbEndpoints t).
  unfold parseIPAddressInPxctlServiceKvdbEndpoints. rewrite Split_Join.
  - induction Hok as [|e eps He Hok IH]; [done|]. cbn [fmap list_fmap omap list_omap].
    rewrite ep_rest by done. cbn [endpoint_ips].
    destruct He as (Hl & Hr & Hp & Hh & _ & Hw). rewrite TrimSpace_word.
    2:{ rewrite !string_forall_app, Hh, Hw. done. }
    rewrite SplitHostPort_brackets by done.
    destruct eps as [|e' eps]; [done|]. rewrite IH by done. done.
  - by destruct eps.
  - apply Forall_fmap. eapply Forall_impl; [exact Hok|]. intros e (_ & _ & _ & Hh & _ & Hw).
    unfold compose, ep_line. by rewrite !free_of_app, (free_of_word _ Hh), (free_of_word _ Hw).
Qed.

Module Ipv6Demo.

Definition nodes : list cluster_row :=
  [ {| row_id := "id1"; row_name := "node03"; row_ip := "fd00::1"; row_more := ["0.1"; "16"; "GB"] |};
    {| row_id := "id2"; row_name := "node04"; row_ip := "fd00::2"; row_more := [] |} ].

Definition heading : string := Join ["ID"; "SCHEDULER_NODE_NAME"; "DATA IP"] (String tab_char "").

Ltac lines := repeat first [apply Forall_cons_2 | apply Forall_nil_2];
  first [reflexivity | split; [first [reflexivity | discriminate]|]; try reflexivity; split; [reflexivity|];
    apply Nat.ltb_lt; vm_compute; reflexivity].

Lemma ParseIPv6_cluster_list_witness :
  ParseIPv6AddressInPxctlCommand PxctlClusterList
    (text (["Cluster ID: px"; "Nodes in the cluster:"] ++ heading :: (row_line <$> nodes) ++ ["done"]))
    (Z.of_nat (length nodes)) = Ok ["fd00::1"; "fd00::2"].
Proof.
  apply (ParseIPv6_cluster_list ["Cluster ID: px"; "Nodes in the cluster:"] heading nodes ["done"]).
  - cbn [app fmap list_fmap nodes]. lines.
  - lines.
  - reflexivity.
  - lines.
  - discriminate.
  - unfold nodes. repeat first [apply Forall_cons_2 | apply Forall_nil_2]; (split; [discriminate|reflexivity]).
Defined.

Definition endpoints : list endpoint :=
  [ {| ep_host := "fd00::1"; ep_port := "9019" |}; {| ep_host := "fd00::2"; ep_port := "9019" |} ].

Lemma ParseIPv6_kvdb_endpoints_witness :
  ParseIPv6AddressInPxctlCommand PxctlServiceKvdbEndpoints (Join (ep_line <$> endpoints) (String newline "")) 2 =
    Ok ["fd00::1"; "fd00::2"].
Proof.
  apply (ParseIPv6_kvdb_endpoints endpoints 2); [discriminate|].
  unfold endpoints. repeat first [apply Forall_cons_2 | apply Forall_nil_2];
    (split; [reflexivity|]; split; [reflexivity|]; split; [split; [reflexivity|split; reflexivity]|];
     split; [reflexivity|]; split; [discriminate|reflexivity]).
Defined.
End Ipv6Demo.
