(* ===== verification/Backup.v ===== *)
(** drivers/backup/portworx/portworx.go: the driver of px-backup.  Users and
    their tokens, the managers of the service, looking up uids page by page and
    filling them into requests.  The waits are in [BackupWaits]. *)

From Stdlib Require Import Ascii.
From S2P Require Import Prelude GoStrings Errors Effects GoJson Task PxNodeOps.

Definition enumerateBatchSize : Z := 100.
Definition AuthHeader : string := "authorization".

(** ** Messages *)

(** A [context.Context]: the metadata of outgoing calls, when there is any *)
Record Ctx := { Outgoing : option (gmap string (list string)) }.

(** The embedded [*Metadata] of every object; [GetOwnership().GetOwner()] of a nil
    ownership is empty. *)
Record Metadata := { Meta_Name : string; Meta_Uid : string; Meta_Owner : string }.

(** [StatusInfo] of a backup, restore, cluster ...: the number of the status *)
Record StatusInfo := { Info_Status : Z; Info_Reason : string }.

(** An object of the service with the fields that are read: [*Metadata], and the
    status, nil also when the embedded info is nil; of a schedule also the names
    of the backups it made, by kind of policy *)
Record Object := {
  Obj_Metadata : option Metadata;
  Obj_Status : option StatusInfo;
  Obj_BackupStatus : gmap string (list string);
}.

(** The generated getters accept nil. *)
Definition GetName (o : Object) : string := from_option Meta_Name "" (Obj_Metadata o).
Definition GetUid (o : Object) : string := from_option Meta_Uid "" (Obj_Metadata o).
Definition GetOwner (o : Object) : string := from_option Meta_Owner "" (Obj_Metadata o).
Definition GetStatus (o : Object) : Z := from_option Info_Status 0 (Obj_Status o).
Definition GetReason (o : Object) : string := from_option Info_Reason "" (Obj_Status o).

(** [EnumerateOptions] *)
Record EnumerateOptions := { MaxObjects : Z; ObjectIndex : Z }.

Record EnumerateRequest := { Enum_OrgId : string; Enum_Options : option EnumerateOptions }.

Record EnumerateResponse := { Objects : list Object; TotalCount : Z; Complete : bool }.

(** A request about one object: its name, uid and organisation, and a body the
    driver passes on *)
Record Request (Body : Type) := {
  Req_Name : string;
  Req_Uid : string;
  Req_OrgId : string;
  Req_Body : option Body;
}.
Arguments Req_Name {Body} _. Arguments Req_Uid {Body} _.
Arguments Req_OrgId {Body} _. Arguments Req_Body {Body} _.
Arguments Build_Request {Body} _ _ _ _.

(** The families of objects and the kinds of requests *)
Inductive Family : Type :=
  | CloudCredential | Cluster | BackupLocation | Backup | Restore | SchedulePolicy | BackupSchedule | Rule.

Inductive ReqKind : Type := Inspect_ | Delete_ | Update_ | OwnershipUpdate_ | ShareUpdate_ | Validate_.

#[export] Instance Family_eq_dec : EqDecision Family.
Proof. solve_decision. Defined.
#[export] Instance ReqKind_eq_dec : EqDecision ReqKind.
Proof. solve_decision. Defined.

Definition Family_name (f : Family) : string :=
  match f with
  | CloudCredential => "CloudCredential" | Cluster => "Cluster" | BackupLocation => "BackupLocation"
  | Backup => "Backup" | Restore => "Restore" | SchedulePolicy => "SchedulePolicy"
  | BackupSchedule => "BackupSchedule" | Rule => "Rule"
  end.

(** The name of the Go type of a request *)
Definition type_name (f : Family) (k : ReqKind) : string :=
  "*api." +:+ Family_name f +:+
  match k with
  | Inspect_ => "InspectRequest" | Delete_ => "DeleteRequest" | Update_ => "UpdateRequest"
  | OwnershipUpdate_ => "OwnershipUpdateRequest"
  | ShareUpdate_ => match f with Cluster => "BackupShareUpdateRequest" | _ => "ShareUpdateRequest" end
  | Validate_ => "ValidateRequest"
  end.

(** A request behind an [interface{}]: its dynamic type and its value *)
Record AnyRequest (Body : Type) := { dyn_family : Family; dyn_kind : ReqKind; dyn_request : Request Body }.
Arguments dyn_family {Body} _. Arguments dyn_kind {Body} _. Arguments dyn_request {Body} _.
Arguments Build_AnyRequest {Body} _ _ _.

(** ** The service

    One manager per family.  [Inspect] returns a response pointer and an error;
    the response holds a pointer to the object. *)
Record Manager (W Body : Type) := {
  m_Create : Ctx → Request Body → M W (option Body);
  m_Call : ReqKind → Ctx → Request Body → M W (option Body);
  m_Inspect : Ctx → Request Body → M W (option (option Object) * option error);
  m_Enumerate : Ctx → EnumerateRequest → M W EnumerateResponse;
}.
Arguments m_Create {W Body} _. Arguments m_Call {W Body} _.
Arguments m_Inspect {W Body} _. Arguments m_Enumerate {W Body} _.

(** The managers, the unverified parse of a token into its claims, and the context
    of the administrator *)
Class BackupApi (W Body : Type) := {
  manager : Family → Manager W Body;
  ParseUnverified : string → outcome (list (string * json));
  GetAdminCtxFromSecret : M W Ctx;
}.
Arguments manager {W Body} {_} _.

(** What the generated gRPC clients guarantee: an error comes with a nil response,
    and a response with no error. *)
Class GrpcClients (W Body : Type) `{BackupApi W Body} : Prop := {
  inspect_nil : ∀ f ctx r w resp e w',
    m_Inspect (manager f) ctx r w = (Ok (resp, Some e), w') → resp = None;
  inspect_answers : ∀ f ctx r w w',
    m_Inspect (manager f) ctx r w ≠ (Ok (None, None), w');
}.

Section backup.
Context {W Body : Type} `{BackupApi W Body}.

(** ** Users *)

Definition claim (key : string) (claims : list (string * json)) : option json :=
  snd <$> find_first (λ kv, bool_decide (kv.1 = key)) claims.

Definition GetTokenClaimsFromCtx (ctx : Ctx) : outcome (list (string * json)) :=
  match Outgoing ctx with
  | None => Err (Errorf "no metadata found in context")
  | Some md =>
      match md !! AuthHeader with
      | None | Some [] => Err (Errorf "no authorization header found")
      | Some (header :: _) => ParseUnverified (TrimPrefix header "bearer ")
      end
  end.

Definition GetPreferredUsernameFromCtx (ctx : Ctx) : outcome string :=
  claims ← GetTokenClaimsFromCtx ctx;
  match claim "preferred_username" claims with
  | Some (JString s) => Ok s
  | _ => Err (Errorf "preferred_username not found or is of invalid type")
  end.

Definition GetSubFromCtx (ctx : Ctx) : outcome string :=
  claims ← GetTokenClaimsFromCtx ctx;
  match claim "sub" claims with
  | Some (JString s) => Ok s
  | _ => Err (Errorf "sub not found or is of invalid type")
  end.

Fixpoint group_names (l : list json) : outcome (list string) :=
  match l with
  | [] => Ok []
  | JString s :: l' => gs ← group_names l'; Ok (s :: gs)
  | _ :: _ => Panic "interface conversion: interface {} is not string"
  end.

Definition GetGroupsFromCtx (ctx : Ctx) : outcome (list string) :=
  claims ← GetTokenClaimsFromCtx ctx;
  match claim "groups" claims with
  | Some (JArray l) => group_names l
  | _ => Err (Errorf "groups not found or is of invalid type")
  end.

Definition IsAdminCtx (ctx : Ctx) : outcome bool :=
  groups ← GetGroupsFromCtx ctx;
  Ok (existsb (λ g, bool_decide (g = "/px-admin-group")) groups).

(** ** Enumerating *)

Definition enumerate (f : Family) (ctx : Ctx) (req : EnumerateRequest) : M W EnumerateResponse :=
  m_Enumerate (manager f) ctx req.

(** The objects of the user, in the same response *)
Definition enumerate_by_user (f : Family) (ctx : Ctx) (req : EnumerateRequest) : M W EnumerateResponse :=
  resp ← enumerate f ctx req;
  sub ← lift (GetSubFromCtx ctx);
  mret {| Objects := keep (λ o, bool_decide (GetOwner o = sub)) (Objects resp);
          TotalCount := TotalCount resp; Complete := Complete resp |}.

Definition EnumerateCloudCredential := enumerate CloudCredential.
Definition EnumerateCloudCredentialByUser := enumerate_by_user CloudCredential.
(** Without [ByUser] in its name, but restricted to the user *)
Definition EnumerateCluster := enumerate_by_user Cluster.
Definition EnumerateAllCluster := enumerate Cluster.
Definition EnumerateBackupLocation := enumerate BackupLocation.
Definition EnumerateBackupLocationByUser := enumerate_by_user BackupLocation.
Definition EnumerateBackup := enumerate Backup.
Definition EnumerateBackupByUser := enumerate_by_user Backup.
Definition EnumerateRestore := enumerate Restore.
Definition EnumerateRestoreByUser := enumerate_by_user Restore.
Definition EnumerateSchedulePolicy := enumerate SchedulePolicy.
Definition EnumerateSchedulePolicyByUser := enumerate_by_user SchedulePolicy.
Definition EnumerateBackupSchedule := enumerate BackupSchedule.
Definition EnumerateBackupScheduleByUser := enumerate_by_user BackupSchedule.
Definition EnumerateRule := enumerate Rule.
Definition EnumerateRuleByUser := enumerate_by_user Rule.

(** ** Looking up uids *)

(** A request for all objects of an organisation *)
Definition whole (orgID : string) : EnumerateRequest := {| Enum_OrgId := orgID; Enum_Options := None |}.

Definition GetCloudCredentialUID (ctx : Ctx) (orgID cloudCredentialName : string) : M W string :=
  resp ← EnumerateCloudCredential ctx (whole orgID);
  match find_first (λ o, bool_decide (GetName o = cloudCredentialName)) (Objects resp) with
  | Some o => mret (GetUid o)
  | None => throw (Errorf ("cloud credential with name '" +:+ cloudCredentialName +:+
              "' not found for org '" +:+ orgID +:+ "'"))
  end.

Definition GetClusterUID (ctx : Ctx) (orgID clusterName : string) : M W string :=
  resp ← EnumerateCluster ctx (whole orgID);
  match find_first (λ o, bool_decide (GetName o = clusterName)) (Objects resp) with
  | Some o => mret (GetUid o)
  | None => throw (Errorf ("cluster with name '" +:+ clusterName +:+ "' not found for org '" +:+ orgID +:+ "'"))
  end.

Definition GetClusterName (ctx : Ctx) (orgID clusterUid : string) : M W string :=
  resp ← EnumerateCluster ctx (whole orgID);
  match find_first (λ o, bool_decide (GetUid o = clusterUid)) (Objects resp) with
  | Some o => mret (GetName o)
  | None => throw (Errorf ("cluster with uid '" +:+ clusterUid +:+ "' not found for org '" +:+ orgID +:+ "'"))
  end.

(** [cluster.Status.Status] reads through a pointer. *)
Definition GetClusterStatus (orgID clusterName : string) (ctx : Ctx) : M W Z :=
  resp ← EnumerateCluster ctx (whole orgID);
  match find_first (λ o, bool_decide (GetName o = clusterName)) (Objects resp) with
  | Some o => st ← lift (deref (Obj_Status o)); mret (Info_Status st)
  | None => throw (Errorf ("cluster with name '" +:+ clusterName +:+ "' not found for org '" +:+ orgID +:+ "'"))
  end.

Definition GetBackupLocationUID (ctx : Ctx) (orgID backupLocationName : string) : M W string :=
  resp ← EnumerateBackupLocation ctx (whole orgID);
  match find_first (λ o, bool_decide (GetName o = backupLocationName)) (Objects resp) with
  | Some o => mret (GetUid o)
  | None => throw (Errorf ("backup location with name '" +:+ backupLocationName +:+
              "' not found for org '" +:+ orgID +:+ "'"))
  end.

(** Loops that read [o.Metadata.Name]: nil metadata is a panic. *)
Fixpoint find_metadata (name : string) (l : list Object) : outcome (option Metadata) :=
  match l with
  | [] => Ok None
  | o :: l' =>
      m ← deref (Obj_Metadata o);
      if decide (Meta_Name m = name) then Ok (Some m) else find_metadata name l'
  end.

Definition GetSchedulePolicyUid (orgID : string) (ctx : Ctx) (schPolicyName : string) : M W string :=
  resp ← wrap_err (λ e, Errorf ("Failed to enumerate schedule policies with error: [" +:+ Error e +:+ "]"))
           (EnumerateSchedulePolicy ctx (whole orgID));
  found ← lift (find_metadata schPolicyName (Objects resp));
  match found with
  | Some m => mret (Meta_Uid m)
  | None => throw (Errorf "Unable to find schedule policy Uid")
  end.

Definition GetRuleUid (orgID : string) (ctx : Ctx) (ruleName : string) : M W string :=
  resp ← wrap_err (λ e, Errorf ("Failed to enumerate rules with error: [" +:+ Error e +:+ "]"))
           (EnumerateRule ctx (whole orgID));
  found ← lift (find_metadata ruleName (Objects resp));
  match found with
  | Some m => mret (Meta_Uid m)
  | None => throw (Errorf ("unable to find uid for rule [" +:+ ruleName +:+ "]"))
  end.

Fixpoint all_names (l : list Object) : outcome (list string) :=
  match l with
  | [] => Ok []
  | o :: l' => m ← deref (Obj_Metadata o); ns ← all_names l'; Ok (Meta_Name m :: ns)
  end.

Definition GetAllSchedulePolicies (ctx : Ctx) (orgID : string) : M W (list string) :=
  resp ← EnumerateSchedulePolicy ctx (whole orgID);
  lift (all_names (Objects resp)).

Definition GetAllRules (ctx : Ctx) (orgID : string) : M W (list string) :=
  resp ← EnumerateRule ctx (whole orgID);
  lift (all_names (Objects resp)).

(** The loop of GetBackupUID, GetBackupName, GetRestoreUID and
    GetBackupScheduleUID: pages of [enumerateBatchSize] objects until one
    matches or as many objects were seen as the service says there are.
    [pages] bounds the number of pages. *)
Fixpoint page_loop (pages : nat) (f : Family) (ctx : Ctx) (orgID : string) (p : Object → bool)
    (index total : Z) : M W (option Object) :=
  match pages with
  | O => lift Diverge
  | S pages' =>
      resp ← enumerate f ctx {| Enum_OrgId := orgID;
               Enum_Options := Some {| MaxObjects := enumerateBatchSize; ObjectIndex := index |} |};
      match find_first p (Objects resp) with
      | Some o => mret (Some o)
      | None =>
          let total' := total + Z.of_nat (length (Objects resp)) in
          if decide (TotalCount resp <= u64 total') then mret None
          else page_loop pages' f ctx orgID p (u64 (index + Z.of_nat (length (Objects resp)))) total'
      end
  end.

Context (pages : nat).

Definition GetBackupUID (ctx : Ctx) (backupName orgID : string) : M W string :=
  found ← page_loop pages Backup ctx orgID (λ o, bool_decide (GetName o = backupName)) 0 0;
  match found with
  | Some o => mret (GetUid o)
  | None => throw (Errorf ("backup with name '" +:+ backupName +:+ "' not found for org '" +:+ orgID +:+ "'"))
  end.

Definition GetBackupName (ctx : Ctx) (backupUid orgID : string) : M W string :=
  found ← page_loop pages Backup ctx orgID (λ o, bool_decide (GetUid o = backupUid)) 0 0;
  match found with
  | Some o => mret (GetName o)
  | None => throw (Errorf ("backup with uid '" +:+ backupUid +:+ "' not found for org '" +:+ orgID +:+ "'"))
  end.

Definition GetRestoreUID (ctx : Ctx) (restoreName orgID : string) : M W string :=
  found ← page_loop pages Restore ctx orgID (λ o, bool_decide (GetName o = restoreName)) 0 0;
  match found with
  | Some o => mret (GetUid o)
  | None => throw (Errorf ("restore with name '" +:+ restoreName +:+ "' not found for org '" +:+ orgID +:+ "'"))
  end.

Definition GetBackupScheduleUID (ctx : Ctx) (scheduleName orgID : string) : M W string :=
  found ← page_loop pages BackupSchedule ctx orgID (λ o, bool_decide (GetName o = scheduleName)) 0 0;
  match found with
  | Some o => mret (GetUid o)
  | None => throw (Errorf ("backup schedule with name '" +:+ scheduleName +:+ "' not found for org '" +:+
              orgID +:+ "'"))
  end.

(** ** Filling uids into requests

    Each SetMissing function switches over the dynamic type of the request,
    looks the uid up when it is empty and returns the request. *)

Definition with_uid (r : Request Body) (u : string) : Request Body :=
  {| Req_Name := Req_Name r; Req_Uid := u; Req_OrgId := Req_OrgId r; Req_Body := Req_Body r |}.

Definition fill_uid (lookup : string → string → M W string) (r : Request Body) : M W (Request Body) :=
  if decide (Req_Uid r = "") then u ← lookup (Req_OrgId r) (Req_Name r); mret (with_uid r u) else mret r.

Definition set_missing (f : Family) (kinds : list ReqKind) (lookup : string → string → M W string)
    (req : AnyRequest Body) : M W (AnyRequest Body) :=
  if decide (dyn_family req = f ∧ dyn_kind req ∈ kinds) then
    r ← fill_uid lookup (dyn_request req);
    mret (Build_AnyRequest (dyn_family req) (dyn_kind req) r)
  else throw (Errorf ("received unsupported request type " +:+ type_name (dyn_family req) (dyn_kind req))).

Definition SetMissingCloudCredentialUID (ctx : Ctx) : AnyRequest Body → M W (AnyRequest Body) :=
  set_missing CloudCredential [Inspect_; Delete_; Update_; OwnershipUpdate_] (GetCloudCredentialUID ctx).

Definition SetMissingClusterUID (ctx : Ctx) : AnyRequest Body → M W (AnyRequest Body) :=
  set_missing Cluster [Inspect_; Delete_; ShareUpdate_; Update_] (GetClusterUID ctx).

Definition SetMissingBackupLocationUID (ctx : Ctx) : AnyRequest Body → M W (AnyRequest Body) :=
  set_missing BackupLocation [Inspect_; Update_; Validate_; OwnershipUpdate_; Delete_] (GetBackupLocationUID ctx).

Definition SetMissingBackupUID (ctx : Ctx) : AnyRequest Body → M W (AnyRequest Body) :=
  set_missing Backup [Inspect_; Delete_; Update_; ShareUpdate_] (λ org name, GetBackupUID ctx name org).

Definition SetMissingRestoreUID (ctx : Ctx) : AnyRequest Body → M W (AnyRequest Body) :=
  set_missing Restore [Inspect_; Delete_; Update_] (λ org name, GetRestoreUID ctx name org).

Definition SetMissingSchedulePolicyUID (ctx : Ctx) : AnyRequest Body → M W (AnyRequest Body) :=
  set_missing SchedulePolicy [Inspect_; Delete_; Update_; OwnershipUpdate_]
    (λ org name, GetSchedulePolicyUid org ctx name).

Definition SetMissingBackupScheduleUID (ctx : Ctx) : AnyRequest Body → M W (AnyRequest Body) :=
  set_missing BackupSchedule [Inspect_; Delete_; Update_] (λ org name, GetBackupScheduleUID ctx name org).

Definition SetMissingRuleUID (ctx : Ctx) : AnyRequest Body → M W (AnyRequest Body) :=
  set_missing Rule [Inspect_; Delete_; Update_; OwnershipUpdate_] (λ org name, GetRuleUid org ctx name).

(** The callers: fill the uid, assert that the type is the one expected, send. *)
Definition fill_and_send {A} (set_uid : AnyRequest Body → M W (AnyRequest Body)) (f : Family) (k : ReqKind)
    (send : Request Body → M W A) (r : Request Body) : M W A :=
  req ← set_uid (Build_AnyRequest f k r);
  if decide (dyn_family req = f ∧ dyn_kind req = k) then send (dyn_request req)
  else throw (Errorf ("expected " +:+ type_name f k +:+ " type after filling missing UID, but received " +:+
         type_name (dyn_family req) (dyn_kind req))).

Definition call (f : Family) (k : ReqKind) (ctx : Ctx) : Request Body → M W (option Body) :=
  m_Call (manager f) k ctx.

(** An inspection that fails or has a response *)
Definition inspect (f : Family) (ctx : Ctx) (r : Request Body) : M W (option (option Object)) :=
  re ← m_Inspect (manager f) ctx r;
  match re.2 with
  | Some e => throw e
  | None => mret re.1
  end.

Definition UpdateCloudCredential (ctx : Ctx) :=
  fill_and_send (SetMissingCloudCredentialUID ctx) CloudCredential Update_ (call CloudCredential Update_ ctx).
Definition InspectCloudCredential (ctx : Ctx) :=
  fill_and_send (SetMissingCloudCredentialUID ctx) CloudCredential Inspect_ (inspect CloudCredential ctx).
Definition DeleteCloudCredential (ctx : Ctx) :=
  fill_and_send (SetMissingCloudCredentialUID ctx) CloudCredential Delete_ (call CloudCredential Delete_ ctx).
Definition UpdateOwnershipCloudCredential (ctx : Ctx) :=
  fill_and_send (SetMissingCloudCredentialUID ctx) CloudCredential OwnershipUpdate_
    (call CloudCredential OwnershipUpdate_ ctx).

Definition UpdateCluster (ctx : Ctx) :=
  fill_and_send (SetMissingClusterUID ctx) Cluster Update_ (call Cluster Update_ ctx).
(** These two send the request as it is. *)
Definition InspectCluster (ctx : Ctx) : Request Body → M W (option (option Object)) := inspect Cluster ctx.
Definition DeleteCluster (ctx : Ctx) : Request Body → M W (option Body) := call Cluster Delete_ ctx.
Definition ClusterUpdateBackupShare (ctx : Ctx) :=
  fill_and_send (SetMissingClusterUID ctx) Cluster ShareUpdate_ (call Cluster ShareUpdate_ ctx).

Definition UpdateBackupLocation (ctx : Ctx) :=
  fill_and_send (SetMissingBackupLocationUID ctx) BackupLocation Update_ (call BackupLocation Update_ ctx).
Definition InspectBackupLocation (ctx : Ctx) :=
  fill_and_send (SetMissingBackupLocationUID ctx) BackupLocation Inspect_ (inspect BackupLocation ctx).
Definition DeleteBackupLocation (ctx : Ctx) :=
  fill_and_send (SetMissingBackupLocationUID ctx) BackupLocation Delete_ (call BackupLocation Delete_ ctx).
Definition ValidateBackupLocation (ctx : Ctx) :=
  fill_and_send (SetMissingBackupLocationUID ctx) BackupLocation Validate_ (call BackupLocation Validate_ ctx).
Definition UpdateOwnershipBackupLocation (ctx : Ctx) :=
  fill_and_send (SetMissingBackupLocationUID ctx) BackupLocation OwnershipUpdate_
    (call BackupLocation OwnershipUpdate_ ctx).

Definition UpdateBackup (ctx : Ctx) :=
  fill_and_send (SetMissingBackupUID ctx) Backup Update_ (call Backup Update_ ctx).
Definition InspectBackup (ctx : Ctx) :=
  fill_and_send (SetMissingBackupUID ctx) Backup Inspect_ (inspect Backup ctx).
Definition DeleteBackup (ctx : Ctx) :=
  fill_and_send (SetMissingBackupUID ctx) Backup Delete_ (call Backup Delete_ ctx).
Definition UpdateBackupShare (ctx : Ctx) :=
  fill_and_send (SetMissingBackupUID ctx) Backup ShareUpdate_ (call Backup ShareUpdate_ ctx).

Definition UpdateRestore (ctx : Ctx) :=
  fill_and_send (SetMissingRestoreUID ctx) Restore Update_ (call Restore Update_ ctx).
Definition InspectRestore (ctx : Ctx) :=
  fill_and_send (SetMissingRestoreUID ctx) Restore Inspect_ (inspect Restore ctx).
Definition DeleteRestore (ctx : Ctx) :=
  fill_and_send (SetMissingRestoreUID ctx) Restore Delete_ (call Restore Delete_ ctx).

Definition UpdateSchedulePolicy (ctx : Ctx) :=
  fill_and_send (SetMissingSchedulePolicyUID ctx) SchedulePolicy Update_ (call SchedulePolicy Update_ ctx).
Definition InspectSchedulePolicy (ctx : Ctx) :=
  fill_and_send (SetMissingSchedulePolicyUID ctx) SchedulePolicy Inspect_ (inspect SchedulePolicy ctx).
Definition DeleteSchedulePolicy (ctx : Ctx) :=
  fill_and_send (SetMissingSchedulePolicyUID ctx) SchedulePolicy Delete_ (call SchedulePolicy Delete_ ctx).
Definition UpdateOwnershipSchedulePolicy (ctx : Ctx) :=
  fill_and_send (SetMissingSchedulePolicyUID ctx) SchedulePolicy OwnershipUpdate_
    (call SchedulePolicy OwnershipUpdate_ ctx).

Definition UpdateBackupSchedule (ctx : Ctx) :=
  fill_and_send (SetMissingBackupScheduleUID ctx) BackupSchedule Update_ (call BackupSchedule Update_ ctx).
Definition InspectBackupSchedule (ctx : Ctx) :=
  fill_and_send (SetMissingBackupScheduleUID ctx) BackupSchedule Inspect_ (inspect BackupSchedule ctx).
Definition DeleteBackupSchedule (ctx : Ctx) :=
  fill_and_send (SetMissingBackupScheduleUID ctx) BackupSchedule Delete_ (call BackupSchedule Delete_ ctx).

Definition UpdateRule (ctx : Ctx) :=
  fill_and_send (SetMissingRuleUID ctx) Rule Update_ (call Rule Update_ ctx).
Definition InspectRule (ctx : Ctx) :=
  fill_and_send (SetMissingRuleUID ctx) Rule Inspect_ (inspect Rule ctx).
Definition DeleteRule (ctx : Ctx) :=
  fill_and_send (SetMissingRuleUID ctx) Rule Delete_ (call Rule Delete_ ctx).
Definition UpdateOwnershipRule (ctx : Ctx) :=
  fill_and_send (SetMissingRuleUID ctx) Rule OwnershipUpdate_ (call Rule OwnershipUpdate_ ctx).
End backup.

(** ** Lookups and requests against a service that pages

    The service has the objects [all] of the organisation and answers a request
    for a page with the objects of that page and the number of all. *)
Section paged.
Context {W Body : Type} `{BackupApi W Body}.
Context (f : Family) (ctx : Ctx) (orgID : string) (all : list Object).

Definition paged_service : Prop :=
  ∀ i w, 0 <= i → ∃ complete w',
    enumerate f ctx {| Enum_OrgId := orgID;
      Enum_Options := Some {| MaxObjects := enumerateBatchSize; ObjectIndex := i |} |} w =
    (Ok {| Objects := take (Z.to_nat enumerateBatchSize) (drop (Z.to_nat i) all);
           TotalCount := Z.of_nat (length all); Complete := complete |}, w').

Lemma page_loop_spec pages p i w :
  paged_service → Z.of_nat (length all) < two64 → 0 <= i <= Z.of_nat (length all) →
  (length all - Z.to_nat i < 100 * pages)%nat →
  (page_loop pages f ctx orgID p i i w).1 = Ok (find_first p (drop (Z.to_nat i) all)).
Proof.
  intros Hs Hlen. revert i w. induction pages as [|pages IH]; intros i w Hi Hp; [lia|]. cbn [page_loop].
  destruct (Hs i w) as (c & w1 & He); [lia|]. rewrite (bind_Ok _ _ _ _ _ He). cbn [Objects TotalCount].
  change (Z.to_nat enumerateBatchSize) with 100%nat.
  set (rest := drop (Z.to_nat i) all) in *.
  assert (length rest = (length all - Z.to_nat i)%nat) as Hr by apply length_drop.
  assert (find_first p rest = match find_first p (take 100 rest) with
    | Some x => Some x | None => find_first p (drop 100 rest) end) as Hsplit.
  { by rewrite <- find_first_app, take_drop. }
  rewrite Hsplit. clear Hsplit. destruct (find_first p (take 100 rest)) as [o|]; [done|].
  rewrite length_take, u64_id by (unfold is_u64; lia).
  case_decide as Hd; [by rewrite drop_ge by lia|].
  replace (u64 (i + Z.of_nat (100 `min` length rest))) with (i + Z.of_nat (100 `min` length rest))
    by (rewrite u64_id; [done|unfold is_u64; lia]).
  rewrite IH by lia. assert (100 `min` length rest = 100)%nat as -> by lia.
  unfold rest. rewrite drop_drop. do 3 f_equal. lia.
Qed.
End paged.

Section lookups.
Context {W Body : Type} `{BackupApi W Body}.
Context (ctx : Ctx) (orgID : string) (all : list Object) (pages : nat).

Lemma GetBackupUID_find backupName w :
  paged_service Backup ctx orgID all → Z.of_nat (length all) < two64 → (length all < 100 * pages)%nat →
  (GetBackupUID pages ctx backupName orgID w).1 =
    match find_first (λ o, bool_decide (GetName o = backupName)) all with
    | Some o => Ok (GetUid o)
    | None => Err (Errorf ("backup with name '" +:+ backupName +:+ "' not found for org '" +:+ orgID +:+ "'"))
    end.
Proof.
  intros Hs Hlen Hp. unfold GetBackupUID, mbind, M_bind.
  pose proof (page_loop_spec Backup ctx orgID all pages (λ o, bool_decide (GetName o = backupName)) 0 w Hs Hlen
    ltac:(lia) ltac:(lia)) as Hl.
  destruct (page_loop _ _ _ _ _ _ _ w) as [o w1]. cbn [fst] in Hl. subst o. rewrite drop_0.
  by destruct (find_first _ all).
Qed.

(** C13. Uids and names of backups are inverse to each other, however many pages the
    listing has: when no two backups share a uid, the uid [GetBackupUID] finds for
    the name of a listed backup is looked up by [GetBackupName] to the same name. *)
Theorem GetBackupName_GetBackupUID o w w2 :
  paged_service Backup ctx orgID all → Z.of_nat (length all) < two64 → (length all < 100 * pages)%nat →
  NoDup (GetUid <$> all) → o ∈ all →
  ∃ u, (GetBackupUID pages ctx (GetName o) orgID w).1 = Ok u ∧
    (GetBackupName pages ctx u orgID w2).1 = Ok (GetName o).
Proof.
  intros Hs Hlen Hp Hnd Ho. rewrite GetBackupUID_find by done.
  destruct (find_first_is_Some (λ x, bool_decide (GetName x = GetName o)) all o Ho) as [x Hx];
    [by apply bool_decide_eq_true_2|]. rewrite Hx.
  apply find_first_Some in Hx as [Hin Hname]. apply bool_decide_eq_true_1 in Hname.
  exists (GetUid x). split; [done|]. unfold GetBackupName, mbind, M_bind.
  pose proof (page_loop_spec Backup ctx orgID all pages (λ y, bool_decide (GetUid y = GetUid x)) 0 w2 Hs Hlen
    ltac:(lia) ltac:(lia)) as Hl.
  destruct (page_loop _ _ _ _ _ _ _ w2) as [r w3]. cbn [fst] in Hl. subst r. rewrite drop_0.
  rewrite (find_first_unique _ all x); [by rewrite <- Hname|done|by apply bool_decide_eq_true_2|].
  intros y Hy Hu. apply bool_decide_eq_true_1 in Hu.
  apply list_elem_of_lookup in Hy as [i Hi], Hin as [j Hj].
  assert (i = j) as ->; [|by simplify_eq].
  apply (NoDup_lookup _ i j (GetUid x) Hnd); rewrite list_lookup_fmap; [rewrite Hi|rewrite Hj]; simpl; congruence.
Qed.
End lookups.

Section requests.
Context {W Body : Type} `{BackupApi W Body}.

Lemma fill_and_send_eq {A} f kinds lookup k (send : Request Body → M W A) r w :
  k ∈ kinds →
  fill_and_send (set_missing f kinds lookup) f k send r w = (fill_uid lookup r ≫= send) w.
Proof.
  intros Hk. unfold fill_and_send, set_missing. cbn [dyn_family dyn_kind dyn_request].
  rewrite decide_True by done. rewrite bind_assoc. unfold mbind, M_bind.
  destruct (fill_uid lookup r w) as [[r'|e|s|] w1]; try done.
  unfold mret, M_ret. cbn [dyn_family dyn_kind dyn_request]. by rewrite decide_True.
Qed.

(** A SetMissing function returns a request of the dynamic type it was given,
    so that the assertions of its callers hold; it changes nothing but an empty
    uid, and that to an answer of the lookup for the name and organisation of
    the request. *)
Theorem set_missing_type f kinds (lookup : string → string → M W string) (req : AnyRequest Body) w req' w' :
  set_missing f kinds lookup req w = (Ok req', w') →
  dyn_family req' = dyn_family req ∧ dyn_kind req' = dyn_kind req ∧
  let r := dyn_request req in let r' := dyn_request req' in
  r' = with_uid r (Req_Uid r') ∧
  (Req_Uid r = "" ∧ lookup (Req_OrgId r) (Req_Name r) w = (Ok (Req_Uid r'), w') ∨
   Req_Uid r ≠ "" ∧ Req_Uid r' = Req_Uid r ∧ w' = w).
Proof.
  unfold set_missing. case_decide; [|done]. intros Hs.
  apply bind_Ok_inv in Hs as (r' & w1 & Hf & Hs). unfold mret, M_ret in Hs. injection Hs as <- <-.
  split; [done|split; [done|]]. cbn [dyn_request]. unfold fill_uid in Hf. case_decide as Hu.
  - apply bind_Ok_inv in Hf as (u & w2 & Hl & Hf). unfold mret, M_ret in Hf. simplify_eq.
    split; [done|]. by left.
  - unfold mret, M_ret in Hf. simplify_eq. split; [by destruct (dyn_request req)|]. by right.
Qed.

(** C36. Deleting a backup by name deletes the backup that has the name: after the lookup the
    request is sent with the uid of the first backup of the listing with that name, and
    the answer is returned; when no backup has it, nothing is sent after the lookup, and
    the answer is an error. *)
Theorem DeleteBackup_by_name pages ctx all r w :
  paged_service Backup ctx (Req_OrgId r) all → Z.of_nat (length all) < two64 → (length all < 100 * pages)%nat →
  Req_Uid r = "" →
  let w1 := (GetBackupUID pages ctx (Req_Name r) (Req_OrgId r) w).2 in
  match find_first (λ o, bool_decide (GetName o = Req_Name r)) all with
  | Some o => DeleteBackup pages ctx r w = call Backup Delete_ ctx (with_uid r (GetUid o)) w1
  | None => ∃ e, DeleteBackup pages ctx r w = (Err e, w1)
  end.
Proof.
  intros Hs Hlen Hp Hu. unfold DeleteBackup, SetMissingBackupUID.
  rewrite fill_and_send_eq by (right; left). unfold fill_uid. rewrite decide_True by done.
  pose proof (GetBackupUID_find ctx (Req_OrgId r) all pages (Req_Name r) w Hs Hlen Hp) as Hl.
  destruct (GetBackupUID pages ctx (Req_Name r) (Req_OrgId r) w) as [o w1] eqn:E. cbn [fst] in Hl. subst o.
  cbv zeta. rewrite bind_assoc. destruct (find_first _ all) as [o|].
  - by rewrite (bind_Ok _ _ _ _ _ E).
  - rewrite (bind_Err _ _ _ _ _ E). by eexists.
Qed.
End requests.
