(* ===== verification/BackupWaits.v ===== *)
(** drivers/backup/portworx/portworx.go: waiting for backups, restores, clusters,
    schedules and licences, and the rules and policies of backups. *)

From Stdlib Require Import Ascii.
From S2P Require Import Prelude GoStrings Errors Effects Float64 Strconv Task PxNodeOps Backup.

(** ** Statuses: open enumerations of protobuf *)

Definition StatusInfo_Invalid : Z := 0.
Definition StatusInfo_Pending : Z := 1.
Definition StatusInfo_InProgress : Z := 2.
Definition StatusInfo_Aborted : Z := 3.
Definition StatusInfo_Failed : Z := 4.
Definition StatusInfo_Deleting : Z := 5.
Definition StatusInfo_Success : Z := 6.
Definition StatusInfo_PartialSuccess : Z := 8.
Definition StatusInfo_DeletePending : Z := 9.

(** [String()] of a status: its name, or its number when it has none *)
Definition enum_String (names : list string) (st : Z) : string :=
  if decide (0 <= st) then match names !! Z.to_nat st with Some n => n | None => Itoa st end else Itoa st.

Definition Backup_Status_name : list string :=
  ["Invalid"; "Pending"; "InProgress"; "Aborted"; "Failed"; "Deleting"; "Success"; "Captured";
   "PartialSuccess"; "DeletePending"; "CloudBackupMissing"].
Definition Restore_Status_name : list string :=
  ["Invalid"; "Pending"; "InProgress"; "Aborted"; "Failed"; "Deleting"; "Success"; "Retained"; "PartialSuccess"].
Definition Cluster_Status_name : list string :=
  ["Invalid"; "Online"; "Offline"; "DeletePending"; "Pending"; "Failed"; "Success"].
Definition BackupSchedule_Status_name : list string :=
  ["Invalid"; "Pending"; "InProgress"; "Aborted"; "Failed"; "Deleting"; "Success"; "Captured";
   "PartialSuccess"; "DeletePending"].
Definition BackupLocation_Status_name : list string :=
  ["Invalid"; "Valid"; "DeletePending"; "ValidationInProgress"; "ValidationFailed"; "LimitedAvailability"].

Definition Backup_String := enum_String Backup_Status_name.
Definition Restore_String := enum_String Restore_Status_name.

Definition ended_badly : list Z := [StatusInfo_Failed; StatusInfo_Aborted; StatusInfo_Invalid].

(** [%v] of an error that may be nil *)
Definition show_err (e : option error) : string := from_option Error "<nil>" e.

(** A volume of an [ApplicationBackup] of stork *)
Record BackupVolume := { BV_BackupID : string; BV_Status : string }.

(** One rule of a backup *)
Record RuleItem := {
  PodSelector : gmap string string;
  Action_Value : string;
  Action_Background : bool;
  Action_RunInSinglePod : bool;
  Item_Container : string;
}.

(** A policy of schedules: the kind with its parameters, how many to retain and
    how many incremental backups to make *)
Inductive SchedulePolicyInfo : Type :=
  | IntervalPolicy (Retain Minutes Count : Z)
  | DailyPolicy (Retain : Z) (Time : string) (Count : Z)
  | WeeklyPolicy (Retain : Z) (Day Time : string) (Count : Z)
  | MonthlyPolicy (Retain Date : Z) (Time : string) (Count : Z).

(** Kubernetes behind a kubeconfig, the license manager, the bodies of requests
    that carry rules and policies, and the Unix time *)
Class BackupEnv (W Body : Type) := {
  base64_Decode : string → outcome string;
  RESTConfigFromKubeConfig : string → outcome string;
  stork_NewForConfig : string → M W unit;
  core_NewForConfig : string → M W unit;
  core_GetVersion : M W unit;
  GetApplicationBackup : string → string → M W (list BackupVolume);
  ListApplicationBackups : string → M W Z;
  license_FeatureNames : Ctx → string → M W (list string);
  rules_body : list RuleItem → Body;
  policy_body : SchedulePolicyInfo → Body;
  unix_now : W → Z;
}.

Definition licFeatureName : string := "BackupNodeCount".

Section waits.
Context {W Body : Type} `{Clock W} `{BackupApi W Body} `{BackupEnv W Body}.
Context (pages : nat).

Definition request (name uid orgID : string) : Request Body :=
  {| Req_Name := name; Req_Uid := uid; Req_OrgId := orgID; Req_Body := None |}.

(** [resp.GetBackup().GetStatus()]: the promoted getter of a nil object panics. *)
Definition the_object (resp : option (option Object)) : outcome Object := deref (mjoin resp).

(** The end of a wait whose closure may have set an error variable *)
Definition end_wait (prefix : string) (m : M (W * option error) unit) : M W unit :=
  run_local None (attempt m (λ r,
    reason ← get_local;
    match r, reason with
    | inl _, None => mret tt
    | inl _, Some _ => throw (Errorf (prefix +:+ " Error:[<nil>] Reason:[" +:+ show_err reason +:+ "]"))
    | inr err, _ => throw (Errorf (prefix +:+ " Error:[" +:+ Error err +:+ "] Reason:[" +:+ show_err reason +:+ "]"))
    end)).

(** ** Backups *)

(** The closures of WaitForBackupCompletion and WaitForBackupPartialCompletion *)
Definition backup_completion_task (good bad : list Z) (goal : string) (ctx : Ctx) (req : Request Body)
    : M (W * option error) (task_result unit) :=
  re ← up (m_Inspect (manager Backup) ctx req);
  match re.2 with
  | Some err => mret (Retry err)
  | None =>
      o ← lift (the_object re.1);
      let st := GetStatus o in
      if decide (st ∈ good) then mret (Done tt)
      else if decide (st ∈ bad) then
        let backupError := Errorf ("backup [" +:+ Req_Name req +:+ "] is in [" +:+ Backup_String st +:+
          "] state. reason: [" +:+ GetReason o +:+ "]") in
        _ ← put_local (Some backupError);
        mret (Stop backupError)
      else mret (Retry (Errorf ("backup [" +:+ Req_Name req +:+ "] is in [" +:+ Backup_String st +:+
             "] state. Waiting to become " +:+ goal)))
  end.

Definition WaitForBackupCompletion (ctx : Ctx) (backupName orgID : string) (timeout timeBeforeRetry : Z)
    : M W unit :=
  backupUID ← GetBackupUID pages ctx backupName orgID;
  end_wait "failed to wait for backup."
    (DoRetryWithTimeout
       (backup_completion_task [StatusInfo_Success] ended_badly "Complete" ctx (request backupName backupUID orgID))
       timeout timeBeforeRetry).

Definition WaitForBackupPartialCompletion (ctx : Ctx) (backupName orgID : string) (timeout timeBeforeRetry : Z)
    : M W unit :=
  backupUID ← GetBackupUID pages ctx backupName orgID;
  end_wait "failed to wait for backup."
    (DoRetryWithTimeout
       (backup_completion_task [StatusInfo_PartialSuccess] (ended_badly ++ [StatusInfo_Success]) "Partial Complete"
          ctx (request backupName backupUID orgID))
       timeout timeBeforeRetry).

(** The closure of WaitForBackupDeletion *)
Definition backup_deletion_task (ctx : Ctx) (req : Request Body) : M (W * option error) (task_result unit) :=
  re ← up (m_Inspect (manager Backup) ctx req);
  let in_state := λ st, "backup [" +:+ Req_Name req +:+ "] is in [" +:+ Backup_String st +:+ "] state" in
  match re.2 with
  | None =>
      o ← lift (the_object re.1);
      mret (Retry (Errorf (in_state (GetStatus o))))
  | Some err =>
      if Contains (Error err) "object not found" then mret (Done tt)
      else
        match re.1 with
        | None => mret (Done tt)
        | Some _ =>
            o ← lift (the_object re.1);
            let st := GetStatus o in
            if decide (st = StatusInfo_Deleting ∨ st = StatusInfo_DeletePending) then
              mret (Retry (Errorf (in_state st +:+ ". Waiting to become Complete")))
            else if decide (st ∈ ended_badly) then
              _ ← put_local (Some (Errorf (in_state st))); mret (Stop (Errorf (in_state st)))
            else mret (Done tt)
        end
  end.

(** The end of a wait that returns nil whenever the engine does *)
Definition end_deletion (prefix : string) (m : M (W * option error) unit) : M W unit :=
  run_local None (attempt m (λ r,
    match r with
    | inl _ => mret tt
    | inr err =>
        reason ← get_local;
        throw (Errorf (prefix +:+ " Error:[" +:+ Error err +:+ "] Reason:[" +:+ show_err reason +:+ "]"))
    end)).

(** An error of the lookup that is not "not found" leaves the uid empty. *)
Definition WaitForBackupDeletion (ctx : Ctx) (backupName orgID : string) (timeout timeBeforeRetry : Z) : M W unit :=
  attempt (GetBackupUID pages ctx backupName orgID) (λ r,
    let go := λ backupUID,
      end_deletion "failed to wait for backup deletion."
        (DoRetryWithTimeout (backup_deletion_task ctx (request backupName backupUID orgID)) timeout timeBeforeRetry) in
    match r with
    | inr err =>
        if Contains (Error err) ("backup with name '" +:+ backupName +:+ "' not found for org '" +:+ orgID +:+ "'")
        then mret tt else go ""
    | inl backupUID => go backupUID
    end).

Definition delete_pending_task (ctx : Ctx) (req : Request Body) : M (W * option error) (task_result unit) :=
  re ← up (m_Inspect (manager Backup) ctx req);
  match re with
  | (_, Some err) => mret (Retry err)
  | (None, None) => mret (Done tt)
  | (Some _, None) =>
      o ← lift (the_object re.1);
      if decide (GetStatus o = StatusInfo_DeletePending) then mret (Done tt)
      else mret (Retry (Errorf ("backup [" +:+ Req_Name req +:+ "] is in [" +:+ Backup_String (GetStatus o) +:+
             "] state. Waiting to transition to delete pending")))
  end.

Definition WaitForDeletePending (ctx : Ctx) (backupName orgID : string) (timeout timeBeforeRetry : Z) : M W unit :=
  backupUID ← GetBackupUID pages ctx backupName orgID;
  end_deletion "failed to transition to delete pending."
    (DoRetryWithTimeout (delete_pending_task ctx (request backupName backupUID orgID)) timeout timeBeforeRetry).

(** The closures of WaitForBackupRunning and WaitForRestoreRunning.  The last
    branch answers [nil, true, nil]: no error, so the engine ends. *)
Definition running_task (f : Family) (what : string) (show : Z → string) (ctx : Ctx) (req : Request Body)
    : M (W * option error) (task_result unit) :=
  re ← up (m_Inspect (manager f) ctx req);
  match re.2 with
  | Some err => mret (Retry err)
  | None =>
      o ← lift (the_object re.1);
      let st := GetStatus o in
      if decide (st = StatusInfo_InProgress) then mret (Done tt)
      else if decide (st ∈ ended_badly) then
        let backupErr := Errorf (what +:+ " [" +:+ Req_Name req +:+ "] is in [" +:+ show st +:+ "] state") in
        _ ← put_local (Some backupErr);
        mret (Stop backupErr)
      else mret (Done tt)
  end.

Definition WaitForBackupRunning (ctx : Ctx) (req : Request Body) (timeout retryInterval : Z) : M W unit :=
  end_wait "failed to wait for running start."
    (DoRetryWithTimeout (running_task Backup "backup" Backup_String ctx req) timeout retryInterval).

Definition WaitForRestoreRunning (ctx : Ctx) (req : Request Body) (timeout retryInterval : Z) : M W unit :=
  end_wait "failed to wait for running start."
    (DoRetryWithTimeout (running_task Restore "restore" Restore_String ctx req) timeout retryInterval).

(** ** Restores *)

Definition restore_deletion_task (ctx : Ctx) (req : Request Body) : M (W * option error) (task_result unit) :=
  re ← up (m_Inspect (manager Restore) ctx req);
  let in_state := λ st, "restore [" +:+ Req_Name req +:+ "] is in [" +:+ Restore_String st +:+ "] state" in
  match re with
  | (_, None) =>
      o ← lift (the_object re.1);
      mret (Retry (Errorf (in_state (GetStatus o))))
  | (None, Some _) => mret (Done tt)
  | (Some _, Some _) =>
      o ← lift (the_object re.1);
      let st := GetStatus o in
      if decide (st = StatusInfo_Deleting) then
        mret (Retry (Errorf (in_state st +:+ ". Waiting to become Complete")))
      else if decide (st ∈ ended_badly) then
        _ ← put_local (Some (Errorf (in_state st))); mret (Stop (Errorf (in_state st)))
      else mret (Done tt)
  end.

Definition WaitForRestoreDeletion (ctx : Ctx) (restoreName orgID : string) (timeout timeBeforeRetry : Z) : M W unit :=
  end_deletion "failed to wait for restore deletion."
    (DoRetryWithTimeout (restore_deletion_task ctx (request restoreName "" orgID)) timeout timeBeforeRetry).

Definition restore_completion_task (ctx : Ctx) (req : Request Body) : M (W * option error) (task_result unit) :=
  re ← up (m_Inspect (manager Restore) ctx req);
  match re.2 with
  | Some err => mret (Retry err)
  | None =>
      o ← lift (the_object re.1);
      let st := GetStatus o in
      if decide (st = StatusInfo_Success ∨ st = StatusInfo_PartialSuccess) then mret (Done tt)
      else if decide (st ∈ ended_badly) then
        let restoreError := Errorf ("restore [" +:+ Req_Name req +:+ "] is in [" +:+ Restore_String st +:+
          "] state. Reason: [" +:+ GetReason o +:+ "]") in
        _ ← put_local (Some restoreError);
        mret (Stop restoreError)
      else mret (Retry (Errorf ("restore [" +:+ Req_Name req +:+ "] is in [" +:+ Restore_String st +:+
             "] state. Waiting to become Complete")))
  end.

Definition WaitForRestoreCompletion (ctx : Ctx) (restoreName orgID : string) (timeout timeBeforeRetry : Z)
    : M W unit :=
  end_wait "failed to wait for restore to complete."
    (DoRetryWithTimeout (restore_completion_task ctx (request restoreName "" orgID)) timeout timeBeforeRetry).

(** ** Clusters and backup locations *)

Definition cluster_deletion_task (ctx : Ctx) (req : Request Body) : M W (task_result unit) :=
  re ← m_Inspect (manager Cluster) ctx req;
  match re.2 with
  | None =>
      o ← lift (the_object re.1);
      mret (Retry (Errorf ("cluster [" +:+ Req_Name req +:+ "] is in [" +:+
        enum_String Cluster_Status_name (GetStatus o) +:+ "] state. Waiting to become complete")))
  | Some err =>
      if decide (status_code err = code_NotFound) then mret (Done tt)
      else mret (Stop (Errorf ("Fetching cluster[" +:+ Req_Name req +:+ "] failed with err: " +:+ Error err)))
  end.

Definition wait_cluster_deletion (ctx : Ctx) (req : Request Body) (timeout timeBeforeRetry : Z) : M W unit :=
  wrap_err (λ e, Errorf ("failed to wait for cluster deletion. Error:[" +:+ Error e +:+ "]"))
    (DoRetryWithTimeout (cluster_deletion_task ctx req) timeout timeBeforeRetry).

Definition WaitForClusterDeletion (ctx : Ctx) (clusterName orgID : string) (timeout timeBeforeRetry : Z) : M W unit :=
  wait_cluster_deletion ctx (request clusterName "" orgID) timeout timeBeforeRetry.

Definition WaitForClusterDeletionWithUID (ctx : Ctx) (clusterName clusterUid orgID : string)
    (timeout timeBeforeRetry : Z) : M W unit :=
  wait_cluster_deletion ctx (request clusterName clusterUid orgID) timeout timeBeforeRetry.

(** The status of a location is read through getters that accept nil. *)
Definition location_status (resp : option (option Object)) : Z := from_option GetStatus 0 (mjoin resp).

Definition location_deletion_task (ctx : Ctx) (req : Request Body) : M W (task_result unit) :=
  re ← m_Inspect (manager BackupLocation) ctx req;
  let st := location_status re.1 in
  let shown := enum_String BackupLocation_Status_name st in
  match re with
  | (_, None) => mret (Retry (Errorf ("backup location [" +:+ Req_Name req +:+ "] is in [" +:+ shown +:+ "] state")))
  | (None, Some _) => mret (Done tt)
  | (Some _, Some _) =>
      if decide (st = StatusInfo_Invalid)
      then mret (Stop (Errorf ("backup location is [" +:+ Req_Name req +:+ "] is in [" +:+ shown +:+ "] state")))
      else mret (Done tt)
  end.

Definition WaitForBackupLocationDeletion (ctx : Ctx) (backupLocationName UID orgID : string)
    (timeout timeBeforeRetry : Z) : M W unit :=
  wrap_err (λ e, Errorf ("failed to wait for backup location deletion. Error:[" +:+ Error e +:+ "]"))
    (DoRetryWithTimeout (location_deletion_task ctx (request backupLocationName UID orgID)) timeout timeBeforeRetry).

(** ** Schedules *)

(** The loop over the backups of the listing *)
Fixpoint backups_done (l : list Object) : task_result unit :=
  match l with
  | [] => Done tt
  | o :: l' =>
      let st := GetStatus o in
      if decide (st = StatusInfo_Success ∨ st = StatusInfo_PartialSuccess) then backups_done l'
      else if decide (st ∈ ended_badly) then
        Stop (Errorf ("backup[" +:+ GetName o +:+ "] is in [" +:+ Backup_String st +:+ "] state. Reason: [" +:+
          GetReason o +:+ "]"))
      else Retry (Errorf ("backup [" +:+ GetName o +:+ "] is in [" +:+ Backup_String st +:+
             "] state. Waiting to become completed"))
  end.

Definition n_backups_task (ctx : Ctx) (orgID : string) (count : Z) : M W (task_result unit) :=
  attempt (enumerate Backup ctx {| Enum_OrgId := orgID;
             Enum_Options := Some {| MaxObjects := u64 count; ObjectIndex := 0 |} |}) (λ r,
    match r with
    | inr err => mret (Retry err)
    | inl resp =>
        let n := Z.of_nat (length (Objects resp)) in
        if decide (n < count)
        then mret (Retry (Errorf ("waiting for request number of backup. Current[" +:+ Itoa n +:+
               "] and requested[" +:+ Itoa count +:+ "]")))
        else mret (backups_done (Objects resp))
    end).

Definition BackupScheduleWaitForNBackupsCompletion (ctx : Ctx) (name orgID : string) (count : Z)
    (timeout timeBeforeRetry : Z) : M W unit :=
  wrap_err (λ e, Errorf ("failed to wait for backupschedule. Error:[" +:+ Error e +:+ "]"))
    (DoRetryWithTimeout (n_backups_task ctx orgID count) timeout timeBeforeRetry).

Definition GetKubernetesRestConfig (kubeconfig : string) : outcome string :=
  if decide (kubeconfig = "") then Err (Errorf "empty cluster kubeconfig")
  else match base64_Decode kubeconfig with
       | Ok config => RESTConfigFromKubeConfig config
       | Err e => Err (Errorf ("unable to decode account details " +:+ Error e))
       | o => o
       end.

Definition GetKubernetesInstance (kubeconfig : string) : M W unit :=
  client ← lift (GetKubernetesRestConfig kubeconfig);
  _ ← wrap_err (λ e, Errorf ("error initializing stork client instance: " +:+ Error e)) (stork_NewForConfig client);
  _ ← wrap_err (λ e, Errorf ("error initializing core client instance: " +:+ Error e)) (core_NewForConfig client);
  wrap_err (λ e, Errorf ("error getting cluster version: " +:+ Error e)) core_GetVersion.

(** The loop that collects all backups, batches of ten, until the service says
    it is complete *)
Fixpoint count_backups (batches : nat) (ctx : Ctx) (orgID : string) (index count : Z) : M W Z :=
  match batches with
  | O => lift Diverge
  | S batches' =>
      resp ← enumerate Backup ctx {| Enum_OrgId := orgID;
               Enum_Options := Some {| MaxObjects := 10; ObjectIndex := index |} |};
      let n := Z.of_nat (length (Objects resp)) in
      if (Complete resp : bool) then mret (count + n)
      else count_backups batches' ctx orgID (u64 (index + n)) (count + n)
  end.

(** [err] of a step of the closure is an error to retry. *)
Definition or_retry {V A} (m : M V A) (k : A → M V (task_result unit)) : M V (task_result unit) :=
  attempt m (λ r, match r with inl a => k a | inr err => mret (Retry err) end).

Definition schedule_deletion_task (ctx : Ctx) (req : Request Body) (namespace orgID kubeconfig : string)
    : M W (task_result unit) :=
  re ← m_Inspect (manager BackupSchedule) ctx req;
  match re with
  | (_, None) =>
      o ← lift (the_object re.1);
      mret (Retry (Errorf ("backupSchedule [" +:+ Req_Name req +:+ "] is in [" +:+
        enum_String BackupSchedule_Status_name (GetStatus o) +:+ "] state")))
  | (None, Some _) => mret (Done tt)
  | (Some _, Some _) =>
      or_retry (count_backups pages ctx orgID 0 0) (λ n,
      if decide (n ≠ 0) then mret (Retry (Errorf ("[" +:+ Itoa n +:+ "] number of backups remain undeleted")))
      else
        or_retry (GetKubernetesInstance kubeconfig) (λ _,
        or_retry (ListApplicationBackups namespace) (λ crs,
        if decide (crs ≠ 0) then mret (Retry (Errorf ("[" +:+ Itoa crs +:+ "] number of backup CR remain undeleted")))
        else mret (Done tt))))
  end.

Definition WaitForBackupScheduleDeletion (ctx : Ctx) (backupScheduleName namespace orgID kubeconfig : string)
    (timeout timeBeforeRetry : Z) : M W unit :=
  wrap_err (λ e, Errorf ("failed to wait for backup schedule deletion. Error:[" +:+ Error e +:+ "]"))
    (DoRetryWithTimeout
       (schedule_deletion_task ctx (request backupScheduleName "" orgID) namespace orgID kubeconfig)
       timeout timeBeforeRetry).

(** ** Licences *)

Definition license_task (ctx : Ctx) (orgID : string) : M (W * option error) (task_result unit) :=
  or_retry (up (license_FeatureNames ctx orgID)) (λ names,
    let fail := λ e, _ ← put_local (Some e); mret (Stop e) in
    match names with
    | [] => fail (Errorf ("failed to activate license for orgID " +:+ orgID))
    | _ =>
        if existsb (λ name, negb (bool_decide (name = licFeatureName))) names
        then fail (Errorf "found invalid feature name")
        else mret (Done tt)
    end).

Definition WaitForLicenseActivation (ctx : Ctx) (orgID : string) (timeout retryInterval : Z) : M W unit :=
  end_wait "failed to wait for license activation."
    (DoRetryWithTimeout (license_task ctx orgID) timeout retryInterval).

(** ** Reading backups and schedules *)

(** [GetStatus().Status] reads through a pointer. *)
Definition GetBackupStatusWithReason (backupName : string) (ctx : Ctx) (orgID : string) : M W (Z * string) :=
  backupUid ← GetBackupUID pages ctx backupName orgID;
  resp ← InspectBackup pages ctx (request backupName backupUid orgID);
  o ← lift (the_object resp);
  st ← lift (deref (Obj_Status o));
  mret (Info_Status st, Info_Reason st).

Definition GetAllScheduleBackupNames (ctx : Ctx) (scheduleName orgID : string) : M W (list string) :=
  resp ← InspectBackupSchedule pages ctx (request scheduleName "" orgID);
  o ← lift (the_object resp);
  mret (default [] (Obj_BackupStatus o !! "interval")).

Fixpoint backup_uids (ctx : Ctx) (orgID : string) (names : list string) : M W (list string) :=
  match names with
  | [] => mret []
  | name :: names' => u ← GetBackupUID pages ctx name orgID; us ← backup_uids ctx orgID names'; mret (u :: us)
  end.

Definition GetAllScheduleBackupUIDs (ctx : Ctx) (scheduleName orgID : string) : M W (list string) :=
  names ← GetAllScheduleBackupNames ctx scheduleName orgID;
  backup_uids ctx orgID names.

(** The closure of GetVolumeBackupIDs; the volumes read last are a variable of
    the enclosing function. *)
Definition stork_task (crName namespace : string) : M (W * list BackupVolume) (task_result unit) :=
  or_retry (up (GetApplicationBackup crName namespace)) (λ volumes,
    _ ← put_local volumes;
    if negb (bool_decide (volumes = [])) && forallb (λ v, Contains (BV_BackupID v) "/") volumes
    then mret (Done tt) else mret (Retry (Errorf "Volume backup has not started yet"))).

Definition GetVolumeBackupIDs (ctx : Ctx) (backupName namespace kubeconfig orgID : string) : M W (list string) :=
  _ ← GetKubernetesInstance kubeconfig;
  backupUUID ← GetBackupUID pages ctx backupName orgID;
  re ← m_Inspect (manager Backup) ctx (request backupName backupUUID orgID);
  match re.2 with
  | Some err => throw err
  | None =>
      if decide (String.length backupUUID < 7)%nat then panic "slice bounds out of range"
      else
        let crName := backupName +:+ "-" +:+ String.substring 0 7 backupUUID in
        run_local [] (
          _ ← DoRetryWithTimeout (stork_task crName namespace) (5 * Minute) (15 * Second);
          volumes ← get_local;
          if decide (volumes = []) then
            throw (Errorf ("no volumes are being backed up by backup [" +:+ backupName +:+
              "]/applicationBackup CR [" +:+ crName +:+ "]"))
          else mret (BV_BackupID <$> keep (λ v, bool_decide (BV_Status v = "InProgress") &&
                                              bool_decide (BV_BackupID v ≠ "")) volumes))
  end.

(** ** Policies and rules *)

Definition CreateIntervalSchedulePolicy (retain min incrCount : Z) : SchedulePolicyInfo :=
  IntervalPolicy retain min incrCount.
Definition CreateDailySchedulePolicy (retain : Z) (time : string) (incrCount : Z) : SchedulePolicyInfo :=
  DailyPolicy retain time incrCount.
Definition CreateWeeklySchedulePolicy (retain : Z) (day time : string) (incrCount : Z) : SchedulePolicyInfo :=
  WeeklyPolicy retain day time incrCount.
Definition CreateMonthlySchedulePolicy (retain date : Z) (time : string) (incrCount : Z) : SchedulePolicyInfo :=
  MonthlyPolicy retain date time incrCount.

Definition admin_ctx : M W Ctx :=
  wrap_err (λ e, Errorf ("Failed to fetch px-central-admin ctx: [" +:+ Error e +:+ "]")) GetAdminCtxFromSecret.

Definition BackupSchedulePolicy (name uid orgId : string) (info : SchedulePolicyInfo) : M W unit :=
  ctx ← admin_ctx;
  _ ← wrap_err (λ e, Errorf ("Error in creating schedule policy is +" +:+ Error e))
        (m_Create (manager SchedulePolicy) ctx
           {| Req_Name := name; Req_Uid := uid; Req_OrgId := orgId; Req_Body := Some (policy_body info) |});
  mret tt.

(** Nil metadata of a policy is a panic. *)
Fixpoint policy_map (l : list Object) (m : gmap string string) : outcome (gmap string string) :=
  match l with
  | [] => Ok m
  | o :: l' => md ← deref (Obj_Metadata o); policy_map l' (<[Meta_Name md := Meta_Uid md]> m)
  end.

Fixpoint delete_policies (ctx : Ctx) (orgID : string) (uids : gmap string string) (policyList : list string)
    : M W unit :=
  match policyList with
  | [] => mret tt
  | name :: rest =>
      _ ← wrap_err (λ e, Errorf ("Failed to delete schedule policy " +:+ name +:+ " with error [" +:+ Error e +:+ "]"))
            (DeleteSchedulePolicy ctx (request name (default "" (uids !! name)) orgID));
      delete_policies ctx orgID uids rest
  end.

Definition DeleteBackupSchedulePolicy (orgID : string) (policyList : list string) : M W unit :=
  ctx ← admin_ctx;
  resp ← wrap_err (λ e, Errorf ("Failed to get list of schedule policies with error: [" +:+ Error e +:+ "]"))
           (EnumerateSchedulePolicy ctx (whole orgID));
  uids ← lift (policy_map (Objects resp) ∅);
  delete_policies ctx orgID uids policyList.

Definition DeleteRuleForBackup (orgID ruleName : string) : M W unit :=
  ctx ← admin_ctx;
  ruleUid ← wrap_err (λ e, Errorf ("Failed to get rule UID: [" +:+ Error e +:+ "]")) (GetRuleUid orgID ctx ruleName);
  if decide (ruleUid = "") then throw (Errorf "Unable to fetch rule Uid")
  else
    _ ← wrap_err (λ e, Errorf ("Failed to delete rule: [" +:+ Error e +:+ "]"))
          (DeleteRule ctx (request ruleName ruleUid orgID));
    mret tt.
End waits.

(** [AppParameters]: the lists of the rule of an application, before or after a
    backup *)
Record RuleParams := {
  action_list : list string;
  pod_selector_list : list string;
  background : list string;
  runInSinglePod : list string;
  container : list string;
}.

Definition cassandra_rule (actions : list string) : RuleParams :=
  {| action_list := actions; pod_selector_list := ["app=cassandra"; "app=cassandra1"];
     background := ["false"; "false"]; runInSinglePod := ["false"; "false"]; container := [""; ""] |}.

Definition single_rule (action selector bg : string) : RuleParams :=
  {| action_list := [action]; pod_selector_list := [selector]; background := [bg];
     runInSinglePod := ["false"]; container := [""; ""] |}.

Definition postgres_action : string :=
  "PGPASSWORD=$POSTGRES_PASSWORD; psql -U " +:+ quoted "$POSTGRES_USER" +:+ " -c " +:+ quoted "CHECKPOINT" +:+ ";".

Definition AppParameters (appName : string) (pre : bool) : option RuleParams :=
  if decide (appName = "cassandra") then
    Some (cassandra_rule (if pre then ["nodetool flush -- keyspace1;"; "echo 'test"]
                          else ["nodetool verify -- keyspace1;"; "nodetool verify -- keyspace1;"]))
  else if decide (appName = "postgres" ∨ appName = "postgres-backup") then
    if pre then Some (single_rule postgres_action "app=postgres" "false") else None
  else if decide (appName = "mysql-backup") then
    Some (if pre
          then single_rule
            "mysql --user=root --password=$MYSQL_ROOT_PASSWORD -Bse 'FLUSH TABLES WITH READ LOCK;system ${WAIT_CMD};'"
            "app=mysql" "true"
          else single_rule "mysql --user=root --password=$MYSQL_ROOT_PASSWORD -Bse 'FLUSH LOGS; UNLOCK TABLES;'"
            "app=mysql" "false")
  else None.

Definition rule_item (p : RuleParams) (i : Z) : outcome RuleItem :=
  selector ← index (pod_selector_list p) i;
  key ← index (Split selector "=") 0;
  value ← index (Split selector "=") 1;
  action ← index (action_list p) i;
  bg ← index (background p) i;
  single ← index (runInSinglePod p) i;
  c ← index (container p) i;
  Ok {| PodSelector := {[key := value]}; Action_Value := action; Action_Background := ParseBool bg;
        Action_RunInSinglePod := ParseBool single; Item_Container := c |}.

(** The loop over the actions, from the index [i] on *)
Fixpoint rule_items (p : RuleParams) (n : nat) (i : Z) : outcome (list RuleItem) :=
  match n with
  | O => Ok []
  | S n' => item ← rule_item p i; items ← rule_items p n' (i + 1); Ok (item :: items)
  end.

Definition app_rules (appName prePostFlag : string) : outcome (list RuleItem) :=
  match AppParameters appName (bool_decide (prePostFlag = "pre")) with
  | Some p => rule_items p (length (action_list p)) 0
  | None => Ok []
  end.

Section rules.
Context {W Body : Type} `{Clock W} `{BackupApi W Body} `{BackupEnv W Body}.

(** The results are returned together.  The error of EnumerateRule is not looked
    at: its nil response is read. *)
Definition CreateRuleForBackup (appName orgID prePostFlag : string) : M W (bool * string * option error) :=
  rules ← lift (app_rules appName prePostFlag);
  match rules with
  | [] => mret (true, "", None)
  | _ =>
      timestamp ← (λ w, (Ok (unix_now w), w));
      let ruleName := appName +:+ "-" +:+ prePostFlag +:+ "-rule-" +:+ Itoa timestamp in
      let fail := λ msg err, mret (false, ruleName, Some (Errorf (msg +:+ Error err +:+ "]"))) in
      attempt GetAdminCtxFromSecret (λ r,
      match r with
      | inr err => fail "Failed to fetch px-central-admin ctx: [" err
      | inl ctx =>
          attempt (m_Create (manager Rule) ctx {| Req_Name := ruleName; Req_Uid := ""; Req_OrgId := orgID;
                     Req_Body := Some (rules_body rules) |}) (λ r,
          match r with
          | inr err => fail "Failed to create backup rules: [" err
          | inl _ =>
              attempt (EnumerateRule ctx (whole orgID)) (λ r,
              match r with
              | inr _ => panic "invalid memory address or nil pointer dereference"
              | inl resp =>
                  found ← lift (find_metadata ruleName (Objects resp));
                  attempt (InspectRule ctx (request ruleName (from_option Meta_Uid "" found) orgID)) (λ r,
                  match r with
                  | inr err => fail "Failed to validate the created rule with Error: [" err
                  | inl _ => mret (true, ruleName, None)
                  end)
              end)
          end)
      end)
  end.
End rules.

(** ** What the waits guarantee *)

Section wait_theorems.
Context {W Body : Type} `{Clock W} `{BackupApi W Body} `{BackupEnv W Body}.
Context (pages : nat).

Lemma end_wait_Ok_inv prefix (m : M (W * option error) unit) w w' :
  end_wait prefix m w = (Ok tt, w') → ∃ u l, m (w, None) = (Ok u, (w', l)).
Proof.
  intros He. apply run_local_inv in He as [l He]. unfold attempt in He.
  destruct (m (w, None)) as [[u|e|s|] [w1 l1]]; try done; rewrite bind_get_local in He;
    destruct l1; unfold throw, mret, M_ret in He; simplify_eq; eauto.
Qed.

Lemma end_deletion_Ok_inv prefix (m : M (W * option error) unit) w w' :
  end_deletion prefix m w = (Ok tt, w') → ∃ u l, m (w, None) = (Ok u, (w', l)).
Proof.
  intros He. apply run_local_inv in He as [l He]. unfold attempt in He.
  destruct (m (w, None)) as [[u|e|s|] [w1 l1]]; try done; unfold mret, M_ret in He; simplify_eq; eauto.
Qed.

(** The object an answer of the service shows *)
Definition shows (f : Family) (ctx : Ctx) (r : Request Body) (w w' : W) (o : Object) : Prop :=
  m_Inspect (manager f) ctx r w = (Ok (Some (Some o), None), w').

Lemma backup_completion_Done good bad goal ctx req wl wl' :
  backup_completion_task good bad goal ctx req wl = (Ok (Done tt), wl') →
  ∃ o, shows Backup ctx req wl.1 wl'.1 o ∧ GetStatus o ∈ good.
Proof.
  destruct wl as [w l], wl' as [w' l']. unfold backup_completion_task. intros Ht.
  apply bind_Ok_inv in Ht as ([resp e] & [w1 l1] & Hi & Ht). apply up_Ok_inv in Hi as [Hi ->].
  cbn [fst snd] in *. destruct e as [e|]; [done|].
  apply bind_Ok_inv in Ht as (o & wl2 & Ho & Ht). unfold lift, the_object in Ho.
  destruct resp as [[o'|]|]; simplify_eq/=. case_decide.
  - unfold mret, M_ret in Ht. simplify_eq. by exists o.
  - by case_decide.
Qed.

(** C34. A successful [WaitForBackupCompletion] ended on an inspection, by the uid
    the name was looked up to, that showed the backup with status Success. *)
Theorem WaitForBackupCompletion_success ctx backupName orgID timeout i w w' :
  WaitForBackupCompletion pages ctx backupName orgID timeout i w = (Ok tt, w') →
  ∃ backupUID w1 w2 o, GetBackupUID pages ctx backupName orgID w = (Ok backupUID, w1) ∧
    shows Backup ctx (request backupName backupUID orgID) w2 w' o ∧ GetStatus o = StatusInfo_Success.
Proof.
  intros Hw. apply bind_Ok_inv in Hw as (u & w1 & Hu & Hw).
  apply end_wait_Ok_inv in Hw as ([] & l & Hw). apply DoRetryWithTimeout_Ok_inv in Hw as ([w2 l2] & Ht).
  apply backup_completion_Done in Ht as (o & Ho & Hst). apply list_elem_of_singleton in Hst. by eauto 8.
Qed.

(** [WaitForBackupDeletion] takes any failure of an inspection for the deletion
    of the backup: the clients answer an error with a nil response, and a nil
    response ends the wait without error. *)
Theorem WaitForBackupDeletion_any_error `{!GrpcClients W Body} ctx backupName orgID timeout i w
    backupUID w1 resp e w2 :
  0 < timeout →
  GetBackupUID pages ctx backupName orgID w = (Ok backupUID, w1) →
  m_Inspect (manager Backup) ctx (request backupName backupUID orgID) w1 = (Ok (resp, Some e), w2) →
  WaitForBackupDeletion pages ctx backupName orgID timeout i w = (Ok tt, w2).
Proof.
  intros Hto Hu Hi. pose proof (inspect_nil _ _ _ _ _ _ _ Hi) as ->.
  unfold WaitForBackupDeletion, attempt. rewrite Hu. unfold end_deletion, run_local, attempt.
  rewrite (DoRetryWithTimeout_first _ _ _ (w1, None) tt (w2, None)); [done|done|].
  unfold backup_deletion_task, mbind, M_bind. rewrite up_eq, Hi. cbn [fst snd].
  by destruct (Contains _ _).
Qed.

(** [WaitForBackupRunning] does not wait: a backup that is pending, or in any
    other state that is not a failure, ends it without error at the first look. *)
Theorem WaitForBackupRunning_first_look ctx req timeout i w o w1 :
  0 < timeout → shows Backup ctx req w w1 o → GetStatus o ∉ ended_badly →
  WaitForBackupRunning ctx req timeout i w = (Ok tt, w1).
Proof.
  intros Hto Ho Hst. unfold shows in Ho. unfold WaitForBackupRunning, end_wait, run_local, attempt.
  rewrite (DoRetryWithTimeout_first _ _ _ (w, None) tt (w1, None)); [done|done|].
  unfold running_task, mbind, M_bind. rewrite up_eq, Ho. cbn [fst snd].
  unfold lift, the_object. simpl. case_decide; [done|]. by rewrite decide_False.
Qed.

Lemma backups_done_Done l :
  backups_done l = Done tt → Forall (λ o, GetStatus o = StatusInfo_Success ∨ GetStatus o = StatusInfo_PartialSuccess) l.
Proof.
  induction l as [|o l IH]; simpl; [constructor|]. case_decide; [|by case_decide]. constructor; [done|by apply IH].
Qed.

(** A successful [BackupScheduleWaitForNBackupsCompletion] saw a listing of at
    least [count] backups of the organisation, all of them complete, at least in
    part.  The name of the schedule has no influence on the wait. *)
Theorem BackupScheduleWaitForNBackupsCompletion_success ctx name orgID count timeout i w w' :
  BackupScheduleWaitForNBackupsCompletion ctx name orgID count timeout i w = (Ok tt, w') →
  (∃ w1 resp, enumerate Backup ctx {| Enum_OrgId := orgID;
       Enum_Options := Some {| MaxObjects := u64 count; ObjectIndex := 0 |} |} w1 = (Ok resp, w') ∧
     count <= Z.of_nat (length (Objects resp)) ∧
     Forall (λ o, GetStatus o = StatusInfo_Success ∨ GetStatus o = StatusInfo_PartialSuccess) (Objects resp)) ∧
  ∀ other, BackupScheduleWaitForNBackupsCompletion ctx other orgID count timeout i w = (Ok tt, w').
Proof.
  intros Hw. split; [|done]. apply wrap_err_Ok_inv, DoRetryWithTimeout_Ok_inv in Hw as (w1 & Ht).
  unfold n_backups_task, attempt in Ht. destruct (enumerate _ _ _ w1) as [[resp|e|s|] w2] eqn:E; try done.
  case_decide; [done|]. unfold mret, M_ret in Ht. simplify_eq.
  exists w1, resp. split_and!; [done|lia|by apply backups_done_Done].
Qed.
End wait_theorems.

(** The lists of [AppParameters] are long enough: for every application and
    either flag the loop of [CreateRuleForBackup] never indexes past a list. *)
Theorem app_rules_in_range appName prePostFlag :
  ∃ items, app_rules appName prePostFlag = Ok items ∧
    length items = match AppParameters appName (bool_decide (prePostFlag = "pre")) with
                   | Some p => length (action_list p) | None => O end.
Proof.
  unfold app_rules, AppParameters. generalize (bool_decide (prePostFlag = "pre")). intros pre.
  repeat case_decide; destruct pre; vm_compute; by eexists.
Qed.
