(* ===== verification/Keycloak.v ===== *)
(** drivers/backup/auth.go: users, groups and roles of px-backup, kept by a
    Keycloak server that is asked over HTTP.

    The functions are resumptions, because two of them run for many users or
    groups at once.  The package variable [PxCentralAdminPwd] is part of the world:
    the tests set it before the calls. *)

From Stdlib Require Import Ascii.
From S2P Require Import Prelude GoStrings Errors Effects Strconv GoJson GoNet Concur Task PxNodeOps Backup.

Module Keycloak.

Definition PxCentralAdminUser : string := "px-central-admin".
Definition PxCentralAdminSecretName : string := "px-central-admin".
Definition httpTimeout : Z := 1 * Minute.
Definition DefaultsecretName : string := "pxc-backup-secret".
Definition Issuer : string := "OIDC_ENDPOINT".
Definition KeycloakServiceName : string := "pxcentral-keycloak-http".
Definition AuthTokenType : string := "bearer".
Definition OrgToken : string := "PX_BACKUP_ORG_TOKEN".
Definition AdminTokenSecretName : string := "px-backup-admin-secret".
Definition defaultWaitTimeout : Z := 30 * Second.
Definition defaultWaitInterval : Z := 5 * Second.
Definition oidcSecretName : string := "SECRET_NAME".
Definition PxCentralUIURL : string := "PX_CENTRAL_UI_URL".
Definition pxbServiceName : string := "px-backup".

(** ** Representations

    A slice that is empty here is a nil slice, which is written as null: the only
    slices that are written hold an element or were never set. *)

Record tokenResponse := { AccessToken : string }.

Record RoleRespresentationComposite := { Client : gmap string string; Realm : list string }.

Record KeycloakRoleRepresentation := {
  role_ID : string;
  role_Name : string;
  role_Description : string;
  role_Composite : bool;
  role_ClientRole : bool;
  role_ContainerID : string;
  role_Attributes : gmap string string;
  role_Composites : RoleRespresentationComposite;
}.

Record KeycloakUserCredentials := { cred_Type : string; cred_Temporary : bool; cred_Value : string }.

Record KeycloakUserRepresentation := {
  user_ID : string;
  user_Name : string;
  user_FirstName : string;
  user_LastName : string;
  user_EmailVerified : bool;
  user_Enabled : bool;
  user_Email : string;
  user_Credentials : list KeycloakUserCredentials;
}.

Record RequiredActionProviderRepresentation := {
  req_Alias : string;
  req_Config : gmap string string;
  req_DefaultAction : bool;
  req_Enabled : bool;
  req_Name : string;
  req_Priority : Z;
  req_ProviderId : string;
}.

Record KeycloakGroupMemberRepresentation := {
  mem_ID : string;
  mem_CreatedTimestamp : Z;
  mem_Name : string;
  mem_Totp : bool;
  mem_FirstName : string;
  mem_LastName : string;
  mem_EmailVerified : bool;
  mem_Enabled : bool;
  mem_Email : string;
  mem_Credentials : list KeycloakUserCredentials;
  mem_DisableableCredentialTypes : list string;
  mem_RequiredActions : list RequiredActionProviderRepresentation;
  mem_NotBefore : Z;
}.

Record KeycloakGroupRepresentation := {
  group_Name : string;
  group_ID : string;
  group_Path : string;
  group_SubGroups : list string;
}.

Record KeycloakGroupAdd := { add_Name : string }.

Record KeycloakGroupToUser := { to_UserID : string; to_GroupID : string; to_Realm : string }.

Record KeycloakRole := { new_Name : string; new_Description : string; new_Attributes : list string }.

(** *** Writing: the fields in order, under the keys of their tags *)

Definition enc_slice {A} (enc : A → json) (l : list A) : json :=
  match l with [] => JNull | _ => JArray (enc <$> l) end.

(** A map is written with its keys in order; a nil map as null *)
Definition enc_map (m : gmap string string) : json :=
  if decide (m = ∅) then JNull
  else JObject ((λ k, (k, JString (default "" (m !! k)))) <$> sort_Strings (map_to_list m).*1).

Definition enc_role (r : KeycloakRoleRepresentation) : json := JObject
  [("id", JString (role_ID r)); ("name", JString (role_Name r)); ("description", JString (role_Description r));
   ("composite", JBool (role_Composite r)); ("clientRole", JBool (role_ClientRole r));
   ("containerId", JString (role_ContainerID r)); ("attributes", enc_map (role_Attributes r));
   ("composites", JObject [("client", enc_map (Client (role_Composites r)));
                           ("realm", enc_slice JString (Realm (role_Composites r)))])].

Definition enc_credentials (c : KeycloakUserCredentials) : json := JObject
  [("type", JString (cred_Type c)); ("temporary", JBool (cred_Temporary c)); ("value", JString (cred_Value c))].

Definition enc_user (u : KeycloakUserRepresentation) : json := JObject
  [("id", JString (user_ID u)); ("username", JString (user_Name u)); ("firstName", JString (user_FirstName u));
   ("lastName", JString (user_LastName u)); ("emailVerified", JBool (user_EmailVerified u));
   ("enabled", JBool (user_Enabled u)); ("email", JString (user_Email u));
   ("credentials", enc_slice enc_credentials (user_Credentials u))].

Definition enc_group_add (g : KeycloakGroupAdd) : json := JObject [("name", JString (add_Name g))].

Definition enc_group_to_user (d : KeycloakGroupToUser) : json := JObject
  [("userId", JString (to_UserID d)); ("groupId", JString (to_GroupID d)); ("realm", JString (to_Realm d))].

Definition enc_new_role (r : KeycloakRole) : json := JObject
  [("name", JString (new_Name r)); ("description", JString (new_Description r));
   ("attributes", enc_slice JString (new_Attributes r))].

(** *** Reading *)

Definition no_token : tokenResponse := {| AccessToken := "" |}.
Definition dec_token : decoder tokenResponse := dec_struct
  [("access_token", into AccessToken (λ t _, {| AccessToken := t |}) dec_string)].

Definition no_composite : RoleRespresentationComposite := {| Client := ∅; Realm := [] |}.
Definition dec_composite : decoder RoleRespresentationComposite := dec_struct
  [("client", into Client (λ x c, {| Client := x; Realm := Realm c |}) (dec_map "" dec_string));
   ("realm", into Realm (λ x c, {| Client := Client c; Realm := x |}) (dec_slice "" dec_string))].

Definition no_role : KeycloakRoleRepresentation := Build_KeycloakRoleRepresentation "" "" "" false false "" ∅ no_composite.
Definition dec_role : decoder KeycloakRoleRepresentation := dec_struct
  [("id", into role_ID (λ x '(Build_KeycloakRoleRepresentation _ b c d e f g h), Build_KeycloakRoleRepresentation x b c d e f g h) dec_string);
   ("name", into role_Name (λ x '(Build_KeycloakRoleRepresentation a _ c d e f g h), Build_KeycloakRoleRepresentation a x c d e f g h) dec_string);
   ("description", into role_Description (λ x '(Build_KeycloakRoleRepresentation a b _ d e f g h), Build_KeycloakRoleRepresentation a b x d e f g h) dec_string);
   ("composite", into role_Composite (λ x '(Build_KeycloakRoleRepresentation a b c _ e f g h), Build_KeycloakRoleRepresentation a b c x e f g h) dec_bool);
   ("clientRole", into role_ClientRole (λ x '(Build_KeycloakRoleRepresentation a b c d _ f g h), Build_KeycloakRoleRepresentation a b c d x f g h) dec_bool);
   ("containerId", into role_ContainerID (λ x '(Build_KeycloakRoleRepresentation a b c d e _ g h), Build_KeycloakRoleRepresentation a b c d e x g h) dec_string);
   ("attributes", into role_Attributes (λ x '(Build_KeycloakRoleRepresentation a b c d e f _ h), Build_KeycloakRoleRepresentation a b c d e f x h) (dec_map "" dec_string));
   ("composites", into role_Composites (λ x '(Build_KeycloakRoleRepresentation a b c d e f g _), Build_KeycloakRoleRepresentation a b c d e f g x) dec_composite)].

Definition no_credentials : KeycloakUserCredentials := Build_KeycloakUserCredentials "" false "".
Definition dec_credentials : decoder KeycloakUserCredentials := dec_struct
  [("type", into cred_Type (λ x '(Build_KeycloakUserCredentials _ b c), Build_KeycloakUserCredentials x b c) dec_string);
   ("temporary", into cred_Temporary (λ x '(Build_KeycloakUserCredentials a _ c), Build_KeycloakUserCredentials a x c) dec_bool);
   ("value", into cred_Value (λ x '(Build_KeycloakUserCredentials a b _), Build_KeycloakUserCredentials a b x) dec_string)].

Definition no_user : KeycloakUserRepresentation := Build_KeycloakUserRepresentation "" "" "" "" false false "" [].
Definition dec_user : decoder KeycloakUserRepresentation := dec_struct
  [("id", into user_ID (λ x '(Build_KeycloakUserRepresentation _ b c d e f g h), Build_KeycloakUserRepresentation x b c d e f g h) dec_string);
   ("username", into user_Name (λ x '(Build_KeycloakUserRepresentation a _ c d e f g h), Build_KeycloakUserRepresentation a x c d e f g h) dec_string);
   ("firstName", into user_FirstName (λ x '(Build_KeycloakUserRepresentation a b _ d e f g h), Build_KeycloakUserRepresentation a b x d e f g h) dec_string);
   ("lastName", into user_LastName (λ x '(Build_KeycloakUserRepresentation a b c _ e f g h), Build_KeycloakUserRepresentation a b c x e f g h) dec_string);
   ("emailVerified", into user_EmailVerified (λ x '(Build_KeycloakUserRepresentation a b c d _ f g h), Build_KeycloakUserRepresentation a b c d x f g h) dec_bool);
   ("enabled", into user_Enabled (λ x '(Build_KeycloakUserRepresentation a b c d e _ g h), Build_KeycloakUserRepresentation a b c d e x g h) dec_bool);
   ("email", into user_Email (λ x '(Build_KeycloakUserRepresentation a b c d e f _ h), Build_KeycloakUserRepresentation a b c d e f x h) dec_string);
   ("credentials", into user_Credentials (λ x '(Build_KeycloakUserRepresentation a b c d e f g _), Build_KeycloakUserRepresentation a b c d e f g x)
      (dec_slice no_credentials dec_credentials))].

Definition no_group : KeycloakGroupRepresentation := Build_KeycloakGroupRepresentation "" "" "" [].
Definition dec_group : decoder KeycloakGroupRepresentation := dec_struct
  [("name", into group_Name (λ x '(Build_KeycloakGroupRepresentation _ b c d), Build_KeycloakGroupRepresentation x b c d) dec_string);
   ("id", into group_ID (λ x '(Build_KeycloakGroupRepresentation a _ c d), Build_KeycloakGroupRepresentation a x c d) dec_string);
   ("path", into group_Path (λ x '(Build_KeycloakGroupRepresentation a b _ d), Build_KeycloakGroupRepresentation a b x d) dec_string);
   ("subGroups", into group_SubGroups (λ x '(Build_KeycloakGroupRepresentation a b c _), Build_KeycloakGroupRepresentation a b c x)
      (dec_slice "" dec_string))].

Definition no_action : RequiredActionProviderRepresentation :=
  Build_RequiredActionProviderRepresentation "" ∅ false false "" 0 "".
Definition dec_action : decoder RequiredActionProviderRepresentation := dec_struct
  [("alias", into req_Alias (λ x '(Build_RequiredActionProviderRepresentation _ b c d e f g), Build_RequiredActionProviderRepresentation x b c d e f g) dec_string);
   ("config", into req_Config (λ x '(Build_RequiredActionProviderRepresentation a _ c d e f g), Build_RequiredActionProviderRepresentation a x c d e f g) (dec_map "" dec_string));
   ("defaultAction", into req_DefaultAction (λ x '(Build_RequiredActionProviderRepresentation a b _ d e f g), Build_RequiredActionProviderRepresentation a b x d e f g) dec_bool);
   ("enabled", into req_Enabled (λ x '(Build_RequiredActionProviderRepresentation a b c _ e f g), Build_RequiredActionProviderRepresentation a b c x e f g) dec_bool);
   ("name", into req_Name (λ x '(Build_RequiredActionProviderRepresentation a b c d _ f g), Build_RequiredActionProviderRepresentation a b c d x f g) dec_string);
   ("priority", into req_Priority (λ x '(Build_RequiredActionProviderRepresentation a b c d e _ g), Build_RequiredActionProviderRepresentation a b c d e x g) (dec_int 32));
   ("providerId", into req_ProviderId (λ x '(Build_RequiredActionProviderRepresentation a b c d e f _), Build_RequiredActionProviderRepresentation a b c d e f x) dec_string)].

Definition no_member : KeycloakGroupMemberRepresentation :=
  Build_KeycloakGroupMemberRepresentation "" 0 "" false "" "" false false "" [] [] [] 0.
Definition dec_member : decoder KeycloakGroupMemberRepresentation := dec_struct
  [("id", into mem_ID (λ x '(Build_KeycloakGroupMemberRepresentation _ b c d e f g h i j k l m),
      Build_KeycloakGroupMemberRepresentation x b c d e f g h i j k l m) dec_string);
   ("createdTimestamp", into mem_CreatedTimestamp (λ x '(Build_KeycloakGroupMemberRepresentation a _ c d e f g h i j k l m),
      Build_KeycloakGroupMemberRepresentation a x c d e f g h i j k l m) (dec_int 64));
   ("username", into mem_Name (λ x '(Build_KeycloakGroupMemberRepresentation a b _ d e f g h i j k l m),
      Build_KeycloakGroupMemberRepresentation a b x d e f g h i j k l m) dec_string);
   ("totp", into mem_Totp (λ x '(Build_KeycloakGroupMemberRepresentation a b c _ e f g h i j k l m),
      Build_KeycloakGroupMemberRepresentation a b c x e f g h i j k l m) dec_bool);
   ("firstName", into mem_FirstName (λ x '(Build_KeycloakGroupMemberRepresentation a b c d _ f g h i j k l m),
      Build_KeycloakGroupMemberRepresentation a b c d x f g h i j k l m) dec_string);
   ("lastName", into mem_LastName (λ x '(Build_KeycloakGroupMemberRepresentation a b c d e _ g h i j k l m),
      Build_KeycloakGroupMemberRepresentation a b c d e x g h i j k l m) dec_string);
   ("emailVerified", into mem_EmailVerified (λ x '(Build_KeycloakGroupMemberRepresentation a b c d e f _ h i j k l m),
      Build_KeycloakGroupMemberRepresentation a b c d e f x h i j k l m) dec_bool);
   ("enabled", into mem_Enabled (λ x '(Build_KeycloakGroupMemberRepresentation a b c d e f g _ i j k l m),
      Build_KeycloakGroupMemberRepresentation a b c d e f g x i j k l m) dec_bool);
   ("email", into mem_Email (λ x '(Build_KeycloakGroupMemberRepresentation a b c d e f g h _ j k l m),
      Build_KeycloakGroupMemberRepresentation a b c d e f g h x j k l m) dec_string);
   ("credentials", into mem_Credentials (λ x '(Build_KeycloakGroupMemberRepresentation a b c d e f g h i _ k l m),
      Build_KeycloakGroupMemberRepresentation a b c d e f g h i x k l m) (dec_slice no_credentials dec_credentials));
   ("disableableCredentialTypes", into mem_DisableableCredentialTypes (λ x '(Build_KeycloakGroupMemberRepresentation a b c d e f g h i j _ l m),
      Build_KeycloakGroupMemberRepresentation a b c d e f g h i j x l m) (dec_slice "" dec_string));
   ("requiredActions", into mem_RequiredActions (λ x '(Build_KeycloakGroupMemberRepresentation a b c d e f g h i j k _ m),
      Build_KeycloakGroupMemberRepresentation a b c d e f g h i j k x m) (dec_slice no_action dec_action));
   ("notBefore", into mem_NotBefore (λ x '(Build_KeycloakGroupMemberRepresentation a b c d e f g h i j k l _),
      Build_KeycloakGroupMemberRepresentation a b c d e f g h i j k l x) (dec_int 32))].

(** ** What the functions call

    A secret is a pointer to its data, whose map may be nil.  [http_NewRequest] is
    the check of the method and the URL; [client_Do] sends a request and waits for
    the answer for at most a timeout; [rand_Intn] is the generator below its
    check. *)
Record Secret := { sec_Name : string; sec_Namespace : string; sec_Data : option (gmap string string) }.

Class AuthEnv (W : Type) := {
  Getenv : string → string;
  ListServices : M W (list (string * string));
  GetSecret : string → string → M W Secret;
  UpdateSecret : Secret → M W Secret;
  http_NewRequest : string → string → option string → outcome unit;
  client_Do : Z → HttpRequest → M W HttpResponse;
  PxCentralAdminPwd : W → string;
  rand_Intn : Z → M W Z;
}.

Section auth.
Context {W : Type} `{AuthEnv W}.

Definition ask_pwd : R W string := act (λ w, (Ok (PxCentralAdminPwd w), w)).

Definition secret_value (s : Secret) (key : string) : string :=
  default "" (m ← sec_Data s; m !! key).

(** ** The endpoint *)

Definition getOidcSecretName : string :=
  let name := Getenv oidcSecretName in
  if decide (name = "") then DefaultsecretName else name.

Definition GetPxBackupNamespace : R W string :=
  allServices ← R_try (act ListServices) (λ r,
    match r with
    | inl l => mret l
    | inr err => R_throw (Errorf ("failed to get list of services. Err: " +:+ Error err))
    end);
  match find_first (λ svc, bool_decide (svc.1 = pxbServiceName)) allServices with
  | Some svc => mret svc.2
  | None => R_throw (Errorf ("can't find PxBackup service [" +:+ pxbServiceName +:+ "] from list of services"))
  end.

Definition getKeycloakEndPoint (admin : bool) : R W string :=
  let keycloakEndpoint := Getenv PxCentralUIURL in
  if bool_decide (keycloakEndpoint ≠ " ") && bool_decide (keycloakEndpoint ≠ "")
  then mret (if admin then keycloakEndpoint +:+ "/auth/admin/realms/master"
             else keycloakEndpoint +:+ "/auth/realms/master")
  else
    ns ← GetPxBackupNamespace;
    secret ← act (GetSecret getOidcSecretName ns);
    let url := secret_value secret Issuer in
    let newURL := replace_first url KeycloakServiceName (KeycloakServiceName +:+ "." +:+ ns +:+ ".svc.cluster.local") in
    if admin then
      let split := Split_text newURL "auth" in
      a ← Fin (index split 0);
      b ← Fin (index split 1);
      mret (a +:+ "auth/admin" +:+ b)
    else mret newURL.

(** ** Requests

    The status of the answer is not looked at. *)
Definition processHTTPRequest (method url : string) (headers : Header) (body : option string) : R W string :=
  _ ← Fin (http_NewRequest method url body);
  httpResponse ← act (client_Do httpTimeout
    {| req_Method := method; req_URL := url; req_Header := headers; req_Body := body |});
  match resp_ReadError httpResponse with
  | Some err => R_throw err
  | None => mret (resp_Body httpResponse)
  end.

Definition token_form (userName password : string) : list (string * string) :=
  values_Set "token-duration" "365d" (values_Set "grant_type" "password" (values_Set "password" password
    (values_Set "username" userName (values_Set "client_id" "pxcentral" [])))).

Definition GetToken (userName password : string) : R W string :=
  keycloakEndPoint ← getKeycloakEndPoint false;
  let headers := header_Add "Content-Type" "application/x-www-form-urlencoded" ∅ in
  response ← processHTTPRequest "POST" (keycloakEndPoint +:+ "/protocol/openid-connect/token") headers
               (Some (values_Encode (token_form userName password)));
  token ← Fin (Unmarshal_into (dec_pointer no_token dec_token) (Some no_token) response);
  t ← Fin (deref token);
  mret (AccessToken t).

Definition bearer_headers (token : string) : Header :=
  header_Add "Content-Type" "application/json" (header_Add "Authorization" ("Bearer " +:+ token) ∅).

Definition GetCommonHTTPHeaders (userName password : string) : R W Header :=
  token ← GetToken userName password;
  mret (bearer_headers token).

(** [GetCommonHTTPHeaders(PxCentralAdminUser, PxCentralAdminPwd)] *)
Definition admin_headers : R W Header :=
  pwd ← ask_pwd; GetCommonHTTPHeaders PxCentralAdminUser pwd.

Definition GetPxCentralAdminPwd : R W string :=
  pxbNamespace ← GetPxBackupNamespace;
  secret ← act (GetSecret PxCentralAdminSecretName pxbNamespace);
  let pwd := secret_value secret "credential" in
  if decide (pwd = "") then R_throw (Errorf "px-central-admin secret is empty") else mret pwd.

(** A list the administrator asks for: the headers first, then the endpoint *)
Definition get_list {A} (zero : A) (dec : decoder A) (path : string) : R W (list A) :=
  headers ← admin_headers;
  keycloakEndPoint ← getKeycloakEndPoint true;
  response ← processHTTPRequest "GET" (keycloakEndPoint +:+ path) headers None;
  Fin (Unmarshal_into (dec_slice zero dec) [] response).

(** The first element with a name, or the empty id *)
Definition id_of {A} (name id : A → string) (wanted : string) (l : list A) : string :=
  from_option id "" (find_first (λ x, bool_decide (name x = wanted)) l).

(** ** Roles and users *)

Definition GetAllRoles : R W (list KeycloakRoleRepresentation) := get_list no_role dec_role "/roles".

Definition GetAllUsers : R W (list KeycloakUserRepresentation) := get_list no_user dec_user "/users".

Definition FetchIDOfUser (userName : string) : R W string :=
  users ← get_list no_user dec_user "/users";
  mret (id_of user_Name user_ID userName users).

Definition GetRolesForUser (userName : string) : R W (list KeycloakRoleRepresentation) :=
  headers ← admin_headers;
  keycloakEndPoint ← getKeycloakEndPoint true;
  userID ← FetchIDOfUser userName;
  response ← processHTTPRequest "GET" (keycloakEndPoint +:+ "/users/" +:+ userID +:+ "/role-mappings/realm/composite")
               headers None;
  Fin (Unmarshal_into (dec_slice no_role dec_role) [] response).

Definition ApplicationOwner : string := "px-backup-app.admin".
Definition ApplicationUser : string := "px-backup-app.user".
Definition InfrastructureOwner : string := "px-backup-infra.admin".
Definition DefaultRoles : string := "default-roles-master".

Definition GetRoleID (role : string) : R W string :=
  roles ← GetAllRoles;
  mret (id_of role_Name role_ID role roles).

Definition GetUserRole (userName : string) : R W unit :=
  headers ← admin_headers;
  keycloakEndPoint ← getKeycloakEndPoint true;
  response ← processHTTPRequest "GET" (keycloakEndPoint +:+ "/users") headers None;
  users ← Fin (Unmarshal_into (dec_slice no_user dec_user) [] response);
  let clientID := id_of user_Name user_ID userName users in
  keycloakEndPoint ← getKeycloakEndPoint true;
  response ← processHTTPRequest "GET" (keycloakEndPoint +:+ "/users/" +:+ clientID +:+ "/role-mappings/realm") headers None;
  _ ← Fin (Unmarshal_into (dec_slice no_role dec_role) [] response);
  mret tt.

(** ** Groups *)

Definition GetAllGroups : R W (list KeycloakGroupRepresentation) := get_list no_group dec_group "/groups".

(** An error of GetAllGroups is dropped. *)
Definition FetchIDOfGroup (name : string) : R W string :=
  R_try GetAllGroups (λ r,
    match r with
    | inr _ => mret ""
    | inl groups => mret (id_of group_Name group_ID name groups)
    end).

(** ** Role mappings *)

Definition the_role (roleID role description : string) : KeycloakRoleRepresentation :=
  {| role_ID := roleID; role_Name := role; role_Description := description; role_Composite := false;
     role_ClientRole := false; role_ContainerID := "master"; role_Attributes := ∅; role_Composites := no_composite |}.

(** What AddRoleToUser, AddRoleToGroup, DeleteRoleFromUser and DeleteRoleFromGroup
    do after the id of the user or group was fetched *)
Definition change_role (method kind id role description : string) : R W unit :=
  roleID ← GetRoleID role;
  let roleBytes := encode (enc_slice enc_role [the_role roleID role description]) in
  keycloakEndPoint ← getKeycloakEndPoint true;
  headers ← admin_headers;
  _ ← processHTTPRequest method (keycloakEndPoint +:+ kind +:+ id +:+ "/role-mappings/realm") headers (Some roleBytes);
  mret tt.

Definition AddRoleToUser (userName role description : string) : R W unit :=
  clientID ← FetchIDOfUser userName; change_role "POST" "/users/" clientID role description.

Definition AddRoleToGroup (groupName role description : string) : R W unit :=
  groupID ← FetchIDOfGroup groupName; change_role "POST" "/groups/" groupID role description.

Definition DeleteRoleFromUser (userName role description : string) : R W unit :=
  clientID ← FetchIDOfUser userName; change_role "DELETE" "/users/" clientID role description.

Definition DeleteRoleFromGroup (groupName role description : string) : R W unit :=
  groupID ← FetchIDOfGroup groupName; change_role "DELETE" "/groups/" groupID role description.

(** ** Creating and deleting *)

(** A request with a body, or without one, to a path below the endpoint *)
Definition admin_request (method keycloakEndPoint path : string) (body : option string) : R W unit :=
  headers ← admin_headers;
  _ ← processHTTPRequest method (keycloakEndPoint +:+ path) headers body;
  mret tt.

Definition new_user (userName firstName lastName email password : string) : KeycloakUserRepresentation :=
  {| user_ID := ""; user_Name := userName; user_FirstName := firstName; user_LastName := lastName;
     user_EmailVerified := false; user_Enabled := true; user_Email := email;
     user_Credentials := [{| cred_Type := "password"; cred_Temporary := false; cred_Value := password |}] |}.

Definition AddUser (userName firstName lastName email password : string) : R W unit :=
  keycloakEndPoint ← getKeycloakEndPoint true;
  admin_request "POST" keycloakEndPoint "/users"
    (Some (encode (enc_user (new_user userName firstName lastName email password)))).

Definition DeleteUser (userName : string) : R W unit :=
  keycloakEndPoint ← getKeycloakEndPoint true;
  userID ← FetchIDOfUser userName;
  admin_request "DELETE" keycloakEndPoint ("/users/" +:+ userID) None.

Definition AddGroup (group : string) : R W unit :=
  keycloakEndPoint ← getKeycloakEndPoint true;
  admin_request "POST" keycloakEndPoint "/groups" (Some (encode (enc_group_add {| add_Name := group |}))).

Definition DeleteGroup (group : string) : R W unit :=
  keycloakEndPoint ← getKeycloakEndPoint true;
  groupID ← FetchIDOfGroup group;
  admin_request "DELETE" keycloakEndPoint ("/groups/" +:+ groupID) None.

Definition AddGroupToUser (user group : string) : R W unit :=
  groupID ← FetchIDOfGroup group;
  userID ← FetchIDOfUser user;
  keycloakEndPoint ← getKeycloakEndPoint true;
  admin_request "PUT" keycloakEndPoint ("/users/" +:+ userID +:+ "/groups/" +:+ groupID)
    (Some (encode (enc_group_to_user {| to_UserID := userID; to_GroupID := groupID; to_Realm := "master" |}))).

(** The body is made before the endpoint is looked up, the headers after it. *)
Definition CreateRole (role description : string) : R W unit :=
  let roleBytes := encode (enc_new_role {| new_Name := role; new_Description := description; new_Attributes := [] |}) in
  keycloakEndPoint ← getKeycloakEndPoint true;
  admin_request "POST" keycloakEndPoint "/roles" (Some roleBytes).

Definition DeleteRole (role : string) : R W unit :=
  roleId ← GetRoleID role;
  keycloakEndPoint ← getKeycloakEndPoint true;
  admin_request "DELETE" keycloakEndPoint ("/roles-by-id/" +:+ roleId) None.

Definition GetMembersOfGroup (group : string) : R W (list string) :=
  keycloakEndPoint ← getKeycloakEndPoint true;
  groupID ← FetchIDOfGroup group;
  headers ← admin_headers;
  response ← processHTTPRequest "GET" (keycloakEndPoint +:+ "/groups/" +:+ groupID +:+ "/members") headers None;
  users ← Fin (Unmarshal_into (dec_slice no_member dec_member) [] response);
  mret (map mem_Name users).

Definition GetRandomUserFromGroup (groupName : string) : R W string :=
  users ← GetMembersOfGroup groupName;
  i ← (if decide (Z.of_nat (length users) <= 0) then Fin (Panic "invalid argument to Intn")
       else act (rand_Intn (Z.of_nat (length users))));
  Fin (index users i).

(** ** Many at once *)

Definition describe_user (user : string) (err : error) : string :=
  "failed to delete user - " +:+ user +:+ ": " +:+ Error err.

Definition describe_group (group : string) (err : error) : string :=
  "failed to delete group - " +:+ group +:+ ": " +:+ Error err.

(** [g] is what became of the goroutines when [wg.Wait()] returned. *)
Definition DeleteMultipleUsers (users : list string) (w : W) (g : Group (W:=W) (A:=string)) : Prop :=
  rtc (step describe_user) (start DeleteUser users w) g ∧ finished g = true.

Definition DeleteMultipleGroups (groups : list string) (w : W) (g : Group (W:=W) (A:=string)) : Prop :=
  rtc (step describe_group) (start DeleteGroup groups w) g ∧ finished g = true.

(** ** Tokens and contexts *)

Definition GetPxCentralAdminToken : R W string := pwd ← ask_pwd; GetToken PxCentralAdminUser pwd.

Definition GetCtxWithToken (token : string) : Ctx :=
  {| Outgoing := Some {[ AuthHeader := [AuthTokenType +:+ " " +:+ token] ]} |}.

Definition GetPxCentralAdminCtx : R W Ctx := token ← GetPxCentralAdminToken; mret (GetCtxWithToken token).

Definition GetNonAdminCtx (username password : string) : R W Ctx :=
  token ← GetToken username password; mret (GetCtxWithToken token).

Definition UpdatePxBackupAdminSecret : R W unit :=
  pxCentralAdminToken ← GetPxCentralAdminToken;
  pxbNamespace ← GetPxBackupNamespace;
  secret ← act (GetSecret AdminTokenSecretName pxbNamespace);
  match sec_Data secret with
  | None => Fin (Panic "assignment to entry in nil map")
  | Some m =>
      _ ← act (UpdateSecret {| sec_Name := sec_Name secret; sec_Namespace := sec_Namespace secret;
                               sec_Data := Some (<[OrgToken := pxCentralAdminToken]> m) |});
      mret tt
  end.

Definition GetAdminTokenFromSecret : R W string :=
  _ ← UpdatePxBackupAdminSecret;
  pxbNamespace ← GetPxBackupNamespace;
  secret ← act (GetSecret AdminTokenSecretName pxbNamespace);
  let token := secret_value secret OrgToken in
  if decide (token = "") then R_throw (Errorf "admin token is empty") else mret token.

Definition GetAdminCtxFromSecret : R W Ctx :=
  _ ← UpdatePxBackupAdminSecret;
  pxbNamespace ← GetPxBackupNamespace;
  secret ← act (GetSecret AdminTokenSecretName pxbNamespace);
  let token := secret_value secret OrgToken in
  if decide (token = "") then R_throw (Errorf "admin token is empty") else mret (GetCtxWithToken token).
End auth.

(** ** The name and the address of a user *)

Section details.
Context {W : Type} `{AuthEnv W} `{Clock W}.

(** One attempt of FetchUserDetailsFromID: the name and the address are variables
    of the caller, which an attempt leaves alone when it finds no user. *)
Definition details_task (headers : Header) (userID : string) : M (W * (string * string)) (task_result unit) :=
  attempt (up (run (
      keycloakEndPoint ← getKeycloakEndPoint true;
      response ← processHTTPRequest "GET" (keycloakEndPoint +:+ "/users") headers None;
      Fin (Unmarshal_into (dec_slice no_user dec_user) [] response)))) (λ r,
    match r with
    | inr err => mret (Retry err)
    | inl users =>
        _ ← match find_first (λ u, bool_decide (user_ID u = userID)) users with
            | Some u => put_local (user_Name u, user_Email u)
            | None => mret tt
            end;
        '(userName, email) ← get_local;
        if bool_decide (userName = "") || bool_decide (email = "")
        then mret (Retry (Errorf "got emptry user/email, retrying again"))
        else mret (Done tt)
    end).

Definition FetchUserDetailsFromID (userID : string) : M W (string * string) :=
  headers ← run admin_headers;
  '(_, details) ← wrap_err (λ err, Errorf ("failed to fetch user name/email with user id [" +:+ userID +:+ "]: [" +:+
                                            Error err +:+ "]"))
    (with_local ("", "") (DoRetryWithTimeout (details_task headers userID) defaultWaitTimeout defaultWaitInterval));
  mret details.
End details.

End Keycloak.
