(* ===== verification/KeycloakProps.v ===== *)
(** What the functions of [Keycloak] do: which requests they send, that the server
    reads back what was written into them, where tokens and contexts come from, and
    that deletions that run at once end and report exactly what failed. *)

From stdpp Require Import relations.
From Stdlib Require Import Ascii.
From S2P Require Import Prelude GoStrings Errors Effects Strconv GoJson GoNet Concur Task PxNodeOps Backup Keycloak.

Import Keycloak.

(** ** What is written is read back *)

Lemma enc_slice_wf {A} (enc : A → json) d l :
  Forall (λ x, wf_json d (enc x)) l → wf_json (S d) (enc_slice enc l).
Proof.
  intros Hl. destruct l as [|x l]; [constructor|]. unfold enc_slice. constructor.
  by apply Forall_fmap.
Qed.

(** The slice of a variable that was nil *)
Lemma dec_enc_slice {A} (zero : A) (dec : decoder A) (enc : A → json) l :
  Forall (λ x, dec (enc x) zero = Some x) l → dec_slice zero dec (enc_slice enc l) [] = Some l.
Proof.
  intros Hl. destruct l as [|x l]; [done|]. unfold enc_slice, dec_slice.
  by apply mapM_Some_2, Forall2_fmap_l, Forall_Forall2_diag.
Qed.

Definition utf8_credentials (c : KeycloakUserCredentials) : Prop := utf8 (cred_Type c) ∧ utf8 (cred_Value c).

Record utf8_user (u : KeycloakUserRepresentation) : Prop := {
  utf8_ID : utf8 (user_ID u);
  utf8_Name : utf8 (user_Name u);
  utf8_FirstName : utf8 (user_FirstName u);
  utf8_LastName : utf8 (user_LastName u);
  utf8_Email : utf8 (user_Email u);
  utf8_Credentials : Forall utf8_credentials (user_Credentials u);
}.

(** The texts of a value are UTF-8: those of the program, and those assumed to be. *)
Ltac wf_text :=
  lazymatch goal with
  | |- utf8 _ => first [done | apply ascii_utf8; reflexivity]
  | |- wf_json _ (JString _) => constructor; wf_text
  | |- wf_json _ (JObject _) => constructor; wf_text
  | |- wf_json _ (JBool _) => constructor
  | |- wf_json _ JNull => constructor
  | |- Forall _ [] => constructor
  | |- Forall _ (_ :: _) => constructor; [split; simpl; wf_text|wf_text]
  | _ => idtac
  end.

Lemma enc_map_empty : enc_map ∅ = JNull.
Proof. unfold enc_map. by rewrite decide_True. Qed.

(** [wf_json] holds at every depth that is enough. *)
Lemma wf_json_S d v : wf_json d v → wf_json (S d) v.
Proof.
  revert d. induction v as [| | | |l IH|m IH] using json_induction; intros d Hv;
    inversion Hv as [| | | |? ? Hl|? ? Hm]; subst; constructor; try done.
  - rewrite !Forall_forall in *. auto.
  - rewrite !Forall_forall in *. naive_solver.
Qed.

Lemma wf_json_le d d' v : (d ≤ d')%nat → wf_json d v → wf_json d' v.
Proof. induction 1; [done|]. intros Hv. by apply wf_json_S, IHle. Qed.

Lemma wf_max d v : (d ≤ 10)%nat → wf_json d v → wf_json max_depth v.
Proof. intros Hd. apply wf_json_le. transitivity 10%nat; [done|]. unfold max_depth. lia. Qed.

Lemma dec_enc_credentials c : dec_credentials (enc_credentials c) no_credentials = Some c.
Proof. by destruct c. Qed.

Lemma dec_enc_user u : dec_user (enc_user u) no_user = Some u.
Proof.
  destruct u as [id name first last verified enabled email creds].
  pose proof (dec_enc_slice no_credentials dec_credentials enc_credentials creds) as Hc.
  unfold dec_user, enc_user, dec_struct. simpl. unfold into at 1. simpl. 
  rewrite Hc; [done|]. apply Forall_true, dec_enc_credentials.
Qed.

Lemma enc_user_wf u : utf8_user u → wf_json 3 (enc_user u).
Proof.
  intros [H1 H2 H3 H4 H5 H6]. unfold enc_user. wf_text. simpl.
  apply enc_slice_wf. eapply Forall_impl; [exact H6|]. intros c [Ht Hv]. unfold enc_credentials. wf_text.
Qed.

(** A user with UTF-8 texts is read back from its JSON. *)
Theorem user_roundtrip u :
  utf8_user u → Unmarshal_into dec_user no_user (encode (enc_user u)) = Ok u.
Proof.
  intros Hu. apply Unmarshal_encode; [|apply dec_enc_user].
  apply (wf_max 3); [lia|]. by apply enc_user_wf.
Qed.

(** The body that grants or revokes a role *)
Definition role_body (roleID role description : string) : string :=
  encode (enc_slice enc_role [the_role roleID role description]).

Lemma role_body_reads roleID role description :
  utf8 roleID → utf8 role → utf8 description →
  Unmarshal_into (dec_slice no_role dec_role) [] (role_body roleID role description) =
  Ok [the_role roleID role description].
Proof.
  intros H1 H2 H3. apply Unmarshal_encode; [|apply dec_enc_slice; by constructor].
  apply (wf_max 4); [lia|]. apply enc_slice_wf. constructor; [|constructor].
  unfold enc_role, the_role. simpl. rewrite enc_map_empty. wf_text.
Qed.

(** ** Requests *)

Section requests.
Context {W : Type} `{AuthEnv W}.

(** A request with the bearer token of some user was answered. *)
Definition answered (method path : string) (body : option string) (answer : string) : Prop :=
  ∃ ep token w w' resp,
    client_Do httpTimeout {| req_Method := method; req_URL := ep +:+ path; req_Header := bearer_headers token;
                             req_Body := body |} w = (Ok resp, w') ∧
    resp_ReadError resp = None ∧ resp_Body resp = answer.

(** A list that was answered *)
Definition listed {A} (zero : A) (dec : decoder A) (path : string) (l : list A) : Prop :=
  ∃ answer, answered "GET" path None answer ∧ Unmarshal_into (dec_slice zero dec) [] answer = Ok l.

(** Inversion of successful calls among others *)
Ltac inv_go H :=
  let a := fresh "a" in let H1 := fresh "Hr" in
  apply interleaved_bind_Ok in H as (a & H1 & H).

Lemma processHTTPRequest_inv method url headers body answer :
  interleaved (processHTTPRequest (W:=W) method url headers body) (Ok answer) →
  http_NewRequest method url body = Ok tt ∧
  ∃ w w' resp, client_Do httpTimeout {| req_Method := method; req_URL := url; req_Header := headers;
                                        req_Body := body |} w = (Ok resp, w') ∧
    resp_ReadError resp = None ∧ resp_Body resp = answer.
Proof.
  intros Hp. unfold processHTTPRequest in Hp. inv_go Hp. apply interleaved_lift in Hr. inv_go Hp.
  apply interleaved_act_inv in Hr0 as (w & w' & Hd). destruct a. split; [done|].
  exists w, w', a0. destruct (resp_ReadError a0); [by inversion Hp|].
  by apply interleaved_ret_Ok in Hp.
Qed.

Lemma admin_headers_inv h :
  interleaved (admin_headers (W:=W)) (Ok h) → ∃ token, h = bearer_headers token.
Proof.
  intros Hh. unfold admin_headers in Hh. inv_go Hh. unfold GetCommonHTTPHeaders in Hh. inv_go Hh.
  apply interleaved_ret_Ok in Hh. eauto.
Qed.

Lemma get_list_inv {A} (zero : A) dec path l :
  interleaved (get_list (W:=W) zero dec path) (Ok l) → listed zero dec path l.
Proof.
  intros Hg. unfold get_list in Hg. inv_go Hg. inv_go Hg. inv_go Hg. apply interleaved_lift in Hg.
  apply admin_headers_inv in Hr as [token ->].
  apply processHTTPRequest_inv in Hr1 as (_ & w & w' & resp & Hd & He & Hb).
  exists a1. split; [|done]. by exists a0, token, w, w', resp.
Qed.

Lemma FetchIDOfUser_inv userName id :
  interleaved (FetchIDOfUser (W:=W) userName) (Ok id) →
  ∃ users, listed no_user dec_user "/users" users ∧ id = id_of user_Name user_ID userName users.
Proof.
  intros Hf. unfold FetchIDOfUser in Hf. inv_go Hf. apply get_list_inv in Hr.
  apply interleaved_ret_Ok in Hf. eauto.
Qed.

Lemma GetRoleID_inv role id :
  interleaved (GetRoleID (W:=W) role) (Ok id) →
  ∃ roles, listed no_role dec_role "/roles" roles ∧ id = id_of role_Name role_ID role roles.
Proof.
  intros Hf. unfold GetRoleID in Hf. inv_go Hf. apply get_list_inv in Hr.
  apply interleaved_ret_Ok in Hf. eauto.
Qed.

(** Without an error from FetchIDOfGroup the groups were listed, or could not be. *)
Lemma FetchIDOfGroup_inv name id :
  interleaved (FetchIDOfGroup (W:=W) name) (Ok id) →
  (∃ groups, listed no_group dec_group "/groups" groups ∧ id = id_of group_Name group_ID name groups) ∨
  (∃ e, interleaved (GetAllGroups (W:=W)) (Err e)) ∧ id = "".
Proof.
  intros Hf. apply interleaved_attempt_inv in Hf as ([groups|e|m|] & H1 & H2); [| |by inversion H2..].
  - left. exists groups. split; [by apply get_list_inv|]. by apply interleaved_ret_Ok in H2.
  - right. split; [eauto|]. by apply interleaved_ret_Ok in H2.
Qed.

Lemma admin_request_inv method ep path body :
  interleaved (admin_request (W:=W) method ep path body) (Ok tt) → ∃ answer, answered method path body answer.
Proof.
  intros Ha. unfold admin_request in Ha. inv_go Ha. inv_go Ha.
  apply admin_headers_inv in Hr as [token ->].
  apply processHTTPRequest_inv in Hr0 as (_ & w & w' & resp & Hd & He & Hb).
  exists a0. by exists ep, token, w, w', resp.
Qed.

Lemma change_role_inv method kind id role description :
  interleaved (change_role (W:=W) method kind id role description) (Ok tt) →
  ∃ roles answer, listed no_role dec_role "/roles" roles ∧
    answered method (kind +:+ id +:+ "/role-mappings/realm")
      (Some (role_body (id_of role_Name role_ID role roles) role description)) answer.
Proof.
  intros Hc. unfold change_role in Hc. inv_go Hc. inv_go Hc. inv_go Hc. inv_go Hc.
  apply GetRoleID_inv in Hr as (roles & Hl & ->). apply admin_headers_inv in Hr1 as [token ->].
  apply processHTTPRequest_inv in Hr2 as (_ & w & w' & resp & Hd & He & Hb).
  exists roles, a2. split; [done|]. by exists a0, token, w, w', resp.
Qed.

(** The id of the first element of the name in a listing; there is none when no element
    has the name. *)
Definition first_id {A} (name id : A → string) (n : string) (l : list A) (i : string) : Prop :=
  (∃ before x after, l = before ++ x :: after ∧ name x = n ∧ (∀ y, y ∈ before → name y ≠ n) ∧ i = id x) ∨
  (∀ y, y ∈ l → name y ≠ n) ∧ i = "".

Lemma id_of_first {A} (name id : A → string) n l : first_id name id n l (id_of name id n l).
Proof.
  unfold first_id, id_of. induction l as [|x l IH]; simpl.
  - right. split; [by intros ? ?%elem_of_nil|done].
  - destruct (bool_decide (name x = n)) eqn:E; [left|].
    + apply bool_decide_eq_true in E. exists [], x, l. split_and!; [done..|by intros ? ?%elem_of_nil|done].
    + apply bool_decide_eq_false in E. destruct IH as [(before & y & after & -> & Hy & Hb & Hi)|[Hn Hi]]; [left|right].
      * exists (x :: before), y, after. split_and!; [done..| |done]. intros z [->|Hz]%elem_of_cons; [done|by apply Hb].
      * split; [|done]. intros z [->|Hz]%elem_of_cons; [done|by apply Hn].
Qed.

(** C15. When AddRoleToUser succeeds, also while others change the realm, the users and
    the roles were listed, and a role was posted to the mappings of the first user
    of that name, or to the path with an empty id when no user has the name; the role is
    sent with the id of the first role of its name, or without one when no role has it.
    When the name, the description and that id are valid UTF-8, the body is read back as
    exactly that role. *)
Theorem AddRoleToUser_success userName role description :
  utf8 role → utf8 description →
  interleaved (AddRoleToUser (W:=W) userName role description) (Ok tt) →
  ∃ users roles userID roleID body answer,
    listed no_user dec_user "/users" users ∧ first_id user_Name user_ID userName users userID ∧
    listed no_role dec_role "/roles" roles ∧ first_id role_Name role_ID role roles roleID ∧
    answered "POST" ("/users/" +:+ userID +:+ "/role-mappings/realm") (Some body) answer ∧
    (utf8 roleID → Unmarshal_into (dec_slice no_role dec_role) [] body = Ok [the_role roleID role description]).
Proof.
  intros Hr Hd Ha. unfold AddRoleToUser in Ha. inv_go Ha.
  apply FetchIDOfUser_inv in Hr0 as (users & Hu & ->).
  apply change_role_inv in Ha as (roles & answer & Hl & Hs).
  exists users, roles. do 4 eexists. split_and!; [done|apply id_of_first|done|apply id_of_first|done|].
  intros Hid. by apply role_body_reads.
Qed.

(** When DeleteUser succeeds, a delete was answered for the first user of that name
    in a listing; without such a user it went to the collection itself. *)
Lemma DeleteUser_inv userName :
  interleaved (DeleteUser (W:=W) userName) (Ok tt) →
  ∃ users answer, listed no_user dec_user "/users" users ∧
    answered "DELETE" ("/users/" +:+ id_of user_Name user_ID userName users) None answer.
Proof.
  intros Hd. unfold DeleteUser in Hd. inv_go Hd. inv_go Hd.
  apply FetchIDOfUser_inv in Hr0 as (users & Hu & ->). apply admin_request_inv in Hd as [answer Ha]. eauto.
Qed.

(** When FetchIDOfGroup cannot list the groups it reports no error, and DeleteGroup
    goes on to delete the collection of groups. *)
Theorem DeleteGroup_without_listing group ep w w1 w2 e :
  run (getKeycloakEndPoint true) w = (Ok ep, w1) →
  run GetAllGroups w1 = (Err e, w2) →
  run (DeleteGroup group) w = run (admin_request "DELETE" ep "/groups/" None) w2.
Proof.
  intros H1 H2. unfold DeleteGroup. rewrite run_bind, (bind_Ok _ _ _ _ _ H1), run_bind.
  assert (run (FetchIDOfGroup group) w1 = (Ok "", w2)) as H3.
  { unfold FetchIDOfGroup. rewrite run_try. unfold attempt. by rewrite H2. }
  by rewrite (bind_Ok _ _ _ _ _ H3).
Qed.

(** ** Tokens *)

Lemma token_form_fields userName password :
  token_form userName password =
  [("client_id", "pxcentral"); ("grant_type", "password"); ("password", password); ("token-duration", "365d");
   ("username", userName)].
Proof. done. Qed.

(** A token was posted for: whatever bytes the name and the password hold, the form
    of the request reads back as them, and the token is the access token of the
    answer. *)
Theorem GetToken_success userName password token :
  interleaved (GetToken (W:=W) userName password) (Ok token) →
  ∃ ep form w w' resp t,
    interleaved (getKeycloakEndPoint (W:=W) false) (Ok ep) ∧
    client_Do httpTimeout
      {| req_Method := "POST"; req_URL := ep +:+ "/protocol/openid-connect/token";
         req_Header := {["Content-Type" := ["application/x-www-form-urlencoded"]]}; req_Body := Some form |} w =
      (Ok resp, w') ∧
    ParseQuery form = Some [("client_id", "pxcentral"); ("grant_type", "password"); ("password", password);
                            ("token-duration", "365d"); ("username", userName)] ∧
    Unmarshal_into (dec_pointer no_token dec_token) (Some no_token) (resp_Body resp) = Ok (Some t) ∧
    token = AccessToken t.
Proof.
  intros Ht. unfold GetToken in Ht. inv_go Ht. inv_go Ht. inv_go Ht. inv_go Ht.
  apply interleaved_lift in Hr1, Hr2. apply interleaved_ret_Ok in Ht.
  apply processHTTPRequest_inv in Hr0 as (_ & w & w' & resp & Hd & He & Hb).
  destruct a1 as [t|]; [|done]. simplify_eq/=.
  exists a, (values_Encode (token_form userName password)), w, w', resp, t.
  split_and!; [done| |by rewrite ParseQuery_Encode|done..].
  rewrite <- Hd. do 3 f_equal.
Qed.
End requests.

(** ** The endpoint *)

Lemma split_text_absent sep cur s :
  Contains s sep = false → split_text_loop sep 0 cur s = [cur +:+ s].
Proof.
  revert cur. induction s as [|c s IH]; intros cur Hs; [by rewrite app_empty_r|].
  cbn [Contains split_text_loop] in *. apply orb_false_iff in Hs as [Hp Hs].
  by rewrite Hp, (IH _ Hs), <- app_cons_r.
Qed.

Lemma split_text_skip sep cur p s : split_text_loop sep (String.length p) cur (p +:+ s) = split_text_loop sep 0 cur s.
Proof. induction p as [|c p IH]; [done|]. exact IH. Qed.

(** The first occurrence of a separator that stands behind a byte it does not have *)
Lemma Split_text_at p c s sep' suf :
  let sep := String s sep' in
  free_of c sep = true → Contains p sep = false →
  Split_text (p +:+ String c (sep +:+ suf)) sep = (p +:+ String c "") :: Split_text suf sep.
Proof.
  intros sep Hc Hp. unfold Split_text.
  enough (∀ cur, split_text_loop sep 0 cur (p +:+ String c (sep +:+ suf)) =
            (cur +:+ p +:+ String c "") :: split_text_loop sep 0 "" suf) as Hall by apply (Hall "").
  induction p as [|d p IH]; intros cur.
  - cbn [String.append split_text_loop].
    pose proof (HasPrefix_before "" c (sep +:+ suf) sep Hc) as Hh. cbn [String.append] in Hh. rewrite Hh.
    change (HasPrefix "" sep) with false. cbn iota. unfold sep at 2. cbn [String.append split_text_loop].
    change (String s (sep' +:+ suf)) with (sep +:+ suf). rewrite HasPrefix_app. f_equal.
    replace (String.length sep - 1)%nat with (String.length sep') by (simpl; lia). apply split_text_skip.
  - cbn [Contains] in Hp. apply orb_false_iff in Hp as [Hh Hp].
    cbn [String.append split_text_loop].
    rewrite <- (HasPrefix_before (String d p) c (sep +:+ suf) sep Hc) in Hh. cbn [String.append] in Hh. rewrite Hh.
    rewrite (IH Hp). f_equal. by rewrite app_assoc_s.
Qed.

(** The issuer of an installation *)
Definition default_issuer : string := "http://pxcentral-keycloak-http/auth/realms/master".

Section endpoint.
Context {W : Type} `{AuthEnv W}.

(** The default issuer was read in the namespace of px-backup. *)
Record default_installation (w : W) (ns : string) (w2 : W) : Prop := {
  no_url : Getenv PxCentralUIURL = "";
  found : ∃ w1 secret, run GetPxBackupNamespace w = (Ok ns, w1) ∧
    GetSecret getOidcSecretName ns w1 = (Ok secret, w2) ∧ secret_value secret Issuer = default_issuer;
}.

Lemma default_endpoint admin w ns w2 :
  default_installation w ns w2 →
  run (getKeycloakEndPoint admin) w =
  (let newURL := "http://pxcentral-keycloak-http." +:+ ns +:+ ".svc.cluster.local/auth/realms/master" in
   if admin then a ← index (Split_text newURL "auth") 0; b ← index (Split_text newURL "auth") 1; Ok (a +:+ "auth/admin" +:+ b)
   else Ok newURL, w2).
Proof.
  intros [Hu (w1 & secret & Hn & Hs & Hi)]. unfold getKeycloakEndPoint. rewrite Hu.
  change (bool_decide ("" ≠ " ") && bool_decide ("" ≠ "")) with false. cbn iota.
  rewrite run_bind, (bind_Ok _ _ _ _ _ Hn), run_bind_act, (bind_Ok _ _ _ _ _ Hs), Hi.
  change (replace_first default_issuer KeycloakServiceName ?r) with ("http://" +:+ r +:+ "/auth/realms/master").
  assert ("http://" +:+ (KeycloakServiceName +:+ "." +:+ ns +:+ ".svc.cluster.local") +:+ "/auth/realms/master" =
    "http://pxcentral-keycloak-http." +:+ ns +:+ ".svc.cluster.local/auth/realms/master") as ->
    by (unfold KeycloakServiceName; rewrite !app_assoc_s; done).
  cbv zeta. destruct admin; [|done]. generalize (Split_text ("http://pxcentral-keycloak-http." +:+ ns +:+ ".svc.cluster.local/auth/realms/master") "auth").
  intros split. destruct (index split 0); [|done..]. cbn [mbind R_bind R_attempt after].
  destruct (index split 1); done.
Qed.

(** In a namespace without [auth] in its name the administrator's endpoint is the
    issuer of the service in that namespace, with [admin] behind [auth]. *)
Theorem getKeycloakEndPoint_admin w ns w2 :
  default_installation w ns w2 → Contains ns "auth" = false →
  run (getKeycloakEndPoint true) w =
  (Ok ("http://pxcentral-keycloak-http." +:+ ns +:+ ".svc.cluster.local/auth/admin/realms/master"), w2).
Proof.
  intros Hd Hns. rewrite (default_endpoint _ _ _ _ Hd). cbv zeta.
  pose proof (Split_text_at ("http://pxcentral-keycloak-http." +:+ ns +:+ ".svc.cluster.local") "/" "a" "uth" "/realms/master" eq_refl) as Hs.
  cbv zeta in Hs. rewrite !app_assoc_s in Hs.
  change (".svc.cluster.local/auth/realms/master") with (".svc.cluster.local" +:+ String "/" ("auth" +:+ "/realms/master")).
  assert (∀ a b, (x ← index [a; b] 0; y ← index [a; b] 1; Ok (x +:+ "auth/admin" +:+ y)) = Ok (a +:+ "auth/admin" +:+ b))
    as Hindex by done.
  rewrite Hs; [change (Split_text "/realms/master" "auth") with ["/realms/master"]; by rewrite Hindex, !app_assoc_s|].
  change ("http://pxcentral-keycloak-http." +:+ ?x) with ("http://pxcentral-keycloak-http" +:+ String "." x).
  rewrite (Contains_around "http://pxcentral-keycloak-http" ".") by done.
  change (ns +:+ ".svc.cluster.local") with (ns +:+ String "." "svc.cluster.local").
  by rewrite (Contains_around ns "."), Hns.
Qed.

(** With [auth] in the name of the namespace the endpoint is cut inside the host. *)
Theorem getKeycloakEndPoint_auth_namespace w w2 :
  default_installation w "px-auth" w2 →
  run (getKeycloakEndPoint true) w =
  (Ok "http://pxcentral-keycloak-http.px-auth/admin.svc.cluster.local/", w2).
Proof. intros Hd. by rewrite (default_endpoint _ _ _ _ Hd). Qed.
End endpoint.

(** ** Deleting many users at once *)

(** Every call on the world returns. *)
Class AuthEnvReturns (W : Type) `{AuthEnv W} : Prop := {
  ListServices_returns : ∀ w : W, (ListServices w).1 ≠ Diverge;
  GetSecret_returns : ∀ name ns (w : W), (GetSecret name ns w).1 ≠ Diverge;
  NewRequest_returns : ∀ method url body, http_NewRequest (W:=W) method url body ≠ Diverge;
  Do_returns : ∀ timeout req (w : W), (client_Do timeout req w).1 ≠ Diverge;
}.

Section deletions.
Context {W : Type} `{AuthEnvReturns W}.

Definition returns {A} (r : R W A) : Prop := ¬ interleaved r Diverge.

Lemma returns_bind {A B} (r : R W A) (f : A → R W B) : returns r → (∀ a, returns (f a)) → returns (r ≫= f).
Proof.
  intros Hr Hf ([a|e|m|] & H1 & H2)%interleaved_attempt_inv; simpl in H2; [by apply (Hf a)|by inversion H2..|done].
Qed.

Lemma returns_act {A} (m : M W A) : (∀ w, (m w).1 ≠ Diverge) → returns (act m).
Proof. intros Hm (w & w' & Hd)%interleaved_act_inv. apply (Hm w). by rewrite Hd. Qed.

Lemma returns_fin {A} (o : outcome A) : o ≠ Diverge → returns (Fin o).
Proof. intros Ho Hi. by apply interleaved_lift in Hi. Qed.

Lemma returns_try {A B} (r : R W A) (k : A + error → R W B) :
  returns r → (∀ x, returns (k x)) → returns (R_try r k).
Proof.
  intros Hr Hk ([a|e|m|] & H1 & H2)%interleaved_attempt_inv; [by apply (Hk (inl a))|by apply (Hk (inr e))|by inversion H2|done].
Qed.

Lemma returns_index {A} (l : list A) i : returns (Fin (index l i)).
Proof. apply returns_fin. unfold index. by repeat case_match. Qed.

Lemma returns_Unmarshal {A} (dec : decoder A) zero text : returns (Fin (Unmarshal_into dec zero text)).
Proof.
  apply returns_fin. unfold Unmarshal_into, parse. repeat case_match; simpl; by repeat case_match.
Qed.

Lemma returns_NewRequest method url body : returns (Fin (http_NewRequest (W:=W) method url body)).
Proof. apply returns_fin, NewRequest_returns. Qed.

Lemma returns_deref {A} (p : option A) : returns (Fin (deref p)).
Proof. apply returns_fin. by destruct p. Qed.
End deletions.

#[export] Hint Resolve returns_act returns_index returns_Unmarshal returns_NewRequest returns_deref
  ListServices_returns GetSecret_returns Do_returns : torpedo.

(** Walk through a call. *)
Ltac all_return :=
  repeat first
    [ progress cbv zeta
    | solve [eauto 3 with torpedo]
    | apply returns_bind; [|intros ?]
    | apply returns_try; [|intros [?|?]]
    | match goal with
      | |- returns (match ?x with _ => _ end) => destruct x
      | |- returns (if ?x then _ else _) => destruct x
      end
    | by apply returns_fin ].

Section deletions_end.
Context {W : Type} `{AuthEnvReturns W}.

Lemma returns_ask_pwd : returns (ask_pwd (W:=W)).
Proof. by apply returns_act. Qed.

Lemma returns_endpoint admin : returns (getKeycloakEndPoint (W:=W) admin).
Proof. unfold getKeycloakEndPoint, GetPxBackupNamespace. all_return. Qed.

Lemma returns_process method url headers body : returns (processHTTPRequest (W:=W) method url headers body).
Proof. unfold processHTTPRequest. all_return. Qed.
End deletions_end.

#[export] Hint Resolve returns_ask_pwd returns_endpoint returns_process : torpedo.

Section deletions_result.
Context {W : Type} `{AuthEnvReturns W}.

Lemma returns_headers : returns (admin_headers (W:=W)).
Proof. unfold admin_headers, GetCommonHTTPHeaders, GetToken. all_return. Qed.
#[local] Hint Resolve returns_headers : torpedo.

Lemma returns_DeleteUser user : returns (DeleteUser (W:=W) user).
Proof. unfold DeleteUser, FetchIDOfUser, get_list, admin_request. all_return. Qed.

(** C17. Deleting users at once always ends: no schedule of the goroutines goes on for
    ever, and as long as one of them is running one can go on; in particular none
    waits for room in the channel. *)
Theorem DeleteMultipleUsers_ends users (w : W) :
  Acc (flip (step describe_user)) (start DeleteUser users w) ∧
  ∀ g, rtc (step describe_user) (start DeleteUser users w) g →
    DeleteMultipleUsers users w g ∨ ∃ g', step describe_user g g'.
Proof.
  split; [apply group_terminates|]. intros g Hg. destruct (finished g) eqn:Hf; [by left|right].
  eapply group_progress; [|exact Hg|exact Hf]. intros u. apply returns_DeleteUser.
Qed.

(** C14. Whatever the schedule, DeleteMultipleUsers reports success exactly when no
    deletion returned an error; else its error joins one message for each deletion
    that did. *)
Theorem DeleteMultipleUsers_result users (w : W) g :
  DeleteMultipleUsers users w g →
  ∃ outcomes, Forall2 (λ u o, interleaved (DeleteUser u) o) users outcomes ∧
    (joined g = Ok tt ↔ ∀ o, o ∈ outcomes → ∀ e, o ≠ Err e) ∧
    ∀ err, joined g = Err err → ∃ messages,
      messages ≡ₚ omap (message describe_user) (zip users outcomes) ∧ err = Errorf (format (Join messages "; ")).
Proof. intros [Hs Hf]. by eapply joined_result. Qed.

(** The same of groups *)
Theorem DeleteMultipleGroups_result groups (w : W) g :
  DeleteMultipleGroups groups w g →
  ∃ outcomes, Forall2 (λ x o, interleaved (DeleteGroup x) o) groups outcomes ∧
    (joined g = Ok tt ↔ ∀ o, o ∈ outcomes → ∀ e, o ≠ Err e) ∧
    ∀ err, joined g = Err err → ∃ messages,
      messages ≡ₚ omap (message describe_group) (zip groups outcomes) ∧ err = Errorf (format (Join messages "; ")).
Proof. intros [Hs Hf]. by eapply joined_result. Qed.

(** After success every user was deleted or its goroutine panicked: a delete was
    answered for the first user of that name in a listing. *)
Theorem DeleteMultipleUsers_success users (w : W) g :
  DeleteMultipleUsers users w g → joined g = Ok tt →
  ∀ u, u ∈ users →
    (∃ listing answer, listed no_user dec_user "/users" listing ∧
       answered "DELETE" ("/users/" +:+ id_of user_Name user_ID u listing) None answer) ∨
    ∃ m, interleaved (DeleteUser (W:=W) u) (Panic m).
Proof.
  intros [Hs Hf] Hj u Hu. destruct (joined_result _ _ _ _ _ Hs Hf) as (outcomes & Ho & [Hok _] & _).
  apply list_elem_of_lookup in Hu as [i Hi]. destruct (Forall2_lookup_l _ _ _ _ _ Ho Hi) as (o & Hio & Hx).
  destruct o as [[]|e|m|]; [left; by apply DeleteUser_inv| |by eauto|by destruct (returns_DeleteUser u)].
  apply list_elem_of_lookup_2 in Hio. by destruct (Hok Hj _ Hio e).
Qed.
End deletions_result.

(** ** The secret of the administrator *)

(** Secrets and services as the cluster keeps them: reading leaves them alone, and an
    update replaces the data of one secret. *)
Class SecretView (W : Type) := {
  stored : W → gmap (string * string) (option (gmap string string));
  services : W → list (string * string);
}.

Class SecretStore (W : Type) `{AuthEnv W} `{SecretView W} : Prop := {
  ListServices_reads : ∀ w l w', ListServices w = (Ok l, w') → l = services w ∧ stored w' = stored w ∧ services w' = services w;
  GetSecret_reads : ∀ name ns w s w', GetSecret name ns w = (Ok s, w') →
    stored w !! (ns, name) = Some (sec_Data s) ∧ sec_Name s = name ∧ sec_Namespace s = ns ∧
    stored w' = stored w ∧ services w' = services w;
  UpdateSecret_writes : ∀ s w s' w', UpdateSecret s w = (Ok s', w') →
    stored w' = <[(sec_Namespace s, sec_Name s) := sec_Data s]> (stored w) ∧ services w' = services w;
}.

Section secrets.
Context {W Body : Type} `{SecretStore W} `{BackupApi W Body}.

Lemma GetPxBackupNamespace_reads (w : W) ns w' :
  run GetPxBackupNamespace w = (Ok ns, w') →
  Some ns = snd <$> find_first (λ svc, bool_decide (svc.1 = pxbServiceName)) (services w) ∧
  stored w' = stored w ∧ services w' = services w.
Proof.
  unfold GetPxBackupNamespace. rewrite run_bind. intros (l & w1 & Hl & Hf)%bind_Ok_inv.
  rewrite run_try in Hl. unfold attempt in Hl. rewrite run_act in Hl.
  destruct (ListServices w) as [[l'|e|m|] w2] eqn:E; simpl in Hl; unfold lift in Hl; simplify_eq/=.
  destruct (ListServices_reads _ _ _ E) as (-> & Hs & Hv).
  destruct (find_first _ _) as [svc|]; simpl in Hf; unfold lift in Hf; by simplify_eq/=.
Qed.

(** After UpdatePxBackupAdminSecret the secret of px-backup holds the token that was
    issued. *)
Lemma UpdatePxBackupAdminSecret_stores (w : W) w' :
  run UpdatePxBackupAdminSecret w = (Ok tt, w') →
  ∃ token w1 ns m, run GetPxCentralAdminToken w = (Ok token, w1) ∧
    Some ns = snd <$> find_first (λ svc, bool_decide (svc.1 = pxbServiceName)) (services w') ∧
    stored w' !! (ns, AdminTokenSecretName) = Some (Some m) ∧ m !! OrgToken = Some token.
Proof.
  unfold UpdatePxBackupAdminSecret. rewrite run_bind. intros (token & w1 & Ht & Hu)%bind_Ok_inv.
  rewrite run_bind in Hu. apply bind_Ok_inv in Hu as (ns & w2 & Hn & Hu).
  rewrite run_bind_act in Hu. apply bind_Ok_inv in Hu as (s & w3 & Hs & Hu).
  destruct (sec_Data s) as [m|] eqn:Hd; [|done].
  rewrite run_bind_act in Hu. apply bind_Ok_inv in Hu as (s' & w4 & Hw & Hu). simpl in Hu. unfold lift in Hu.
  simplify_eq. apply GetPxBackupNamespace_reads in Hn as (Hns & _ & Hv2).
  destruct (GetSecret_reads _ _ _ _ _ Hs) as (_ & Hname & Hspace & _ & Hv3).
  destruct (UpdateSecret_writes _ _ _ _ Hw) as [Hst Hv4]. simpl in Hst.
  exists token, w1, ns, (<[OrgToken:=token]> m). split_and!; [done| | |by rewrite lookup_insert_eq].
  - by rewrite Hv4, Hv3, Hv2.
  - by rewrite Hst, Hname, Hspace, lookup_insert_eq.
Qed.

(** C16. The context GetAdminCtxFromSecret returns carries the token that Keycloak issued
    to the administrator in the same call: it was written to the secret in the namespace
    of the px-backup service, where it is at the end, and the last step of the call read it
    from there.  The backup driver reads the claims of exactly this token from the
    context. *)
Theorem GetAdminCtxFromSecret_token (w : W) ctx w' :
  run GetAdminCtxFromSecret w = (Ok ctx, w') →
  ∃ token w1 ns m secret w2, run GetPxCentralAdminToken w = (Ok token, w1) ∧ token ≠ "" ∧
    Some ns = snd <$> find_first (λ svc, bool_decide (svc.1 = pxbServiceName)) (services w') ∧
    stored w' !! (ns, AdminTokenSecretName) = Some (Some m) ∧ m !! OrgToken = Some token ∧
    GetSecret AdminTokenSecretName ns w2 = (Ok secret, w') ∧ secret_value secret OrgToken = token ∧
    ctx = GetCtxWithToken token ∧
    GetTokenClaimsFromCtx (Body:=Body) ctx = ParseUnverified (W:=W) (Body:=Body) token.
Proof.
  unfold GetAdminCtxFromSecret. rewrite run_bind. intros ([] & w1 & Hu & Hc)%bind_Ok_inv.
  apply UpdatePxBackupAdminSecret_stores in Hu as (token & w0 & ns & m & Ht & Hns & Hst & Hm).
  rewrite run_bind in Hc. apply bind_Ok_inv in Hc as (ns' & w2 & Hn & Hc).
  apply GetPxBackupNamespace_reads in Hn as (Hns' & Hs2 & Hv2). rewrite <- Hns in Hns'. simplify_eq.
  rewrite run_bind_act in Hc. apply bind_Ok_inv in Hc as (s & w3 & Hs & Hc).
  destruct (GetSecret_reads _ _ _ _ _ Hs) as (Hd & _ & _ & Hs3 & Hv3). rewrite Hs2, Hst in Hd. simplify_eq.
  assert (secret_value s OrgToken = token) as Hv by (unfold secret_value; by rewrite <- Hd; simpl; rewrite Hm).
  rewrite Hv in Hc. cbv zeta in Hc. case_decide as He; [done|]. simpl in Hc. unfold lift in Hc. simplify_eq.
  exists (secret_value s OrgToken), w0, ns, m, s, w2. split_and!; try done; [by rewrite Hv3, Hv2|by rewrite Hs3, Hs2|].
  unfold GetTokenClaimsFromCtx, GetCtxWithToken. cbn [Outgoing]. rewrite lookup_singleton_eq.
  f_equal. exact (TrimPrefix_app "bearer " _).
Qed.
End secrets.

(** ** The name and the address of a user *)

Section details.
Context {W : Type} `{AuthEnv W} `{Clock W}.

(** The name and the address of the user with that id in a listing *)
Definition details_of (userID : string) (d : string * string) : Prop :=
  ∃ users u, listed (W:=W) no_user dec_user "/users" users ∧
    find_first (λ u, bool_decide (user_ID u = userID)) users = Some u ∧ d = (user_Name u, user_Email u).

Lemma details_listing headers token (w : W) users w' :
  headers = bearer_headers token →
  run (keycloakEndPoint ← getKeycloakEndPoint true;
       response ← processHTTPRequest "GET" (keycloakEndPoint +:+ "/users") headers None;
       Fin (Unmarshal_into (dec_slice no_user dec_user) [] response)) w = (Ok users, w') →
  listed (W:=W) no_user dec_user "/users" users.
Proof.
  intros -> Hr%interleaved_run. apply interleaved_bind_Ok in Hr as (ep & _ & Hr).
  apply interleaved_bind_Ok in Hr as (text & Hp & Hr). apply interleaved_lift in Hr.
  apply processHTTPRequest_inv in Hp as (_ & w1 & w2 & resp & Hd & He & Hb).
  exists text. split; [|done]. by exists ep, token, w1, w2, resp.
Qed.

(** An attempt leaves the variables alone or sets them to those of the user. *)
Lemma details_task_keeps headers token userID :
  headers = bearer_headers token →
  preserves (λ wl : W * (string * string), wl.2 = ("", "") ∨ details_of userID wl.2) (details_task headers userID).
Proof.
  intros Hh [w l] Hl. simpl in Hl. unfold details_task, attempt. rewrite up_eq.
  destruct (run _ w) as [[users|e|m|] w1] eqn:E; simpl; try done.
  destruct (find_first _ users) as [u|] eqn:Ef; unfold_m.
  - assert (details_of userID (user_Name u, user_Email u)).
    { exists users, u. split_and!; [by eapply details_listing|done..]. }
    by case_match; right.
  - by destruct l; case_match.
Qed.

(** A name and an address that FetchUserDetailsFromID returns are not empty, and
    belong to the user of that id in one of the listings. *)
Theorem FetchUserDetailsFromID_success userID (w : W) userName email w' :
  FetchUserDetailsFromID userID w = (Ok (userName, email), w') →
  userName ≠ "" ∧ email ≠ "" ∧ details_of userID (userName, email).
Proof.
  unfold FetchUserDetailsFromID. intros (headers & w1 & Hh & Hf)%bind_Ok_inv.
  apply interleaved_run, admin_headers_inv in Hh as [token Hh].
  apply bind_Ok_inv in Hf as ([[] d] & w2 & Hf & Hd). unfold mret, M_ret in Hd. simplify_eq.
  apply wrap_err_Ok_inv in Hf. unfold with_local in Hf.
  destruct (DoRetryWithTimeout _ _ _ _) as [[[]|e|m|] [w3 l]] eqn:E; simplify_eq.
  apply (DoRetryWithTimeout_Ok_keeps (λ wl, wl.2 = ("", "") ∨ details_of userID wl.2)) in E as ([w4 l4] & Hl & Ht);
    [|by eapply details_task_keeps|done|by left].
  pose proof (details_task_keeps (bearer_headers token) token userID eq_refl (w4, l4) Hl) as Hk.
  rewrite Ht in Hk. simpl in Hk. unfold details_task, attempt in Ht. rewrite up_eq in Ht.
  destruct (run _ w4) as [[users|e|m|] w5]; simpl in Ht; unfold_m; try done.
  assert (∀ n m : string, bool_decide (n = "") || bool_decide (m = "") = false → n ≠ "" ∧ m ≠ "") as Hne.
  { intros n m [Hn%bool_decide_eq_false Hm%bool_decide_eq_false]%orb_false_iff. done. }
  destruct (find_first _ users) as [u|]; simpl in Ht; [|destruct l4 as [n m]]; case_match eqn:Hb; simplify_eq;
    destruct (Hne _ _ Hb); (split_and!; [done..|]); by destruct Hk as [Hk|Hk]; [simplify_eq|].
Qed.
End details.
