(* ===== verification/BackupDemo.v ===== *)
(** A small px-backup service, and the theorems of Backup and BackupWaits at work
    on it. *)

From Stdlib Require Import Ascii.
From S2P Require Import Prelude GoStrings Errors Effects GoJson Task PxNodeOps Backup BackupWaits.

Module BackupDemo.

(** The world: a clock, the backups of the organisation, and whether the service
    can be reached. *)
Record Service := { s_now : Z; s_backups : list Object; s_up : bool }.

#[export] Instance service_clock : Clock Service :=
  { now := s_now; sleep := λ d w, {| s_now := s_now w + Z.max 0 d; s_backups := s_backups w; s_up := s_up w |} }.

Definition unreachable : error := GrpcError code_Unavailable "connection error".

Definition page (o : option EnumerateOptions) (l : list Object) : list Object :=
  match o with
  | None => l
  | Some p => take (Z.to_nat (MaxObjects p)) (drop (Z.to_nat (ObjectIndex p)) l)
  end.

Definition by_uid (u : string) (l : list Object) : option Object := find_first (λ o, bool_decide (GetUid o = u)) l.

Definition service_manager (f : Family) : Manager Service string := {|
  m_Create := λ _ _, mret None;
  m_Call := λ k _ r w,
    if decide (k = Delete_)
    then (Ok None, {| s_now := s_now w;
            s_backups := keep (λ o, negb (bool_decide (GetUid o = Req_Uid r))) (s_backups w); s_up := s_up w |})
    else (Ok None, w);
  m_Inspect := λ _ r w,
    (Ok (if s_up w then
           match by_uid (Req_Uid r) (s_backups w) with
           | Some o => (Some (Some o), None)
           | None => (None, Some (GrpcError code_NotFound "object not found"))
           end
         else (None, Some unreachable)), w);
  m_Enumerate := λ _ req w,
    (Ok {| Objects := page (Enum_Options req) (s_backups w); TotalCount := Z.of_nat (length (s_backups w));
           Complete := true |}, w);
|}.

#[export] Instance service_api : BackupApi Service string := {
  manager := service_manager;
  ParseUnverified := λ _, Ok [("sub", JString "user-1")];
  GetAdminCtxFromSecret := mret {| Outgoing := None |};
}.

#[export] Instance service_env : BackupEnv Service string := {
  base64_Decode := λ s, Ok s;
  RESTConfigFromKubeConfig := λ s, Ok s;
  stork_NewForConfig := λ _, mret tt;
  core_NewForConfig := λ _, mret tt;
  core_GetVersion := mret tt;
  GetApplicationBackup := λ _ _, mret [];
  ListApplicationBackups := λ _, mret 0;
  license_FeatureNames := λ _ _, mret ["BackupNodeCount"];
  rules_body := λ l, Join (Action_Value <$> l) ";";
  policy_body := λ _, "policy";
  unix_now := λ w, s_now w / Second;
}.

#[export] Instance service_clients : GrpcClients Service string.
Proof.
  constructor.
  - intros f ctx r w resp e w' Hi. simpl in Hi. destruct (s_up w); [destruct (by_uid _ _)|]; by simplify_eq.
  - intros f ctx r w w' Hi. simpl in Hi. destruct (s_up w); [destruct (by_uid _ _)|]; by simplify_eq.
Qed.

Definition obj (name u : string) (st : Z) : Object :=
  {| Obj_Metadata := Some {| Meta_Name := name; Meta_Uid := u; Meta_Owner := "user-1" |};
     Obj_Status := Some {| Info_Status := st; Info_Reason := "" |}; Obj_BackupStatus := ∅ |}.

(** Two hundred and fifty backups: three pages *)
Definition fillers (n : nat) : list Object :=
  (λ i, obj ("auto-" +:+ Itoa (Z.of_nat i)) ("u-" +:+ Itoa (Z.of_nat i)) StatusInfo_Success) <$> seq 0 n.

Definition nightly : Object := obj "nightly" "uid-n" StatusInfo_Success.
Definition pending : Object := obj "weekly" "uid-w" StatusInfo_Pending.

Definition listing : list Object := fillers 248 ++ [pending; nightly].

Definition s0 : Service := {| s_now := 0; s_backups := listing; s_up := true |}.

Definition user : Ctx := {| Outgoing := Some {[AuthHeader := ["bearer token"]]} |}.

(** The service pages whatever list it has, in worlds with that list. *)
Definition fixed (l : list Object) (f : Family) : Manager Service string := {|
  m_Create := m_Create (service_manager f);
  m_Call := λ _ _ _, mret None;
  m_Inspect := m_Inspect (service_manager f);
  m_Enumerate := λ _ req w,
    (Ok {| Objects := page (Enum_Options req) l; TotalCount := Z.of_nat (length l); Complete := true |}, w);
|}.

Definition fixed_api (l : list Object) : BackupApi Service string := {|
  manager := fixed l;
  ParseUnverified := λ _, Ok [("sub", JString "user-1")];
  GetAdminCtxFromSecret := mret {| Outgoing := None |};
|}.

Lemma fixed_pages f ctx orgID l : @paged_service Service string (fixed_api l) f ctx orgID l.
Proof. intros i w Hi. by exists true, w. Qed.

Lemma listing_nodup : NoDup (GetUid <$> listing).
Proof. apply (bool_decide_unpack (NoDup (GetUid <$> listing))). vm_compute. exact I. Qed.

(** The backup is on the third page. *)
Lemma GetBackupName_GetBackupUID_witness :
  ∃ u, (@GetBackupUID Service string (fixed_api listing) 3 user (GetName nightly) "org" s0).1 = Ok u ∧
    (@GetBackupName Service string (fixed_api listing) 3 user u "org" s0).1 = Ok (GetName nightly).
Proof.
  apply (@GetBackupName_GetBackupUID Service string (fixed_api listing) user "org" listing 3 nightly s0 s0).
  - apply fixed_pages.
  - vm_compute. reflexivity.
  - vm_compute. lia.
  - apply listing_nodup.
  - unfold listing. apply elem_of_app. right. right. left.
Defined.

Definition delete_nightly : Request string :=
  {| Req_Name := "nightly"; Req_Uid := ""; Req_OrgId := "org"; Req_Body := None |}.

Lemma set_missing_type_witness :
  let req' := Build_AnyRequest Backup Delete_ (with_uid delete_nightly "uid-n") in
  dyn_family req' = Backup ∧ dyn_kind req' = Delete_ ∧
  let r := delete_nightly in let r' := dyn_request req' in
  r' = with_uid r (Req_Uid r') ∧
  (Req_Uid r = "" ∧ GetBackupUID 3 user (Req_Name r) (Req_OrgId r) s0 = (Ok (Req_Uid r'), s0) ∨
   Req_Uid r ≠ "" ∧ Req_Uid r' = Req_Uid r ∧ s0 = s0).
Proof.
  apply (set_missing_type Backup [Inspect_; Delete_; Update_; ShareUpdate_]
    (λ org name, GetBackupUID 3 user name org) (Build_AnyRequest Backup Delete_ delete_nightly) s0
    (Build_AnyRequest Backup Delete_ (with_uid delete_nightly "uid-n")) s0).
  vm_compute. reflexivity.
Defined.

Lemma DeleteBackup_by_name_witness :
  let w1 := (@GetBackupUID Service string (fixed_api listing) 3 user (Req_Name delete_nightly) (Req_OrgId delete_nightly) s0).2 in
  match find_first (λ o, bool_decide (GetName o = "nightly")) listing with
  | Some o => @DeleteBackup Service string (fixed_api listing) 3 user delete_nightly s0 =
      @call Service string (fixed_api listing) Backup Delete_ user (with_uid delete_nightly (GetUid o)) w1
  | None => ∃ e, @DeleteBackup Service string (fixed_api listing) 3 user delete_nightly s0 = (Err e, w1)
  end.
Proof.
  apply (@DeleteBackup_by_name Service string (fixed_api listing) 3 user listing delete_nightly s0).
  - apply fixed_pages.
  - vm_compute. reflexivity.
  - vm_compute. lia.
  - reflexivity.
Defined.

(** *** Waiting *)

Definition small (l : list Object) (up : bool) : Service := {| s_now := 0; s_backups := l; s_up := up |}.

Lemma WaitForBackupCompletion_success_witness :
  ∃ backupUID w1 w2 o, GetBackupUID 1 user "nightly" "org" (small [pending; nightly] true) = (Ok backupUID, w1) ∧
    shows Backup user (request "nightly" backupUID "org") w2 (small [pending; nightly] true) o ∧
    GetStatus o = StatusInfo_Success.
Proof.
  apply (WaitForBackupCompletion_success 1 user "nightly" "org" (10 * Minute) (30 * Second)
    (small [pending; nightly] true) (small [pending; nightly] true)).
  vm_compute. reflexivity.
Defined.

(** A pending backup is waited for until the time is over. *)
Example WaitForBackupCompletion_pending :
  s_now (WaitForBackupCompletion 1 user "weekly" "org" (10 * Minute) (30 * Second) (small [pending] true)).2 =
    10 * Minute.
Proof. vm_compute. reflexivity. Qed.

(** The service cannot be reached, the backup is still there, and the wait says
    that it is deleted. *)
Lemma WaitForBackupDeletion_any_error_witness :
  WaitForBackupDeletion 1 user "nightly" "org" (10 * Minute) (30 * Second) (small [nightly] false) =
    (Ok tt, small [nightly] false).
Proof.
  apply (WaitForBackupDeletion_any_error 1 user "nightly" "org" (10 * Minute) (30 * Second) (small [nightly] false)
    "uid-n" (small [nightly] false) None unreachable (small [nightly] false)); vm_compute; reflexivity.
Defined.

Lemma WaitForBackupRunning_first_look_witness :
  WaitForBackupRunning user (request "weekly" "uid-w" "org") (10 * Minute) (30 * Second) (small [pending] true) =
    (Ok tt, small [pending] true).
Proof.
  apply (WaitForBackupRunning_first_look user (request "weekly" "uid-w" "org") (10 * Minute) (30 * Second)
    (small [pending] true) pending (small [pending] true)).
  - vm_compute. reflexivity.
  - vm_compute. reflexivity.
  - apply (bool_decide_unpack (GetStatus pending ∉ ended_badly)). vm_compute. exact I.
Defined.

Lemma BackupScheduleWaitForNBackupsCompletion_success_witness :
  let w := small [nightly] true in
  (∃ w1 resp, enumerate Backup user {| Enum_OrgId := "org";
       Enum_Options := Some {| MaxObjects := u64 1; ObjectIndex := 0 |} |} w1 = (Ok resp, w) ∧
     1 <= Z.of_nat (length (Objects resp)) ∧
     Forall (λ o, GetStatus o = StatusInfo_Success ∨ GetStatus o = StatusInfo_PartialSuccess) (Objects resp)) ∧
  ∀ other, BackupScheduleWaitForNBackupsCompletion user other "org" 1 (10 * Minute) (30 * Second) w = (Ok tt, w).
Proof.
  apply (BackupScheduleWaitForNBackupsCompletion_success user "hourly" "org" 1 (10 * Minute) (30 * Second)
    (small [nightly] true) (small [nightly] true)).
  vm_compute. reflexivity.
Defined.
End BackupDemo.
