(* ===== verification/KeycloakDemo.v ===== *)
(** A small Keycloak server in a cluster, and the theorems of KeycloakProps at work
    on it. *)

From stdpp Require Import relations.
From Stdlib Require Import Ascii.
From S2P Require Import Prelude GoStrings Errors Effects Strconv GoJson GoNet Concur Task PxNodeOps Backup Keycloak KeycloakProps.

Module KeycloakDemo.
Import Keycloak.

(** The world: a clock, the users and groups of the realm, the secrets of the
    cluster, and whether groups can be listed *)
Record Server := {
  k_now : Z;
  k_users : list KeycloakUserRepresentation;
  k_groups : bool;
  k_secrets : gmap (string * string) (option (gmap string string));
}.

#[export] Instance server_clock : Clock Server :=
  { now := k_now; sleep := λ d w, {| k_now := k_now w + Z.max 0 d; k_users := k_users w; k_groups := k_groups w;
                                     k_secrets := k_secrets w |} }.

Definition demo_role (id name : string) : KeycloakRoleRepresentation :=
  the_role id name "Portworx role".

Definition base : string := "http://pxcentral-keycloak-http.px-backup.svc.cluster.local/auth/admin/realms/master".

Definition text (answer : string) : HttpResponse := {| StatusCode := 200; resp_Body := answer; resp_ReadError := None |}.

Definition serve (req : HttpRequest) : M Server HttpResponse := λ w,
  let asks m p := bool_decide (req_Method req = m ∧ req_URL req = base +:+ p) in
  if Contains (req_URL req) "openid-connect/token" then (Ok (text (encode (JObject [("access_token", JString "t1")]))), w)
  else if asks "GET" "/users" then (Ok (text (encode (JArray (enc_user <$> k_users w)))), w)
  else if asks "GET" "/roles" then (Ok (text (encode (JArray [enc_role (demo_role "r1" "px-backup-app.user")]))), w)
  else if asks "GET" "/groups"
       then (if k_groups w then Ok (text (encode (JArray [JObject [("name", JString "dev"); ("id", JString "g1")]])))
             else Err (Errorf "connection refused"), w)
  else if bool_decide (req_Method req = "DELETE")
       then (Ok (text ""), {| k_now := k_now w;
               k_users := keep (λ u, negb (bool_decide (req_URL req = base +:+ "/users/" +:+ user_ID u))) (k_users w);
               k_groups := k_groups w; k_secrets := k_secrets w |})
  else (Ok (text ""), w).

#[export] Instance server_env : AuthEnv Server := {
  Getenv := λ _, "";
  ListServices := mret [("dns", "kube-system"); ("px-backup", "px-backup")];
  GetSecret := λ name ns w,
    match k_secrets w !! (ns, name) with
    | Some d => (Ok {| sec_Name := name; sec_Namespace := ns; sec_Data := d |}, w)
    | None => (Err (Errorf "not found"), w)
    end;
  UpdateSecret := λ s w, (Ok s, {| k_now := k_now w; k_users := k_users w; k_groups := k_groups w;
                                   k_secrets := <[(sec_Namespace s, sec_Name s) := sec_Data s]> (k_secrets w) |});
  http_NewRequest := λ _ _ _, Ok tt;
  client_Do := λ _ req, serve req;
  PxCentralAdminPwd := λ _, "secret&more";
  rand_Intn := λ _, mret 0;
}.

#[export] Instance server_returns : AuthEnvReturns Server.
Proof.
  constructor; intros; simpl; [done| |done|].
  - by case_match.
  - unfold serve. by repeat case_match.
Qed.

#[export] Instance server_view : SecretView Server := {
  stored := k_secrets;
  services := λ _, [("dns", "kube-system"); ("px-backup", "px-backup")];
}.

#[export] Instance server_store : SecretStore Server.
Proof.
  constructor.
  - intros w l w'. simpl. unfold mret, M_ret. by intros [= <- <-].
  - intros name ns w s w'. simpl. destruct (k_secrets w !! (ns, name)); [|done]. by intros [= <- <-].
  - intros s w s' w'. simpl. by intros [= <- <-].
Qed.

#[export] Instance server_api : BackupApi Server string := {
  manager := λ _, {| m_Create := λ _ _, mret None; m_Call := λ _ _ _, mret None;
                     m_Inspect := λ _ _, mret (None, Some (Errorf "no object")); m_Enumerate := λ _ _, throw (Errorf "no objects") |};
  ParseUnverified := λ token, Ok [("sub", JString token)];
  Backup.GetAdminCtxFromSecret := run GetAdminCtxFromSecret;
}.

Definition demo_user (id name email : string) : KeycloakUserRepresentation :=
  {| user_ID := id; user_Name := name; user_FirstName := "A"; user_LastName := "B"; user_EmailVerified := true;
     user_Enabled := true; user_Email := email; user_Credentials := [] |}.

Definition demo : Server := {|
  k_now := 0;
  k_users := [demo_user "u1" "alice" "alice@x.io"; demo_user "u2" "bob" "bob@x.io"];
  k_groups := true;
  k_secrets := {[ ("px-backup", "pxc-backup-secret") := Some {[ "OIDC_ENDPOINT" := default_issuer ]};
                  ("px-backup", "px-backup-admin-secret") := Some ∅ ]};
|}.

Ltac now_utf8 := apply ascii_utf8; reflexivity.

Lemma user_roundtrip_witness :
  Unmarshal_into dec_user no_user (encode (enc_user (new_user "alice" "A" "B" "a@x.io" "p<w"))) =
  Ok (new_user "alice" "A" "B" "a@x.io" "p<w").
Proof. apply user_roundtrip. constructor; try now_utf8. constructor; [split; now_utf8|constructor]. Defined.

Lemma AddRoleToUser_success_witness :
  ∃ users roles userID roleID body answer,
    listed (W:=Server) no_user dec_user "/users" users ∧ first_id user_Name user_ID "bob" users userID ∧
    listed (W:=Server) no_role dec_role "/roles" roles ∧ first_id role_Name role_ID "px-backup-app.user" roles roleID ∧
    answered (W:=Server) "POST" ("/users/" +:+ userID +:+ "/role-mappings/realm") (Some body) answer ∧
    (utf8 roleID →
     Unmarshal_into (dec_slice no_role dec_role) [] body = Ok [the_role roleID "px-backup-app.user" "d"]).
Proof.
  apply (AddRoleToUser_success (W:=Server) "bob" "px-backup-app.user" "d"); [now_utf8..|].
  eapply (interleaved_run _ demo). vm_compute. reflexivity.
Defined.

Lemma GetToken_success_witness :
  ∃ ep form w w' resp t,
    interleaved (getKeycloakEndPoint (W:=Server) false) (Ok ep) ∧
    client_Do httpTimeout
      {| req_Method := "POST"; req_URL := ep +:+ "/protocol/openid-connect/token";
         req_Header := {["Content-Type" := ["application/x-www-form-urlencoded"]]}; req_Body := Some form |} w =
      (Ok resp, w') ∧
    ParseQuery form = Some [("client_id", "pxcentral"); ("grant_type", "password"); ("password", "a&b=c d");
                            ("token-duration", "365d"); ("username", "alice")] ∧
    Unmarshal_into (dec_pointer no_token dec_token) (Some no_token) (resp_Body resp) = Ok (Some t) ∧
    "t1" = AccessToken t.
Proof.
  apply (GetToken_success (W:=Server) "alice" "a&b=c d" "t1").
  eapply (interleaved_run _ demo). vm_compute. reflexivity.
Defined.

Definition groups_down : Server :=
  {| k_now := 0; k_users := []; k_groups := false; k_secrets := k_secrets demo |}.

Lemma DeleteGroup_without_listing_witness :
  run (DeleteGroup "dev") groups_down = run (admin_request "DELETE" base "/groups/" None) groups_down.
Proof.
  apply (DeleteGroup_without_listing "dev" base groups_down groups_down groups_down (Errorf "connection refused"));
    vm_compute; reflexivity.
Defined.

Lemma demo_installation : default_installation demo "px-backup" demo.
Proof. split; [done|]. eexists demo, _. split_and!; [vm_compute; reflexivity..|reflexivity]. Qed.

Lemma getKeycloakEndPoint_admin_witness : run (getKeycloakEndPoint true) demo = (Ok base, demo).
Proof. apply (getKeycloakEndPoint_admin demo "px-backup" demo); [apply demo_installation|reflexivity]. Defined.

(** Two deletions that take turns *)
Definition turns : list nat := concat (repeat [0; 1]%nat 15).

Definition deleted : Group (W:=Server) (A:=string) :=
  default (start DeleteUser [] demo) (schedule describe_user turns (start DeleteUser ["alice"; "bob"] demo)).

Lemma demo_deletes : DeleteMultipleUsers ["alice"; "bob"] demo deleted.
Proof.
  split; [|vm_compute; reflexivity]. apply (schedule_steps _ turns). unfold deleted.
  destruct (schedule _ _ _) eqn:E; [done|]. vm_compute in E. discriminate E.
Qed.

Lemma DeleteMultipleUsers_ends_witness :
  Acc (flip (step describe_user)) (start DeleteUser ["alice"; "bob"] demo) ∧
  ∀ g, rtc (step describe_user) (start DeleteUser ["alice"; "bob"] demo) g →
    DeleteMultipleUsers ["alice"; "bob"] demo g ∨ ∃ g', step describe_user g g'.
Proof. apply (DeleteMultipleUsers_ends ["alice"; "bob"] demo). Defined.

Lemma DeleteMultipleUsers_result_witness :
  ∃ outcomes, Forall2 (λ u o, interleaved (DeleteUser (W:=Server) u) o) ["alice"; "bob"] outcomes ∧
    (joined deleted = Ok tt ↔ ∀ o, o ∈ outcomes → ∀ e, o ≠ Err e) ∧
    ∀ err, joined deleted = Err err → ∃ messages,
      messages ≡ₚ omap (message describe_user) (zip ["alice"; "bob"] outcomes) ∧ err = Errorf (format (Join messages "; ")).
Proof. apply (DeleteMultipleUsers_result ["alice"; "bob"] demo deleted demo_deletes). Defined.

Lemma DeleteMultipleUsers_success_witness :
  (∃ listing answer, listed (W:=Server) no_user dec_user "/users" listing ∧
     answered (W:=Server) "DELETE" ("/users/" +:+ id_of user_Name user_ID "bob" listing) None answer) ∨
  ∃ m, interleaved (DeleteUser (W:=Server) "bob") (Panic m).
Proof.
  apply (DeleteMultipleUsers_success ["alice"; "bob"] demo deleted demo_deletes); [vm_compute; reflexivity|].
  right. left.
Defined.

Lemma GetAdminCtxFromSecret_token_witness :
  ∃ token w1, run GetPxCentralAdminToken demo = (Ok token, w1) ∧ token ≠ "" ∧
    GetTokenClaimsFromCtx (W:=Server) (Body:=string) (GetCtxWithToken "t1") = ParseUnverified (W:=Server) (Body:=string) token.
Proof.
  destruct (GetAdminCtxFromSecret_token (Body:=string) demo (GetCtxWithToken "t1") (run GetAdminCtxFromSecret demo).2)
    as (token & w1 & ns & m & secret & w2 & Ht & Hne & _ & _ & _ & _ & _ & _ & Hc); [vm_compute; reflexivity|].
  exists token, w1. split; [exact Ht|]. split; [exact Hne|exact Hc].
Defined.

Lemma FetchUserDetailsFromID_success_witness :
  "bob" ≠ "" ∧ "bob@x.io" ≠ "" ∧ details_of (W:=Server) "u2" ("bob", "bob@x.io").
Proof. eapply (FetchUserDetailsFromID_success "u2" demo). vm_compute. reflexivity. Defined.
End KeycloakDemo.
