(* ===== verification/PxDemo.v ===== *)
(** A small cluster that implements the interfaces of the Portworx driver, and
    the theorems of PxDriver, PxNodeOps, PxVolume and PureDevices at work on it. *)

From Stdlib Require Import Ascii.
From S2P Require Import Prelude GoStrings Errors Effects GoJson Task OpenStorageApi NodeRegistry PxDriver PxNodeOps PxVolume PureDevices.

Module PxDemo.

(** The world: a clock, the driver's memory, the nodes and volumes of the
    cluster, whether the endpoints answer, and how many more inspections of
    nodes will be answered ([None]: all). *)
Record Demo := {
  d_now : Z;
  d_px : PxState;
  d_nodes : list StorageNode;
  d_vols : list ApiVolume;
  d_up : bool;
  d_looks : option nat;
}.

Definition with_nodes (l : list StorageNode) (w : Demo) : Demo :=
  {| d_now := d_now w; d_px := d_px w; d_nodes := l; d_vols := d_vols w; d_up := d_up w; d_looks := d_looks w |}.

Definition with_vols (l : list ApiVolume) (w : Demo) : Demo :=
  {| d_now := d_now w; d_px := d_px w; d_nodes := d_nodes w; d_vols := l; d_up := d_up w; d_looks := d_looks w |}.

Definition ask {A} (f : Demo → outcome A) : M Demo A := λ w, (f w, w).

#[export] Instance demo_px : PxWorld Demo := {
  PxWorld_Clock := {| now := d_now;
    sleep := λ d w, {| d_now := d_now w + Z.max 0 d; d_px := d_px w; d_nodes := d_nodes w;
                       d_vols := d_vols w; d_up := d_up w; d_looks := d_looks w |} |};
  px := d_px;
  set_px := λ s w, {| d_now := d_now w; d_px := s; d_nodes := d_nodes w; d_vols := d_vols w;
                      d_up := d_up w; d_looks := d_looks w |};
  range_nodes := ask (λ w, Ok (map_to_list (nodeRegistry (d_px w))).*2);
}.

#[export] Instance demo_px_laws : PxWorldLaws Demo.
Proof.
  constructor; try done. intros w. by do 2 eexists.
Qed.

(** Commands: [cluster delete] removes the nodes in maintenance. *)
Definition set_status (st : Status) (n : StorageNode) : StorageNode :=
  {| Id := Id n; Hostname := Hostname n; DataIp := DataIp n; MgmtIp := MgmtIp n;
     SchedulerNodeName := SchedulerNodeName n; NodeStatus := st; Pools := Pools n; Disks := Disks n; NodeLabels := NodeLabels n |}.

Definition demo_reports : list pool_report :=
  [ {| rep_uuid := "73368237-8d36"; rep_status := "Online"; rep_last := ["OPERATION_SUCCESSFUL"] |};
    {| rep_uuid := "24d82c10-0b4f"; rep_status := "In Maintenance"; rep_last := [] |} ].

(** A Pure device attached on the second worker *)
Definition demo_device : lsblk_item :=
  PureDevice "3624a9370ea876434795b4b54000a4128" 2 "6442450944" 6442450944
    [ {| child_last := false; child_name := "sdf"; child_gap := 30; child_size := "6442450944" |};
      {| child_last := true; child_name := "sdh"; child_gap := 30; child_size := "6442450944" |} ].

Definition demo_disk : lsblk_item :=
  OtherDisk "sda2" 29 "133438636032"
    [ {| child_last := true; child_name := "sda"; child_gap := 28; child_size := "137438953472" |} ].

Definition demo_command (n : Node) (cmd : string) (opts : ConnectionOpts) : M Demo string := λ w,
  if Contains cmd "which pxctl" then (Ok "/usr/local/bin/pxctl", w)
  else if Contains cmd "cluster delete"
  then (Ok "node removed",
        with_nodes (keep (λ n, negb (bool_decide (NodeStatus n = STATUS_MAINTENANCE))) (d_nodes w)) w)
  else if Contains cmd "grep -e UUID"
  then (Ok (Join (concat (report_lines <$> demo_reports)) (String newline "")), w)
  else if Contains cmd "-j status" then (Ok (encode (JObject [("status", JString "STATUS_OK")])), w)
  else if decide (Name n = "worker2" ∧ cmd = "dmsetup ls")
  then (Ok ("3624a9370ea876434795b4b54000a4128" +:+ String tab "(253:0)"), w)
  else if decide (Name n = "worker2" ∧ HasPrefix cmd "lsblk" = true)
  then (Ok (Join (concat (item_lines <$> [demo_device; demo_disk])) (String newline "")), w)
  else (Ok "", w).

#[export] Instance demo_node_driver : NodeDriver Demo := {
  RunCommand := demo_command;
  RunCommandWithNoRetry := demo_command;
  Systemctl := λ _ _ _ _, mret tt;
}.

#[export] Instance demo_sched : SchedOps Demo := {
  IsPXEnabled := λ n, mret (bool_decide (Type_ n = TypeWorker));
  IsPXReadyOnNode := λ _, mret true;
  GetServiceEndpoint := mret "10.0.0.100";
  GetTokenFromConfigMap := λ _, mret "token";
  GetPortworxNamespace := mret "kube-system";
  StartPxOnNode := λ _, mret tt;
  StopPxOnNode := λ _, mret tt;
  RestartPxOnNode := λ _, mret tt;
}.

#[export] Instance demo_core : K8sCore Demo := {
  GetService := λ _ _, mret [ {| port_Name := "px-api"; port_Port := 9001; port_TargetPort := 9001 |};
                              {| port_Name := "px-sdk"; port_Port := 9020; port_TargetPort := 9020 |} ];
  AddLabelOnNode := λ _ _ _, mret tt;
  RemoveLabelOnNode := λ _ _, mret tt;
  UnCordonNode := λ _ _ _, mret tt;
}.

Definition demo_inspect (id : string) : M Demo StorageNode := λ w,
  match d_looks w with
  | Some O => (Err (GrpcError code_Internal "transport is closing"), w)
  | looks =>
      (match find_first (λ n, bool_decide (Id n = id)) (d_nodes w) with
       | Some n => Ok n
       | None => Err (GrpcError code_NotFound "node not found")
       end,
       {| d_now := d_now w; d_px := d_px w; d_nodes := d_nodes w; d_vols := d_vols w; d_up := d_up w;
          d_looks := pred <$> looks |})
  end.

(** [/entermaintenance] puts the node with the address into maintenance. *)
Definition demo_rest (url path : string) : M Demo unit := λ w,
  let st := if decide (path = enterMaintenancePath) then STATUS_MAINTENANCE else STATUS_OK in
  (Ok tt, with_nodes ((λ n, if Contains url (MgmtIp n) then set_status st n else n) <$> d_nodes w) w).

#[export] Instance demo_sdk : PxSdk Demo := {
  node_Enumerate := ask (λ w, Ok (Id <$> d_nodes w));
  node_Inspect := demo_inspect;
  cluster_Status := mret STATUS_OK;
  cluster_InspectCurrent := ask (λ w, if d_up w then Ok tt
    else Err (GrpcError code_Unavailable "dial tcp: connect: connection refused"));
  grpc_Dial := λ _, mret tt;
  NewClusterClient := λ _ _, Ok tt;
  NewAuthClusterClient := λ _ _ _, Ok tt;
  legacy_Enumerate := λ _ _, mret tt;
  NewClient := λ _, Ok tt;
  rest_get := demo_rest;
  kvmembers_Do := λ _ _, mret "http://10.0.0.1:9019";
  kvmembers_Unmarshal := λ body, Ok [[body]];
  show_px_nodes := λ l, show_strings (Id <$> l);
  show_px_node := Id;
}.

#[export] Instance demo_background : TriggerApi.BackgroundScheduler Demo :=
  { TriggerApi.schedule := λ f, f }.

#[export] Instance demo_ops_frame : SchedOpsFrame Demo.
Proof. constructor; intros; intros w; simpl; split; done || lia || by left. Qed.

#[export] Instance demo_driver_frame : NodeDriverFrame Demo.
Proof. constructor; intros; intros w; simpl; unfold demo_command; repeat case_match; simpl; split; done || lia. Qed.

#[export] Instance demo_frame : PxFrame Demo.
Proof.
  constructor; [apply _|apply _|..]; intros; intros w; simpl; unfold demo_command, demo_inspect; repeat case_match; simpl; split; done || lia.
Qed.

(** *** A cluster of two storage nodes *)

Definition pool (u : string) (size : Z) : ApiStoragePool :=
  {| Pool_Uuid := u; Pool_Medium := 0; Pool_TotalSize := size; Pool_Used := 0; Pool_Labels := ∅ |}.

Definition sn1 : StorageNode :=
  {| Id := "id1"; Hostname := "host1"; DataIp := "10.0.0.1"; MgmtIp := "10.0.0.1";
     SchedulerNodeName := "worker1"; NodeStatus := STATUS_OK; Pools := [pool "p1" 100]; Disks := ∅; NodeLabels := ∅ |}.
Definition sn2 : StorageNode :=
  {| Id := "id2"; Hostname := "host2"; DataIp := "10.0.0.2"; MgmtIp := "10.0.0.2";
     SchedulerNodeName := "worker2"; NodeStatus := STATUS_OK; Pools := [pool "p2" 200]; Disks := ∅; NodeLabels := ∅ |}.

Definition worker (name u addr : string) (sn : StorageNode) : Node :=
  {| storageNode := Some sn; uuid := u; VolDriverNodeID := Id sn; Name := name; Addresses := [addr];
     UsableAddr := addr; Type_ := TypeWorker; Zone := ""; Region := ""; TopologyZone := "";
     TopologyRegion := ""; IsStorageDriverInstalled := true; IsMetadataNode := false;
     StoragePools := [{| SP_pool := pool "p1" 50; SP_AtInit := pool "p1" 50; SP_WorkloadSize := 7 |}];
     PxPodRestartCount := 0 |}.

Definition n1 : Node := worker "worker1" "u1" "10.0.0.1" sn1.
Definition n2 : Node := worker "worker2" "u2" "10.0.0.2" sn2.

Definition demo_reg : gmap string Node := <["u2" := n2]> (<["u1" := n1]> ∅).

Definition mem : PxState :=
  {| nodeRegistry := demo_reg; refreshEndpoint := false; skipPXSvcEndpoint := false; token := "";
     namespace := "kube-system"; clusterManager := ""; sdkClients := ""; legacyClusterManager := "" |}.

Definition w0 : Demo := {| d_now := 0; d_px := mem; d_nodes := [sn1; sn2]; d_vols := []; d_up := true;
  d_looks := None |}.

(** The same with endpoints that do not answer, and with the second node unknown *)
Definition w_down : Demo :=
  {| d_now := 0; d_px := mem; d_nodes := [sn1; sn2]; d_vols := []; d_up := false;
     d_looks := None |}.
Definition w_gone : Demo := with_nodes [sn1] w0.

Lemma demo_reg_wf : Registry.wf demo_reg.
Proof.
  unfold demo_reg. apply map_Forall_insert_2; [split_and!; [done..|by intros _; eexists]|].
  apply map_Forall_insert_2; [split_and!; [done..|by intros _; eexists]|]. apply map_Forall_empty.
Qed.

(** *** Connecting and refreshing *)

Lemma RefreshDriverEndpoints_wf_witness :
  (RefreshDriverEndpoints "" w0).1 = Ok tt ∧
  Registry.wf (nodeRegistry (px (RefreshDriverEndpoints "" w0).2)).
Proof.
  split; [vm_compute; reflexivity|]. apply (RefreshDriverEndpoints_wf "" w0). apply demo_reg_wf.
Defined.

(** A driver that does not use the service endpoint connects to a worker. *)
Definition w_skip : Demo :=
  {| d_now := 0;
     d_px := {| nodeRegistry := demo_reg; refreshEndpoint := false; skipPXSvcEndpoint := true; token := "";
       namespace := "kube-system"; clusterManager := ""; sdkClients := ""; legacyClusterManager := "" |};
     d_nodes := [sn1; sn2]; d_vols := []; d_up := true; d_looks := None |}.

Lemma setDriver_Ok_witness :
  refreshEndpoint (px (setDriver w_skip).2) = true ∧
  ((refreshEndpoint (px (setDriver w_skip).2) = false ∧ skipPXSvcEndpoint (px w_skip) = false ∧
    ∃ ep, (GetServiceEndpoint w_skip).1 = Ok ep ∧ ep ≠ "" ∧ connected ep (px (setDriver w_skip).2)) ∨
   (refreshEndpoint (px (setDriver w_skip).2) = true ∧
    ∃ addr, worker_address (nodeRegistry (px w_skip)) addr ∧ connected addr (px (setDriver w_skip).2))).
Proof.
  split; [vm_compute; reflexivity|].
  apply (setDriver_Ok w_skip (setDriver w_skip).2). vm_compute. reflexivity.
Defined.

Lemma updateNode_Ok_witness :
  let r := (updateNode [sn1; sn2] (w0, n2)).2 in
  ((IsPXEnabled n2 w0).1 = Ok false ∧ r.2 = n2 ∧ px r.1 = px w0) ∨
  (∃ p address, p ∈ [sn1; sn2] ∧ address ∈ Addresses n2 ∧
     (address = DataIp p ∨ address = MgmtIp p ∨ Name n2 = SchedulerNodeName p) ∧
     storageNode r.2 = Some p ∧ Id p ≠ "" ∧ VolDriverNodeID r.2 = Id p ∧
     IsStorageDriverInstalled r.2 = true ∧ uuid r.2 = uuid n2 ∧
     is_Some (nodeRegistry (px w0) !! uuid n2) ∧
     nodeRegistry (px r.1) = <[uuid n2 := r.2]> (nodeRegistry (px w0))).
Proof.
  apply (updateNode_Ok [sn1; sn2] w0 n2 (updateNode [sn1; sn2] (w0, n2)).2.1
    (updateNode [sn1; sn2] (w0, n2)).2.2). vm_compute. reflexivity.
Defined.

(** The pool of [n1] was recorded with size 50 and a workload of 7. *)
Lemma updateNode_resets_initial_pools_witness :
  StoragePools (updateNode [sn1; sn2] (w0, n1)).2.2 =
    (λ p, {| SP_pool := p; SP_AtInit := p; SP_WorkloadSize := 0 |}) <$> Pools sn1.
Proof.
  apply (updateNode_resets_initial_pools [sn1; sn2] w0 n1 (updateNode [sn1; sn2] (w0, n1)).2.1
    (updateNode [sn1; sn2] (w0, n1)).2.2 sn1).
  - vm_compute. reflexivity.
  - vm_compute. reflexivity.
  - vm_compute. reflexivity.
  - discriminate.
Defined.

(** *** Nodes *)

Lemma GetNodePoolsStatus_reads_witness :
  (GetNodePoolsStatus n1 w0).1 =
    Ok (list_to_map [("73368237-8d36", "Online"); ("24d82c10-0b4f", "In Maintenance")]).
Proof.
  rewrite (GetNodePoolsStatus_reads n1 demo_reports w0 w0 w0 "sudo /usr/local/bin/pxctl").
  - reflexivity.
  - discriminate.
  - unfold demo_reports, report_ok, field_ok. simpl.
    repeat first [apply Forall_cons_2 | apply Forall_nil_2 | split];
      first [discriminate | vm_compute; reflexivity].
  - vm_compute. reflexivity.
  - vm_compute. reflexivity.
Defined.

Lemma WaitDriverUpOnNode_success_witness :
  ∃ wl n', saw_driver_up wl ∧ ∃ w, IsPXReadyOnNode n' w = (Ok true, w0).
Proof.
  apply (WaitDriverUpOnNode_success n1 (5 * Minute) "5m0s" w0 w0). vm_compute. reflexivity.
Defined.

Lemma WaitDriverDownOnNode_success_witness :
  ∃ w e w', testAndSetEndpointUsingNodeIP "10.0.0.1" w = (Err e, w') ∧
    (Contains (Error e) "connect: connection refused" = true ∨
     Contains (Error e) "i/o timeout" = true).
Proof.
  apply (WaitDriverDownOnNode_success n1 w_down (WaitDriverDownOnNode n1 w_down).2); [vm_compute; reflexivity|by left].
Defined.

(** Entering maintenance takes one request, three minutes and one look. *)
Lemma EnterMaintenance_success_witness :
  (∃ w1 n w2, maintenanceOp n enterMaintenancePath w1 = (Ok tt, w2)) ∧
  ∃ wl apiNode n', GetDriverNode 2 wl = (Ok apiNode, ((EnterMaintenance 2 n2 w0).2, n')) ∧
    NodeStatus apiNode = STATUS_MAINTENANCE.
Proof.
  apply (EnterMaintenance_success 2 n2 w0 (EnterMaintenance 2 n2 w0).2). vm_compute. reflexivity.
Defined.

Lemma GetNodeStatus_sound_witness :
  GetNodeStatus n2 w_gone = (Ok STATUS_NONE, w_gone) ∧
  ((∃ w1 resp, (refresh_client ≫= λ _, node_Inspect (VolDriverNodeID n2)) w1 = (Ok resp, w_gone) ∧
     STATUS_NONE = NodeStatus resp) ∨
   (STATUS_NONE = STATUS_NONE ∧ ∃ err, isNodeNotFound err = true)).
Proof.
  split; [vm_compute; reflexivity|].
  apply (GetNodeStatus_sound n2 STATUS_NONE w_gone w_gone). vm_compute. reflexivity.
Defined.

Lemma node_ops_wf_witness :
  let '(w', n') := (run_ops 2 [OpEnterMaintenance; OpDecommission; OpRecoverNode] (w0, n2)).2 in
  Registry.wf (nodeRegistry (px w')) ∧ Registry.driver_info n'.
Proof.
  apply (node_ops_wf 2 [OpEnterMaintenance; OpDecommission; OpRecoverNode] w0 n2).
  - apply demo_reg_wf.
  - intros _. by eexists.
Defined.

(** The node is gone at the first look after the removal. *)
Definition decommissioned : Demo * Node := (DecommissionNode 2 (w0, n2)).2.

Lemma DecommissionNode_success_witness :
  nodeRegistry (px decommissioned.1) !! uuid decommissioned.2 = Some decommissioned.2 ∧
  IsStorageDriverInstalled decommissioned.2 = false ∧
  ∃ w1 l, getPxNodes false w1 = (Ok l, decommissioned.1) ∧
    ∀ sn p, storageNode decommissioned.2 = Some sn → p ∈ l → Hostname p ≠ Hostname sn.
Proof.
  apply (DecommissionNode_success 2 w0 n2 decommissioned.1 decommissioned.2).
  vm_compute. reflexivity.
Defined.

(** The connection is lost after the node has been seen in maintenance. *)
Definition w_lost : Demo :=
  {| d_now := 0; d_px := mem; d_nodes := [sn1; sn2]; d_vols := []; d_up := true; d_looks := Some 1%nat |}.

Definition lost_in_maintenance : Demo * Node := (decommission_maintenance 2 (w_lost, n2)).2.

Lemma DecommissionNode_inspect_failure_witness :
  DecommissionNode 2 (w_lost, n2) =
    (Panic "invalid memory address or nil pointer dereference",
     (lost_in_maintenance.1, lost_in_maintenance.2)).
Proof.
  apply (DecommissionNode_inspect_failure 2 w_lost n2 w_lost lost_in_maintenance
    lost_in_maintenance.1 (GrpcError code_Internal "transport is closing")).
  - vm_compute. reflexivity.
  - vm_compute. reflexivity.
  - vm_compute. reflexivity.
Defined.

Lemma GetDriverNode_fuel_witness :
  GetDriverNode 1 (w0, n1) = (Ok sn1, (GetDriverNode 0 (w0, n1)).2).
Proof.
  apply (GetDriverNode_fuel 0 1 (w0, n1) (Ok sn1) (GetDriverNode 0 (w0, n1)).2).
  - lia.
  - vm_compute. reflexivity.
  - discriminate.
Defined.

(** *** Volumes *)

Definition demo_vol (id : string) (w : Demo) : option ApiVolume :=
  find_first (λ v, bool_decide (Vol_Id v = id) || bool_decide (Locator_Name v = id)) (d_vols w).

Definition demo_vol_inspect (id : string) : M Demo (option ApiVolume) := λ w,
  match demo_vol id w with
  | Some v => (Ok (Some v), w)
  | None => (Err (GrpcError code_NotFound "volume not found"), w)
  end.

#[export] Instance demo_vol_sdk : VolumeSdk Demo := {
  vol_Inspect := demo_vol_inspect;
  vol_InspectAs := λ _, demo_vol_inspect;
  node_InspectAs := λ _, demo_inspect;
  vol_Enumerate := ask (λ w, Ok (Vol_Id <$> d_vols w));
  vol_Create := λ name _ _, mret name;
  vol_Update := λ _ _, mret tt;
  vol_Delete := λ id w, (Ok tt, with_vols (keep (λ v, negb (bool_decide (Vol_Id v = id))) (d_vols w)) w);
  vol_Clone := λ id _, mret id;
  vol_SnapshotCreateAs := λ _ _ _, mret tt;
  mount_Attach := λ id, mret ("/dev/pxd/" +:+ id);
  mount_Detach := λ _, mret tt;
  mount_Unmount := λ _ _, mret tt;
  pool_EnumerateRebalanceJobs := mret [("job1", REBALANCE_DONE)];
  pool_ResizeByPercentage := λ _ _ _, mret tt;
}.

Definition spec2 : VolumeSpec :=
  {| Ephemeral := false; Spec_Size := 1073741824; Spec_Format := 2; BlockSize := 4096; HaLevel := 2;
     SnapshotInterval := 0; AggregationLevel := 1; Sticky := false; Spec_Group := None;
     GroupEnforced := false; Spec_IoProfile := IO_PROFILE_AUTO; Spec_ReplicaSet := None;
     Spec_ProxySpec := None |}.

Definition vol1 : ApiVolume :=
  {| Vol_Id := "vid1"; Locator_Name := "pvc-1"; VolumeLabels := {["app" := "db"; "pvc" := "x"]};
     Vol_Spec := spec2; Vol_Readonly := false; Source_Parent := Some ""; Vol_Status := VOLUME_STATUS_UP;
     Vol_State := VOLUME_STATE_ATTACHED; AttachedState := ATTACH_STATE_EXTERNAL;
     AttachedOn := "10.0.0.2"; AttachPath := ["/var/lib/osd/mounts/pvc-1"];
     DevicePath := "/dev/pxd/pxd1"; ReplicaSets := [{| Nodes := ["id1"; "id2"]; PoolUuids := [] |}];
     RuntimeState := [{["RuntimeState" := "clean"]}]; DerivedIoProfile := IO_PROFILE_DB_REMOTE |}.

#[export] Instance demo_vol_env : VolumeEnv Demo := {
  GetVolumeName := Volume_Name;
  ValidateSnapshot := λ _ _, mret tt;
  GetPersistentVolume := λ _, mret 1073741824;
  SpecFromOpts := λ _, Ok (spec2, {["app" := "db"; "pvc_name" := "x"]});
  sharp_v := λ _, "";
  range_params := λ m, mret (map_to_list m);
}.

#[export] Instance demo_vol_env_laws : VolumeEnvLaws Demo.
Proof. constructor. intros m w. by do 2 eexists. Qed.

Definition w_vol : Demo := with_vols [vol1] w0.

Definition pvc1 : Volume :=
  {| ID := "vid1"; Volume_Name := "pvc-1"; Namespace := "db"; Annotations := ∅; Labels := ∅;
     Size := 1073741824; RequestedSize := 1073741824; Shared := false; Raw := false |}.

Definition params1 : gmap string string :=
  {["repl" := "2"; "io_profile" := "auto"; "labels" := "app=db"; "size" := "1"]}.

Lemma WaitForReplicationToComplete_success_witness :
  ∃ w1 v w2, vol_Inspect (GetVolumeName pvc1) w1 = (Ok (Some v), w2) ∧ replicated v 2.
Proof.
  apply (WaitForReplicationToComplete_success pvc1 2 (5 * Minute) w_vol w_vol).
  vm_compute. reflexivity.
Defined.

Lemma WaitForReplicationToComplete_terminates_witness :
  ∃ o w', WaitForReplicationToComplete pvc1 3 (5 * Minute) w_vol = (o, w') ∧
    (o = Ok tt ∨ ∃ e, o = Err e).
Proof.
  apply (WaitForReplicationToComplete_terminates pvc1 3 (5 * Minute) w_vol).
  - intros w. simpl. unfold demo_vol_inspect. destruct (demo_vol _ w); do 2 eexists; split; try done;
      (split; [lia|]); eauto.
  - by exists w_vol.
Defined.


Lemma CleanupVolume_success_witness :
  ∃ ids w1 w2, vol_Enumerate w1 = (Ok ids, w2) ∧
  ∃ seen rest, ids = seen ++ rest ∧
    (∀ id, id ∈ seen → ∃ w3 v w4, vol_Inspect id w3 = (Ok (Some v), w4) ∧ Locator_Name v ≠ "pvc-1") ∧
    (rest = [] ∨ ∃ id rest' w3 v w4, rest = id :: rest' ∧ vol_Inspect id w3 = (Ok (Some v), w4) ∧
       Locator_Name v = "pvc-1" ∧ removed v).
Proof.
  apply (CleanupVolume_success "pvc-1" w_vol (CleanupVolume "pvc-1" w_vol).2). vm_compute. reflexivity.
Defined.

Lemma ValidateDeleteVolume_success_witness :
  ∃ w1, let '(o, w2) := (refresh_client ≫= λ _, vol_Inspect (ID pvc1)) w1 in
    w2 = w0 ∧ match o with
    | Ok None => True
    | Ok (Some _) => Shared pvc1 = true
    | Err e => errIsNotFound e = true
    | _ => False
    end.
Proof. apply (ValidateDeleteVolume_success pvc1 w0 w0). vm_compute. reflexivity. Defined.

Lemma ValidateRebalanceJobs_success_witness :
  ∃ w1 jobs, pool_EnumerateRebalanceJobs w1 = (Ok jobs, w0) ∧
    Forall (λ j, j.2 = REBALANCE_DONE) jobs.
Proof. apply (ValidateRebalanceJobs_success w0 w0). vm_compute. reflexivity. Defined.

Definition found_node : outcome (option Node) * Demo := GetNodeForVolume pvc1 (1 * Minute) (10 * Second) w_vol.

Lemma GetNodeForVolume_result_witness :
  found_node.1 = Ok (Some n2) ∧
  (refreshEndpoint (px found_node.2) = false ∧ IsStorageDriverInstalled n2 = true ∧
   ∃ w1 w2 w3 u v, nodeRegistry (px w1) !! u = Some n2 ∧
     IsVolumeAttachedOnNode v n2 w2 = (Ok true, w3)).
Proof.
  split; [vm_compute; reflexivity|].
  apply (GetNodeForVolume_result pvc1 (1 * Minute) (10 * Second) w_vol (Ok (Some n2)) found_node.2).
  vm_compute. reflexivity.
Defined.

(** *** Pure devices *)

#[export] Instance demo_map_order : MapOrder Demo := { range_map := λ V m, mret (map_to_list m) }.

#[export] Instance demo_map_order_laws : MapOrderLaws Demo.
Proof. constructor. intros V m w. by do 2 eexists. Qed.

Definition pure_vol : ApiVolume :=
  {| Vol_Id := "vid2"; Locator_Name := "pvc-2"; VolumeLabels := ∅;
     Vol_Spec := {| Ephemeral := false; Spec_Size := 6442450944; Spec_Format := 2; BlockSize := 4096;
       HaLevel := 1; SnapshotInterval := 0; AggregationLevel := 1; Sticky := false; Spec_Group := None;
       GroupEnforced := false; Spec_IoProfile := IO_PROFILE_AUTO; Spec_ReplicaSet := None;
       Spec_ProxySpec := Some {| Proxy_Protocol := PROXY_PROTOCOL_PURE_BLOCK;
                                 PureBlock_SerialNum := Some "EA876434795B4B54000A4128" |} |};
     Vol_Readonly := false; Source_Parent := None; Vol_Status := VOLUME_STATUS_UP;
     Vol_State := VOLUME_STATE_ATTACHED; AttachedState := ATTACH_STATE_EXTERNAL;
     AttachedOn := "10.0.0.2"; AttachPath := []; DevicePath := "/dev/mapper/x"; ReplicaSets := [];
     RuntimeState := []; DerivedIoProfile := IO_PROFILE_NONE |}.

Definition w_pure : Demo := with_vols [pure_vol] w0.

Definition path (last : bool) (name : string) (gap : nat) (size : string) : lsblk_child :=
  {| child_last := last; child_name := name; child_gap := gap; child_size := size |}.

(** The listing in the comment of parseLsblkOutput, with the line end of a command *)
Definition sample_items : list lsblk_item :=
  [ OtherDisk "sdd" 30 "137438953472" [];
    OtherDisk "sdb" 31 "34359738368" [];
    PureDevice "3624a9370ea876434795b4b54000a4128" 2 "6442450944" 6442450944
      [path false "sdf" 30 "6442450944"; path false "sdi" 30 "6442450944"; path false "sdg" 30 "6442450944";
       path true "sdh" 30 "6442450944"];
    OtherDisk "sde2" 29 "134217728000" [path true "sde" 28 "137438953472"];
    OtherDisk "sde1" 31 "3219128320" [path true "sde" 28 "137438953472"];
    OtherDisk "sdc" 30 "137438953472" [];
    OtherDisk "sda2" 29 "133438636032" [path true "sda" 28 "137438953472"];
    OtherDisk "sda1" 31 "3999268864" [path true "sda" 28 "137438953472"];
    EmptyLine ].

Example sample_lines :
  take 5 (concat (item_lines <$> sample_items)) =
  [ "sdd                               137438953472";
    "sdb                                34359738368";
    "3624a9370ea876434795b4b54000a4128   6442450944";
    "|-sdf                               6442450944";
    "|-sdi                               6442450944" ].
Proof. reflexivity. Qed.

Lemma parseLsblkOutput_reads_witness :
  parseLsblkOutput (Join (concat (item_lines <$> sample_items)) (String newline "")) =
    Ok {["3624a9370ea876434795b4b54000a4128" :=
          {| WWID := "3624a9370ea876434795b4b54000a4128"; SinglePaths := ["sdf"; "sdi"; "sdg"; "sdh"];
             Entry_Size := 6442450944 |}]}.
Proof.
  rewrite (parseLsblkOutput_reads sample_items).
  - reflexivity.
  - discriminate.
  - repeat first [apply Forall_cons_2 | apply Forall_nil_2 | (left; vm_compute; reflexivity) | split]; try discriminate;
      vm_compute; try reflexivity; exact I.
Defined.

(** The device of the volume is the only one, and the baseline was empty. *)
Lemma ValidatePureLocalVolumePaths_success_witness :
  ∃ w1 current w2, getCurrentPureLocalVolumePaths w1 = (Ok current, w2) ∧
    (∀ node k e, has ∅ node k e → ∃ e', has current node k e') ∧
    (∀ node k e, has current node k e →
       (∃ e', has ∅ node k e') ∨
       ∃ v serial, fada_volume v serial ∧ device_of v serial node k e).
Proof.
  apply (ValidatePureLocalVolumePaths_success w_pure ∅ (w_pure, ∅)). vm_compute. reflexivity.
Defined.

(** The listings of the unit tests of parseLsblkOutput, with the mark of the
    last child as it is printed *)
Example lsblk_partition_listing :
  parseLsblkOutput (Join
    [ "3624a9370afb23ff64fc142a600062859p1    3219128320";
      "`-3624a9370afb23ff64fc142a600062859 1073741824000";
      "  |-sdf                             1073741824000";
      "  `-sdg                             1073741824000";
      "sdd                                  137438953472";
      "3624a9370afb23ff64fc142a600062859-part2 1070521630208";
      "`-3624a9370afb23ff64fc142a600062859 1073741824000";
      "  |-sdf                             1073741824000";
      "  `-sdg                             1073741824000";
      "sda1                                   3999268864";
      "`-sda                                137438953472";
      "3624a9370afb23ff64fc142a600062868     34359738368";
      "|-sdp                                 34359738368";
      "`-sdap                                34359738368" ] (String newline "")) =
  Ok {[ "3624a9370afb23ff64fc142a600062859" :=
          {| WWID := "3624a9370afb23ff64fc142a600062859"; SinglePaths := ["sdf"; "sdg"];
             Entry_Size := 1073741824000 |};
        "3624a9370afb23ff64fc142a600062868" :=
          {| WWID := "3624a9370afb23ff64fc142a600062868"; SinglePaths := ["sdp"; "sdap"];
             Entry_Size := 34359738368 |} ]}.
Proof. vm_compute. reflexivity. Qed.
End PxDemo.
