(* ===== verification/PxDemoPools.v ===== *)
(** The theorems of AutopilotRules and PxExpansion at work, on the cluster of
    PxDemo with an autopilot service. *)

From Stdlib Require Import Ascii.
From S2P Require Import Prelude GoStrings Errors Effects Float64 Strconv Task OpenStorageApi NodeRegistry AutopilotRules PxDriver PxExpansion PxNodeOps PxVolume PureDevices PxDemo.

Module PoolDemo.
Import PxDemo.

#[export] Instance demo_expansion : ExpansionEnv := {
  ParseQuantity := λ s, if decide (s = "10Gi") then Ok 10737418240 else Err (Errorf "quantities must match");
  f64_outside := λ _, 0;
  range_disks := map_to_list;
  range_labels := map_to_list;
}.

(** From 5 GB by half: 7.5 GB, then 11.25 GB, which is above 10 GB. *)
Example volume_estimate :
  EstimateVolumeExpand 5 (PVCRuleByTotalSize 10 50 "") 5000000000 0 = Ok (11250000000, 2).
Proof. vm_compute. reflexivity. Qed.

Lemma EstimateVolumeExpand_total_size_witness :
  ∃ k, first_reach (grow 50) (10 * GB) 5000000000 k ∧
    ∀ fuel, (k < fuel)%nat →
      EstimateVolumeExpand fuel (PVCRuleByTotalSize 10 50 "") 5000000000 0 =
        Ok (Nat.iter k (grow 50) 5000000000, Z.of_nat k).
Proof.
  apply (EstimateVolumeExpand_total_size 10 50 5000000000 0); unfold two64, GB; lia.
Defined.

(** One percent of 50 bytes is nothing. *)
Lemma EstimateVolumeExpand_stuck_witness :
  EstimateVolumeExpand 1000 (PVCRuleByTotalSize 1 1 "") 50 0 = Diverge.
Proof. apply (EstimateVolumeExpand_stuck 1 1 50 0 1000); unfold two64, GB; lia. Defined.

(** A usage rule that always matches stops at its maximal size. *)
Lemma EstimateVolumeExpand_max_size_witness :
  ∃ k size count, 5000000000 <= size <= 10737418240 ∧
    stops_after 1000 (expression PxVolumeUsagePercentMetric LabelSelectorOpGt ["0"]) 50 10737418240 5000000000 0 k (size, count) ∧
    ∀ fuel, (Z.to_nat (10737418240 - 5000000000) < fuel)%nat →
      EstimateVolumeExpand fuel (PVCRuleByUsageCapacity 0 50 "10Gi") 5000000000 1000 = Ok (size, count).
Proof.
  apply (EstimateVolumeExpand_max_size (PVCRuleByUsageCapacity 0 50 "10Gi")
    (expression PxVolumeUsagePercentMetric LabelSelectorOpGt ["0"]) "0" []
    {| Action_Name := VolumeSpecAction;
       Params := <[RuleMaxSize := "10Gi"]> {[RuleActionsScalePercentage := Itoa 50]} |} 50 10737418240
    5000000000 1000); try reflexivity; try (unfold two64; lia).
  - by left.
  - split_and!; reflexivity.
Defined.

Example max_size_estimate :
  EstimateVolumeExpand 5 (PVCRuleByUsageCapacity 0 50 "10Gi") 5000000000 1000 = Ok (10737418240, 2).
Proof. vm_compute. reflexivity. Qed.

(** *** A pool of two disks of 32 GiB *)

Definition disk (path : string) : StorageResource := {| Disk_Path := path; Disk_Medium := 1; Disk_Size := 32 * GiB |}.

Definition api_pool (size : Z) : ApiStoragePool :=
  {| Pool_Uuid := "p1"; Pool_Medium := 1; Pool_TotalSize := size; Pool_Used := 0; Pool_Labels := {["tier" := "gold"]} |}.

Definition pool64 : StoragePool :=
  {| SP_pool := api_pool (64 * GiB); SP_AtInit := api_pool (64 * GiB); SP_WorkloadSize := 0 |}.

Definition disk_node : StorageNode :=
  {| Id := "id1"; Hostname := "host1"; DataIp := "10.0.0.1"; MgmtIp := "10.0.0.1";
     SchedulerNodeName := "worker1"; NodeStatus := STATUS_OK; Pools := [api_pool (64 * GiB)];
     Disks := {["/dev/sdb" := disk "/dev/sdb"; "/dev/sdc" := disk "/dev/sdc"]}; NodeLabels := ∅ |}.

Definition disk_worker : Node := worker "worker1" "u1" "10.0.0.1" disk_node.

Lemma EstimatePoolExpandSize_total_size_witness :
  ∃ k, first_reach (pool_grow 25 2) (100 * GiB) (64 * GiB) k ∧
    ∀ fuel, (k < fuel)%nat →
      let t := Nat.iter k (pool_grow 25 2) (64 * GiB) in
      EstimatePoolExpandSize fuel (PoolRuleByTotalSize 100 25 RuleScaleTypeResizeDisk ∅) pool64 disk_worker =
        Ok (t - t mod GiB).
Proof.
  apply (EstimatePoolExpandSize_total_size 100 25 RuleScaleTypeResizeDisk ∅ pool64 disk_worker disk_node).
  - lia.
  - unfold two64. lia.
  - discriminate.
  - discriminate.
  - reflexivity.
  - vm_compute. discriminate.
  - vm_compute. reflexivity.
  - split; vm_compute; reflexivity.
  - vm_compute. discriminate.
  - vm_compute. discriminate.
Defined.

(** 96 GiB, then 144 GiB; a disk more and a disk more with [add-disk] *)
Example pool_estimates :
  EstimatePoolExpandSize 5 (PoolRuleByTotalSize 100 25 RuleScaleTypeResizeDisk ∅) pool64 disk_worker =
    Ok (144 * GiB) ∧
  EstimatePoolExpandSize 5 (PoolRuleByTotalSize 100 25 RuleScaleTypeAddDisk ∅) pool64 disk_worker =
    Ok (128 * GiB) ∧
  EstimatePoolExpandSize 5 (PoolRuleByAvailableCapacity 95 25 RuleScaleTypeAddDisk) pool64 disk_worker =
    Ok (128 * GiB).
Proof. vm_compute. done. Qed.

(** *** The whole validation *)

#[export] Instance demo_autopilot : AutopilotApi Demo := {
  ListAutopilotRules := mret [PoolRuleByTotalSize 100 25 RuleScaleTypeAddDisk {["tier" := "gold"]}];
  ListEvents := λ _, ask (λ w, Ok [ {| Reason := "Transition"; Message := "rule: Normal => Triggered";
                                       LastTimestamp := d_now w / Second |} ]);
  ListActionApprovals := λ _, mret ["approval-1"];
}.

(** The pools of the cluster are smaller than the rule asks for at first and
    the cluster never expands them, so the expected sizes are what they are. *)
Definition w_pools : Demo :=
  {| d_now := 0; d_px := mem; d_nodes := [sn1; sn2]; d_vols := []; d_up := true; d_looks := None |}.

Lemma ValidateStoragePools_success_witness :
  (ValidateStoragePools "" 5 w_pools).1 = Ok tt ∧
  (ListAutopilotRules w_pools = (Ok [], (ValidateStoragePools "" 5 w_pools).2) ∨
  ∃ rules w1 expected w2, ListAutopilotRules w_pools = (Ok rules, w1) ∧
    getExpectedPoolSizes "" 5 rules w1 = (Ok expected, w2) ∧
    ((∀ pool, worker_pool (ValidateStoragePools "" 5 w_pools).2 pool →
        Pool_TotalSize (SP_pool pool) = default 0 (expected !! Pool_Uuid (SP_pool pool))) ∨
     (∃ pool, worker_pool (ValidateStoragePools "" 5 w_pools).2 pool ∧
        default 0 (expected !! Pool_Uuid (SP_pool pool)) < Pool_TotalSize (SP_pool pool)))).
Proof.
  split; [vm_compute; reflexivity|].
  apply (ValidateStoragePools_success "" 5 w_pools (ValidateStoragePools "" 5 w_pools).2).
  vm_compute. reflexivity.
Defined.

Lemma WaitForAutopilotEvent_success_witness :
  ["Normal => Triggered"] ≠ [] ∧
  ∃ w1 events, ListEvents ("involvedObject.kind=AutopilotRule,involvedObject.name=" +:+ "pvc-total-10-scale-50") w1 =
      (Ok events, w0) ∧
    Exists (matching_event "Transition" ["Normal => Triggered"] (now w0 / Second)) events.
Proof.
  apply (WaitForAutopilotEvent_success (PVCRuleByTotalSize 10 50 "") "Transition" ["Normal => Triggered"] w0 w0).
  vm_compute. reflexivity.
Defined.

(** A rule for label [tier: gold] does not apply to a pool that has this label
    and another one whose name is [gold]. *)
Example label_of_value :
  let pool := {| SP_pool := {| Pool_Uuid := "p"; Pool_Medium := 0; Pool_TotalSize := 0; Pool_Used := 0;
                               Pool_Labels := {["tier" := "gold"; "gold" := "yes"]} |};
                 SP_AtInit := api_pool 0; SP_WorkloadSize := 0 |} in
  let rule := PoolRuleByTotalSize 100 25 RuleScaleTypeAddDisk {["tier" := "gold"]} in
  labels_match rule pool = false ∧ isAutopilotMatchStoragePoolLabels rule [pool] = true.
Proof. vm_compute. done. Qed.
End PoolDemo.
