(* ===== verification/PxDemoDrives.v ===== *)
(** The theorems of PxDrives at work, on the cluster of PxDemo with drives to
    add. *)

From Stdlib Require Import Ascii.
From S2P Require Import Prelude GoStrings Errors Effects GoJson Float64 Strconv Task OpenStorageApi NodeRegistry PxDriver PxNodeOps PxVolume PureDevices PxDrives PxDemo.

Module DriveDemo.
Import PxDemo.

Definition used_report : list (string * string) :=
  [(quoted "73368237-8d36", "123456789"); (quoted "24d82c10-0b4f", "0")].

(** pxctl of the demo: a drive is added at once but its status is still pending. *)
Definition drive_command (n : Node) (cmd : string) (opts : ConnectionOpts) : M Demo string :=
  if Contains cmd "which pxctl" then mret "/usr/local/bin/pxctl"
  else if Contains cmd "-o status" then mret "pending"
  else if Contains cmd "drive add" then mret "added"
  else if Contains cmd "ls -l /dev/sdd" then mret (Join ["/dev/sdd"; "/dev/sdd1"] (String newline ""))
  else if Contains cmd "ls -l" then mret "/dev/sdc"
  else if Contains cmd "grep -e uuid" then mret (Join (concat (used_lines <$> used_report)) (String newline ""))
  else if Contains cmd "cluster options list"
  then mret (encode (JObject [("ReplMoveTimeoutMinutes", JNumber "1440"); ("DomainPolicy", JString "strict");
                              ("AutoFstrim", JBool true)]))
  else if Contains cmd "-j" then mret (encode (JArray [JObject [("id", JString "987")]; JObject []]))
  else mret "".

#[export] Instance drive_driver : NodeDriver Demo := {
  RunCommand := drive_command;
  RunCommandWithNoRetry := drive_command;
  Systemctl := λ _ _ _ _, mret tt;
}.

Definition status_line (s : string) : statusJSON := {| Status_ := s; Error_ := ""; Cmd_ := "drive add" |}.

#[export] Instance drive_services : DriveServices Demo := {
  GetBlockDrives := λ _, mret
    [ {| Drive_Path := "/dev/sdb"; MountPoint := "/"; FSType := "ext4"; Drive_Type := "disk" |};
      {| Drive_Path := "/dev/sdc"; MountPoint := ""; FSType := ""; Drive_Type := "disk" |};
      {| Drive_Path := "/dev/sdd"; MountPoint := ""; FSType := ""; Drive_Type := "disk" |} ];
  sdk_JournalDev := mret "auto";
  pool_Resize := λ _ _ _ _, mret tt;
  vol_EnumerateWithLabels := λ _ _, ask (λ w, Ok (Vol_Id <$> d_vols w));
  UnmarshalStatus := λ text st,
    if decide (text = "added") then (status_line "Drive add done: Storage rebalance is in progress", None)
    else if decide (text = "pending") then (status_line "Drive add: Storage rebalance 10%", None)
    else (st, Some (Errorf "unexpected end of JSON input"));
  show_json := λ _, "{}";
  float_outside := λ _, 0;
}.

(** The status says that the rebalance is at ten percent, and the wait is over. *)
Lemma waitForAddDriveToComplete_first_status_witness :
  waitForAddDriveToComplete n1 "/dev/sdc" w0 = (Ok tt, w0).
Proof.
  apply (waitForAddDriveToComplete_first_status n1 "/dev/sdc" w0 "sudo /usr/local/bin/pxctl" w0 "pending" w0
    (status_line "Drive add: Storage rebalance 10%")); vm_compute; reflexivity.
Defined.

(** Two volumes in the trash can, fifty-two ids *)
Lemma GetTrashCanVolumeIds_shape_witness :
  ∃ res l, replicate 50 "" ++ ["987"; "<nil>"] = replicate 50 "" ++ l ∧ length l = length (A := json) res ∧
    pxctl_json n1 " v l --trashcan -j" w0 = (Ok (JArray res), w0).
Proof.
  apply (GetTrashCanVolumeIds_shape n1 w0 (replicate 50 "" ++ ["987"; "<nil>"]) w0). vm_compute. reflexivity.
Defined.

(** Of three drives one is mounted and one partitioned. *)
Lemma AddBlockDrives_success_witness :
  ∃ drives, (GetBlockDrives n1 w0).1 = Ok drives ∧
    ∀ p, p ∈ ["/dev/sdc"] → ∃ drv, drv ∈ drives ∧ Drive_Path drv = p ∧ drive_free drv = true ∧
      ∃ w1 w2, addDrive n1 p (-1) w1 = (Ok tt, w2).
Proof.
  apply (AddBlockDrives_success n1 ["/dev/sdc"] w0 w0); [vm_compute; reflexivity|discriminate].
Defined.

Example AddBlockDrives_partitioned :
  (AddBlockDrives n1 ["/dev/sdd"] w0).1 =
    Err (Errorf "block drive path [/dev/sdd] is not eligible or does not exist to perform drive add").
Proof. vm_compute. reflexivity. Qed.

Definition pure_counts : gmap string Z := {["worker1" := 0; "worker2" := 1]}.

Lemma GetNodePureVolumeAttachedCountMap_counts_witness :
  ∃ ids vols ips nodes,
    Forall2 (λ id v, ∃ w1 w2, vol_Inspect id w1 = (Ok (Some v), w2)) ids vols ∧
    (∃ w1 w2, vol_EnumerateWithLabels pureKey pureBlockValue w1 = (Ok ids, w2)) ∧
    (∃ w1 w2, (all ← range_nodes; range_map Node (Registry.index_by Name all)) w1 = (Ok nodes, w2)) ∧
    (∀ ip name, ips !! ip = Some name → ∃ key n, (key, n) ∈ nodes ∧ Name n = name ∧ ip ∈ Addresses n) ∧
    ∀ name, default 0 (pure_counts !! name) =
      Z.of_nat (length (keep (attached_at ips name) vols)).
Proof.
  apply (GetNodePureVolumeAttachedCountMap_counts w_vol pure_counts w_vol).
  vm_compute. reflexivity.
Defined.

(** The node reports a version with a build suffix. *)
Definition sn_versioned : StorageNode :=
  {| Id := "id1"; Hostname := "host1"; DataIp := "10.0.0.1"; MgmtIp := "10.0.0.1";
     SchedulerNodeName := "worker1"; NodeStatus := STATUS_OK; Pools := []; Disks := ∅;
     NodeLabels := {[pxVersionLabel := "3.1.0-a1b2c3"]} |}.

Definition w_versioned : Demo := with_nodes [sn_versioned] w0.

Definition upgraded : outcome unit * Demo := WaitForUpgrade 2 n1 "3.1.0.0-rc1" w_versioned.

Lemma WaitForUpgrade_success_witness :
  ∃ octets version rest w1, three_octets "3.1.0.0-rc1" = Some octets ∧
    getPxVersionOnNode 2 n1 w1 = (Ok version, upgraded.2) ∧ version = octets +:+ rest.
Proof.
  apply (WaitForUpgrade_success 2 n1 "3.1.0.0-rc1" w_versioned upgraded.2). vm_compute. reflexivity.
Defined.

Lemma GetPoolsUsedSize_reads_witness :
  (GetPoolsUsedSize n1 w0).1 =
    Ok (<["24d82c10-0b4f" := "0"]> {["73368237-8d36" := "123456789"]}).
Proof.
  rewrite (GetPoolsUsedSize_reads n1 used_report w0 w0 w0 "sudo /usr/local/bin/pxctl").
  - reflexivity.
  - discriminate.
  - unfold used_report, used_ok, value_ok, field_ok. simpl.
    repeat first [apply Forall_cons_2 | apply Forall_nil_2 | split];
      first [discriminate | vm_compute; reflexivity].
  - vm_compute. reflexivity.
  - vm_compute. reflexivity.
Defined.

(** A line of pxctl status, and the drives read from it *)
Example GetPoolDrives_line :
  pool_drive "0:1 /dev/sdb STORAGE_MEDIUM_SSD 1.5 TiB 05 Oct 23 10:11 UTC" =
    Ok {| PoolId := "0"; Device := "/dev/sdb"; MediaType := "STORAGE_MEDIUM_SSD"; SizeInGib := 1536 |}.
Proof. vm_compute. reflexivity. Qed.
End DriveDemo.
