(* ===== verification/PxDemoCluster.v ===== *)
(** The theorems of PxCluster at work, on the cluster of PxDemo with cluster
    options, diagnostics, alerts and defragmentation. *)

From Stdlib Require Import Ascii.
From S2P Require Import Prelude GoStrings Errors Effects GoJson Strconv Task OpenStorageApi NodeRegistry PxDriver PxNodeOps PxVolume PureDevices PxDrives PxDemo PxDemoDrives PxCluster.

Module ClusterDemo.
Import PxDemo.

Import DriveDemo.

Definition defrag_cluster : gmap string DefragNodeResponse :=
  {[ "id1" := {| Resp_NodeStatus := Some {| PoolStatus := {["p1" := {| Pool_Running := false; LastSuccess := false |}]};
                                            RunningSchedule := "" |} |};
     "id2" := {| Resp_NodeStatus := Some {| PoolStatus := {["p2" := {| Pool_Running := true; LastSuccess := false |}]};
                                            RunningSchedule := "s2" |} |} ]}.

Definition demo_env (name : string) : string :=
  if decide (name = "S3_DISABLE_SSL") then "false" else "x".

(** The world of the demo has one diagnostics file; its nodes answer at their
    address, the address of worker1 excepted. *)
#[export] Instance cluster_services : ClusterServices Demo := {
  DiagsFile := λ _, "diags.tar.gz";
  set_DiagsFile := λ _ w, w;
  Getenv := λ name _, demo_env name;
  local_hour := λ t, (1970, 1, 1, t / Hour);
  show_node := Name;
  cs_EnumerateAs := λ _ _, mret [];
  cs_DeleteAllAs := λ _ _, mret tt;
  cs_CreateAs := λ _ _, mret tt;
  cs_Status := mret {["task" := ("b1", "id2")]};
  vol_StatsAs := λ _ _, mret (Some 4096);
  node_EnumerateAt := λ endpoint,
    if Contains endpoint "10.0.0.1" then throw (GrpcError code_Unavailable "connection refused") else mret ["id2"];
  pair_EnumerateAt := λ _ _, mret tt;
  pair_GetTokenAt := λ _ _, throw (GrpcError code_Unavailable "connection refused");
  GetRemotePXNodes := λ _, mret [n1];
  alerts_EnumerateWithFilters := λ _, mret 1;
  alerts_Recv := λ _, mret ["Volume pvc-1 (vid1) restored from snapshot in-place-restore-pvc-1"];
  diags_Collect := λ _ _ _ _, mret (Some "job1");
  job_GetStatus := λ _, mret Job_FAILED;
  diags_Post := λ _ _, mret tt;
  license_Status := mret None;
  feature_Enumerate := mret [];
  GetCRD := λ _, mret tt;
  defrag_CreateSchedule := λ _ _, mret "s1";
  defrag_GetNodeStatus := λ _, throw (Errorf "no status");
  defrag_EnumerateNodeStatus := mret defrag_cluster;
  defrag_CleanUpSchedules := mret tt;
  schedule_Delete := λ _ _, mret tt;
  schedule_Enumerate := λ _, mret [];
  schedule_Inspect := λ id _, mret {| Schedule_Id := id; StartTime := ""; MaxDurationMinutes := 0 |};
  s3_ListObjects := λ _ _ _ _ _ _ prefix, mret [{| S3_Key := prefix +:+ "/diags.tar.gz"; S3_Size := 10 |}];
}.

Definition two_options : gmap string string := {["AutoFstrim" := "true"; "DomainPolicy" := "strict"]}.

Lemma GetClusterOpts_exact_witness :
  ∃ out data, (∃ cmd opts w1 w2, RunCommand n1 cmd opts w1 = (Ok out, w2)) ∧
    unmarshal_object out = Ok data ∧
    (∀ k, is_Some (two_options !! k) ↔ k ∈ ["DomainPolicy"; "AutoFstrim"]) ∧
    ∀ k v, two_options !! k = Some v → ∃ j, (k, j) ∈ data ∧ v = sprint_json show_json j.
Proof.
  apply (GetClusterOpts_exact n1 ["DomainPolicy"; "AutoFstrim"] w0 two_options w0). vm_compute. reflexivity.
Defined.

(** The least missing option is reported. *)
Example GetClusterOpts_missing :
  (GetClusterOpts n1 ["b"; "AutoFstrim"; "a"] w0).1 = Err (Errorf "Failed to find option: a").
Proof. vm_compute. reflexivity. Qed.

Lemma ValidateDiagsOnS3_success_witness :
  ∃ uuid previous objects obj file w1 w2, GetS3Objects uuid (Name n1) previous w1 = (Ok objects, w2) ∧
    obj ∈ objects ∧ file = DiagsFile w0 ∧ Contains (S3_Key obj) file = true.
Proof.
  apply (ValidateDiagsOnS3_success n1 "diags.tar.gz" "/opt/pwx" w0 w0). vm_compute. reflexivity.
Defined.

Definition async_ops : DiagOps := {| Diag_Validate := false; Async := true; PxStopped := false; PxDir := "/opt/pwx" |}.
Definition diag_config : DiagRequestConfig :=
  {| OutputFile := "/var/cores/diags.tar.gz"; Profile := false; Live := false; Diag_Token := "" |}.

(** A look at node 1 makes the driver refresh its endpoint. *)
Definition looked : Demo := ((_ ← refresh_client; _ ← refresh_client; with_local n1 (GetDriverNode 2)) w0).2.

Lemma collectDiagsSdk_failed_job_witness : collectDiagsSdk 2 n1 diag_config async_ops w0 = (Ok tt, looked).
Proof.
  apply (collectDiagsSdk_failed_job 2 n1 diag_config async_ops w0 sn1 n1 looked "job1" looked Job_FAILED looked);
    [vm_compute; reflexivity..|by left|reflexivity].
Defined.

Lemma ValidateVolumeSnapshotRestore_success_witness :
  ∃ sn pvcVol snapVol messages m, Some {| SnapshotID := "s1"; SnapshotType := "cloud" |} = Some sn ∧
    (∃ w1 w2, vol_Inspect "pvc-1" w1 = (Ok pvcVol, w2)) ∧
    (∃ id w1, alerts_Recv id w1 = (Ok messages, w_vol)) ∧ m ∈ messages ∧
    Contains m (restore_message pvcVol
      (if decide (SnapshotType sn = PortworxSnapshotTypeCloud) then "in-place-restore-" +:+ "pvc-1"
       else SnapshotID sn) snapVol) = true.
Proof.
  apply (ValidateVolumeSnapshotRestore_success "pvc-1" _ 0 w_vol w_vol). vm_compute. reflexivity.
Defined.

(** No node runs the schedule, and the trigger is validated. *)
Lemma ValidatesDefragSchedulesTrigger_any_status_witness :
  ValidatesDefragSchedulesTrigger "s7" ["id1"; "id2"] w0 = (Ok tt, w0).
Proof.
  apply (ValidatesDefragSchedulesTrigger_any_status "s7" ["id1"; "id2"] defrag_cluster w0 w0); [reflexivity|].
  intros id Hid. apply elem_of_cons in Hid as [->|[->|Hid%elem_of_nil]%elem_of_cons];
    [eexists; reflexivity..|contradiction].
Defined.

Definition defrag_verdict : list string * option error :=
  (["id1"], Some (Errorf "defrag schedule not completed in all nodes")).

Lemma ValidateLastDefragScheduleStatus_spec_witness :
  (∀ id, id ∈ defrag_verdict.1 ↔ id ∈ ["id1"; "id2"] ∧ ∃ r st pool uuid, defrag_cluster !! id = Some r ∧
    Resp_NodeStatus r = Some st ∧ PoolStatus st !! uuid = Some pool ∧ pool_incomplete pool = true) ∧
  (defrag_verdict.2 = None ↔ defrag_verdict.1 = []).
Proof.
  apply (ValidateLastDefragScheduleStatus_spec "s1" ["id1"; "id2"] defrag_cluster w0 w0 _ _ w0);
    vm_compute; reflexivity.
Defined.

(** Worker 2 is to be avoided, worker 1 does not answer. *)
Lemma pickAlternateClusterManager_gives_up_witness :
  pickAlternateClusterManager n2 w0 = (Err (GrpcError code_Unavailable "connection refused"), w0).
Proof.
  apply (pickAlternateClusterManager_gives_up n2 w0 n1 [n2] "10.0.0.1" [] w0 _ w0);
    [vm_compute; reflexivity|discriminate|vm_compute; reflexivity..].
Defined.

(** The error of GetToken is not looked at. *)
Example GetClusterPairingInfo_panics :
  (GetClusterPairingInfo "/tmp/kubeconfig" "" false false w0).1 =
    Panic "invalid memory address or nil pointer dereference".
Proof. vm_compute. reflexivity. Qed.

(** The nanoseconds of a time stamp of a restore may be negative. *)
Example stamp_nanos : stamp 2500000000 = {| Seconds := 2; Nanos := -1794967296 |}.
Proof. vm_compute. reflexivity. Qed.

Example path_Join_clean : path_Join "/opt/pwx/../px/./etc" "px_env" = "/opt/px/etc/px_env".
Proof. vm_compute. reflexivity. Qed.
End ClusterDemo.
