(* ===== verification/K8sDemo.v ===== *)
(** A small Kubernetes cluster that implements the interfaces of the scheduler
    driver, and the theorems of K8sObjects, K8sNodes, K8sApps and K8sAutopilot at
    work on it. *)

From Stdlib Require Import Ascii.
From S2P Require Import Prelude GoStrings Errors Effects Strconv Task NodeRegistry AutopilotRules SpecFactory PxDriver K8sObjects VolumeDrivers K8sNodes K8sApps PxExpansion K8sAutopilot.

Module K8sDemo.

(** The world: a clock, the memory of the drivers and the namespaces created. *)
Record Cluster := {
  c_now : Z;
  c_px : PxState;
  c_k8s : K8sState;
  c_namespaces : gmap string Object;
}.

Definition ask {A} (f : Cluster → outcome A) : M Cluster A := λ w, (f w, w).

#[export] Instance cluster_px : PxWorld Cluster := {
  PxWorld_Clock := {| now := c_now;
    sleep := λ d w, {| c_now := c_now w + Z.max 0 d; c_px := c_px w; c_k8s := c_k8s w; c_namespaces := c_namespaces w |} |};
  px := c_px;
  set_px := λ s w, {| c_now := c_now w; c_px := s; c_k8s := c_k8s w; c_namespaces := c_namespaces w |};
  range_nodes := ask (λ w, Ok (map_to_list (nodeRegistry (c_px w))).*2);
}.

#[export] Instance cluster_px_laws : PxWorldLaws Cluster.
Proof. constructor; try done. intros w. by do 2 eexists. Qed.

#[export] Instance cluster_k8s : K8sWorld Cluster := {
  k8s := c_k8s;
  set_k8s := λ s w, {| c_now := c_now w; c_px := c_px w; c_k8s := s; c_namespaces := c_namespaces w |};
}.

#[export] Instance cluster_k8s_laws : K8sWorldLaws Cluster.
Proof. by constructor. Qed.

(** *** Objects *)

Definition claim (name : string) (modes : list string) : Object :=
  {| obj_kind := KPersistentVolumeClaim; TypeMeta_Kind := ""; obj_Name := name; obj_Namespace := "web";
     obj_UID := "7c1"; Labels := Some {["app" := "web"]}; Annotations := ∅; Replicas := None; Affinity := None;
     PodVolumes := []; ContainerEnv := []; AccessModes := modes; VolumeName := "pvc-" +:+ name;
     StorageRequest := 5000000000; Data := ∅; Status_text := ""; Spec := no_spec |}.

Definition deployment : Object :=
  {| obj_kind := KDeployment; TypeMeta_Kind := ""; obj_Name := "web"; obj_Namespace := "web";
     obj_UID := "5f0"; Labels := None; Annotations := ∅; Replicas := Some 2;
     Affinity := Some (Some {| Required := Some [[(TopologyZoneK8sNodeLabel, ["zone-a"])]] |});
     PodVolumes := [Some "data"]; ContainerEnv := [[("MODE", "rw"); ("SIZE", "2")]]; AccessModes := [];
     VolumeName := ""; StorageRequest := 0; Data := ∅; Status_text := ""; Spec := no_spec |}.

Definition objects : list Object :=
  [deployment; claim "data" ["ReadWriteMany"]; claim "logs" ["ReadWriteOnce"];
   new_object KNamespace "default" "" (Some {["team" := "storage"]})].

Definition find_object (k : Kind) (name ns : string) : option Object :=
  find_first (λ o, bool_decide (obj_kind o = k ∧ obj_Name o = name ∧ obj_Namespace o = ns)) objects.

#[export] Instance cluster_client : K8sClient Cluster := {
  client_Get := λ k name ns w,
    match find_object k name ns with
    | Some o => (Ok (Some o, None), w)
    | None =>
        match c_namespaces w !! name with
        | Some o => if decide (k = KNamespace) then (Ok (Some o, None), w)
                    else (Ok (None, Some (Errorf "not found")), w)
        | None => (Ok (None, Some (Errorf "not found")), w)
        end
    end;
  client_Create := λ o w,
    match c_namespaces w !! obj_Name o with
    | Some _ => (Ok (None, Some (Errorf "already exists")), w)
    | None => (Ok (Some o, None), {| c_now := c_now w; c_px := c_px w; c_k8s := c_k8s w;
                        c_namespaces := <[obj_Name o := o]> (c_namespaces w) |})
    end;
  client_Update := λ o, throw (Errorf "forbidden");
  IsAlreadyExists := λ e, bool_decide (e = Errorf "already exists");
}.

#[export] Instance cluster_client_frame : K8sClientFrame Cluster.
Proof.
  constructor; intros; constructor; try apply _; intros w; simpl;
    repeat case_match; simpl; try split; done || lia.
Qed.

(** *** Nodes *)

Definition core_nodes : list CoreNode :=
  [ {| core_Name := "master"; core_Addresses := [("InternalIP", "10.0.0.1"); ("Hostname", "master")] |};
    {| core_Name := "worker1"; core_Addresses := [("InternalIP", "10.0.0.2")] |};
    {| core_Name := "worker2"; core_Addresses := [("ExternalIP", "10.0.0.3")] |} ].

Definition pod (name node ip : string) (vols : list (option string)) : Pod :=
  {| pod_Name := name; pod_Namespace := "web"; pod_UID := "uid-" +:+ name; pod_NodeName := node;
     pod_HostIP := ip; pod_Terminating := false; pod_Volumes := vols; pod_RestartCounts := [0]; pod_Status := "Running" |}.

Definition web_pods : list Pod :=
  [pod "web-1" "worker1" "10.0.0.2" [Some "data"]; pod "web-2" "worker1" "10.0.0.2" [None; Some "data"];
   pod "web-3" "worker2" "10.0.0.3" []].

(** A name longer than any in use *)
Fixpoint letters (n : nat) : string :=
  match n with O => "" | S n => String "u" (letters n) end.

Definition unused (r : gmap string Node) : string :=
  letters (S (List.list_max (String.length <$> (map_to_list r).*1))).

Lemma letters_length n : String.length (letters n) = n.
Proof. induction n; simpl; congruence. Qed.

Lemma unused_fresh r : r !! unused r = None.
Proof.
  destruct (r !! unused r) as [n|] eqn:E; [|done]. exfalso.
  assert (String.length (unused r) ∈ String.length <$> (map_to_list r).*1) as Hin.
  { apply list_elem_of_fmap. exists (unused r). split; [done|]. apply list_elem_of_fmap. exists (unused r, n).
    by rewrite elem_of_map_to_list. }
  pose proof (proj1 (List.list_max_le (String.length <$> (map_to_list r).*1) _) (le_n _)) as Hmax.
  rewrite List.Forall_forall in Hmax. apply list_elem_of_In, Hmax in Hin.
  unfold unused in Hin at 1. rewrite letters_length in Hin. lia.
Qed.

(** The second worker is ready 20 seconds after the start. *)
#[export] Instance cluster_nodes : K8sNodeApi Cluster := {
  uuid_New := ask (λ w, Ok (unused (nodeRegistry (c_px w))));
  core_GetNodes := ask (λ _, Ok core_nodes);
  core_IsNodeReady := λ name, ask (λ w,
    if decide (name = "worker2" ∧ c_now w < 20 * Second) then Err (Errorf "kubelet is not ready") else Ok tt);
  IsNodeMaster := λ n, bool_decide (core_Name n = "master");
  GetLabelsOnNode := λ name, ask (λ _, Ok {[ZoneK8SNodeLabel := "zone-" +:+ name]});
  CordonNode := λ _ _ _, mret tt;
  GetPodsByNode := λ name _, ask (λ _, Ok (keep (λ p, bool_decide (pod_NodeName p = name)) web_pods));
  GetStorageProvisionerForPVC := λ pvc, ask (λ _, Ok "pxd.portworx.com");
  DrainPodsFromNode := λ _ _ _ _, mret tt;
  show_node := λ n, "{" +:+ Name n +:+ "}";
}.

#[export] Instance cluster_nodes_frame : K8sNodeFrame Cluster.
Proof.
  constructor; try (intros; intros w; simpl; split; done || lia).
  intros w. do 2 eexists. split; [done|]. split; [done|]. split; [apply unused_fresh|done].
Qed.

#[export] Instance cluster_apps : K8sAppsApi Cluster := {
  ClusterResourceName := obj_Name;
  pds_Namespace := λ o, Some (obj_Namespace o);
  show_pds_Name := obj_Name;
  GetDeploymentPods := λ o, ask (λ _, if decide (obj_Name o = "web") then Ok web_pods else Err ErrPodsNotFound);
  GetStatefulSetPods := λ _, throw ErrPodsNotFound;
  GetPodByUID := λ _ _, throw ErrPodsNotFound;
  GetPods := λ _, ask (λ _, Ok web_pods);
  IsPodRunning := λ p, bool_decide (pod_Status p = "Running");
  ValidateDeployment := λ _ _ _, mret tt;
  ValidateStatefulSet := λ _ _, mret tt;
  ValidatePod := λ _ _ _, mret tt;
  ValidateCustom := λ _ _ _, mret tt;
  ValidateJob := λ _ _ _, mret tt;
  ValidateTerminatedDeployment := λ _ _ _, mret tt;
  ValidateTerminatedStatefulSet := λ _ _ _, mret tt;
  ValidateDeletedService := λ _ _, mret tt;
  WaitForPodDeletion := λ _ _ _, mret tt;
  DeletePod := λ _ _ _, mret tt;
  DeletePods := λ _ _, mret tt;
  core_GetPodLog := λ name _ _ _, ask (λ _, Ok ("log of " +:+ name));
  FindFiles := λ _ _ _ _ _, ask (λ _, Ok "");
  range_pods := map_to_list;
  show_pods := λ l, show_strings (pod_Name <$> l);
}.

(** *** Autopilot *)

Definition item (state msg : string) (t : Z) : AroItem :=
  {| aro_State := state; aro_Message := msg; aro_Timestamp := t |}.

Definition aros : list Aro :=
  [ {| aro_Name := "pool-resize:pool-1";
       aro_Items := [item RuleStateTriggered "" 10; item "" "" 11;
                     item RuleStateActiveActionsPending "" 12; item RuleStateTriggered "" 13;
                     item RuleStateActiveActionsInProgress "Rebalance summary: 2 volumes" 14;
                     item RuleStateActiveActionsTaken "" 20] |};
    {| aro_Name := "other"; aro_Items := [item RuleStateTriggered "" 10] |} ].

#[export] Instance cluster_autopilot : K8sAutopilotApi Cluster := {
  ListServices := ask (λ _, Ok [("portworx-service", "kube-system"); ("dns", "kube-system");
                                ("portworx-service", "portworx")]);
  ListPods := λ _ _, ask (λ _, Ok [pod "autopilot" "worker1" "10.0.0.2" []]);
  ListAutopilotRuleObjects := λ _, ask (λ _, Ok aros);
  ValidatePersistentVolumeClaimSize := λ _ _ _ _, mret tt;
  GetPodByName := λ name ns, ask (λ _, Ok (pod name "worker1" "10.0.0.2" []));
  pod_log_tail := λ _ _ _, ask (λ _, Ok "read: iops=0");
  show_rule := Rule_Name;
}.

Definition start : Cluster :=
  {| c_now := 0;
     c_px := {| nodeRegistry := ∅; refreshEndpoint := false; skipPXSvcEndpoint := false; token := "";
                namespace := ""; clusterManager := ""; sdkClients := ""; legacyClusterManager := "" |};
     c_k8s := {| NodeDriverName := "ssh"; VolDriverName := "pxd"; PureVolumes := false; eventsStorage := ∅;
                 defaultTorpedoLabel := {["creator" := "torpedo"]};
                 config := {| secretConfigMapName := ""; SecretType := ""; VaultAddress := ""; VaultToken := "";
                              PureSANType := ""; PureFADAPod := ""; RunCSISnapshotAndRestoreManyTest := false;
                              secureApps := [] |} |};
     c_namespaces := ∅ |}.

Definition options (labels : gmap string string) : ScheduleOptions :=
  {| AppKeys := []; CsiAppKeys := []; opt_Nodes := []; StorageProvisioner_ := ""; opt_AutopilotRule := no_rule;
     Scheduler := ""; opt_Labels := labels; PvcNodesAnnotation := []; PvcSize := 0; opt_Namespace := "";
     TopologyLabels := []; PureFAPodName := ""; Upgrade := false |}.

Definition app (key : string) (specs : list Object) : AppSpec Object :=
  {| SpecFactory.Key := key; SpecList := specs; Enabled := true; IsCSI := false; NameSpace := "" |}.

Definition web : Context := {| UID := "t1"; App := app "web" [claim "data" []; deployment]; ScheduleOpts := options ∅;
  SkipClusterScopedObject := false |}.

(** ** The theorems at work *)

Definition refreshed : Cluster := (RefreshNodeRegistry start).2.

Example refreshed_time : c_now refreshed = 20 * Second.
Proof. vm_compute. done. Qed.


(** The label asked for one application is on the namespace of the next. *)
Definition namespace_b : Object :=
  new_object KNamespace "b-1" "" (Some {["creator" := "torpedo"; "app" := "b"; "team" := "qa"]}).

Lemma client_Create_same (o : Object) (w : Cluster) o' w' : create_object o w = (Ok o', w') → Labels o' = Labels o.
Proof. unfold create_object. unfold_m. destruct (c_namespaces w !! obj_Name o); simpl; congruence. Qed.

Lemma createNamespace_labels_leak_witness :
  (∃ l, Labels namespace_b = Some l ∧ l !! "team" = Some "qa") ∨ exists_already (W := Cluster) "b-1" namespace_b.
Proof.
  pose (w1 := (createNamespace (app "a" []) "a-1" (options {["team" := "qa"]}) start).2).
  pose (w2 := (createNamespace (app "b" []) "b-1" (options ∅) w1).2).
  apply (createNamespace_labels_leak client_Create_same (app "a" []) "a-1" (options {["team" := "qa"]})
    (app "b" []) "b-1" (options ∅) start
    (new_object KNamespace "a-1" "" (Some {["creator" := "torpedo"; "app" := "a"; "team" := "qa"]})) w1
    namespace_b w2 "team" "qa"); try discriminate; vm_compute; reflexivity.
Defined.

Lemma GetNodesForApp_success_witness :
  ∃ nodes w', GetNodesForApp web refreshed = (Ok nodes, w') ∧
  ∃ w1 w2 pods, waited (nodes_task web) DefaultTimeout refreshed w1 ∧ getPodsForApp web w1 = (Ok pods, w2) ∧
    nodes ≠ [] ∧ NoDup (Name <$> nodes) ∧
    (∀ n, n ∈ nodes → (∃ k, nodeRegistry (px w2) !! k = Some n) ∧
       ∃ p, p ∈ pods ∧ IsPodRunning p = true ∧ pod_NodeName p = Name n) ∧
    (∀ p, p ∈ pods → IsPodRunning p = true → pod_NodeName p ∈ Name <$> nodes).
Proof.
  assert (∃ nodes w', GetNodesForApp web refreshed = (Ok nodes, w')) as (nodes & w' & Hr).
  { vm_compute. eauto. }
  exists nodes, w'. split; [exact Hr|]. apply (GetNodesForApp_success web refreshed nodes w' Hr).
Defined.

(** Three running pods are accepted for a zone none of their nodes is in, and a pod
    on an unknown host is not. *)
Lemma validatePodsTopology_spec_witness :
  (∀ p, p ∈ web_pods → known_host (nodeRegistry (px refreshed)) p) ∧
  (validatePodsTopology web_pods "zone-z" refreshed).1 = Ok tt ∧
  (validatePodsTopology [pod "web-4" "worker9" "10.9.9.9" []] "zone-z" refreshed).1 ≠ Ok tt.
Proof.
  assert ((validatePodsTopology web_pods "zone-z" refreshed).1 = Ok tt) as Hr by (vm_compute; reflexivity).
  destruct (proj1 (validatePodsTopology_spec web_pods "zone-z" refreshed) Hr) as [Hz|Hall]; [discriminate Hz|].
  split_and!; [exact Hall|exact Hr|vm_compute; discriminate].
Defined.

Lemma WaitForRunning_success_witness :
  ∃ w', WaitForRunning web DefaultTimeout DefaultRetryInterval refreshed = (Ok tt, w') ∧
  ∃ w1 w2, all_running DefaultTimeout DefaultRetryInterval (SpecList (App web)) refreshed w1 ∧
    waited (terminating_task web) k8sDestroyTimeout w1 w2 ∧
    ((∃ pods, getPodsForApp web w2 = (Ok pods, w') ∧ ∀ p, p ∈ pods → pod_Terminating p = false) ∨
     getPodsForApp web w2 = (Err ErrPodsNotFound, w')).
Proof.
  exists refreshed.
  assert (WaitForRunning web DefaultTimeout DefaultRetryInterval refreshed = (Ok tt, refreshed)) as Hr
    by (vm_compute; reflexivity).
  split; [exact Hr|]. apply (WaitForRunning_success web DefaultTimeout DefaultRetryInterval refreshed refreshed Hr).
Defined.

Lemma SelectiveWaitForTermination_success_witness :
  let hosts := [ {| storageNode := None; uuid := ""; VolDriverNodeID := ""; Name := "worker1"; Addresses := [];
                    UsableAddr := ""; Type_ := TypeWorker; Zone := ""; Region := ""; TopologyZone := "";
                    TopologyRegion := ""; IsStorageDriverInstalled := false; IsMetadataNode := false;
                    StoragePools := []; PxPodRestartCount := 0 |};
                 {| storageNode := None; uuid := ""; VolDriverNodeID := ""; Name := "worker2"; Addresses := [];
                    UsableAddr := ""; Type_ := TypeWorker; Zone := ""; Region := ""; TopologyZone := "";
                    TopologyRegion := ""; IsStorageDriverInstalled := false; IsMetadataNode := false;
                    StoragePools := []; PxPodRestartCount := 0 |} ] in
  ∃ w1 allPods, waited (termination_task web hosts) (5 * Minute) start w1 ∧
    collect_pods web (SpecList (App web)) ∅ w1 = (Ok allPods, start) ∧
    ∀ uid p, allPods !! uid = Some p → ∃ n, n ∈ hosts ∧ pod_NodeName p = Name n.
Proof.
  intros hosts. apply (SelectiveWaitForTermination_success web (5 * Minute) hosts start start).
  - intros m. reflexivity.
  - vm_compute. reflexivity.
Defined.

Lemma getLabels_getAffinity_witness :
  (getAffinity map_to_list [{[TopologyZoneK8sNodeLabel := "zone-a"; "region" := "r"]}; ∅] ≫= getLabelsFromNodeAffinity) =
  Ok {[TopologyZoneK8sNodeLabel := "zone-a"; "region" := "r"]}.
Proof. apply (getLabels_getAffinity map_to_list). intros m. reflexivity. Defined.

Lemma UpdateTasksID_spec_witness :
  ∃ r ctx', UpdateTasksID "t2" web = (r, ctx') ∧ UID ctx' = "t2" ∧
  ((r = Ok tt ∧ SpecList (App ctx') = set_Namespace "t2" <$> SpecList (App web)) ∨
   (∃ e pre o post, r = Err e ∧ SpecList (App web) = pre ++ o :: post ∧ has_metadata (obj_kind o) = false ∧
      SpecList (App ctx') = (set_Namespace "t2" <$> pre) ++ o :: post)).
Proof.
  exists (UpdateTasksID "t2" web).1, (UpdateTasksID "t2" web).2.
  assert (UpdateTasksID "t2" web = ((UpdateTasksID "t2" web).1, (UpdateTasksID "t2" web).2)) as Hu by reflexivity.
  split; [exact Hu|]. apply (UpdateTasksID_spec "t2" web _ _ Hu).
Defined.

(** A volume package with the provisioner of the claims *)
Definition volumes : VolumePackage :=
  {| volDrivers := ∅; provisioners := []; StorageDriver := "pxd"; StorageProvisioner := "pxd.portworx.com" |}.

Lemma read_claim_static claim ns (w : Cluster) :
  get_object KPersistentVolumeClaim claim ns w =
  (match find_object KPersistentVolumeClaim claim ns with Some pvc => Ok pvc | None => Err (Errorf "not found") end, w).
Proof.
  unfold get_object, mbind, M_bind. simpl. destruct (find_object _ _ _); [done|].
  destruct (c_namespaces w !! claim); done.
Qed.

(** The second pod has a claim nobody knows, and the third is not drained. *)
Lemma getPodsUsingStorage_spec_witness :
  let pods := [pod "a" "worker1" "" [Some "data"]; pod "b" "worker1" "" [Some "gone"]; pod "c" "worker1" "" [Some "logs"]] in
  let claims := find_object KPersistentVolumeClaim in
  let prov (o : Object) := Some "pxd.portworx.com" in
  ∃ seen rest, pods = seen ++ rest ∧
    getPodsUsingStorage volumes pods "" start = (Ok (keep (uses_storage volumes claims prov) seen), start) ∧
    Forall (λ p, blocked volumes claims prov (pod_Namespace p) (pod_Volumes p) = false) seen ∧
    match rest with
    | [] => True
    | p :: _ => blocked volumes claims prov (pod_Namespace p) (pod_Volumes p) = true
    end.
Proof.
  intros pods claims prov. apply (getPodsUsingStorage_spec volumes claims prov).
  - exact read_claim_static.
  - reflexivity.
Defined.

Example drained_pods :
  (getPodsUsingStorage volumes
    [pod "a" "worker1" "" [Some "data"]; pod "b" "worker1" "" [Some "gone"]; pod "c" "worker1" "" [Some "logs"]] "" start).1 =
  Ok [pod "a" "worker1" "" [Some "data"]].
Proof. vm_compute. reflexivity. Qed.

(** An object that was resized twice and whose action was declined once *)
Definition resized_twice : gmap string Z :=
  {[ transition "r:pvc-7c1" RuleStateInit RuleStateNormal := 1;
     transition "r:pvc-7c1" RuleStateNormal RuleStateTriggered := 3;
     transition "r:pvc-7c1" RuleStateTriggered RuleStateActiveActionsPending := 3;
     transition "r:pvc-7c1" RuleStateActiveActionsPending RuleStateActiveActionsInProgress := 2;
     transition "r:pvc-7c1" RuleStateActiveActionsInProgress RuleStateActiveActionsTaken := 2;
     transition "r:pvc-7c1" RuleStateActiveActionsTaken RuleStateNormal := 2 ]}.

Lemma validateEvents_spec_witness :
  let seen from to n := resized_twice !! transition "r:pvc-7c1" from to = Some n in
  validateEvents (λ l, l) "r:pvc-7c1" resized_twice 2 = Ok tt ↔
  seen RuleStateInit RuleStateNormal 1 ∧
  seen RuleStateActiveActionsInProgress RuleStateActiveActionsTaken 2 ∧
  seen RuleStateActiveActionsTaken RuleStateNormal 2 ∧
  ∃ a b c, seen RuleStateNormal RuleStateTriggered a ∧
    seen RuleStateTriggered RuleStateActiveActionsPending b ∧
    seen RuleStateActiveActionsPending RuleStateActiveActionsInProgress c ∧ 2 <= a ∧ 2 <= b ∧ 2 <= c.
Proof.
  apply (validateEvents_spec (λ l, l) "r:pvc-7c1" resized_twice 2); [reflexivity|reflexivity|discriminate].
Defined.

Example events_accepted : validateEvents (λ l, l) "r:pvc-7c1" resized_twice 2 = Ok tt.
Proof. vm_compute. reflexivity. Qed.

Definition resize_rule : AutopilotRule :=
  {| Rule_Name := "pool-resize"; MatchLabels := ∅; Expressions := []; Actions := []; Enforcement := "";
     ActionsCoolDownPeriod := 0 |}.

Lemma VerifyPoolResizeARO_spec_witness :
  VerifyPoolResizeARO resize_rule start = (Ok true, start) ↔
  (∃ a, a ∈ aros ∧ Contains (aro_Name a) "pool-resize" = true) ∧
  ∀ a, a ∈ aros → Contains (aro_Name a) "pool-resize" = true → all_resize_states (states_of a).
Proof. apply (VerifyPoolResizeARO_spec resize_rule start "web" start aros start); vm_compute; reflexivity. Defined.

Example resize_verified : VerifyPoolResizeARO resize_rule start = (Ok true, start).
Proof. vm_compute. reflexivity. Qed.

Lemma WaitForRebalanceAROToComplete_success_witness :
  ∃ w1 w2 ns aros a pre t post s, GetAutopilotNamespace w1 = (Ok ns, w2) ∧
    ListAutopilotRuleObjects ns w2 = (Ok aros, start) ∧ a ∈ aros ∧ aro_Items a = pre ++ t :: post ∧
    action_taken t ∧ s ∈ pre ∧ summary s ∧ aro_Timestamp s < aro_Timestamp t.
Proof. apply (WaitForRebalanceAROToComplete_success (W := Cluster) start start). vm_compute. reflexivity. Defined.

(** The application asks for 2 GiB. *)
Example workload_size : GetWorkloadSizeFromAppSpec web = Ok 2147483648.
Proof. vm_compute. reflexivity. Qed.

Example scale_factors_web : (GetScaleFactorMap web start).1 = Ok {["web-dep" := 2]}.
Proof. vm_compute. reflexivity. Qed.

(** The pods run on nodes without a topology zone, and are accepted for zone-a. *)
Example wrong_zone_accepted : (ValidateTopologyLabel web refreshed).1 = Ok tt.
Proof. vm_compute. reflexivity. Qed.
End K8sDemo.
