(* ===== verification/K8sAppDemo.v ===== *)
(** A Kubernetes cluster that stores objects, runs pods and takes snapshots, and the
    theorems of K8sCreateProps, K8sDestroy, K8sVolumes, K8sCsi and K8sDescribe at work
    on it: an application is scheduled, its volumes are resized, snapshotted and
    deleted, and it is destroyed. *)

From Stdlib Require Import Ascii.
From S2P Require Import Prelude GoStrings Errors Effects Strconv Task NodeRegistry AutopilotRules SpecFactory PxDriver K8sObjects VolumeDrivers K8sSpecs K8sNodes K8sHelm K8sCreate K8sCreateProps K8sApps PxExpansion K8sAutopilot K8sDestroy PxVolume PxCluster K8sVolumes K8sCsi K8sDescribe SchedOpsK8s NodeSSH NodeVsphere NodeCloud K8sDemo.

Module AppDemo.
Import K8sDemo (pod, unused, app, options, aros).

(** The world: a clock, the memory of the drivers, and the objects of the cluster *)
Record Store := {
  s_now : Z;
  s_px : PxState;
  s_k8s : K8sState;
  s_sched : SchedState;
  s_objects : list Object;
  s_pods : list Pod;
  s_ssh : SSHState;
  s_vs : VsphereState;
  s_aws : AwsState;
  s_cloud : CloudState;
}.

Definition with_objects (l : list Object) (w : Store) : Store :=
  {| s_now := s_now w; s_px := s_px w; s_k8s := s_k8s w; s_sched := s_sched w; s_objects := l; s_pods := s_pods w;
     s_ssh := s_ssh w; s_vs := s_vs w; s_aws := s_aws w; s_cloud := s_cloud w |}.

Definition with_pods (l : list Pod) (w : Store) : Store :=
  {| s_now := s_now w; s_px := s_px w; s_k8s := s_k8s w; s_sched := s_sched w; s_objects := s_objects w; s_pods := l;
     s_ssh := s_ssh w; s_vs := s_vs w; s_aws := s_aws w; s_cloud := s_cloud w |}.

Definition look {A} (f : Store → outcome A) : M Store A := λ w, (f w, w).

#[export] Instance store_px : PxWorld Store := {
  PxWorld_Clock := {| now := s_now;
    sleep := λ d w, {| s_now := s_now w + Z.max 0 d; s_px := s_px w; s_k8s := s_k8s w; s_sched := s_sched w;
                       s_objects := s_objects w; s_pods := s_pods w; s_ssh := s_ssh w; s_vs := s_vs w;
                       s_aws := s_aws w; s_cloud := s_cloud w |} |};
  px := s_px;
  set_px := λ s w, {| s_now := s_now w; s_px := s; s_k8s := s_k8s w; s_sched := s_sched w;
                      s_objects := s_objects w; s_pods := s_pods w; s_ssh := s_ssh w; s_vs := s_vs w;
                       s_aws := s_aws w; s_cloud := s_cloud w |};
  range_nodes := look (λ w, Ok (map_to_list (nodeRegistry (s_px w))).*2);
}.

#[export] Instance store_px_laws : PxWorldLaws Store.
Proof. constructor; try done. intros w. by do 2 eexists. Qed.

#[export] Instance store_k8s : K8sWorld Store := {
  k8s := s_k8s;
  set_k8s := λ s w, {| s_now := s_now w; s_px := s_px w; s_k8s := s; s_sched := s_sched w;
                       s_objects := s_objects w; s_pods := s_pods w; s_ssh := s_ssh w; s_vs := s_vs w;
                       s_aws := s_aws w; s_cloud := s_cloud w |};
}.

#[export] Instance store_k8s_laws : K8sWorldLaws Store.
Proof. by constructor. Qed.

#[export] Instance store_sched : SchedWorld Store := {
  sched := s_sched;
  set_sched := λ s w, {| s_now := s_now w; s_px := s_px w; s_k8s := s_k8s w; s_sched := s;
                         s_objects := s_objects w; s_pods := s_pods w; s_ssh := s_ssh w; s_vs := s_vs w;
                       s_aws := s_aws w; s_cloud := s_cloud w |};
}.

#[export] Instance store_sched_laws : SchedLaws Store.
Proof. by constructor. Qed.

(** The memory of the node drivers *)
#[export] Instance store_ssh : SshWorld Store := {
  ssh := s_ssh;
  set_ssh := λ s w, {| s_now := s_now w; s_px := s_px w; s_k8s := s_k8s w; s_sched := s_sched w; s_objects := s_objects w;
                       s_pods := s_pods w; s_ssh := s; s_vs := s_vs w; s_aws := s_aws w; s_cloud := s_cloud w |};
}.

#[export] Instance store_vs : VsphereWorld Store := {
  vs := s_vs;
  set_vs := λ s w, {| s_now := s_now w; s_px := s_px w; s_k8s := s_k8s w; s_sched := s_sched w; s_objects := s_objects w;
                      s_pods := s_pods w; s_ssh := s_ssh w; s_vs := s; s_aws := s_aws w; s_cloud := s_cloud w |};
}.

#[export] Instance store_vs_laws : VsphereWorldLaws Store.
Proof. by constructor. Qed.

#[export] Instance store_cloud : CloudWorld Store := {
  aws := s_aws;
  set_aws := λ s w, {| s_now := s_now w; s_px := s_px w; s_k8s := s_k8s w; s_sched := s_sched w; s_objects := s_objects w;
                       s_pods := s_pods w; s_ssh := s_ssh w; s_vs := s_vs w; s_aws := s; s_cloud := s_cloud w |};
  cloud := s_cloud;
  set_cloud := λ s w, {| s_now := s_now w; s_px := s_px w; s_k8s := s_k8s w; s_sched := s_sched w; s_objects := s_objects w;
                         s_pods := s_pods w; s_ssh := s_ssh w; s_vs := s_vs w; s_aws := s_aws w; s_cloud := s |};
}.

(** *** The objects *)

(** Deletes and gets of a type that has no namespace find the object in any. *)
Definition same_object (k : Kind) (n ns : string) (o : Object) : bool :=
  bool_decide (obj_kind o = k ∧ obj_Name o = n ∧ (obj_Namespace o = ns ∨ ns = "")).

Definition not_found : error := Errorf "object not found".
Definition already_exists : error := Errorf "already exists".

(** Claims are bound when they are made. *)
Definition bind_claim (o : Object) : Object :=
  match obj_kind o with
  | KPersistentVolumeClaim =>
      let c := claim_spec (Spec o) in
      set_claim_spec {| VolumeMode := Some (default PersistentVolumeFilesystem (VolumeMode c));
                        StorageClassName := StorageClassName c; DataSource := DataSource c;
                        Requests_set := Requests_set c; Phase := ClaimBound |} o
  | _ => o
  end.

Definition find_stored (k : Kind) (n ns : string) (w : Store) : option Object :=
  find_first (same_object k n ns) (s_objects w).

Definition drop_stored (k : Kind) (n ns : string) (w : Store) : Store :=
  with_objects (keep (λ o, negb (same_object k n ns o)) (s_objects w)) w.

#[export] Instance store_client : K8sClient Store := {
  client_Get := λ k n ns w,
    (Ok (match find_stored k n ns w with Some o => (Some o, None) | None => (None, Some not_found) end), w);
  client_Create := λ o w,
    match find_stored (obj_kind o) (obj_Name o) (obj_Namespace o) w with
    | Some _ => (Ok (None, Some already_exists), w)
    | None => (Ok (Some (bind_claim o), None), with_objects (bind_claim o :: s_objects w) w)
    end;
  client_Update := λ o w, (Ok o, with_objects (o :: s_objects (drop_stored (obj_kind o) (obj_Name o) (obj_Namespace o) w)) w);
  IsAlreadyExists := λ e, bool_decide (e = already_exists);
}.

#[export] Instance store_delete : K8sDelete Store := {
  client_Delete := λ k n ns w,
    match find_stored k n ns w with
    | Some _ => (Ok tt, drop_stored k n ns w)
    | None => (Err not_found, w)
    end;
}.

#[export] Instance store_nodes : K8sNodeApi Store := {
  uuid_New := look (λ w, Ok (unused (nodeRegistry (s_px w))));
  core_GetNodes := look (λ _, Ok K8sDemo.core_nodes);
  core_IsNodeReady := λ _, mret tt;
  IsNodeMaster := λ n, bool_decide (core_Name n = "master");
  GetLabelsOnNode := λ _, mret ∅;
  CordonNode := λ _ _ _, mret tt;
  GetPodsByNode := λ name _, look (λ w, Ok (keep (λ p, bool_decide (pod_NodeName p = name)) (s_pods w)));
  GetStorageProvisionerForPVC := λ _, mret "pxd.portworx.com";
  DrainPodsFromNode := λ _ _ _ _, mret tt;
  K8sNodes.show_node := Name;
}.

#[export] Instance store_core : K8sCore Store := {
  GetService := λ _ _, mret [];
  AddLabelOnNode := λ _ _ _, mret tt;
  RemoveLabelOnNode := λ _ _, mret tt;
  UnCordonNode := λ _ _ _, mret tt;
}.

#[export] Instance store_apps : K8sAppsApi Store := {
  ClusterResourceName := obj_Name;
  pds_Namespace := λ o, Some (obj_Namespace o);
  show_pds_Name := obj_Name;
  GetDeploymentPods := λ _, look (λ w, Ok (s_pods w));
  GetStatefulSetPods := λ _, throw ErrPodsNotFound;
  GetPodByUID := λ _ _, throw ErrPodsNotFound;
  GetPods := λ _, look (λ w, Ok (s_pods w));
  IsPodRunning := λ p, bool_decide (pod_Status p = "Running");
  ValidateDeployment := λ _ _ _, mret tt;
  ValidateStatefulSet := λ _ _, mret tt;
  ValidatePod := λ _ _ _, mret tt;
  ValidateCustom := λ _ _ _, mret tt;
  ValidateJob := λ _ _ _, mret tt;
  ValidateTerminatedDeployment := λ _ _ _, mret tt;
  ValidateTerminatedStatefulSet := λ _ _ _, mret tt;
  ValidateDeletedService := λ _ _, mret tt;
  WaitForPodDeletion := λ _ _ _, mret tt;
  DeletePod := λ n ns _, client_Delete KPod n ns;
  DeletePods := λ _ _, mret tt;
  core_GetPodLog := λ name _ _ _, mret ("log of " +:+ name);
  FindFiles := λ _ _ _ _ _, mret "";
  range_pods := map_to_list;
  show_pods := λ l, show_strings (pod_Name <$> l);
}.

#[export] Instance store_autopilot : K8sAutopilotApi Store := {
  ListServices := mret [("portworx-service", "kube-system")];
  ListPods := λ _ _, look (λ w, Ok (s_pods w));
  ListAutopilotRuleObjects := λ _, mret aros;
  ValidatePersistentVolumeClaimSize := λ _ _ _ _, mret tt;
  GetPodByName := λ name ns, mret (pod name "worker1" "10.0.0.2" []);
  pod_log_tail := λ _ _ _, mret "";
  show_rule := Rule_Name;
}.

(** No charts: the specs are plain objects, and the files are not read here. *)
#[export] Instance store_helm : HelmLib Store := {
  os_MkdirAll := mret tt;
  os_IsExist := λ _, false;
  os_IsNotExist := λ _, false;
  TryLock := mret true;
  Unlock := mret tt;
  read_repositories := mret "";
  unmarshal_repositories := λ _, Ok [];
  write_repositories := λ _, mret tt;
  repo_LoadFile := mret ([], None);
  NewChartRepository := λ _, mret tt;
  DownloadIndexFile := λ _, mret tt;
  action_Init := λ _, mret tt;
  LocateChart := mret;
  MergeValues := Ok ∅;
  strvals_ParseInto := λ _, Ok;
  loader_Load := λ _, mret {| chart_Type := "application"; chart_has_Dependencies := false |};
  CheckDependencies := λ _, Ok tt;
  install_Run := λ _ _ _ _, mret "";
  upgrade_Run := λ _ _ _ _, mret "";
  getvalues_Run := λ _, mret ∅;
  uninstall_Run := λ _ _, mret "";
}.

#[export] Instance store_files : SpecFiles := {
  walk_files := λ dir, Ok [dir +:+ "/pxd/volume.yaml"; dir +:+ "/pure/volume.yaml"; dir +:+ "/app.yaml"];
  ReadFile := λ name, Ok name;
  yaml_reads := λ text, [text];
  Decode := λ _ text, Ok (new_object KDeployment text "" None);
  AddToScheme := λ _, Ok tt;
  render := λ _ text, Ok text;
  customConfig := ∅;
  Unmarshal_HelmRepo := λ _, Err (Errorf "not a repository");
  K8sSpecs.Getenv := λ _, "";
}.

#[export] Instance store_create : K8sCreateApi Store := {
  RegisterCRD := λ o w, ((client_Create o w).1 ≫= λ _, Ok tt, (client_Create o w).2);
  api_CreateAutopilotRule := λ r, mret (Some r, None);
  api_GetAutopilotRule := λ _, throw not_found;
  vault_NewClient := mret tt;
  vault_SetAddress := λ _, mret tt;
  vault_Write := λ _ _ _, mret tt;
  Kubectl := λ _, mret tt;
  Stat_missing := λ _, mret false;
  K8sCreate.ParseQuantity := λ _, Ok (5 * 2 ^ 30);
  docker_config := λ _ _ _, "";
  K8sCreate.range_labels := map_to_list;
  show_object := obj_Name;
}.

#[export] Instance store_frame : CreateFrame Store.
Proof.
  constructor; intros; intros w; try done; simpl;
    repeat match goal with |- context [find_stored ?k ?n ?ns ?w] => destruct (find_stored k n ns w) end; done.
Qed.

Lemma find_stored_Some k n ns w o :
  find_stored k n ns w = Some o → o ∈ s_objects w ∧ same_object k n ns o = true.
Proof. apply find_first_Some. Qed.

#[export] Instance store_kinds : ClusterKinds Store.
Proof.
  constructor; simpl.
  - intros o w x e w'. destruct (find_stored _ _ _ w); [done|]. intros [= <- <- <-].
    unfold bind_claim. by destruct (obj_kind o) eqn:E; rewrite ?E.
  - intros k n ns w x e w'. destruct (find_stored k n ns w) as [y|] eqn:E; [|done]. intros [= <- <- <-].
    apply find_stored_Some in E as [_ E%bool_decide_eq_true]. apply E.
Qed.

(** *** Deletes *)

#[export] Instance store_volumes : K8sVolumeApi Store := {
  IsNotFound := λ e, bool_decide (e = not_found);
  GetStorageClassForPVC := λ pvc, get_object KStorageClass (default "" (StorageClassName (claim_spec (Spec pvc)))) "";
  GetPersistentVolumeClaimParams := λ _, mret ∅;
  GetPVCsForStatefulSet := λ _, mret (Some []);
  GetPersistentVolumeClaims := λ ns, look (λ w,
    Ok (keep (λ o, bool_decide (obj_kind o = KPersistentVolumeClaim ∧ obj_Namespace o = ns)) (s_objects w)));
  ValidatePersistentVolumeClaim := λ _ _ _, mret tt;
  ValidatePVCsForStatefulSet := λ _ _ _, mret tt;
  ext_ValidateSnapshot := λ _ _ _ _ _, mret tt;
  ValidateGroupSnapshot := λ _ _ _ _ _, mret tt;
  stork_ValidateVolumeSnapshotRestore := λ _ _ _ _, mret tt;
  ValidateSnapshotData := λ _ _ _ _, mret tt;
  GetSnapshotData := λ _, mret (None, Some not_found);
  GetSnapshotsForGroupSnapshot := λ _ _, mret [];
  ListSnapshots := λ ns, look (λ w,
    Ok (keep (λ o, bool_decide (obj_kind o = KOther "*v1.VolumeSnapshot" ∧ obj_Namespace o = ns)) (s_objects w)));
  DeleteCsiVolumeSnapshot := λ n ns, client_Delete (KOther "*v1.VolumeSnapshot") n ns;
  GetDataVolume := λ _ _, mret (None, Some not_found);
  pod_owners := λ _, [];
  restored_volumes := λ _, [];
  NodeCount := λ _, None;
  pds_ClusterResourceName := λ _, None;
  show_pds_Namespace := obj_Namespace;
  show_proxy := λ _, "";
}.

(** *** Snapshots and pods *)

Definition make_ready (o : Object) : Object :=
  let s := snapshot (Spec o) in
  set_snapshot {| SnapshotSource := SnapshotSource s; SnapshotClassName := SnapshotClassName s; HasStatus := true;
                  RestoreSize := Some (5 * 2 ^ 30); ReadyToUse := Some true; SnapshotDataName := "" |} o.

(** The name a pod is given; every pod runs and reads the text that was written. *)
Definition started (p : TestPod) : Pod :=
  {| pod_Name := GenerateName p +:+ "x1"; pod_Namespace := tp_Namespace p; pod_UID := "uid-x1"; pod_NodeName := "worker1";
     pod_HostIP := "10.0.0.2"; pod_Terminating := false; pod_Volumes := []; pod_RestartCounts := [0]; pod_Status := "Running" |}.

Definition find_pod (n : string) (w : Store) : outcome Pod :=
  match find_first (λ p, bool_decide (pod_Name p = n)) (s_pods w) with Some p => Ok p | None => Err not_found end.

#[export] Instance store_csi : K8sCsiApi Store := {
  BuildConfigFromFlags := λ _, mret tt;
  InClusterConfig := mret tt;
  NewForConfig := mret tt;
  CreateSnapshot := λ o w, (Ok o, with_objects (make_ready o :: s_objects w) w);
  GetCsiSnapshot := λ n ns, get_object (KOther "*v1.VolumeSnapshot") n ns;
  CreateSnapshotClass := mret;
  DeleteSnapshotClass := λ _, mret tt;
  ListSnapshotClasses := mret [];
  GetPodsUsingPVC := λ _ _, look (λ w, Ok (s_pods w));
  RunCommandInPod := λ _ _ _ _, mret ("saved: hello", None);
  exec_kubectl := λ _, mret ("saved: hello", None);
  kube_CreatePod := λ p w, (Ok (started p), with_pods (started p :: s_pods w) w);
  kube_GetPod := λ n _, look (find_pod n);
  kube_ListPods := λ _, look (λ w, Ok (s_pods w));
  kube_DeletePod := λ n _ w, (Ok tt, with_pods (keep (λ p, negb (bool_decide (pod_Name p = n))) (s_pods w)) w);
  pod_Phase := pod_Status;
  random_Intn := λ _, mret 0;
  show_app := SpecFactory.Key;
}.

#[export] Instance store_services : ClusterServices Store := {
  DiagsFile := λ _, "";
  set_DiagsFile := λ _ w, w;
  PxCluster.Getenv := λ _ _, "";
  local_hour := λ t, (1970, 1, 1, t / Hour);
  PxCluster.show_node := Name;
  cs_EnumerateAs := λ _ _, mret [];
  cs_DeleteAllAs := λ _ _, mret tt;
  cs_CreateAs := λ _ _, mret tt;
  cs_Status := mret ∅;
  vol_StatsAs := λ _ _, mret None;
  node_EnumerateAt := λ _, mret [];
  pair_EnumerateAt := λ _ _, mret tt;
  pair_GetTokenAt := λ _ _, mret None;
  GetRemotePXNodes := λ _, mret [];
  alerts_EnumerateWithFilters := λ _, mret 0;
  alerts_Recv := λ _, mret [];
  diags_Collect := λ _ _ _ _, mret None;
  job_GetStatus := λ _, throw not_found;
  diags_Post := λ _ _, mret tt;
  license_Status := mret None;
  feature_Enumerate := mret [];
  GetCRD := λ _, mret tt;
  defrag_CreateSchedule := λ _ _, mret "";
  defrag_GetNodeStatus := λ _, throw not_found;
  defrag_EnumerateNodeStatus := mret ∅;
  defrag_CleanUpSchedules := mret tt;
  schedule_Delete := λ _ _, mret tt;
  schedule_Enumerate := λ _, mret [];
  schedule_Inspect := λ _ _, throw not_found;
  s3_ListObjects := λ _ _ _ _ _ _ _, mret [];
}.

#[export] Instance store_describe : K8sDescribeApi Store := {
  config_from_file := λ path, mret {| cfg_Path := path; AuthProvider := None |};
  client_SetConfig := λ _ _, mret tt;
  client_Status := λ k n ns w,
    (Ok (match find_stored k n ns w with Some _ => (Some "ready", None) | None => (None, Some not_found) end), w);
  GetStorageClassParams := λ _, mret (None, Some not_found);
  core_ListEvents := λ _ _, mret ("no events", None);
  core_GetVersion := mret "v1.25.0";
  core_GetPods := λ _ _, look (λ w, Ok (s_pods w));
  pod_containers := λ _, [];
  show_pointer := λ o, from_option obj_Name "<nil>" o;
  show_params := λ _, "map[]";
  show_pod_list := λ l, show_strings (pod_Name <$> default [] l);
}.

#[export] Instance store_answers : AnswersInPairs (W := Store).
Proof. constructor; intros; intros w e; by intros ?. Qed.

(** ** An application *)

(** The specs of the factory: a daemon set among them, and a claim with the placeholder *)
Definition claim_of_app : Object :=
  set_claim_spec {| VolumeMode := None; StorageClassName := Some "fast"; DataSource := None; Requests_set := true;
                    Phase := "" |}
    (set_StorageRequest (5 * 2 ^ 30) (new_object KPersistentVolumeClaim "data-_NAMESPACE_" "" None)).

Definition web_specs : gmap nat Object :=
  {[ 0%nat := new_object KDeployment "web" "" None; 1%nat := new_object KDaemonSet "agent" "" None;
     2%nat := claim_of_app; 3%nat := new_object KStorageClass "fast" "" None;
     4%nat := new_object KService "web" "" None; 5%nat := new_object KSecret "key" "" None ]}.

Definition factory_app (key : string) (ptrs : list nat) : AppSpec nat :=
  {| SpecFactory.Key := key; SpecList := ptrs; Enabled := true; IsCSI := false; NameSpace := "" |}.

Definition start : Store :=
  {| s_now := 0; s_px := K8sDemo.c_px K8sDemo.start; s_k8s := K8sDemo.c_k8s K8sDemo.start;
     s_sched := {| specs := web_specs; appSpecFactory := {["web" := factory_app "web" [0; 1; 2; 3; 4; 5]%nat]};
                   helm_settings := false |};
     s_objects := []; s_pods := [];
     s_ssh := SSH.New; s_vs := {| vsphereUsername := ""; vspherePassword := ""; vsphereHostIP := ""; vmMap := ∅ |};
     s_aws := {| aws_region := ""; instances := [] |};
     s_cloud := {| instanceGroup := ""; has_ops := false; clusterConfig := {| config_ClusterID := ""; ClusterName := "" |} |} |}.

Definition schedule_options (keys : list string) (labels : list (gmap string string)) : ScheduleOptions :=
  {| AppKeys := keys; CsiAppKeys := []; opt_Nodes := []; StorageProvisioner_ := ""; opt_AutopilotRule := no_rule;
     Scheduler := ""; opt_Labels := ∅; PvcNodesAnnotation := []; PvcSize := 0; opt_Namespace := "";
     TopologyLabels := labels; PureFAPodName := ""; Upgrade := false |}.

#[export] Instance store_source : SpecSource (O := nat) :=
  {| ParseSpecs := λ _ _, Ok []; ReadDir := λ _, Ok []; range_apps := map_to_list |}.

Definition opts_web : ScheduleOptions := schedule_options ["web"; "web"] [{["zone" := "a"]}; {["zone" := "b"]}].

Definition created := CreateSpecObjects K8sDemo.volumes (factory_app "web" [0; 1; 2; 3; 4; 5]%nat) "web-1" opts_web start.

(** Storage comes before the workloads, the secret after the deployment as in the spec
    list, and the daemon set is skipped. *)
Lemma CreateSpecObjects_order_witness :
  let specs0 := concat ((λ ks, handled_by ks (specs (sched start)) [0; 1; 2; 3; 4; 5]%nat) <$> pass_kinds) in
  obj_kind <$> specs0 = [KPersistentVolumeClaim; KStorageClass; KDeployment; KService; KSecret] ∧
  ∃ l, created.1 = Ok l ∧ Forall2 (made_of (W := Store)) specs0 l.
Proof.
  intros specs0. split; [vm_compute; reflexivity|].
  destruct (created.1) as [l|e|s|] eqn:E; [|vm_compute in E; discriminate E..].
  exists l. split; [reflexivity|].
  apply (CreateSpecObjects_order K8sDemo.volumes (factory_app "web" [0; 1; 2; 3; 4; 5]%nat) "web-1" opts_web start l created.2).
  rewrite <- E. apply surjective_pairing.
Defined.

Definition scheduled := Schedule K8sDemo.volumes "1" opts_web start.

Lemma Schedule_contexts_witness :
  ∃ ctxs, scheduled.1 = Ok ctxs ∧ length ctxs = 2%nat ∧
    ∀ ctx, ctxs !! 1%nat = Some ctx → opt_Namespace (ScheduleOpts ctx) = "web-1" ∧
      TopologyLabels (ScheduleOpts ctx) = TopologyLabels opts_web.
Proof.
  destruct (scheduled.1) as [ctxs|e|s|] eqn:E; [|vm_compute in E; discriminate E..].
  exists ctxs. split; [done|].
  destruct (Schedule_contexts K8sDemo.volumes "1" opts_web start ctxs scheduled.2) as [Hlen Hc].
  { discriminate. }
  { rewrite <- E. apply surjective_pairing. }
  split; [exact Hlen|]. intros ctx Hctx.
  destruct (Hc 1%nat "web" ctx eq_refl Hctx) as (d & Hd & _ & _ & _ & Hns & Ht & _).
  change (appSpecFactory (sched start)) with ({["web" := factory_app "web" [0; 1; 2; 3; 4; 5]%nat]} : gmap string (AppSpec nat)) in Hd.
  rewrite lookup_singleton_eq in Hd. injection Hd as <-. split; [exact Hns|exact Ht].
Defined.

(** The claim of the second namespace is named after the first. *)
Lemma claim_name_sticks_witness :
  let ns1 := new_object KNamespace "a-1" "" None in
  ∃ o1, specs (sched (create_claim 2 ns1 (app "web" []) opts_web start).2) !! 2%nat = Some o1 ∧
    obj_Name (prepare_claim "b-1" opts_web o1) = "data-a-1".
Proof.
  intros ns1.
  destruct (claim_name_sticks 2 ns1 (app "web" []) opts_web start (create_claim 2 ns1 (app "web" []) opts_web start).1
              (create_claim 2 ns1 (app "web" []) opts_web start).2
              claim_of_app) as (o1 & Ho1 & Hn); [vm_compute; reflexivity..|apply surjective_pairing|].
  exists o1. split; [exact Ho1|]. exact (proj2 (Hn "b-1" opts_web)).
Defined.

(** *** Destroying it *)

Definition object (k : Kind) (n : string) : Object := new_object k n "web-1" None.

Definition running (specs : list Object) (rule : AutopilotRule) : Context :=
  {| UID := "1"; App := app "web" specs;
     ScheduleOpts := {| AppKeys := []; CsiAppKeys := []; opt_Nodes := []; StorageProvisioner_ := ""; opt_AutopilotRule := rule;
       Scheduler := ""; opt_Labels := ∅; PvcNodesAnnotation := []; PvcSize := 0; opt_Namespace := ""; TopologyLabels := [];
       PureFAPodName := ""; Upgrade := false |};
     SkipClusterScopedObject := false |}.

Definition with_stored (l : list Object) : Store := with_objects l start.

(** A deployment and its service; the service was deleted by somebody else. *)
Definition web_running : Context := running [object KDeployment "web"; object KService "web"] no_rule.


Definition gone_rule : AutopilotRule :=
  {| Rule_Name := "resize"; MatchLabels := ∅; Expressions := []; Actions := []; Enforcement := "";
     ActionsCoolDownPeriod := 0 |}.

(** The deployment is in the cluster before and after. *)
Lemma Destroy_missing_rule_witness :
  let w := with_stored [object KDeployment "web"] in
  Destroy ∅ (w, running [object KDeployment "web"] gone_rule) = (Ok tt, (w, running [object KDeployment "web"] gone_rule)).
Proof.
  intros w. apply (Destroy_missing_rule ∅ (running [object KDeployment "web"] gone_rule) w w not_found).
  - intros o Ho. apply list_elem_of_singleton in Ho as ->. split; discriminate.
  - discriminate.
  - vm_compute. reflexivity.
  - vm_compute. reflexivity.
Defined.

Lemma Destroy_leaks_witness :
  let w := with_stored [object KPersistentVolumeClaim "data"; object KSecret "key"] in
  let ctx := running [object KPersistentVolumeClaim "data"; object KSecret "key"] no_rule in
  Forall (λ k, k ∈ concat pass_kinds ∧ k ∉ destroyed_kinds) leaked_kinds ∧ Destroy ∅ (w, ctx) = (Ok tt, (w, ctx)).
Proof.
  intros w ctx. apply (Destroy_leaks ∅ ctx w); [apply (bool_decide_unpack _); vm_compute; exact I|reflexivity].
Defined.

(** *** Its volumes *)

Definition stored_claim : Object :=
  set_claim_spec {| VolumeMode := Some PersistentVolumeFilesystem; StorageClassName := Some "fast"; DataSource := None;
                    Requests_set := true; Phase := ClaimBound |}
    (set_StorageRequest (5 * 2 ^ 30) (object KPersistentVolumeClaim "data")).

Definition storage : Store := with_stored [stored_claim; new_object KStorageClass "fast" "" None].

(** The storage class goes too, and a claim that is already gone is no error. *)
Lemma DeleteVolumes_deletes_witness :
  let ctx := running [stored_claim; object KPersistentVolumeClaim "gone"; new_object KStorageClass "fast" "" None] no_rule in
  let d := DeleteVolumes ctx (Some {| SkipClusterScopedObjects := false; ExpectError := false |}) storage in
  storage_gone KPersistentVolumeClaim "data" "web-1" d.2 ∧ storage_gone KStorageClass "fast" "" d.2.
Proof.
  intros ctx d. assert (∃ vols, d.1 = Ok vols) as [vols Hv] by (vm_compute; eauto).
  assert (d = (Ok vols, d.2)) as Hd by (rewrite <- Hv; apply surjective_pairing).
  split.
  - apply (DeleteVolumes_deletes ctx _ storage vols d.2 stored_claim "web-1" Hd); [by left|reflexivity].
  - apply (DeleteVolumes_deletes ctx _ storage vols d.2 (new_object KStorageClass "fast" "" None) "" Hd);
      [by do 2 right; left|reflexivity].
Defined.

#[export] Instance store_expansion : ExpansionEnv := {
  PxExpansion.ParseQuantity := λ s, if decide (s = "2Gi") then Ok (2 * 2 ^ 30) else Err (Errorf "quantity");
  f64_outside := λ _, 0;
  range_disks := map_to_list;
  PxExpansion.range_labels := map_to_list;
}.

Lemma ResizePVC_spec_witness :
  ∃ v, (ResizePVC (running [] no_rule) stored_claim 2 storage).1 = Ok (Some v) ∧ RequestedSize v = 7 * 2 ^ 30.
Proof.
  eexists. rewrite (ResizePVC_spec (running [] no_rule) stored_claim 2 (2 * 2 ^ 30) storage); try reflexivity;
    [|discriminate..]. vm_compute. split; reflexivity.
Defined.

Lemma snapshotAndVerify_sound_witness :
  let d := snapshotAndVerify (5 * 2 ^ 30) "hello" "snap" "web-1" "fast" "class" "restored" "data" storage in
  ∃ snap spec restored,
    (∃ w1 w2 : Store, CreateSnapshot (new_snapshot "snap" "web-1" "class" "data") w1 = (Ok snap, w2)) ∧
    obj_Name spec = "restored" ∧ DataSource (claim_spec (Spec spec)) = Some (VolumeSnapshotKind, obj_Name snap) ∧
    (∃ w1 w2 : Store, create_object spec w1 = (Ok restored, w2)) ∧ tested (W := Store) "hello" "web-1" restored.
Proof.
  intros d. apply (snapshotAndVerify_sound (5 * 2 ^ 30) "hello" "snap" "web-1" "fast" "class" "restored" "data" storage d.2).
  vm_compute. reflexivity.
Defined.

Lemma Describe_no_error_witness : (Describe web_running start).1 ≠ Err not_found.
Proof. apply (Describe_no_error web_running start not_found). Defined.

(** The file under the directory of another driver is left out. *)
Definition other_driver : VolumePackage :=
  {| volDrivers := {["pure" := pso]}; provisioners := []; StorageDriver := "pxd"; StorageProvisioner := "" |}.

Lemma ParseSpecs_spec_witness :
  ∃ parts, Forall2 (λ f p, parse_file "web" f = Ok p) ["/specs/web/pxd/volume.yaml"; "/specs/web/app.yaml"] parts.
Proof.
  assert (∃ l, K8s_ParseSpecs other_driver "/specs/web" "pxd" = Ok l) as [l Hl] by (vm_compute; eauto).
  destruct (ParseSpecs_spec other_driver "/specs/web" "pxd"
              ["/specs/web/pxd/volume.yaml"; "/specs/web/pure/volume.yaml"; "/specs/web/app.yaml"] l)
    as [(parts & _ & Hp) _]; [reflexivity|exact Hl|].
  exists parts. vm_compute in Hp. vm_compute. exact Hp.
Defined.
End AppDemo.
