(* ===== verification/SchedOpsDemo.v ===== *)
(** The theorems of SchedOpsProps at work, on the cluster of K8sAppDemo with labelled
    nodes, a pod of Portworx and a pod with a mounted claim. *)

From Stdlib Require Import Ascii.
From S2P Require Import Prelude GoStrings Errors Effects Regexp Strconv Task OpenStorageApi NodeRegistry AutopilotRules SpecFactory PxDriver K8sObjects VolumeDrivers K8sSpecs K8sNodes K8sHelm K8sCreate K8sCreateProps K8sApps PxExpansion K8sAutopilot K8sDestroy PxVolume PxCluster K8sVolumes K8sCsi K8sDescribe SchedOpsK8s SchedOpsProps PxDemo K8sDemo K8sAppDemo.

Module OpsDemo.
Import K8sDemo (pod).
Import AppDemo.

Definition nl : string := String "010" "".

Definition worker : KubeNode :=
  {| kn_Name := "worker1"; kn_Labels := {["pvc-1" := "true"; "node-role.kubernetes.io/infra" := "true";
       "node-role.kubernetes.io/compute" := "true"]};
     kn_Taints := []; kn_Addresses := [("Hostname", "worker1"); ("InternalIP", "10.0.0.2"); ("ExternalIP", "1.2.3.4")] |}.

Definition worker2 : KubeNode :=
  {| kn_Name := "worker2"; kn_Labels := ∅; kn_Taints := []; kn_Addresses := [("InternalIP", "10.0.0.3")] |}.

Definition gone_uid : string := "0a1b2c3d-0000-1111-2222-0123456789ab".

(** One volume directory is left, of a pod that is gone, and its claim is empty. *)
Definition demo_find (path : string) (opts : FindOpts) : string :=
  if find_Empty opts then (if HasPrefix path (k8sPodsRootDir +:+ "/" +:+ gone_uid +:+ "/volumes/pxd/claim") then path else "")
  else if bool_decide (find_Type opts = Directory) then path +:+ "/claim" +:+ nl
  else k8sPodsRootDir +:+ "/" +:+ gone_uid +:+ "/volumes/pxd" +:+ nl.

#[export] Instance store_driver : NodeDriver Store := {
  RunCommand := λ _ cmd _, mret cmd;
  RunCommandWithNoRetry := λ _ cmd _, mret cmd;
  Systemctl := λ _ _ _ _, mret tt;
}.

(** Pods read their mounts as a pod with the claim at /data would: the second command is
    the one that follows links. *)
#[export] Instance store_csi_mounts : K8sCsiApi Store := {
  BuildConfigFromFlags := λ _, mret tt;
  InClusterConfig := mret tt;
  NewForConfig := mret tt;
  CreateSnapshot := mret;
  GetCsiSnapshot := λ _ _, throw not_found;
  CreateSnapshotClass := mret;
  DeleteSnapshotClass := λ _, mret tt;
  ListSnapshotClasses := mret [];
  GetPodsUsingPVC := λ _ _, mret [];
  RunCommandInPod := λ cmd _ _ _, mret (match cmd with
    | ["cat"; _] => "proc /proc proc rw 0 0" +:+ nl +:+ "/dev/pxd/pxd123 /data ext4 rw,relatime 0 0" +:+ nl
    | ["readlink"; _; path] => path +:+ nl
    | _ => "" end, None);
  exec_kubectl := λ _, mret ("", None);
  kube_CreatePod := λ p, mret (started p);
  kube_GetPod := λ _ _, throw not_found;
  kube_ListPods := λ _, mret [];
  kube_DeletePod := λ _ _, mret tt;
  pod_Phase := pod_Status;
  random_Intn := λ _, mret 0;
  show_app := SpecFactory.Key;
}.

Definition px_pod : Pod := pod "px" "worker1" "10.0.0.2" [].
Definition web_pod : Pod := pod "web-1" "worker1" "10.0.0.2" [].

#[export] Instance store_ops : K8sOpsApi Store := {
  core_GetNodeByName := λ name, mret (if decide (name = "worker1") then (Some worker, None) else (None, Some not_found));
  SearchNodeByAddresses := λ addrs, mret (if decide ("10.0.0.2" ∈ addrs) then (Some worker, None) else (None, None));
  GetPodsUsingPV := λ _, mret [web_pod];
  IsPodReady := λ _, true;
  pod_Labels := λ p, if decide (pod_Name p = "px") then {["name" := "portworx"]} else ∅;
  pod_claims := λ _, [("data", Some "claim"); ("scratch", None)];
  pod_Containers := λ _, [ {| ctr_Name := "web"; ctr_Mounts := [("data", "/data"); ("scratch", "/tmp")]; ctr_Devices := [] |} ];
  GetReplicaSet := λ _ _, mret (Some 1);
  driver_FindFiles := λ path _ opts, mret (demo_find path opts, None);
  core_GetServiceEndpoint := λ _ _, mret "10.0.0.100";
  CreateJob := λ j, mret ("talisman", job_Namespace j);
  ListStorageClusters := λ ns, mret [("px-cluster", ns)];
  GetStorageCluster := λ _ _, mret ∅;
  dest_Instance := λ _, mret tt;
  dest_GetNodes := λ _, mret [worker; worker2];
  dest_IsNodeMaster := λ _, false;
  list_AutopilotRules := mret [];
  range_paths := map_to_list;
}.

#[export] Instance store_ops_frame : K8sOpsFrame Store.
Proof. constructor; intros; intros w; simpl; split; done || lia. Qed.

Definition px_world : Store := with_pods [px_pod] start.

(** The operations of Kubernetes meet the laws of the driver's interface here. *)
Lemma k8s_schedops_laws_witness : SchedOpsFrame Store (H0 := k8s_schedops).
Proof. apply (k8s_schedops_laws (W := Store)). Defined.

Definition replica (id ip : string) : StorageNode :=
  {| Id := id; Hostname := ""; DataIp := ip; MgmtIp := ip; SchedulerNodeName := ""; NodeStatus := STATUS_OK; Pools := [];
     Disks := ∅; NodeLabels := ∅ |}.

Lemma store_lookups : lookups_answer (W := Store).
Proof. intros w e. by split. Qed.

Definition labelled_volume : ApiVolume :=
  {| Vol_Id := "1"; Locator_Name := "vol"; VolumeLabels := {[pvcLabel := "pvc-1"]}; Vol_Spec := PxDemo.spec2;
     Vol_Readonly := false; Source_Parent := None; Vol_Status := Vol_Status PxDemo.vol1; Vol_State := Vol_State PxDemo.vol1;
     AttachedState := AttachedState PxDemo.vol1; AttachedOn := ""; AttachPath := []; DevicePath := ""; ReplicaSets := [];
     RuntimeState := []; DerivedIoProfile := DerivedIoProfile PxDemo.vol1 |}.

(** The first replica is found by its name, the second by its address. *)
Lemma ValidateAddLabels_result_witness :
  ∃ w1 w2 : Store, K8sOps.add_label_task "pvc-1" (replica "x" "10.0.0.2") w1 = (Ok (Done tt), w2).
Proof.
  apply (ValidateAddLabels_result [replica "worker1" ""; replica "x" "10.0.0.2"] labelled_volume
    "pvc-1" start start (Ok tt) store_lookups); [reflexivity|vm_compute; reflexivity|by right; left].
Defined.

(** No replica has the label: the answer is a time-out, not the list of nodes. *)
Example labels_time_out :
  match (K8sOps.ValidateAddLabels [replica "worker2" ""] labelled_volume start).1 with
  | Err (ErrTimedOut _) => true | _ => false end = true.
Proof. vm_compute. reflexivity. Qed.

Definition node_worker1 : Node :=
  {| storageNode := None; uuid := "u1"; VolDriverNodeID := ""; Name := "worker1"; Addresses := ["10.0.0.2"];
     UsableAddr := ""; Type_ := TypeWorker; Zone := ""; Region := ""; TopologyZone := "";
     TopologyRegion := ""; IsStorageDriverInstalled := false; IsMetadataNode := false;
     StoragePools := []; PxPodRestartCount := 0 |}.

Lemma IsPXEnabled_true_witness :
  ∃ kubeNode, K8sOps.label kubeNode k8sRoleNodeInfraLabelKey = "true" →
    is_Some (kn_Labels kubeNode !! k8sRoleNodeComputeLabelKey).
Proof.
  destruct (IsPXEnabled_true node_worker1 px_world px_world) as (kn & w1 & w2 & w3 & ns & b & _ & _ & _ & _ & _ & Hc).
  - vm_compute. reflexivity.
  - exists kn. exact Hc.
Defined.

(** The node is known and the driver runs on it. *)
Definition with_node : Store :=
  set_px (with_registry {["u1" := {| storageNode := Some (replica "id1" "10.0.0.2"); uuid := "u1"; VolDriverNodeID := "id1";
     Name := "worker1"; Addresses := ["10.0.0.2"]; UsableAddr := ""; Type_ := TypeWorker; Zone := ""; Region := "";
     TopologyZone := ""; TopologyRegion := ""; IsStorageDriverInstalled := true; IsMetadataNode := false;
     StoragePools := []; PxPodRestartCount := 0 |} ]} (px start)) px_world.

Definition mounted_volume : Volume :=
  {| ID := "pvc-1"; Volume_Name := "claim"; Namespace := "web"; PxVolume.Annotations := ∅; PxVolume.Labels := ∅; Size := 0;
     RequestedSize := 0; Shared := false; Raw := false |}.

Lemma ValidateVolumeSetup_success_witness :
  ∃ (w1 w2 w3 w4 : Store) pods nodes valid,
    GetPodsUsingPV (ID mounted_volume) w1 = (Ok pods, w2) ∧ K8sOps.nodes_by_name w2 = (Ok nodes, w3) ∧
    surveyed mounted_volume nodes pods valid w3 w4 ∧
    asked_for mounted_volume pods (Z.of_nat (length valid)) w4 with_node.
Proof.
  apply (ValidateVolumeSetup_success mounted_volume "" with_node with_node); [reflexivity|vm_compute; reflexivity].
Defined.

(** The directory of the claim is empty; the pod is gone. *)
Lemma ValidateVolumeCleanup_success_witness :
  ∃ (w1 w2 w3 : Store) nodes dirs nodeMap,
    registry_GetStorageDriverNodes with_node = (Ok nodes, w1) ∧
    K8sOps.list_volume_dirs nodes ∅ ∅ w1 = (Ok (dirs, nodeMap), w2) ∧
    ∀ pods, core_GetPods "" ∅ w2 = (Ok pods, w3) →
    ∀ name paths n path, dirs !! name = Some paths → nodeMap !! name = Some n → path ∈ paths →
      dir_clean (W := Store) pods n path.
Proof.
  apply (ValidateVolumeCleanup_success with_node with_node); [intros m; reflexivity|vm_compute; reflexivity].
Defined.

Example uid_of_path :
  K8sOps.extractPodUID (k8sPodsRootDir +:+ "/" +:+ gone_uid +:+ "/volumes/pxd") = Ok gone_uid.
Proof. vm_compute. reflexivity. Qed.

Example read_only : (K8sOps.isMountReadOnly "/dev/pxd1 /a ext4 ro,relatime", K8sOps.isMountReadOnly "/dev/pxd1 /a ext4 rw 0") =
  (Ok true, Ok false).
Proof. vm_compute. reflexivity. Qed.

(** The second node has the addresses of the first as well. *)
Lemma remote_nodes_addresses_witness :
  ∃ n, K8sOps.remote_nodes [] [worker; worker2] !! 1%nat = Some n ∧ Addresses n = ["10.0.0.2"; "1.2.3.4"; "10.0.0.3"].
Proof.
  eexists. split; [reflexivity|].
  destruct (remote_nodes_addresses [worker; worker2] 1 _ eq_refl) as (p & _ & _ & Ha). exact Ha.
Defined.
End OpsDemo.
