(* ===== verification/NodeDemo.v ===== *)
(** The theorems of NodeSSHProps, NodeVsphereProps and NodeCloud at work on the cluster of
    K8sAppDemo: its nodes are machines of vSphere, commands run in their debug pods, and IBM's
    command line answers for a pool of workers. *)

From Stdlib Require Import Ascii Sorting.Sorted.
From stdpp Require Import sorting.
From S2P Require Import Prelude GoStrings Errors Effects Regexp Strconv Task OpenStorageApi NodeRegistry AutopilotRules SpecFactory PxDriver K8sObjects VolumeDrivers K8sSpecs K8sNodes K8sHelm K8sCreate K8sApps PxExpansion K8sAutopilot PxNodeOps K8sCsi SchedOpsK8s SchedOpsProps NodeSSH NodeSSHProps NodeVsphere NodeVsphereProps NodeCloud PxDemo K8sDemo K8sAppDemo SchedOpsDemo.

Module NodeDemo.
Import K8sDemo (pod).
Import AppDemo.

(** *** Debug pods *)

Definition sda : device :=
  {| dev_path := "/dev/sda"; dev_labels := []; dev_size := "32G"; dev_mount := "/"; dev_fs := "ext4"; dev_type := "disk" |}.
Definition sdb : device :=
  {| dev_path := "/dev/sdb"; dev_labels := [Pair "pxpool" "0"; Pair "mdpoolid" "0"; Flag "mdvol"]; dev_size := "128G";
     dev_mount := ""; dev_fs := "btrfs"; dev_type := "disk" |}.

(** A token for pxctl, and no key for ssh *)
#[export] Instance node_files : SpecFiles := {
  walk_files := λ _, Ok [];
  ReadFile := Ok;
  yaml_reads := λ text, [text];
  Decode := λ _ text, Ok (new_object KDaemonSet text "" None);
  AddToScheme := λ _, Ok tt;
  render := λ _ text, Ok text;
  customConfig := ∅;
  Unmarshal_HelmRepo := λ _, Err (Errorf "not a repository");
  K8sSpecs.Getenv := λ name, if decide (name = "PXCTL_AUTH_TOKEN") then "secret"
                             else if decide (name = ibmAPIKey) then "key" else "";
}.

#[export] Instance node_csi : K8sCsiApi Store := {
  BuildConfigFromFlags := λ _, mret tt;
  InClusterConfig := mret tt;
  NewForConfig := mret tt;
  CreateSnapshot := mret;
  GetCsiSnapshot := λ _ _, throw not_found;
  CreateSnapshotClass := mret;
  DeleteSnapshotClass := λ _, mret tt;
  ListSnapshotClasses := mret [];
  GetPodsUsingPVC := λ _ _, mret [];
  RunCommandInPod := λ cmd _ _ _, mret (if decide (List.last cmd "" = SSH.lsblk_command) then lsblk_output [sda; sdb] else "done", None);
  exec_kubectl := λ _, mret ("", None);
  kube_CreatePod := λ p, mret (started p);
  kube_GetPod := λ _ _, throw not_found;
  kube_ListPods := λ _, mret [];
  kube_DeletePod := λ _ _, mret tt;
  pod_Phase := pod_Status;
  random_Intn := λ _, mret 0;
  show_app := SpecFactory.Key;
}.

#[export] Instance node_ops : K8sOpsApi Store := {
  core_GetNodeByName := λ _, mret (None, Some not_found);
  SearchNodeByAddresses := λ _, mret (None, None);
  GetPodsUsingPV := λ _, mret [];
  IsPodReady := λ _, true;
  pod_Labels := λ p, {["name" := pod_Name p]};
  pod_claims := λ _, [];
  pod_Containers := λ _, [];
  GetReplicaSet := λ _ _, mret None;
  driver_FindFiles := λ _ _ _, mret ("", None);
  core_GetServiceEndpoint := λ _ _, mret "";
  CreateJob := λ j, mret ("talisman", job_Namespace j);
  ListStorageClusters := λ ns, mret [];
  GetStorageCluster := λ _ _, mret ∅;
  dest_Instance := λ _, mret tt;
  dest_GetNodes := λ _, mret [];
  dest_IsNodeMaster := λ _, false;
  list_AutopilotRules := mret [];
  range_paths := map_to_list;
}.

#[export] Instance node_ssh : SshApi Store := {
  ssh_Dial := λ _ _, mret 0%nat;
  NewSession := λ _, mret 0%nat;
  RequestPty := λ _, mret tt;
  StderrPipe := λ _, mret 0%nat;
  StdoutPipe := λ _, mret 1%nat;
  session_Start := λ _ _, mret tt;
  session_Wait := λ _, mret tt;
  session_Close := λ _, mret tt;
  ReadAll := λ _, mret "";
  read_key_file := λ _, mret "";
  ParsePrivateKey := Ok;
  ValidateDaemonSet := λ _ _ _, mret tt;
  time_Parse_error := λ v, "cannot parse " +:+ v;
}.

#[export] Instance node_frame : SshFrame Store.
Proof. constructor; intros; intros w; simpl; split; done || lia. Qed.

Lemma ssh_driver_laws_witness : NodeDriverFrame Store (H0 := ssh_node_driver).
Proof. apply (ssh_driver_laws (W := Store)). Defined.

Definition node1 : Node := PxDemo.worker "worker1" "u1" "10.0.0.1" PxDemo.sn1.
Definition node2 : Node := PxDemo.worker "worker2" "u2" "10.0.0.2" PxDemo.sn2.

Definition debug_world : Store := with_pods [pod "web" "worker1" "10.0.0.1" []; pod "debug" "worker1" "10.0.0.1" []] start.

Definition one_minute : ConnectionOpts := conn_opts (1 * Minute) (10 * Second).

Lemma doCmd_context_witness :
  ∃ created deleted (w1 : Store),
    ran_in_pod node1 (SSH.create_context "secret") created w1 ∧ ran_in_pod node1 SSH.delete_context deleted debug_world.
Proof.
  destruct (doCmd_context node1 one_minute "pxctl status" debug_world "done" debug_world)
    as (w1 & w2 & created & deleted & _ & _ & _ & Hc & _ & Hd); [by vm_compute..|].
  exists created, deleted, w1. by split.
Defined.

Lemma GetBlockDrives_reads_witness :
  ∃ drives, SSH.GetBlockDrives node1 one_minute debug_world = (Ok drives, debug_world) ∧
    ∀ path dr, drives !! path = Some dr ↔ ∃ d, last_of path [sda; sdb] d ∧ dr = drive_of d.
Proof.
  apply (GetBlockDrives_reads node1 one_minute [sda; sdb] debug_world debug_world).
  - done.
  - done.
  - repeat constructor; by vm_compute.
  - by vm_compute.
Defined.

(** *** Machines *)

Definition vm1 : VirtualMachine := {| vm_Ref := "vm-1"; vm_Name := "machine 1" |}.
Definition vm2 : VirtualMachine := {| vm_Ref := "vm-2"; vm_Name := "machine 2" |}.
Definition px1 : Datastore := {| ds_Ref := "ds-1"; ds_Name := "px-1" |}.
Definition px2 : Datastore := {| ds_Ref := "ds-2"; ds_Name := "px-2" |}.

Definition disk (key unit size : Z) : VirtualDisk :=
  {| disk_Key := key; UnitNumber := Some unit; CapacityInKB := size; disk_Label := Some "disk";
     disk_Backing := Some {| FileName := "[px-1] disk.vmdk"; b_Datastore := Some "ds-1"; b_Uuid := "" |} |}.

Definition hardware : list Device := [None; Some (disk 2000 0 10); Some (disk 2001 1 100); Some (disk 2002 2 200)].

Definition not_less (less : VirtualDisk → VirtualDisk → bool) (a b : VirtualDisk) : Prop := less b a = false.

#[export] Instance not_less_dec less a b : Decision (not_less less a b).
Proof. unfold not_less. apply _. Defined.

#[export] Instance node_vsphere : VsphereApi Store := {
  url_Parse := Ok;
  govmomi_NewClient := λ _, mret 0%nat;
  DefaultDatacenter := λ _, mret (Some "dc", None);
  DatacenterList := λ _, mret ["dc"];
  VirtualMachineList := λ _, mret [vm1; vm2];
  finder_VirtualMachine := λ _ _, mret vm1;
  finder_Datastore := λ _ _, mret px1;
  DatastoreList := λ _, mret [px1; px2];
  guest_HostName := λ vm, mret (Some (if decide (vm_Ref vm = "vm-1") then "worker1" else "worker2"));
  guest_Net := λ vm, mret (Some [[if decide (vm_Ref vm = "vm-1") then "10.0.0.1" else "10.0.0.2"]]);
  config_hardware := λ _, mret (Some hardware);
  vm_UUID := λ vm, mret (vm_Ref vm);
  vm_Device := λ _, mret hardware;
  PowerState := λ _, mret Vsphere.poweredOn;
  PowerOn := λ _, mret 0%nat;
  PowerOff := λ _, mret 0%nat;
  vm_Destroy := λ _, mret 0%nat;
  WaitForResult := λ _, mret tt;
  RebootGuest := λ _, mret tt;
  ShutdownGuest := λ _, mret tt;
  RemoveDevice := λ _ _ _, mret tt;
  Reconfigure := λ _ _ _, mret 0%nat;
  Relocate := λ _ _, mret 0%nat;
  task_Wait := λ _, mret tt;
  ds_summary := λ _, mret (1024 * 1000, 1024 * 900);
  ds_parent := λ ds, mret (if decide (ds_Ref ds = "ds-1") then Some ("StoragePod", "pod-1") else None);
  sort_Slice := λ less, merge_sort (not_less less);
  range_sets := λ m, (map_to_list m).*2;
  range_configs := map_to_list;
  show_vm := vm_Name;
}.

#[export] Instance node_sort : DiskSortLaws Store.
Proof.
  constructor; intros less l; simpl; [apply merge_sort_Permutation|]. intros [Hasym Htrans].
  assert (Transitive (not_less less)) as Ht by (intros a b c; apply Htrans).
  assert (Total (not_less less)) as Hto.
  { intros a b. unfold not_less. destruct (less b a) eqn:E; [right; by apply Hasym|by left]. }
  by apply (StronglySorted_merge_sort (not_less less)).
Qed.

Definition vm_world : Store := set_px (with_registry {["u1" := node1; "u2" := node2]} (px start)) start.

Lemma connect_known_witness :
  ∃ nodes : list Node, nodes ≠ [] ∧ known_machines (Name <$> nodes) (Vsphere.connect vm_world).2.
Proof.
  assert (∀ vm, keeps_map (W := Store) (guest_HostName vm)) as Hg by done.
  assert (∀ f, keeps_map (W := Store) (VirtualMachineList f)) as Hl by done.
  assert (keeps_map (range_nodes (W := Store))) as Hn by done.
  destruct (connect_known Hg Hl Hn vm_world
              (Vsphere.connect vm_world).2) as (nodes & w1 & w2 & _ & Hne & Hk); [by vm_compute|]. by exists nodes.
Defined.

Lemma MoveDisks_success_witness :
  ∃ (w1 w2 : Store) vm, steps (Vsphere.change_disk OpAdd vm) [disk 2001 1 100; disk 2002 2 200] w1 w2.
Proof.
  destruct (MoveDisks_success node1 node2 vm_world (Vsphere.MoveDisks node1 node2 vm_world).2)
    as (src & tgt & devices & w1 & w2 & w3 & w4 & _ & _ & _ & Hd & _ & Ha & _); [by vm_compute|].
  injection Hd as <- _. by exists w3, w4, tgt.
Defined.


(** *** A pool of workers *)

Definition worker (id zone : string) : Worker :=
  {| WorkerID := id; ActualState := "deployed"; Health_State := "normal"; Health_Message := "Ready"; PoolName := "default";
     Location := zone; SubnetIDs := ["subnet-" +:+ zone] |}.

#[export] Instance node_cloud : CloudApi Store := {
  aws_NewSession := mret tt;
  DescribeInstances := mret [];
  SendCommand := λ _ _, mret None;
  ListCommandInvocations := λ _, mret ([], None);
  RebootInstances := λ _, mret tt;
  StopInstances := λ _, mret tt;
  TerminateInstances := λ _, mret tt;
  cloud_NewClient := mret tt;
  SetInstanceGroupSize := λ _ _ _, mret tt;
  GetInstanceGroupSize := λ _, mret 0;
  InspectInstanceGroup := mret [];
  ops_SetClusterVersion := λ _ _, mret tt;
  SetInstanceGroupVersion := λ _ _ _, mret tt;
  GetInstance := λ _, mret None;
  DeleteInstance := λ _ _, mret tt;
  ExecShell := λ cmd, mret ((if Contains cmd "jq" then "normal" else "", ""), None);
  Unmarshal_Worker := λ _, Ok (worker "w1" "z1");
  Unmarshal_Workers := λ _, Ok [worker "w1" "z1"; worker "w2" "z1"; worker "w3" "z2"];
  Unmarshal_Clusters := λ _, Ok [];
  Unmarshal_ClusterConfig := λ _, Ok {| config_ClusterID := "1"; ClusterName := "torpedo" |};
  range_zones := map_to_list;
}.

Definition pool_world : Store :=
  with_objects [new_object KConfigMap iksClusterInfoConfigMapName "kube-system" None] start.

Lemma AddWorkerPool_success_witness :
  ∃ clusterName (later : list Worker), ∀ worker, worker ∈ later → seen_ready (W := Store) clusterName worker.
Proof.
  destruct (AddWorkerPool_success "extra" 1 pool_world (AddWorkerPool "extra" 1 pool_world).2)
    as (name & workers & zones & later & w1 & w2 & w3 & w4 & w5 & _ & _ & _ & _ & _ & Hr); [done|by vm_compute|].
  by exists name, later.
Defined.
End NodeDemo.
