(* ===== verification/SchedDemo.v ===== *)
(** The theorems about the clouds at work: a shell that answers for one cluster of Azure, the
    nodes of PxDemo as machines of Google's cloud, a pool of workers of IBM's cloud and a node
    group of Amazon's. *)

From Stdlib Require Import Ascii.
From S2P Require Import Prelude GoStrings Errors Effects Strconv GoJson Concur Task OpenStorageApi NodeRegistry PxDriver PureDevices SchedCloud SchedAks SchedAksProps SchedGke SchedIks SchedIksProps K8sAutopilot SchedEks SchedEksProps PxDemo.

Module SchedDemo.
Import ClockWorld.

(** *** Azure: a pool of four nodes *)

Definition pool_json : json := JObject
  [("availabilityZones", JArray [JString "1"]); ("count", JNumber "4"); ("name", JString "nodepool1");
   ("provisioningState", JString "Succeeded"); ("upgradeSettings", JObject [("maxSurge", JNull)])].

Definition cluster_json : json := JObject
  [("agentPoolProfiles", JArray [pool_json]); ("currentKubernetesVersion", JString "1.27.3"); ("name", JString "dev");
   ("provisioningState", JString "Succeeded")].

#[export] Instance az_shell : Shell Z := {
  Getenv := λ v, if decide (v = "AZURE_CLUSTER_NAME") then "dev" else "";
  ExecShell := λ cmd, mret (if decide (Contains cmd "aks show" = true) then encode cluster_json else "", "", None);
}.

#[export] Instance az_ops : CloudOps Z := {
  ops_New := mret tt;
  GetInstanceGroupSize := λ _, mret 4;
  SetInstanceGroupSize := λ _ _ _, mret tt;
  SetClusterVersion := λ _ _, mret tt;
  SetInstanceGroupVersion := λ _ _ _, mret tt;
  SetInstanceUpgradeStrategy := λ _ _ _ _, mret tt;
  DeleteInstance := λ _ _ _, mret tt;
}.

Definition fresh_aks : Aks.aks := Aks.Build_aks true "" "".
Definition used_aks : Aks.aks := Aks.Build_aks true "nodepool1" "dev".

Lemma SetASGClusterSize_success_witness : ∃ c p,
  shown (W := Z) c ∧ p ∈ Aks.AgentPoolProfiles c ∧ Aks.prof_Name p = env_group (W := Z) ∧ Aks.Count p = 4 ∧
  Aks.ProvisioningState p = Aks.expectedProvisioningState.
Proof.
  apply (SetASGClusterSize_success (W := Z) 4 0 (0, fresh_aks) (0, used_aks)). vm_compute. reflexivity.
Defined.

(** The pool has the size that is waited for, so asking for another one ends with an
    error when the time is over. *)
Example SetASGClusterSize_too_small :
  ∃ e, (Aks.SetASGClusterSize (W := Z) 6 0 (0, fresh_aks)).1 = Err e.
Proof. eexists. vm_compute. reflexivity. Qed.

Lemma UpgradeScheduler_success_witness : ∃ c1 c2,
  ran (W := Z) "az aks upgrade --resource-group dev --name dev  --kubernetes-version 1.28.0 --control-plane-only --no-wait --yes" ∧
  shown (W := Z) c1 ∧ Aks.cl_ProvisioningState c1 = "Succeeded" ∧
  ran (W := Z) "az aks nodepool upgrade --resource-group dev --cluster-name dev --nodepool-name nodepool1 --kubernetes-version 1.28.0 --no-wait --yes" ∧
  shown (W := Z) c2 ∧ (∃ p, p ∈ Aks.AgentPoolProfiles c2 ∧ Aks.prof_Name p = env_group (W := Z)) ∧
  ∀ p, p ∈ Aks.AgentPoolProfiles c2 → Aks.prof_Name p = env_group (W := Z) →
    Aks.ProvisioningState p = Aks.expectedProvisioningState.
Proof.
  assert (Aks.UpgradeScheduler (W := Z) "1.28.0" (0, fresh_aks) = (Ok tt, (0, used_aks))) as Hu by (vm_compute; reflexivity).
  pose proof (UpgradeScheduler_success (W := Z) "1.28.0" _ _ Hu) as Hs. cbv zeta in Hs.
  replace (Getenv (W := Z) "AZURE_CLUSTER_NAME") with "dev" in Hs by reflexivity. exact Hs.
Defined.

(** The cluster shows its old version, and the upgrade to another one succeeds. *)
Example UpgradeScheduler_old_version :
  Aks.UpgradeScheduler (W := Z) "1.28.0" (0, fresh_aks) = (Ok tt, (0, used_aks)) ∧
  (∃ c wl, Aks.GetAKSCluster (W := Z) (0, used_aks) = (Ok c, wl) ∧ Aks.CurrentKubernetesVersion c = "1.27.3").
Proof. split; [vm_compute; reflexivity|]. eexists _, _. vm_compute. done. Qed.

(** *** Google's cloud: two nodes in two zones *)
Import PxDemo.

Definition in_zone (z : string) (n : Node) : Node :=
  {| storageNode := storageNode n; uuid := uuid n; VolDriverNodeID := VolDriverNodeID n; Name := Name n;
     Addresses := Addresses n; UsableAddr := UsableAddr n; Type_ := Type_ n; Zone := z; Region := Region n;
     TopologyZone := TopologyZone n; TopologyRegion := TopologyRegion n;
     IsStorageDriverInstalled := IsStorageDriverInstalled n; IsMetadataNode := IsMetadataNode n;
     StoragePools := StoragePools n; PxPodRestartCount := PxPodRestartCount n |}.

Definition w_zones : Demo :=
  set_px ((λ s, {| nodeRegistry := <["u2" := in_zone "europe-west1-c" n2]> (<["u1" := in_zone "europe-west1-b" n1]> ∅);
                  refreshEndpoint := refreshEndpoint s; skipPXSvcEndpoint := skipPXSvcEndpoint s; token := token s;
                  namespace := namespace s; clusterManager := clusterManager s; sdkClients := sdkClients s;
                  legacyClusterManager := legacyClusterManager s |}) (px w0)) w0.

Definition zones_found : outcome (list string) * Demo := Gke.GetZones w_zones.

Lemma Gke_GetZones_spec_witness : ∃ zones w', zones_found = (Ok zones, w') ∧ NoDup zones ∧
  ∀ z, z ∈ zones ↔ ∃ n, n ∈ (map_to_list (nodeRegistry (px w_zones))).*2 ∧ IsStorageDriverInstalled n = true ∧ Zone n = z.
Proof.
  exists ["europe-west1-c"; "europe-west1-b"], w_zones. assert (zones_found = (Ok ["europe-west1-c"; "europe-west1-b"], w_zones)) as Hz.
  { vm_compute. reflexivity. }
  split; [exact Hz|]. exact (Gke_GetZones_spec w_zones _ _ Hz).
Defined.

(** *** IBM's cloud: a pool of two workers; the replacement of one can fail *)
Module Ibm.
Import Iks.

Record Cloud := { c_now : Z; c_workers : list (string * string); c_fails : string; c_client : bool }.

#[export] Instance cloud_clock : Clock Cloud :=
  { now := c_now; sleep := λ d c, {| c_now := c_now c + Z.max 0 d; c_workers := c_workers c; c_fails := c_fails c; c_client := c_client c |} }.

#[export] Instance cloud_shell : Shell Cloud := {
  Getenv := λ v, if decide (v = "IBMCLOUD_API_KEY") then "key" else "";
  ExecShell := λ _, mret ("", "", None);
}.

#[export] Instance cloud_order : MapOrder Cloud := { range_map := λ V m, mret (map_to_list m) }.

#[export] Instance cloud_order_laws : MapOrderLaws Cloud.
Proof. constructor. intros V m w. by exists (map_to_list m), w. Qed.

Definition worker_of '(id, loc) : Worker := Build_Worker id loc "deployed" "deployed" "" "1.28.1_1520" "1.28.1_1520" "normal".

Definition node_of (name pool : string) : CloudNode :=
  {| cn_Name := name; cn_Labels := <[workerPoolLabel := pool]> {[nodeRegionLabel := "eu-de"]};
     cn_ProviderID := "ibm://acc///cl1/" +:+ name |}.

#[export] Instance cloud_core : CloudCore Cloud := {
  core_GetPods := λ _, mret (Some [{| cp_Name := "torpedo"; cp_NodeName := "n0" |}]);
  core_GetNodes := mret (Some [node_of "n0" "default"; node_of "n1" "px"]);
}.

#[export] Instance cloud_api : IksApi Cloud := {
  ibm_NewClient := mret tt;
  session_New := λ _ _, mret tt;
  containerv2_New := λ c, (Ok (if c_client c then (true, None) else (false, Some (Errorf "expired"))), c);
  NewKubernetesServiceApiV1 := λ _ _, mret (true, None);
  GetCluster := λ name, mret (Some {| cr_State := Some "normal"; MasterKubeVersion := Some "1.28.1_1520"; cr_ResourceGroup := Some "rg" |}, "200", None);
  UpdateCluster := λ _ _ _, mret ("204", None);
  ReplaceWokerNode := λ _ id _ c, (Ok ("", if decide (c_fails c = id) then Some (Errorf "forbidden") else Some (Errorf "empty response body")), c);
  Workers_Get := λ _ id _, mret (Build_Worker id "" "deleted" "deleted" "worker_replaced" "" "" "");
  ListByWorkerPool := λ _ _ _ _ c, (Ok (worker_of <$> c_workers c), c);
  GetWorkerPool := λ _ _ _, mret {| WorkerCount := 1; Zones := ["eu-de-1"; "eu-de-2"] |};
  ResizeWorkerPool := λ _ _ _ _, mret tt;
  Clusters_List := λ _, mret [("cl0", "other"); ("cl1", "dev")];
  ErrEmptyResponseBody := Errorf "empty response body";
}.

Definition one_zone : Cloud := {| c_now := 0; c_workers := [("a", "eu-de-1"); ("b", "eu-de-1")]; c_fails := ""; c_client := true |}.
Definition one_zone_bad : Cloud := {| c_now := 0; c_workers := [("a", "eu-de-1"); ("b", "eu-de-1")]; c_fails := "b"; c_client := true |}.
Definition two_zones : Cloud := {| c_now := 0; c_workers := [("a", "eu-de-1"); ("b", "eu-de-2")]; c_fails := "b"; c_client := true |}.
Definition expired : Cloud := {| c_now := 0; c_workers := []; c_fails := ""; c_client := false |}.

Definition new_iks : IKS := Build_IKS true "" "" false false "" "".
Definition used_iks : IKS := Build_IKS true "dev" "eu-de" true true "rg" "px".
Definition broken_iks : IKS := Build_IKS true "dev" "eu-de" true false "rg" "px".

(** The names are found in the labels and the provider of the nodes. *)
Example configured : configureIKSClient (one_zone, new_iks) = (Ok tt, (one_zone, used_iks)).
Proof. vm_compute. reflexivity. Qed.

Definition alone (n : nat) : list nat := replicate n 0%nat.

Lemma Iks_UpgradeScheduler_success_witness :
  control_plane_at (W := Cloud) used_iks "1.28" ∧ workers_at (W := Cloud) used_iks "px" "1.28".
Proof.
  apply (Iks_UpgradeScheduler_success (alone 7) "1.28" (one_zone, new_iks) one_zone used_iks). vm_compute. reflexivity.
Defined.

Lemma Iks_UpgradeWorkerPool_success_witness : ∃ w2 w3 k',
  Workers_Get (W := Cloud) "dev" "b" (in_group used_iks) w2 = (Ok k', w3) ∧ replaced k' = true.
Proof.
  apply (Iks_UpgradeWorkerPool_success (alone 7) "px" "1.28" one_zone used_iks one_zone used_iks
           (worker_of <$> c_workers one_zone) one_zone "eu-de-1") with (k := worker_of ("b", "eu-de-1")).
  - vm_compute. reflexivity.
  - reflexivity.
  - intros k Hk. vm_compute in Hk. set_unfold in Hk. by destruct Hk as [->|[->|[]]].
  - right. left.
Defined.

Lemma Iks_reported_errors_witness : ∃ workers w1 (errors : list string),
  ListByWorkerPool (W := Cloud) "dev" "px" false (in_group used_iks) one_zone_bad = (Ok workers, w1) ∧
  ∀ t, t ∈ errors → ∃ e', t = Error e' ∧ genuine (W := Cloud) workers used_iks e'.
Proof.
  destruct (UpgradeWorkerPool (alone 8) "px" "1.28" (one_zone_bad, used_iks)) as [[[]|e|m|] [w' i']] eqn:Hu;
    [by vm_compute in Hu| |by vm_compute in Hu..].
  destruct (Iks_reported_errors _ _ _ _ _ _ _ _ Hu) as [(w1 & e' & Hl)|(workers & w1 & errors & Hl & He & Hall)]; [done|].
  exists workers, w1, errors. by split.
Defined.

(** The two goroutines of two locations: the one that failed has stored its error, the
    other one stores its success before the first looks, and the failure is lost. *)
Example Iks_lost_failure :
  UpgradeWorkerPool [1; 1; 0; 0; 1; 1; 0; 0]%nat "px" "1.28" (two_zones, used_iks) = (Ok tt, (two_zones, used_iks)) ∧
  ∃ e, UpgradeWorkerPool [1; 1; 1; 1; 1; 0; 0; 0; 0]%nat "px" "1.28" (two_zones, used_iks) = (Err e, (two_zones, used_iks)).
Proof. split; [vm_compute; reflexivity|]. eexists. vm_compute. reflexivity. Qed.

(** A configured driver whose next configuration fails loses its container client. *)
Example lost_client_reached :
  ∃ e, configureIKSClient (expired, used_iks) = (Err e, (expired, broken_iks)).
Proof. eexists. vm_compute. reflexivity. Qed.

Lemma Iks_configure_lost_client_witness :
  configureIKSClient (expired, broken_iks) = (Ok tt, (expired, broken_iks)) ∧
  GetZones (expired, broken_iks) = (Panic nil_pointer, (expired, broken_iks)) ∧
  DeleteNode PxDemo.n1 (expired, broken_iks) = (Panic nil_pointer, (expired, broken_iks)).
Proof. apply (Iks_configure_lost_client expired broken_iks PxDemo.n1); [reflexivity|reflexivity|by eexists]. Defined.
End Ibm.

(** *** Amazon's cloud: a node group in one scaling group of three *)
Module Aws.
Import Eks.

Record Amazon := { a_now : Z; a_capacity : Z }.

#[export] Instance aws_clock : Clock Amazon :=
  { now := a_now; sleep := λ d a, {| a_now := a_now a + Z.max 0 d; a_capacity := a_capacity a |} }.

#[export] Instance aws_shell : Shell Amazon := {
  Getenv := λ v, if decide (v = "EKS_CLUSTER_NAME") then "dev" else "";
  ExecShell := λ _, mret ("", "", None);
}.

Definition node_in (name group : string) : CloudNode :=
  {| cn_Name := name; cn_Labels := <[nodeGroupLabel := group]> {[nodeRegionLabel := "us-east-1"]};
     cn_ProviderID := "aws:///us-east-1a/" +:+ name |}.

#[export] Instance aws_core : CloudCore Amazon := {
  core_GetPods := λ _, mret (Some [{| cp_Name := "torpedo"; cp_NodeName := "i-0" |}]);
  core_GetNodes := mret (Some [node_in "i-0" "torpedo"; node_in "i-1" "px"]);
}.

Definition a_cluster : Cluster := {| cl_Status := "ACTIVE"; cl_Version := Some "1.28" |}.
Definition a_group : Nodegroup :=
  {| ng_Status := "ACTIVE"; ReleaseVersion := Some "1.28.5-20240227"; AutoScalingGroups := Some [Some "asg-1"] |}.

#[export] Instance aws_api : EksApi Amazon := {
  LoadDefaultConfig := λ _, mret tt;
  NewSession := mret tt;
  DescribeCluster := λ _, mret (Some a_cluster);
  UpdateClusterVersion := λ _ _, mret tt;
  UpdateNodegroupVersion := λ _ _ _, mret tt;
  UpdateNodegroupConfig := λ _ _ _ _, mret tt;
  DescribeNodegroup := λ _ _, mret (Some a_group);
  DescribeInstances := λ _, mret [];
  pages := λ _, mret [];
  TerminateInstances := λ _, mret tt;
  DescribeAutoScalingGroups := λ _ a, (Ok [Some (a_capacity a)], a);
  UpdateAutoScalingGroup := λ _ _ _ size a, (Ok tt, {| a_now := a_now a; a_capacity := size |});
  SendCommand := λ _ _ _, mret None;
  ListCommandInvocations := λ _, mret ([], None);
}.

Definition new_eks : EKS := Build_EKS "" "" false false "" false.
Definition used_eks : EKS := Build_EKS "dev" "us-east-1" true true "px" false.
Definition three : Amazon := {| a_now := 0; a_capacity := 3 |}.

Lemma Eks_UpgradeScheduler_success_witness :
  (∃ w1 w2 c, DescribeCluster (W := Amazon) "dev" w1 = (Ok (Some c), w2) ∧ cl_Status c = StatusActive ∧
     ToString (cl_Version c) = "1.28") ∧
  ∃ w1 w2 g, DescribeNodegroup (W := Amazon) "dev" "px" w1 = (Ok (Some g), w2) ∧ ng_Status g = StatusActive ∧
     HasPrefix (ToString (ReleaseVersion g)) "1.28" = true.
Proof. apply (Eks_UpgradeScheduler_success "1.28" (three, new_eks) three used_eks). vm_compute. reflexivity. Defined.

Definition six : Amazon := {| a_now := 0; a_capacity := 6 |}.

Lemma Eks_SetASGClusterSize_success_witness : ∃ asgName w1 w2 capacity rest,
  DescribeAutoScalingGroups (W := Amazon) [asgName] w1 = (Ok (capacity :: rest), w2) ∧ ToInt32 capacity = 6.
Proof.
  apply (Eks_SetASGClusterSize_success 6 (10 * Minute) (three, new_eks) (six, used_eks)); [lia|]. vm_compute. reflexivity.
Defined.

(** A size over 32 bits is cut: asking for 2^32 + 3 nodes leaves the three there are. *)
Example SetASGClusterSize_cut :
  SetASGClusterSize 4294967299 (10 * Minute) (three, new_eks) = (Ok tt, (three, used_eks)).
Proof. vm_compute. reflexivity. Qed.

Lemma Eks_never_configured_witness : isConfigured (configureEKSClient (three, new_eks)).2.2 = false.
Proof. apply (Eks_never_configured three new_eks); [vm_compute; discriminate|reflexivity]. Defined.
End Aws.
End SchedDemo.
