(* ===== verification/SchedDcosDemo.v ===== *)
(** The theorems of SchedDcosProps at work: one application of a file, on the nodes of
    PxDemo. *)

From Stdlib Require Import Ascii.
From S2P Require Import Prelude GoStrings Errors Effects Strconv GoJson Task OpenStorageApi NodeRegistry SpecFactory PxDriver VolumeDrivers PureDevices K8sNodes K8sDestroy SchedCloud SchedDcos SchedDcosProps PxDemo.

Module DcosDemo.
Import Dcos PxDemo.

Lemma px_RandomizeVolumeName_spec_witness :
  px_RandomizeVolumeName "7f" "name=data,size=10" = "name=data_7f,size=10".
Proof.
  apply (px_RandomizeVolumeName_spec "7f" "data" "size=10"); [discriminate|vm_compute; reflexivity|vm_compute; reflexivity].
Defined.

Definition web : Application :=
  {| app_ID := "/web"; DockerParameters := Some [{| p_Key := "volume-driver"; p_Value := "pxd" |};
                                                 {| p_Key := "volume"; p_Value := "name=data,size=10" |}] |}.

#[export] Instance demo_files : DcosFiles := {
  Walk := λ dir, [(dir, Some true); (dir +:+ "/web.json", Some false)];
  read_file := λ _, Ok "{}";
  Unmarshal_Application := λ _, Ok web;
  read_dir := λ _, Ok [("web", true)];
  range_specs := map_to_list;
}.

#[export] Instance demo_shell : Shell Demo := { Getenv := λ _, ""; ExecShell := λ _, mret ("", "", None) }.

Definition missing : error := Errorf "App '/web' does not exist".

#[export] Instance demo_api : DcosApi Demo := {
  http_Get := λ _, mret (encode (JObject [("slaves", JArray [])]));
  marathon_NewClient := λ _, mret tt;
  client_CreateApplication := mret;
  client_WaitOnApplication := λ _ _, mret tt;
  client_Tasks := λ _, mret [];
  client_KillTasks := λ _, mret tt;
  client_DeleteApplication := λ _ _, mret tt;
  client_Application := λ _, throw missing;
  client_Deployments := mret [];
  client_WaitOnDeployment := λ _ _, mret tt;
  client_DeleteDeployment := λ _ _, mret tt;
  docker_NewEnvClient := mret tt;
  VolumeInspect := λ _, mret tt;
  VolumeRemove := λ _ _, mret tt;
  node_uuid := mret "u9";
  driver := unit;
  volume_Get := λ name, if decide (name = "pxd") then Ok tt else Err (Errorf "unknown driver");
  RandomizeVolumeName := λ _ params, mret (px_RandomizeVolumeName "7f" params);
  ExtractVolumeInfo := λ _ params, Ok (params, ∅);
}.

Definition new_dcos : dcos := Build_dcos false "" false ∅ ∅ [].

(** Init reads the application of the directory. *)
Definition set_up : outcome unit * (Demo * dcos) := Init "specs" "pxd" (w0, new_dcos).
Definition ready : dcos := set_up.2.2.

Example set_up_Ok : set_up.1 = Ok tt ∧ apps ready = {["web" := {| Key := "web"; SpecList := [FileObj "specs/web/web.json"];
  Enabled := true; IsCSI := false; NameSpace := "" |}]}.
Proof. split; vm_compute; reflexivity. Qed.

Lemma ready_files : files_only ready.
Proof.
  intros key app Hk. destruct set_up_Ok as [_ Ha]. rewrite Ha in Hk. apply lookup_singleton_Some in Hk as [_ <-].
  constructor; [by eexists|constructor].
Qed.

Definition volumes (a : Application) : list string := p_Value <$> keep is_volume (default [] (DockerParameters a)).

(** The second scheduling of the application finds the names of the first. *)
Example scheduled_twice :
  let first := Schedule "id1" ["web"] (w0, ready) in
  let second := Schedule "id2" ["web"] first.2 in
  volumes <$> made second.2.2 = [["name=data_7f,size=10"]; ["name=data_7f_7f,size=10"]].
Proof. vm_compute. reflexivity. Qed.

Definition first_run : outcome (list Context) * (Demo * dcos) := Schedule "id1" ["web"] (w0, ready).

Lemma Dcos_Schedule_contexts_witness : ∃ ctxs w' s', first_run = (Ok ctxs, (w', s')) ∧
  Forall2 (λ key ctx, ∃ d, apps ready !! key = Some d ∧ Enabled d = true ∧ context_of (W := Demo) "id1" ready s' d ctx) ["web"] ctxs.
Proof.
  destruct first_run as [[ctxs|e|m|] [w' s']] eqn:Hr; [|by vm_compute in Hr..]. exists ctxs, w', s'. split; [reflexivity|].
  exact (Dcos_Schedule_contexts "id1" ["web"] w0 ready ctxs w' s' ready_files ltac:(discriminate) Hr).
Defined.

Definition web_spec : AppSpec SpecObject :=
  {| Key := "web"; SpecList := [FileObj "specs/web/web.json"]; Enabled := true; IsCSI := false; NameSpace := "" |}.

Definition one_spec : outcome SpecObject * (Demo * dcos) := schedule_spec web_spec (FileObj "specs/web/web.json") (w0, ready).

Lemma Dcos_schedule_shared_witness : ∃ obj w' s', one_spec = (Ok obj, (w', s')) ∧
  ∃ a' b w1 w2, randomized (W := Demo) ready web a' ∧ object s' (FileObj "specs/web/web.json") = Some a' ∧
    client_CreateApplication a' w1 = (Ok b, w2) ∧ object s' obj = Some b.
Proof.
  destruct one_spec as [[obj|e|m|] [w' s']] eqn:Hr; [|by vm_compute in Hr..]. exists obj, w', s'. split; [reflexivity|].
  refine (Dcos_schedule_shared web_spec "specs/web/web.json" w0 ready web obj w' s' Hr _). vm_compute. reflexivity.
Defined.

Definition made_web : dcos := Build_dcos true "pxd" true ∅ ∅ [web].
Definition web_ctx : Context :=
  {| UID := "id1"; App := {| Key := "web"; SpecList := [MadeObj 0]; Enabled := true; IsCSI := false; NameSpace := "" |} |}.

Lemma Dcos_Destroy_success_witness :
  (∃ w1 w2 : Demo, client_DeleteApplication "/web" false w1 = (Ok tt, w2)) ∧
  ∃ (w1 w2 : Demo) e, client_Application "/web" w1 = (Err e, w2) ∧ Contains (Error e) "does not exist" = true.
Proof.
  apply (Dcos_Destroy_success web_ctx {[OptionsWaitForDestroy := true]} w0 made_web (w0, made_web) (MadeObj 0) web).
  - vm_compute. reflexivity.
  - vm_compute. reflexivity.
  - left.
  - reflexivity.
Defined.
End DcosDemo.
