(* ===== verification/SchedOpenshiftDemo.v ===== *)
(** The theorems about OpenShift at work: a cluster on vSphere whose commands, version
    object and machines follow the clock of the cluster of K8sAppDemo. *)

From Stdlib Require Import Ascii.
From S2P Require Import Prelude GoStrings Errors Effects Regexp Strconv Concur Task ConcurTask OpenStorageApi NodeRegistry AutopilotRules SpecFactory PxDriver PxNodeOps K8sObjects VolumeDrivers K8sSpecs K8sNodes K8sHelm K8sCreate K8sCsi K8sVolumes SchedCloud SchedOpenshift SchedOpenshiftProps K8sDemo K8sAppDemo.

Module OpenshiftDemo.
Import Openshift AppDemo.

(** *** Versions: numbers between dots, with a suffix behind a dash *)

Fixpoint numbers (l : list string) : outcome (list Z) :=
  match l with [] => Ok [] | x :: l' => n ← Atoi x; ns ← numbers l'; Ok (n :: ns) end.

Fixpoint compare (a b : list Z) : comparison :=
  match a, b with
  | x :: a', y :: b' => match (x ?= y)%Z with Eq => compare a' b' | c => c end
  | _, _ => Eq
  end.

Definition parse_version (v : string) : outcome (list Z) :=
  let bad := Err (Errorf ("Malformed version: " +:+ v)) in
  match v with
  | String c _ =>
      if is_digit c then
        match numbers (Split (default "" (head (Split v "-"))) ".") with
        | Ok ns => Ok (ns ++ replicate (3 - length ns) 0)
        | _ => bad
        end
      else bad
  | EmptyString => bad
  end.

#[export] Instance demo_versions : VersionLib := {
  version := list Z;
  NewVersion := parse_version;
  Segments := id;
  GreaterThanOrEqual := λ a b, match compare a b with Lt => false | _ => true end;
  LessThan := λ a b, match compare a b with Lt => true | _ => false end;
}.

#[export] Instance demo_shell : Shell Store := {
  Getenv := λ v, if decide (v = "OCP_SURGE_UPGRADE_VALUE") then "2" else "";
  ExecShell := λ _, mret ("", "", None);
}.

(** There are three machines for ten seconds, then four; the generation of the version
    object changes after five. *)
Definition answer_of (w : Store) (cmd : string) : string :=
  if Contains cmd "releaseClientVersion" then quoted "4.14.2" +:+ String "010" ""
  else if Contains cmd "awk" then (if decide (s_now w < 10 * Second) then "3" else "4")
  else if Contains cmd "tail -1" then "worker-new Running 5m"
  else if Contains cmd "get machineset" then "machineset/w" +:+ String "010" ""
  else if Contains cmd "scale" then "machineset/w scaled"
  else if Contains cmd "thanos" then "thanos.local"
  else "".

Definition cluster_at (w : Store) : ClusterVersion :=
  {| Channel := "stable-4.13"; ObservedGeneration := if decide (s_now w < 5 * Second) then 1 else 2; Desired_Version := "4.14.2";
     cv_Conditions := [("Available", "True", ""); (OperatorProgressing, ConditionFalse, "")];
     History := [("4.14.2", CompletedUpdate); ("4.13.1", CompletedUpdate)] |}.

Definition ready_node (n : string) : Openshift.NodeStatus :=
  {| ns_Name := n; ns_Conditions := [("Ready", ConditionTrue)]; KubeletVersion := "v1.27.6" |}.

Definition privileged : SecurityContextConstraints :=
  {| scc_Name := "privileged"; ResourceVersion := "17"; Users := ["system:admin"]; scc_Rest := "" |}.

#[export] Instance demo_api : OpenshiftApi Store := {
  CombinedOutput := λ name args w,
    (Ok (match args with
         | [_; cmd] => answer_of w cmd
         | _ => if existsb (λ a, bool_decide (a = "get")) args then "2" else ""
         end, None), w);
  ExecTorpedoShell := λ _ _, mret ("", "", None);
  DoRequest := λ _, mret "";
  http_Get_body := λ _, mret ("Name:  4.14.2" +:+ String "010" "");
  GetClusterVersion := λ w, (Ok (cluster_at w), w);
  GetSecurityContextConstraints := λ n, if decide (n = "privileged") then mret privileged else throw not_found;
  CreateSecurityContextConstraints := λ scc, mret scc;
  UpdateSecurityContextConstraints := λ _, mret tt;
  optest_GetOpenshiftVersion := mret "4.13.1";
  optest_GetPxOperatorVersion := mret [23; 10; 5];
  GetNodes_status := mret [ready_node "master"; ready_node "worker"];
  GetNodeByName_core := λ n, mret {| core_Name := n; core_Addresses := [("InternalIP", "10.0.0.9")] |};
  GetConfigMap := λ _ _, throw not_found;
  CreateConfigMap := λ _ _ _, mret tt;
  UpdateConfigMap := λ _ _ _, mret tt;
  ListStorageClusters := mret [ {| stc_Name := "px"; stc_Namespace := "kube-system"; PrometheusEnabled := Some true;
                                   Autopilot := Some (true, [ {| dp_Type := "prometheus"; dp_Params := Some ∅ |} ]); stc_Rest := "" |} ];
  UpdateStorageCluster := λ _, mret tt;
  IsNotFound_k8s := λ e, bool_decide (e = not_found);
}.

Definition storage_node : StorageNode :=
  {| Id := "id-1"; Hostname := "worker-old"; DataIp := ""; MgmtIp := ""; SchedulerNodeName := "worker-old"; OpenStorageApi.NodeStatus := STATUS_OK;
     Pools := []; Disks := ∅; NodeLabels := ∅ |}.

#[export] Instance demo_recycle : RecycleDriver Store := {
  rdriver := unit;
  volume_Get := λ _, Ok tt;
  GetDriverNode := λ _, mret storage_node;
  GetStoragelessNodes := λ _, mret [];
  vol_Contains := λ _, px_Contains;
  WaitForPxPodsToBeUp := λ _ _, mret tt;
  WaitForNodeIDToBePickedByAnotherNode := λ _ d, mret d;
  ValidateNodeAfterPickingUpNodeID := λ _ _ _ _, mret tt;
  UpdateNodeWithStorageInfo := λ _ _ _, mret tt;
  WaitDriverUpOnNode := λ _ _ _, mret tt;
}.

#[export] Instance demo_machines : MachineDriver Store := {
  AddMachine := λ _, mret tt;
  PowerOnVMByName := λ _, mret tt;
  PowerOffVM := λ _, mret tt;
  DestroyVM := λ _, mret tt;
  SystemctlUnitExist := λ _ _ _, mret false;
}.

(** *** Upgrading *)

Definition v4_14_2 : @version demo_versions := [4; 14; 2].

Lemma getChannel_spec_witness : getChannel "fast-4.14.2" = Ok "fast-4.14".
Proof.
  apply (proj1 (getChannel_spec "fast" "4.14.2" v4_14_2 4 14 [2] eq_refl eq_refl eq_refl)); [|vm_compute; reflexivity].
  do 2 right. by left.
Defined.

Definition no_version : openshift := {| openshiftVersion := "" |}.
Definition upgrade : outcome unit * (Store * openshift) := UpgradeScheduler "stable-4.14" (start, no_version).

Lemma upgrade_Ok : upgrade.1 = Ok tt ∧ openshiftVersion upgrade.2.2 = "4.13.1".
Proof. vm_compute. done. Qed.

Lemma Openshift_UpgradeScheduler_success_witness :
  ∃ channel clientVersion, getChannel "stable-4.14" = Ok channel ∧ channel_selected (W := Store) channel ∧
    seen (W := Store) (λ cv, Desired_Version cv = if matches_channel "stable-4.14" then clientVersion else "stable-4.14") ∧
    seen (W := Store) (settled clientVersion) ∧ nodes_ready (W := Store).
Proof.
  apply (Openshift_UpgradeScheduler_success "stable-4.14" start no_version upgrade.2.1 upgrade.2.2).
  rewrite <- (proj1 upgrade_Ok). rewrite <- !surjective_pairing. reflexivity.
Defined.

(** The version library parses nothing that begins with a letter. *)
Lemma demo_no_name c v (x : @version demo_versions) : c ∈ channels → HasPrefix v c = true → NewVersion v ≠ Ok x.
Proof.
  intros Hc [t ->]%HasPrefix_spec. repeat (apply elem_of_cons in Hc as [->|Hc]; [by vm_compute|]). by apply elem_of_nil in Hc.
Qed.

Lemma Openshift_only_channels_witness :
  matches_channel "stable-4.14" = true ∨ (free_of "-" "stable-4.14" = false ∧ getChannel "stable-4.14" = Ok "").
Proof.
  apply (Openshift_only_channels (W := Store) "stable-4.14" (start, no_version) upgrade.2).
  - intros x. vm_compute. discriminate.
  - exact demo_no_name.
  - rewrite <- (proj1 upgrade_Ok). apply surjective_pairing.
Defined.

(** To the plain version the cluster says no: there is nothing behind a dash to parse. *)
Example plain_version :
  (UpgradeScheduler "4.14.2" (start, no_version)).1 =
  Err (Errorf "failed to select channel for OCP version [4.14.2], Err: failed to parse version [], Err: Malformed version: ").
Proof. vm_compute. reflexivity. Qed.

(** *** Scaling *)

Lemma scaled : (SetASGClusterSize 4 0 start).1 = Ok tt.
Proof. vm_compute. reflexivity. Qed.

Lemma Openshift_SetASGClusterSize_success_witness :
  ∃ name initial count w1 w2 w3, getMachinesCount start = (Ok initial, w1) ∧
    ran (W := Store) ("kubectl -n " +:+ OpenshiftMachineNamespace +:+ " scale " +:+ name +:+ " --replicas " +:+ Itoa 4) ∧
    getMachinesCount w2 = (Ok count, w3) ∧ initial < count ∧ ∃ machine, joined (W := Store) machine.
Proof.
  apply (Openshift_SetASGClusterSize_success 4 0 start (SetASGClusterSize 4 0 start).2).
  rewrite <- scaled. apply surjective_pairing.
Defined.

(** *** Recycling a node *)

Definition old_node : Node :=
  {| storageNode := Some storage_node; uuid := "u1"; VolDriverNodeID := "id-1"; Name := "worker-old"; Addresses := ["10.0.0.2"];
     UsableAddr := "10.0.0.2"; Type_ := TypeWorker; Zone := ""; Region := ""; TopologyZone := ""; TopologyRegion := "";
     IsStorageDriverInstalled := true; IsMetadataNode := false; StoragePools := []; PxPodRestartCount := 0 |}.

Definition on_vsphere : Store :=
  let k := s_k8s start in
  let p := s_px start in
  {| s_now := 0;
     s_px := {| nodeRegistry := {["u1" := old_node]}; refreshEndpoint := refreshEndpoint p; skipPXSvcEndpoint := skipPXSvcEndpoint p;
                token := token p; namespace := namespace p; clusterManager := clusterManager p; sdkClients := sdkClients p;
                legacyClusterManager := legacyClusterManager p |};
     s_k8s := {| NodeDriverName := vsphere_DriverName; VolDriverName := VolDriverName k; PureVolumes := PureVolumes k;
                 eventsStorage := eventsStorage k; defaultTorpedoLabel := defaultTorpedoLabel k; config := config k |};
     s_sched := s_sched start; s_objects := []; s_pods := []; s_ssh := s_ssh start; s_vs := s_vs start; s_aws := s_aws start;
     s_cloud := s_cloud start |}.

(** The goroutines take turns. *)
Definition turns : list nat := [0; 1; 0; 1; 0; 0]%nat.
Definition recycled : outcome unit * Store := DeleteNode turns old_node on_vsphere.

Lemma recycled_Ok : recycled.1 = Ok tt ∧ Name <$> (map_to_list (nodeRegistry (s_px recycled.2))).*2 = ["worker-new"].
Proof. vm_compute. done. Qed.

Lemma Openshift_DeleteNode_success_witness :
  ∃ (worker : list Node) (d : rdriver) (delNode : StorageNode) (n' : Node) (storageless : list StorageNode) (machine : string)
    (newNode : Node) (wa wb ws wd we wf wc : Store),
    registry_GetWorkerNodes on_vsphere = (Ok worker, wa) ∧ Registry.Contains worker old_node = true ∧
    volume_Get (VolDriverName (k8s wa)) = Ok d ∧ GetDriverNode d (wa, old_node) = (Ok delNode, (wb, n')) ∧
    GetStoragelessNodes d wb = (Ok storageless, ws) ∧
    ran (W := Store) ("kubectl delete machines -n openshift-machine-api " +:+ Name n') ∧
    (vol_Contains d storageless delNode = false → NodeDriverName (k8s wa) = vsphere_DriverName →
       ∃ w1 w2 : Store, DestroyVM n' w1 = (Ok tt, w2)) ∧
    registry_DeleteNode n' wd = (Ok tt, we) ∧ checkAndGetNewNode we = (Ok machine, wf) ∧ joined (W := Store) machine ∧
    (vol_Contains d storageless delNode = false →
       ∃ px w1 w2 w3, WaitForNodeIDToBePickedByAnotherNode d delNode w1 = (Ok px, w2) ∧
         ValidateNodeAfterPickingUpNodeID d delNode px storageless w2 = (Ok tt, w3)) ∧
    Name newNode = machine ∧ WaitDriverUpOnNode d newNode driverUpTimeout wc = (Ok tt, recycled.2).
Proof.
  apply (Openshift_DeleteNode_success turns old_node on_vsphere recycled.2).
  rewrite <- (proj1 recycled_Ok). apply surjective_pairing.
Defined.

(** *** Applications *)

Definition two_apps : list (AppSpec nat) := [factory_app "web" [0; 4]%nat; factory_app "db" [5]%nat].
Definition on_openshift := ScheduleWithCustomAppSpecs K8sDemo.volumes two_apps "1" opts_web start.

Lemma Openshift_schedule_granted_witness :
  ∃ ctxs, on_openshift.1 = Ok ctxs ∧
    Forall2 (λ app ctx, UID ctx = "1" ∧ Key (App ctx) = Key app ∧ Enabled (App ctx) = Enabled app ∧
      opt_Namespace (ScheduleOpts ctx) = namespace_of opts_web "1" app ∧
      granted (W := Store) (namespace_of opts_web "1" app)) two_apps ctxs.
Proof.
  destruct (on_openshift.1) as [ctxs|e|s|] eqn:E; [|vm_compute in E; discriminate E..].
  exists ctxs. split; [reflexivity|].
  apply (Openshift_schedule_granted K8sDemo.volumes two_apps "1" opts_web start ctxs on_openshift.2).
  rewrite <- E. apply surjective_pairing.
Defined.
End OpenshiftDemo.
